(* ===== verification/_CoqProject ===== *)
-Q . S2P
Prelude.v
Status.v
Coding.v
Crc32c.v
CrcCombine.v
Device.v
MemDevice.v
Posix.v
MemOs.v
ZoneFs.v
ZoneFsProps.v
ZbdLib.v
Zone.v
Zbd.v
ZbdOpen.v
ZbdProps.v
Paths.v
ZbdFrame.v
Superblock.v
MetaLog.v
ZoneFile.v
ZoneFileProps.v
FileWrite.v
FileRead.v
WalRecovery.v
FileReadProps.v
FileWriteProps.v
WalAppend.v
WritableProps.v
FileWriter.v
FileWriterProps.v
FileWriterOps.v
ZonedFile.v
LogFormat.v
LogProps.v
LogCrash.v
LogFile.v
LogZenFS.v
LogManifest.v
WideColumns.v
WriteBatch.v
WriteBatchProps.v
BatchCalls.v
MemTableInserter.v
DbRecovery.v
DbProps.v
ZenFS.v
ZenFSTerm.v
ZenFSFrame.v
ZenFSOps.v
ZenFSWriter.v
ZenFSTable.v
ZenFSNames.v
ZenFSRecover.v
ZenFSSpace.v
ZenFSMigrate.v
