(* ===== verification/Prelude.v ===== *)
(** * A verification of ZenFS with ZWAL

    The program is src/zenfs-appends: ZenFS, a file system plugin of RocksDB for
    zoned storage, changed so that write-ahead logs (WAL) are written with zone
    appends that the device may reorder (ZWAL).  The library models it as it is
    built: with WAL_BARRIERS, C++17 paths and assertions off.

    ** The program and the files that model it

    - Status.v: [Status]/[IOStatus] and the monad of the models.  A computation
      on a state returns a value ([Ok]), an error status ([Err]) or is [Stuck]:
      [Blocked] is a wait nobody in the model ends, [Undefined] is undefined
      behaviour of the C++ code (a null pointer, an index out of bounds),
      [OutOfFuel] a loop cut off by its bound.  It also has the rules by which
      the other files reason: [preserves], [gives], [hoare], [runs].
    - Coding.v, Crc32c.v, CrcCombine.v: the encodings and checksums of
      rocksdb-raw/util that the file system and the log use.
    - Device.v, MemDevice.v: the interface [ZonedBlockDeviceBackend] of the
      device and of SZD's log [SZDOnceLog] as type classes, the documented
      behaviour the theorems rely on as laws ([BackendSpec], [ReliableReads],
      [ReliableWrites]), and a device in memory that satisfies them, on which
      the witnesses run.
    - Posix.v, MemOs.v, ZoneFs.v, ZoneFsProps.v, ZbdLib.v (zonefs_zenfs.h/.cc,
      zbdlib_zenfs.h/.cc): the two backends.  The system calls are the class
      [Posix] with the laws [PosixSpec] and [ZoneFsMount], libzbd is the class
      [LibZbd] with the laws [ZbdSpec]; MemOs.v has an operating system in memory
      that satisfies them.
    - Zone.v, Zbd.v, ZbdOpen.v (zbd_zenfs.h, zbd_zenfs.cc): zones and
      [ZonedBlockDevice].  The state [Zbd] has the zones in a heap indexed by
      their number and the tokens for open and active zones.  ZbdProps.v has
      the theorems, ZbdFrame.v what the operations leave alone.
    - Superblock.v, MetaLog.v (fs_zenfs.h, fs_zenfs.cc): the superblock and the
      records of the metadata log.
    - ZoneFile.v (io_zenfs.h, io_zenfs.cc): [ZoneFile], its encoding, its
      extents and links, and the log of a WAL file.  FileWrite.v and FileRead.v
      have its write and read paths with [ZonedWritableFile] and the readers.
      A method runs on an [FSt]: the device, the file, the buffer of the writer
      and the state of the metadata writer, which is an interface.
    - Paths.v: the normalization of names (std::filesystem::path and
      filesystem_utility.h).
    - ZenFS.v, ZenFSOps.v (fs_zenfs.h, fs_zenfs.cc, snapshot.h): the table of
      files with the references that keep file objects alive, the journal,
      recovery, the operations on names, mounting, formatting and the garbage
      collection.  The auxiliary file system is the type class [AuxFileSystem].
    - LogFormat.v (rocksdb-raw/db/log_format.h, log_writer.cc, log_reader.cc):
      log::Writer and log::Reader, which use the write-ahead log files.  The file
      below the writer ([LogDest]), the one below the reader ([LogSource]) and
      the compressors are type classes; LogZenFS.v has the reader's file of ZenFS.
    - FileWriter.v (rocksdb-raw/file/writable_file_writer.h/.cc,
      util/aligned_buffer.h): WritableFileWriter, which stands between log::Writer
      and a file.  The file below is the class [FSWritableFile]; ZonedFile.v has
      the instance of ZenFS, LogFile.v the instance of [LogDest].
    - WideColumns.v, WriteBatch.v (rocksdb-raw/db/wide, db/write_batch.cc,
      db/write_batch_internal.h, include/rocksdb/write_batch.h): the entities and
      the batches that are the records of the log.  The handlers of a batch are the
      class [Handler].
    - MemTableInserter.v (write_batch.cc, db_impl_write.cc, db_impl.h,
      logs_with_prep_tracker.cc): how the leader of a group of writers merges the
      batches, writes the log and inserts into the memtables, which are the class
      [MemTables].
    - DbRecovery.v (db_impl_open.cc): RecoverLogFiles, which replays the logs.

    ** What the theorems show

    - Writing (FileWriteProps.v, WritableProps.v): an append puts exactly its
      data behind the contents of the file, over as many zones as it takes, and
      keeps all other data; a buffered writer refines a contract ([WritableFile])
      of appends and syncs in which a failure leaves a prefix.  The file layer is
      proved against [MetadataWriterSpec]; ZenFSFrame.v shows that the journal
      of the file system satisfies it, because it touches metadata zones only,
      and ZenFSWriter.v draws the conclusion for writers of the file system.
    - Reading (FileReadProps.v): reads return the contents of the file, and what
      was appended is read back; the read path agrees with the one it replaced.
    - Write-ahead logs (WalAppend.v, WalRecovery.v): a flush hands one record to
      the device; chunks whose records were stored in any order are read back in
      the order of the sequence numbers, as one stream.  Also the cases in which
      records are lost or the code never returns.
    - The log of RocksDB (LogProps.v, LogCrash.v, LogZenFS.v): of a log that was
      cut off at any byte exactly the complete records are read back, also when
      its bytes are in a write-ahead log of ZenFS whose chunks reached the device
      in any order.  Also a recovery mode in which the reader never returns.
    - The file writer of RocksDB (FileWriterProps.v, FileWriterOps.v, ZonedFile.v,
      LogFile.v, LogManifest.v): what is appended is in the file after a sync, in
      order, given the laws [FSWritableFileSpec]; the writable files of ZenFS have
      these laws, so that logs like the MANIFEST are read back from the file system.
    - Write batches (WriteBatchProps.v, BatchCalls.v, WideColumns.v): any sequence
      of calls refines an abstract batch, a list of operations with a stack of
      earlier lists; iteration calls the handler for each operation, and cut strings
      are rejected.
    - The database (DbProps.v): after a crash at any byte of the log the recovery
      restores the memtables as they were after a number of groups, the complete
      ones, with the sequence numbers; and the sequence number after a batch.
    - Space (ZenFSSpace.v, ZenFSMigrate.v): deleting files and collecting garbage
      reset zones, and still no file loses data; and what migration does when the
      copy fails.
    - Names (ZenFSTable.v, ZenFSNames.v): names and links of files stay
      consistent over all sequences of operations, failed ones included, and
      what renames and links do when the journal fails.
    - Recovery (ZenFSRecover.v, ZenFSTerm.v, ZoneFileProps.v, MetaLog.v,
      Superblock.v): what was encoded is decoded, from integers to snapshots of
      the file system; damaged records are detected; recovery comes to a result
      whatever the zones hold.
    - The device (ZbdProps.v, Zone.v): allocation, tokens, finishing, resetting
      and reading of zones on every branch, and the invariant of the zones.
    - The backends (ZoneFsProps.v, ZbdLib.v): both satisfy the laws of a device
      that everything above is proved from, given the laws of the system calls.

    ** Conventions and bounds

    Machine integers are [Z] with the wrap-around written out ([+64], [u32]);
    bytes are [list byte].  A [shared_ptr] is a number, with the objects in a map
    and the references in a list; the destructor runs when the last one goes.
    A public operation of the file system is one step, as its locks make it.

    Loops over data recurse on the data.  A loop whose progress is up to the
    device goes round at most [loop_bound] times (a field of the backend); the
    theorems that say that a loop returns assume a bound of the length of the
    buffer or of the number of extents, of which each round consumes one, and
    those that allow [Stuck] say when it may happen.  The decoders recurse on
    the length of their input, of which each round consumes a byte.  The replay of
    a log and the recursion over directories have the same bound; the theorems
    on names hold whatever it is.  The loops of log::Writer and log::Reader have
    fuel: a fragment of a record consumes a byte of it, except the first, and a round
    of the reader consumes a fragment, so that the length of the record and the
    length of the log, each with a small constant, are enough.  The iteration over a
    batch consumes a byte of it in every second round, as an operation is tried again
    once, and commits of recovered transactions are nested at most [depth] deep, which
    the theorems do not bound since they are about writes outside of transactions.

    ** Not modelled

    - libzbd, zonefs, liburing, SZD and the kernel: they are parameters.
    - The compressors of the log, which are parameters; FragmentBufferedReader, which
      reads logs that are still written.
    - In the write path of RocksDB: the protection information of the keys of a batch,
      UpdateTimestamps (a parameter), parallel and pipelined writers, the second
      queue, syncs in the write, updates in place, and the write policies other than
      WriteCommitted.  Memtables and the writing of tables in the recovery are
      parameters; the theorem on crashes is about recoveries that flush nothing.
    - Threads inside an operation: the interleavings of the allocators are in
      ZbdProps.v, but migration does not run next to a writer.
    - Output without effect on the data: logging, metrics, EncodeJson, reports.
    - The command line tool, the scan of /sys for file systems, and the
      functions that only forward to the auxiliary file system.
    - The processor-specific variants of CRC-32C, and the rest of RocksDB
      (memtables, tables, compaction, versions, the interface of the database).
    - src/zenfs-default, the unchanged ZenFS of the benchmarks.

    ** This file

    Machine integers, byte strings, and the lemmas and tactics on them that the
    other files share. *)

From stdpp Require Export base gmap strings list fin_maps.
From coqutil Require Export Byte Word.LittleEndianList.
From Stdlib Require Strings.Byte.
From Stdlib Require Export ZArith Lia.

#[global] Open Scope Z_scope.

(** ** Machine integers

    Unsigned machine integers are [Z] with the wrap-around written out. *)

Definition wrap (w : Z) (x : Z) : Z := x mod 2 ^ w.

Definition u8 (x : Z) : Z := wrap 8 x.
Definition u16 (x : Z) : Z := wrap 16 x.
Definition u32 (x : Z) : Z := wrap 32 x.
Definition u64 (x : Z) : Z := wrap 64 x.

Definition is_u (w x : Z) : Prop := 0 <= x < 2 ^ w.

Declare Scope zenfs_scope.
Delimit Scope zenfs_scope with zenfs.
Notation "x +64 y" := (u64 (x + y)) (at level 50, left associativity) : zenfs_scope.
Notation "x -64 y" := (u64 (x - y)) (at level 50, left associativity) : zenfs_scope.
Notation "x *64 y" := (u64 (x * y)) (at level 40, left associativity) : zenfs_scope.
Notation "x +32 y" := (u32 (x + y)) (at level 50, left associativity) : zenfs_scope.
Notation "x -32 y" := (u32 (x - y)) (at level 50, left associativity) : zenfs_scope.
#[global] Open Scope zenfs_scope.

Create HintDb zenfs.

Lemma wrap_small w x : 0 <= x < 2 ^ w -> wrap w x = x.
Proof. intros H. by apply Z.mod_small. Qed.

Lemma u64_small x : 0 <= x < 2 ^ 64 -> u64 x = x.
Proof. apply wrap_small. Qed.

Lemma u32_small x : 0 <= x < 2 ^ 32 -> u32 x = x.
Proof. apply wrap_small. Qed.

Lemma wrap_range w x : 0 <= w -> 0 <= wrap w x < 2 ^ w.
Proof. intros H. apply Z.mod_pos_bound, Z.pow_pos_nonneg; lia. Qed.

Lemma u64_range x : 0 <= u64 x < 2 ^ 64.
Proof. by apply wrap_range. Qed.

Lemma u32_range x : 0 <= u32 x < 2 ^ 32.
Proof. by apply wrap_range. Qed.

Lemma wrap_idemp w x : wrap w (wrap w x) = wrap w x.
Proof. apply Zmod_mod. Qed.

(** ** Bits *)

Lemma lor_shiftl_add r x s : 0 <= s -> 0 <= r < 2 ^ s -> Z.lor r (Z.shiftl x s) = r + x * 2 ^ s.
Proof.
  intros Hs Hr. rewrite <- Z.shiftl_mul_pow2 by done.
  rewrite <- Z.lxor_lor, Z.add_nocarry_lxor; [done|..].
  all: apply Z.bits_inj'; intros i Hi; rewrite Z.land_spec, Z.bits_0.
  all: destruct (decide (i < s));
    [by rewrite Z.shiftl_spec_low, andb_false_r
    |rewrite <- (Z.mod_small r (2 ^ s)) by done;
     by rewrite Z.mod_pow2_bits_high by lia].
Qed.

(** A boolean property of the first [n] integers, by computation. *)
Lemma Zforall_below (n : nat) (P : Z -> bool) :
  forallb P (map Z.of_nat (seq 0 n)) = true ->
  forall x, 0 <= x < Z.of_nat n -> P x = true.
Proof.
  intros H x Hx. rewrite forallb_forall in H. apply H.
  rewrite <- (Z2Nat.id x) by lia. apply in_map, in_seq. lia.
Qed.

Lemma byte_of_Z_mod x y : x mod 256 = y mod 256 -> byte.of_Z x = byte.of_Z y.
Proof. intros H. apply byte.unsigned_inj. by rewrite !byte.unsigned_of_Z. Qed.

Lemma byte_unsigned_small x : 0 <= x < 256 -> byte.unsigned (byte.of_Z x) = x.
Proof. intros H. rewrite byte.unsigned_of_Z. by apply Z.mod_small. Qed.

(** Removes the wrap-around of every [u64]/[u32] whose argument [lia] can
    bound. *)
Ltac unwrap :=
  repeat match goal with
    | |- context [u64 ?x] => rewrite (u64_small x) by lia
    | |- context [u32 ?x] => rewrite (u32_small x) by lia
    | H : context [u64 ?x] |- _ => rewrite (u64_small x) in H by lia
    | H : context [u32 ?x] |- _ => rewrite (u32_small x) in H by lia
    end.

(** ** Bytes and byte strings *)

Abbreviation byte := Corelib.Init.Byte.byte.
Abbreviation bytes := (list byte).

#[export] Instance byte_eq_decision : EqDecision byte := Stdlib.Strings.Byte.byte_eq_dec.

Definition zlen {A} (l : list A) : Z := Z.of_nat (length l).
Definition ztake {A} (n : Z) (l : list A) : list A := take (Z.to_nat n) l.
Definition zdrop {A} (n : Z) (l : list A) : list A := drop (Z.to_nat n) l.

(** [n] zero bytes. *)
Definition zeros (n : Z) : bytes := replicate (Z.to_nat n) Corelib.Init.Byte.x00.

Section zlists.
Context {A : Type}.
Implicit Types l k : list A.

Lemma zlen_nonneg l : 0 <= zlen l.
Proof. unfold zlen. lia. Qed.

Lemma zlen_nil : zlen (@nil A) = 0.
Proof. done. Qed.

Lemma zlen_cons x l : zlen (x :: l) = 1 + zlen l.
Proof. unfold zlen. simpl length. lia. Qed.

Lemma zlen_app l k : zlen (l ++ k) = zlen l + zlen k.
Proof. unfold zlen. rewrite length_app. lia. Qed.

Lemma zlen_replicate n (x : A) : zlen (replicate n x) = Z.of_nat n.
Proof. unfold zlen. by rewrite length_replicate. Qed.

Lemma zlen_ztake n l : 0 <= n -> zlen (ztake n l) = Z.min n (zlen l).
Proof. intros H. unfold zlen, ztake. rewrite length_take. lia. Qed.

Lemma zlen_zdrop n l : 0 <= n -> zlen (zdrop n l) = Z.max 0 (zlen l - n).
Proof. intros H. unfold zlen, zdrop. rewrite length_drop. lia. Qed.

Lemma zlen_take n l : zlen (take n l) = Z.min (Z.of_nat n) (zlen l).
Proof. unfold zlen. rewrite length_take. lia. Qed.

Lemma zlen_drop n l : zlen (drop n l) = Z.max 0 (zlen l - Z.of_nat n).
Proof. unfold zlen. rewrite length_drop. lia. Qed.

Lemma ztake_app l k : ztake (zlen l) (l ++ k) = l.
Proof.
  unfold ztake, zlen. rewrite Nat2Z.id. apply take_app_length.
Qed.

Lemma ztake_app' n l k : n = zlen l -> ztake n (l ++ k) = l.
Proof. intros ->. apply ztake_app. Qed.

Lemma zdrop_app l k : zdrop (zlen l) (l ++ k) = k.
Proof.
  unfold zdrop, zlen. rewrite Nat2Z.id. apply drop_app_length.
Qed.

Lemma zdrop_app' n l k : n = zlen l -> zdrop n (l ++ k) = k.
Proof. intros ->. apply zdrop_app. Qed.

Lemma ztake_all n l : zlen l <= n -> ztake n l = l.
Proof. intros H. unfold ztake, zlen in *. apply take_ge. lia. Qed.

Lemma ztake_zdrop n l : ztake n l ++ zdrop n l = l.
Proof. apply take_drop. Qed.

Lemma ztake_0 l : ztake 0 l = [].
Proof. done. Qed.

Lemma zdrop_0 l : zdrop 0 l = l.
Proof. done. Qed.

Lemma zlen_nil_inv l : zlen l = 0 -> l = [].
Proof. unfold zlen. destruct l; [done|]. simpl length. lia. Qed.
End zlists.

Lemma zlen_zeros n : 0 <= n -> zlen (zeros n) = n.
Proof. intros H. unfold zeros. rewrite zlen_replicate. lia. Qed.

Lemma le_split_S n x : le_split (S n) x = byte.of_Z x :: le_split n (Z.shiftr x 8).
Proof. done. Qed.

Lemma le_split_0 x : le_split 0 x = [].
Proof. done. Qed.

Lemma le_combine_cons b l : le_combine (b :: l) = Z.lor (byte.unsigned b) (Z.shiftl (le_combine l) 8).
Proof. done. Qed.

Lemma zlen_le_split n x : zlen (le_split n x) = Z.of_nat n.
Proof. unfold zlen. by rewrite length_le_split. Qed.

Create Rewrite HintDb zlen.
#[export] Hint Rewrite @zlen_nil @zlen_cons @zlen_app @zlen_replicate
  @zlen_take @zlen_drop zlen_le_split : zlen.
#[export] Hint Rewrite @zlen_ztake @zlen_zdrop zlen_zeros using lia : zlen.
#[export] Hint Resolve zlen_nonneg u64_range u32_range : zenfs.

(** Normalises lengths of byte strings and closes the arithmetic. *)
Ltac zlen_solve :=
  autorewrite with zlen in *;
  repeat match goal with
    | |- context [zlen ?l] =>
        lazymatch goal with
        | _ : 0 <= zlen l |- _ => fail
        | _ => pose proof (zlen_nonneg l)
        end
    | _ : context [zlen ?l] |- _ =>
        lazymatch goal with
        | _ : 0 <= zlen l |- _ => fail
        | _ => pose proof (zlen_nonneg l)
        end
    end; lia.

(** Splits [H : x ∈ l ++ [y]]. *)
Ltac in_snoc H :=
  apply elem_of_app in H as [H|H]; [|apply list_elem_of_singleton in H as ->].

(** Proves [x ∈ l ++ [y]]. *)
Ltac solve_snoc :=
  solve [apply elem_of_app;
         first [left; assumption | right; apply list_elem_of_singleton; reflexivity]].

(** ** Concatenations

    A position in [mjoin ps] is byte [off] of piece [i]. *)

Definition join_offset (ps : list bytes) (i : nat) : Z := zlen (mjoin (take i ps)).

Lemma join_offset_S ps i p : ps !! i = Some p -> join_offset ps (S i) = join_offset ps i + zlen p.
Proof.
  intros Hi. unfold join_offset. rewrite (take_S_r _ _ p), join_app, zlen_app by done.
  simpl. by rewrite app_nil_r.
Qed.

Lemma join_offset_nonneg ps i : 0 <= join_offset ps i.
Proof. apply zlen_nonneg. Qed.

Lemma join_offset_le ps i : join_offset ps i <= zlen (mjoin ps).
Proof.
  unfold join_offset. rewrite <- (take_drop i ps) at 2. rewrite join_app, zlen_app.
  pose proof (zlen_nonneg (mjoin (drop i ps))). lia.
Qed.

Lemma join_offset_all ps i : (length ps <= i)%nat -> join_offset ps i = zlen (mjoin ps).
Proof. intros H. unfold join_offset. by rewrite take_ge. Qed.

Lemma join_at ps i p off :
  ps !! i = Some p -> 0 <= off <= zlen p ->
  zdrop (join_offset ps i + off) (mjoin ps) = zdrop off p ++ zdrop (join_offset ps (S i)) (mjoin ps).
Proof.
  intros Hi Hoff. unfold join_offset.
  assert (mjoin ps = mjoin (take i ps) ++ p ++ mjoin (drop (S i) ps)) as ->.
  { rewrite <- (take_drop_middle _ _ _ Hi) at 1. by rewrite join_app. }
  rewrite (take_S_r _ _ p), join_app by done.
  replace (mjoin [p]) with p by (simpl; by rewrite app_nil_r).
  generalize (mjoin (take i ps)) as pre. intros pre.
  rewrite (app_assoc pre p), (zdrop_app' (zlen (pre ++ p)) (pre ++ p)), <- app_assoc by done.
  unfold zdrop. rewrite !drop_app. rewrite (drop_ge pre) by (unfold zlen; lia). simpl.
  replace (Z.to_nat (zlen pre + off) - length pre)%nat with (Z.to_nat off) by (unfold zlen; lia).
  by replace (Z.to_nat off - length p)%nat with 0%nat by (unfold zlen in *; lia).
Qed.

Lemma ztake_app_ge {A} n (l k : list A) : zlen l <= n -> ztake n (l ++ k) = l ++ ztake (n - zlen l) k.
Proof.
  intros H. unfold ztake, zlen in *. rewrite take_app, take_ge by lia. do 2 f_equal. lia.
Qed.

Lemma ztake_app_le {A} n (l k : list A) : n <= zlen l -> ztake n (l ++ k) = ztake n l.
Proof. intros H. unfold ztake, zlen in *. by rewrite take_app_le by lia. Qed.

(** Overwrites the bytes at [pos]. *)
Definition splice (pos : Z) (data buf : bytes) : bytes :=
  ztake pos buf ++ data ++ zdrop (pos + zlen data) buf.

Lemma zlen_splice pos data (b : bytes) :
  0 <= pos -> pos + zlen data <= zlen b -> zlen (splice pos data b) = zlen b.
Proof.
  intros Hp Hl. pose proof (zlen_nonneg data). unfold splice.
  rewrite !zlen_app, zlen_ztake, zlen_zdrop by lia. lia.
Qed.

Lemma ztake_splice pos data (b : bytes) : 0 <= pos <= zlen b -> ztake pos (splice pos data b) = ztake pos b.
Proof. intros H. unfold splice. rewrite ztake_app'; [done|]. rewrite zlen_ztake by lia. lia. Qed.

Lemma ztake_splice_all pos data (b : bytes) :
  0 <= pos <= zlen b -> ztake (pos + zlen data) (splice pos data b) = ztake pos b ++ data.
Proof.
  intros H. unfold splice. rewrite app_assoc. apply ztake_app'.
  rewrite zlen_app, zlen_ztake by lia. lia.
Qed.

Lemma prefix_ztake k (l : bytes) : ztake k l `prefix_of` l.
Proof. exists (zdrop k l). by rewrite ztake_zdrop. Qed.
