(* ===== verification/Status.v ===== *)
(** * Status values and the effect monad

    [Status]/[IOStatus] of rocksdb-raw/include/rocksdb/status.h and
    io_status.h (ZenFS uses code, subcode and message), and the monad in which
    the stateful code of the development is written: a computation runs on a
    state and either returns a value, returns an error status (the C++
    [return s;] with [!s.ok()], the state reached so far being kept), or has no
    outcome of its own: it blocks, it does not end within the loop bound, or
    it is undefined behaviour. *)

From S2P Require Import Prelude.

(** ** Status *)

Inductive Code :=
  | kOk | kNotFound | kCorruption | kNotSupported | kInvalidArgument | kIOError
  | kMergeInProgress | kIncomplete | kShutdownInProgress | kTimedOut | kAborted
  | kBusy | kExpired | kTryAgain | kCompactionTooLarge | kColumnFamilyDropped.

Inductive SubCode :=
  | kNone | kMutexTimeout | kLockTimeout | kLockLimit | kNoSpace | kDeadlock
  | kStaleFile | kMemoryLimit | kSpaceLimit | kPathNotFound
  | KMergeOperandsInsufficientCapacity | kManualCompactionPaused | kOverwritten
  | kTxnNotPrepared | kIOFenced | kMergeOperatorFailed.

#[export] Instance Code_eq_dec : EqDecision Code.
Proof. solve_decision. Defined.
#[export] Instance SubCode_eq_dec : EqDecision SubCode.
Proof. solve_decision. Defined.

Record Status := mkStatus { code : Code; subcode : SubCode; msg : string }.

#[export] Instance Status_eq_dec : EqDecision Status.
Proof. solve_decision. Defined.

(** ZenFS mixes [Status] and [IOStatus]; the fields the code looks at are the
    same. *)
Abbreviation IOStatus := Status.

Definition OK : Status := mkStatus kOk kNone "".
Definition NotFound (m : string) : Status := mkStatus kNotFound kNone m.
Definition Corruption (m : string) : Status := mkStatus kCorruption kNone m.
Definition NotSupported (m : string) : Status := mkStatus kNotSupported kNone m.
Definition InvalidArgument (m : string) : Status := mkStatus kInvalidArgument kNone m.
Definition IOError (m : string) : Status := mkStatus kIOError kNone m.
Definition NoSpace (m : string) : Status := mkStatus kIOError kNoSpace m.
Definition Aborted (m : string) : Status := mkStatus kAborted kNone m.

Definition ok (s : Status) : bool := bool_decide (code s = kOk).

(** [operator==] compares the codes only, so [s == IOStatus::NoSpace()] holds
    of every I/O error. *)
Definition Status_eqb (a b : Status) : bool := bool_decide (code a = code b).

Definition IsNotFound (s : Status) : bool := bool_decide (code s = kNotFound).

Definition IsNoSpace (s : Status) : bool :=
  bool_decide (code s = kIOError) && bool_decide (subcode s = kNoSpace).

(** ** The monad *)

Inductive stuck :=
  | OutOfFuel   (* a loop did not end within the bound *)
  | Blocked     (* waits for another thread *)
  | Undefined.  (* null dereference or access out of range *)

Inductive result (S A : Type) :=
  | Ok (a : A) (s : S)
  | Err (e : Status) (s : S)
  | Stuck (w : stuck).
Arguments Ok {S A} _ _.
Arguments Err {S A} _ _.
Arguments Stuck {S A} _.

Definition M (S A : Type) : Type := S -> result S A.

Section monad.
Context {S : Type}.

Definition ret {A} (a : A) : M S A := fun s => Ok a s.
Definition bind {A B} (m : M S A) (k : A -> M S B) : M S B := fun s =>
  match m s with
  | Ok a s' => k a s'
  | Err e s' => Err e s'
  | Stuck w => Stuck w
  end.
(** [return e;] *)
Definition fail {A} (e : Status) : M S A := fun s => Err e s.
Definition stuckM {A} (w : stuck) : M S A := fun _ => Stuck w.
Definition get : M S S := fun s => Ok s s.
Definition gets {A} (f : S -> A) : M S A := fun s => Ok (f s) s.
Definition put (s' : S) : M S unit := fun _ => Ok tt s'.
Definition modify (f : S -> S) : M S unit := fun s => Ok tt (f s).
(** [s = m();]: runs [m] and hands its status to the code that follows. *)
Definition attempt {A} (m : M S A) : M S (Status + A) := fun s =>
  match m s with
  | Ok a s' => Ok (inr a) s'
  | Err e s' => Ok (inl e) s'
  | Stuck w => Stuck w
  end.
(** A pointer or an index that must be valid. *)
Definition deref {A} (o : option A) : M S A :=
  match o with Some a => ret a | None => stuckM Undefined end.
Definition when (b : bool) (m : M S unit) : M S unit :=
  if b then m else ret tt.

(** [return s;] *)
Definition returnS (e : Status) : M S unit := if ok e then ret tt else fail e.

(** [for (x : l) m(x);] *)
Fixpoint forM {A} (l : list A) (m : A -> M S unit) : M S unit :=
  match l with
  | [] => ret tt
  | x :: l' => bind (m x) (fun _ => forM l' m)
  end.

(** [for (x : l) acc = m(acc, x);] *)
Fixpoint foldM {A B} (m : B -> A -> M S B) (acc : B) (l : list A) : M S B :=
  match l with
  | [] => ret acc
  | x :: l' => bind (m acc x) (fun acc' => foldM m acc' l')
  end.
End monad.

(** The status a call came back with. *)
Definition status_of {A} (r : Status + A) : Status :=
  match r with inl e => e | inr _ => OK end.

(** Runs a computation on a component of the state. *)
Definition zoom {S T A} (pr : S -> T) (up : T -> S -> S) (m : M T A) : M S A := fun s =>
  match m (pr s) with
  | Ok a t => Ok a (up t s)
  | Err e t => Err e (up t s)
  | Stuck w => Stuck w
  end.

Declare Scope monad_scope.
Delimit Scope monad_scope with monad.
Notation "x <- m ;; k" := (bind m (fun x => k))
  (at level 100, m at next level, k at level 200, right associativity) : monad_scope.
Notation "'let*' p := m 'in' k" := (bind m (fun x => match x with p => k end))
  (at level 10, p pattern, m at level 100, k at level 200) : monad_scope.
Notation "m ;; k" := (bind m (fun _ => k))
  (at level 100, k at level 200, right associativity) : monad_scope.
#[global] Open Scope monad_scope.

Section monad_laws.
Context {S : Type}.

Lemma bind_ret_l {A B} (a : A) (k : A -> M S B) s : bind (ret a) k s = k a s.
Proof. done. Qed.

Lemma bind_ok {A B} (m : M S A) (k : A -> M S B) s a s' :
  m s = Ok a s' -> bind m k s = k a s'.
Proof. unfold bind. by intros ->. Qed.

Lemma bind_err {A B} (m : M S A) (k : A -> M S B) s e s' :
  m s = Err e s' -> bind m k s = Err e s'.
Proof. unfold bind. by intros ->. Qed.

Lemma attempt_ok {A} (m : M S A) s a s' : m s = Ok a s' -> attempt m s = Ok (inr a) s'.
Proof. unfold attempt. by intros ->. Qed.

Lemma attempt_err {A} (m : M S A) s e s' : m s = Err e s' -> attempt m s = Ok (inl e) s'.
Proof. unfold attempt. by intros ->. Qed.

Lemma bind_inv_ok {A B} (m : M S A) (k : A -> M S B) s b s'' :
  bind m k s = Ok b s'' -> exists a s', m s = Ok a s' /\ k a s' = Ok b s''.
Proof. unfold bind. destruct (m s) eqn:E; naive_solver. Qed.

Lemma bind_inv_err {A B} (m : M S A) (k : A -> M S B) s e s'' :
  bind m k s = Err e s'' ->
  m s = Err e s'' \/ exists a s', m s = Ok a s' /\ k a s' = Err e s''.
Proof. unfold bind. destruct (m s) eqn:E; naive_solver. Qed.

Lemma bind_ext {A B} (m : M S A) (k h : A -> M S B) s :
  (forall a s', k a s' = h a s') -> bind m k s = bind m h s.
Proof. intros Hk. unfold bind. by destruct (m s). Qed.
Lemma bind_assoc {A B C} (m : M S A) (k : A -> M S B) (h : B -> M S C) s :
  bind (bind m k) h s = bind m (fun a => bind (k a) h) s.
Proof. unfold bind. by destruct (m s). Qed.

Lemma forM_app {A} (l k : list A) (m : A -> M S unit) s :
  forM (l ++ k) m s = bind (forM l m) (fun _ => forM k m) s.
Proof.
  revert s. induction l as [|x l IH]; intros s; simpl; [done|].
  unfold bind at 1 2 3. destruct (m x s); [|done..]. rewrite IH. done.
Qed.

Lemma foldM_app {A B} (m : B -> A -> M S B) acc l k s :
  foldM m acc (l ++ k) s = bind (foldM m acc l) (fun acc' => foldM m acc' k) s.
Proof.
  revert acc s. induction l as [|x l IH]; intros acc s; simpl; [done|].
  unfold bind at 1 2 3. destruct (m acc x s); [|done..]. rewrite IH. done.
Qed.

Lemma foldM_inv {A B} (m : B -> A -> M S B) (P : B -> S -> Prop) l :
  (forall x b s b' s', x ∈ l -> P b s -> m b x s = Ok b' s' -> P b' s') ->
  forall b s b' s', P b s -> foldM m b l s = Ok b' s' -> P b' s'.
Proof.
  induction l as [|x l IH]; simpl; intros Hstep b s b' s' HP Hrun.
  - unfold ret in Hrun. naive_solver.
  - apply bind_inv_ok in Hrun as (b1 & s1 & H1 & H2).
    eapply IH; [|by eapply Hstep; [constructor|..]|done].
    intros; eapply Hstep; [by constructor|done..].
Qed.

Lemma forM_inv {A} (m : A -> M S unit) (P : S -> Prop) l :
  (forall x s s', x ∈ l -> P s -> m x s = Ok tt s' -> P s') ->
  forall s s', P s -> forM l m s = Ok tt s' -> P s'.
Proof.
  induction l as [|x l IH]; simpl; intros Hstep s s' HP Hrun.
  - unfold ret in Hrun. naive_solver.
  - apply bind_inv_ok in Hrun as ([] & s1 & H1 & H2).
    eapply IH; [|by eapply Hstep; [constructor|..]|done].
    intros; eapply Hstep; [by constructor|done..].
Qed.
End monad_laws.

(** Unfolds the monad and computes. *)
Ltac monad_unfold :=
  unfold bind, ret, fail, get, gets, put, modify, attempt, deref, when, returnS, stuckM, zoom in *;
  simpl in *.

(** Inverts a successful run of a sequence. *)
Ltac run_inv H :=
  repeat match type of H with
    | bind _ _ _ = Ok _ _ =>
        let a := fresh "a" in let s := fresh "s" in let E := fresh "E" in
        apply bind_inv_ok in H as (a & s & E & H)
    end.

(** ** Invariants

    [preserves P m]: [m] keeps [P], whether it returns a value or an error. *)

Definition preserves {S A} (P : S -> Prop) (m : M S A) : Prop :=
  forall s, P s -> match m s with Ok _ s' | Err _ s' => P s' | Stuck _ => True end.

Create HintDb preserves.

Section preserves.
Context {S : Type} (P : S -> Prop).

Lemma preserves_ret {A} (a : A) : preserves P (ret a).
Proof. by intros s H. Qed.
Lemma preserves_fail {A} e : preserves P (fail e : M S A).
Proof. by intros s H. Qed.
Lemma preserves_stuckM {A} w : preserves P (stuckM w : M S A).
Proof. by intros s H. Qed.
Lemma preserves_get : preserves P get.
Proof. by intros s H. Qed.
Lemma preserves_returnS e : preserves P (returnS e).
Proof. intros s H. unfold returnS. by destruct (ok e). Qed.
Lemma preserves_gets {A} (f : S -> A) : preserves P (gets f).
Proof. by intros s H. Qed.
Lemma preserves_modify f : (forall s, P s -> P (f s)) -> preserves P (modify f).
Proof. intros Hf s H. by apply Hf. Qed.
Lemma preserves_deref {A} (o : option A) : preserves P (deref o).
Proof. intros s H. by destruct o. Qed.

Lemma preserves_bind {A B} (m : M S A) (k : A -> M S B) :
  preserves P m -> (forall a, preserves P (k a)) -> preserves P (bind m k).
Proof.
  intros Hm Hk s H. unfold bind. specialize (Hm s H).
  destruct (m s); [by apply Hk|done..].
Qed.

Lemma preserves_attempt {A} (m : M S A) : preserves P m -> preserves P (attempt m).
Proof. intros Hm s H. unfold attempt. specialize (Hm s H). by destruct (m s). Qed.

Lemma preserves_when b m : preserves P m -> preserves P (when b m).
Proof. intros Hm. destruct b; [done|apply preserves_ret]. Qed.

Lemma preserves_forM {A} (l : list A) m :
  (forall x, x ∈ l -> preserves P (m x)) -> preserves P (forM l m).
Proof.
  induction l as [|x l IH]; intros Hm; [apply preserves_ret|].
  apply preserves_bind; [apply Hm; constructor|].
  intros _. apply IH. intros. apply Hm. by constructor.
Qed.

Lemma preserves_foldM {A B} (m : B -> A -> M S B) acc l :
  (forall acc x, preserves P (m acc x)) -> preserves P (foldM m acc l).
Proof.
  intros Hm. revert acc. induction l as [|x l IH]; intros acc; [apply preserves_ret|].
  apply preserves_bind; [apply Hm|]. intros. apply IH.
Qed.
End preserves.

(** Walks through a computation; what is left are its own state changes. *)
Ltac preserves_step :=
  lazymatch goal with
  | |- preserves _ (ret _) => apply preserves_ret
  | |- preserves _ (fail _) => apply preserves_fail
  | |- preserves _ (stuckM _) => apply preserves_stuckM
  | |- preserves _ get => apply preserves_get
  | |- preserves _ (returnS _) => apply preserves_returnS
  | |- preserves _ (gets _) => apply preserves_gets
  | |- preserves _ (deref _) => apply preserves_deref
  | |- preserves _ (bind _ _) => apply preserves_bind; [|intros]
  | |- preserves _ (attempt _) => apply preserves_attempt
  | |- preserves _ (when _ _) => apply preserves_when
  | |- preserves _ (forM _ _) => apply preserves_forM; intros
  | |- preserves _ (foldM _ _ _) => apply preserves_foldM; intros
  | |- preserves _ (if ?b then _ else _) => destruct b
  | |- preserves _ (match ?x with _ => _ end) => destruct x
  | |- preserves _ (let _ := _ in _) => cbv zeta
  end.
Ltac preserves_solve := repeat (solve [eauto with preserves] || preserves_step).

(** [gives P m R]: [m] keeps [P], and a value it returns satisfies [R]. *)
Definition gives {S A} (P : S -> Prop) (m : M S A) (R : A -> Prop) : Prop :=
  forall s, P s -> match m s with Ok a s' => P s' /\ R a | Err _ s' => P s' | Stuck _ => True end.

Lemma gives_bind {S A B} (P : S -> Prop) (m : M S A) R (k : A -> M S B) :
  gives P m R -> (forall a, R a -> preserves P (k a)) -> preserves P (bind m k).
Proof.
  intros Hm Hk s H. unfold bind. specialize (Hm s H). destruct (m s) as [a s'|e s'|]; [|done..].
  destruct Hm as [Hs Ha]. by apply (Hk a Ha).
Qed.

Lemma gives_then {S A B} (P : S -> Prop) (m : M S A) (k : A -> M S B) R :
  preserves P m -> (forall a, gives P (k a) R) -> gives P (bind m k) R.
Proof. intros Hm Hk s H. unfold bind. specialize (Hm s H). destruct (m s); [by apply Hk|done..]. Qed.

Lemma gives_ret {S A} (P : S -> Prop) (a : A) (R : A -> Prop) : R a -> gives P (ret a) R.
Proof. by intros H s Hs. Qed.

Lemma gives_fail {S A} (P : S -> Prop) e R : gives P (fail e : M S A) R.
Proof. by intros s H. Qed.

Lemma gives_get {S} (P : S -> Prop) : gives P get P.
Proof. by intros s H. Qed.

Lemma gives_deref {S A} (P : S -> Prop) (o : option A) : gives P (deref o) (fun a => o = Some a).
Proof. intros s H. by destruct o. Qed.

(** [hoare P m Q E]: from [P], a value [m] returns leaves [Q] and an error leaves [E]. *)
Definition hoare {S A} (P : S -> Prop) (m : M S A) (Q : A -> S -> Prop) (E : S -> Prop) : Prop :=
  forall s, P s -> match m s with Ok a s' => Q a s' | Err _ s' => E s' | Stuck _ => True end.

Section hoare.
Context {S : Type}.
Implicit Types P E : S -> Prop.

Lemma hoare_bind {A B} P (m : M S A) R (k : A -> M S B) Q E :
  hoare P m R E -> (forall a, hoare (R a) (k a) Q E) -> hoare P (bind m k) Q E.
Proof. intros Hm Hk s H. unfold bind. specialize (Hm s H). destruct (m s); [by apply Hk|done..]. Qed.

Lemma hoare_ret {A} P (a : A) (Q : A -> S -> Prop) E : (forall s, P s -> Q a s) -> hoare P (ret a) Q E.
Proof. intros H s Hs. by apply H. Qed.

Lemma hoare_fail {A} P e (Q : A -> S -> Prop) E : (forall s, P s -> E s) -> hoare P (fail e) Q E.
Proof. intros H s Hs. by apply H. Qed.

Lemma hoare_conseq {A} P P' (m : M S A) Q Q' E E' :
  hoare P' m Q' E' -> (forall s, P s -> P' s) -> (forall a s, Q' a s -> Q a s) ->
  (forall s, E' s -> E s) -> hoare P m Q E.
Proof.
  intros Hm HP HQ HE s Hs. specialize (Hm s (HP s Hs)). destruct (m s); auto.
Qed.

Lemma hoare_attempt {A} P (m : M S A) Q E :
  hoare P m Q E -> hoare P (attempt m) (fun r s => match r with inl _ => E s | inr a => Q a s end) (fun _ => False).
Proof. intros Hm s Hs. unfold attempt. specialize (Hm s Hs). by destruct (m s). Qed.

Lemma preserves_hoare {A} P (m : M S A) : preserves P m -> hoare P m (fun _ => P) P.
Proof. intros Hm s Hs. specialize (Hm s Hs). by destruct (m s). Qed.

Lemma hoare_preserves {A} P (m : M S A) : hoare P m (fun _ => P) P -> preserves P m.
Proof. intros Hm s Hs. specialize (Hm s Hs). by destruct (m s). Qed.

Lemma hoare_pre {A} (P : S -> Prop) (m : M S A) Q E : (forall s, P s -> hoare (eq s) m Q E) -> hoare P m Q E.
Proof. intros H s Hs. by apply (H s). Qed.
End hoare.

(** [runs P m Q]: from [P], [m] returns a value or an error, in [Q]. *)
Definition runs {S A} (P : S -> Prop) (m : M S A) (Q : S -> Prop) : Prop :=
  forall s, P s -> match m s with Ok _ s' | Err _ s' => Q s' | Stuck _ => False end.

Lemma runs_forM {S A} (P : S -> Prop) (l : list A) m :
  (forall x, x ∈ l -> runs P (m x) P) -> runs P (forM l m) P.
Proof.
  induction l as [|x l IH]; intros Hm s Hs; [done|]. simpl. unfold bind.
  pose proof (Hm x ltac:(left) s Hs) as Hx. destruct (m x s); [|done..].
  apply IH; [|done]. intros y Hy. apply Hm. by right.
Qed.

(** [stops_with P m R]: from [P], [m] does not run out of fuel; it keeps [P], and a
    value it returns satisfies [R]. *)
Definition stops_with {S A} (P : S -> Prop) (m : M S A) (R : A -> Prop) : Prop :=
  forall s, P s -> match m s with Ok a s' => P s' /\ R a | Err _ s' => P s' | Stuck w => w <> OutOfFuel end.
Definition stops {S A} (P : S -> Prop) (m : M S A) : Prop := stops_with P m (fun _ => True).

Create HintDb stops.

Section stops.
Context {S : Type} (P : S -> Prop).

Lemma stops_with_bind {A B} (m : M S A) R (k : A -> M S B) Q :
  stops_with P m R -> (forall a, R a -> stops_with P (k a) Q) -> stops_with P (bind m k) Q.
Proof.
  intros Hm Hk s H. unfold bind. specialize (Hm s H). destruct (m s) as [a s'|e s'|]; [|done..].
  destruct Hm as [Hs Ha]. by apply (Hk a Ha).
Qed.
Lemma stops_then {A B} (m : M S A) (k : A -> M S B) Q :
  stops P m -> (forall a, stops_with P (k a) Q) -> stops_with P (bind m k) Q.
Proof. intros Hm Hk. apply (stops_with_bind m _ k Q Hm). intros a _. apply Hk. Qed.
Lemma stops_with_ret {A} (a : A) (R : A -> Prop) : R a -> stops_with P (ret a) R.
Proof. by intros H s Hs. Qed.
Lemma stops_ret {A} (a : A) : stops P (ret a).
Proof. by intros s H. Qed.
Lemma stops_fail {A} e R : stops_with P (fail e : M S A) R.
Proof. by intros s H. Qed.
Lemma stops_stuckM {A} w R : w <> OutOfFuel -> stops_with P (stuckM w : M S A) R.
Proof. by intros Hw s H. Qed.
Lemma stops_get : stops P get.
Proof. by intros s H. Qed.
Lemma stops_gets {A} (f : S -> A) : stops P (gets f).
Proof. by intros s H. Qed.
Lemma stops_returnS e : stops P (returnS e).
Proof. intros s H. unfold returnS. by destruct (ok e). Qed.
Lemma stops_deref {A} (o : option A) : stops P (deref o).
Proof. intros s H. by destruct o. Qed.
Lemma stops_modify f : (forall s, P s -> P (f s)) -> stops P (modify f).
Proof. intros Hf s H. split; [by apply Hf|done]. Qed.
Lemma stops_attempt {A} (m : M S A) : stops P m -> stops P (attempt m).
Proof. intros Hm s H. unfold attempt. specialize (Hm s H). destruct (m s); [|done..]. by destruct Hm. Qed.
Lemma stops_when b m : stops P m -> stops P (when b m).
Proof. intros Hm. destruct b; [done|apply stops_ret]. Qed.
Lemma stops_forM {A} (l : list A) m : (forall x, stops P (m x)) -> stops P (forM l m).
Proof.
  intros Hm. induction l as [|x l IH]; [apply stops_ret|]. by apply stops_then.
Qed.
End stops.

(** Walks through a computation; what is left are its own state changes. *)
Ltac stops_step :=
  lazymatch goal with
  | |- stops _ (bind _ _) => apply stops_then; [|intros]
  | |- stops_with _ (bind _ _) _ => apply stops_then; [|intros]
  | |- stops _ (ret _) => apply stops_ret
  | |- stops_with _ (ret _) (fun _ => True) => by apply stops_with_ret
  | |- stops _ (fail _) => apply stops_fail
  | |- stops_with _ (fail _) _ => apply stops_fail
  | |- stops_with _ (stuckM _) _ => by apply stops_stuckM
  | |- stops _ (stuckM _) => by apply stops_stuckM
  | |- stops _ get => apply stops_get
  | |- stops _ (gets _) => apply stops_gets
  | |- stops _ (returnS _) => apply stops_returnS
  | |- stops _ (deref _) => apply stops_deref
  | |- stops _ (attempt _) => apply stops_attempt
  | |- stops _ (when _ _) => apply stops_when
  | |- stops _ (forM _ _) => apply stops_forM; intros
  | |- stops _ (if ?b then _ else _) => destruct b
  | |- stops _ (match ?x with _ => _ end) => destruct x
  | |- stops_with _ (if ?b then _ else _) _ => destruct b
  | |- stops_with _ (match ?x with _ => _ end) _ => destruct x
  | |- stops_with ?P ?m (fun _ => True) => change (stops P m)
  end.
Ltac stops_solve := repeat (solve [eauto with stops] || stops_step).
