(* ===== verification/Coding.v ===== *)
(** * Fixed-width and variable-length integer encodings

    rocksdb-raw/util/coding_lean.h, coding.h and coding.cc: the encodings in
    which ZenFS writes its metadata and its write-ahead-log entries. A [Slice]
    that a Get routine advances is a byte string, of which the routine returns
    the rest; a routine that appends to a [std::string] returns the longer
    string. *)

From S2P Require Import Prelude.

(** ** Fixed-width integers (coding_lean.h)

    [kLittleEndian] is the build's constant [port::kLittleEndian]; on a
    little-endian machine a [memcpy] of the value stores its bytes lowest
    first. *)

Definition kLittleEndian : bool := true.

Definition memcpy_from (sz : nat) (value : Z) : bytes := le_split sz value.
Definition memcpy_to (sz : nat) (ptr : bytes) : Z := le_combine (take sz ptr).

Definition EncodeFixed16 (le : bool) (value : Z) : bytes :=
  if le then memcpy_from 2 value
  else [byte.of_Z (Z.land value 255); byte.of_Z (Z.land (Z.shiftr value 8) 255)].

Definition EncodeFixed32 (le : bool) (value : Z) : bytes :=
  if le then memcpy_from 4 value
  else [byte.of_Z (Z.land value 255);
        byte.of_Z (Z.land (Z.shiftr value 8) 255);
        byte.of_Z (Z.land (Z.shiftr value 16) 255);
        byte.of_Z (Z.land (Z.shiftr value 24) 255)].

Definition EncodeFixed64 (le : bool) (value : Z) : bytes :=
  if le then memcpy_from 8 value
  else [byte.of_Z (Z.land value 255);
        byte.of_Z (Z.land (Z.shiftr value 8) 255);
        byte.of_Z (Z.land (Z.shiftr value 16) 255);
        byte.of_Z (Z.land (Z.shiftr value 24) 255);
        byte.of_Z (Z.land (Z.shiftr value 32) 255);
        byte.of_Z (Z.land (Z.shiftr value 40) 255);
        byte.of_Z (Z.land (Z.shiftr value 48) 255);
        byte.of_Z (Z.land (Z.shiftr value 56) 255)].

(** [ptr[i]] as an unsigned char. *)
Definition uchar (ptr : bytes) (i : nat) : Z :=
  match ptr !! i with Some b => byte.unsigned b | None => 0 end.

Definition DecodeFixed16 (le : bool) (ptr : bytes) : Z :=
  if le then memcpy_to 2 ptr
  else Z.lor (uchar ptr 0) (u16 (Z.shiftl (uchar ptr 1) 8)).

Definition DecodeFixed32 (le : bool) (ptr : bytes) : Z :=
  if le then memcpy_to 4 ptr
  else Z.lor (Z.lor (Z.lor (uchar ptr 0) (u32 (Z.shiftl (uchar ptr 1) 8)))
               (u32 (Z.shiftl (uchar ptr 2) 16)))
             (u32 (Z.shiftl (uchar ptr 3) 24)).

Definition DecodeFixed64 (le : bool) (ptr : bytes) : Z :=
  if le then memcpy_to 8 ptr
  else let lo := DecodeFixed32 le ptr in
       let hi := DecodeFixed32 le (drop 4 ptr) in
       Z.lor (u64 (Z.shiftl hi 32)) lo.

Definition PutFixed16 (dst : bytes) (value : Z) : bytes :=
  if kLittleEndian then dst ++ memcpy_from 2 value
  else dst ++ EncodeFixed16 kLittleEndian value.

Definition PutFixed32 (dst : bytes) (value : Z) : bytes :=
  if kLittleEndian then dst ++ memcpy_from 4 value
  else dst ++ EncodeFixed32 kLittleEndian value.

Definition PutFixed64 (dst : bytes) (value : Z) : bytes :=
  if kLittleEndian then dst ++ memcpy_from 8 value
  else dst ++ EncodeFixed64 kLittleEndian value.

Definition GetFixed64 (input : bytes) : option (Z * bytes) :=
  if decide (zlen input < 8) then None
  else Some (DecodeFixed64 kLittleEndian input, drop 8 input).

Definition GetFixed32 (input : bytes) : option (Z * bytes) :=
  if decide (zlen input < 4) then None
  else Some (DecodeFixed32 kLittleEndian input, drop 4 input).

Definition GetFixed16 (input : bytes) : option (Z * bytes) :=
  if decide (zlen input < 2) then None
  else Some (DecodeFixed16 kLittleEndian input, drop 2 input).

(** ** Variable-length integers (coding.h, coding.cc) *)

(** Storing into an [unsigned char] keeps the low 8 bits ([byte.of_Z]). *)
Definition EncodeVarint32 (v : Z) : bytes :=
  let B := 128 in
  if v <? 2 ^ 7 then [byte.of_Z v]
  else if v <? 2 ^ 14 then [byte.of_Z (Z.lor v B); byte.of_Z (Z.shiftr v 7)]
  else if v <? 2 ^ 21 then
    [byte.of_Z (Z.lor v B); byte.of_Z (Z.lor (Z.shiftr v 7) B); byte.of_Z (Z.shiftr v 14)]
  else if v <? 2 ^ 28 then
    [byte.of_Z (Z.lor v B); byte.of_Z (Z.lor (Z.shiftr v 7) B);
     byte.of_Z (Z.lor (Z.shiftr v 14) B); byte.of_Z (Z.shiftr v 21)]
  else
    [byte.of_Z (Z.lor v B); byte.of_Z (Z.lor (Z.shiftr v 7) B);
     byte.of_Z (Z.lor (Z.shiftr v 14) B); byte.of_Z (Z.lor (Z.shiftr v 21) B);
     byte.of_Z (Z.shiftr v 28)].

(** [while (v >= B)], at most [n] times. *)
Fixpoint EncodeVarint64_loop (n : nat) (v : Z) : bytes :=
  match n with
  | O => [byte.of_Z v]
  | S n' =>
      if v >=? 128
      then byte.of_Z (Z.lor (Z.land v (128 - 1)) 128) :: EncodeVarint64_loop n' (Z.shiftr v 7)
      else [byte.of_Z v]
  end.

(** A 64-bit value leaves the loop after at most 9 iterations. *)
Definition EncodeVarint64 (v : Z) : bytes := EncodeVarint64_loop 9 v.

Definition kMaxVarint64Length : Z := 10.

Fixpoint VarintLength_loop (n : nat) (v len : Z) : Z :=
  match n with
  | O => len
  | S n' => if v >=? 128 then VarintLength_loop n' (Z.shiftr v 7) (len + 1) else len
  end.

Definition VarintLength (v : Z) : Z := VarintLength_loop 9 v 1.

(** The loop of the two decoders at width [w]:
    [for (shift = 0; shift <= last && p < limit; shift += 7)], with [n]
    iterations left. *)
Fixpoint GetVarintPtr_loop (w : Z) (n : nat) (shift result : Z) (p : bytes)
    : option (Z * bytes) :=
  match n, p with
  | S n', c :: p' =>
      let byte := byte.unsigned c in
      if negb (Z.land byte 128 =? 0)
      then GetVarintPtr_loop w n' (shift + 7)
             (Z.lor result (wrap w (Z.shiftl (Z.land byte 127) shift))) p'
      else Some (Z.lor result (wrap w (Z.shiftl byte shift)), p')
  | _, _ => None
  end.

(** [shift <= 28]: 5 iterations. *)
Definition GetVarint32PtrFallback (p : bytes) : option (Z * bytes) :=
  GetVarintPtr_loop 32 5 0 0 p.

Definition GetVarint32Ptr (p : bytes) : option (Z * bytes) :=
  match p with
  | c :: p' =>
      if Z.land (byte.unsigned c) 128 =? 0 then Some (byte.unsigned c, p')
      else GetVarint32PtrFallback p
  | [] => GetVarint32PtrFallback p
  end.

(** [shift <= 63]: 10 iterations. *)
Definition GetVarint64Ptr (p : bytes) : option (Z * bytes) :=
  GetVarintPtr_loop 64 10 0 0 p.

Definition GetVarint32 (input : bytes) : option (Z * bytes) := GetVarint32Ptr input.
Definition GetVarint64 (input : bytes) : option (Z * bytes) := GetVarint64Ptr input.

Definition PutVarint32 (dst : bytes) (v : Z) : bytes := dst ++ EncodeVarint32 v.
Definition PutVarint64 (dst : bytes) (v : Z) : bytes := dst ++ EncodeVarint64 v.

Definition PutVarint32Varint32 (dst : bytes) (v1 v2 : Z) : bytes :=
  dst ++ (EncodeVarint32 v1 ++ EncodeVarint32 v2).
Definition PutVarint32Varint32Varint32 (dst : bytes) (v1 v2 v3 : Z) : bytes :=
  dst ++ (EncodeVarint32 v1 ++ EncodeVarint32 v2 ++ EncodeVarint32 v3).
Definition PutVarint64Varint64 (dst : bytes) (v1 v2 : Z) : bytes :=
  dst ++ (EncodeVarint64 v1 ++ EncodeVarint64 v2).
Definition PutVarint32Varint64 (dst : bytes) (v1 v2 : Z) : bytes :=
  dst ++ (EncodeVarint32 v1 ++ EncodeVarint64 v2).
Definition PutVarint32Varint32Varint64 (dst : bytes) (v1 v2 v3 : Z) : bytes :=
  dst ++ (EncodeVarint32 v1 ++ EncodeVarint32 v2 ++ EncodeVarint64 v3).

(** ** Zig-zag encoding of signed 64-bit integers *)

Definition to_i64 (x : Z) : Z := let y := u64 x in if y <? 2 ^ 63 then y else y - 2 ^ 64.

Definition i64ToZigzag (l : Z) : Z :=
  Z.lxor (u64 (Z.shiftl (u64 l) 1)) (u64 (Z.shiftr l 63)).
Definition zigzagToI64 (n : Z) : Z :=
  to_i64 (Z.lxor (Z.shiftr n 1) (u64 (- Z.land n 1))).

Definition PutVarsignedint64 (dst : bytes) (v : Z) : bytes :=
  dst ++ EncodeVarint64 (i64ToZigzag v).
Definition GetVarsignedint64 (input : bytes) : option (Z * bytes) :=
  match GetVarint64Ptr input with
  | Some (u, rest) => Some (zigzagToI64 u, rest)
  | None => None
  end.

(** ** Length-prefixed slices *)

Definition PutLengthPrefixedSlice (dst value : bytes) : bytes :=
  PutVarint32 dst (u32 (zlen value)) ++ value.

Definition PutLengthPrefixedSliceParts_total (dst : bytes) (total_bytes : Z)
    (slice_parts : list bytes) : bytes :=
  let total := fold_left (fun t p => t +64 zlen p) slice_parts total_bytes in
  fold_left (fun d p => d ++ p) slice_parts (PutVarint32 dst (u32 total)).

Definition PutLengthPrefixedSliceParts (dst : bytes) (slice_parts : list bytes) : bytes :=
  PutLengthPrefixedSliceParts_total dst 0 slice_parts.

Definition PutLengthPrefixedSlicePartsWithPadding (dst : bytes) (slice_parts : list bytes)
    (pad_sz : Z) : bytes :=
  PutLengthPrefixedSliceParts_total dst pad_sz slice_parts ++ zeros pad_sz.

(** The result, if any, and the advanced input: on failure the length itself
    may already have been consumed. *)
Definition GetLengthPrefixedSlice (input : bytes) : option bytes * bytes :=
  match GetVarint32 input with
  | Some (len, rest) =>
      if decide (zlen rest >= len) then (Some (ztake len rest), zdrop len rest)
      else (None, rest)
  | None => (None, input)
  end.

(** [for (len = 0; len < slice->size() && slice->data()[len] != delimiter; ++len)] *)
Fixpoint GetSliceUntil_len (slice : bytes) (delimiter : byte) : nat :=
  match slice with
  | [] => 0
  | c :: s => if decide (byte.unsigned c = byte.unsigned delimiter) then 0
              else S (GetSliceUntil_len s delimiter)
  end.

Definition GetSliceUntil (slice : bytes) (delimiter : byte) : bytes * bytes :=
  let len := GetSliceUntil_len slice delimiter in
  (take len slice, drop (len + (if decide (Nat.lt len (length slice)) then 1 else 0)) slice).

(** ** Lemmas *)

Lemma PutFixed32_eq dst v : PutFixed32 dst v = dst ++ le_split 4 v.
Proof. done. Qed.

Lemma PutFixed64_eq dst v : PutFixed64 dst v = dst ++ le_split 8 v.
Proof. done. Qed.

Lemma memcpy_to_from n v rest :
  memcpy_to n (le_split n v ++ rest) = v mod 2 ^ (Z.of_nat n * 8).
Proof.
  unfold memcpy_to.
  rewrite take_app_le, take_ge by (rewrite length_le_split; lia).
  apply le_combine_split.
Qed.

Lemma GetFixed64_le_split v rest : GetFixed64 (le_split 8 v ++ rest) = Some (u64 v, rest).
Proof.
  unfold GetFixed64. rewrite decide_False by zlen_solve.
  unfold DecodeFixed64, kLittleEndian. rewrite memcpy_to_from.
  done.
Qed.

Lemma GetFixed32_le_split v rest : GetFixed32 (le_split 4 v ++ rest) = Some (u32 v, rest).
Proof.
  unfold GetFixed32. rewrite decide_False by zlen_solve.
  unfold DecodeFixed32, kLittleEndian. rewrite memcpy_to_from.
  done.
Qed.

Lemma land_128_small v : 0 <= v < 128 -> Z.land v 128 = 0.
Proof.
  intros H. apply Z.eqb_eq.
  by apply (Zforall_below 128 (fun v => Z.land v 128 =? 0)).
Qed.

(** A continuation byte: its top bit is set and the rest are the low 7 bits. *)
Lemma varint_byte v :
  byte.unsigned (byte.of_Z (Z.lor (Z.land v 127) 128)) = v mod 128 + 128.
Proof.
  change 127 with (Z.ones 7). rewrite Z.land_ones by lia. change (2 ^ 7) with 128.
  pose proof (Z.mod_pos_bound v 128 ltac:(lia)).
  rewrite (Z.lor_comm _ 128), <- (Z.lor_comm _ 128).
  change 128 with (Z.shiftl 1 7) at 2.
  rewrite lor_shiftl_add by (change (2 ^ 7) with 128; lia).
  change (1 * 2 ^ 7) with 128. apply byte_unsigned_small. lia.
Qed.

Lemma varint_byte_high x : 0 <= x < 128 -> Z.land (x + 128) 128 = 128.
Proof.
  intros H. apply Z.eqb_eq.
  by apply (Zforall_below 128 (fun x => Z.land (x + 128) 128 =? 128)).
Qed.

Lemma varint_byte_low x : 0 <= x < 128 -> Z.land (x + 128) 127 = x.
Proof.
  intros H. apply Z.eqb_eq.
  by apply (Zforall_below 128 (fun x => Z.land (x + 128) 127 =? x)).
Qed.

Lemma GetVarintPtr_loop_ok w n m shift result v rest :
  0 <= shift -> 0 <= result < 2 ^ shift -> 0 <= v < 2 ^ (7 * (Z.of_nat n + 1)) ->
  v * 2 ^ shift < 2 ^ w -> 0 <= w -> Nat.lt n m ->
  GetVarintPtr_loop w m shift result (EncodeVarint64_loop n v ++ rest)
  = Some (result + v * 2 ^ shift, rest).
Proof.
  revert m shift result v.
  induction n as [|n IH]; intros [|m] shift result v Hs Hr Hv Hw Hw0 Hm; try lia.
  - change (2 ^ (7 * (Z.of_nat 0 + 1))) with 128 in Hv.
    simpl. rewrite byte_unsigned_small by lia.
    rewrite (land_128_small v) by lia. simpl.
    rewrite wrap_small by (rewrite Z.shiftl_mul_pow2 by lia; nia).
    by rewrite lor_shiftl_add.
  - simpl EncodeVarint64_loop. destruct (Z.geb_spec v 128) as [Hge|Hlt].
    + simpl. rewrite varint_byte.
      pose proof (Z.mod_pos_bound v 128 ltac:(lia)) as Hmod.
      rewrite varint_byte_high, varint_byte_low by lia. simpl.
      pose proof (Z.div_mod v 128 ltac:(lia)) as Hdm.
      assert (0 < 2 ^ shift) by (apply Z.pow_pos_nonneg; lia).
      rewrite wrap_small by (rewrite Z.shiftl_mul_pow2 by lia; nia).
      rewrite lor_shiftl_add by done.
      rewrite Z.shiftr_div_pow2 by lia. change (2 ^ 7) with 128.
      rewrite IH; try lia.
      * f_equal. f_equal. rewrite Z.pow_add_r by lia. change (2 ^ 7) with 128. nia.
      * rewrite Z.pow_add_r by lia. change (2 ^ 7) with 128. nia.
      * split; [apply Z.div_pos; lia|]. apply Z.div_lt_upper_bound; [lia|].
        replace (7 * (Z.of_nat (S n) + 1)) with (7 + 7 * (Z.of_nat n + 1)) in Hv by lia.
        rewrite Z.pow_add_r in Hv by lia. change (2 ^ 7) with 128 in Hv. lia.
      * rewrite Z.pow_add_r by lia. change (2 ^ 7) with 128. nia.
    + simpl. rewrite byte_unsigned_small by lia.
      rewrite (land_128_small v) by lia. simpl.
      rewrite wrap_small by (rewrite Z.shiftl_mul_pow2 by lia; nia).
      by rewrite lor_shiftl_add.
Qed.

(** [v | B] and [(v & (B - 1)) | B] store the same byte. *)
Lemma varint_byte_trunc v : byte.of_Z (Z.lor v 128) = byte.of_Z (Z.lor (Z.land v 127) 128).
Proof.
  apply byte_of_Z_mod. change 256 with (2 ^ 8).
  rewrite <- !Z.land_ones by lia. apply Z.bits_inj'; intros i Hi.
  rewrite !Z.land_spec, !Z.lor_spec, Z.land_spec.
  destruct (decide (i < 8)); [|by rewrite Z.ones_spec_high, !andb_false_r by lia].
  rewrite Z.ones_spec_low, !andb_true_r by lia.
  destruct (decide (i = 7)) as [->|]; [by rewrite !orb_true_r|].
  change 127 with (Z.ones 7). rewrite Z.ones_spec_low, andb_true_r by lia. done.
Qed.

Lemma EncodeVarint64_loop_S n v :
  EncodeVarint64_loop (S n) v =
  if v >=? 128 then byte.of_Z (Z.lor v 128) :: EncodeVarint64_loop n (Z.shiftr v 7)
  else [byte.of_Z v].
Proof. simpl. by rewrite <- varint_byte_trunc. Qed.

Lemma EncodeVarint64_loop_small n v : 0 <= v < 128 -> EncodeVarint64_loop n v = [byte.of_Z v].
Proof. intros H. destruct n; [done|]. simpl. destruct (Z.geb_spec v 128); [lia|done]. Qed.

Lemma shiftr_geb v j : 0 <= j -> (Z.shiftr v j >=? 128) = negb (v <? 2 ^ (j + 7)).
Proof.
  intros Hj. rewrite Z.geb_leb, Z.shiftr_div_pow2, <- Z.leb_antisym by done.
  apply eq_true_iff_eq. rewrite !Z.leb_le, Z.pow_add_r by lia.
  assert (0 < 2 ^ j) by (apply Z.pow_pos_nonneg; lia).
  change (2 ^ 7) with 128. split; intros H1.
  - pose proof (Z.mul_div_le v (2 ^ j) ltac:(lia)). nia.
  - apply Z.div_le_lower_bound; lia.
Qed.

Lemma EncodeVarint32_eq (v : Z) :
  0 <= v < 2 ^ 32 -> EncodeVarint32 v = EncodeVarint64 v.
Proof.
  intros Hv. unfold EncodeVarint32, EncodeVarint64.
  do 5 (rewrite EncodeVarint64_loop_S, ?Z.shiftr_shiftr by lia).
  rewrite !shiftr_geb by lia. rewrite Z.geb_leb, (Z.leb_antisym v 128).
  change (2 ^ 7) with 128. change (7 + 7) with 14. change (14 + 7) with 21.
  change (21 + 7) with 28. change (28 + 7) with 35.
  assert ((v <? 2 ^ 35) = true) as -> by (apply Z.ltb_lt; lia).
  destruct (v <? 128) eqn:E1; [done|]. simpl negb.
  destruct (v <? 2 ^ 14) eqn:E2; [done|]. simpl negb.
  destruct (v <? 2 ^ 21) eqn:E3; [done|]. simpl negb.
  destruct (v <? 2 ^ 28) eqn:E4; done.
Qed.

(** The bound on the iterations is immaterial once the value fits. *)
Lemma EncodeVarint64_loop_fuel n m v :
  0 <= v < 2 ^ (7 * (Z.of_nat n + 1)) -> (n <= m)%nat ->
  EncodeVarint64_loop m v = EncodeVarint64_loop n v.
Proof.
  revert m v. induction n as [|n IH]; intros m v Hv Hm.
  - by rewrite !EncodeVarint64_loop_small by (change (2 ^ (7 * (Z.of_nat 0 + 1))) with 128 in Hv; lia).
  - destruct m as [|m]; [lia|]. simpl. destruct (v >=? 128); [|done]. f_equal.
    apply IH; [|lia]. rewrite Z.shiftr_div_pow2 by lia.
    replace (7 * (Z.of_nat (S n) + 1)) with (7 + 7 * (Z.of_nat n + 1)) in Hv by lia.
    rewrite Z.pow_add_r in Hv by lia. change (2 ^ 7) with 128 in *.
    split; [apply Z.div_pos; lia|]. apply Z.div_lt_upper_bound; lia.
Qed.

Lemma GetVarint32Ptr_fallback (p : bytes) : GetVarint32Ptr p = GetVarint32PtrFallback p.
Proof.
  unfold GetVarint32Ptr, GetVarint32PtrFallback. destruct p as [|c p]; [done|].
  simpl. destruct (Z.land (byte.unsigned c) 128 =? 0) eqn:E; [|done].
  simpl. rewrite Z.shiftl_0_r. f_equal. f_equal.
  symmetry. apply wrap_small. pose proof (byte.unsigned_range c). lia.
Qed.

Lemma GetVarint32_encode v rest :
  0 <= v < 2 ^ 32 -> GetVarint32 (EncodeVarint32 v ++ rest) = Some (v, rest).
Proof.
  intros Hv. unfold GetVarint32. rewrite GetVarint32Ptr_fallback.
  rewrite EncodeVarint32_eq by done. unfold GetVarint32PtrFallback, EncodeVarint64.
  rewrite (EncodeVarint64_loop_fuel 4) by (simpl; lia).
  rewrite GetVarintPtr_loop_ok by (simpl; lia).
  f_equal. f_equal. lia.
Qed.

Lemma GetVarint64_encode v rest :
  0 <= v < 2 ^ 64 -> GetVarint64 (EncodeVarint64 v ++ rest) = Some (v, rest).
Proof.
  intros Hv. unfold GetVarint64, GetVarint64Ptr, EncodeVarint64.
  rewrite GetVarintPtr_loop_ok by (simpl; lia).
  f_equal. f_equal. lia.
Qed.

Lemma VarintLength_loop_length n v len :
  VarintLength_loop n v len = len - 1 + zlen (EncodeVarint64_loop n v).
Proof.
  revert v len. induction n as [|n IH]; intros v len; simpl.
  - rewrite zlen_cons, zlen_nil. lia.
  - destruct (v >=? 128); rewrite zlen_cons, ?IH, ?zlen_nil; lia.
Qed.

Lemma GetLengthPrefixedSlice_encode value rest :
  zlen value < 2 ^ 32 ->
  GetLengthPrefixedSlice (EncodeVarint32 (u32 (zlen value)) ++ value ++ rest)
  = (Some value, rest).
Proof.
  intros Hlen. pose proof (zlen_nonneg value). rewrite u32_small by lia.
  unfold GetLengthPrefixedSlice. rewrite GetVarint32_encode by lia.
  rewrite decide_True by zlen_solve. by rewrite ztake_app, zdrop_app.
Qed.

Lemma PutLengthPrefixedSlice_eq dst value :
  PutLengthPrefixedSlice dst value = dst ++ EncodeVarint32 (u32 (zlen value)) ++ value.
Proof. unfold PutLengthPrefixedSlice, PutVarint32. by rewrite app_assoc. Qed.

(** What a successful decoder consumed: at least one byte and at most [n]; the
    value fits the width. *)
Lemma GetVarintPtr_loop_bounds w n shift result p v rest :
  0 < w -> 0 <= result < 2 ^ w ->
  GetVarintPtr_loop w n shift result p = Some (v, rest) ->
  0 <= v < 2 ^ w /\ exists c pre, p = c :: pre ++ rest /\ (length (c :: pre) <= n)%nat.
Proof.
  revert shift result p. induction n as [|n IH]; intros shift result [|c p] Hw Hr H; try done.
  assert (Hlor : forall x, 0 <= Z.lor result (wrap w x) < 2 ^ w).
  { intros x. pose proof (wrap_range w x ltac:(lia)) as Hx.
    split; [apply Z.lor_nonneg; lia|].
    destruct (decide (Z.lor result (wrap w x) = 0)) as [->|Hne]; [lia|].
    apply Z.log2_lt_pow2; [pose proof (proj2 (Z.lor_nonneg result (wrap w x))); lia|].
    rewrite Z.log2_lor by lia. apply Z.max_lub_lt.
    - destruct (decide (result = 0)) as [->|]; [done|]. apply Z.log2_lt_pow2; lia.
    - destruct (decide (wrap w x = 0)) as [->|]; [done|]. apply Z.log2_lt_pow2; lia. }
  simpl in H. destruct (negb _).
  - apply IH in H as (Hv & c' & pre & -> & Hlen); [|done..].
    split; [done|]. exists c, (c' :: pre). split; [done|]. simpl in *. lia.
  - simplify_eq. split; [done|]. exists c, []. split; [done|]. simpl. lia.
Qed.

(** *** The big-endian branches *)

Lemma byte_land_255 x : byte.of_Z (Z.land x 255) = byte.of_Z x.
Proof.
  apply byte_of_Z_mod. change 255 with (Z.ones 8). rewrite Z.land_ones by lia.
  apply Zmod_mod.
Qed.

Lemma EncodeFixed16_endian v : EncodeFixed16 false v = EncodeFixed16 true v.
Proof. unfold EncodeFixed16, memcpy_from. by rewrite !le_split_S, le_split_0, !byte_land_255. Qed.

Lemma EncodeFixed32_endian v : EncodeFixed32 false v = EncodeFixed32 true v.
Proof.
  unfold EncodeFixed32, memcpy_from.
  by rewrite !le_split_S, le_split_0, !byte_land_255, !Z.shiftr_shiftr by lia.
Qed.

Lemma EncodeFixed64_endian v : EncodeFixed64 false v = EncodeFixed64 true v.
Proof.
  unfold EncodeFixed64, memcpy_from.
  by rewrite !le_split_S, le_split_0, !byte_land_255, !Z.shiftr_shiftr by lia.
Qed.

Lemma byte_shiftl_small b k w :
  0 <= k -> 8 + k <= w -> wrap w (Z.shiftl (byte.unsigned b) k) = Z.shiftl (byte.unsigned b) k.
Proof.
  intros Hk Hw. pose proof (byte.unsigned_range b).
  apply wrap_small. rewrite Z.shiftl_mul_pow2 by done.
  assert (0 < 2 ^ k) by (apply Z.pow_pos_nonneg; lia).
  assert (2 ^ (8 + k) <= 2 ^ w) by (apply Z.pow_le_mono_r; lia).
  rewrite Z.pow_add_r in * by lia. nia.
Qed.

Lemma DecodeFixed32_endian ptr :
  4 <= zlen ptr -> DecodeFixed32 false ptr = DecodeFixed32 true ptr.
Proof.
  intros Hlen. destruct ptr as [|b0 [|b1 [|b2 [|b3 r]]]];
    rewrite ?zlen_cons, ?zlen_nil in Hlen; try lia.
  unfold DecodeFixed32, memcpy_to, uchar, u32. cbn [take lookup list_lookup].
  rewrite !le_combine_cons. change (le_combine (take 0 r)) with 0.
  rewrite !byte_shiftl_small by lia.
  rewrite !Z.shiftl_lor, !Z.shiftl_shiftl, Z.shiftl_0_l, Z.lor_0_r by lia.
  by rewrite !Z.lor_assoc.
Qed.

Lemma DecodeFixed64_endian ptr :
  8 <= zlen ptr -> DecodeFixed64 false ptr = DecodeFixed64 true ptr.
Proof.
  intros Hlen. unfold DecodeFixed64.
  rewrite !DecodeFixed32_endian by zlen_solve.
  unfold DecodeFixed32, memcpy_to.
  replace (take 8 ptr) with (take 4 ptr ++ take 4 (drop 4 ptr)) by
    (rewrite <- (take_drop 4 ptr) at 3; rewrite take_app, length_take;
     rewrite take_take; f_equal; f_equal; unfold zlen in *; lia).
  rewrite le_combine_app, length_take.
  replace (Z.of_nat (4 `min` length ptr) * 8) with 32 by (unfold zlen in *; lia).
  unfold u64. rewrite wrap_small; [by rewrite Z.lor_comm|].
  pose proof (le_combine_bound (take 4 (drop 4 ptr))) as Hb.
  rewrite Z.shiftl_mul_pow2 by lia.
  assert (2 ^ (8 * Z.of_nat (length (take 4 (drop 4 ptr)))) <= 2 ^ 32).
  { apply Z.pow_le_mono_r; [lia|]. rewrite length_take. lia. }
  lia.
Qed.

(** *** Zig-zag *)

Lemma lxor_ones x w : 0 <= w -> 0 <= x < 2 ^ w -> Z.lxor x (Z.ones w) = 2 ^ w - 1 - x.
Proof.
  intros Hw Hx. change (2 ^ w - 1) with (Z.pred (2 ^ w)).
  rewrite <- (Z.ones_equiv w), Z.sub_nocarry_ldiff.
  - apply Z.bits_inj'; intros i Hi. rewrite Z.lxor_spec, Z.ldiff_spec.
    destruct (decide (i < w)).
    + rewrite Z.ones_spec_low by lia. by destruct (Z.testbit x i).
    + rewrite Z.ones_spec_high, <- (Z.mod_small x (2 ^ w)) by lia.
      by rewrite Z.mod_pow2_bits_high by lia.
  - apply Z.bits_inj'; intros i Hi. rewrite Z.ldiff_spec, Z.bits_0.
    destruct (decide (i < w)).
    + rewrite Z.ones_spec_low by lia. by rewrite andb_false_r.
    + rewrite <- (Z.mod_small x (2 ^ w)) by lia.
      by rewrite Z.mod_pow2_bits_high by lia.
Qed.

Lemma i64ToZigzag_eq l :
  - 2 ^ 63 <= l < 2 ^ 63 -> i64ToZigzag l = if l <? 0 then - 2 * l - 1 else 2 * l.
Proof.
  intros Hl. unfold i64ToZigzag. rewrite (Z.shiftl_mul_pow2 _ 1), (Z.shiftr_div_pow2 l) by lia.
  destruct (Z.ltb_spec l 0).
  - replace (l / 2 ^ 63) with (-1) by (apply Z.div_unique with (l + 2 ^ 63); lia).
    assert (u64 l = l + 2 ^ 64) as ->.
    { unfold u64, wrap. symmetry. apply Z.mod_unique with (-1); lia. }
    assert (u64 ((l + 2 ^ 64) * 2 ^ 1) = 2 * l + 2 ^ 64) as ->.
    { unfold u64, wrap. symmetry. apply Z.mod_unique with 1; lia. }
    change (u64 (-1)) with (Z.ones 64). rewrite lxor_ones by lia. lia.
  - rewrite (Z.div_small l) by lia. unwrap. rewrite Z.lxor_0_r. lia.
Qed.

Lemma zigzag_roundtrip l : - 2 ^ 63 <= l < 2 ^ 63 -> zigzagToI64 (i64ToZigzag l) = l.
Proof.
  intros Hl. rewrite i64ToZigzag_eq by done. unfold zigzagToI64, to_i64.
  assert (Hl1 : forall n, Z.land n 1 = n mod 2) by (intros; by apply (Z.land_ones _ 1)).
  rewrite Hl1, Z.shiftr_div_pow2 by lia.
  change (2 ^ 1) with 2. destruct (Z.ltb_spec l 0).
  - replace (-2 * l - 1) with (1 + (- l - 1) * 2) by lia.
    rewrite Z_mod_plus_full, Z.div_add by lia. change (1 mod 2) with 1. change (1 / 2) with 0.
    change (u64 (Z.opp 1)) with (Z.ones 64). rewrite Z.add_0_l, lxor_ones by lia. unwrap.
    destruct (Z.ltb_spec (2 ^ 64 - 1 - (- l - 1)) (2 ^ 63)); lia.
  - replace (2 * l) with (0 + l * 2) by lia.
    rewrite Z_mod_plus_full, Z.div_add by lia. change (0 mod 2) with 0. change (0 / 2) with 0.
    change (u64 (Z.opp 0)) with 0. rewrite Z.lxor_0_r. unwrap.
    destruct (Z.ltb_spec (0 + l) (2 ^ 63)); lia.
Qed.

Lemma i64ToZigzag_range l : - 2 ^ 63 <= l < 2 ^ 63 -> 0 <= i64ToZigzag l < 2 ^ 64.
Proof. intros Hl. rewrite i64ToZigzag_eq by done. destruct (Z.ltb_spec l 0); lia. Qed.

(** ** Properties *)

(** What the Put routines append for a value of their width, the matching
    Get routine reads back, consuming exactly those bytes; and on every value
    the explicit (big-endian host) branches of the encoders write the bytes the
    [memcpy] branches write. *)
Theorem fixed_width_roundtrip (v : Z) (rest : bytes) :
  (0 <= v < 2 ^ 32 -> GetFixed32 (PutFixed32 [] v ++ rest) = Some (v, rest)) /\
  (0 <= v < 2 ^ 64 -> GetFixed64 (PutFixed64 [] v ++ rest) = Some (v, rest)) /\
  (forall ptr, 8 <= zlen ptr -> DecodeFixed32 false ptr = DecodeFixed32 true ptr /\
                               DecodeFixed64 false ptr = DecodeFixed64 true ptr) /\
  EncodeFixed16 false v = EncodeFixed16 true v /\
  EncodeFixed32 false v = EncodeFixed32 true v /\
  EncodeFixed64 false v = EncodeFixed64 true v.
Proof.
  split_and!; intros.
  - by rewrite PutFixed32_eq, app_nil_l, GetFixed32_le_split, u32_small.
  - by rewrite PutFixed64_eq, app_nil_l, GetFixed64_le_split, u64_small.
  - split; [apply DecodeFixed32_endian; lia|by apply DecodeFixed64_endian].
  - apply EncodeFixed16_endian.
  - apply EncodeFixed32_endian.
  - apply EncodeFixed64_endian.
Qed.

Lemma fixed_width_roundtrip_witness :
  GetFixed32 (PutFixed32 [] 305419896 ++ zeros 2) = Some (305419896, zeros 2).
Proof. apply (fixed_width_roundtrip 305419896 (zeros 2)). lia. Defined.

(** varint encodings read back: for every 32-bit (64-bit, signed 64-bit)
    value the matching decoder returns the value and leaves what followed the
    encoding. *)
Theorem varint_roundtrip (rest : bytes) :
  (forall v, 0 <= v < 2 ^ 32 -> GetVarint32 (PutVarint32 [] v ++ rest) = Some (v, rest)) /\
  (forall v, 0 <= v < 2 ^ 64 -> GetVarint64 (PutVarint64 [] v ++ rest) = Some (v, rest)) /\
  (forall l, - 2 ^ 63 <= l < 2 ^ 63 ->
     GetVarsignedint64 (PutVarsignedint64 [] l ++ rest) = Some (l, rest)).
Proof.
  split_and!; intros.
  - by apply GetVarint32_encode.
  - by apply GetVarint64_encode.
  - unfold GetVarsignedint64, PutVarsignedint64.
    pose proof (GetVarint64_encode (i64ToZigzag l) rest) as H1. unfold GetVarint64 in H1.
    rewrite app_nil_l. by rewrite H1, zigzag_roundtrip by eauto using i64ToZigzag_range.
Qed.

(** on every 32-bit value the unrolled encoder [EncodeVarint32] writes
    exactly the bytes of the loop [EncodeVarint64], [VarintLength] is the number
    of those bytes, and the inlined first byte of [GetVarint32Ptr] decides as the
    general loop does. *)
Theorem varint32_fast_paths (v : Z) (p : bytes) :
  0 <= v < 2 ^ 32 ->
  EncodeVarint32 v = EncodeVarint64 v /\
  VarintLength v = zlen (EncodeVarint32 v) /\
  GetVarint32Ptr p = GetVarint32PtrFallback p.
Proof.
  intros Hv. split_and!.
  - by apply EncodeVarint32_eq.
  - rewrite EncodeVarint32_eq by done. unfold VarintLength, EncodeVarint64.
    rewrite VarintLength_loop_length. lia.
  - apply GetVarint32Ptr_fallback.
Qed.

Lemma varint32_fast_paths_witness :
  EncodeVarint32 300 = EncodeVarint64 300 /\ VarintLength 300 = 2.
Proof.
  destruct (varint32_fast_paths 300 [] ltac:(lia)) as (H1 & H2 & _).
  split; [exact H1|rewrite H2; reflexivity].
Defined.

(** Decoding untrusted bytes is safe: a decoder that succeeds consumed
    between one and five (ten) of the input's own bytes and returns a value of
    its width, and a length-prefixed slice lies inside the input. *)
Theorem varint_decode_bounds (p rest : bytes) (v : Z) :
  (GetVarint32 p = Some (v, rest) ->
   0 <= v < 2 ^ 32 /\ exists pre, p = pre ++ rest /\ 1 <= zlen pre <= 5) /\
  (GetVarint64 p = Some (v, rest) ->
   0 <= v < 2 ^ 64 /\ exists pre, p = pre ++ rest /\ 1 <= zlen pre <= kMaxVarint64Length) /\
  (forall value, GetLengthPrefixedSlice p = (Some value, rest) ->
   exists pre, p = pre ++ value ++ rest /\ 1 <= zlen pre <= 5).
Proof.
  assert (H32 : forall q v' rest', GetVarint32 q = Some (v', rest') ->
    0 <= v' < 2 ^ 32 /\ exists pre, q = pre ++ rest' /\ 1 <= zlen pre <= 5).
  { intros q v' rest' H. unfold GetVarint32 in H. rewrite GetVarint32Ptr_fallback in H.
    apply GetVarintPtr_loop_bounds in H as (Hv & c & pre & -> & Hl); [|lia..].
    split; [done|]. exists (c :: pre). split; [done|]. unfold zlen. simpl in *. lia. }
  split_and!; [apply H32|..].
  - intros H. apply GetVarintPtr_loop_bounds in H as (Hv & c & pre & -> & Hl); [|lia..].
    split; [done|]. exists (c :: pre). split; [done|].
    unfold zlen, kMaxVarint64Length. simpl in *. lia.
  - intros value H. unfold GetLengthPrefixedSlice in H.
    destruct (GetVarint32 p) as [[len r]|] eqn:E; [|done].
    apply H32 in E as (Hv & pre & -> & Hl). case_decide; [|done]. simplify_eq.
    exists pre. split; [|done]. by rewrite ztake_zdrop.
Qed.

Lemma varint_decode_bounds_witness :
  exists pre, PutLengthPrefixedSlice [] (zeros 3) ++ zeros 1 = pre ++ zeros 3 ++ zeros 1
    /\ 1 <= zlen pre <= 5.
Proof.
  apply (varint_decode_bounds (PutLengthPrefixedSlice [] (zeros 3) ++ zeros 1) (zeros 1) 0).
  vm_compute. reflexivity.
Defined.

Lemma PutLengthPrefixedSliceParts_fold (parts : list bytes) (d : bytes) :
  fold_left (fun d p => d ++ p) parts d = d ++ concat parts.
Proof.
  revert d. induction parts as [|x parts IH]; intros d; simpl; [by rewrite app_nil_r|].
  by rewrite IH, app_assoc.
Qed.

Lemma PutLengthPrefixedSliceParts_total_len (parts : list bytes) t :
  0 <= t -> t + zlen (concat parts) < 2 ^ 64 ->
  fold_left (fun t p => t +64 zlen p) parts t = t + zlen (concat parts).
Proof.
  revert t. induction parts as [|x parts IH]; intros t Ht Hl; simpl in *.
  - rewrite zlen_nil. lia.
  - rewrite zlen_app in *. pose proof (zlen_nonneg x). pose proof (zlen_nonneg (concat parts)).
    unwrap. rewrite IH; lia.
Qed.

(** a slice written with its length prefix is read back, and gathering the
    slice from parts, with or without zero padding, writes the same bytes as
    writing the concatenation. *)
Theorem length_prefixed_roundtrip (dst value rest : bytes) (parts : list bytes) (pad : Z) :
  concat parts ++ zeros pad = value -> 0 <= pad -> zlen value < 2 ^ 32 ->
  GetLengthPrefixedSlice (PutLengthPrefixedSlice [] value ++ rest) = (Some value, rest) /\
  PutLengthPrefixedSlicePartsWithPadding dst parts pad = PutLengthPrefixedSlice dst value /\
  (pad = 0 -> PutLengthPrefixedSliceParts dst parts = PutLengthPrefixedSlice dst value).
Proof.
  intros <- Hpad Hlen. pose proof (zlen_nonneg (concat parts)).
  rewrite zlen_app, zlen_zeros in Hlen by done.
  assert (Htot : forall d p, p = pad ->
    PutLengthPrefixedSliceParts_total d p parts ++ zeros pad
    = PutLengthPrefixedSlice d (concat parts ++ zeros pad)).
  { intros d p ->. unfold PutLengthPrefixedSliceParts_total, PutLengthPrefixedSlice.
    rewrite PutLengthPrefixedSliceParts_total_len by lia.
    rewrite PutLengthPrefixedSliceParts_fold, zlen_app, zlen_zeros by done.
    rewrite <- app_assoc, Z.add_comm. done. }
  split_and!.
  - rewrite PutLengthPrefixedSlice_eq, app_nil_l, <- (app_assoc (EncodeVarint32 _)).
    apply GetLengthPrefixedSlice_encode. rewrite zlen_app, zlen_zeros by done. lia.
  - by apply Htot.
  - intros ->. rewrite <- (Htot dst 0) by done. unfold PutLengthPrefixedSliceParts.
    change (zeros 0) with (@nil byte). by rewrite app_nil_r.
Qed.

Lemma length_prefixed_roundtrip_witness :
  GetLengthPrefixedSlice (PutLengthPrefixedSlice [] (zeros 3) ++ zeros 2) = (Some (zeros 3), zeros 2).
Proof.
  apply (length_prefixed_roundtrip [] (zeros 3) (zeros 2) [zeros 1; zeros 1] 1);
    [reflexivity|lia|reflexivity].
Defined.
