(* ===== verification/CrcCombine.v ===== *)
(** * Combining checksums

    [Crc32cCombine] (rocksdb-raw/util/crc32c.cc): from the checksums of two byte
    strings, that of their concatenation, by multiplication in the field the
    checksum is computed in.  log::Writer checksums its records with it. *)

From S2P Require Import Prelude Coding Crc32c.

(** ** The code *)

(** [gf_multiply_sw_1]; [n] is 32 minus its index. *)
Fixpoint gf_multiply_sw_1 (n : nat) (p a b m : Z) : Z :=
  match n with
  | O => p
  | S n' =>
      gf_multiply_sw_1 n'
        (Z.lxor p (Z.land (u32 (0 - Z.land (Z.shiftr b 31) 1)) a))
        (Z.lxor (Z.shiftr a 1) (Z.land (u32 (0 - Z.land a 1)) m))
        (u32 (Z.shiftl b 1)) m
  end.

Definition gf_multiply_sw (a b m : Z) : Z := gf_multiply_sw_1 32 0 a b m.
Definition gf_square_sw (a m : Z) : Z := gf_multiply_sw a a m.

Fixpoint gf_powers_memo (i : nat) (m : Z) : Z :=
  match i with
  | O => m
  | S i' => gf_square_sw (gf_powers_memo i' m) m
  end.

Definition crc32c_powers : list Z := map (fun i => gf_powers_memo i crc32c_m) (seq 0 62).

(** [CountTrailingZeroBits] of a number that is not 0. *)
Fixpoint ctz_pos (p : positive) : Z :=
  match p with xO p' => 1 + ctz_pos p' | _ => 0 end.
Definition CountTrailingZeroBits (v : Z) : Z :=
  match v with Zpos p => ctz_pos p | _ => 0 end.

(** [while (len_bits)]; each round shifts at least one bit out. *)
Fixpoint Crc32AppendZeroes_loop (fuel : nat) (crc len_bits : Z) (polynomial : Z) (powers : list Z) : Z :=
  if len_bits =? 0 then crc
  else
    match fuel with
    | O => crc
    | S fuel' =>
        let r := CountTrailingZeroBits len_bits in
        let len_bits := Z.shiftr len_bits r in
        let powers := zdrop r powers in
        Crc32AppendZeroes_loop fuel' (gf_multiply_sw crc (nth 0 powers 0) polynomial)
          (Z.shiftr len_bits 1) polynomial (zdrop 1 powers)
    end.

Definition Crc32AppendZeroes (crc len_over_4 polynomial : Z) (powers_array : list Z) : Z :=
  Crc32AppendZeroes_loop 64 crc len_over_4 polynomial powers_array.

Definition InvertedToPure (crc : Z) : Z := u32 (Z.lnot crc).
Definition PureToInverted (crc : Z) : Z := u32 (Z.lnot crc).

(** [pval]: the address of the array [zeros]. *)
Definition PureExtend (pval crc : Z) (buf : bytes) : Z :=
  InvertedToPure (ExtendImpl pval (PureToInverted crc) buf).

Definition Crc32cCombine (pval crc1 crc2 crc2len : Z) : Z :=
  let pure_crc1_with_init := InvertedToPure crc1 in
  let pure_crc2_with_init := InvertedToPure crc2 in
  let pure_crc2_init := u32 (-1) in
  let len := Z.land crc2len 3 in
  let tmp := Z.lxor pure_crc1_with_init pure_crc2_init in
  let tmp := if negb (len =? 0) then PureExtend pval tmp (zeros len) else tmp in
  PureToInverted (Z.lxor (Crc32AppendZeroes tmp (crc2len / 4) crc32c_m crc32c_powers) pure_crc2_with_init).

(** ** Multiplication as a sum of shifted registers

    Bit [31 - i] of [b] stands for the [i]-th power of the polynomial variable, by
    which [crc_bit] multiplies. *)

Fixpoint gf_spec (n : nat) (a b : Z) : Z :=
  match n with
  | O => 0
  | S n' => Z.lxor (gf_spec n' a b) (if Z.testbit b (31 - Z.of_nat n') then crc_bits n' a else 0)
  end.

Lemma gf_spec_S n a b : gf_spec (S n) a b =
  Z.lxor (gf_spec n a b) (if Z.testbit b (31 - Z.of_nat n) then crc_bits n a else 0).
Proof. done. Qed.

Lemma crc_bits_S n c : crc_bits (S n) c = crc_bit (crc_bits n c).
Proof. done. Qed.

Lemma odd_mask x a : 0 <= a < 2 ^ 32 -> Z.land (u32 (0 - Z.land x 1)) a = if Z.odd x then a else 0.
Proof.
  intros Ha. assert (Z.land x 1 = if Z.odd x then 1 else 0) as ->.
  { change 1 with (Z.ones 1) at 1. rewrite Z.land_ones by lia. rewrite Zmod_odd. done. }
  destruct (Z.odd x); [|done]. change (u32 (0 - 1)) with (Z.ones 32).
  rewrite Z.land_comm, Z.land_ones, Z.mod_small by lia. done.
Qed.

Lemma gf_multiply_step a m : 0 <= m < 2 ^ 32 ->
  Z.lxor (Z.shiftr a 1) (Z.land (u32 (0 - Z.land a 1)) m) =
  if Z.odd a then Z.lxor (Z.shiftr a 1) m else Z.shiftr a 1.
Proof. intros Hm. rewrite odd_mask by done. destruct (Z.odd a); [done|]. by rewrite Z.lxor_0_r. Qed.

Lemma gf_multiply_1_spec n i a b :
  (i + n = 32)%nat -> 0 <= a < 2 ^ 32 ->
  gf_multiply_sw_1 n (gf_spec i a b) (crc_bits i a) (u32 (Z.shiftl b (Z.of_nat i))) crc32c_m = gf_spec 32 a b.
Proof.
  revert i. induction n as [|n IH]; intros i Hi Ha; simpl gf_multiply_sw_1.
  { by replace i with 32%nat by lia. }
  pose proof (crc_bits_range i a Ha) as Hr.
  rewrite odd_mask, gf_multiply_step by done. rewrite <- (IH (S i)) by (lia || done). f_equal.
  - simpl gf_spec. rewrite <- Z.bit0_odd, Z.shiftr_spec by lia. unfold u32, wrap.
    rewrite Z.mod_pow2_bits_low by lia. rewrite Z.shiftl_spec by lia.
    replace (0 + 31 - Z.of_nat i) with (31 - Z.of_nat i) by lia. done.
  - unfold u32, wrap. rewrite !Z.shiftl_mul_pow2 by lia. rewrite Z.mul_mod_idemp_l by lia.
    f_equal. rewrite <- Z.mul_assoc. f_equal. replace (Z.of_nat (S i)) with (Z.of_nat i + 1) by lia.
    rewrite Z.pow_add_r by lia. done.
Qed.

Lemma gf_multiply_spec a b :
  0 <= a < 2 ^ 32 -> 0 <= b < 2 ^ 32 -> gf_multiply_sw a b crc32c_m = gf_spec 32 a b.
Proof.
  intros Ha Hb. rewrite <- (gf_multiply_1_spec 32 0) by done. unfold gf_multiply_sw. f_equal.
  rewrite Z.shiftl_0_r. by rewrite u32_small.
Qed.

Lemma lxor_swap a b c d : Z.lxor (Z.lxor a b) (Z.lxor c d) = Z.lxor (Z.lxor a c) (Z.lxor b d).
Proof. rewrite !Z.lxor_assoc. f_equal. rewrite <- !Z.lxor_assoc. by rewrite (Z.lxor_comm b c). Qed.

Lemma crc_bit_0 : crc_bit 0 = 0.
Proof. done. Qed.

Lemma gf_spec_lxor_l n a a' b : gf_spec n (Z.lxor a a') b = Z.lxor (gf_spec n a b) (gf_spec n a' b).
Proof.
  induction n as [|n IH]; simpl; [done|]. rewrite IH, lxor_swap. f_equal.
  destruct (Z.testbit b _); [apply crc_bits_lxor|done].
Qed.

Lemma gf_spec_lxor_r n a b b' : gf_spec n a (Z.lxor b b') = Z.lxor (gf_spec n a b) (gf_spec n a b').
Proof.
  induction n as [|n IH]; simpl; [done|]. rewrite IH, lxor_swap, Z.lxor_spec. f_equal.
  destruct (Z.testbit b _), (Z.testbit b' _); simpl;
    rewrite ?Z.lxor_0_r, ?Z.lxor_0_l, ?Z.lxor_nilpotent; done.
Qed.

(** ** Powers of the variable *)

(** A linear identity holds if it holds on every bit. *)
Lemma linear_ind (P : Z -> Prop) :
  P 0 -> (forall a b, P a -> P b -> P (Z.lxor a b)) ->
  forall n, (forall k, (k < n)%nat -> P (2 ^ Z.of_nat k)) -> forall a, 0 <= a < 2 ^ Z.of_nat n -> P a.
Proof.
  intros H0 Hx n. induction n as [|n IH]; intros Hb a Ha.
  { by replace a with 0 by (change (2 ^ Z.of_nat 0) with 1 in Ha; lia). }
  destruct (Z.testbit a (Z.of_nat n)) eqn:Et.
  - replace a with (Z.lxor (Z.lxor a (2 ^ Z.of_nat n)) (2 ^ Z.of_nat n))
      by (by rewrite Z.lxor_assoc, Z.lxor_nilpotent, Z.lxor_0_r).
    apply Hx; [|apply Hb; lia]. apply IH; [intros; apply Hb; lia|].
    assert (0 <= Z.lxor a (2 ^ Z.of_nat n)) as Hnn by (apply Z.lxor_nonneg; lia).
    split; [done|]. rewrite <- (Z.mod_small (Z.lxor a (2 ^ Z.of_nat n)) (2 ^ Z.of_nat (S n))).
    2: { apply lxor_range; [lia|done|]. split; [lia|]. apply Z.pow_lt_mono_r; lia. }
    enough (Z.lxor a (2 ^ Z.of_nat n) mod 2 ^ Z.of_nat (S n) = a mod 2 ^ Z.of_nat n) as ->
      by (apply Z.mod_pos_bound; lia).
    apply Z.bits_inj'. intros i Hi. destruct (decide (i < Z.of_nat (S n))).
    + rewrite Z.mod_pow2_bits_low, Z.lxor_spec, Z.pow2_bits_eqb by lia.
      destruct (decide (i = Z.of_nat n)) as [->|].
      * rewrite Z.mod_pow2_bits_high, Et, Z.eqb_refl by lia. done.
      * rewrite Z.mod_pow2_bits_low by lia. destruct (Z.eqb_spec (Z.of_nat n) i); [lia|]. by rewrite xorb_false_r.
    + by rewrite !Z.mod_pow2_bits_high by lia.
  - apply IH; [intros; apply Hb; lia|]. split; [lia|].
    assert (a < 2 ^ Z.of_nat n \/ 2 ^ Z.of_nat n <= a) as [|Hge] by lia; [done|].
    enough (Z.testbit a (Z.of_nat n) = true) by congruence.
    rewrite Z.testbit_true by lia. replace (a / 2 ^ Z.of_nat n) with 1; [done|].
    apply Z.div_unique with (r := a - 2 ^ Z.of_nat n); [|lia].
    replace (Z.of_nat (S n)) with (Z.of_nat n + 1) in Ha by lia. rewrite Z.pow_add_r in Ha by lia. lia.
Qed.

(** The polynomial is the 32nd power of the variable. *)
Lemma gf_spec_m a : 0 <= a < 2 ^ 32 -> gf_spec 32 a crc32c_m = crc_bits 32 a.
Proof.
  apply (linear_ind (fun a => gf_spec 32 a crc32c_m = crc_bits 32 a)) with (n := 32%nat).
  - done.
  - intros x y Hx Hy. rewrite gf_spec_lxor_l, crc_bits_lxor. by rewrite Hx, Hy.
  - assert (forallb (fun k => gf_spec 32 (2 ^ Z.of_nat k) crc32c_m =? crc_bits 32 (2 ^ Z.of_nat k)) (seq 0 32) = true)
      as H by (vm_compute; reflexivity).
    intros k Hk. apply Z.eqb_eq. rewrite forallb_forall in H. apply H, in_seq. lia.
Qed.

Lemma gf_spec_shiftr n a b :
  (n <= 31)%nat -> 0 <= b < 2 ^ 32 -> gf_spec (S n) a (Z.shiftr b 1) = crc_bit (gf_spec n a b).
Proof.
  intros Hn Hb. induction n as [|n IH].
  - cbn [gf_spec]. rewrite Z.shiftr_spec by lia. rewrite <- (Z.mod_small b (2 ^ 32)) by done.
    by rewrite Z.mod_pow2_bits_high by lia.
  - rewrite gf_spec_S, IH, gf_spec_S by lia. rewrite crc_bit_lxor. f_equal. rewrite Z.shiftr_spec by lia.
    replace (31 - Z.of_nat (S n) + 1) with (31 - Z.of_nat n) by lia. by destruct (Z.testbit b _).
Qed.

(** Multiplying by the variable on the right is multiplying the product by it. *)
Lemma gf_spec_bit a b :
  0 <= a < 2 ^ 32 -> 0 <= b < 2 ^ 32 -> gf_spec 32 a (crc_bit b) = crc_bit (gf_spec 32 a b).
Proof.
  intros Ha Hb. assert (gf_spec 32 a (Z.shiftr b 1) = crc_bit (gf_spec 31 a b)) as Hs by (apply gf_spec_shiftr; [lia|done]).
  rewrite (gf_spec_S 31 a b), crc_bit_lxor. change (31 - Z.of_nat 31) with 0. rewrite Z.bit0_odd. unfold crc_bit at 1.
  destruct (Z.odd b); [|by rewrite crc_bit_0, Z.lxor_0_r].
  rewrite gf_spec_lxor_r, Hs, gf_spec_m, (crc_bits_S 31) by done. reflexivity.
Qed.

(** The unit of the multiplication. *)
Definition gf_one : Z := 0x80000000.

Lemma gf_spec_one n a : gf_spec (S n) a gf_one = a.
Proof.
  induction n as [|n IH]; [simpl; by rewrite Z.lxor_0_l|].
  rewrite gf_spec_S, IH. unfold gf_one. change 0x80000000 with (2 ^ 31). rewrite Z.pow2_bits_eqb by lia.
  destruct (Z.eqb_spec 31 (31 - Z.of_nat (S n))); [lia|]. apply Z.lxor_0_r.
Qed.

Lemma gf_spec_power n a : 0 <= a < 2 ^ 32 -> gf_spec 32 a (crc_bits n gf_one) = crc_bits n a.
Proof.
  intros Ha. induction n as [|n IH]; [apply gf_spec_one|].
  rewrite !crc_bits_S, gf_spec_bit, IH; [reflexivity|exact Ha|].
  apply crc_bits_range. by unfold gf_one.
Qed.

Lemma gf_powers_memo_spec i : gf_powers_memo i crc32c_m = crc_bits (32 * 2 ^ i) gf_one.
Proof.
  induction i as [|i IH]; [vm_compute; reflexivity|]. cbn [gf_powers_memo].
  assert (0 <= crc_bits (32 * 2 ^ i) gf_one < 2 ^ 32) as Hr by (apply crc_bits_range; by unfold gf_one).
  unfold gf_square_sw. rewrite IH, gf_multiply_spec, gf_spec_power by done.
  rewrite <- crc_bits_add. f_equal. rewrite Nat.pow_succ_r'. lia.
Qed.

(** ** Appending zeros *)

Lemma ctz_spec v : 0 < v -> exists q, 0 <= q /\ v = 2 ^ CountTrailingZeroBits v * (2 * q + 1) /\
  0 <= CountTrailingZeroBits v.
Proof.
  intros Hv. destruct v as [|p|]; [lia| |lia]. clear Hv. simpl. induction p as [p IH|p IH|].
  - exists (Zpos p). split; [lia|]. change (ctz_pos p~1) with 0. split; lia.
  - destruct IH as (q & Hq & Heq & Hc). exists q. split; [done|].
    change (ctz_pos p~0) with (1 + ctz_pos p). split; [|lia]. rewrite Z.pow_add_r by lia.
    rewrite <- Z.mul_assoc, <- Heq. lia.
  - exists 0. split; [lia|]. change (ctz_pos 1) with 0. split; lia.
Qed.

Lemma crc32c_powers_nth k :
  (k < 62)%nat -> nth 0 (drop k crc32c_powers) 0 = gf_powers_memo k crc32c_m.
Proof.
  intros Hk. apply nth_lookup_Some. rewrite lookup_drop, Nat.add_0_r. unfold crc32c_powers.
  change (map ?f ?l) with (f <$> l). rewrite list_lookup_fmap, lookup_seq_lt by done. reflexivity.
Qed.

Lemma AppendZeroes_loop_spec fuel crc len i :
  0 <= crc < 2 ^ 32 -> 0 <= len < 2 ^ Z.of_nat fuel -> len * 2 ^ Z.of_nat i < 2 ^ 62 ->
  Crc32AppendZeroes_loop fuel crc len crc32c_m (drop i crc32c_powers) =
  crc_bits (32 * 2 ^ i * Z.to_nat len) crc.
Proof.
  revert crc len i. induction fuel as [|fuel IH]; intros crc len i Hc Hl Hmax; cbn [Crc32AppendZeroes_loop].
  { change (2 ^ Z.of_nat 0) with 1 in Hl. replace len with 0 by lia. simpl. by rewrite Nat.mul_0_r. }
  destruct (Z.eqb_spec len 0) as [->|Hne]; [by rewrite Nat.mul_0_r|].
  destruct (ctz_spec len) as (q & Hq & Heq & Hr); [lia|]. set (r := CountTrailingZeroBits len) in *.
  assert (Z.shiftr len r = 2 * q + 1) as ->.
  { rewrite Z.shiftr_div_pow2, Heq by done. rewrite Z.mul_comm. apply Z.div_mul. lia. }
  assert (Z.shiftr (2 * q + 1) 1 = q) as ->.
  { rewrite Z.shiftr_div_pow2 by lia. change (2 ^ 1) with 2. symmetry. apply Z.div_unique with (r := 1); lia. }
  set (k := (i + Z.to_nat r)%nat).
  assert (zdrop r (drop i crc32c_powers) = drop k crc32c_powers) as -> by (unfold zdrop, k; by rewrite drop_drop).
  assert (zdrop 1 (drop k crc32c_powers) = drop (S k) crc32c_powers) as ->
    by (unfold zdrop; rewrite drop_drop; f_equal; lia).
  assert (len * 2 ^ Z.of_nat i = (2 * q + 1) * 2 ^ Z.of_nat k) as Hlk.
  { unfold k. rewrite Nat2Z.inj_add, Z2Nat.id, Z.pow_add_r, Heq by lia. lia. }
  assert (k < 62)%nat as Hk.
  { apply Nat2Z.inj_lt. change (Z.of_nat 62) with 62. apply (Z.pow_lt_mono_r_iff 2); [lia..|]. nia. }
  assert (nth 0 (drop k crc32c_powers) 0 = gf_powers_memo k crc32c_m) as ->.
  { by apply crc32c_powers_nth. }
  rewrite gf_powers_memo_spec.
  assert (0 <= crc_bits (32 * 2 ^ k) gf_one < 2 ^ 32) as Hg by (apply crc_bits_range; by unfold gf_one).
  rewrite gf_multiply_spec, gf_spec_power by done. rewrite IH.
  - rewrite <- crc_bits_add. f_equal. rewrite Nat.pow_succ_r'. unfold k. rewrite Nat.pow_add_r.
    assert (Z.to_nat len = 2 ^ Z.to_nat r * (2 * Z.to_nat q + 1))%nat as ->; [|lia].
    rewrite Heq, Z2Nat.inj_mul, Z2Nat.inj_pow by lia. change (Z.to_nat 2) with 2%nat. f_equal. lia.
  - by apply crc_bits_range.
  - split; [done|]. replace (Z.of_nat (S fuel)) with (1 + Z.of_nat fuel) in Hl by lia.
    rewrite Z.pow_add_r in Hl by lia. pose proof (Z.pow_pos_nonneg 2 r). nia.
  - replace (Z.of_nat (S k)) with (1 + Z.of_nat k) by lia. rewrite Z.pow_add_r by lia.
    pose proof (Z.pow_pos_nonneg 2 (Z.of_nat k)). lia.
Qed.

Lemma AppendZeroes_spec crc len :
  0 <= crc < 2 ^ 32 -> 0 <= len < 2 ^ 62 ->
  Crc32AppendZeroes crc len crc32c_m crc32c_powers = crc_bits (32 * Z.to_nat len) crc.
Proof.
  intros Hc Hl. unfold Crc32AppendZeroes.
  pose proof (AppendZeroes_loop_spec 64 crc len 0 Hc) as H. rewrite drop_0 in H.
  rewrite H; [f_equal; simpl; lia| |].
  - split; [lia|]. change (Z.of_nat 64) with 64. lia.
  - change (2 ^ Z.of_nat 0) with 1. lia.
Qed.

(** ** Combining *)

Lemma u32_lnot c : 0 <= c < 2 ^ 32 -> u32 (Z.lnot c) = Z.lxor c 0xffffffff.
Proof.
  intros Hc. change 0xffffffff with (Z.ones 32). apply Z.bits_inj'. intros i Hi. unfold u32, wrap.
  rewrite Z.lxor_spec. destruct (decide (i < 32)).
  - rewrite Z.mod_pow2_bits_low, Z.lnot_spec, Z.ones_spec_low by lia. by rewrite xorb_true_r.
  - rewrite Z.mod_pow2_bits_high, Z.ones_spec_high by lia. rewrite <- (Z.mod_small c (2 ^ 32)) by done.
    by rewrite Z.mod_pow2_bits_high by lia.
Qed.

Lemma lxor_ones_twice c : Z.lxor (Z.lxor c 0xffffffff) 0xffffffff = c.
Proof. by rewrite Z.lxor_assoc, Z.lxor_nilpotent, Z.lxor_0_r. Qed.

Lemma inverted_range c : 0 <= c < 2 ^ 32 -> 0 <= Z.lxor c 0xffffffff < 2 ^ 32.
Proof. intros Hc. apply lxor_range; lia. Qed.

(** The register before a string only shifts along it. *)
Lemma crc_bytes_lxor l l' b :
  fold_left crc_byte b (Z.lxor l l') = Z.lxor (crc_bits (8 * length b) l) (fold_left crc_byte b l').
Proof.
  revert l l'. induction b as [|x b IH]; intros l l'; [done|]. simpl fold_left.
  assert (crc_byte (Z.lxor l l') x = Z.lxor (crc_bits 8 l) (crc_byte l' x)) as ->.
  { unfold crc_byte. by rewrite Z.lxor_assoc, crc_bits_lxor. }
  rewrite IH, <- crc_bits_add. do 2 f_equal. simpl length. lia.
Qed.

Lemma crc_bytes_zeros n l : fold_left crc_byte (replicate n Byte.x00) l = crc_bits (8 * n) l.
Proof.
  revert l. induction n as [|n IH]; intros l; [done|]. simpl fold_left. rewrite IH.
  assert (crc_byte l Byte.x00 = crc_bits 8 l) as ->
    by (unfold crc_byte; change (byte.unsigned Byte.x00) with 0; by rewrite Z.lxor_0_r).
  rewrite <- crc_bits_add. f_equal. lia.
Qed.

Lemma PureExtend_zeros pval crc n :
  0 <= pval -> 0 <= crc < 2 ^ 32 -> PureExtend pval crc (zeros n) = crc_bits (8 * Z.to_nat n) crc.
Proof.
  intros Hp Hc. unfold PureExtend, InvertedToPure, PureToInverted.
  pose proof (inverted_range crc Hc) as Hi. rewrite u32_lnot, (u32_lnot crc) by (done || apply ExtendImpl_range).
  rewrite ExtendImpl_spec by done. unfold crc32c_spec, zeros. rewrite !lxor_ones_twice. apply crc_bytes_zeros.
Qed.

Lemma Crc32cCombine_spec pval p crc1 b :
  0 <= pval -> 0 <= p -> 0 <= crc1 < 2 ^ 32 -> zlen b < 2 ^ 64 ->
  Crc32cCombine pval crc1 (ExtendImpl p 0 b) (zlen b) = crc32c_spec crc1 b.
Proof.
  intros Hv Hp Hc Hlen. unfold Crc32cCombine, InvertedToPure, PureToInverted.
  pose proof (ExtendImpl_range p 0 b) as Hr2. pose proof (zlen_nonneg b) as Hb.
  rewrite (u32_lnot crc1), (u32_lnot (ExtendImpl p 0 b)) by done.
  change (u32 (-1)) with 0xffffffff. rewrite lxor_ones_twice.
  assert (Z.lxor (ExtendImpl p 0 b) 0xffffffff = fold_left crc_byte b 0xffffffff) as ->.
  { rewrite ExtendImpl_spec by lia. unfold crc32c_spec. apply lxor_ones_twice. }
  assert (Z.land (zlen b) 3 = zlen b mod 4) as -> by (change 3 with (Z.ones 2); apply Z.land_ones; lia).
  pose proof (Z.mod_pos_bound (zlen b) 4 ltac:(lia)) as Hm.
  assert ((if negb (zlen b mod 4 =? 0) then PureExtend pval crc1 (zeros (zlen b mod 4)) else crc1) =
    crc_bits (8 * Z.to_nat (zlen b mod 4)) crc1) as ->.
  { destruct (Z.eqb_spec (zlen b mod 4) 0) as [->|]; [done|]. by apply PureExtend_zeros. }
  rewrite AppendZeroes_spec.
  2: by apply crc_bits_range.
  2: { split; [apply Z.div_pos; lia|]. apply Z.div_lt_upper_bound; lia. }
  rewrite <- crc_bits_add.
  assert (32 * Z.to_nat (zlen b / 4) + 8 * Z.to_nat (zlen b mod 4) = 8 * length b)%nat as ->.
  { pose proof (Z.div_mod (zlen b) 4 ltac:(lia)). pose proof (Z.div_pos (zlen b) 4). unfold zlen in *. lia. }
  rewrite <- crc_bytes_lxor. pose proof (inverted_range crc1 Hc) as Hi.
  rewrite u32_lnot by by apply crc_bytes_range. unfold crc32c_spec. done.
Qed.

(** C33: combining the checksum of a string, extended from any checksum, with that of a
    second string and its length gives the checksum of the two strings together. *)
Theorem crc32c_combine_correct pval p1 p2 p3 crc a b :
  0 <= pval -> 0 <= p1 -> 0 <= p2 -> 0 <= p3 -> 0 <= crc < 2 ^ 32 -> zlen b < 2 ^ 64 ->
  Crc32cCombine pval (ExtendImpl p1 crc a) (ExtendImpl p2 0 b) (zlen b) = ExtendImpl p3 crc (a ++ b).
Proof.
  intros Hv H1 H2 H3 Hc Hlen. rewrite Crc32cCombine_spec; [|done|done|apply ExtendImpl_range|done].
  rewrite (ExtendImpl_spec p1), (ExtendImpl_spec p3) by done. unfold crc32c_spec.
  by rewrite lxor_ones_twice, fold_left_app.
Qed.

Lemma crc32c_combine_correct_witness :
  Crc32cCombine 0 (ExtendImpl 3 0 [Byte.x31; Byte.x32]) (ExtendImpl 5 0 [Byte.x33; Byte.x34; Byte.x35; Byte.x36; Byte.x37]) 5
  = ExtendImpl 0 0 [Byte.x31; Byte.x32; Byte.x33; Byte.x34; Byte.x35; Byte.x36; Byte.x37].
Proof.
  apply (crc32c_combine_correct 0 3 5 0 0 [Byte.x31; Byte.x32] [Byte.x33; Byte.x34; Byte.x35; Byte.x36; Byte.x37]);
    vm_compute; intuition discriminate.
Defined.
