(* ===== verification/Device.v ===== *)
(** * Interfaces to the device

    [ZonedBlockDeviceBackend] (zbd_zenfs.h) as a type class over the state [D]
    of the device, and the part of SZD's [SZDOnceLog] the code calls as a type
    class over [D] and the state [L] of a log.  SZD, libzbd and the kernel are
    not part of the repository: they appear as the fields of the two classes,
    and the documented behaviour the theorems rely on as the named laws of
    [BackendSpec]. *)

From S2P Require Import Prelude Status.

(** ** Calls into the device *)

(** A call that returns a status or a value. *)
Definition io (D A : Type) : Type := D -> (Status + A) * D.

Definition io_run {D A} (f : io D A) : M D A := fun d =>
  match f d with
  | (inr a, d') => Ok a d'
  | (inl e, d') => Err e d'
  end.

(** A call that returns an [int] and leaves the rest to the caller. *)
Definition call {D A} (f : D -> A * D) : M D A := fun d =>
  let '(a, d') := f d in Ok a d'.

(** One entry of a [ZoneList], as the backend's accessors show it. *)
Record zone_rep := mkZoneRep {
  ZoneIsSwr : bool;
  ZoneIsOffline : bool;
  ZoneIsWritable : bool;
  ZoneIsActive : bool;
  ZoneIsOpen : bool;
  ZoneStart : Z;
  ZoneMaxCapacity : Z;
  ZoneWp : Z
}.

Definition EINTR : Z := 4.

(** [loop_bound] is how often the model goes round a loop whose progress is up
    to the device. *)
Class ZonedBlockDeviceBackend (D L : Type) := {
  block_sz_ : Z;
  zone_sz_ : Z;
  nr_zones_ : Z;
  loop_bound : nat;
  (** readonly, exclusive; the limits on active and open zones *)
  be_Open : bool -> bool -> io D (Z * Z);
  be_ListZones : D -> option (list zone_rep);
  (** start; offline and maximum capacity *)
  be_Reset : Z -> io D (bool * Z);
  be_Finish : Z -> io D unit;
  be_Close : Z -> io D unit;
  (** size, position, direct; the [int] returned, [errno] and the bytes read *)
  be_Read : Z -> Z -> bool -> D -> Z * Z * bytes * D;
  (** data, position; the [int] returned and [strerror(errno)] *)
  be_Write : bytes -> Z -> D -> Z * string * D;
  be_Append : bytes -> L -> D -> Z * string * (L * D);
  be_AppendSync : L -> D -> Z * (L * D);
  be_InvalidateCache : Z -> Z -> D -> Z * D;
  be_GetFilename : string
}.

(** [true] stands for [SZDStatus::Success]. *)
Class SZDOnceLog (D L : Type) := {
  (** first zone, zone after the last, write channel *)
  szd_new : Z -> Z -> Z -> L;
  szd_RecoverPointers : L -> D -> bool * (L * D);
  szd_AsyncAppend : bytes -> L -> D -> bool * (L * D);
  szd_Sync : L -> D -> bool * (L * D);
  (** block address, size *)
  szd_Read : Z -> Z -> L -> D -> bool * bytes;
  szd_ResetAll : L -> D -> bool * (L * D);
  szd_GetWriteHead : L -> Z;
  szd_GetWriteTail : L -> Z
}.

(** ** Devices made of the states that satisfy an invariant *)

Section subset.
Context {S : Type} (P : S -> Prop).

Definition dev : Type := { s : S | P s }.

Definition run_dev {A} (m : M S A) (Hm : preserves P m) (d : dev) : result dev A :=
  match m (proj1_sig d) as r
    return match r with Ok _ s' | Err _ s' => P s' | Stuck _ => True end -> result dev A with
  | Ok a s' => fun H => Ok a (exist _ s' H)
  | Err e s' => fun H => Err e (exist _ s' H)
  | Stuck w => fun _ => Stuck w
  end (Hm (proj1_sig d) (proj2_sig d)).

Lemma run_dev_spec {A} (m : M S A) Hm (d : dev) :
  match run_dev m Hm d with
  | Ok a d' => m (proj1_sig d) = Ok a (proj1_sig d')
  | Err e d' => m (proj1_sig d) = Err e (proj1_sig d')
  | Stuck w => m (proj1_sig d) = Stuck w
  end.
Proof.
  unfold run_dev. generalize (Hm (proj1_sig d) (proj2_sig d)). by destruct (m (proj1_sig d)).
Qed.

(** A call that returns a status; undefined behaviour is reported as an error. *)
Definition dev_io {A} (m : M S A) (Hm : preserves P m) : io dev A := fun d =>
  match run_dev m Hm d with
  | Ok a d' => (inr a, d')
  | Err e d' => (inl e, d')
  | Stuck _ => (inl (IOError "undefined"), d)
  end.
(** A call that returns an [int]. *)
Definition dev_int {A} (m : M S A) (Hm : preserves P m) (dflt : A) (d : dev) : A * dev :=
  match run_dev m Hm d with
  | Ok a d' => (a, d')
  | Err _ d' => (dflt, d')
  | Stuck _ => (dflt, d)
  end.

(** An operation of the device is the operation of the backend, or it is undefined
    there and the device stays as it is. *)
Lemma dev_io_inv {A} (m : M S A) Hm (d : dev) r d' :
  dev_io m Hm d = (r, d') ->
  match r with
  | inr a => m (proj1_sig d) = Ok a (proj1_sig d')
  | inl e => m (proj1_sig d) = Err e (proj1_sig d') \/
             (exists u, m (proj1_sig d) = Stuck u) /\ d' = d /\ ok e = false
  end.
Proof.
  unfold dev_io. pose proof (run_dev_spec m Hm d) as H.
  destruct (run_dev m Hm d); intros [= <- <-]; [done|by left|]. right. split; [by eexists|done].
Qed.

Lemma dev_int_inv {A} (m : M S A) Hm dflt (d : dev) r d' :
  dev_int m Hm dflt d = (r, d') ->
  m (proj1_sig d) = Ok r (proj1_sig d') \/ r = dflt /\
    ((exists e, m (proj1_sig d) = Err e (proj1_sig d')) \/ (exists u, m (proj1_sig d) = Stuck u) /\ d' = d).
Proof.
  unfold dev_int. pose proof (run_dev_spec m Hm d) as H.
  destruct (run_dev m Hm d); intros [= <- <-]; [by left|right; split; [done|]..].
  - left. by eexists.
  - right. split; [by eexists|done].
Qed.
End subset.
Arguments run_dev {S P A} _ _ _.
Arguments dev_io {S P A} _ _ _.
Arguments dev_int {S P A} _ _ _ _.

(** ** Contents of a device *)

(** The [n] bytes at [pos]. *)
Definition range (f : Z -> byte) (pos n : Z) : bytes := f <$> seqZ pos n.

(** Stores [data] at [pos]. *)
Definition store (f : Z -> byte) (pos : Z) (data : bytes) (a : Z) : byte :=
  if decide (pos <= a < pos + zlen data) then nth (Z.to_nat (a - pos)) data Byte.x00 else f a.

Lemma zlen_range f pos n : 0 <= n -> zlen (range f pos n) = n.
Proof. intros H. unfold zlen, range. rewrite length_fmap, length_seqZ. lia. Qed.

Lemma range_0 f pos : range f pos 0 = [].
Proof. done. Qed.

Lemma range_app f pos n m :
  0 <= n -> 0 <= m -> range f pos (n + m) = range f pos n ++ range f (pos + n) m.
Proof. intros Hn Hm. unfold range. by rewrite seqZ_app, fmap_app by done. Qed.

Lemma ztake_range f pos n m : 0 <= m <= n -> ztake m (range f pos n) = range f pos m.
Proof.
  intros H. replace n with (m + (n - m)) by lia. rewrite range_app by lia.
  apply ztake_app'. by rewrite zlen_range by lia.
Qed.

Lemma zdrop_range f pos n m : 0 <= m <= n -> zdrop m (range f pos n) = range f (pos + m) (n - m).
Proof.
  intros H. replace n with (m + (n - m)) at 1 by lia. rewrite range_app by lia.
  apply zdrop_app'. by rewrite zlen_range by lia.
Qed.

Lemma range_ext f g pos n :
  (forall a, pos <= a < pos + n -> f a = g a) -> range f pos n = range g pos n.
Proof.
  intros H. apply list_fmap_ext. intros i a Ha%lookup_seqZ. apply H. lia.
Qed.

Lemma range_nth f pos n i :
  0 <= i < n -> nth (Z.to_nat i) (range f pos n) Byte.x00 = f (pos + i).
Proof.
  intros Hi. apply nth_lookup_Some. unfold range.
  rewrite list_lookup_fmap, lookup_seqZ_lt by lia. simpl. do 2 f_equal. lia.
Qed.

Lemma range_store_same f pos data : range (store f pos data) pos (zlen data) = data.
Proof.
  apply list_eq. intros i. unfold range. rewrite list_lookup_fmap.
  destruct (decide (i < length data)%nat) as [Hi|Hi].
  - rewrite lookup_seqZ_lt by (unfold zlen; lia). simpl. unfold store.
    rewrite decide_True by (unfold zlen; lia).
    replace (Z.to_nat (pos + Z.of_nat i - pos)) with i by lia.
    destruct (lookup_lt_is_Some_2 data i Hi) as [x Hx]. rewrite Hx.
    f_equal. by apply nth_lookup_Some.
  - rewrite lookup_seqZ_ge by (unfold zlen; lia).
    symmetry. apply lookup_ge_None. lia.
Qed.

Lemma range_store_disjoint f pos data p n :
  p + n <= pos \/ pos + zlen data <= p -> range (store f pos data) p n = range f p n.
Proof.
  intros H. apply range_ext. intros a Ha. unfold store. rewrite decide_False; [done|lia].
Qed.

Lemma store_outside f pos data a :
  ~ (pos <= a < pos + zlen data) -> store f pos data a = f a.
Proof. intros H. unfold store. by rewrite decide_False. Qed.

Lemma store_nil f pos a : store f pos [] a = f a.
Proof. unfold store. rewrite decide_False; [done|]. unfold zlen. simpl. lia. Qed.

Lemma store_app f pos d1 d2 a :
  store f pos (d1 ++ d2) a = store (store f pos d1) (pos + zlen d1) d2 a.
Proof.
  unfold store. rewrite zlen_app. pose proof (zlen_nonneg d1). pose proof (zlen_nonneg d2).
  destruct (decide (pos + zlen d1 <= a < pos + zlen d1 + zlen d2)) as [H1|H1].
  - rewrite decide_True by lia. rewrite app_nth2 by (unfold zlen in *; lia).
    f_equal. unfold zlen in *. lia.
  - destruct (decide (pos <= a < pos + zlen d1)) as [H2|H2].
    + rewrite decide_True by lia. apply app_nth1. unfold zlen in *. lia.
    + by rewrite decide_False by lia.
Qed.

Lemma store_ext f g pos data a : (forall a, f a = g a) -> store f pos data a = store g pos data a.
Proof. intros H. unfold store. by rewrite H. Qed.

(** ** What the theorems rely on *)

Class BackendSpec (D L : Type) `{be : ZonedBlockDeviceBackend D L} := {
  (** The readable contents. *)
  disk : D -> Z -> byte;
  (** A successful write stores a non-empty prefix of the data and nothing else. *)
  write_ok : forall data pos d ret err d',
    be_Write data pos d = (ret, err, d') -> 0 <= ret ->
    ret <= zlen data /\ (0 < zlen data -> 0 < ret) /\
    forall a, disk d' a = store (disk d) pos (ztake ret data) a;
  (** A failed write touches at most the range it was asked to write. *)
  write_err : forall data pos d ret err d',
    be_Write data pos d = (ret, err, d') -> ret < 0 ->
    forall a, ~ (pos <= a < pos + zlen data) -> disk d' a = disk d a;
  (** A read returns at most what was asked for, and what the device holds. *)
  read_ok : forall size pos direct d r errno data d',
    be_Read size pos direct d = (r, errno, data, d') ->
    (forall a, disk d' a = disk d a) /\
    (0 <= size -> 0 < r -> r <= size /\ data = range (disk d) pos r);
  (** The reset of a zone reports a capacity that fits the zone, in whole blocks; it
      touches no other zone, also when it fails. *)
  reset_ok : forall start d offline max_capacity d',
    be_Reset start d = (inr (offline, max_capacity), d') -> start mod zone_sz_ = 0 ->
    (0 <= max_capacity <= zone_sz_ /\ max_capacity mod block_sz_ = 0) /\
    forall a, ~ (start <= a < start + zone_sz_) -> disk d' a = disk d a;
  reset_fails : forall start d e d',
    be_Reset start d = (inl e, d') -> start mod zone_sz_ = 0 ->
    forall a, ~ (start <= a < start + zone_sz_) -> disk d' a = disk d a;
  (** What the device reports as an error is one. *)
  reset_err : forall start d e d', be_Reset start d = (inl e, d') -> ok e = false;
  finish_err : forall start d e d', be_Finish start d = (inl e, d') -> ok e = false;
  close_err : forall start d e d', be_Close start d = (inl e, d') -> ok e = false;
  finish_ok : forall start d r d',
    be_Finish start d = (r, d') -> forall a, disk d' a = disk d a;
  close_ok : forall start d r d',
    be_Close start d = (r, d') -> forall a, disk d' a = disk d a;
  block_sz_pos : 0 < block_sz_;
  block_sz_u32 : block_sz_ < 2 ^ 32;
  zone_sz_pos : 0 < zone_sz_
}.

(** A device on which reads inside the device make progress. *)
Class ReliableReads (D L : Type) `{be : ZonedBlockDeviceBackend D L} := {
  read_progress : forall size pos direct d,
    0 < size -> 0 <= pos -> pos + size <= nr_zones_ * zone_sz_ ->
    exists r errno data d', be_Read size pos direct d = (r, errno, data, d') /\ 0 < r;
  device_size_u64 : nr_zones_ * zone_sz_ < 2 ^ 64
}.

(** A device that takes the writes it is asked to: [accepts d pos room] says that
    [room] bytes can be written from [pos] on, in any pieces.  Other zones and reads
    do not change that. *)
Class ReliableWrites (D L : Type) `{be : ZonedBlockDeviceBackend D L} := {
  accepts : D -> Z -> Z -> Prop;
  accepts_none : forall d pos room, room <= 0 -> accepts d pos room;
  accepts_write : forall data pos room d r err d',
    accepts d pos room -> 0 < zlen data <= room -> be_Write data pos d = (r, err, d') ->
    0 <= r /\ accepts d' (pos + r) (room - r);
  accepts_other : forall data p pos room d r err d',
    accepts d pos room -> p / zone_sz_ <> pos / zone_sz_ -> be_Write data p d = (r, err, d') ->
    accepts d' pos room;
  accepts_read : forall size p direct pos room d r errno data d',
    accepts d pos room -> be_Read size p direct d = (r, errno, data, d') -> accepts d' pos room
}.
