(* ===== verification/MemDevice.v ===== *)
(** * An in-memory zoned device

    A concrete instance of the interfaces of Device.v: a device that accepts
    writes only at the write pointer of a zone, short writes included, and a
    log over it.  It shows that the laws of [BackendSpec] can hold, and the
    examples of the development run on it. *)

From S2P Require Import Prelude Status Device.

(** [geom_mw] is the most one call transfers. *)
Record geom := mkGeom { geom_bs : Z; geom_zs : Z; geom_nz : Z; geom_mw : Z; geom_bound : nat }.

(** The stores so far, latest first, and the write pointers that have moved. *)
Record MemDev := mkMemDev { md_stores : list (Z * bytes); md_wp : gmap Z Z }.

Definition mem_empty : MemDev := mkMemDev [] ∅.

Fixpoint mem_disk_of (l : list (Z * bytes)) (a : Z) : byte :=
  match l with
  | [] => Byte.x00
  | (pos, data) :: l' => store (mem_disk_of l') pos data a
  end.
Definition mem_disk (d : MemDev) : Z -> byte := mem_disk_of (md_stores d).

Record MemLog := mkMemLog { ml_min : Z; ml_max : Z; ml_chan : Z; ml_head : Z }.

Section mem.
Context (g : geom).

Definition mem_wp (d : MemDev) (i : Z) : Z := default (i * geom_zs g) (md_wp d !! i).
Definition mem_store (d : MemDev) (pos : Z) (data : bytes) : MemDev :=
  mkMemDev ((pos, data) :: md_stores d) (<[pos / geom_zs g := pos + zlen data]> (md_wp d)).

Definition mem_write (data : bytes) (pos : Z) (d : MemDev) : Z * string * MemDev :=
  let i := pos / geom_zs g in
  if (0 <? geom_mw g) && (pos =? mem_wp d i) && (pos + zlen data <=? (i + 1) * geom_zs g)
  then let r := Z.min (geom_mw g) (zlen data) in (r, "", mem_store d pos (ztake r data))
  else (-1, "Input/output error", d).

Definition mem_read (size pos : Z) (direct : bool) (d : MemDev) : Z * Z * bytes * MemDev :=
  if (pos <? 0) || (geom_nz g * geom_zs g <=? pos) then (0, 0, [], d)
  else let r := Z.min (geom_mw g) size in (r, 0, range (mem_disk d) pos r, d).

Definition mem_reset (start : Z) (d : MemDev) : (Status + bool * Z) * MemDev :=
  (inr (false, geom_zs g),
   mkMemDev ((start, zeros (geom_zs g)) :: md_stores d)
     (<[start / geom_zs g := start]> (md_wp d))).

Definition mem_finish (start : Z) (d : MemDev) : (Status + unit) * MemDev :=
  (inr tt, mkMemDev (md_stores d) (<[start / geom_zs g := start + geom_zs g]> (md_wp d))).

Definition mem_list_zones (d : MemDev) : option (list zone_rep) :=
  Some ((fun i =>
    let wp := mem_wp d i in
    let full := wp =? (i + 1) * geom_zs g in
    mkZoneRep true false (negb full) (negb full && negb (wp =? i * geom_zs g)) false
      (i * geom_zs g) (geom_zs g) wp) <$> seqZ 0 (geom_nz g)).

(** The log fills its zones one after the other. *)
Definition log_append (data : bytes) (l : MemLog) (d : MemDev) : bool * (MemLog * MemDev) :=
  let pos := ml_head l * geom_bs g in
  if (zlen data mod geom_bs g =? 0) && (pos + zlen data <=? ml_max l * geom_zs g)
  then (true, (mkMemLog (ml_min l) (ml_max l) (ml_chan l)
                 (ml_head l + zlen data / geom_bs g), mem_store d pos data))
  else (false, (l, d)).

Definition log_recover (l : MemLog) (d : MemDev) : bool * (MemLog * MemDev) :=
  let head := foldl (fun h i => let wp := mem_wp d i in
                        if wp =? i * geom_zs g then h else Z.max h wp)
                (ml_min l * geom_zs g) (seqZ (ml_min l) (ml_max l - ml_min l)) in
  (true, (mkMemLog (ml_min l) (ml_max l) (ml_chan l) (head / geom_bs g), d)).

Definition log_reset (l : MemLog) (d : MemDev) : bool * (MemLog * MemDev) :=
  (true, (mkMemLog (ml_min l) (ml_max l) (ml_chan l) (ml_min l * geom_zs g / geom_bs g),
          foldl (fun d i => (mem_reset (i * geom_zs g) d).2) d
            (seqZ (ml_min l) (ml_max l - ml_min l)))).

Definition mem_log : SZDOnceLog MemDev MemLog := {|
  szd_new min max chan := mkMemLog min max chan (min * geom_zs g / geom_bs g);
  szd_RecoverPointers := log_recover;
  szd_AsyncAppend := log_append;
  szd_Sync l d := (true, (l, d));
  szd_Read lba size l d := (true, range (mem_disk d) (lba * geom_bs g) size);
  szd_ResetAll := log_reset;
  szd_GetWriteHead := ml_head;
  szd_GetWriteTail l := ml_min l * geom_zs g / geom_bs g
|}.

Definition mem_backend : ZonedBlockDeviceBackend MemDev MemLog := {|
  block_sz_ := geom_bs g;
  zone_sz_ := geom_zs g;
  nr_zones_ := geom_nz g;
  loop_bound := geom_bound g;
  be_Open readonly exclusive d := (inr (0, 0), d);
  be_ListZones := mem_list_zones;
  be_Reset := mem_reset;
  be_Finish := mem_finish;
  be_Close start d := (inr tt, d);
  be_Read := mem_read;
  be_Write := mem_write;
  be_Append data l d :=
    let '(b, ld) := log_append data l d in
    if (b : bool) then (zlen data, "", ld) else (-1, "", ld);
  be_AppendSync l d := (0, (l, d));
  be_InvalidateCache pos size d := (0, d);
  be_GetFilename := "/dev/nvme0n1"
|}.

Lemma mem_backend_spec :
  0 < geom_bs g < 2 ^ 32 -> 0 < geom_zs g -> geom_zs g mod geom_bs g = 0 -> 0 < geom_mw g ->
  BackendSpec MemDev MemLog (be := mem_backend).
Proof.
  intros Hb Hz Hzb Hm. refine {| disk := mem_disk : MemDev -> Z -> byte |}; simpl.
  - intros data pos d r err d' E Hr. unfold mem_write in E.
    destruct (_ && _); [|simplify_eq; lia]. simplify_eq. split_and!; [lia|lia|done].
  - intros data pos d r err d' E Hr a Ha. unfold mem_write in E.
    destruct (_ && _); simplify_eq; [|done]. pose proof (zlen_nonneg data). lia.
  - intros size pos direct d r errno data d' E. unfold mem_read in E.
    destruct (_ || _); simplify_eq; [split; [done|lia]|]. split; [done|]. intros; split; [lia|done].
  - intros start d off mc d' E _. unfold mem_reset in E. simplify_eq. split; [by split; [lia|]|].
    intros a Ha. unfold mem_disk. simpl. unfold store. rewrite zlen_zeros by lia.
    by rewrite decide_False.
  - done.
  - done.
  - done.
  - done.
  - intros start d r d' E. unfold mem_finish in E. by simplify_eq.
  - intros start d r d' E. by simplify_eq.
  - lia.
  - lia.
  - lia.
Defined.

Lemma mem_reliable :
  0 < geom_mw g -> geom_nz g * geom_zs g < 2 ^ 64 -> ReliableReads MemDev MemLog (be := mem_backend).
Proof.
  intros Hm Hs. split; [|done]. simpl. intros size pos direct d H0 H1 H2. unfold mem_read.
  destruct (Z.ltb_spec pos 0); [lia|]. destruct (Z.leb_spec (geom_nz g * geom_zs g) pos); [lia|].
  simpl. do 4 eexists. split; [done|]. lia.
Qed.
Definition mem_accepts (d : MemDev) (pos room : Z) : Prop :=
  0 < room -> pos = mem_wp d (pos / geom_zs g) /\ pos + room <= (pos / geom_zs g + 1) * geom_zs g.

Lemma mem_reliable_writes :
  0 < geom_zs g -> 0 < geom_mw g -> ReliableWrites MemDev MemLog (be := mem_backend).
Proof.
  intros Hz Hm. refine {| accepts := mem_accepts : MemDev -> Z -> Z -> Prop |}; simpl.
  - intros d pos room H ?. lia.
  - intros data pos room d r err d' Ha Hlen E. destruct (Ha ltac:(lia)) as [Hwp Hend].
    unfold mem_write in E. rewrite <- Hwp, Z.eqb_refl in E.
    destruct (Z.ltb_spec 0 (geom_mw g)); [|lia].
    destruct (Z.leb_spec (pos + zlen data) ((pos / geom_zs g + 1) * geom_zs g)); [|lia].
    cbn [andb] in E. injection E as <- <- <-. split; [lia|]. intros Hroom.
    set (k := Z.min (geom_mw g) (zlen data)) in *.
    assert ((pos + k) / geom_zs g = pos / geom_zs g) as Hq.
    { symmetry. apply (Z.div_unique_pos _ _ _ (pos + k - pos / geom_zs g * geom_zs g)); [|lia].
      pose proof (Z.mod_pos_bound pos (geom_zs g) Hz). pose proof (Z.div_mod pos (geom_zs g)). lia. }
    rewrite Hq. split; [|lia]. unfold mem_wp, mem_store. cbn. rewrite lookup_insert_eq. cbn.
    rewrite zlen_ztake; lia.
  - intros data p pos room d r err d' Ha Hne E Hroom. destruct (Ha Hroom) as [Hwp Hend].
    unfold mem_write in E. destruct (_ && _); injection E as <- <- <-; [|done].
    split; [|done]. unfold mem_wp, mem_store in *. cbn. by rewrite lookup_insert_ne.
  - intros size p direct pos room d r errno data d' Ha E. unfold mem_read in E.
    destruct (_ || _); by injection E as <- <- <- <-.
Defined.
End mem.

(** A small device: 8 zones of 64 bytes, blocks of 8 bytes, at most 16 bytes
    per call. *)
Definition g0 : geom := mkGeom 8 64 8 16 64.
Definition be0 : ZonedBlockDeviceBackend MemDev MemLog := mem_backend g0.
Definition szd0 : SZDOnceLog MemDev MemLog := mem_log g0.
Definition spec0 : BackendSpec MemDev MemLog (be := be0).
Proof. by apply mem_backend_spec; simpl; lia || reflexivity. Defined.
Definition rel0 : ReliableReads MemDev MemLog (be := be0).
Proof. apply mem_reliable; simpl; lia. Defined.

Definition wr0 : ReliableWrites MemDev MemLog (be := be0).
Proof. apply mem_reliable_writes; simpl; lia. Defined.

(** A device with blocks of 4 KiB: 24 zones of four blocks. *)
Definition g1 : geom := mkGeom 4096 16384 24 16384 64.
Definition be1 : ZonedBlockDeviceBackend MemDev MemLog := mem_backend g1.
Definition szd1 : SZDOnceLog MemDev MemLog := mem_log g1.
Definition spec1 : BackendSpec MemDev MemLog (be := be1).
Proof. by apply mem_backend_spec; simpl; lia || reflexivity. Defined.
