(* ===== verification/Posix.v ===== *)
(** * The operating system below the backends

    The system calls the two backends make (zonefs_zenfs.cc, zbdlib_zenfs.cc), as
    a type class over the state [W] of the system, and what the theorems rely on
    as the named laws of [PosixSpec]: which file a descriptor stands for, and what
    the files hold. *)

From stdpp Require Import pretty.
From S2P Require Import Prelude Status Device.

Definition O_RDONLY : Z := 0.
Definition O_WRONLY : Z := 1.
Definition O_EXCL : Z := 0x80.
Definition O_DIRECT : Z := 0x4000.
Definition EINVAL : Z := 22.

(** [S_IRUSR | S_IRGRP | S_IROTH] and [S_IWUSR | S_IWGRP | S_IWOTH] *)
Definition S_IRALL : Z := 0x124.
Definition S_IWALL : Z := 0x92.

(** Conversion to [int]. *)
Definition to_int (x : Z) : Z := let y := u32 x in if y <? 2 ^ 31 then y else y - 2 ^ 32.

Lemma to_int_small x : - 2 ^ 31 <= x < 2 ^ 31 -> to_int x = x.
Proof.
  intros H. unfold to_int, u32, wrap. destruct (decide (0 <= x)) as [Hx|Hx].
  - rewrite Z.mod_small by lia. destruct (Z.ltb_spec x (2 ^ 31)); lia.
  - rewrite (Zmod_eq_full x) by lia.
    assert (x / 2 ^ 32 = -1) as ->.
    { symmetry. apply Z.div_unique with (r := x + 2 ^ 32); lia. }
    destruct (Z.ltb_spec (x - -1 * 2 ^ 32) (2 ^ 31)); lia.
Qed.

(** [std::to_string] of an unsigned number. *)
Definition to_string (n : Z) : string := pretty n.

(** The fields of [struct stat] the code reads. *)
Record FileStat := mkStat { st_size : Z; st_blocks : Z; st_blksize : Z; st_mode : Z }.

(** A failed call leaves its reason in [os_errno]. *)
Class Posix (W : Type) := {
  os_errno : W -> Z;
  os_strerror : Z -> string;
  (** name, flags; the descriptor or -1 *)
  os_open : string -> Z -> W -> Z * W;
  os_close : Z -> W -> W;
  (** descriptor, count, offset *)
  os_pread : Z -> Z -> Z -> W -> Z * bytes * W;
  (** descriptor, data, offset *)
  os_pwrite : Z -> bytes -> Z -> W -> Z * W;
  os_truncate : string -> Z -> W -> Z * W;
  os_stat : string -> W -> option FileStat * W;
  os_fstat : Z -> W -> option FileStat * W;
  (** [flock(fd, LOCK_EX | LOCK_NB)] *)
  os_flock : Z -> W -> Z * W;
  (** [posix_fadvise(fd, offset, len, POSIX_FADV_DONTNEED)] *)
  os_fadvise : Z -> Z -> Z -> W -> Z * W;
  (** [setmntent("/proc/mounts", "r")]: a handle and the entries, source and directory,
      that [getmntent] returns one after the other *)
  os_setmntent : W -> option (Z * list (string * string)) * W;
  os_endmntent : Z -> W -> W;
  (** the text of a file of sysfs, if it can be opened *)
  os_sysfs : string -> W -> option string
}.

(** [ErrorToString(errno)] *)
Definition ErrorToString `{Posix W} (w : W) : string := os_strerror (os_errno w).

(** [is >> val] on an [unsigned int]: leading blanks, an optional sign, digits; 0 if
    there are none, the largest value if there are too many. *)
Definition is_blank (c : Ascii.ascii) : bool :=
  let n := Z.of_N (Ascii.N_of_ascii c) in (n =? 32) || ((9 <=? n) && (n <=? 13)).

Fixpoint skip_blanks (s : string) : string :=
  match s with
  | String c s' => if is_blank c then skip_blanks s' else s
  | EmptyString => s
  end.

Fixpoint digits (s : string) (acc : Z) : Z :=
  match s with
  | String c s' =>
      let n := Z.of_N (Ascii.N_of_ascii c) - 48 in
      if (0 <=? n) && (n <=? 9) then digits s' (10 * acc + n) else acc
  | EmptyString => acc
  end.

Definition extract_unsigned (s : string) : Z :=
  let value (neg : bool) (t : string) :=
    let v := digits t 0 in if 2 ^ 32 <=? v then 2 ^ 32 - 1 else if neg then u32 (- v) else v in
  match skip_blanks s with
  | String c t =>
      let n := Z.of_N (Ascii.N_of_ascii c) in
      if n =? 45 then value true t else if n =? 43 then value false t else value false (String c t)
  | EmptyString => 0
  end.

(** ** What the theorems rely on *)

Class PosixSpec (W : Type) `{os : Posix W} := {
  (** the file an open descriptor stands for; what a file holds *)
  fd_file : W -> Z -> option string;
  content : W -> string -> Z -> byte;
  (** A new descriptor is one that was not in use. *)
  open_ok : forall name flags w fd w', os_open name flags w = (fd, w') ->
    (forall f a, content w' f a = content w f a) /\
    (fd = -1 /\ (forall g, fd_file w' g = fd_file w g) \/
     0 <= fd /\ fd_file w fd = None /\ fd_file w' fd = Some name /\
     forall g, g <> fd -> fd_file w' g = fd_file w g);
  setmntent_ok : forall w r w', os_setmntent w = (r, w') ->
    (forall f a, content w' f a = content w f a) /\
    match r with
    | None => forall g, fd_file w' g = fd_file w g
    | Some (fd, _) => fd_file w fd = None /\ forall g, g <> fd -> fd_file w' g = fd_file w g
    end;
  close_keeps : forall fd w,
    (forall f a, content (os_close fd w) f a = content w f a) /\
    forall g, g <> fd -> fd_file (os_close fd w) g = fd_file w g;
  endmntent_keeps : forall fd w,
    (forall f a, content (os_endmntent fd w) f a = content w f a) /\
    forall g, g <> fd -> fd_file (os_endmntent fd w) g = fd_file w g;
  (** A read returns at most what was asked for, and what the file holds. *)
  pread_ok : forall fd count offset w r data w', os_pread fd count offset w = (r, data, w') ->
    (forall f a, content w' f a = content w f a) /\ (forall g, fd_file w' g = fd_file w g) /\
    -1 <= r <= Z.max 0 count /\
    forall f, fd_file w fd = Some f -> 0 < r -> data = range (content w f) offset r;
  (** A write stores a non-empty prefix of the data at the offset, and if it fails it
      touches at most the range it was asked to write. *)
  pwrite_ok : forall fd data offset w r w', os_pwrite fd data offset w = (r, w') ->
    (forall g, fd_file w' g = fd_file w g) /\
    -1 <= r <= zlen data /\ (0 < zlen data -> r <> 0) /\
    (forall f, fd_file w fd <> Some f -> forall a, content w' f a = content w f a) /\
    forall f, fd_file w fd = Some f ->
      (0 <= r -> forall a, content w' f a = store (content w f) offset (ztake r data) a) /\
      forall a, ~ (offset <= a < offset + zlen data) -> content w' f a = content w f a;
  truncate_ok : forall name len w r w', os_truncate name len w = (r, w') ->
    (forall g, fd_file w' g = fd_file w g) /\
    forall f, f <> name -> forall a, content w' f a = content w f a;
  stat_keeps : forall name w r w', os_stat name w = (r, w') ->
    (forall f a, content w' f a = content w f a) /\ (forall g, fd_file w' g = fd_file w g);
  fstat_keeps : forall fd w r w', os_fstat fd w = (r, w') ->
    (forall f a, content w' f a = content w f a) /\ (forall g, fd_file w' g = fd_file w g);
  flock_keeps : forall fd w r w', os_flock fd w = (r, w') ->
    (forall f a, content w' f a = content w f a) /\ (forall g, fd_file w' g = fd_file w g);
  fadvise_keeps : forall fd offset len w r w', os_fadvise fd offset len w = (r, w') ->
    (forall f a, content w' f a = content w f a) /\ (forall g, fd_file w' g = fd_file w g)
}.

(** A mounted zonefs: [fs_zones] files of the size of a zone.  Truncating a file to
    the zone size finishes the zone, which keeps its data. *)
Class ZoneFsMount (W : Type) `{spec : PosixSpec W} := {
  fs_mountpoint : string;
  fs_zone_sz : Z;
  fs_block_sz : Z;
  fs_zones : Z;
  zonefs_geometry : 0 < fs_zone_sz < 2 ^ 31 /\ 0 < fs_block_sz < 2 ^ 32 /\
    fs_zone_sz mod fs_block_sz = 0;
  fstat_geometry : forall w fd st w', os_fstat fd w = (Some st, w') ->
    fd_file w fd = Some (fs_mountpoint +:+ "/seq/0") ->
    st_blocks st * 512 = fs_zone_sz /\ st_blksize st = fs_block_sz;
  stat_zones : forall w st w', os_stat (fs_mountpoint +:+ "/seq") w = (Some st, w') ->
    st_size st = fs_zones;
  finish_keeps : forall name w r w', os_truncate name fs_zone_sz w = (r, w') ->
    forall f a, content w' f a = content w f a
}.
