(* ===== verification/MemOs.v ===== *)
(** * An in-memory operating system

    A concrete instance of the interfaces of Posix.v, with a mounted zonefs: it
    shows that the laws can hold, and the examples of the backends run on it.  A
    file of the zonefs takes writes at its end only, at most [og_mw] bytes a call. *)

From S2P Require Import Prelude Status Device MemDevice Posix.

Record os_geom := mkOsGeom { og_bs : Z; og_blocks : Z; og_nz : Z; og_mw : Z }.

(** The open descriptors, and for each file its size and the stores so far. *)
Record MemOs := mkMemOs {
  mo_fds : list (option string);
  mo_files : gmap string (Z * list (Z * bytes));
  mo_errno : Z
}.

Definition mo_fresh : MemOs := mkMemOs [] ∅ 0.

Section mem_os.
Context (g : os_geom).

Definition og_zs : Z := og_blocks g * 512.

Definition mo_file (w : MemOs) (f : string) : Z * list (Z * bytes) := default (0, []) (mo_files w !! f).
Definition mo_content (w : MemOs) (f : string) : Z -> byte := mem_disk_of (mo_file w f).2.
Definition mo_fd (w : MemOs) (fd : Z) : option string :=
  if fd <? 0 then None else mjoin (mo_fds w !! Z.to_nat fd).
Definition mo_fail (w : MemOs) : MemOs := mkMemOs (mo_fds w) (mo_files w) EINVAL.

Definition mo_open (name : string) (w : MemOs) : Z * MemOs :=
  (zlen (mo_fds w), mkMemOs (mo_fds w ++ [Some name]) (mo_files w) (mo_errno w)).
Definition mo_close (fd : Z) (w : MemOs) : MemOs :=
  if fd <? 0 then w else mkMemOs (<[Z.to_nat fd := None]> (mo_fds w)) (mo_files w) (mo_errno w).

Definition mo_pread (fd count offset : Z) (w : MemOs) : Z * bytes * MemOs :=
  match mo_fd w fd with
  | None => (-1, [], mo_fail w)
  | Some f =>
      let n := Z.max 0 (Z.min (Z.min count (og_mw g)) ((mo_file w f).1 - offset)) in
      (n, range (mo_content w f) offset n, w)
  end.
Definition mo_pwrite (fd : Z) (data : bytes) (offset : Z) (w : MemOs) : Z * MemOs :=
  match mo_fd w fd with
  | None => (-1, mo_fail w)
  | Some f =>
      let '(size, stores) := mo_file w f in
      if (0 <? og_mw g) && (offset =? size) && (offset + zlen data <=? og_zs)
      then let n := Z.min (zlen data) (og_mw g) in
           (n, mkMemOs (mo_fds w) (<[f := (size + n, (offset, ztake n data) :: stores)]> (mo_files w))
                 (mo_errno w))
      else (-1, mo_fail w)
  end.
Definition mo_truncate (name : string) (len : Z) (w : MemOs) : Z * MemOs :=
  if len =? og_zs then
    (0, mkMemOs (mo_fds w) (<[name := (len, (mo_file w name).2)]> (mo_files w)) (mo_errno w))
  else if len =? 0 then (0, mkMemOs (mo_fds w) (<[name := (0, [])]> (mo_files w)) (mo_errno w))
  else (-1, mo_fail w).

Definition mo_mountpoint : string := "/mnt".
Definition mo_stat (name : string) (w : MemOs) : FileStat :=
  if bool_decide (name = mo_mountpoint +:+ "/seq") then mkStat (og_nz g) 0 (og_bs g) 0x16d
  else mkStat (mo_file w name).1 (og_blocks g) (og_bs g) 0x1a0.

#[local] Instance mem_os : Posix MemOs := {|
  os_errno := mo_errno;
  os_strerror e := if e =? 0 then "Success" else "Invalid argument";
  os_open name flags := mo_open name;
  os_close := mo_close;
  os_pread := mo_pread;
  os_pwrite := mo_pwrite;
  os_truncate := mo_truncate;
  os_stat name w := (Some (mo_stat name w), w);
  os_fstat fd w := match mo_fd w fd with Some f => (Some (mo_stat f w), w) | None => (None, mo_fail w) end;
  os_flock fd w := (0, w);
  os_fadvise fd offset len w := (0, w);
  os_setmntent w := let '(fd, w') := mo_open "/proc/mounts" w in
    (Some (fd, [("/dev/nvme0n1", mo_mountpoint)]), w');
  os_endmntent := mo_close;
  os_sysfs name w :=
    Some (if bool_decide (name = "/sys/block/nvme0n1/queue/scheduler") then "none [mq-deadline]" else "12")
|}.

Lemma mo_open_fd name w fd w' : mo_open name w = (fd, w') ->
  0 <= fd /\ mo_fd w fd = None /\ mo_fd w' fd = Some name /\ forall h, h <> fd -> mo_fd w' h = mo_fd w h.
Proof.
  intros [= <- <-]. unfold mo_fd. simpl. unfold zlen. destruct (Z.ltb_spec (Z.of_nat (length (mo_fds w))) 0); [lia|].
  rewrite Nat2Z.id. split_and!; [lia| | |].
  - by rewrite lookup_ge_None_2.
  - by rewrite lookup_app_r, Nat.sub_diag.
  - intros h Hh. destruct (Z.ltb_spec h 0); [done|].
    destruct (decide (h < Z.of_nat (length (mo_fds w)))).
    + by rewrite lookup_app_l by lia.
    + rewrite !lookup_ge_None_2; [done|lia|rewrite length_app; simpl; lia].
Qed.

Lemma mo_close_fd fd w h : h <> fd -> mo_fd (mo_close fd w) h = mo_fd w h.
Proof.
  intros Hne. unfold mo_close, mo_fd. destruct (Z.ltb_spec fd 0); [done|]. simpl.
  destruct (Z.ltb_spec h 0); [done|]. by rewrite list_lookup_insert_ne by lia.
Qed.

Lemma mo_close_content fd w f a : mo_content (mo_close fd w) f a = mo_content w f a.
Proof. unfold mo_close. by destruct (fd <? 0). Qed.

Lemma mo_content_insert fds w f z e h :
  mo_content (mkMemOs fds (<[f := z]> (mo_files w)) e) h =
  if decide (h = f) then mem_disk_of z.2 else mo_content w h.
Proof.
  unfold mo_content, mo_file. simpl. destruct (decide (h = f)) as [->|Hne].
  - by rewrite lookup_insert_eq.
  - by rewrite lookup_insert_ne.
Qed.

Lemma mo_pwrite_ok fd data offset w r w' : mo_pwrite fd data offset w = (r, w') ->
  (forall h, mo_fd w' h = mo_fd w h) /\
  -1 <= r <= zlen data /\ (0 < zlen data -> r <> 0) /\
  (forall f, mo_fd w fd <> Some f -> forall a, mo_content w' f a = mo_content w f a) /\
  forall f, mo_fd w fd = Some f ->
    (0 <= r -> forall a, mo_content w' f a = store (mo_content w f) offset (ztake r data) a) /\
    forall a, ~ (offset <= a < offset + zlen data) -> mo_content w' f a = mo_content w f a.
Proof.
  pose proof (zlen_nonneg data). unfold mo_pwrite. destruct (mo_fd w fd) as [f|] eqn:Ef.
  2: { intros [= <- <-]. split_and!; try done; lia. }
  destruct (mo_file w f) as [size stores] eqn:Efile.
  destruct (Z.ltb_spec 0 (og_mw g)); simpl.
  2: { intros [= <- <-]. split_and!; try done; lia. }
  destruct (_ && _); intros [= <- <-].
  2: { split_and!; try done; lia. }
  split; [done|]. split; [lia|]. split; [lia|]. split.
  - intros h Hh a. rewrite mo_content_insert. rewrite decide_False; [done|congruence].
  - intros h [= <-]. rewrite mo_content_insert, decide_True by done. simpl.
    assert (mem_disk_of stores = mo_content w f) as -> by (unfold mo_content; by rewrite Efile).
    split; [done|]. intros a Ha. apply store_outside. rewrite zlen_ztake by lia. lia.
Qed.

#[local] Instance mem_os_spec : PosixSpec MemOs.
Proof.
  refine {| fd_file := mo_fd; content := mo_content |}; simpl.
  - intros name flags w fd w' E. split; [by injection E as <- <-|]. right. by apply mo_open_fd.
  - intros w r w' [= <- <-].
    by destruct (mo_open_fd "/proc/mounts" w _ _ eq_refl) as (_ & Hnew & _ & Hold).
  - intros fd w. split; [apply mo_close_content|]. intros h Hh. by apply mo_close_fd.
  - intros fd w. split; [apply mo_close_content|]. intros h Hh. by apply mo_close_fd.
  - intros fd count offset w r data w' E. unfold mo_pread in E.
    destruct (mo_fd w fd) as [f|] eqn:Ef; injection E as <- <- <-.
    + split_and!; [done|done|lia|lia|]. by intros ? [= <-] _.
    + split_and!; [done|done|lia|lia|done].
  - apply mo_pwrite_ok.
  - intros name len w r w' E. unfold mo_truncate in E. destruct (len =? og_zs).
    { injection E as <- <-. split; [done|]. intros f Hf a. by rewrite mo_content_insert, decide_False. }
    destruct (len =? 0).
    { injection E as <- <-. split; [done|]. intros f Hf a. by rewrite mo_content_insert, decide_False. }
    by injection E as <- <-.
  - by intros name w r w' [= <- <-].
  - intros fd w r w' E. destruct (mo_fd w fd); by injection E as <- <-.
  - by intros fd w r w' [= <- <-].
  - by intros fd offset len w r w' [= <- <-].
Defined.

Lemma mem_mount :
  0 < og_zs < 2 ^ 31 -> 0 < og_bs g < 2 ^ 32 -> og_zs mod og_bs g = 0 -> ZoneFsMount MemOs.
Proof.
  intros Hz Hb Hzb.
  refine {| fs_mountpoint := mo_mountpoint; fs_zone_sz := og_zs; fs_block_sz := og_bs g; fs_zones := og_nz g |}; simpl.
  - split_and!; first [lia|done].
  - intros w fd st w' E Hf. rewrite Hf in E. injection E as <- <-. by split.
  - by intros w st w' [= <- <-].
  - intros name w r w' E f a. unfold mo_truncate in E. rewrite Z.eqb_refl in E. injection E as <- <-.
    rewrite mo_content_insert. by destruct (decide (f = name)) as [->|].
Defined.
End mem_os.

(** Zones of two blocks of 512 bytes, four zones, calls of at most 300 bytes. *)
Definition og0 : os_geom := mkOsGeom 512 2 4 300.
#[export] Instance os0 : Posix MemOs := mem_os og0.
#[export] Instance os_spec0 : PosixSpec MemOs := mem_os_spec og0.
#[export] Instance mount0 : ZoneFsMount MemOs.
Proof. apply (mem_mount og0); vm_compute; by (try split). Defined.
