(* ===== verification/ZoneFs.v ===== *)
(** * The zonefs backend

    [ZoneFsBackend] (zonefs_zenfs.cc, zonefs_zenfs.h): the device as a mounted
    zonefs, one file per zone, with three caches of open files.  A descriptor is
    closed when the last reference to its [ZoneFsFile] goes: when a cache drops it,
    or, if the running call still holds it, when that call returns. *)

From stdpp Require Import pretty.
From S2P Require Import Prelude Status Device MemDevice Posix.

Definition ZENFS_ZONEFS_DEFAULT_MAX_LIMIT : Z := 14.
Definition ZENFS_ZONEFS_DEFAULT_MAX_RD_LIMIT : Z := 100.

(** [ZENFS_ZONEFS_ZONE_OFFLINE] *)
Definition ZONE_OFFLINE (mode : Z) : bool := Z.land mode (Z.lor S_IRALL S_IWALL) =? 0.

(** ** The cache of open files *)

(** [list_]: zone number and descriptor, the most recently used first; [map_] is the
    index of [list_] by zone number. *)
Record ZoneFsFileCache := mkFileCache { list_ : list (Z * Z); max_ : Z; flags_ : Z }.

Definition ZoneFsFileCache_new (flags : Z) : ZoneFsFileCache :=
  mkFileCache []
    (if negb (Z.land flags O_RDONLY =? 0) then ZENFS_ZONEFS_DEFAULT_MAX_RD_LIMIT
     else ZENFS_ZONEFS_DEFAULT_MAX_LIMIT) flags.

(** [map_.find(zone)] *)
Fixpoint cache_find (zone : Z) (l : list (Z * Z)) : option Z :=
  match l with
  | [] => None
  | (z, fd) :: l' => if z =? zone then Some fd else cache_find zone l'
  end.
Definition cache_erase (zone : Z) (l : list (Z * Z)) : list (Z * Z) := filter (fun p => p.1 <> zone) l.

(** The cache and the files it no longer refers to. *)
Definition ZoneFsFileCache_Put (zone : Z) (c : ZoneFsFileCache) : ZoneFsFileCache * list (Z * Z) :=
  match cache_find zone (list_ c) with
  | Some fd => (mkFileCache (cache_erase zone (list_ c)) (max_ c) (flags_ c), [(zone, fd)])
  | None => (c, [])
  end.

Definition ZoneFsFileCache_Prune (limit : Z) (c : ZoneFsFileCache) : ZoneFsFileCache * list (Z * Z) :=
  (mkFileCache (ztake limit (list_ c)) (max_ c) (flags_ c), rev (zdrop limit (list_ c))).

Definition ZoneFsFileCache_Resize (new_size : Z) (c : ZoneFsFileCache) : ZoneFsFileCache * list (Z * Z) :=
  let '(c, dropped) := if new_size <? max_ c then ZoneFsFileCache_Prune new_size c else (c, []) in
  (mkFileCache (list_ c) new_size (flags_ c), dropped).

(** ** The backend *)

Record ZoneFsBackend (W : Type) := mkZoneFs {
  mountpoint_ : string;
  zfs_block_sz_ : Z;
  zfs_zone_sz_ : Z;
  zfs_nr_zones_ : Z;
  zone_zero_fd_ : Z;
  readonly_ : bool;
  rd_fds_ : ZoneFsFileCache;
  direct_rd_fds_ : ZoneFsFileCache;
  wr_fds_ : ZoneFsFileCache;
  zfs_os : W
}.
Arguments mkZoneFs {W} _ _ _ _ _ _ _ _ _ _.
Arguments mountpoint_ {W} _.
Arguments zfs_block_sz_ {W} _.
Arguments zfs_zone_sz_ {W} _.
Arguments zfs_nr_zones_ {W} _.
Arguments zone_zero_fd_ {W} _.
Arguments readonly_ {W} _.
Arguments rd_fds_ {W} _.
Arguments direct_rd_fds_ {W} _.
Arguments wr_fds_ {W} _.
Arguments zfs_os {W} _.

Definition ZoneFsBackend_new {W} (mountpoint : string) (w : W) : ZoneFsBackend W :=
  mkZoneFs mountpoint 0 0 0 (-1) false (ZoneFsFileCache_new O_RDONLY)
    (ZoneFsFileCache_new (Z.lor O_RDONLY O_DIRECT)) (ZoneFsFileCache_new (Z.lor O_WRONLY O_DIRECT)) w.

Inductive fd_cache := RdFds | DirectRdFds | WrFds.

(** What [rfind("/")] leaves after it. *)
Fixpoint after_last_slash (s : string) : option string :=
  match s with
  | EmptyString => None
  | String c s' =>
      match after_last_slash s' with
      | Some r => Some r
      | None => if Z.of_N (Ascii.N_of_ascii c) =? 47 then Some s' else None
      end
  end.

Section zonefs.
Context {W : Type} `{os : Posix W}.
Abbreviation FM := (M (ZoneFsBackend W)).

Definition set_os (w : W) (s : ZoneFsBackend W) : ZoneFsBackend W :=
  mkZoneFs (mountpoint_ s) (zfs_block_sz_ s) (zfs_zone_sz_ s) (zfs_nr_zones_ s) (zone_zero_fd_ s)
    (readonly_ s) (rd_fds_ s) (direct_rd_fds_ s) (wr_fds_ s) w.
Definition get_cache (k : fd_cache) (s : ZoneFsBackend W) : ZoneFsFileCache :=
  match k with RdFds => rd_fds_ s | DirectRdFds => direct_rd_fds_ s | WrFds => wr_fds_ s end.
Definition set_cache (k : fd_cache) (c : ZoneFsFileCache) (s : ZoneFsBackend W) : ZoneFsBackend W :=
  mkZoneFs (mountpoint_ s) (zfs_block_sz_ s) (zfs_zone_sz_ s) (zfs_nr_zones_ s) (zone_zero_fd_ s)
    (readonly_ s) (match k with RdFds => c | _ => rd_fds_ s end)
    (match k with DirectRdFds => c | _ => direct_rd_fds_ s end)
    (match k with WrFds => c | _ => wr_fds_ s end) (zfs_os s).
Definition set_geometry (bs zs : Z) (fd : Z) (s : ZoneFsBackend W) : ZoneFsBackend W :=
  mkZoneFs (mountpoint_ s) bs zs (zfs_nr_zones_ s) fd
    (readonly_ s) (rd_fds_ s) (direct_rd_fds_ s) (wr_fds_ s) (zfs_os s).
Definition set_nr_zones (n : Z) (s : ZoneFsBackend W) : ZoneFsBackend W :=
  mkZoneFs (mountpoint_ s) (zfs_block_sz_ s) (zfs_zone_sz_ s) n (zone_zero_fd_ s)
    (readonly_ s) (rd_fds_ s) (direct_rd_fds_ s) (wr_fds_ s) (zfs_os s).
Definition set_readonly (b : bool) (s : ZoneFsBackend W) : ZoneFsBackend W :=
  mkZoneFs (mountpoint_ s) (zfs_block_sz_ s) (zfs_zone_sz_ s) (zfs_nr_zones_ s) (zone_zero_fd_ s)
    b (rd_fds_ s) (direct_rd_fds_ s) (wr_fds_ s) (zfs_os s).

(** A system call. *)
Definition sys {A} (f : W -> A * W) : FM A := zoom zfs_os set_os (call f).
Definition sys_ (f : W -> W) : FM unit := modify (fun s => set_os (f (zfs_os s)) s).

(** [~ZoneFsFile()] *)
Definition close_files (l : list (Z * Z)) : FM unit := forM l (fun p => sys_ (os_close p.2)).

(** Changes a cache; the files it no longer refers to are handed on. *)
Definition with_cache (k : fd_cache) (f : ZoneFsFileCache -> ZoneFsFileCache * list (Z * Z)) :
  FM (list (Z * Z)) := fun s =>
  let '(c, dropped) := f (get_cache k s) in Ok dropped (set_cache k c s).

(** [ZoneFsFileCache::Get] *)
Definition ZoneFsFileCache_Get (k : fd_cache) (zone : Z) (filename : string) : FM (option Z) :=
  c <- gets (get_cache k) ;;
  match cache_find zone (list_ c) with
  | None =>
      fd <- sys (os_open filename (flags_ c)) ;;
      if fd =? -1 then ret None
      else
        dropped <- with_cache k (ZoneFsFileCache_Prune (max_ c -32 1)) ;;
        close_files dropped ;;
        _ <- with_cache k (fun c => (mkFileCache ((zone, fd) :: list_ c) (max_ c) (flags_ c), [])) ;;
        ret (Some fd)
  | Some fd =>
      _ <- with_cache k (fun c =>
        (mkFileCache ((zone, fd) :: cache_erase zone (list_ c)) (max_ c) (flags_ c), [])) ;;
      ret (Some fd)
  end.

(** [start / zone_sz_], the division being undefined before [Open]. *)
Definition zone_of (start : Z) : FM Z :=
  zs <- gets zfs_zone_sz_ ;;
  if zs =? 0 then stuckM Undefined else ret (start / zs).

Definition LBAToZoneFile (start : Z) : FM string :=
  i <- zone_of start ;;
  mp <- gets mountpoint_ ;;
  ret (mp +:+ "/seq/" +:+ to_string i).

Definition LBAToZoneOffset (pos : Z) : FM Z :=
  i <- zone_of pos ;;
  zs <- gets zfs_zone_sz_ ;;
  ret (pos - i * zs).

(** Not closed when a device is found. *)
Fixpoint find_backing (mountpoint : string) (l : list (string * string)) : option string :=
  match l with
  | [] => None
  | (fsname, dir) :: l' =>
      if bool_decide (dir = mountpoint) then
        match after_last_slash fsname with
        | Some dev => Some dev
        | None => find_backing mountpoint l'
        end
      else find_backing mountpoint l'
  end.

Definition GetBackingDevice (mountpoint : string) : FM string :=
  f <- sys os_setmntent ;;
  match f with
  | None => ret ""
  | Some (file, entries) =>
      match find_backing mountpoint entries with
      | Some dev => ret dev
      | None => sys_ (os_endmntent file) ;; ret ""
      end
  end.

Definition GetSysFsValue (dev_name field : string) : FM Z :=
  gets (fun s =>
    match os_sysfs ("/sys/fs/zonefs/" +:+ dev_name +:+ "/" +:+ field) (zfs_os s) with
    | Some text => extract_unsigned text
    | None => ZENFS_ZONEFS_DEFAULT_MAX_LIMIT
    end).

(** [InvalidArgument(what + ErrorToString(errno))] *)
Definition fail_errno {A} (st : string -> Status) (what : string) : FM A :=
  e <- gets (fun s => ErrorToString (zfs_os s)) ;; fail (st (what +:+ e)).

(** The limits on active and open zones. *)
Definition ZoneFs_limits : FM (Z * Z) :=
  mp <- gets mountpoint_ ;;
  backing_dev <- GetBackingDevice mp ;;
  if bool_decide (backing_dev = "") then
    ret (ZENFS_ZONEFS_DEFAULT_MAX_LIMIT, ZENFS_ZONEFS_DEFAULT_MAX_LIMIT)
  else
    max_active <- GetSysFsValue backing_dev "max_active_seq_files" ;;
    max_open <- GetSysFsValue backing_dev "max_wro_seq_files" ;;
    ret (max_active, max_open).

Definition ZoneFs_Open (readonly exclusive : bool) : FM (Z * Z) :=
  mp <- gets mountpoint_ ;;
  let seqdirname := mp +:+ "/seq" in
  dir <- sys (os_stat seqdirname) ;;
  match dir with
  | None => fail_errno InvalidArgument "Failed to access zonefs sequential zone directory: "
  | Some dir_stat =>
      modify (set_nr_zones (u32 (st_size dir_stat))) ;;
      zone_zero_fd <- sys (os_open (seqdirname +:+ "/0") O_RDONLY) ;;
      if zone_zero_fd <? 0 then
        fail_errno InvalidArgument "Failed to open zonefs sequential zone 0: "
      else
        locked <- sys (os_flock zone_zero_fd) ;;
        if locked =? -1 then
          sys_ (os_close zone_zero_fd) ;;
          fail_errno InvalidArgument "Failed to lock zonefs sequential zone 0: "
        else
          zone <- sys (os_fstat zone_zero_fd) ;;
          match zone with
          | None =>
              sys_ (os_close zone_zero_fd) ;;
              fail_errno InvalidArgument "Failed to access zonefs sequential zone 0: "
          | Some zone_stat =>
              modify (set_geometry (u32 (st_blksize zone_stat)) (u64 (st_blocks zone_stat * 512))
                        zone_zero_fd) ;;
              limits <- ZoneFs_limits ;;
              dropped <- with_cache WrFds (ZoneFsFileCache_Resize limits.1) ;;
              close_files dropped ;;
              modify (set_readonly readonly) ;;
              ret limits
          end
  end.

(** [for (i = 0; i < nr_zones_; i++) stat(...)]; [None] when a file is missing. *)
Fixpoint ListZones_loop (n : nat) (i : Z) (z : list FileStat) : FM (option (list FileStat)) :=
  match n with
  | O => ret (Some z)
  | S n' =>
      mp <- gets mountpoint_ ;;
      st <- sys (os_stat (mp +:+ "/seq/" +:+ to_string i)) ;;
      match st with
      | None => ret None
      | Some st => ListZones_loop n' (i + 1) (z ++ [st])
      end
  end.

(** The accessors [ZoneIsSwr] to [ZoneWp] of entry [idx]. *)
Definition ZoneFs_zone (zs : Z) (idx : nat) (z : FileStat) : zone_rep :=
  mkZoneRep true (ZONE_OFFLINE (st_mode z))
    ((u64 (st_size z) <? zs) && negb (Z.land (st_mode z) S_IWALL =? 0))
    ((0 <? st_size z) && (u64 (st_size z) <? zs))
    false (Z.of_nat idx *64 zs) zs ((Z.of_nat idx *64 zs) +64 st_size z).

Definition ZoneFs_ListZones : FM (option (list zone_rep)) :=
  n <- gets zfs_nr_zones_ ;;
  z <- ListZones_loop (Z.to_nat n) 0 [] ;;
  zs <- gets zfs_zone_sz_ ;;
  ret (imap (ZoneFs_zone zs) <$> z).

Definition GetZoneFile (start flags : Z) : FM (option Z) :=
  i <- zone_of start ;;
  filename <- LBAToZoneFile start ;;
  ZoneFsFileCache_Get
    (if negb (Z.land flags O_WRONLY =? 0) then WrFds
     else if negb (Z.land flags O_DIRECT =? 0) then DirectRdFds else RdFds) i filename.

Definition PutZoneFile (start flags : Z) : FM (list (Z * Z)) :=
  i <- zone_of start ;;
  if negb (Z.land flags O_WRONLY =? 0) then with_cache WrFds (ZoneFsFileCache_Put i) else ret [].

(** [truncate] and what follows when it succeeds. *)
Definition ZoneFs_Reset (start : Z) : FM (bool * Z) :=
  filename <- LBAToZoneFile start ;;
  r <- sys (os_truncate filename 0) ;;
  if negb (r =? 0) then fail_errno IOError "Zone reset failed: "
  else
    dropped <- PutZoneFile start O_WRONLY ;;
    close_files dropped ;;
    st <- sys (os_stat filename) ;;
    match st with
    | None =>
        fail_errno InvalidArgument
          ("Failed to access zonefs sequential zone " +:+ filename +:+ ": ")
    | Some file_stat =>
        zs <- gets zfs_zone_sz_ ;;
        ret (if ZONE_OFFLINE (st_mode file_stat) then (true, 0) else (false, zs))
    end.

Definition ZoneFs_Finish (start : Z) : FM unit :=
  filename <- LBAToZoneFile start ;;
  zs <- gets zfs_zone_sz_ ;;
  r <- sys (os_truncate filename zs) ;;
  if negb (r =? 0) then fail_errno IOError "Zone finish failed: "
  else
    dropped <- PutZoneFile start O_WRONLY ;;
    close_files dropped.

Definition ZoneFs_Close (start : Z) : FM unit :=
  dropped <- PutZoneFile start O_WRONLY ;;
  close_files dropped.

Definition ZoneFs_InvalidateCache (pos size : Z) : FM Z :=
  offset <- LBAToZoneOffset pos ;;
  file <- GetZoneFile pos O_RDONLY ;;
  match file with
  | None => ret (- EINVAL)
  | Some fd => sys (os_fadvise fd offset size)
  end.

(** [while (read_from_zone)]; [read] and what was read. *)
Fixpoint ZoneFs_Read_loop (fuel : nat) (fd read_from_zone offset read : Z) (buf : bytes) :
  FM (Z * bytes) :=
  if read_from_zone =? 0 then ret (read, buf)
  else
    match fuel with
    | O => stuckM OutOfFuel
    | S fuel' =>
        let* (r, data) := sys (fun w => let '(r, data, w') := os_pread fd (u64 read_from_zone) offset w in
                                 ((to_int r, data), w')) in
        if 0 <? r then
          ZoneFs_Read_loop fuel' fd (read_from_zone - r) (offset +64 r) (read + r) (buf ++ data)
        else ret (if r <? 0 then r else read, buf)
    end.

Definition ZoneFs_Read (size pos : Z) (direct : bool) : FM (Z * bytes) :=
  let flags := if direct then Z.lor O_RDONLY O_DIRECT else O_RDONLY in
  offset <- LBAToZoneOffset pos ;;
  zs <- gets zfs_zone_sz_ ;;
  let read_from_zone := to_int (Z.min (u64 size) (zs -64 offset)) in
  file <- GetZoneFile pos flags ;;
  match file with
  | None => ret (-1, [])
  | Some fd => ZoneFs_Read_loop (Z.to_nat read_from_zone) fd read_from_zone offset 0 []
  end.

(** [while (write_to_zone)]; [written] and the files the cache has dropped. *)
Fixpoint ZoneFs_Write_loop (fuel : nat) (fd pos : Z) (data : bytes)
  (write_to_zone offset written : Z) (dropped : list (Z * Z)) : FM (Z * list (Z * Z)) :=
  if write_to_zone =? 0 then ret (written, dropped)
  else
    match fuel with
    | O => stuckM OutOfFuel
    | S fuel' =>
        r <- sys (fun w => let '(r, w') := os_pwrite fd (ztake (u64 write_to_zone) data) offset w in
                    (to_int r, w')) ;;
        if 0 <? r then
          zs <- gets zfs_zone_sz_ ;;
          put <- (if offset +64 r =? zs then PutZoneFile pos O_WRONLY else ret []) ;;
          ZoneFs_Write_loop fuel' fd pos (zdrop r data) (write_to_zone - r) (offset +64 r)
            (written + r) (dropped ++ put)
        else ret (if r <? 0 then r else written, dropped)
    end.

Definition ZoneFs_Write (data : bytes) (pos : Z) : FM Z :=
  offset <- LBAToZoneOffset pos ;;
  zs <- gets zfs_zone_sz_ ;;
  let write_to_zone := to_int (Z.min (zlen data) (zs -64 offset)) in
  ro <- gets readonly_ ;;
  if (ro : bool) then ret (-1)
  else
    file <- GetZoneFile pos (Z.lor O_WRONLY O_DIRECT) ;;
    match file with
    | None => ret (-1)
    | Some fd =>
        let* (written, dropped) :=
          ZoneFs_Write_loop (Z.to_nat write_to_zone) fd pos data write_to_zone offset 0 [] in
        close_files dropped ;;
        ret written
    end.
End zonefs.
