(* ===== verification/ZoneFsProps.v ===== *)
(** * The zonefs backend implements the device

    The invariant of the caches of open files, the behaviour of every operation
    of ZoneFs.v in terms of the contents of the whole device, and the instance of
    [BackendSpec] they add up to. *)

From stdpp Require Import pretty.
From S2P Require Import Prelude Status Device MemDevice Posix MemOs ZoneFs.

(** ** The list of a cache *)

Lemma cache_find_in zone l fd : cache_find zone l = Some fd -> (zone, fd) ∈ l.
Proof.
  induction l as [|[z f] l IH]; simpl; [done|]. destruct (Z.eqb_spec z zone) as [->|Hne].
  - intros [= ->]. left.
  - intros H. right. by apply IH.
Qed.

Lemma cache_find_None zone l : cache_find zone l = None -> zone ∉ l.*1.
Proof.
  induction l as [|[z f] l IH]; simpl; [intros _; apply not_elem_of_nil|].
  destruct (Z.eqb_spec z zone) as [->|Hne]; [done|].
  intros H%IH. apply not_elem_of_cons. by split.
Qed.

Lemma cache_erase_notin zone l : zone ∉ l.*1 -> cache_erase zone l = l.
Proof.
  induction l as [|[z f] l IH]; simpl; [done|]. intros [Hne Hl]%not_elem_of_cons.
  unfold cache_erase. rewrite filter_cons_True by (simpl; done). f_equal. by apply IH.
Qed.

Lemma cache_erase_perm zone l fd :
  NoDup l.*1 -> cache_find zone l = Some fd -> (zone, fd) :: cache_erase zone l ≡ₚ l.
Proof.
  induction l as [|[z f] l IH]; simpl; [done|]. intros [Hz Hl]%NoDup_cons.
  destruct (Z.eqb_spec z zone) as [->|Hne].
  - intros [= ->]. unfold cache_erase. rewrite filter_cons_False by (simpl; naive_solver).
    change (filter _ l) with (cache_erase zone l). by rewrite cache_erase_notin.
  - intros H. unfold cache_erase. rewrite filter_cons_True by (simpl; done).
    change (filter _ l) with (cache_erase zone l). etrans; [apply Permutation_swap|]. by rewrite (IH Hl H).
Qed.

(** A zone has one entry. *)
Definition cache_wf (c : ZoneFsFileCache) : Prop := NoDup (list_ c).*1 /\ 0 <= max_ c < 2 ^ 32.

(** The list stays within a limit that is set. *)
Definition cache_bounded (c : ZoneFsFileCache) : Prop := 0 < max_ c -> zlen (list_ c) <= max_ c.

Lemma cache_new_wf flags : cache_wf (ZoneFsFileCache_new flags).
Proof.
  unfold cache_wf, ZoneFsFileCache_new. cbn [list_ max_]. split; [constructor|].
  destruct (negb _); unfold ZENFS_ZONEFS_DEFAULT_MAX_LIMIT, ZENFS_ZONEFS_DEFAULT_MAX_RD_LIMIT; lia.
Qed.

Lemma Put_wf zone c : cache_wf c ->
  let '(c', dropped) := ZoneFsFileCache_Put zone c in
  cache_wf c' /\ list_ c ≡ₚ dropped ++ list_ c'.
Proof.
  intros (Hnd & Hmax). unfold ZoneFsFileCache_Put.
  destruct (cache_find zone (list_ c)) as [fd|] eqn:Ef; [|done].
  pose proof (cache_erase_perm zone (list_ c) fd Hnd Ef) as Hp. split; [|by symmetry].
  unfold cache_wf. cbn [list_ max_]. split; [|done]. rewrite <- Hp in Hnd.
  by apply NoDup_cons in Hnd as [_ Hnd].
Qed.

Lemma Prune_perm limit c :
  list_ c ≡ₚ (ZoneFsFileCache_Prune limit c).2 ++ list_ (ZoneFsFileCache_Prune limit c).1.
Proof.
  simpl. rewrite <- (ztake_zdrop limit (list_ c)) at 1. rewrite Permutation_app_comm.
  by rewrite <- Permutation_rev.
Qed.

Lemma Prune_wf limit c : cache_wf c -> cache_wf (ZoneFsFileCache_Prune limit c).1.
Proof.
  intros (Hnd & Hmax). split; [|done]. simpl. unfold ztake. rewrite fmap_take.
  rewrite <- (take_drop (Z.to_nat limit) (list_ c).*1) in Hnd. by apply NoDup_app in Hnd as [? _].
Qed.

Lemma Resize_wf n c : 0 <= n < 2 ^ 32 -> cache_wf c ->
  let '(c', dropped) := ZoneFsFileCache_Resize n c in
  cache_wf c' /\ list_ c ≡ₚ dropped ++ list_ c'.
Proof.
  intros Hn Hc. unfold ZoneFsFileCache_Resize. destruct (n <? max_ c).
  - destruct (Prune_wf n c Hc) as [Hnd _]. pose proof (Prune_perm n c) as Hp.
    destruct (ZoneFsFileCache_Prune n c) as [c' dropped]. simpl in *. by split.
  - destruct Hc as [Hnd _]. by split.
Qed.

Lemma Prune_notin zone limit c :
  zone ∉ (list_ c).*1 -> zone ∉ (list_ (ZoneFsFileCache_Prune limit c).1).*1.
Proof.
  intros H Hin. apply H. rewrite <- (ztake_zdrop limit (list_ c)), fmap_app.
  apply elem_of_app. by left.
Qed.

Lemma extract_unsigned_range s : 0 <= extract_unsigned s < 2 ^ 32.
Proof.
  assert (forall t acc, 0 <= acc -> 0 <= digits t acc) as Hd.
  { induction t as [|c t IH]; simpl; intros acc Ha; [done|].
    destruct (Z.leb_spec 0 (Z.of_N (Ascii.N_of_ascii c) - 48)); simpl; [|done].
    destruct (Z.of_N (Ascii.N_of_ascii c) - 48 <=? 9); [apply IH|]; lia. }
  unfold extract_unsigned. destruct (skip_blanks s) as [|c t]; [lia|].
  pose proof (Hd t 0 ltac:(lia)). pose proof (Hd (String c t) 0 ltac:(lia)).
  pose proof (u32_range (- digits t 0)).
  repeat match goal with |- context [if ?b then _ else _] => destruct b eqn:? end; lia.
Qed.

Section zonefs_inv.
Context {W : Type} `{mount : ZoneFsMount W}.
Abbreviation FM := (M (ZoneFsBackend W)).
Implicit Types (s : ZoneFsBackend W) (w : W) (x l : list (Z * Z)).

(** The file of zone [i], and the device the files make up. *)
Definition zone_file (i : Z) : string := fs_mountpoint +:+ "/seq/" +:+ to_string i.
Definition zonefs_disk s (a : Z) : byte :=
  content (zfs_os s) (zone_file (a / fs_zone_sz)) (a mod fs_zone_sz).

Lemma append_inj p q r : p +:+ q = p +:+ r -> q = r.
Proof. induction p as [|c p IH]; simpl; [done|]. intros [= H]. by apply IH. Qed.

Lemma append_assoc p q r : (p +:+ q) +:+ r = p +:+ q +:+ r.
Proof. induction p as [|c p IH]; simpl; [done|]. apply (f_equal (String c) IH). Qed.

Lemma zone_file_inj i j : zone_file i = zone_file j -> i = j.
Proof. unfold zone_file, to_string. intros H%append_inj%append_inj. by apply (inj pretty) in H. Qed.

(** The descriptors of [l] are open on the files of their zones, each entry with one
    of its own. *)
Definition files_ok w l : Prop := NoDup l.*2 /\ Forall (fun p => fd_file w p.2 = Some (zone_file p.1)) l.

Definition all_files s : list (Z * Z) :=
  list_ (rd_fds_ s) ++ list_ (direct_rd_fds_ s) ++ list_ (wr_fds_ s).

(** [x]: files that no cache refers to any more and that are not closed yet. *)
Definition zfs_inv_with x s : Prop :=
  mountpoint_ s = fs_mountpoint /\ (zfs_zone_sz_ s = 0 \/ zfs_zone_sz_ s = fs_zone_sz) /\
  files_ok (zfs_os s) (x ++ all_files s) /\ forall k, cache_wf (get_cache k s).
Abbreviation zfs_inv := (zfs_inv_with []).

(** [s'] differs from [s] in its caches only. *)
Definition same_files s s' : Prop := forall f a, content (zfs_os s') f a = content (zfs_os s) f a.
Definition same_conf s s' : Prop :=
  mountpoint_ s' = mountpoint_ s /\ zfs_zone_sz_ s' = zfs_zone_sz_ s /\ readonly_ s' = readonly_ s.
Definition quiet s s' : Prop := same_conf s s' /\ same_files s s'.

Lemma quiet_refl s : quiet s s.
Proof. done. Qed.
Lemma quiet_trans s1 s2 s3 : quiet s1 s2 -> quiet s2 s3 -> quiet s1 s3.
Proof.
  intros [(H1 & H2 & H3) Hc] [(H1' & H2' & H3') Hc']. split; [split_and!; congruence|].
  intros f a. by rewrite Hc'.
Qed.
Lemma quiet_disk s s' a : quiet s s' -> zonefs_disk s' a = zonefs_disk s a.
Proof. intros [_ H]. apply H. Qed.

Lemma files_ok_perm w l l' : l ≡ₚ l' -> files_ok w l -> files_ok w l'.
Proof. intros Hp [Hnd Hf]. split; [by rewrite <- Hp|by rewrite <- Hp]. Qed.

Lemma files_ok_keep w w' l :
  (forall p, p ∈ l -> fd_file w' p.2 = fd_file w p.2) -> files_ok w l -> files_ok w' l.
Proof.
  intros H [Hnd Hf]. split; [done|]. rewrite Forall_forall in *. intros p Hp. rewrite H; auto.
Qed.

Lemma all_files_split k s : exists r, all_files s ≡ₚ list_ (get_cache k s) ++ r /\
  forall c, all_files (set_cache k c s) ≡ₚ list_ c ++ r.
Proof.
  unfold all_files. destruct k; simpl.
  - by eexists.
  - exists (list_ (rd_fds_ s) ++ list_ (wr_fds_ s)). split; intros; by rewrite Permutation_app_swap_app.
  - exists (list_ (rd_fds_ s) ++ list_ (direct_rd_fds_ s)).
    split; intros; rewrite (assoc_L (++)); by rewrite Permutation_app_comm.
Qed.

(** Moving entries between a cache and the files in flight. *)
Lemma set_cache_inv k c x x' s :
  x ++ list_ (get_cache k s) ≡ₚ x' ++ list_ c -> cache_wf c ->
  zfs_inv_with x s -> zfs_inv_with x' (set_cache k c s).
Proof.
  intros Hp Hc (Hm & Hz & Hf & Hw). split_and!; [done|done| |].
  - destruct (all_files_split k s) as (r & Hr & Hr'). simpl. eapply files_ok_perm; [|exact Hf].
    rewrite Hr, Hr', !(assoc_L (++)). by rewrite Hp.
  - intros k'. specialize (Hw k'). by destruct k, k'.
Qed.

Lemma with_cache_ok k f x x' s c dropped :
  f (get_cache k s) = (c, dropped) -> x ++ list_ (get_cache k s) ≡ₚ x' ++ list_ c -> cache_wf c ->
  zfs_inv_with x s ->
  exists s', with_cache k f s = Ok dropped s' /\ zfs_inv_with x' s' /\ quiet s s' /\
    zfs_os s' = zfs_os s /\ get_cache k s' = c.
Proof.
  intros Hf Hp Hc Hs. unfold with_cache. rewrite Hf. eexists. split; [done|].
  split; [by eapply set_cache_inv|]. split; [done|]. split; [done|]. by destruct k.
Qed.

(** A call that keeps the files and the descriptors of the list. *)
Lemma set_os_inv x x' s w' :
  x' ⊆+ x -> (forall p, p ∈ x' ++ all_files s -> fd_file w' p.2 = fd_file (zfs_os s) p.2) ->
  zfs_inv_with x s -> zfs_inv_with x' (set_os w' s).
Proof.
  intros Hx Hfd (Hm & Hz & Hf & Hw). split_and!; [done|done| |by intros []; apply (Hw RdFds) || apply (Hw DirectRdFds) || apply (Hw WrFds)].
  apply (files_ok_keep (zfs_os s)); [done|]. destruct Hf as [Hnd Hf].
  apply submseteq_Permutation in Hx as [y Hy].
  assert (x ++ all_files s ≡ₚ (x' ++ all_files s) ++ y) as Hp
    by (rewrite Hy, <- !(assoc_L (++)); by rewrite (Permutation_app_comm y)).
  rewrite Hp in Hnd, Hf. rewrite fmap_app in Hnd. apply NoDup_app in Hnd as (Hnd & _).
  by apply Forall_app in Hf as [Hf _].
Qed.

Lemma close_files_ok l x s :
  zfs_inv_with (l ++ x) s ->
  exists s', close_files l s = Ok tt s' /\ zfs_inv_with x s' /\ quiet s s' /\
    forall k, get_cache k s' = get_cache k s.
Proof.
  revert s. induction l as [|p l IH]; intros s Hs; simpl.
  - by exists s.
  - destruct (close_keeps p.2 (zfs_os s)) as [Hc Hfd].
    destruct (IH (set_os (os_close p.2 (zfs_os s)) s)) as (s' & Hrun & Hinv & Hq & Hk).
    + eapply set_os_inv; [apply submseteq_cons, reflexivity| |exact Hs].
      intros q Hq. apply Hfd. destruct Hs as (_ & _ & [Hnd _] & _). simpl in Hnd.
      apply NoDup_cons in Hnd as [Hnp _]. intros Heq. apply Hnp. rewrite <- Heq.
      by apply list_elem_of_fmap_2.
    + exists s'. split; [exact Hrun|]. split; [done|]. split; [eapply quiet_trans; [|exact Hq]; by split|].
      intros k. rewrite Hk. by destruct k.
Qed.

Lemma sys_run {A} (f : W -> A * W) s a w' : f (zfs_os s) = (a, w') -> sys f s = Ok a (set_os w' s).
Proof. intros H. unfold sys, zoom, call. by rewrite H. Qed.

(** A call that changes no file and no descriptor. *)
Lemma set_os_quiet x s w' :
  (forall f a, content w' f a = content (zfs_os s) f a) ->
  (forall g, fd_file w' g = fd_file (zfs_os s) g) ->
  zfs_inv_with x s -> zfs_inv_with x (set_os w' s) /\ quiet s (set_os w' s).
Proof. intros Hc Hfd Hs. split; [eapply set_os_inv; [reflexivity|auto|exact Hs]|done]. Qed.

(** A call that leaves the descriptors in use alone. *)
Lemma set_os_used x s w' :
  (forall g, fd_file (zfs_os s) g <> None -> fd_file w' g = fd_file (zfs_os s) g) ->
  zfs_inv_with x s -> zfs_inv_with x (set_os w' s).
Proof.
  intros Hfd Hs. eapply set_os_inv; [reflexivity| |exact Hs]. intros q Hq. apply Hfd.
  destruct Hs as (_ & _ & [_ Hf] & _). rewrite Forall_forall in Hf. by rewrite (Hf q Hq).
Qed.

(** A new descriptor joins the files in flight. *)
Lemma open_inv x s fd w' zone :
  fd_file (zfs_os s) fd = None -> fd_file w' fd = Some (zone_file zone) ->
  (forall g, g <> fd -> fd_file w' g = fd_file (zfs_os s) g) ->
  zfs_inv_with x s -> zfs_inv_with ((zone, fd) :: x) (set_os w' s).
Proof.
  intros Hnew Hfd Hold Hs.
  assert (zfs_inv_with x (set_os w' s)) as (Hm & Hz & [Hnd Hf] & Hw).
  { apply set_os_used; [|done]. intros g Hg. apply Hold. by intros ->. }
  split_and!; [done|done| |done]. split.
  - simpl. apply NoDup_cons. split; [|done]. intros (q & Hq & Hin)%list_elem_of_fmap_1.
    destruct Hs as (_ & _ & [_ Hf'] & _). rewrite Forall_forall in Hf'.
    specialize (Hf' q Hin). congruence.
  - by constructor.
Qed.

(** A file of the cache comes to the front. *)
Lemma Get_hit k zone fd s :
  zfs_inv s -> cache_find zone (list_ (get_cache k s)) = Some fd ->
  exists s', with_cache k (fun c => (mkFileCache ((zone, fd) :: cache_erase zone (list_ c)) (max_ c) (flags_ c), []))
      s = Ok [] s' /\ zfs_inv s' /\ quiet s s' /\ fd_file (zfs_os s') fd = Some (zone_file zone).
Proof.
  intros Hs Ef. assert (cache_wf (get_cache k s)) as [Hnd Hmax] by apply Hs.
  pose proof (cache_erase_perm zone _ _ Hnd Ef) as Hp.
  edestruct (with_cache_ok k (fun c => (mkFileCache ((zone, fd) :: cache_erase zone (list_ c)) (max_ c) (flags_ c), []))
    [] [] s) as (s' & Hrun & Hinv & Hq & Hos & _); [done| | |done|].
  { simpl. by symmetry. }
  { split; [|done]. cbn [list_]. by rewrite Hp. }
  exists s'. split_and!; [done|done|done..|]. rewrite Hos.
  destruct Hs as (_ & _ & [_ Hf] & _). rewrite Forall_forall in Hf. apply (Hf (zone, fd)).
  destruct (all_files_split k s) as (r & Hr & _). simpl. rewrite Hr.
  apply elem_of_app. left. by apply cache_find_in.
Qed.

(** A new file makes room in the cache and goes to the front. *)
Lemma Get_miss k zone fd lim s :
  zfs_inv_with [(zone, fd)] s -> zone ∉ (list_ (get_cache k s)).*1 ->
  exists s', (dropped <- with_cache k (ZoneFsFileCache_Prune lim) ;;
              close_files dropped ;;
              _ <- with_cache k (fun c => (mkFileCache ((zone, fd) :: list_ c) (max_ c) (flags_ c), [])) ;;
              ret (Some fd)) s = Ok (Some fd) s' /\
    zfs_inv s' /\ quiet s s' /\ fd_file (zfs_os s') fd = Some (zone_file zone).
Proof.
  intros Hs Hnew. assert (cache_wf (get_cache k s)) as Hwf by apply Hs.
  edestruct (with_cache_ok k (ZoneFsFileCache_Prune lim) [(zone, fd)]
    ((ZoneFsFileCache_Prune lim (get_cache k s)).2 ++ [(zone, fd)]) s)
    as (s2 & Hrun2 & Hinv2 & Hq2 & Hos2 & Hk2); [apply surjective_pairing| |by apply Prune_wf|done|].
  { rewrite (Prune_perm lim (get_cache k s)) at 1. rewrite <- (assoc_L (++)).
    by rewrite Permutation_app_swap_app. }
  rewrite (bind_ok _ _ _ _ _ Hrun2).
  destruct (close_files_ok _ _ _ Hinv2) as (s3 & Hrun3 & Hinv3 & Hq3 & Hk3).
  rewrite (bind_ok _ _ _ _ _ Hrun3).
  edestruct (with_cache_ok k (fun c => (mkFileCache ((zone, fd) :: list_ c) (max_ c) (flags_ c), []))
    [(zone, fd)] [] s3) as (s4 & Hrun4 & Hinv4 & Hq4 & Hos4 & _); [done|done| |done|].
  { rewrite Hk3, Hk2. destruct (Prune_wf lim _ Hwf) as [Hnd Hmax]. split; [|done].
    cbn [list_]. apply NoDup_cons. split; [|done]. by apply Prune_notin. }
  rewrite (bind_ok _ _ _ _ _ Hrun4). eexists. split; [done|]. split; [done|]. split.
  - eapply quiet_trans; [exact Hq2|eapply quiet_trans; [exact Hq3|exact Hq4]].
  - rewrite Hos4. destruct Hinv3 as (_ & _ & [_ Hf3] & _). by apply Forall_cons in Hf3 as [? _].
Qed.

Lemma Get_ok k zone s :
  zfs_inv s ->
  exists r s', ZoneFsFileCache_Get k zone (zone_file zone) s = Ok r s' /\ zfs_inv s' /\ quiet s s' /\
    forall fd, r = Some fd -> fd_file (zfs_os s') fd = Some (zone_file zone).
Proof.
  intros Hs. unfold ZoneFsFileCache_Get. unfold bind at 1, gets at 1.
  destruct (cache_find zone (list_ (get_cache k s))) as [fd|] eqn:Ef.
  - destruct (Get_hit k zone fd s Hs Ef) as (s' & Hrun & Hinv & Hq & Hfd).
    rewrite (bind_ok _ _ _ _ _ Hrun). do 2 eexists. split; [done|]. split_and!; [done|done..|].
    by intros ? [= <-].
  - destruct (os_open (zone_file zone) (flags_ (get_cache k s)) (zfs_os s)) as [fd w1] eqn:Eo.
    rewrite (bind_ok _ _ _ _ _ (sys_run _ _ _ _ Eo)).
    destruct (open_ok _ _ _ _ _ Eo) as [Hc [[-> Hfd]|(H0 & Hnew & Hfd & Hold)]].
    + simpl. do 2 eexists. split; [done|]. by destruct (set_os_quiet [] s w1).
    + destruct (Z.eqb_spec fd (-1)) as [->|_]; [lia|].
      destruct (Get_miss k zone fd (max_ (get_cache k s) -32 1) (set_os w1 s))
        as (s' & Hrun & Hinv & Hq & Hf).
      { by apply open_inv. }
      { apply cache_find_None in Ef. by destruct k. }
      rewrite Hrun. do 2 eexists. split; [done|]. split; [done|]. split.
      * eapply quiet_trans; [|exact Hq]. by split.
      * by intros ? [= <-].
Qed.

Definition opened s : Prop := zfs_zone_sz_ s = fs_zone_sz.

Lemma quiet_opened s s' : quiet s s' -> opened s -> opened s'.
Proof. intros [(_ & H & _) _]. unfold opened. congruence. Qed.

Lemma zone_of_ok p s : opened s -> zone_of p s = Ok (p / fs_zone_sz) s.
Proof.
  intros Ho. unfold zone_of, bind, gets. rewrite Ho. destruct zonefs_geometry as [Hz _].
  destruct (Z.eqb_spec fs_zone_sz 0); [lia|done].
Qed.

Lemma zone_of_unopened p s : zfs_inv s -> ~ opened s -> zone_of p s = Stuck Undefined.
Proof.
  intros (_ & [Hz|Hz] & _) Ho; [|done]. unfold zone_of, bind, gets. by rewrite Hz.
Qed.

Lemma LBAToZoneFile_ok p s :
  zfs_inv s -> opened s -> LBAToZoneFile p s = Ok (zone_file (p / fs_zone_sz)) s.
Proof.
  intros (Hm & _) Ho. unfold LBAToZoneFile. rewrite (bind_ok _ _ _ _ _ (zone_of_ok p s Ho)).
  unfold bind, gets, ret, zone_file. by rewrite Hm.
Qed.

Lemma LBAToZoneOffset_ok p s : opened s -> LBAToZoneOffset p s = Ok (p mod fs_zone_sz) s.
Proof.
  intros Ho. unfold LBAToZoneOffset. rewrite (bind_ok _ _ _ _ _ (zone_of_ok p s Ho)).
  unfold bind, gets, ret. rewrite Ho. destruct zonefs_geometry as [Hz _]. f_equal.
  rewrite Z.mod_eq by lia. lia.
Qed.

Lemma GetZoneFile_ok p flags s :
  zfs_inv s -> opened s ->
  exists r s', GetZoneFile p flags s = Ok r s' /\ zfs_inv s' /\ quiet s s' /\
    forall fd, r = Some fd -> fd_file (zfs_os s') fd = Some (zone_file (p / fs_zone_sz)).
Proof.
  intros Hs Ho. unfold GetZoneFile. rewrite (bind_ok _ _ _ _ _ (zone_of_ok p s Ho)).
  rewrite (bind_ok _ _ _ _ _ (LBAToZoneFile_ok p s Hs Ho)). by apply Get_ok.
Qed.

Lemma PutZoneFile_ok p x s :
  zfs_inv_with x s -> opened s ->
  exists put s', PutZoneFile p O_WRONLY s = Ok put s' /\ zfs_inv_with (x ++ put) s' /\ quiet s s' /\
    zfs_os s' = zfs_os s.
Proof.
  intros Hs Ho. unfold PutZoneFile. rewrite (bind_ok _ _ _ _ _ (zone_of_ok p s Ho)). simpl.
  pose proof (Put_wf (p / fs_zone_sz) (get_cache WrFds s)) as Hput.
  destruct (ZoneFsFileCache_Put (p / fs_zone_sz) (get_cache WrFds s)) as [c put] eqn:Ep.
  destruct Hput as [Hc Hp]; [apply Hs|].
  edestruct (with_cache_ok WrFds (ZoneFsFileCache_Put (p / fs_zone_sz)) x (x ++ put) s)
    as (s' & Hrun & Hinv & Hq & Hos & _); [exact Ep|by rewrite <- (assoc_L (++)), Hp|done|done|].
  by exists put, s'.
Qed.

(** Drops the file of a zone that was open for writing. *)
Lemma put_close p s :
  zfs_inv s -> opened s ->
  exists s', (dropped <- PutZoneFile p O_WRONLY ;; close_files dropped) s = Ok tt s' /\
    zfs_inv s' /\ quiet s s'.
Proof.
  intros Hs Ho. destruct (PutZoneFile_ok p [] s Hs Ho) as (put & s1 & Hrun & Hinv & Hq & _).
  rewrite (bind_ok _ _ _ _ _ Hrun). change ([] ++ put) with put in Hinv.
  rewrite <- (app_nil_r put) in Hinv. destruct (close_files_ok put [] _ Hinv) as (s2 & Hrun2 & Hinv2 & Hq2 & _).
  exists s2. split; [done|]. split; [done|]. by eapply quiet_trans.
Qed.

(** ** Reading *)

Lemma Read_loop_ok f fd fuel n off read buf s :
  zfs_inv s -> fd_file (zfs_os s) fd = Some f -> 0 <= n <= Z.of_nat fuel ->
  0 <= off -> off + n <= fs_zone_sz ->
  exists r data s', ZoneFs_Read_loop fuel fd n off read buf s = Ok (r, buf ++ data) s' /\
    zfs_inv s' /\ quiet s s' /\
    (r < 0 \/ exists m, 0 <= m <= n /\ r = read + m /\ data = range (content (zfs_os s) f) off m).
Proof.
  destruct zonefs_geometry as [Hz _].
  revert n off read buf s. induction fuel as [|fuel IH]; intros n off read buf s Hs Hfd Hn Hoff Hend; simpl.
  { destruct (Z.eqb_spec n 0); [|lia]. exists read, [], s. rewrite app_nil_r. split_and!; try done.
    right. exists 0. split_and!; [lia..|done]. }
  destruct (Z.eqb_spec n 0) as [->|Hn0].
  { exists read, [], s. rewrite app_nil_r. split_and!; try done. right. exists 0. split_and!; [lia..|done]. }
  destruct (os_pread fd (u64 n) off (zfs_os s)) as [[r0 data] w'] eqn:Er.
  erewrite bind_ok by (apply sys_run; by rewrite Er). cbn beta iota.
  destruct (pread_ok _ _ _ _ _ _ _ Er) as (Hc & Hf' & Hr & Hd).
  rewrite u64_small in Hr by lia. rewrite to_int_small by lia.
  destruct (set_os_quiet [] s w' Hc Hf' Hs) as [Hs1 Hq1]. destruct (Z.ltb_spec 0 r0) as [Hpos|Hle].
  - rewrite u64_small by lia.
    edestruct (IH (n - r0) (off + r0) (read + r0) (buf ++ data) (set_os w' s))
      as (r & d2 & s2 & Hrun & Hs2 & Hq2 & Hres); [done|simpl; by rewrite Hf'|lia|lia|lia|].
    exists r, (data ++ d2), s2. rewrite (assoc_L (++)). split; [exact Hrun|]. split; [done|].
    split; [by eapply quiet_trans|]. destruct Hres as [|(m & Hm & -> & ->)]; [by left|]. right.
    exists (r0 + m). split; [lia|]. split; [lia|]. rewrite (Hd f Hfd Hpos), range_app by lia. f_equal.
    apply range_ext. intros a _. apply Hc.
  - destruct (Z.ltb_spec r0 0).
    + exists r0, [], (set_os w' s). rewrite app_nil_r. split_and!; try done. by left.
    + exists read, [], (set_os w' s). rewrite app_nil_r. split_and!; try done.
      right. exists 0. split_and!; [lia..|done].
Qed.

(** ** Writing *)

(** Between [w] and [w'], [d] was stored in [f] at [off]; at most the [n] bytes of [f]
    at [off] changed. *)
Definition file_stored w w' f off d : Prop :=
  forall g a, content w' g a = if decide (g = f) then store (content w f) off d a else content w g a.
Definition file_touched w w' f off n : Prop :=
  forall g a, ~ (g = f /\ off <= a < off + n) -> content w' g a = content w g a.

Lemma file_stored_app w w1 w' f off d1 d2 :
  file_stored w w1 f off d1 -> file_stored w1 w' f (off + zlen d1) d2 ->
  file_stored w w' f off (d1 ++ d2).
Proof.
  intros H1 H2 g a. rewrite H2. destruct (decide (g = f)) as [->|Hne].
  - rewrite store_app. apply store_ext. intros b. rewrite H1. by rewrite decide_True.
  - rewrite H1. by rewrite decide_False.
Qed.

Lemma file_touched_after w w1 w' f off d n :
  file_stored w w1 f off d -> file_touched w1 w' f (off + zlen d) (n - zlen d) -> zlen d <= n ->
  file_touched w w' f off n.
Proof.
  intros H1 H2 Hle g a Ha. pose proof (zlen_nonneg d). rewrite H2 by (intros [-> ?]; apply Ha; split; [done|lia]).
  rewrite H1. destruct (decide (g = f)) as [->|]; [|done]. apply store_outside.
  intros ?. apply Ha. split; [done|lia].
Qed.

Lemma pwrite_stored fd data off w r w' f :
  os_pwrite fd data off w = (r, w') -> fd_file w fd = Some f ->
  (0 <= r -> file_stored w w' f off (ztake r data)) /\ file_touched w w' f off (zlen data).
Proof.
  intros Hw Hf. destruct (pwrite_ok _ _ _ _ _ _ Hw) as (_ & _ & _ & Hother & Hsame).
  destruct (Hsame f Hf) as [Hst Hout]. split.
  - intros Hr g a. destruct (decide (g = f)) as [->|Hne]; [by apply Hst|].
    apply Hother. rewrite Hf. congruence.
  - intros g a Ha. destruct (decide (g = f)) as [->|Hne]; [apply Hout; naive_solver|].
    apply Hother. rewrite Hf. congruence.
Qed.

(** The outcome of the loop: the [n] bytes left were stored, or it failed. *)
Definition write_outcome w w' f off n data written r : Prop :=
  r < 0 /\ file_touched w w' f off n \/ r = written + n /\ file_stored w w' f off (ztake n data).

Lemma write_outcome_0 w f off data written : write_outcome w w f off 0 data written written.
Proof.
  right. split; [lia|]. intros g a. rewrite ztake_0.
  destruct (decide (g = f)) as [->|]; [|done]. by rewrite store_nil.
Qed.

Lemma write_outcome_more w w1 w' f off n data written k r :
  0 < k <= n -> n <= zlen data -> file_stored w w1 f off (ztake k data) ->
  write_outcome w1 w' f (off + k) (n - k) (zdrop k data) (written + k) r ->
  write_outcome w w' f off n data written r.
Proof.
  intros Hk Hn H1 Hout. assert (zlen (ztake k data) = k) as Hl by (rewrite zlen_ztake; lia).
  destruct Hout as [[Hr Ht]|[-> Hst]].
  - left. split; [done|]. eapply file_touched_after; [exact H1|rewrite Hl; exact Ht|lia].
  - right. split; [lia|].
    assert (ztake n data = ztake k data ++ ztake (n - k) (zdrop k data)) as ->.
    { rewrite <- (ztake_zdrop k data) at 1. rewrite ztake_app_ge by lia. by rewrite Hl. }
    eapply file_stored_app; [exact H1|by rewrite Hl].
Qed.

Lemma Write_loop_ok f fd pos fuel data n off written x s :
  zfs_inv_with x s -> opened s -> fd_file (zfs_os s) fd = Some f ->
  0 <= n <= Z.of_nat fuel -> n <= zlen data -> 0 <= off -> off + n <= fs_zone_sz ->
  exists r x' s', ZoneFs_Write_loop fuel fd pos data n off written x s = Ok (r, x') s' /\
    zfs_inv_with x' s' /\ same_conf s s' /\
    write_outcome (zfs_os s) (zfs_os s') f off n data written r.
Proof.
  destruct zonefs_geometry as [Hz _].
  revert data n off written x s.
  induction fuel as [|fuel IH]; intros data n off written x s Hs Ho Hfd Hn Hlen Hoff Hend; simpl.
  { destruct (Z.eqb_spec n 0) as [->|]; [|lia]. exists written, x, s. split_and!; try done.
    apply write_outcome_0. }
  destruct (Z.eqb_spec n 0) as [->|Hn0].
  { exists written, x, s. split_and!; try done. apply write_outcome_0. }
  rewrite (u64_small n) by lia.
  destruct (os_pwrite fd (ztake n data) off (zfs_os s)) as [r0 w'] eqn:Ew.
  erewrite bind_ok by (apply sys_run; by rewrite Ew). cbn beta iota.
  destruct (pwrite_ok _ _ _ _ _ _ Ew) as (Hf' & Hr & Hr0 & _). pose proof (zlen_nonneg data) as Hd0.
  destruct (pwrite_stored _ _ _ _ _ _ f Ew Hfd) as [Hst Ht].
  assert (zlen (ztake n data) = n) as Hln by (rewrite zlen_ztake; lia). rewrite Hln in *.
  rewrite to_int_small by lia.
  assert (zfs_inv_with x (set_os w' s)) as Hs1 by (apply set_os_used; [auto|done]).
  destruct (Z.ltb_spec 0 r0) as [Hpos|Hle].
  2: { destruct (Z.ltb_spec r0 0); [|lia]. exists r0, x, (set_os w' s). split_and!; try done.
       by left. }
  unfold bind at 1, gets. rewrite (u64_small (off + r0)) by lia.
  assert (exists put s2, (if off + r0 =? zfs_zone_sz_ (set_os w' s) then PutZoneFile pos O_WRONLY else ret [])
    (set_os w' s) = Ok put s2 /\ zfs_inv_with (x ++ put) s2 /\ quiet (set_os w' s) s2 /\
    zfs_os s2 = w') as (put & s2 & Hput & Hs2 & Hq2 & Hos2).
  { destruct (_ =? _).
    - by apply PutZoneFile_ok.
    - exists [], (set_os w' s). by rewrite app_nil_r. }
  rewrite (bind_ok _ _ _ _ _ Hput).
  edestruct (IH (zdrop r0 data) (n - r0) (off + r0) (written + r0) (x ++ put) s2)
    as (r & x' & s' & Hrun & Hs' & Hconf & Hout).
  { done. } { by eapply quiet_opened. } { rewrite Hos2. by rewrite Hf'. } { lia. }
  { rewrite zlen_zdrop; lia. } { lia. } { lia. }
  exists r, x', s'. split; [exact Hrun|]. split; [done|]. split.
  - destruct Hq2 as [(E1 & E2 & E3) _], Hconf as (F1 & F2 & F3). simpl in *. split_and!; congruence.
  - rewrite Hos2 in Hout. eapply (write_outcome_more _ _ _ _ _ _ _ _ r0); [lia|exact Hlen| |exact Hout].
    specialize (Hst ltac:(lia)). unfold ztake in Hst |- *. rewrite take_take in Hst.
    by rewrite Nat.min_l in Hst by lia.
Qed.

(** ** The device *)

Lemma zone_offset p : 0 <= p mod fs_zone_sz < fs_zone_sz.
Proof. destruct zonefs_geometry as [Hz _]. apply Z.mod_pos_bound. lia. Qed.

(** An address of the zone of [p] as a distance from [p]. *)
Lemma same_zone p a :
  a / fs_zone_sz = p / fs_zone_sz -> a mod fs_zone_sz - p mod fs_zone_sz = a - p.
Proof. destruct zonefs_geometry as [Hz _]. intros H. rewrite !Z.mod_eq by lia. rewrite H. lia. Qed.

Lemma near_same_zone p a n :
  p mod fs_zone_sz + n <= fs_zone_sz -> p <= a < p + n -> a / fs_zone_sz = p / fs_zone_sz.
Proof.
  destruct zonefs_geometry as [Hz _]. intros Hn Ha. pose proof (zone_offset p).
  symmetry. apply Z.div_unique with (r := p mod fs_zone_sz + (a - p)); [lia|].
  pose proof (Z.div_mod p fs_zone_sz). lia.
Qed.

Lemma disk_stored s s' p d :
  file_stored (zfs_os s) (zfs_os s') (zone_file (p / fs_zone_sz)) (p mod fs_zone_sz) d ->
  p mod fs_zone_sz + zlen d <= fs_zone_sz ->
  forall a, zonefs_disk s' a = store (zonefs_disk s) p d a.
Proof.
  intros H Hend a. unfold zonefs_disk at 1. rewrite H.
  destruct (decide (zone_file (a / fs_zone_sz) = _)) as [He|Hne].
  - apply zone_file_inj in He. pose proof (same_zone p a He) as Hd. unfold store, zonefs_disk.
    rewrite <- He. destruct (decide (p <= a < p + zlen d)).
    + rewrite decide_True by lia. by rewrite Hd.
    + by rewrite decide_False by lia.
  - rewrite store_outside; [done|]. intros Ha. apply Hne. f_equal. by eapply near_same_zone.
Qed.

Lemma disk_touched s s' p n :
  file_touched (zfs_os s) (zfs_os s') (zone_file (p / fs_zone_sz)) (p mod fs_zone_sz) n ->
  forall a, ~ (p <= a < p + n) -> zonefs_disk s' a = zonefs_disk s a.
Proof.
  intros H a Ha. apply H. intros [He%zone_file_inj Hr]. pose proof (same_zone p a He). lia.
Qed.

Lemma disk_range s p n :
  p mod fs_zone_sz + n <= fs_zone_sz ->
  range (content (zfs_os s) (zone_file (p / fs_zone_sz))) (p mod fs_zone_sz) n = range (zonefs_disk s) p n.
Proof.
  intros Hend. apply list_eq. intros i. unfold range. rewrite !list_lookup_fmap.
  destruct (decide (Z.of_nat i < n)).
  - rewrite !lookup_seqZ_lt by done. simpl. f_equal. unfold zonefs_disk.
    assert ((p + Z.of_nat i) / fs_zone_sz = p / fs_zone_sz) as Hz by (eapply (near_same_zone _ _ n); lia).
    rewrite Hz. f_equal. pose proof (same_zone p _ Hz). lia.
  - by rewrite !lookup_seqZ_ge by lia.
Qed.

Lemma Write_ok data p s :
  zfs_inv s -> opened s ->
  exists r s', ZoneFs_Write data p s = Ok r s' /\ zfs_inv s' /\ same_conf s s' /\
    (r < 0 /\ (forall a, ~ (p <= a < p + zlen data) -> zonefs_disk s' a = zonefs_disk s a) \/
     r = Z.min (zlen data) (fs_zone_sz - p mod fs_zone_sz) /\
     forall a, zonefs_disk s' a = store (zonefs_disk s) p (ztake r data) a).
Proof.
  intros Hs Ho. destruct zonefs_geometry as [Hz _]. pose proof (zone_offset p) as Hoff.
  pose proof (zlen_nonneg data). unfold ZoneFs_Write.
  rewrite (bind_ok _ _ _ _ _ (LBAToZoneOffset_ok p s Ho)).
  unfold bind at 1, gets. rewrite Ho, u64_small by lia. cbv zeta.
  set (n := Z.min (zlen data) (fs_zone_sz - p mod fs_zone_sz)). assert (0 <= n <= fs_zone_sz) by lia.
  rewrite (to_int_small n) by lia. unfold bind at 1. destruct (readonly_ s).
  { exists (-1), s. split_and!; try done. left. done. }
  destruct (GetZoneFile_ok p (Z.lor O_WRONLY O_DIRECT) s Hs Ho) as (file & s1 & Hget & Hs1 & Hq1 & Hfd).
  rewrite (bind_ok _ _ _ _ _ Hget). destruct file as [fd|].
  2: { exists (-1), s1. split_and!; try done; [apply Hq1|]. left. split; [done|].
       intros a _. by apply quiet_disk. }
  edestruct (Write_loop_ok (zone_file (p / fs_zone_sz)) fd p (Z.to_nat n) data n (p mod fs_zone_sz) 0 [] s1)
    as (r & x & s2 & Hrun & Hs2 & Hconf & Hout); [done|by eapply quiet_opened|by apply Hfd|lia..|].
  rewrite (bind_ok _ _ _ _ _ Hrun). rewrite <- (app_nil_r x) in Hs2.
  destruct (close_files_ok x [] s2 Hs2) as (s3 & Hclose & Hs3 & Hq3 & _).
  rewrite (bind_ok _ _ _ _ _ Hclose). exists r, s3. split; [done|]. split; [done|]. split.
  { destruct Hq1 as [(A1 & A2 & A3) _], Hconf as (B1 & B2 & B3), Hq3 as [(C1 & C2 & C3) _].
    split_and!; congruence. }
  destruct Hout as [[Hr Ht]|[-> Hst]]; [left|right]; (split; [done|]); intros a.
  - intros Ha. rewrite (quiet_disk _ _ a Hq3).
    rewrite (disk_touched _ _ _ _ Ht) by lia. by apply quiet_disk.
  - rewrite (quiet_disk _ _ a Hq3). rewrite Z.add_0_l. erewrite disk_stored; [|exact Hst|rewrite zlen_ztake; lia].
    apply store_ext. intros b. by apply quiet_disk.
Qed.

Lemma Read_ok size p direct s :
  zfs_inv s -> opened s ->
  exists r data s', ZoneFs_Read size p direct s = Ok (r, data) s' /\ zfs_inv s' /\ quiet s s' /\
    (r < 0 \/ 0 <= r <= Z.min (u64 size) (fs_zone_sz - p mod fs_zone_sz) /\
               data = range (zonefs_disk s) p r).
Proof.
  intros Hs Ho. destruct zonefs_geometry as [Hz _]. pose proof (zone_offset p) as Hoff.
  pose proof (u64_range size). unfold ZoneFs_Read.
  rewrite (bind_ok _ _ _ _ _ (LBAToZoneOffset_ok p s Ho)).
  unfold bind at 1, gets. rewrite Ho, (u64_small (fs_zone_sz - _)) by lia. cbv zeta.
  set (n := Z.min (u64 size) (fs_zone_sz - p mod fs_zone_sz)). assert (0 <= n <= fs_zone_sz) by lia.
  rewrite (to_int_small n) by lia.
  destruct (GetZoneFile_ok p (if direct then Z.lor O_RDONLY O_DIRECT else O_RDONLY) s Hs Ho)
    as (file & s1 & Hget & Hs1 & Hq1 & Hfd).
  rewrite (bind_ok _ _ _ _ _ Hget). destruct file as [fd|].
  2: { exists (-1), [], s1. split_and!; try done; [apply Hq1..|]. left. lia. }
  edestruct (Read_loop_ok (zone_file (p / fs_zone_sz)) fd (Z.to_nat n) n (p mod fs_zone_sz) 0 [] s1)
    as (r & data & s2 & Hrun & Hs2 & Hq2 & Hres); [done|by apply Hfd|lia..|].
  exists r, data, s2. split; [exact Hrun|]. split; [done|]. split; [by eapply quiet_trans|].
  destruct Hres as [Hr|(m & Hm & -> & ->)]; [by left|right]. rewrite Z.add_0_l. split; [lia|].
  rewrite disk_range by lia. apply range_ext. intros a _. by apply quiet_disk.
Qed.

Lemma InvalidateCache_ok p size s :
  zfs_inv s -> opened s ->
  exists r s', ZoneFs_InvalidateCache p size s = Ok r s' /\ zfs_inv s' /\ quiet s s'.
Proof.
  intros Hs Ho. unfold ZoneFs_InvalidateCache.
  rewrite (bind_ok _ _ _ _ _ (LBAToZoneOffset_ok p s Ho)).
  destruct (GetZoneFile_ok p O_RDONLY s Hs Ho) as (file & s1 & Hget & Hs1 & Hq1 & Hfd).
  rewrite (bind_ok _ _ _ _ _ Hget). destruct file as [fd|]; [|by do 2 eexists].
  destruct (os_fadvise fd (p mod fs_zone_sz) size (zfs_os s1)) as [r w'] eqn:Ef.
  rewrite (sys_run _ _ _ _ Ef). destruct (fadvise_keeps _ _ _ _ _ _ Ef) as [Hc Hf].
  destruct (set_os_quiet [] s1 w' Hc Hf Hs1) as [Hs2 Hq2]. do 2 eexists. split; [done|].
  split; [done|]. by eapply quiet_trans.
Qed.

(** A zone file was truncated: the other zones keep their contents, and if the length
    is the zone size, so does this one. *)
Lemma truncate_inv p len s r w' :
  zfs_inv s -> os_truncate (zone_file (p / fs_zone_sz)) len (zfs_os s) = (r, w') ->
  zfs_inv (set_os w' s) /\ same_conf s (set_os w' s) /\
  (len = fs_zone_sz -> quiet s (set_os w' s)) /\
  forall a, a / fs_zone_sz <> p / fs_zone_sz -> zonefs_disk (set_os w' s) a = zonefs_disk s a.
Proof.
  intros Hs Et. destruct (truncate_ok _ _ _ _ _ Et) as [Hf Hother]. split_and!; try done.
  - apply set_os_used; [auto|done].
  - intros ->. split; [done|]. intros f a. by eapply finish_keeps.
  - intros a Ha. unfold zonefs_disk. simpl. apply Hother. by intros He%zone_file_inj.
Qed.

(** What a zone of the device keeps when another one is reset. *)
Definition reset_keeps p s s' : Prop :=
  forall a, a / fs_zone_sz <> p / fs_zone_sz -> zonefs_disk s' a = zonefs_disk s a.

Lemma Reset_ok p s :
  zfs_inv s -> opened s ->
  match ZoneFs_Reset p s with
  | Ok (offline, mc) s' =>
      zfs_inv s' /\ same_conf s s' /\ reset_keeps p s s' /\
      mc = (if (offline : bool) then 0 else fs_zone_sz)
  | Err e s' => zfs_inv s' /\ same_conf s s' /\ reset_keeps p s s' /\ ok e = false
  | Stuck _ => False
  end.
Proof.
  intros Hs Ho. unfold ZoneFs_Reset. rewrite (bind_ok _ _ _ _ _ (LBAToZoneFile_ok p s Hs Ho)).
  destruct (os_truncate (zone_file (p / fs_zone_sz)) 0 (zfs_os s)) as [r w'] eqn:Et.
  rewrite (bind_ok _ _ _ _ _ (sys_run _ _ _ _ Et)).
  destruct (truncate_inv p 0 s r w' Hs Et) as (Hs1 & Hc1 & _ & Hd1). set (s1 := set_os w' s) in *.
  destruct (negb (r =? 0)); [done|].
  destruct (put_close p s1 Hs1 Ho) as (s2 & Hput & Hs2 & Hq2).
  rewrite <- bind_assoc, (bind_ok _ _ _ _ _ Hput).
  destruct (os_stat (zone_file (p / fs_zone_sz)) (zfs_os s2)) as [st w3] eqn:Est.
  rewrite (bind_ok _ _ _ _ _ (sys_run _ _ _ _ Est)). destruct (stat_keeps _ _ _ _ Est) as [Hc Hf].
  destruct (set_os_quiet [] s2 w3 Hc Hf Hs2) as [Hs3 Hq3]. set (s3 := set_os w3 s2) in *.
  pose proof (quiet_trans _ _ _ Hq2 Hq3) as Hq.
  assert (same_conf s s3 /\ reset_keeps p s s3) as [Hc3 Hd3].
  { destruct Hc1 as (A1 & A2 & A3), Hq as [(B1 & B2 & B3) Hq]. split; [split_and!; congruence|].
    intros a Ha. rewrite (quiet_disk s1 s3) by by split. by apply Hd1. }
  assert (opened s3) as Ho3 by (destruct Hc3 as (_ & E & _); unfold opened; congruence).
  destruct st as [st|]; [|done]. unfold bind, gets, ret. rewrite Ho3. by destruct (ZONE_OFFLINE _).
Qed.

Lemma Finish_ok p s :
  zfs_inv s -> opened s ->
  match ZoneFs_Finish p s with
  | Ok _ s' => zfs_inv s' /\ quiet s s'
  | Err e s' => zfs_inv s' /\ quiet s s' /\ ok e = false
  | Stuck _ => False
  end.
Proof.
  intros Hs Ho. unfold ZoneFs_Finish. rewrite (bind_ok _ _ _ _ _ (LBAToZoneFile_ok p s Hs Ho)).
  unfold bind at 1, gets. rewrite Ho.
  destruct (os_truncate (zone_file (p / fs_zone_sz)) fs_zone_sz (zfs_os s)) as [r w'] eqn:Et.
  rewrite (bind_ok _ _ _ _ _ (sys_run _ _ _ _ Et)).
  destruct (truncate_inv p _ s r w' Hs Et) as (Hs1 & Hc1 & Hq1 & _). specialize (Hq1 eq_refl).
  destruct (negb (r =? 0)); [done|].
  destruct (put_close p (set_os w' s) Hs1 Ho) as (s2 & Hput & Hs2 & Hq2). rewrite Hput.
  split; [done|]. by eapply quiet_trans.
Qed.

(** ** Opening *)

Lemma same_files_trans s1 s2 s3 : same_files s1 s2 -> same_files s2 s3 -> same_files s1 s3.
Proof. intros H1 H2 f a. by rewrite H2. Qed.

Lemma GetBackingDevice_ok mp x s :
  zfs_inv_with x s ->
  exists dev s', GetBackingDevice mp s = Ok dev s' /\ zfs_inv_with x s' /\ quiet s s' /\
    (forall k, get_cache k s' = get_cache k s) /\ zfs_nr_zones_ s' = zfs_nr_zones_ s.
Proof.
  intros Hs. unfold GetBackingDevice. destruct (os_setmntent (zfs_os s)) as [r w1] eqn:Em.
  rewrite (bind_ok _ _ _ _ _ (sys_run _ _ _ _ Em)). destruct (setmntent_ok _ _ _ Em) as [Hc Hf].
  assert (forall w, same_files s (set_os w s) -> zfs_inv_with x (set_os w s) ->
    zfs_inv_with x (set_os w s) /\ quiet s (set_os w s) /\
    (forall k, get_cache k (set_os w s) = get_cache k s) /\
    zfs_nr_zones_ (set_os w s) = zfs_nr_zones_ s) as Hset by (intros w Hw Hi; split_and!; try done; by intros []).
  destruct r as [[file entries]|].
  - destruct Hf as [Hnew Hold].
    assert (forall w, (forall g, g <> file -> fd_file w g = fd_file w1 g) -> zfs_inv_with x (set_os w s)) as Hinv.
    { intros w Hw. apply set_os_used; [|done]. intros g Hg.
      assert (g <> file) as Hne by by intros ->. by rewrite Hw, Hold. }
    destruct (find_backing mp entries) as [dev|].
    + do 2 eexists. split; [done|]. by apply Hset; [|apply Hinv].
    + destruct (endmntent_keeps file w1) as [Hc2 Hf2]. do 2 eexists. split; [done|].
      apply (Hset (os_endmntent file w1)); [|by apply Hinv]. intros f a. simpl. by rewrite Hc2.
  - do 2 eexists. split; [done|]. apply Hset; [done|]. apply set_os_used; auto.
Qed.

Lemma limits_ok x s :
  zfs_inv_with x s ->
  exists a o s', ZoneFs_limits s = Ok (a, o) s' /\ (0 <= a < 2 ^ 32 /\ 0 <= o < 2 ^ 32) /\
    zfs_inv_with x s' /\ quiet s s' /\ (forall k, get_cache k s' = get_cache k s) /\
    zfs_nr_zones_ s' = zfs_nr_zones_ s.
Proof.
  intros Hs. unfold ZoneFs_limits. unfold bind at 1, gets.
  destruct (GetBackingDevice_ok (mountpoint_ s) x s Hs) as (dev & s1 & Hrun & Hs1 & Hq & Hk & Hn).
  rewrite (bind_ok _ _ _ _ _ Hrun).
  assert (forall name, 0 <= match os_sysfs name (zfs_os s1) with
    | Some text => extract_unsigned text | None => ZENFS_ZONEFS_DEFAULT_MAX_LIMIT end < 2 ^ 32) as Hv.
  { intros name. destruct (os_sysfs name (zfs_os s1)); [apply extract_unsigned_range|].
    unfold ZENFS_ZONEFS_DEFAULT_MAX_LIMIT. lia. }
  destruct (bool_decide (dev = "")).
  - do 3 eexists. split; [done|]. split; [|by split_and!; try apply Hq].
    unfold ZENFS_ZONEFS_DEFAULT_MAX_LIMIT. lia.
  - do 3 eexists. split; [done|]. split; [split; apply Hv|]. done.
Qed.

(** From the geometry of zone 0 on, nothing can fail. *)
Lemma Open_tail readonly fd st s :
  zfs_inv_with [(0, fd)] s -> st_blocks st * 512 = fs_zone_sz ->
  exists a o s', (modify (set_geometry (u32 (st_blksize st)) (u64 (st_blocks st * 512)) fd) ;;
              limits <- ZoneFs_limits ;;
              dropped <- with_cache WrFds (ZoneFsFileCache_Resize limits.1) ;;
              close_files dropped ;;
              modify (set_readonly readonly) ;;
              ret limits) s = Ok (a, o) s' /\
    zfs_inv s' /\ opened s' /\ same_files s s' /\ readonly_ s' = readonly /\ max_ (wr_fds_ s') = a.
Proof.
  intros Hs Hg. destruct zonefs_geometry as [Hz _]. unfold bind at 1, modify at 1.
  rewrite Hg, u64_small by lia. set (s1 := set_geometry _ _ _ s).
  assert (zfs_inv_with [(0, fd)] s1) as Hs1.
  { destruct Hs as (H1 & _ & H3 & H4). split_and!; [done|by right|done|]. intros k. specialize (H4 k). by destruct k. }
  destruct (limits_ok _ s1 Hs1) as (a & o & s2 & Hrun & [Ha _] & Hs2 & Hq2 & Hk2 & _).
  rewrite (bind_ok _ _ _ _ _ Hrun). cbn [fst].
  pose proof (Resize_wf a (get_cache WrFds s2) Ha ltac:(apply Hs2)) as Hr.
  destruct (ZoneFsFileCache_Resize a (get_cache WrFds s2)) as [c dropped] eqn:Er. destruct Hr as [Hc Hp].
  edestruct (with_cache_ok WrFds (ZoneFsFileCache_Resize a) [(0, fd)] (dropped ++ [(0, fd)]) s2)
    as (s3 & Hrun3 & Hs3 & Hq3 & Hos3 & Hk3); [exact Er| |exact Hc|exact Hs2|].
  { rewrite Hp, <- (assoc_L (++)). by rewrite Permutation_app_swap_app. }
  rewrite (bind_ok _ _ _ _ _ Hrun3).
  destruct (close_files_ok _ _ _ Hs3) as (s4 & Hrun4 & Hs4 & Hq4 & Hk4).
  rewrite (bind_ok _ _ _ _ _ Hrun4). do 3 eexists. split; [done|].
  pose proof (quiet_trans _ _ _ Hq2 (quiet_trans _ _ _ Hq3 Hq4)) as [(E1 & E2 & E3) Hsame].
  assert (zfs_inv s4) as (I1 & I2 & I3 & I4).
  { replace s4 with (set_os (zfs_os s4) s4) by by destruct s4.
    eapply set_os_inv; [apply submseteq_nil_l|done|exact Hs4]. }
  split_and!.
  - split_and!; [done|done|done|]. intros k. specialize (I4 k). by destruct k.
  - done.
  - exact Hsame.
  - done.
  - specialize (Hk4 WrFds). simpl in *. rewrite Hk4, Hk3.
    unfold ZoneFsFileCache_Resize in Er. by destruct (a <? _) in Er; injection Er as <- <-.
Qed.

(** An error closes zone 0 again. *)
Lemma Open_close readonly fd what s0 s :
  same_files s0 s -> zfs_inv_with [(0, fd)] s ->
  match (sys_ (os_close fd) ;; fail_errno InvalidArgument what : FM (Z * Z)) s with
  | Ok (a, o) s' => zfs_inv s' /\ opened s' /\ same_files s0 s' /\ readonly_ s' = readonly /\
      max_ (wr_fds_ s') = a
  | Err e s' => zfs_inv s' /\ same_files s0 s' /\ ok e = false
  | Stuck _ => False
  end.
Proof.
  intros H0 Hs. destruct (close_files_ok [(0, fd)] [] s Hs) as (s' & Hrun & Hs' & [_ Hq] & _).
  unfold close_files, forM in Hrun. unfold bind in Hrun |- *. simpl in *. unfold ret in Hrun.
  injection Hrun as <-. split; [done|]. split; [|done]. by eapply same_files_trans.
Qed.

Lemma Open_ok readonly exclusive s :
  zfs_inv s ->
  match ZoneFs_Open readonly exclusive s with
  | Ok (a, o) s' => zfs_inv s' /\ opened s' /\ same_files s s' /\ readonly_ s' = readonly /\
      max_ (wr_fds_ s') = a
  | Err e s' => zfs_inv s' /\ same_files s s' /\ ok e = false
  | Stuck _ => False
  end.
Proof.
  intros Hs. pose proof Hs as (Hm & _). unfold ZoneFs_Open. unfold bind at 1, gets. rewrite Hm. cbv zeta.
  destruct (os_stat (fs_mountpoint +:+ "/seq") (zfs_os s)) as [dir w1] eqn:Edir. rewrite (bind_ok _ _ _ _ _ (sys_run _ _ _ _ Edir)).
  destruct (stat_keeps _ _ _ _ Edir) as [Hc1 Hf1]. destruct (set_os_quiet [] s w1 Hc1 Hf1 Hs) as [Hs1 Hq1].
  destruct dir as [dir|]; [|done]. unfold bind at 1, modify at 1.
  set (s2 := set_nr_zones _ _).
  assert (zfs_inv s2) as Hs2.
  { destruct Hs1 as (A & B & C & D). split_and!; [done..|]. intros k. specialize (D k). by destruct k. }
  assert ((fs_mountpoint +:+ "/seq") +:+ "/0" = zone_file 0) as -> by apply append_assoc.
  destruct (os_open (zone_file 0) O_RDONLY (zfs_os s2)) as [fd w3] eqn:Eo.
  rewrite (bind_ok _ _ _ _ _ (sys_run _ _ _ _ Eo)).
  destruct (open_ok _ _ _ _ _ Eo) as [Hc3 [[-> Hf3]|(H0 & Hnew & Hfd & Hold)]].
  { simpl. split; [by apply set_os_quiet|]. split; [|done]. intros f a. simpl. by rewrite Hc3. }
  destruct (Z.ltb_spec fd 0); [lia|].
  pose proof (open_inv [] s2 fd w3 0 Hnew Hfd Hold Hs2) as Hs3. set (s3 := set_os w3 s2) in *.
  assert (same_files s s3) as Hc13 by (intros f a; simpl; by rewrite Hc3).
  destruct (os_flock fd (zfs_os s3)) as [lk w4] eqn:Elk. rewrite (bind_ok _ _ _ _ _ (sys_run _ _ _ _ Elk)).
  destruct (flock_keeps _ _ _ _ Elk) as [Hc4 Hf4].
  destruct (set_os_quiet _ s3 w4 Hc4 Hf4 Hs3) as [Hs4 Hq4]. set (s4 := set_os w4 s3) in *.
  assert (same_files s s4) as Hc14 by (eapply same_files_trans; [exact Hc13|apply Hq4]).
  destruct (lk =? -1); [by apply Open_close|].
  destruct (os_fstat fd (zfs_os s4)) as [st w5] eqn:Est. rewrite (bind_ok _ _ _ _ _ (sys_run _ _ _ _ Est)).
  destruct (fstat_keeps _ _ _ _ Est) as [Hc5 Hf5].
  destruct (set_os_quiet _ s4 w5 Hc5 Hf5 Hs4) as [Hs5 Hq5]. set (s5 := set_os w5 s4) in *.
  assert (same_files s s5) as Hc15 by (eapply same_files_trans; [exact Hc14|apply Hq5]).
  destruct st as [st|]; [|by apply Open_close].
  destruct (Open_tail readonly fd st s5 Hs5) as (a & o & s' & -> & Hs' & Ho' & Hc' & Hro & Hmx).
  { eapply fstat_geometry; [exact Est|]. simpl. rewrite Hf4. exact Hfd. }
  split_and!; try done. by eapply same_files_trans.
Qed.

(** ** The instance *)

(** Before [Open] every operation divides by zero. *)
Lemma unopened_stuck s :
  zfs_inv s -> ~ opened s ->
  (forall p, ZoneFs_Reset p s = Stuck Undefined) /\ (forall p, ZoneFs_Finish p s = Stuck Undefined) /\
  (forall p, ZoneFs_Close p s = Stuck Undefined) /\
  (forall p n, ZoneFs_InvalidateCache p n s = Stuck Undefined) /\
  (forall n p b, ZoneFs_Read n p b s = Stuck Undefined) /\
  (forall d p, ZoneFs_Write d p s = Stuck Undefined).
Proof.
  intros Hs Ho. pose proof (fun p => zone_of_unopened p s Hs Ho) as Hz.
  split_and!; intros; unfold ZoneFs_Reset, ZoneFs_Finish, ZoneFs_Close, ZoneFs_InvalidateCache, ZoneFs_Read,
    ZoneFs_Write, PutZoneFile, LBAToZoneFile, LBAToZoneOffset, bind; by rewrite Hz.
Qed.

Lemma Reset_inv p : preserves zfs_inv (ZoneFs_Reset p).
Proof.
  intros s Hs. destruct (decide (opened s)) as [Ho|Ho].
  - pose proof (Reset_ok p s Hs Ho) as H. destruct (ZoneFs_Reset p s) as [[] ?|?|?]; [apply H..|done].
  - by rewrite (proj1 (unopened_stuck s Hs Ho)).
Qed.
Lemma Finish_inv p : preserves zfs_inv (ZoneFs_Finish p).
Proof.
  intros s Hs. destruct (decide (opened s)) as [Ho|Ho].
  - pose proof (Finish_ok p s Hs Ho) as H. destruct (ZoneFs_Finish p s); [apply H..|done].
  - by rewrite (proj1 (proj2 (unopened_stuck s Hs Ho))).
Qed.
Lemma Close_inv p : preserves zfs_inv (ZoneFs_Close p).
Proof.
  intros s Hs. destruct (decide (opened s)) as [Ho|Ho].
  - unfold ZoneFs_Close. by destruct (put_close p s Hs Ho) as (s' & -> & Hs' & _).
  - by rewrite (proj1 (proj2 (proj2 (unopened_stuck s Hs Ho)))).
Qed.
Lemma InvalidateCache_inv p n : preserves zfs_inv (ZoneFs_InvalidateCache p n).
Proof.
  intros s Hs. destruct (decide (opened s)) as [Ho|Ho].
  - by destruct (InvalidateCache_ok p n s Hs Ho) as (r & s' & -> & Hs' & _).
  - by rewrite (proj1 (proj2 (proj2 (proj2 (unopened_stuck s Hs Ho))))).
Qed.
Lemma Read_inv n p b : preserves zfs_inv (ZoneFs_Read n p b).
Proof.
  intros s Hs. destruct (decide (opened s)) as [Ho|Ho].
  - by destruct (Read_ok n p b s Hs Ho) as (r & data & s' & -> & Hs' & _).
  - by rewrite (proj1 (proj2 (proj2 (proj2 (proj2 (unopened_stuck s Hs Ho)))))).
Qed.
Lemma Write_inv d p : preserves zfs_inv (ZoneFs_Write d p).
Proof.
  intros s Hs. destruct (decide (opened s)) as [Ho|Ho].
  - by destruct (Write_ok d p s Hs Ho) as (r & s' & -> & Hs' & _).
  - by rewrite (proj2 (proj2 (proj2 (proj2 (proj2 (unopened_stuck s Hs Ho)))))).
Qed.
Lemma Open_inv readonly exclusive : preserves zfs_inv (ZoneFs_Open readonly exclusive).
Proof.
  intros s Hs. pose proof (Open_ok readonly exclusive s Hs) as H.
  destruct (ZoneFs_Open readonly exclusive s) as [[] ?|?|?]; [apply H..|done].
Qed.

(** The states of a backend. *)
Definition ZDev : Type := dev zfs_inv.

Definition zonefs_backend (L : Type) : ZonedBlockDeviceBackend ZDev L := {|
  block_sz_ := fs_block_sz;
  zone_sz_ := fs_zone_sz;
  nr_zones_ := fs_zones;
  loop_bound := Z.to_nat fs_zone_sz;
  be_Open readonly exclusive := dev_io (ZoneFs_Open readonly exclusive) (Open_inv readonly exclusive);
  be_ListZones d := match ZoneFs_ListZones (proj1_sig d) with Ok z _ => z | _ => None end;
  be_Reset start := dev_io (ZoneFs_Reset start) (Reset_inv start);
  be_Finish start := dev_io (ZoneFs_Finish start) (Finish_inv start);
  be_Close start := dev_io (ZoneFs_Close start) (Close_inv start);
  be_Read size pos direct d :=
    let '(r, data, d') := dev_int (ZoneFs_Read size pos direct) (Read_inv size pos direct) (-1, []) d in
    (r, os_errno (zfs_os (proj1_sig d')), data, d');
  be_Write data pos d :=
    let '(r, d') := dev_int (ZoneFs_Write data pos) (Write_inv data pos) (-1) d in
    (r, ErrorToString (zfs_os (proj1_sig d')), d');
  be_Append data (l : L) d := (-1, ErrorToString (zfs_os (proj1_sig d)), (l, d));
  be_AppendSync (l : L) d := (-1, (l, d));
  be_InvalidateCache pos size := dev_int (ZoneFs_InvalidateCache pos size) (InvalidateCache_inv pos size) (-1);
  be_GetFilename := fs_mountpoint
|}.

Lemma be_Write_cases L data pos (d : ZDev) r err d' :
  be_Write (ZonedBlockDeviceBackend := zonefs_backend L) data pos d = (r, err, d') ->
  r = -1 /\ d' = d \/
  r < 0 /\ (forall a, ~ (pos <= a < pos + zlen data) -> zonefs_disk (proj1_sig d') a = zonefs_disk (proj1_sig d) a) \/
  r = Z.min (zlen data) (fs_zone_sz - pos mod fs_zone_sz) /\
  forall a, zonefs_disk (proj1_sig d') a = store (zonefs_disk (proj1_sig d)) pos (ztake r data) a.
Proof.
  simpl. destruct (dev_int _ _ _ d) as [r0 d0] eqn:E. intros [= <- _ <-].
  apply dev_int_inv in E. destruct (decide (opened (proj1_sig d))) as [Ho|Ho].
  - destruct (Write_ok data pos _ (proj2_sig d) Ho) as (r & s' & Hrun & _ & _ & Hout).
    rewrite Hrun in E. right. destruct E as [[= <- Hd]|[_ [[? [=]]|[[? [=]] _]]]]. by rewrite <- Hd.
  - left. destruct (unopened_stuck _ (proj2_sig d) Ho) as (_ & _ & _ & _ & _ & Hw). rewrite Hw in E.
    by destruct E as [[=]|[-> [[? [=]]|[_ ->]]]].
Qed.

Lemma be_Read_cases L size pos direct (d : ZDev) r errno data d' :
  be_Read (ZonedBlockDeviceBackend := zonefs_backend L) size pos direct d = (r, errno, data, d') ->
  (forall a, zonefs_disk (proj1_sig d') a = zonefs_disk (proj1_sig d) a) /\
  (r < 0 \/ 0 <= r <= Z.min (u64 size) (fs_zone_sz - pos mod fs_zone_sz) /\
             data = range (zonefs_disk (proj1_sig d)) pos r).
Proof.
  simpl. destruct (dev_int _ _ _ d) as [[r0 data0] d0] eqn:E. intros [= <- _ <- <-].
  apply dev_int_inv in E. destruct (decide (opened (proj1_sig d))) as [Ho|Ho].
  - destruct (Read_ok size pos direct _ (proj2_sig d) Ho) as (r & dt & s' & Hrun & _ & Hq & Hout).
    rewrite Hrun in E. destruct E as [[= <- <- Hd]|[_ [[? [=]]|[[? [=]] _]]]].
    rewrite Hd in Hq. split; [|done]. intros a. by apply quiet_disk.
  - destruct (unopened_stuck _ (proj2_sig d) Ho) as (_ & _ & _ & _ & Hr & _). rewrite Hr in E.
    destruct E as [[=]|[[= -> ->] [[? [=]]|[_ ->]]]]. split; [done|]. left. lia.
Qed.

Lemma other_zone start a :
  start mod fs_zone_sz = 0 -> ~ (start <= a < start + fs_zone_sz) -> a / fs_zone_sz <> start / fs_zone_sz.
Proof.
  intros H0 Ha He. pose proof (same_zone start a He) as Hd. pose proof (zone_offset a). lia.
Qed.

Lemma Reset_cases start (d : ZDev) :
  match ZoneFs_Reset start (proj1_sig d) with
  | Ok (offline, mc) s' => mc = (if (offline : bool) then 0 else fs_zone_sz) /\ reset_keeps start (proj1_sig d) s'
  | Err e s' => reset_keeps start (proj1_sig d) s' /\ ok e = false
  | Stuck _ => True
  end.
Proof.
  destruct (decide (opened (proj1_sig d))) as [Ho|Ho].
  - pose proof (Reset_ok start _ (proj2_sig d) Ho) as H.
    destruct (ZoneFs_Reset start (proj1_sig d)) as [[] ?|?|?]; [split; apply H..|done].
  - by rewrite (proj1 (unopened_stuck _ (proj2_sig d) Ho)).
Qed.

Lemma Finish_cases start (d : ZDev) :
  match ZoneFs_Finish start (proj1_sig d) with
  | Ok _ s' => forall a, zonefs_disk s' a = zonefs_disk (proj1_sig d) a
  | Err e s' => (forall a, zonefs_disk s' a = zonefs_disk (proj1_sig d) a) /\ ok e = false
  | Stuck _ => True
  end.
Proof.
  destruct (decide (opened (proj1_sig d))) as [Ho|Ho].
  - pose proof (Finish_ok start _ (proj2_sig d) Ho) as H.
    destruct (ZoneFs_Finish start (proj1_sig d)) as [u s1|e s1|u]; [|split; [|apply H]|done];
      intros b; apply quiet_disk, H.
  - by rewrite (proj1 (proj2 (unopened_stuck _ (proj2_sig d) Ho))).
Qed.

Lemma Close_cases start (d : ZDev) :
  match ZoneFs_Close start (proj1_sig d) with
  | Ok _ s' => forall a, zonefs_disk s' a = zonefs_disk (proj1_sig d) a
  | Err _ _ => False
  | Stuck _ => True
  end.
Proof.
  destruct (decide (opened (proj1_sig d))) as [Ho|Ho].
  - unfold ZoneFs_Close. destruct (put_close start _ (proj2_sig d) Ho) as (s' & -> & _ & Hq).
    intros a. by apply quiet_disk.
  - by rewrite (proj1 (proj2 (proj2 (unopened_stuck _ (proj2_sig d) Ho)))).
Qed.

#[export] Instance zonefs_backend_spec L : BackendSpec ZDev L (be := zonefs_backend L).
Proof.
  refine (@Build_BackendSpec ZDev L (zonefs_backend L) (fun d => zonefs_disk (proj1_sig d)) _ _ _ _ _ _ _ _ _ _ _ _ _);
    pose proof zonefs_geometry as (Hz & Hb & Hzb).
  - intros data pos d r err d' [[-> ->]|[[Hr _]|[-> Hst]]]%be_Write_cases Hr0; [lia|lia|].
    pose proof (zone_offset pos). pose proof (zlen_nonneg data). split_and!; [lia|lia|done].
  - intros data pos d r err d' [[-> ->]|[[Hr Ht]|[-> Hst]]]%be_Write_cases Hr0; [done|done|].
    pose proof (zone_offset pos). pose proof (zlen_nonneg data). lia.
  - intros size pos direct d r errno data d' [Hsame Hres]%be_Read_cases. split; [done|].
    intros Hs Hr. destruct Hres as [|[Hle ->]]; [lia|]. split; [|done].
    unfold u64, wrap in Hle. pose proof (Z.mod_le size (2 ^ 64)). lia.
  - intros start d offline mc d' E%dev_io_inv H0. pose proof (Reset_cases start d) as H. rewrite E in H.
    destruct H as [-> Hk]. simpl. split; [destruct offline; (split; [lia|]); [by rewrite Zmod_0_l|done]|].
    intros a Ha. apply Hk. by apply other_zone.
  - intros start d e d' [E|(_ & -> & _)]%dev_io_inv H0; [|done].
    pose proof (Reset_cases start d) as H. rewrite E in H. intros a Ha. apply H. by apply other_zone.
  - intros start d e d' [E|(_ & _ & ?)]%dev_io_inv; [|done].
    pose proof (Reset_cases start d) as H. rewrite E in H. apply H.
  - intros start d e d' [E|(_ & _ & ?)]%dev_io_inv; [|done].
    pose proof (Finish_cases start d) as H. rewrite E in H. apply H.
  - intros start d e d' [E|(_ & _ & ?)]%dev_io_inv; [|done].
    pose proof (Close_cases start d) as H. by rewrite E in H.
  - intros start d r d' E%dev_io_inv a. pose proof (Finish_cases start d) as H.
    destruct r as [e|[]]; [destruct E as [E|(_ & -> & _)]; [|done]|]; rewrite E in H; apply H.
  - intros start d r d' E%dev_io_inv a. pose proof (Close_cases start d) as H.
    destruct r as [e|[]]; [destruct E as [E|(_ & -> & _)]; [|done]|]; by rewrite E in H.
  - apply Hb.
  - apply Hb.
  - apply Hz.
Defined.
End zonefs_inv.

(** ** The number of open files *)

Inductive zonefs_op :=
  | OpReset (start : Z)
  | OpFinish (start : Z)
  | OpClose (start : Z)
  | OpInvalidateCache (pos size : Z)
  | OpRead (size pos : Z) (direct : bool)
  | OpWrite (data : bytes) (pos : Z).

Section bounded.
Context {W : Type} `{os : Posix W}.
Abbreviation FM := (M (ZoneFsBackend W)).
Implicit Types s : ZoneFsBackend W.

(** One call; the status goes to the caller. *)
Definition zonefs_exec (op : zonefs_op) : FM unit :=
  match op with
  | OpReset start => _ <- attempt (ZoneFs_Reset start) ;; ret tt
  | OpFinish start => _ <- attempt (ZoneFs_Finish start) ;; ret tt
  | OpClose start => _ <- attempt (ZoneFs_Close start) ;; ret tt
  | OpInvalidateCache pos size => _ <- ZoneFs_InvalidateCache pos size ;; ret tt
  | OpRead size pos direct => _ <- ZoneFs_Read size pos direct ;; ret tt
  | OpWrite data pos => _ <- ZoneFs_Write data pos ;; ret tt
  end.

Definition limit_of (a : Z) (k : fd_cache) : Z :=
  match k with WrFds => a | _ => ZENFS_ZONEFS_DEFAULT_MAX_LIMIT end.

(** Every cache has its limit and keeps to it. *)
Definition limited a s : Prop :=
  0 <= a < 2 ^ 32 /\ forall k, max_ (get_cache k s) = limit_of a k /\ cache_bounded (get_cache k s).

Lemma limit_of_u32 a k : 0 <= a < 2 ^ 32 -> 0 <= limit_of a k < 2 ^ 32.
Proof. destruct k; simpl; unfold ZENFS_ZONEFS_DEFAULT_MAX_LIMIT; lia. Qed.

Lemma limited_set_os a w s : limited a s -> limited a (set_os w s).
Proof. intros [Ha H]. split; [done|]. intros k. specialize (H k). by destruct k. Qed.

Lemma sys_limited {A} a (f : W -> A * W) : preserves (limited a) (sys f).
Proof. intros s Hs. unfold sys, zoom, call. destruct (f (zfs_os s)). by apply limited_set_os. Qed.
Lemma sys__limited a (f : W -> W) : preserves (limited a) (sys_ f).
Proof. apply preserves_modify. intros s. apply limited_set_os. Qed.
Lemma close_files_limited a l : preserves (limited a) (close_files l).
Proof. apply preserves_forM. intros p _. apply sys__limited. Qed.

Lemma close_files_run l s : exists w, close_files l s = Ok tt (set_os w s).
Proof.
  revert s. induction l as [|p l IH]; intros s; simpl.
  - exists (zfs_os s). by destruct s.
  - destruct (IH (set_os (os_close p.2 (zfs_os s)) s)) as [w Hw]. exists w. exact Hw.
Qed.

Lemma set_cache_limited a k c s :
  max_ c = max_ (get_cache k s) -> cache_bounded c -> limited a s -> limited a (set_cache k c s).
Proof.
  intros Hm Hb [Ha H]. split; [done|]. intros k'. pose proof (H k) as [Hk _]. specialize (H k').
  destruct k, k'; simpl in *; split; try apply H; try done; congruence.
Qed.

Lemma cache_erase_length zone l fd :
  cache_find zone l = Some fd -> (S (length (cache_erase zone l)) <= length l)%nat.
Proof.
  unfold cache_erase. induction l as [|[z f] l IH]; simpl; [done|]. destruct (Z.eqb_spec z zone) as [->|Hne].
  - intros _. rewrite filter_cons_False by (simpl; naive_solver).
    pose proof (length_filter (fun p : Z * Z => p.1 <> zone) l). lia.
  - intros H. rewrite filter_cons_True by (simpl; done). simpl. specialize (IH H). lia.
Qed.

Lemma Put_limited a k zone : preserves (limited a) (with_cache k (ZoneFsFileCache_Put zone)).
Proof.
  intros s Hs. unfold with_cache, ZoneFsFileCache_Put.
  destruct (cache_find zone (list_ (get_cache k s))) as [fd|] eqn:Ef.
  - apply set_cache_limited; [done| |done]. destruct Hs as [_ Hs]. intros Hm. simpl in *.
    pose proof (proj2 (Hs k) Hm). apply cache_erase_length in Ef. unfold zlen in *. lia.
  - by apply set_cache_limited; [| apply Hs|].
Qed.

Lemma Get_limited a k zone name : preserves (limited a) (ZoneFsFileCache_Get k zone name).
Proof.
  intros s Hs. unfold ZoneFsFileCache_Get. unfold bind at 1, gets.
  destruct (cache_find zone (list_ (get_cache k s))) as [fd|] eqn:Ef.
  - unfold bind, with_cache, ret. apply set_cache_limited; [done| |done]. intros Hm. simpl in *.
    pose proof (proj2 (proj2 Hs k) Hm). apply cache_erase_length in Ef.
    unfold zlen in *. simpl length. lia.
  - unfold sys, zoom, call, bind at 1. destruct (os_open name _ (zfs_os s)) as [fd w] eqn:Eo.
    destruct (fd =? -1); [by apply limited_set_os|]. unfold bind at 1, with_cache at 1. cbn beta iota.
    set (c := get_cache k (set_os w s)). set (lim := max_ (get_cache k s) -32 1).
    destruct (close_files_run (ZoneFsFileCache_Prune lim c).2 (set_cache k (ZoneFsFileCache_Prune lim c).1 (set_os w s)))
      as [w' Hw]. simpl in Hw |- *. unfold bind at 1. rewrite Hw. unfold bind, with_cache, ret.
    assert (forall c1 c2 w1, set_cache k c2 (set_os w1 (set_cache k c1 (set_os w s))) =
      set_cache k c2 (set_os w1 s)) as -> by by destruct k.
    assert (max_ c = max_ (get_cache k s)) as Hc by (unfold c; by destruct k).
    assert (forall c1 w1, get_cache k (set_os w1 (set_cache k c1 (set_os w s))) = c1) as -> by by destruct k.
    simpl. apply set_cache_limited; [by destruct k| |by apply limited_set_os].
    intros Hm. simpl in *. destruct Hs as [Ha Hs]. pose proof (limit_of_u32 a k Ha) as Hl.
    rewrite <- (proj1 (Hs k)), <- Hc in Hl. rewrite zlen_cons, zlen_ztake; unfold lim; rewrite <- Hc, u32_small; lia.
Qed.

#[local] Hint Resolve sys_limited sys__limited close_files_limited Put_limited Get_limited : preserves.

Lemma zone_of_limited a p : preserves (limited a) (zone_of p).
Proof. unfold zone_of. preserves_solve. Qed.
#[local] Hint Resolve zone_of_limited : preserves.
Lemma LBAToZoneFile_limited a p : preserves (limited a) (LBAToZoneFile p).
Proof. unfold LBAToZoneFile. preserves_solve. Qed.
Lemma LBAToZoneOffset_limited a p : preserves (limited a) (LBAToZoneOffset p).
Proof. unfold LBAToZoneOffset. preserves_solve. Qed.
Lemma fail_errno_limited {A} a st what : preserves (limited a) (fail_errno st what : FM A).
Proof. unfold fail_errno. preserves_solve. Qed.
#[local] Hint Resolve LBAToZoneFile_limited LBAToZoneOffset_limited fail_errno_limited : preserves.
Lemma GetZoneFile_limited a p flags : preserves (limited a) (GetZoneFile p flags).
Proof. unfold GetZoneFile. preserves_solve. Qed.
Lemma PutZoneFile_limited a p flags : preserves (limited a) (PutZoneFile p flags).
Proof. unfold PutZoneFile. preserves_solve. Qed.
#[local] Hint Resolve GetZoneFile_limited PutZoneFile_limited : preserves.

Lemma Read_loop_limited a fd fuel n off read buf : preserves (limited a) (ZoneFs_Read_loop fuel fd n off read buf).
Proof. revert n off read buf. induction fuel as [|fuel IH]; intros; simpl; preserves_solve. Qed.
Lemma Write_loop_limited a fd pos fuel data n off written x :
  preserves (limited a) (ZoneFs_Write_loop fuel fd pos data n off written x).
Proof. revert data n off written x. induction fuel as [|fuel IH]; intros; simpl; preserves_solve. Qed.
#[local] Hint Resolve Read_loop_limited Write_loop_limited : preserves.

Lemma zonefs_exec_limited a op : preserves (limited a) (zonefs_exec op).
Proof.
  destruct op; simpl; unfold ZoneFs_Reset, ZoneFs_Finish, ZoneFs_Close, ZoneFs_InvalidateCache, ZoneFs_Read,
    ZoneFs_Write; preserves_solve.
Qed.

Abbreviation fresh_limits := (limited ZENFS_ZONEFS_DEFAULT_MAX_LIMIT).

Lemma new_limited mp (w : W) : fresh_limits (ZoneFsBackend_new mp w).
Proof. split; [done|]. by intros []. Qed.

Lemma hoare_limited {A B} a (m : FM A) (k : A -> FM B) Q :
  preserves (limited a) m -> (forall r, hoare (limited a) (k r) Q (fun _ => True)) ->
  hoare (limited a) (bind m k) Q (fun _ => True).
Proof.
  intros Hm Hk. eapply hoare_bind; [|exact Hk]. eapply hoare_conseq; [by apply preserves_hoare|done..].
Qed.

Lemma limits_limited a :
  hoare (limited a) ZoneFs_limits (fun r s => limited a s /\ 0 <= r.1 < 2 ^ 32) (fun _ => True).
Proof.
  unfold ZoneFs_limits. apply hoare_limited; [apply preserves_gets|]. intros mp.
  apply hoare_limited.
  { unfold GetBackingDevice. preserves_solve. }
  intros dev. destruct (bool_decide (dev = "")); [by apply hoare_ret|].
  intros s Hs. unfold GetSysFsValue, bind, gets, ret. split; [done|]. simpl.
  destruct (os_sysfs _ _); [apply extract_unsigned_range|done].
Qed.

Lemma Resize_limited a b s :
  limited b s -> 0 < b -> 0 <= a < 2 ^ 32 ->
  limited a (set_cache WrFds (ZoneFsFileCache_Resize a (wr_fds_ s)).1 s).
Proof.
  intros [_ Hs] Hb Ha. split; [done|].
  pose proof (Hs RdFds) as [H1 H2]. pose proof (Hs DirectRdFds) as [H3 H4]. pose proof (Hs WrFds) as [H5 H6].
  unfold ZoneFsFileCache_Resize. intros []; simpl in *; [done|done|].
  destruct (Z.ltb_spec a (max_ (wr_fds_ s))); simpl; (split; [done|]); intros Hm; simpl.
  - rewrite zlen_ztake; lia.
  - simpl in Hm. specialize (H6 ltac:(lia)). lia.
Qed.

Lemma Open_limited readonly exclusive :
  hoare fresh_limits (ZoneFs_Open readonly exclusive) (fun r s => limited r.1 s) (fun _ => True).
Proof.
  assert (forall A st what, hoare fresh_limits (fail_errno st what : FM A) (fun _ _ => False) (fun _ => True)) as Hfail
    by (intros A st what s Hs; done).
  unfold ZoneFs_Open. apply hoare_limited; [preserves_solve|intros mp]. cbv zeta.
  apply hoare_limited; [preserves_solve|intros [dir|]]; [|by eapply hoare_conseq; [apply Hfail|..]].
  apply hoare_limited; [by apply preserves_modify|intros _].
  apply hoare_limited; [preserves_solve|intros fd].
  destruct (fd <? 0); [by eapply hoare_conseq; [apply Hfail|..]|].
  apply hoare_limited; [preserves_solve|intros lk].
  destruct (lk =? -1).
  { apply hoare_limited; [preserves_solve|intros _]. by eapply hoare_conseq; [apply Hfail|..]. }
  apply hoare_limited; [preserves_solve|intros [st|]].
  2: { apply hoare_limited; [preserves_solve|intros _]. by eapply hoare_conseq; [apply Hfail|..]. }
  apply hoare_limited; [by apply preserves_modify|intros _].
  eapply hoare_bind; [apply limits_limited|]. intros lim s [Hs Ha]. unfold bind at 1, with_cache.
  pose proof (Resize_limited lim.1 _ _ Hs ltac:(done) Ha) as Hr.
  simpl. destruct (ZoneFsFileCache_Resize lim.1 (wr_fds_ s)) as [c dropped]. simpl in Hr.
  destruct (close_files_run dropped (set_cache WrFds c s)) as [w Hw].
  rewrite (bind_ok _ _ _ _ _ Hw). unfold bind, modify, ret. by apply (limited_set_os _ w) in Hr.
Qed.

End bounded.

Section zonefs_theorems.
Context {W : Type} `{mount : ZoneFsMount W}.

Lemma new_inv (w : W) : zfs_inv_with [] (ZoneFsBackend_new fs_mountpoint w).
Proof.
  split_and!; [done|by left| |by intros []; apply cache_new_wf]. split; constructor.
Qed.

(** a write through zonefs either fails, having touched at most the range it was
    asked to write, or stores the data up to the end of the zone and nothing else;
    it always returns, and the caches of open files stay well formed.  *)
Theorem zonefs_write_correct data p (s : ZoneFsBackend W) :
  zfs_inv_with [] s -> opened s ->
  exists r s', ZoneFs_Write data p s = Ok r s' /\ zfs_inv_with [] s' /\ opened s' /\
    (r < 0 /\ (forall a, ~ (p <= a < p + zlen data) -> zonefs_disk s' a = zonefs_disk s a) \/
     r = Z.min (zlen data) (fs_zone_sz - p mod fs_zone_sz) /\
     forall a, zonefs_disk s' a = store (zonefs_disk s) p (ztake r data) a).
Proof.
  intros Hs Ho. destruct (Write_ok data p s Hs Ho) as (r & s' & Hrun & Hs' & (_ & Hz & _) & Hout).
  exists r, s'. split_and!; try done. unfold opened. congruence.
Qed.

(** C18: the zonefs backend is a device in the sense of [BackendSpec], its contents
    being those of the zone files one after the other; and a successful [Open], which
    reads the geometry of the file system, makes it usable without touching them. *)
Theorem zonefs_implements_backend (L : Type) :
  (exists bspec : BackendSpec ZDev L (be := zonefs_backend L),
     forall d a, @disk _ _ _ bspec d a = zonefs_disk (proj1_sig d) a) /\
  forall readonly exclusive d lim d',
    be_Open (ZonedBlockDeviceBackend := zonefs_backend L) readonly exclusive d = (inr lim, d') ->
    opened (proj1_sig d') /\ forall a, zonefs_disk (proj1_sig d') a = zonefs_disk (proj1_sig d) a.
Proof.
  split; [by exists (zonefs_backend_spec L)|].
  intros readonly exclusive d [a o] d' E%dev_io_inv.
  pose proof (Open_ok readonly exclusive _ (proj2_sig d)) as H. rewrite E in H.
  destruct H as (_ & Ho & Hs & _). split; [done|]. intros b. apply Hs.
Qed.

(** after [Open], whatever calls follow, the files zonefs keeps open for writing
    never exceed the limit on active zones the kernel reports, unless that is 0, and the
    files open for reading never exceed the default limit. *)
Theorem zonefs_cache_bounded readonly exclusive mp (w : W) a o s ops s' :
  ZoneFs_Open readonly exclusive (ZoneFsBackend_new mp w) = Ok (a, o) s ->
  forM ops zonefs_exec s = Ok tt s' ->
  (0 < a -> zlen (list_ (wr_fds_ s')) <= a) /\
  zlen (list_ (rd_fds_ s')) <= ZENFS_ZONEFS_DEFAULT_MAX_LIMIT /\
  zlen (list_ (direct_rd_fds_ s')) <= ZENFS_ZONEFS_DEFAULT_MAX_LIMIT.
Proof.
  intros Hopen Hrun. pose proof (Open_limited readonly exclusive _ (new_limited mp w)) as H.
  rewrite Hopen in H.
  assert (limited a s') as [_ Hl].
  { pose proof (preserves_forM (limited a) ops zonefs_exec (fun op _ => zonefs_exec_limited a op) s H) as Hp.
    by rewrite Hrun in Hp. }
  pose proof (Hl WrFds) as [H1 H2]. pose proof (Hl RdFds) as [H3 H4].
  pose proof (Hl DirectRdFds) as [H5 H6]. unfold cache_bounded in *. simpl in *.
  rewrite H1 in H2. rewrite H3 in H4. rewrite H5 in H6. unfold ZENFS_ZONEFS_DEFAULT_MAX_LIMIT in *.
  split_and!; [done|apply H4; lia|apply H6; lia].
Qed.
End zonefs_theorems.

(** ** Examples *)

(** A backend that has just been created, and one that is open. *)
Definition zfs_new : ZDev := exist _ _ (new_inv mo_fresh).
Definition zfs_open : ZoneFsBackend MemOs :=
  mkZoneFs "/mnt" 512 1024 4 (-1) false (ZoneFsFileCache_new O_RDONLY)
    (ZoneFsFileCache_new (Z.lor O_RDONLY O_DIRECT)) (ZoneFsFileCache_new (Z.lor O_WRONLY O_DIRECT)) mo_fresh.

Lemma zfs_open_inv : zfs_inv_with [] zfs_open.
Proof.
  split_and!; [done|by right| |by intros []; apply cache_new_wf]. split; constructor.
Qed.

Lemma zonefs_write_correct_witness :
  exists r s', ZoneFs_Write (zeros 700) 1024 zfs_open = Ok r s' /\ r = 700 /\
    forall a, zonefs_disk s' a = store (zonefs_disk zfs_open) 1024 (ztake 700 (zeros 700)) a.
Proof.
  destruct (zonefs_write_correct (zeros 700) 1024 zfs_open zfs_open_inv eq_refl)
    as (r & s' & Hrun & _ & _ & Hout).
  exists r, s'. split; [exact Hrun|].
  assert (r = 700) as ->.
  { assert (match ZoneFs_Write (zeros 700) 1024 zfs_open with Ok r _ => r | _ => 0 end = 700) as H
      by (vm_compute; reflexivity).
    rewrite Hrun in H. exact H. }
  split; [done|]. destruct Hout as [[H _]|[_ H]]; [exfalso; lia|exact H].
Defined.

Lemma zonefs_implements_backend_witness :
  let r := be_Open (ZonedBlockDeviceBackend := zonefs_backend MemLog) false true zfs_new in
  r.1 = inr (12, 12) /\ opened (proj1_sig r.2).
Proof.
  set (r := be_Open _ _ _).
  assert (r.1 = inr (12, 12)) as H by (vm_compute; reflexivity). split; [exact H|].
  refine (proj1 (proj2 (zonefs_implements_backend MemLog) false true zfs_new (12, 12) r.2 _)).
  rewrite <- H. apply surjective_pairing.
Defined.

Lemma zonefs_cache_bounded_witness :
  exists s s', ZoneFs_Open false true (ZoneFsBackend_new "/mnt" mo_fresh) = Ok (12, 12) s /\
    forM [OpWrite (zeros 512) 0; OpWrite (zeros 512) 1024; OpRead 512 0 false] zonefs_exec s = Ok tt s' /\
    zlen (list_ (wr_fds_ s')) <= 12.
Proof.
  do 2 eexists. split; [vm_compute; reflexivity|]. split; [vm_compute; reflexivity|].
  eapply (zonefs_cache_bounded false true "/mnt" mo_fresh 12 12 _
    [OpWrite (zeros 512) 0; OpWrite (zeros 512) 1024; OpRead 512 0 false]);
    [vm_compute; reflexivity|vm_compute; reflexivity|done].
Defined.
