(* ===== verification/ZbdLib.v ===== *)
(** * The libzbd backend

    [ZbdlibBackend] (zbdlib_zenfs.cc, zbdlib_zenfs.h), built without
    [REORDER_WAL_TEST]: the device as a zoned block device file.  The functions of
    libzbd are the fields of [LibZbd]; reads, writes and the scheduler's sysfs file go
    through the operating system of Posix.v, appends through the log of SZD. *)

From S2P Require Import Prelude Status Device MemDevice Posix MemOs.

(** The fields of [struct zbd_info] and [struct zbd_zone] the code reads. *)
Inductive zbd_dev_model := ZBD_DM_HOST_MANAGED | ZBD_DM_HOST_AWARE | ZBD_DM_NOT_ZONED.
Record zbd_info := mkInfo {
  pblock_size : Z; zone_size : Z; nr_zones : Z;
  max_nr_active_zones : Z; max_nr_open_zones : Z; model : zbd_dev_model
}.

Inductive zbd_type := ZBD_ZONE_TYPE_CNV | ZBD_ZONE_TYPE_SWR | ZBD_ZONE_TYPE_SWP.
Inductive zbd_cond :=
  | ZBD_ZONE_COND_NOT_WP | ZBD_ZONE_COND_EMPTY | ZBD_ZONE_COND_IMP_OPEN | ZBD_ZONE_COND_EXP_OPEN
  | ZBD_ZONE_COND_CLOSED | ZBD_ZONE_COND_FULL | ZBD_ZONE_COND_RDONLY | ZBD_ZONE_COND_OFFLINE.
#[export] Instance zbd_dev_model_eq_dec : EqDecision zbd_dev_model.
Proof. solve_decision. Defined.
#[export] Instance zbd_type_eq_dec : EqDecision zbd_type.
Proof. solve_decision. Defined.
#[export] Instance zbd_cond_eq_dec : EqDecision zbd_cond.
Proof. solve_decision. Defined.
Record zbd_zone := mkZbdZone {
  zbd_zone_type : zbd_type; zbd_zone_cond : zbd_cond;
  zbd_zone_start : Z; zbd_zone_capacity : Z; zbd_zone_wp : Z
}.
Definition has_cond (c : zbd_cond) (z : zbd_zone) : bool := bool_decide (zbd_zone_cond z = c).

Class LibZbd (W : Type) := {
  (** name, flags; the descriptor or a negative number, and the device's description *)
  zbd_open : string -> Z -> W -> Z * zbd_info * W;
  (** descriptor, offset, length, all zones; [None] when it fails *)
  zbd_list_zones : Z -> Z -> Z -> W -> option (list zbd_zone);
  (** the zones of the report, at most one being asked for *)
  zbd_report_zones : Z -> Z -> Z -> W -> option (list zbd_zone);
  zbd_reset_zones : Z -> Z -> Z -> W -> Z * W;
  zbd_finish_zones : Z -> Z -> Z -> W -> Z * W;
  zbd_close_zones : Z -> Z -> Z -> W -> Z * W;
  (** [errno = e] *)
  set_errno : Z -> W -> W
}.

(** The accessors [ZoneIsSwr] to [ZoneWp]. *)
Definition Zbdlib_zone (z : zbd_zone) : zone_rep :=
  mkZoneRep (bool_decide (zbd_zone_type z = ZBD_ZONE_TYPE_SWR)) (has_cond ZBD_ZONE_COND_OFFLINE z)
    (negb (has_cond ZBD_ZONE_COND_FULL z || has_cond ZBD_ZONE_COND_OFFLINE z || has_cond ZBD_ZONE_COND_RDONLY z))
    (has_cond ZBD_ZONE_COND_IMP_OPEN z || has_cond ZBD_ZONE_COND_EXP_OPEN z || has_cond ZBD_ZONE_COND_CLOSED z)
    (has_cond ZBD_ZONE_COND_IMP_OPEN z || has_cond ZBD_ZONE_COND_EXP_OPEN z)
    (zbd_zone_start z) (zbd_zone_capacity z) (zbd_zone_wp z).

Record ZbdlibBackend (W : Type) := mkZbdlib {
  filename_ : string;
  read_f_ : Z;
  read_direct_f_ : Z;
  write_f_ : Z;
  zl_block_sz_ : Z;
  zl_zone_sz_ : Z;
  zl_nr_zones_ : Z;
  zl_os : W
}.
Arguments mkZbdlib {W} _ _ _ _ _ _ _ _.
Arguments filename_ {W} _.
Arguments read_f_ {W} _.
Arguments read_direct_f_ {W} _.
Arguments write_f_ {W} _.
Arguments zl_block_sz_ {W} _.
Arguments zl_zone_sz_ {W} _.
Arguments zl_nr_zones_ {W} _.
Arguments zl_os {W} _.

Definition ZbdlibBackend_new {W} (bdevname : string) (w : W) : ZbdlibBackend W :=
  mkZbdlib ("/dev/" +:+ bdevname) (-1) (-1) (-1) 0 0 0 w.

Definition newline : string := String (Ascii.ascii_of_nat 10) EmptyString.

(** [getline] *)
Fixpoint first_line (s : string) : string :=
  match s with
  | String c s' => if Z.of_N (Ascii.N_of_ascii c) =? 10 then EmptyString else String c (first_line s')
  | EmptyString => EmptyString
  end.

Section zbdlib.
Context {W L : Type} `{os : Posix W} `{zbd : LibZbd W} `{szd : SZDOnceLog W L}.
Abbreviation LM := (M (ZbdlibBackend W)).

Definition zl_set_os (w : W) (s : ZbdlibBackend W) : ZbdlibBackend W :=
  mkZbdlib (filename_ s) (read_f_ s) (read_direct_f_ s) (write_f_ s) (zl_block_sz_ s) (zl_zone_sz_ s)
    (zl_nr_zones_ s) w.
Definition set_fds (rd direct wr : Z) (s : ZbdlibBackend W) : ZbdlibBackend W :=
  mkZbdlib (filename_ s) rd direct wr (zl_block_sz_ s) (zl_zone_sz_ s) (zl_nr_zones_ s) (zl_os s).
Definition set_info (info : zbd_info) (s : ZbdlibBackend W) : ZbdlibBackend W :=
  mkZbdlib (filename_ s) (read_f_ s) (read_direct_f_ s) (write_f_ s) (pblock_size info) (zone_size info)
    (nr_zones info) (zl_os s).
Definition zl_sys {A} (f : W -> A * W) : LM A := zoom zl_os zl_set_os (call f).
Definition zl_fail_errno {A} (what : string) : LM A :=
  e <- gets (fun s => ErrorToString (zl_os s)) ;; fail (InvalidArgument (what +:+ e)).

Definition CheckScheduler : LM unit :=
  s <- gets filename_ ;;
  let path := "/sys/block/" +:+ String.substring 5 (String.length s) s +:+ "/queue/scheduler" in
  f <- gets (fun s => os_sysfs path (zl_os s)) ;;
  match f with
  | None => fail (InvalidArgument ("Failed to open " +:+ path))
  | Some text =>
      match String.index 0 "[mq-deadline]" (first_line text) with
      | None => fail (InvalidArgument "Current ZBD scheduler is not mq-deadline, set it to mq-deadline.")
      | Some _ => ret tt
      end
  end.

Definition Zbdlib_Open (readonly exclusive : bool) : LM (Z * Z) :=
  name <- gets filename_ ;;
  let* (rd, info) := zl_sys (zbd_open name (if exclusive then Z.lor O_RDONLY O_EXCL else O_RDONLY)) in
  modify (fun s => set_fds rd (read_direct_f_ s) (write_f_ s) s) ;;
  if rd <? 0 then zl_fail_errno "Failed to open zoned block device for read: "
  else
    let* (direct, info) := zl_sys (zbd_open name (Z.lor O_RDONLY O_DIRECT)) in
    modify (fun s => set_fds rd direct (write_f_ s) s) ;;
    if direct <? 0 then zl_fail_errno "Failed to open zoned block device for direct read: "
    else
      info <- (if readonly then modify (fun s => set_fds rd direct (-1) s) ;; ret info
               else
                 let* (wr, info) := zl_sys (zbd_open name (Z.lor O_WRONLY O_DIRECT)) in
                 modify (fun s => set_fds rd direct wr s) ;;
                 if wr <? 0 then zl_fail_errno "Failed to open zoned block device for write: "
                 else ret info) ;;
      if bool_decide (model info <> ZBD_DM_HOST_MANAGED) then
        fail (NotSupported "Not a host managed block device")
      else
        CheckScheduler ;;
        modify (set_info info) ;;
        ret (max_nr_active_zones info, max_nr_open_zones info).

Definition Zbdlib_ListZones : LM (option (list zone_rep)) :=
  gets (fun s =>
    option_map (map Zbdlib_zone)
      (zbd_list_zones (read_f_ s) 0 (zl_zone_sz_ s *64 zl_nr_zones_ s) (zl_os s))).

Definition Zbdlib_Reset (start : Z) : LM (bool * Z) :=
  s <- get ;;
  r <- zl_sys (zbd_reset_zones (write_f_ s) start (zl_zone_sz_ s)) ;;
  if negb (r =? 0) then fail (IOError ("Zone reset failed" +:+ newline))
  else
    report <- gets (fun s => zbd_report_zones (read_f_ s) start (zl_zone_sz_ s) (zl_os s)) ;;
    match report with
    | Some [z] =>
        if has_cond ZBD_ZONE_COND_OFFLINE z then ret (true, 0) else ret (false, zbd_zone_capacity z)
    | _ => fail (IOError ("Zone report failed" +:+ newline))
    end.

Definition Zbdlib_Finish (start : Z) : LM unit :=
  s <- get ;;
  r <- zl_sys (zbd_finish_zones (write_f_ s) start (zl_zone_sz_ s)) ;;
  if negb (r =? 0) then fail (IOError ("Zone finish failed" +:+ newline)) else ret tt.

Definition Zbdlib_Close (start : Z) : LM unit :=
  s <- get ;;
  r <- zl_sys (zbd_close_zones (write_f_ s) start (zl_zone_sz_ s)) ;;
  if negb (r =? 0) then fail (IOError ("Zone close failed" +:+ newline)) else ret tt.

Definition Zbdlib_InvalidateCache (pos size : Z) : LM Z :=
  s <- get ;; zl_sys (os_fadvise (read_f_ s) pos size).

Definition Zbdlib_Read (size pos : Z) (direct : bool) : LM (Z * bytes) :=
  s <- get ;;
  let* (r, data) := zl_sys (os_pread (if direct then read_direct_f_ s else read_f_ s) (u64 size) pos) in
  ret (to_int r, data).

Definition Zbdlib_Write (data : bytes) (pos : Z) : LM Z :=
  s <- get ;;
  r <- zl_sys (os_pwrite (write_f_ s) data pos) ;;
  ret (to_int r).

(** The log is appended to, not synced; a failed append leaves no reason in [errno]. *)
Definition Zbdlib_Append (data : bytes) (wal : L) : LM (Z * L) :=
  let* (b, wal') := zl_sys (fun w => let '(b, (l, w')) := szd_AsyncAppend data wal w in ((b, l), w')) in
  if (b : bool) then ret (zlen data, wal')
  else modify (fun s => zl_set_os (set_errno 0 (zl_os s)) s) ;; ret (-1, wal').

Definition Zbdlib_AppendSync (wal : L) : LM Z := ret 0.
End zbdlib.

(** ** What the theorems rely on *)

(** The documented limit of one transfer on Linux. *)
Definition MAX_RW_COUNT : Z := 0x7ffff000.

Class ZbdSpec (W L : Type) `{spec : PosixSpec W} `{zbd : LibZbd W} `{szd : SZDOnceLog W L} := {
  zl_name : string;
  zl_zone : Z;
  zl_block : Z;
  zl_nr : Z;
  zl_geometry : 0 < zl_zone /\ 0 < zl_block < 2 ^ 32;
  fd_negative : forall w fd, fd < 0 -> fd_file w fd = None;
  pread_max : forall fd count offset w r data w', os_pread fd count offset w = (r, data, w') ->
    r <= MAX_RW_COUNT /\ (fd_file w fd = None -> r = -1);
  pwrite_max : forall fd data offset w r w', os_pwrite fd data offset w = (r, w') ->
    r <= MAX_RW_COUNT /\ (fd_file w fd = None -> r = -1);
  zbd_open_ok : forall name flags w fd info w', zbd_open name flags w = (fd, info, w') ->
    (forall f a, content w' f a = content w f a) /\
    (forall g f, fd_file w g = Some f -> fd_file w' g = Some f) /\
    (0 <= fd -> fd_file w' fd = Some name /\
       (name = zl_name -> zone_size info = zl_zone /\ pblock_size info = zl_block /\ nr_zones info = zl_nr));
  (** A reset touches the zones it was asked to reset. *)
  zbd_reset_ok : forall fd start len w r w', zbd_reset_zones fd start len w = (r, w') ->
    (forall g, fd_file w' g = fd_file w g) /\
    forall a, ~ (start <= a < start + len) -> content w' zl_name a = content w zl_name a;
  zbd_finish_ok : forall fd start len w r w', zbd_finish_zones fd start len w = (r, w') ->
    (forall g, fd_file w' g = fd_file w g) /\ forall f a, content w' f a = content w f a;
  zbd_close_ok : forall fd start len w r w', zbd_close_zones fd start len w = (r, w') ->
    (forall g, fd_file w' g = fd_file w g) /\ forall f a, content w' f a = content w f a;
  (** A zone has at most the capacity of its size, in whole blocks. *)
  zbd_report_ok : forall fd start len w z, zbd_report_zones fd start len w = Some [z] ->
    0 <= zbd_zone_capacity z <= zl_zone /\ zbd_zone_capacity z mod zl_block = 0;
  set_errno_ok : forall e w g, fd_file (set_errno e w) g = fd_file w g;
  append_fds : forall data l w b l' w', szd_AsyncAppend data l w = (b, (l', w')) ->
    forall g, fd_file w' g = fd_file w g
}.

Section zbdlib_props.
Context {W L : Type} `{zspec : ZbdSpec W L}.
Abbreviation LM := (M (ZbdlibBackend W)).
Implicit Types (s : ZbdlibBackend W) (w : W).

Definition zl_disk s (a : Z) : byte := content (zl_os s) zl_name a.

(** A descriptor is closed or open on the device. *)
Definition fd_ok w (fd : Z) : Prop := fd < 0 \/ fd_file w fd = Some zl_name.
Definition zl_inv s : Prop :=
  filename_ s = zl_name /\ (zl_zone_sz_ s = 0 \/ zl_zone_sz_ s = zl_zone) /\
  fd_ok (zl_os s) (read_f_ s) /\ fd_ok (zl_os s) (read_direct_f_ s) /\ fd_ok (zl_os s) (write_f_ s).

Lemma zl_sys_run {A} (f : W -> A * W) s a w' : f (zl_os s) = (a, w') -> zl_sys f s = Ok a (zl_set_os w' s).
Proof. intros H. unfold zl_sys, zoom, call. by rewrite H. Qed.

(** A call that keeps the descriptors in use. *)
Lemma zl_set_os_inv s w' :
  (forall g f, fd_file (zl_os s) g = Some f -> fd_file w' g = Some f) -> zl_inv s -> zl_inv (zl_set_os w' s).
Proof.
  intros Hf (H1 & H2 & H3 & H4 & H5). split; [done|]. split; [done|].
  split_and!; simpl; [destruct H3; [by left|]|destruct H4; [by left|]|destruct H5; [by left|]]; right; auto.
Qed.

Lemma zl_call_inv {A} (f : ZbdlibBackend W -> W -> A * W) :
  (forall s a w', f s (zl_os s) = (a, w') -> forall g, fd_file w' g = fd_file (zl_os s) g) ->
  preserves zl_inv (s <- get ;; zl_sys (f s)).
Proof.
  intros Hf s Hs. unfold bind, get. destruct (f s (zl_os s)) as [a w'] eqn:E.
  rewrite (zl_sys_run _ _ _ _ E). apply zl_set_os_inv; [|done].
  intros g h Hg. by rewrite (Hf _ _ _ E).
Qed.

(** A descriptor is set to what [zbd_open] returned. *)
Lemma zl_open_inv s name flags fd info w' :
  zbd_open name flags (zl_os s) = (fd, info, w') -> name = zl_name -> zl_inv s ->
  zl_inv (zl_set_os w' s) /\ fd_ok w' fd /\ forall a, zl_disk (zl_set_os w' s) a = zl_disk s a.
Proof.
  intros E -> Hs. destruct (zbd_open_ok _ _ _ _ _ _ E) as (Hc & Hf & Hfd).
  split_and!; [by apply zl_set_os_inv| |intros a; apply Hc].
  destruct (Z.ltb_spec fd 0); [by left|]. right. by apply Hfd.
Qed.

(** ** Opening *)

(** [s'] is a state of the same device. *)
Definition zl_keeps s s' : Prop := zl_inv s' /\ forall a, zl_disk s' a = zl_disk s a.

Lemma zl_keeps_trans s1 s2 s3 : zl_keeps s1 s2 -> zl_keeps s2 s3 -> zl_keeps s1 s3.
Proof. intros [_ H1] [H2 H3]. split; [done|]. intros a. by rewrite H3. Qed.

(** One [zbd_open] and the assignment of its result. *)
Lemma zl_open_step s flags (set : Z -> ZbdlibBackend W -> ZbdlibBackend W) :
  zl_inv s ->
  (forall fd w', zl_inv (zl_set_os w' s) -> fd_ok w' fd -> zl_inv (set fd (zl_set_os w' s))) ->
  (forall fd w', zl_os (set fd (zl_set_os w' s)) = w') ->
  exists fd info w', zl_sys (zbd_open zl_name flags) s = Ok (fd, info) (zl_set_os w' s) /\
    zl_keeps s (set fd (zl_set_os w' s)) /\ fd_ok w' fd /\
    (0 <= fd -> zone_size info = zl_zone /\ pblock_size info = zl_block /\ nr_zones info = zl_nr).
Proof.
  intros Hs Hset Hos. destruct (zbd_open zl_name flags (zl_os s)) as [[fd info] w'] eqn:E.
  destruct (zl_open_inv s zl_name flags fd info w' E eq_refl Hs) as (Hi & Hfd & Hd).
  exists fd, info, w'. split; [by apply zl_sys_run|]. split_and!; [|done|].
  - split; [by apply Hset|]. intros a. unfold zl_disk. rewrite Hos. apply Hd.
  - intros H0. by apply (zbd_open_ok _ _ _ _ _ _ E).
Qed.

Lemma CheckScheduler_run s :
  match CheckScheduler s with Ok _ s' => s' = s | Err e s' => s' = s /\ ok e = false | Stuck _ => False end.
Proof.
  unfold CheckScheduler, bind, gets, fail, ret. destruct (os_sysfs _ _); [|done]. by destruct (String.index _ _ _).
Qed.

(** What a successful [Open] leaves. *)
Definition zl_opened (readonly : bool) s : Prop :=
  0 <= read_f_ s /\ 0 <= read_direct_f_ s /\ (if readonly then write_f_ s = -1 else 0 <= write_f_ s) /\
  zl_zone_sz_ s = zl_zone /\ zl_block_sz_ s = zl_block /\ zl_nr_zones_ s = zl_nr.

Definition open_outcome (readonly : bool) s (r : result (ZbdlibBackend W) (Z * Z)) : Prop :=
  match r with
  | Ok _ s' => zl_keeps s s' /\ zl_opened readonly s' /\ CheckScheduler s' = Ok tt s'
  | Err e s' => zl_keeps s s' /\ ok e = false
  | Stuck _ => False
  end.

(** The checks that follow once the descriptors are open. *)
Lemma Zbdlib_Open_tail readonly info s0 s :
  zl_keeps s0 s -> 0 <= read_f_ s -> 0 <= read_direct_f_ s ->
  (if (readonly : bool) then write_f_ s = -1 else 0 <= write_f_ s) ->
  zone_size info = zl_zone /\ pblock_size info = zl_block /\ nr_zones info = zl_nr ->
  open_outcome readonly s0
    ((if bool_decide (model info <> ZBD_DM_HOST_MANAGED) then
        fail (NotSupported "Not a host managed block device")
      else CheckScheduler ;; modify (set_info info) ;;
           ret (max_nr_active_zones info, max_nr_open_zones info)) s).
Proof.
  intros Hk H1 H2 H3 (G1 & G2 & G3). destruct (bool_decide (model info <> ZBD_DM_HOST_MANAGED)); [done|].
  unfold bind at 1. pose proof (CheckScheduler_run s) as Hc.
  destruct (CheckScheduler s) as [[] s1|e s1|] eqn:Ec; [subst s1|destruct Hc as [-> ?]; done|done].
  unfold bind, modify, ret. split_and!.
  - destruct Hk as [(I1 & _ & I3 & I4 & I5) Hd]. split; [|done]. split_and!; try done. by right.
  - done.
  - unfold CheckScheduler, bind, gets, fail, ret in Ec |- *. simpl.
    destruct (os_sysfs _ _); [|done]. by destruct (String.index _ _ _).
Qed.

Lemma Zbdlib_Open_ok readonly exclusive s :
  zl_inv s -> open_outcome readonly s (Zbdlib_Open readonly exclusive s).
Proof.
  intros Hs. pose proof Hs as (Hn & _). unfold Zbdlib_Open. unfold bind at 1, gets. rewrite Hn.
  destruct (zl_open_step s (if exclusive then Z.lor O_RDONLY O_EXCL else O_RDONLY)
    (fun fd s => set_fds fd (read_direct_f_ s) (write_f_ s) s) Hs) as (rd & info & w1 & Hrun & Hk1 & Hrd & Hi1); [|done|].
  { intros fd w' (I1 & I2 & I3 & I4 & I5) Hfd. by split_and!. }
  rewrite (bind_ok _ _ _ _ _ Hrun). cbn beta iota. unfold bind at 1, modify at 1.
  set (s1 := set_fds rd _ _ _) in *. destruct (Z.ltb_spec rd 0) as [|H1]; [done|].
  destruct (zl_open_step s1 (Z.lor O_RDONLY O_DIRECT) (fun fd s => set_fds rd fd (write_f_ s) s))
    as (direct & info2 & w2 & Hrun2 & Hk2 & Hdir & Hi2); [apply Hk1| |done|].
  { intros fd w' (I1 & I2 & I3 & I4 & I5) Hfd. by split_and!. }
  rewrite (bind_ok _ _ _ _ _ Hrun2). cbn beta iota. unfold bind at 1, modify at 1.
  set (s2 := set_fds rd direct _ _) in *. pose proof (zl_keeps_trans _ _ _ Hk1 Hk2) as Hk12.
  destruct (Z.ltb_spec direct 0) as [|H2]; [done|]. destruct readonly.
  - apply Zbdlib_Open_tail; [|done|done|done|by apply Hi2].
    destruct Hk12 as [(I1 & I2 & I3 & I4 & I5) Hd]. split; [|done]. split_and!; try done. by left.
  - destruct (zl_open_step s2 (Z.lor O_WRONLY O_DIRECT) (fun fd s => set_fds rd direct fd s))
      as (wr & info3 & w3 & Hrun3 & Hk3 & Hwr & Hi3); [apply Hk12| |done|].
    { intros fd w' (I1 & I2 & I3 & I4 & I5) Hfd. by split_and!. }
    rewrite bind_assoc, (bind_ok _ _ _ _ _ Hrun3). cbn beta iota. rewrite bind_assoc. unfold bind at 1, modify at 1.
    pose proof (zl_keeps_trans _ _ _ Hk12 Hk3) as Hk13.
    destruct (Z.ltb_spec wr 0) as [|H3]; [done|].
    apply Zbdlib_Open_tail; [done..|by apply Hi3].
Qed.

(** ** The operations *)

Lemma Zbdlib_Write_ok data p s :
  zl_inv s ->
  exists r s', Zbdlib_Write data p s = Ok r s' /\ zl_inv s' /\ r <= zlen data /\
    (0 < zlen data -> r <> 0) /\
    (0 <= r -> forall a, zl_disk s' a = store (zl_disk s) p (ztake r data) a) /\
    (r < 0 -> forall a, ~ (p <= a < p + zlen data) -> zl_disk s' a = zl_disk s a) /\
    (write_f_ s < 0 -> r = -1 /\ forall a, zl_disk s' a = zl_disk s a).
Proof.
  intros Hs. unfold Zbdlib_Write. unfold bind at 1, get.
  destruct (os_pwrite (write_f_ s) data p (zl_os s)) as [r w'] eqn:E.
  rewrite (bind_ok _ _ _ _ _ (zl_sys_run _ _ _ _ E)). unfold ret.
  destruct (pwrite_ok _ _ _ _ _ _ E) as (Hf & Hr & Hr0 & Hother & Hsame).
  destruct (pwrite_max _ _ _ _ _ _ E) as [Hmax Hbad].
  rewrite to_int_small by (unfold MAX_RW_COUNT in *; lia).
  exists r, (zl_set_os w' s). split; [done|]. split.
  { apply zl_set_os_inv; [|done]. intros g f. by rewrite Hf. }
  split; [lia|]. split; [done|]. pose proof Hs as (_ & _ & _ & _ & Hw). unfold zl_disk. simpl.
  destruct Hw as [Hneg|Hfd].
  - pose proof (fd_negative (zl_os s) _ Hneg) as Hnone. specialize (Hbad Hnone). rewrite Hnone in Hother.
    split; [lia|]. split; [intros _ a _; by apply Hother|]. intros _. split; [done|]. intros a. by apply Hother.
  - destruct (Hsame _ Hfd) as [Hst Hout]. split_and!; [done|by auto|].
    intros Hneg. by rewrite (fd_negative _ _ Hneg) in Hfd.
Qed.

Lemma Zbdlib_Read_ok size p direct s :
  zl_inv s ->
  exists r data s', Zbdlib_Read size p direct s = Ok (r, data) s' /\ zl_keeps s s' /\
    (0 <= size -> 0 < r -> r <= size /\ data = range (zl_disk s) p r).
Proof.
  intros Hs. unfold Zbdlib_Read. unfold bind at 1, get. set (fd := if direct then _ else _).
  assert (fd_ok (zl_os s) fd) as Hok by (unfold fd; destruct Hs as (_ & _ & H1 & H2 & _); by destruct direct).
  destruct (os_pread fd (u64 size) p (zl_os s)) as [[r data] w'] eqn:E.
  rewrite (bind_ok _ _ _ _ _ (zl_sys_run _ _ _ _ E)). unfold ret. cbn beta iota.
  destruct (pread_ok _ _ _ _ _ _ _ E) as (Hc & Hf & Hr & Hd).
  destruct (pread_max _ _ _ _ _ _ _ E) as [Hmax Hbad].
  rewrite to_int_small by (unfold MAX_RW_COUNT in *; lia).
  exists r, data, (zl_set_os w' s). split; [done|]. split.
  { split; [|intros a; apply Hc]. apply zl_set_os_inv; [|done]. intros g f. by rewrite Hf. }
  intros H0 Hpos. destruct Hok as [Hneg|Hfd].
  - specialize (Hbad (fd_negative _ _ Hneg)). lia.
  - split; [|by apply Hd]. unfold u64, wrap in Hr. pose proof (Z.mod_le size (2 ^ 64)).
    pose proof (Z.mod_pos_bound size (2 ^ 64)). lia.
Qed.

(** A zone of another start, of the size the device has or none at all. *)
Lemma Zbdlib_Reset_ok start s :
  zl_inv s ->
  match Zbdlib_Reset start s with
  | Ok (offline, mc) s' => zl_inv s' /\ (0 <= mc <= zl_zone /\ mc mod zl_block = 0) /\
      forall a, ~ (start <= a < start + zl_zone) -> zl_disk s' a = zl_disk s a
  | Err e s' => zl_inv s' /\ ok e = false /\
      forall a, ~ (start <= a < start + zl_zone) -> zl_disk s' a = zl_disk s a
  | Stuck _ => False
  end.
Proof.
  intros Hs. destruct zl_geometry as [Hz Hb]. unfold Zbdlib_Reset. unfold bind at 1, get.
  destruct (zbd_reset_zones (write_f_ s) start (zl_zone_sz_ s) (zl_os s)) as [r w'] eqn:E.
  rewrite (bind_ok _ _ _ _ _ (zl_sys_run _ _ _ _ E)).
  destruct (zbd_reset_ok _ _ _ _ _ _ E) as [Hf Hc].
  assert (zl_inv (zl_set_os w' s)) as Hs' by (apply zl_set_os_inv; [intros g f; by rewrite Hf|done]).
  assert (forall a, ~ (start <= a < start + zl_zone) -> zl_disk (zl_set_os w' s) a = zl_disk s a) as Hd.
  { intros a Ha. apply Hc. destruct Hs as (_ & [-> | ->] & _); lia. }
  destruct (negb (r =? 0)); [done|]. unfold bind, gets.
  destruct (zbd_report_zones _ _ _ _) as [[|z [|]]|] eqn:Er; try done.
  pose proof (zbd_report_ok _ _ _ _ _ Er) as Hcap.
  destruct (has_cond ZBD_ZONE_COND_OFFLINE z); unfold ret; split_and!; try done; try apply Hcap; lia.
Qed.

Lemma Zbdlib_Finish_ok start s :
  zl_inv s ->
  match Zbdlib_Finish start s with
  | Ok _ s' => zl_keeps s s' | Err e s' => zl_keeps s s' /\ ok e = false | Stuck _ => False
  end.
Proof.
  intros Hs. unfold Zbdlib_Finish. unfold bind at 1, get.
  destruct (zbd_finish_zones (write_f_ s) start (zl_zone_sz_ s) (zl_os s)) as [r w'] eqn:E.
  rewrite (bind_ok _ _ _ _ _ (zl_sys_run _ _ _ _ E)). destruct (zbd_finish_ok _ _ _ _ _ _ E) as [Hf Hc].
  assert (zl_keeps s (zl_set_os w' s)) as Hk
    by (split; [apply zl_set_os_inv; [intros g f; by rewrite Hf|done]|intros a; apply Hc]).
  by destruct (negb (r =? 0)).
Qed.

Lemma Zbdlib_Close_ok start s :
  zl_inv s ->
  match Zbdlib_Close start s with
  | Ok _ s' => zl_keeps s s' | Err e s' => zl_keeps s s' /\ ok e = false | Stuck _ => False
  end.
Proof.
  intros Hs. unfold Zbdlib_Close. unfold bind at 1, get.
  destruct (zbd_close_zones (write_f_ s) start (zl_zone_sz_ s) (zl_os s)) as [r w'] eqn:E.
  rewrite (bind_ok _ _ _ _ _ (zl_sys_run _ _ _ _ E)). destruct (zbd_close_ok _ _ _ _ _ _ E) as [Hf Hc].
  assert (zl_keeps s (zl_set_os w' s)) as Hk
    by (split; [apply zl_set_os_inv; [intros g f; by rewrite Hf|done]|intros a; apply Hc]).
  by destruct (negb (r =? 0)).
Qed.

(** ** The instance *)

Lemma Zbdlib_Open_inv ro ex : preserves zl_inv (Zbdlib_Open ro ex).
Proof.
  intros s Hs. pose proof (Zbdlib_Open_ok ro ex s Hs) as H.
  destruct (Zbdlib_Open ro ex s); [apply H..|done].
Qed.
Lemma Zbdlib_Reset_inv p : preserves zl_inv (Zbdlib_Reset p).
Proof.
  intros s Hs. pose proof (Zbdlib_Reset_ok p s Hs) as H.
  destruct (Zbdlib_Reset p s) as [[] ?|?|?]; [apply H..|done].
Qed.
Lemma Zbdlib_Finish_inv p : preserves zl_inv (Zbdlib_Finish p).
Proof.
  intros s Hs. pose proof (Zbdlib_Finish_ok p s Hs) as H. destruct (Zbdlib_Finish p s); [apply H..|done].
Qed.
Lemma Zbdlib_Close_inv p : preserves zl_inv (Zbdlib_Close p).
Proof.
  intros s Hs. pose proof (Zbdlib_Close_ok p s Hs) as H. destruct (Zbdlib_Close p s); [apply H..|done].
Qed.
Lemma Zbdlib_InvalidateCache_inv p n : preserves zl_inv (Zbdlib_InvalidateCache p n).
Proof.
  apply (zl_call_inv (fun s => os_fadvise (read_f_ s) p n)).
  intros s a w' E. apply (fadvise_keeps _ _ _ _ _ _ E).
Qed.
Lemma Zbdlib_Read_inv n p b : preserves zl_inv (Zbdlib_Read n p b).
Proof. intros s Hs. by destruct (Zbdlib_Read_ok n p b s Hs) as (r & data & s' & -> & [Hs' _] & _). Qed.
Lemma Zbdlib_Write_inv d p : preserves zl_inv (Zbdlib_Write d p).
Proof. intros s Hs. by destruct (Zbdlib_Write_ok d p s Hs) as (r & s' & -> & Hs' & _). Qed.
Lemma Zbdlib_Append_inv d (l : L) : preserves zl_inv (Zbdlib_Append d l).
Proof.
  intros s Hs. unfold Zbdlib_Append.
  destruct (szd_AsyncAppend d l (zl_os s)) as [b [l' w']] eqn:E.
  erewrite bind_ok by (apply zl_sys_run; by rewrite E). cbn beta iota.
  assert (zl_inv (zl_set_os w' s)) as Hs'.
  { apply zl_set_os_inv; [|done]. intros g f. by rewrite (append_fds _ _ _ _ _ _ E). }
  destruct b; [done|]. unfold bind, modify, ret. apply (zl_set_os_inv (zl_set_os w' s)); [|done].
  intros g f. by rewrite set_errno_ok.
Qed.

Definition LDev : Type := dev zl_inv.

Definition zbdlib_backend (bound : nat) : ZonedBlockDeviceBackend LDev L := {|
  block_sz_ := zl_block;
  zone_sz_ := zl_zone;
  nr_zones_ := zl_nr;
  loop_bound := bound;
  be_Open readonly exclusive := dev_io (Zbdlib_Open readonly exclusive) (Zbdlib_Open_inv readonly exclusive);
  be_ListZones d := match Zbdlib_ListZones (proj1_sig d) with Ok z _ => z | _ => None end;
  be_Reset start := dev_io (Zbdlib_Reset start) (Zbdlib_Reset_inv start);
  be_Finish start := dev_io (Zbdlib_Finish start) (Zbdlib_Finish_inv start);
  be_Close start := dev_io (Zbdlib_Close start) (Zbdlib_Close_inv start);
  be_Read size pos direct d :=
    let '(r, data, d') := dev_int (Zbdlib_Read size pos direct) (Zbdlib_Read_inv size pos direct) (-1, []) d in
    (r, os_errno (zl_os (proj1_sig d')), data, d');
  be_Write data pos d :=
    let '(r, d') := dev_int (Zbdlib_Write data pos) (Zbdlib_Write_inv data pos) (-1) d in
    (r, ErrorToString (zl_os (proj1_sig d')), d');
  be_Append data l d :=
    let '(r, l', d') := dev_int (Zbdlib_Append data l) (Zbdlib_Append_inv data l) (-1, l) d in
    (r, ErrorToString (zl_os (proj1_sig d')), (l', d'));
  be_AppendSync l d := (0, (l, d));
  be_InvalidateCache pos size :=
    dev_int (Zbdlib_InvalidateCache pos size) (Zbdlib_InvalidateCache_inv pos size) (-1);
  be_GetFilename := zl_name
|}.

(** The outcome of a call that cannot be undefined. *)
Lemma dev_int_ok {A} (m : LM A) Hm dflt (d : LDev) r s' x d' :
  m (proj1_sig d) = Ok r s' -> dev_int m Hm dflt d = (x, d') -> x = r /\ proj1_sig d' = s'.
Proof.
  intros H E%dev_int_inv. rewrite H in E. by destruct E as [[= -> ->]|[_ [[? [=]]|[[? [=]] _]]]].
Qed.
Lemma dev_io_ok {A} (m : LM A) Hm (d : LDev) r d' :
  (match m (proj1_sig d) with Stuck _ => False | _ => True end) -> dev_io m Hm d = (r, d') ->
  m (proj1_sig d) = match r with inr a => Ok a (proj1_sig d') | inl e => Err e (proj1_sig d') end.
Proof.
  intros H E%dev_io_inv. destruct r as [e|a]; [|done]. destruct E as [E|([u E] & _)]; [done|]. by rewrite E in H.
Qed.

#[export] Instance zbdlib_backend_spec bound : BackendSpec LDev L (be := zbdlib_backend bound).
Proof.
  refine (@Build_BackendSpec LDev L (zbdlib_backend bound) (fun d => zl_disk (proj1_sig d)) _ _ _ _ _ _ _ _ _ _ _ _ _);
    pose proof zl_geometry as [Hz Hb].
  - intros data pos d r err d' E Hr. simpl in E. destruct (dev_int _ _ _ d) as [x d0] eqn:Ed. injection E as -> _ ->.
    destruct (Zbdlib_Write_ok data pos _ (proj2_sig d)) as (r' & s' & Hrun & _ & Hle & Hne & Hst & _).
    destruct (dev_int_ok _ _ _ _ _ _ _ _ Hrun Ed) as [-> ->]. split_and!; [done|lia|by apply Hst].
  - intros data pos d r err d' E Hr. simpl in E. destruct (dev_int _ _ _ d) as [x d0] eqn:Ed. injection E as -> _ ->.
    destruct (Zbdlib_Write_ok data pos _ (proj2_sig d)) as (r' & s' & Hrun & _ & _ & _ & _ & Herr & _).
    destruct (dev_int_ok _ _ _ _ _ _ _ _ Hrun Ed) as [-> ->]. by apply Herr.
  - intros size pos direct d r errno data d' E. simpl in E. destruct (dev_int _ _ _ d) as [[x y] d0] eqn:Ed.
    injection E as -> _ -> ->.
    destruct (Zbdlib_Read_ok size pos direct _ (proj2_sig d)) as (r' & dt & s' & Hrun & [_ Hsame] & Hd).
    destruct (dev_int_ok _ _ _ _ _ _ _ _ Hrun Ed) as [[= -> ->] ->]. done.
  - intros start d offline mc d' E _. pose proof (Zbdlib_Reset_ok start _ (proj2_sig d)) as H.
    apply dev_io_inv in E. rewrite E in H. apply H.
  - intros start d e d' E _ a Ha. pose proof (Zbdlib_Reset_ok start _ (proj2_sig d)) as H.
    apply dev_io_ok in E; [|by destruct (Zbdlib_Reset start (proj1_sig d))]. rewrite E in H. by apply H.
  - intros start d e d' E. pose proof (Zbdlib_Reset_ok start _ (proj2_sig d)) as H.
    apply dev_io_ok in E; [|by destruct (Zbdlib_Reset start (proj1_sig d))]. rewrite E in H. apply H.
  - intros start d e d' E. pose proof (Zbdlib_Finish_ok start _ (proj2_sig d)) as H.
    apply dev_io_ok in E; [|by destruct (Zbdlib_Finish start (proj1_sig d))]. rewrite E in H. apply H.
  - intros start d e d' E. pose proof (Zbdlib_Close_ok start _ (proj2_sig d)) as H.
    apply dev_io_ok in E; [|by destruct (Zbdlib_Close start (proj1_sig d))]. rewrite E in H. apply H.
  - intros start d r d' E a. pose proof (Zbdlib_Finish_ok start _ (proj2_sig d)) as H.
    apply dev_io_ok in E; [|by destruct (Zbdlib_Finish start (proj1_sig d))]. rewrite E in H. destruct r; apply H.
  - intros start d r d' E a. pose proof (Zbdlib_Close_ok start _ (proj2_sig d)) as H.
    apply dev_io_ok in E; [|by destruct (Zbdlib_Close start (proj1_sig d))]. rewrite E in H. destruct r; apply H.
  - apply Hb.
  - apply Hb.
  - apply Hz.
Defined.


(** [Open] of the libzbd backend succeeds only with a descriptor for buffered and
    one for direct reads, with the geometry of the device and under the scheduler ZenFS
    needs; opened read-only, every later write fails and changes nothing.  An error is
    reported as one, and [Open] never touches the contents. *)
Theorem zbdlib_open_correct readonly exclusive s :
  zl_inv s ->
  match Zbdlib_Open readonly exclusive s with
  | Ok _ s' =>
      (forall a, zl_disk s' a = zl_disk s a) /\ zl_opened readonly s' /\ CheckScheduler s' = Ok tt s' /\
      (readonly = true -> forall data pos, exists s'', Zbdlib_Write data pos s' = Ok (-1) s'' /\
         forall a, zl_disk s'' a = zl_disk s a)
  | Err e s' => (forall a, zl_disk s' a = zl_disk s a) /\ ok e = false
  | Stuck _ => False
  end.
Proof.
  intros Hs. pose proof (Zbdlib_Open_ok readonly exclusive s Hs) as H.
  destruct (Zbdlib_Open readonly exclusive s) as [lim s'|e s'|]; [|by destruct H as [[_ ?] ?]|done].
  destruct H as ([Hi Hd] & Ho & Hc). split_and!; try done. intros -> data pos.
  destruct (Zbdlib_Write_ok data pos s' Hi) as (r & s'' & Hrun & _ & _ & _ & _ & _ & Hbad).
  destruct Ho as (_ & _ & Hw & _). destruct Hbad as [-> Hsame]; [lia|].
  exists s''. split; [done|]. intros a. by rewrite Hsame.
Qed.
End zbdlib_props.

(** ** Example: a device on the in-memory system *)

Definition mo_device : string := "/dev/nvme0n1".

Definition mo_zone_reset (start len : Z) (w : MemOs) : MemOs :=
  let '(size, stores) := mo_file w mo_device in
  mkMemOs (mo_fds w) (<[mo_device := (size, (start, zeros len) :: stores)]> (mo_files w)) (mo_errno w).

#[local] Instance mo_zbd : LibZbd MemOs := {|
  zbd_open name flags w :=
    let '(fd, w') := mo_open name w in (fd, mkInfo 512 1024 4 14 14 ZBD_DM_HOST_MANAGED, w');
  zbd_list_zones fd ofst len w := Some [];
  zbd_report_zones fd ofst len w :=
    Some [mkZbdZone ZBD_ZONE_TYPE_SWR ZBD_ZONE_COND_EMPTY ofst 1024 ofst];
  zbd_reset_zones fd start len w := (0, mo_zone_reset start (Z.max 0 len) w);
  zbd_finish_zones fd start len w := (0, w);
  zbd_close_zones fd start len w := (0, w);
  set_errno e w := mkMemOs (mo_fds w) (mo_files w) e
|}.

(** A log that takes nothing. *)
#[local] Instance mo_szd : SZDOnceLog MemOs unit := {|
  szd_new min max chan := tt;
  szd_RecoverPointers l w := (true, (l, w));
  szd_AsyncAppend data l w := (false, (l, w));
  szd_Sync l w := (true, (l, w));
  szd_Read lba size l w := (false, []);
  szd_ResetAll l w := (true, (l, w));
  szd_GetWriteHead l := 0;
  szd_GetWriteTail l := 0
|}.

#[local] Instance mo_zbd_spec : ZbdSpec MemOs unit.
Proof.
  refine {| zl_name := mo_device; zl_zone := 1024; zl_block := 512; zl_nr := 4 |}; simpl.
  - lia.
  - intros w fd Hfd. unfold mo_fd. by destruct (Z.ltb_spec fd 0); [|lia].
  - intros fd count offset w r data w' E. unfold mo_pread in E.
    destruct (mo_fd w fd); injection E as <- <- <-; unfold MAX_RW_COUNT; simpl; split; try done; lia.
  - intros fd data offset w r w' E. unfold mo_pwrite in E. unfold MAX_RW_COUNT.
    destruct (mo_fd w fd) as [f|]; [|injection E as <- <-; split; [lia|done]]. split; [|done].
    destruct (mo_file w f). destruct (_ && _); injection E as <- _; simpl; lia.
  - intros name flags w fd info w' [= <- <- <-]. split; [done|].
    destruct (mo_open_fd name w _ _ eq_refl) as (_ & Hnew & Hfd & Hold). split.
    + intros g f Hg. destruct (decide (g = zlen (mo_fds w))) as [->|Hne]; [congruence|]. by rewrite <- (Hold g Hne) in Hg.
    + intros _. by split.
  - intros fd start len w r w' [= <- <-]. unfold mo_zone_reset. destruct (mo_file w mo_device) as [size stores] eqn:Ef.
    split; [done|]. intros a Ha. rewrite mo_content_insert, decide_True by done. simpl.
    rewrite store_outside; [unfold mo_content; by rewrite Ef|]. rewrite zlen_zeros by lia. lia.
  - by intros fd start len w r w' [= <- <-].
  - by intros fd start len w r w' [= <- <-].
  - intros fd start len w z [= <-]. done.
  - done.
  - by intros data l w b l' w' [= <- <- <-].
Defined.

Lemma zl_new_inv : zl_inv (ZbdlibBackend_new "nvme0n1" mo_fresh).
Proof. unfold zl_inv, fd_ok. simpl. split_and!; [done|by left|left; lia..]. Qed.


Lemma zbdlib_open_correct_witness :
  exists s', Zbdlib_Open true false (ZbdlibBackend_new "nvme0n1" mo_fresh) = Ok (14, 14) s' /\
    exists s'', Zbdlib_Write (zeros 4) 0 s' = Ok (-1) s''.
Proof.
  pose proof (zbdlib_open_correct true false _ zl_new_inv) as H.
  destruct (Zbdlib_Open true false (ZbdlibBackend_new "nvme0n1" mo_fresh)) as [lim s'|e s'|u] eqn:E;
    [|exfalso; vm_compute in E; discriminate E|exfalso; vm_compute in E; discriminate E].
  destruct H as (_ & _ & _ & H). destruct (H eq_refl (zeros 4) 0) as (s'' & Hw & _).
  exists s'. split; [|by exists s'']. f_equal.
  assert (match Zbdlib_Open true false (ZbdlibBackend_new "nvme0n1" mo_fresh) with Ok l _ => l | _ => (0, 0) end = (14, 14))
    as H1 by (vm_compute; reflexivity). rewrite E in H1. exact H1.
Defined.
