(* ===== verification/Zone.v ===== *)
(** * Zones

    [class Zone] (zbd_zenfs.h, zbd_zenfs.cc).  A [Zone *] is an index into the
    heap of zones that the state [Zbd] of the [ZonedBlockDevice] holds; the
    methods run on that state, since they reach the backend and the counters
    of the device through [zbd_] and [zbd_be_]. *)

From stdpp Require Import pretty.
From S2P Require Import Prelude Status Device MemDevice.

(** ** Data *)

(** [Env::WriteLifeTimeHint], an [int] enumeration that decoded files may set
    to any value. *)
Definition WLTH_NOT_SET : Z := 0.
Definition WLTH_NONE : Z := 1.
Definition WLTH_SHORT : Z := 2.
Definition WLTH_MEDIUM : Z := 3.
Definition WLTH_LONG : Z := 4.
Definition WLTH_EXTREME : Z := 5.

Record Zone := mkZone {
  start_ : Z;
  capacity_ : Z;  (* remaining *)
  max_capacity_ : Z;
  wp_ : Z;
  lifetime_ : Z;
  used_capacity_ : Z;
  busy_ : bool
}.

Definition set_capacity c (z : Zone) :=
  mkZone (start_ z) c (max_capacity_ z) (wp_ z) (lifetime_ z) (used_capacity_ z) (busy_ z).
Definition set_max_capacity c (z : Zone) :=
  mkZone (start_ z) (capacity_ z) c (wp_ z) (lifetime_ z) (used_capacity_ z) (busy_ z).
Definition set_wp w (z : Zone) :=
  mkZone (start_ z) (capacity_ z) (max_capacity_ z) w (lifetime_ z) (used_capacity_ z) (busy_ z).
Definition set_lifetime l (z : Zone) :=
  mkZone (start_ z) (capacity_ z) (max_capacity_ z) (wp_ z) l (used_capacity_ z) (busy_ z).
Definition set_used_capacity u (z : Zone) :=
  mkZone (start_ z) (capacity_ z) (max_capacity_ z) (wp_ z) (lifetime_ z) u (busy_ z).
Definition set_busy b (z : Zone) :=
  mkZone (start_ z) (capacity_ z) (max_capacity_ z) (wp_ z) (lifetime_ z) (used_capacity_ z) b.

(** [ZonedBlockDevice]: the backend, the zones by role, the counters.  The
    condition variables and mutexes have no state of their own here. *)
Record Zbd (D : Type) := mkZbd {
  zbd_be_ : D;
  zone_heap : gmap nat Zone;
  io_zones : list nat;
  wal_zones : list nat;
  meta_zones : list nat;
  finish_threshold_ : Z;
  bytes_written_ : Z;
  gc_bytes_written_ : Z;
  active_io_zones_ : Z;
  open_io_zones_ : Z;
  zone_deferred_status_ : IOStatus;
  migrating_ : bool;
  max_nr_active_io_zones_ : Z;
  max_nr_open_io_zones_ : Z;
  write_channel_ptr_ : Z
}.
Arguments mkZbd {D}.
Arguments zbd_be_ {D}. Arguments zone_heap {D}. Arguments io_zones {D}.
Arguments wal_zones {D}. Arguments meta_zones {D}. Arguments finish_threshold_ {D}.
Arguments bytes_written_ {D}. Arguments gc_bytes_written_ {D}. Arguments active_io_zones_ {D}.
Arguments open_io_zones_ {D}. Arguments zone_deferred_status_ {D}. Arguments migrating_ {D}.
Arguments max_nr_active_io_zones_ {D}. Arguments max_nr_open_io_zones_ {D}.
Arguments write_channel_ptr_ {D}.

Section setters.
Context {D : Type}.
Implicit Types s : Zbd D.

Definition set_be (d : D) s := mkZbd d (zone_heap s) (io_zones s) (wal_zones s) (meta_zones s)
  (finish_threshold_ s) (bytes_written_ s) (gc_bytes_written_ s) (active_io_zones_ s)
  (open_io_zones_ s) (zone_deferred_status_ s) (migrating_ s) (max_nr_active_io_zones_ s)
  (max_nr_open_io_zones_ s) (write_channel_ptr_ s).
Definition set_heap h s := mkZbd (zbd_be_ s) h (io_zones s) (wal_zones s) (meta_zones s)
  (finish_threshold_ s) (bytes_written_ s) (gc_bytes_written_ s) (active_io_zones_ s)
  (open_io_zones_ s) (zone_deferred_status_ s) (migrating_ s) (max_nr_active_io_zones_ s)
  (max_nr_open_io_zones_ s) (write_channel_ptr_ s).
Definition set_zone_lists io wal meta s := mkZbd (zbd_be_ s) (zone_heap s) io wal meta
  (finish_threshold_ s) (bytes_written_ s) (gc_bytes_written_ s) (active_io_zones_ s)
  (open_io_zones_ s) (zone_deferred_status_ s) (migrating_ s) (max_nr_active_io_zones_ s)
  (max_nr_open_io_zones_ s) (write_channel_ptr_ s).
Definition set_finish_threshold t s := mkZbd (zbd_be_ s) (zone_heap s) (io_zones s) (wal_zones s)
  (meta_zones s) t (bytes_written_ s) (gc_bytes_written_ s) (active_io_zones_ s)
  (open_io_zones_ s) (zone_deferred_status_ s) (migrating_ s) (max_nr_active_io_zones_ s)
  (max_nr_open_io_zones_ s) (write_channel_ptr_ s).
Definition set_bytes_written b s := mkZbd (zbd_be_ s) (zone_heap s) (io_zones s) (wal_zones s)
  (meta_zones s) (finish_threshold_ s) b (gc_bytes_written_ s) (active_io_zones_ s)
  (open_io_zones_ s) (zone_deferred_status_ s) (migrating_ s) (max_nr_active_io_zones_ s)
  (max_nr_open_io_zones_ s) (write_channel_ptr_ s).
Definition set_gc_bytes_written b s := mkZbd (zbd_be_ s) (zone_heap s) (io_zones s) (wal_zones s)
  (meta_zones s) (finish_threshold_ s) (bytes_written_ s) b (active_io_zones_ s)
  (open_io_zones_ s) (zone_deferred_status_ s) (migrating_ s) (max_nr_active_io_zones_ s)
  (max_nr_open_io_zones_ s) (write_channel_ptr_ s).
(** active and open tokens *)
Definition set_tokens a o s := mkZbd (zbd_be_ s) (zone_heap s) (io_zones s) (wal_zones s)
  (meta_zones s) (finish_threshold_ s) (bytes_written_ s) (gc_bytes_written_ s) a o
  (zone_deferred_status_ s) (migrating_ s) (max_nr_active_io_zones_ s)
  (max_nr_open_io_zones_ s) (write_channel_ptr_ s).
Definition set_deferred e s := mkZbd (zbd_be_ s) (zone_heap s) (io_zones s) (wal_zones s)
  (meta_zones s) (finish_threshold_ s) (bytes_written_ s) (gc_bytes_written_ s)
  (active_io_zones_ s) (open_io_zones_ s) e (migrating_ s) (max_nr_active_io_zones_ s)
  (max_nr_open_io_zones_ s) (write_channel_ptr_ s).
Definition set_migrating m s := mkZbd (zbd_be_ s) (zone_heap s) (io_zones s) (wal_zones s)
  (meta_zones s) (finish_threshold_ s) (bytes_written_ s) (gc_bytes_written_ s)
  (active_io_zones_ s) (open_io_zones_ s) (zone_deferred_status_ s) m
  (max_nr_active_io_zones_ s) (max_nr_open_io_zones_ s) (write_channel_ptr_ s).
(** maximal numbers of active and open zones *)
Definition set_limits a o s := mkZbd (zbd_be_ s) (zone_heap s) (io_zones s) (wal_zones s)
  (meta_zones s) (finish_threshold_ s) (bytes_written_ s) (gc_bytes_written_ s)
  (active_io_zones_ s) (open_io_zones_ s) (zone_deferred_status_ s) (migrating_ s) a o
  (write_channel_ptr_ s).
Definition set_write_channel_ptr p s := mkZbd (zbd_be_ s) (zone_heap s) (io_zones s)
  (wal_zones s) (meta_zones s) (finish_threshold_ s) (bytes_written_ s) (gc_bytes_written_ s)
  (active_io_zones_ s) (open_io_zones_ s) (zone_deferred_status_ s) (migrating_ s)
  (max_nr_active_io_zones_ s) (max_nr_open_io_zones_ s) p.
End setters.

(** ** Methods *)

Definition IsUsed (z : Zone) : bool := 0 <? used_capacity_ z.
Definition GetCapacityLeft (z : Zone) : Z := capacity_ z.
Definition IsFull (z : Zone) : bool := capacity_ z =? 0.
Definition IsEmpty (z : Zone) : bool := wp_ z =? start_ z.
Definition IsBusy (z : Zone) : bool := busy_ z.

(** The constructor, from entry [r] of the zone list. *)
Definition Zone_new (r : zone_rep) : Zone :=
  mkZone (ZoneStart r)
    (if ZoneIsWritable r then ZoneMaxCapacity r -64 (ZoneWp r -64 ZoneStart r) else 0)
    (ZoneMaxCapacity r) (ZoneWp r) WLTH_NOT_SET 0 false.

Section zone_methods.
Context {D L : Type} `{be : ZonedBlockDeviceBackend D L}.
Abbreviation ZM := (M (Zbd D)).

(** Calls the backend. *)
Definition with_be {A} (m : M D A) : ZM A := zoom zbd_be_ set_be m.

Definition get_zone (z : nat) : ZM Zone := s <- get ;; deref (zone_heap s !! z).
Definition mod_zone (z : nat) (f : Zone -> Zone) : ZM unit :=
  zn <- get_zone z ;; modify (fun s => set_heap (<[z := f zn]> (zone_heap s)) s).

Definition GetZoneNr (z : nat) : ZM Z := zn <- get_zone z ;; ret (start_ zn / zone_sz_).

(** [busy_.compare_exchange_strong(false, true)] *)
Definition Acquire (z : nat) : ZM bool :=
  zn <- get_zone z ;;
  if busy_ zn then ret false else mod_zone z (set_busy true) ;; ret true.

(** [busy_.compare_exchange_strong(true, false)] *)
Definition Release (z : nat) : ZM bool :=
  zn <- get_zone z ;;
  if busy_ zn then mod_zone z (set_busy false) ;; ret true else ret false.

Definition CheckRelease (z : nat) : ZM unit :=
  released <- Release z ;;
  if (released : bool) then ret tt
  else nr <- GetZoneNr z ;;
       fail (Corruption ("Failed to unset busy flag of zone " +:+ pretty nr)).

Definition Zone_Reset (z : nat) : ZM unit :=
  zn <- get_zone z ;;
  let* (offline, max_capacity) := with_be (io_run (be_Reset (start_ zn))) in
  (if (offline : bool) then mod_zone z (set_capacity 0)
   else mod_zone z (fun zn => set_max_capacity max_capacity (set_capacity max_capacity zn))) ;;
  mod_zone z (fun zn => set_lifetime WLTH_NOT_SET (set_wp (start_ zn) zn)).

Definition Zone_Finish (z : nat) : ZM unit :=
  zn <- get_zone z ;;
  with_be (io_run (be_Finish (start_ zn))) ;;
  mod_zone z (fun zn => set_wp (start_ zn +64 zone_sz_) (set_capacity 0 zn)).

Definition Zone_Close (z : nat) : ZM unit :=
  zn <- get_zone z ;;
  when (negb (IsEmpty zn || IsFull zn)) (with_be (io_run (be_Close (start_ zn)))).

Definition AddBytesWritten (written : Z) : ZM unit :=
  modify (fun s => set_bytes_written (bytes_written_ s +64 written) s).
Definition AddGCBytesWritten (written : Z) : ZM unit :=
  modify (fun s => set_gc_bytes_written (gc_bytes_written_ s +64 written) s).
Definition GetTotalBytesWritten (s : Zbd D) : Z := bytes_written_ s.
Definition GetUserBytesWritten (s : Zbd D) : Z := bytes_written_ s -64 gc_bytes_written_ s.

Definition advance (n : Z) (zn : Zone) : Zone :=
  set_capacity (capacity_ zn -64 n) (set_wp (wp_ zn +64 n) zn).

(** One zone append through the write-ahead log; the log moves on. *)
Definition ZoneAppend (z : nat) (data : bytes) (wal : L) : ZM L :=
  zn <- get_zone z ;;
  let size := zlen data in
  if capacity_ zn <? size then fail (NoSpace "Not enough capacity for zoneappend") else
  let* (r, err, wal') := with_be (call (fun d =>
    let '(r, err, (w, d')) := be_Append data wal d in ((r, err, w), d'))) in
  if r <? 0 then fail (IOError err) else
  mod_zone z (advance size) ;;
  AddBytesWritten size ;;
  ret wal'.

(** [while (left)]: [ptr] is what is left to write. *)
Fixpoint Append_loop (n : nat) (z : nat) (ptr : bytes) : ZM unit :=
  if decide (ptr = []) then ret tt else
  match n with
  | O => stuckM OutOfFuel
  | S n' =>
      zn <- get_zone z ;;
      let* (r, err) := with_be (call (be_Write ptr (wp_ zn))) in
      if r <? 0 then fail (IOError err) else
      mod_zone z (advance r) ;;
      AddBytesWritten r ;;
      Append_loop n' z (zdrop r ptr)
  end.

Definition Append (z : nat) (data : bytes) : ZM unit :=
  zn <- get_zone z ;;
  if capacity_ zn <? zlen data then fail (NoSpace "Not enough capacity for append") else
  Append_loop loop_bound z data.
End zone_methods.

(** ** Running the methods *)

Create HintDb zrun.

(** Runs the first step of a sequence with a lemma of [zrun]. *)
Ltac mstep := erewrite bind_ok; [|solve [eauto with zrun]].

#[export] Hint Extern 2 (zone_heap _ !! _ = Some _) =>
  simpl; first [eassumption | rewrite lookup_insert_eq; reflexivity
               | rewrite lookup_insert_ne by congruence; eassumption] : zrun.

Section zone_runs.
Context {D L : Type} `{be : ZonedBlockDeviceBackend D L}.
Implicit Types s : Zbd D.

Lemma get_zone_ok z zn s : zone_heap s !! z = Some zn -> get_zone z s = Ok zn s.
Proof. intros H. unfold get_zone, bind, get. by rewrite H. Qed.

Lemma mod_zone_ok z f zn s :
  zone_heap s !! z = Some zn ->
  mod_zone z f s = Ok tt (set_heap (<[z := f zn]> (zone_heap s)) s).
Proof. intros H. unfold mod_zone. by erewrite bind_ok by by apply get_zone_ok. Qed.

Hint Resolve get_zone_ok mod_zone_ok : zrun.

Lemma Acquire_free z zn s :
  zone_heap s !! z = Some zn -> busy_ zn = false ->
  Acquire z s = Ok true (set_heap (<[z := set_busy true zn]> (zone_heap s)) s).
Proof. intros H Hb. unfold Acquire. mstep. rewrite Hb. by mstep. Qed.

Lemma Acquire_busy z zn s :
  zone_heap s !! z = Some zn -> busy_ zn = true -> Acquire z s = Ok false s.
Proof. intros H Hb. unfold Acquire. mstep. by rewrite Hb. Qed.

Lemma CheckRelease_busy z zn s :
  zone_heap s !! z = Some zn -> busy_ zn = true ->
  CheckRelease z s = Ok tt (set_heap (<[z := set_busy false zn]> (zone_heap s)) s).
Proof.
  intros H Hb. unfold CheckRelease, Release. unfold bind at 1. mstep. rewrite Hb. by mstep.
Qed.

Lemma CheckRelease_free z zn s :
  zone_heap s !! z = Some zn -> busy_ zn = false ->
  CheckRelease z s
  = Err (Corruption ("Failed to unset busy flag of zone " +:+ pretty (start_ zn / zone_sz_))) s.
Proof.
  intros H Hb. unfold CheckRelease, Release, GetZoneNr. unfold bind at 1. mstep.
  rewrite Hb. simpl. unfold bind at 1. by mstep.
Qed.

Lemma AddBytesWritten_ok n s :
  AddBytesWritten n s = Ok tt (set_bytes_written (bytes_written_ s +64 n) s).
Proof. done. Qed.

Lemma set_heap_set_heap h h' s : set_heap h (set_heap h' s) = set_heap h s.
Proof. done. Qed.

Lemma set_heap_id s : set_heap (zone_heap s) s = s.
Proof. by destruct s. Qed.

Lemma set_busy_id b zn : busy_ zn = b -> set_busy b zn = zn.
Proof. destruct zn. by intros <-. Qed.

Lemma set_busy_set_busy b b' zn : set_busy b (set_busy b' zn) = set_busy b zn.
Proof. done. Qed.
End zone_runs.
#[export] Hint Resolve get_zone_ok mod_zone_ok Acquire_free Acquire_busy
  CheckRelease_busy AddBytesWritten_ok : zrun.

(** ** Reset, finish and close *)

Section reset_finish.
Context {D L : Type} `{be : ZonedBlockDeviceBackend D L}.
Implicit Types s : Zbd D.

Definition reset_zone (offline : bool) (max_capacity : Z) (zn : Zone) : Zone :=
  mkZone (start_ zn) (if offline then 0 else max_capacity)
    (if offline then max_capacity_ zn else max_capacity)
    (start_ zn) WLTH_NOT_SET (used_capacity_ zn) (busy_ zn).

Definition finish_zone (zn : Zone) : Zone := set_wp (start_ zn +64 zone_sz_) (set_capacity 0 zn).

(** The zone and the device after a call to the backend, or its error. *)
Definition zone_call {A} (z : nat) (r : (Status + A) * D) (f : A -> Zone) s :
  result (Zbd D) unit :=
  match r with
  | (inr a, d') => Ok tt (set_heap (<[z := f a]> (zone_heap s)) (set_be d' s))
  | (inl e, d') => Err e (set_be d' s)
  end.

Lemma Zone_Reset_run z zn s :
  zone_heap s !! z = Some zn ->
  Zone_Reset z s = zone_call z (be_Reset (start_ zn) (zbd_be_ s))
                     (fun p => reset_zone p.1 p.2 zn) s.
Proof.
  intros Hz. unfold Zone_Reset. mstep. unfold bind at 1. unfold with_be, zoom, io_run, zone_call.
  destruct (be_Reset _ _) as [[e|[offline mc]] d']; [done|].
  unfold bind at 1. destruct offline; (erewrite mod_zone_ok by (by simpl));
    (erewrite mod_zone_ok by (simpl; by rewrite lookup_insert_eq)); simpl;
    unfold set_heap; simpl; by rewrite insert_insert_eq.
Qed.

Lemma Zone_Finish_run z zn s :
  zone_heap s !! z = Some zn ->
  Zone_Finish z s = zone_call z (be_Finish (start_ zn) (zbd_be_ s)) (fun _ => finish_zone zn) s.
Proof.
  intros Hz. unfold Zone_Finish. mstep. unfold bind at 1. unfold with_be, zoom, io_run, zone_call.
  destruct (be_Finish _ _) as [[e|[]] d']; [done|]. by erewrite mod_zone_ok by (by simpl).
Qed.

Lemma Zone_Close_run z zn s :
  zone_heap s !! z = Some zn ->
  Zone_Close z s =
    if IsEmpty zn || IsFull zn then Ok tt s
    else match be_Close (start_ zn) (zbd_be_ s) with
         | (inr _, d') => Ok tt (set_be d' s)
         | (inl e, d') => Err e (set_be d' s)
         end.
Proof.
  intros Hz. unfold Zone_Close. mstep. destruct (_ || _); simpl; [done|].
  unfold with_be, zoom, io_run. by destruct (be_Close _ _) as [[e|[]] d'].
Qed.
End reset_finish.

(** ** Appending *)

Section append.
Context {D L : Type} `{spec : BackendSpec D L}.
Implicit Types s : Zbd D.

Lemma u64_add_add x a b : (x +64 a) +64 b = x +64 (a + b).
Proof. unfold u64, wrap. rewrite Zplus_mod_idemp_l. f_equal. lia. Qed.

Lemma u64_sub_sub x a b : (x -64 a) -64 b = x -64 (a + b).
Proof. unfold u64, wrap. rewrite Zminus_mod_idemp_l. f_equal. lia. Qed.

Lemma advance_advance a b zn : advance b (advance a zn) = advance (a + b) zn.
Proof. unfold advance. simpl. by rewrite u64_add_add, u64_sub_sub. Qed.

(** [n] bytes went to zone [z], which was [zn]; the device is now [d]. *)
Definition after_write (z : nat) (zn : Zone) (n : Z) (d : D) s : Zbd D :=
  set_bytes_written (bytes_written_ s +64 n)
    (set_heap (<[z := advance n zn]> (zone_heap s)) (set_be d s)).

Lemma after_write_after_write z zn n m d d' s :
  after_write z (advance n zn) m d' (after_write z zn n d s) = after_write z zn (n + m) d' s.
Proof.
  unfold after_write. destruct s; simpl. unfold set_bytes_written, set_heap, set_be; simpl.
  by rewrite insert_insert_eq, advance_advance, u64_add_add.
Qed.

Definition zone_u64 (zn : Zone) : Prop := is_u 64 (wp_ zn) /\ is_u 64 (capacity_ zn).

Lemma after_write_0 z zn d s :
  zone_heap s !! z = Some zn -> zone_u64 zn -> is_u 64 (bytes_written_ s) ->
  after_write z zn 0 d s = set_be d s.
Proof.
  intros Hz [Hw Hc] Hb. unfold after_write, advance, is_u in *.
  rewrite !Z.add_0_r, Z.sub_0_r, !u64_small by done.
  rewrite insert_id by (by rewrite Hz; destruct zn). by destruct s.
Qed.

Lemma zone_u64_advance n zn : zone_u64 (advance n zn).
Proof. split; apply u64_range. Qed.

Lemma store_split f pos data r a :
  0 <= r <= zlen data ->
  store (store f pos (ztake r data)) (pos + r) (zdrop r data) a = store f pos data a.
Proof.
  intros Hr. rewrite <- (ztake_zdrop r data) at 3. rewrite store_app.
  rewrite zlen_ztake by lia. by rewrite Z.min_l by lia.
Qed.

(** What [Append] leaves after writing [data] to a zone [zn] from state [s]. *)
Definition appended (z : nat) (zn : Zone) (data : bytes) s (r : result (Zbd D) unit) : Prop :=
  (exists d', r = Ok tt (after_write z zn (zlen data) d' s) /\
     forall a, disk d' a = store (disk (zbd_be_ s)) (wp_ zn) data a) \/
  (exists m err d', 0 <= m < zlen data /\ r = Err (IOError err) (after_write z zn m d' s) /\
     forall a, ~ (wp_ zn + m <= a < wp_ zn + zlen data) ->
       disk d' a = store (disk (zbd_be_ s)) (wp_ zn) (ztake m data) a).

Lemma Append_loop_ok n z zn ptr s :
  (length ptr <= n)%nat -> zone_heap s !! z = Some zn -> zone_u64 zn ->
  is_u 64 (bytes_written_ s) -> wp_ zn + zlen ptr < 2 ^ 64 ->
  appended z zn ptr s (Append_loop n z ptr s).
Proof.
  revert zn ptr s. induction n as [|n IH]; intros zn ptr s Hn Hz Hu Hb Hw; simpl.
  { destruct ptr; [|simpl in Hn; lia]. left. exists (zbd_be_ s). split; [|intros; by rewrite store_nil].
    rewrite decide_True by done. rewrite zlen_nil, after_write_0 by done. by destruct s. }
  destruct (decide (ptr = [])) as [->|Hne].
  { left. exists (zbd_be_ s). split; [|intros; by rewrite store_nil].
    rewrite zlen_nil, after_write_0 by done. by destruct s. }
  mstep. unfold with_be, zoom, call. unfold bind at 1.
  destruct (be_Write ptr (wp_ zn) (zbd_be_ s)) as [[r err] d1] eqn:Ew.
  destruct (Z.ltb_spec r 0) as [Hr|Hr].
  { right. exists 0, err, d1. rewrite after_write_0 by done.
    assert (0 < zlen ptr) by (destruct ptr; [done|]; rewrite zlen_cons; zlen_solve).
    split_and!; [lia|lia|done|]. intros a Ha. rewrite ztake_0, store_nil.
    eapply write_err; [done|lia|lia]. }
  destruct (write_ok _ _ _ _ _ _ Ew Hr) as (Hle & Hpos & Hdisk).
  assert (0 < r) by (apply Hpos; destruct ptr; [done|]; rewrite zlen_cons; zlen_solve).
  do 2 mstep. change (set_bytes_written _ _) with (after_write z zn r d1 s).
  assert (wp_ (advance r zn) = wp_ zn + r) as Hwp.
  { destruct Hu as [[??] ?]. simpl. apply u64_small. lia. }
  assert (zlen (zdrop r ptr) = zlen ptr - r) as Hlen by (rewrite zlen_zdrop; lia).
  destruct (IH (advance r zn) (zdrop r ptr) (after_write z zn r d1 s))
    as [(d2 & -> & Hd2)|(m & err2 & d2 & Hm & -> & Hd2)].
  - unfold zlen in Hlen, Hle. lia.
  - simpl. by rewrite lookup_insert_eq.
  - apply zone_u64_advance.
  - apply u64_range.
  - lia.
  - left. exists d2. rewrite after_write_after_write. split; [do 2 f_equal; lia|].
    intros a. rewrite Hd2, Hwp. simpl.
    rewrite (store_ext _ _ _ _ _ Hdisk). apply store_split. lia.
  - right. exists (r + m), err2, d2. rewrite after_write_after_write.
    split; [lia|]. split; [done|]. intros a Ha. rewrite Hd2 by lia. rewrite Hwp. simpl.
    rewrite (store_ext _ _ _ _ _ Hdisk).
    rewrite <- (store_split _ _ (ztake (r + m) ptr) r) by (rewrite zlen_ztake; lia).
    unfold ztake, zdrop. rewrite take_take, skipn_firstn_comm.
    do 2 f_equal; [f_equal|]; f_equal; lia.
Qed.
End append.

(** ** The invariant of a zone *)

Section zone_wf.
Context {D L : Type} `{be : ZonedBlockDeviceBackend D L}.
Implicit Types s : Zbd D.

(** Zones are aligned to their size.  The write pointer is in the zone, and what is left is the capacity not
    yet written, or nothing once the zone was finished or went offline. *)
Definition zone_wf (zn : Zone) : Prop :=
  (0 <= start_ zn /\ start_ zn mod zone_sz_ = 0) /\ start_ zn + zone_sz_ < 2 ^ 64 /\
  0 <= max_capacity_ zn <= zone_sz_ /\
  start_ zn <= wp_ zn <= start_ zn + zone_sz_ /\
  0 <= capacity_ zn /\
  (capacity_ zn = 0 \/ capacity_ zn = max_capacity_ zn - (wp_ zn - start_ zn)) /\
  is_u 64 (used_capacity_ zn).

Definition zones_wf s : Prop := map_Forall (fun _ => zone_wf) (zone_heap s).

Lemma zone_wf_u64 zn : zone_wf zn -> zone_u64 zn.
Proof. unfold zone_wf, zone_u64, is_u. intros (?&?&?&?&?&?&?). lia. Qed.

Lemma zone_wf_advance n zn : zone_wf zn -> 0 <= n <= capacity_ zn -> zone_wf (advance n zn).
Proof.
  unfold zone_wf, advance, is_u. simpl. intros (?&?&?&?&?&?&?) ?.
  rewrite !u64_small by lia. lia.
Qed.

Lemma zones_wf_lookup s z zn : zones_wf s -> zone_heap s !! z = Some zn -> zone_wf zn.
Proof. intros H. apply H. Qed.

Lemma zones_wf_insert s z zn :
  zones_wf s -> zone_wf zn -> zones_wf (set_heap (<[z := zn]> (zone_heap s)) s).
Proof. intros Hs Hz. by apply map_Forall_insert_2. Qed.

Lemma get_zone_wf z s zn s' : zones_wf s -> get_zone z s = Ok zn s' -> s' = s /\ zone_wf zn.
Proof.
  intros Hs. unfold get_zone, bind, get, deref.
  destruct (zone_heap s !! z) eqn:E; [|done]. intros H. unfold ret in H. simplify_eq.
  split; [done|]. by eapply zones_wf_lookup.
Qed.

Lemma preserves_get_zone P z : preserves P (get_zone z : M (Zbd D) _).
Proof. unfold get_zone. preserves_solve. Qed.

Lemma mod_zone_wf z f :
  (forall zn, zone_wf zn -> zone_wf (f zn)) -> preserves zones_wf (mod_zone z f).
Proof.
  intros Hf s Hs. unfold mod_zone, bind.
  destruct (get_zone z s) as [zn s1|e s1|] eqn:E; [|by pose proof (preserves_get_zone _ z s Hs) as H; rewrite E in H|done].
  destruct (get_zone_wf _ _ _ _ Hs E) as [-> Hz]. simpl. apply zones_wf_insert; auto.
Qed.

Lemma with_be_wf {A} (m : M D A) : preserves zones_wf (with_be m).
Proof. intros s Hs. unfold with_be, zoom. by destruct (m (zbd_be_ s)). Qed.

Lemma AddBytesWritten_wf n : preserves zones_wf (AddBytesWritten n).
Proof. intros s Hs. done. Qed.
End zone_wf.

(** Closes [zone_wf] of a concrete zone. *)
Ltac zone_wf_done := unfold zone_wf, is_u; split_and!; (reflexivity || (simpl; lia)).
#[export] Hint Resolve preserves_get_zone mod_zone_wf with_be_wf AddBytesWritten_wf : preserves.

Section methods_wf.
Context {D L : Type} `{spec : BackendSpec D L}.
Implicit Types s : Zbd D.

Lemma zone_wf_set_busy b zn : zone_wf zn -> zone_wf (set_busy b zn).
Proof. done. Qed.
Hint Resolve zone_wf_set_busy : preserves.

Lemma Acquire_wf z : preserves (S := Zbd D) zones_wf (Acquire z).
Proof. unfold Acquire. preserves_solve. Qed.

Lemma Release_wf z : preserves (S := Zbd D) zones_wf (Release z).
Proof. unfold Release. preserves_solve. Qed.
Hint Resolve Acquire_wf Release_wf : preserves.

Lemma CheckRelease_wf z : preserves (S := Zbd D) zones_wf (CheckRelease z).
Proof. unfold CheckRelease, GetZoneNr. preserves_solve. Qed.

Lemma zone_call_wf {A} z (r : (Status + A) * D) f s :
  zones_wf s -> (forall a d', r = (inr a, d') -> zone_wf (f a)) ->
  match zone_call z r f s with Ok _ s' | Err _ s' => zones_wf s' | Stuck _ => True end.
Proof.
  intros Hs Hf. unfold zone_call. destruct r as [[e|a] d']; [done|].
  by apply (zones_wf_insert (set_be d' s)), (Hf a d').
Qed.

(** A method that starts by reading its zone. *)
Lemma preserves_zone {A} (m : M (Zbd D) A) z :
  (forall s, zone_heap s !! z = None -> m s = Stuck Undefined) ->
  (forall s zn, zones_wf s -> zone_heap s !! z = Some zn -> zone_wf zn ->
     match m s with Ok _ s' | Err _ s' => zones_wf s' | Stuck _ => True end) ->
  preserves zones_wf m.
Proof.
  intros Hn Hm s Hs. destruct (zone_heap s !! z) eqn:E; [|by rewrite Hn].
  eapply Hm; [done..|]. by eapply zones_wf_lookup.
Qed.

Lemma get_zone_none {A} z (k : Zone -> M (Zbd D) A) s :
  zone_heap s !! z = None -> bind (get_zone z) k s = Stuck Undefined.
Proof. intros H. unfold bind, get_zone, get, deref, bind. by rewrite H. Qed.

Lemma Zone_Reset_wf z : preserves (S := Zbd D) zones_wf (Zone_Reset z).
Proof.
  apply (preserves_zone _ z); [apply get_zone_none|]. intros s zn Hs Hz Hwf.
  rewrite (Zone_Reset_run _ zn) by done. apply zone_call_wf; [done|].
  intros [offline mc] d' E. apply reset_ok in E as [Hmc _]; [|apply Hwf]. pose proof zone_sz_pos.
  revert Hwf. unfold zone_wf, is_u. simpl. destruct offline; lia.
Qed.

Lemma Zone_Finish_wf z : preserves (S := Zbd D) zones_wf (Zone_Finish z).
Proof.
  apply (preserves_zone _ z); [apply get_zone_none|]. intros s zn Hs Hz Hwf.
  rewrite (Zone_Finish_run _ zn) by done. apply zone_call_wf; [done|].
  intros a d' E. pose proof zone_sz_pos. revert Hwf. unfold zone_wf, is_u. simpl.
  intros (?&?&?&?&?&?&?). rewrite u64_small by lia. lia.
Qed.

Lemma Zone_Close_wf z : preserves (S := Zbd D) zones_wf (Zone_Close z).
Proof. unfold Zone_Close. preserves_solve. Qed.

Lemma ZoneAppend_wf z data wal : preserves (S := Zbd D) zones_wf (ZoneAppend z data wal).
Proof.
  apply (preserves_zone _ z); [apply get_zone_none|]. intros s zn Hs Hz Hwf.
  unfold ZoneAppend. mstep. destruct (Z.ltb_spec (capacity_ zn) (zlen data)); [done|].
  unfold bind at 1, with_be, zoom, call.
  destruct (be_Append data wal (zbd_be_ s)) as [[r err] [w d']].
  destruct (r <? 0); [done|]. do 2 mstep.
  apply (zones_wf_insert (set_be d' s)); [done|].
  apply zone_wf_advance; [done|]. pose proof (zlen_nonneg data). lia.
Qed.

Lemma Append_loop_wf n z zn ptr s :
  zones_wf s -> zone_heap s !! z = Some zn -> zlen ptr <= capacity_ zn ->
  match Append_loop n z ptr s with Ok _ s' | Err _ s' => zones_wf s' | Stuck _ => True end.
Proof.
  revert zn ptr s. induction n as [|n IH]; intros zn ptr s Hs Hz Hc; simpl.
  { by destruct (decide (ptr = [])). }
  destruct (decide (ptr = [])); [done|]. mstep. unfold bind at 1, with_be, zoom, call.
  destruct (be_Write ptr (wp_ zn) (zbd_be_ s)) as [[r err] d'] eqn:Ew.
  destruct (Z.ltb_spec r 0) as [Hr|Hr]; [done|].
  destruct (write_ok _ _ _ _ _ _ Ew Hr) as (Hle & _ & _). do 2 mstep.
  pose proof (zones_wf_lookup _ _ _ Hs Hz) as Hwf.
  apply (IH (advance r zn)).
  - apply (zones_wf_insert (set_be d' s)); [done|]. apply zone_wf_advance; [done|lia].
  - simpl. by rewrite lookup_insert_eq.
  - rewrite zlen_zdrop by lia. simpl. apply zone_wf_u64 in Hwf as [_ [? ?]].
    rewrite u64_small by lia. lia.
Qed.

Lemma Append_wf z data : preserves (S := Zbd D) zones_wf (Append z data).
Proof.
  apply (preserves_zone _ z); [apply get_zone_none|]. intros s zn Hs Hz Hwf.
  unfold Append. mstep. destruct (Z.ltb_spec (capacity_ zn) (zlen data)); [done|].
  by apply (Append_loop_wf _ _ zn).
Qed.
End methods_wf.
#[export] Hint Resolve zone_wf_set_busy Acquire_wf Release_wf CheckRelease_wf Zone_Reset_wf
  Zone_Finish_wf Zone_Close_wf ZoneAppend_wf Append_wf : preserves.
(** [Zone::Append] on every branch.  With too little capacity it fails with
    [NoSpace] and changes nothing.  Otherwise it ends, after however many short
    writes: either all of [data] is on the device at the old write pointer, the
    write pointer, remaining capacity and [bytes_written_] move by exactly its
    size and nothing else of the state or the device changes; or a write
    failed, the zone accounts for exactly the prefix the device accepted, and
    the device changed at most within the range of the call. *)
Theorem Zone_Append_correct `{spec : BackendSpec D L} (z : nat) zn data (s : Zbd D) :
  zone_heap s !! z = Some zn -> zone_u64 zn -> is_u 64 (bytes_written_ s) ->
  wp_ zn + zlen data < 2 ^ 64 -> (length data <= loop_bound)%nat ->
  if capacity_ zn <? zlen data
  then Append z data s = Err (NoSpace "Not enough capacity for append") s
  else appended z zn data s (Append z data s).
Proof.
  intros Hz Hu Hb Hw Hf. unfold Append. mstep.
  destruct (capacity_ zn <? zlen data); [done|]. by apply Append_loop_ok.
Qed.

(** Four empty zones of the small device. *)
Definition zone0 (i : nat) : Zone :=
  mkZone (Z.of_nat i * 64) 64 64 (Z.of_nat i * 64) WLTH_NOT_SET 0 false.
Definition zbd0 : Zbd MemDev :=
  mkZbd mem_empty (list_to_map ((fun i => (i, zone0 i)) <$> seq 0 4)) [1; 2; 3]%nat [] [0]%nat
    0 0 0 0 0 OK false 2 2 0.

Definition forty : bytes := replicate 40 Byte.x2a.

(** 40 bytes go out in three calls of at most 16. *)
Lemma Zone_Append_correct_witness :
  if capacity_ (zone0 1) <? zlen forty
  then Append (be := be0) 1%nat forty zbd0 = Err (NoSpace "Not enough capacity for append") zbd0
  else appended (spec := spec0) 1%nat (zone0 1) forty zbd0 (Append (be := be0) 1%nat forty zbd0).
Proof.
  apply (Zone_Append_correct (spec := spec0) 1%nat (zone0 1) forty zbd0);
    [reflexivity|repeat split; simpl; lia|split; simpl; lia|reflexivity|by apply Nat.leb_le].
Defined.
