(* ===== verification/Zbd.v ===== *)
(** * The zoned block device

    [class ZonedBlockDevice] (zbd_zenfs.h, zbd_zenfs.cc): opening the device,
    the tokens for open and active zones, the allocators for metadata, I/O and
    write-ahead-log zones, finishing and resetting zones, migration, reads.

    A method runs to its end while the zones other threads hold are busy;
    where it waits for another thread ([wait] on a condition variable, a spin
    loop on a flag) and the condition does not hold, its outcome is
    [Blocked]. *)

From S2P Require Import Prelude Status Device MemDevice Zone.

(** ** Constants *)

Definition ZENFS_META_ZONES : Z := 3.
Definition ZENFS_FLAKY_ZONES : Z := 1.
Definition ZENFS_WAL_ZONES : Z := 15.
Definition ZENFS_ZONES_FOREACH_WAL : Z := 3.
Definition ZENFS_MIN_ZONES : Z := 32.
Definition write_channel_size_ : Z := 8.
Definition LIFETIME_DIFF_NOT_GOOD : Z := 100.
Definition LIFETIME_DIFF_COULD_BE_WORSE : Z := 50.

(** [IOType]; the code only tells the write-ahead log from the rest. *)
Inductive IOType := kData | kFilter | kIndex | kMetadata | kWAL | kManifest | kLog | kUnknown | kInvalid.
#[export] Instance IOType_eq_dec : EqDecision IOType.
Proof. solve_decision. Defined.
Definition is_kWAL (t : IOType) : bool := bool_decide (t = kWAL).

(** [for (i = 0; i < n; i += k)] *)
Definition steps (n k : nat) : list nat := (fun j => (j * k)%nat) <$> seq 0 ((n + k - 1) / k).

Definition GetLifeTimeDiff (zone_lifetime file_lifetime : Z) : Z :=
  if (file_lifetime =? WLTH_NOT_SET) || (file_lifetime =? WLTH_NONE) then
    if file_lifetime =? zone_lifetime then 0 else LIFETIME_DIFF_NOT_GOOD
  else if file_lifetime <? zone_lifetime then u32 (zone_lifetime - file_lifetime)
  else if zone_lifetime =? file_lifetime then LIFETIME_DIFF_COULD_BE_WORSE
  else LIFETIME_DIFF_NOT_GOOD.

(** snapshot.h *)
Record ZoneSnapshot := mkZoneSnapshot {
  zs_start : Z; zs_wp : Z; zs_capacity : Z; zs_used_capacity : Z; zs_max_capacity : Z
}.
Definition ZoneSnapshot_of (z : Zone) : ZoneSnapshot :=
  mkZoneSnapshot (start_ z) (wp_ z) (capacity_ z) (used_capacity_ z) (max_capacity_ z).

Section zbd.
Context {D L : Type} `{be : ZonedBlockDeviceBackend D L}.
Abbreviation ZM := (M (Zbd D)).

(** ** Looking zones up *)

Definition in_zone (offset : Z) (zn : Zone) : bool :=
  (start_ zn <=? offset) && (offset <? start_ zn +64 zone_sz_).

Fixpoint find_zone (zs : list nat) (offset : Z) : ZM (option nat) :=
  match zs with
  | [] => ret None
  | z :: zs' =>
      zn <- get_zone z ;;
      if in_zone offset zn then ret (Some z) else find_zone zs' offset
  end.

Definition GetIOZone (offset : Z) : ZM (option nat) :=
  s <- get ;;
  r <- find_zone (io_zones s) offset ;;
  match r with
  | Some z => ret (Some z)
  | None => find_zone (wal_zones s) offset
  end.

Definition io_fold {A} (f : A -> Zone -> A) (a : A) : ZM A :=
  s <- get ;; foldM (fun a z => zn <- get_zone z ;; ret (f a zn)) a (io_zones s).

Definition GetFreeSpace : ZM Z := io_fold (fun free zn => free +64 capacity_ zn) 0.
Definition GetUsedSpace : ZM Z := io_fold (fun used zn => used +64 used_capacity_ zn) 0.
Definition GetReclaimableSpace : ZM Z :=
  io_fold (fun r zn => if IsFull zn then r +64 (max_capacity_ zn -64 used_capacity_ zn) else r) 0.

Definition GetZoneSnapshot : ZM (list ZoneSnapshot) :=
  io_fold (fun l zn => l ++ [ZoneSnapshot_of zn]) [].

(** ** Tokens *)

Definition PutOpenIOZoneToken : ZM unit :=
  modify (fun s => set_tokens (active_io_zones_ s) (open_io_zones_ s - 1) s).
Definition PutActiveIOZoneToken : ZM unit :=
  modify (fun s => set_tokens (active_io_zones_ s - 1) (open_io_zones_ s) s).

Definition allocator_open_limit (prioritized : bool) (s : Zbd D) : Z :=
  if prioritized then max_nr_open_io_zones_ s else max_nr_open_io_zones_ s -32 1.

Definition WaitForOpenIOZoneToken (prioritized : bool) : ZM unit :=
  s <- get ;;
  if open_io_zones_ s <? allocator_open_limit prioritized s
  then modify (fun s => set_tokens (active_io_zones_ s) (open_io_zones_ s + 1) s)
  else stuckM Blocked.

Definition GetActiveIOZoneTokenIfAvailable : ZM bool :=
  s <- get ;;
  if active_io_zones_ s <? max_nr_active_io_zones_ s
  then modify (fun s => set_tokens (active_io_zones_ s + 1) (open_io_zones_ s) s) ;; ret true
  else ret false.

(** ** Resetting and finishing zones *)

(** One round of the loop of [ResetUnusedIOZones]. *)
Definition reset_round (z : nat) : ZM unit :=
  acq <- Acquire z ;;
  when acq (
    zn <- get_zone z ;;
    if negb (IsEmpty zn) && negb (IsUsed zn) then
      let full := IsFull zn in
      reset_status <- attempt (Zone_Reset z) ;;
      release_status <- attempt (CheckRelease z) ;;
      returnS (status_of reset_status) ;;
      returnS (status_of release_status) ;;
      when (negb full) PutActiveIOZoneToken
    else CheckRelease z).

Definition ResetUnusedIOZones : ZM unit := s <- get ;; forM (io_zones s) reset_round.

(** The log itself resets the zones on the device. *)
Definition ReleaseUnusedWALZones : ZM unit :=
  s0 <- foldM (fun s i =>
    st <- get ;;
    z <- deref (wal_zones st !! i) ;;
    acq <- Acquire z ;;
    if (acq : bool) then
      zn <- get_zone z ;;
      if negb (IsEmpty zn) && negb (IsUsed zn) then
        let full := IsFull zn in
        mod_zone z (fun zn => set_wp (start_ zn) (set_capacity (max_capacity_ zn) zn)) ;;
        s <- attempt (CheckRelease z) ;;
        when (negb full) PutActiveIOZoneToken ;;
        ret (status_of s)
      else s <- attempt (CheckRelease z) ;; ret (status_of s)
    else ret s) OK (seq 0 (Z.to_nat ZENFS_WAL_ZONES)) ;;
  returnS s0.

(** One round of the loop of [ApplyFinishThreshold]. *)
Definition finish_round (threshold : Z) (z : nat) : ZM unit :=
  acq <- Acquire z ;;
  when acq (
    zn <- get_zone z ;;
    let within_finish_threshold :=
      capacity_ zn <? (max_capacity_ zn *64 threshold) / 100 in
    if negb (IsEmpty zn || IsFull zn) && within_finish_threshold then
      r <- attempt (Zone_Finish z) ;;
      match r with
      | inl e => Release z ;; fail e
      | inr _ => CheckRelease z ;; PutActiveIOZoneToken
      end
    else CheckRelease z).

Definition ApplyFinishThreshold : ZM unit :=
  s <- get ;;
  if finish_threshold_ s =? 0 then ret tt
  else forM (io_zones s) (finish_round (finish_threshold_ s)).

Definition finish_candidate (victim : option nat) (z : nat) : ZM (option nat) :=
  acq <- Acquire z ;;
  if (acq : bool) then
    zn <- get_zone z ;;
    if IsEmpty zn || IsFull zn then CheckRelease z ;; ret victim else
    match victim with
    | None => ret (Some z)
    | Some v =>
        vn <- get_zone v ;;
        if capacity_ zn <? capacity_ vn then CheckRelease v ;; ret (Some z)
        else CheckRelease z ;; ret (Some v)
    end
  else ret victim.

Definition FinishCheapestIOZone : ZM unit :=
  s <- get ;;
  finish_victim <- foldM finish_candidate None (io_zones s) ;;
  match finish_victim with
  | None => ret tt
  | Some v =>
      r <- attempt (Zone_Finish v) ;;
      release_status <- attempt (CheckRelease v) ;;
      when (ok (status_of r)) PutActiveIOZoneToken ;;
      returnS (status_of release_status) ;;
      returnS (status_of r)
  end.

(** ** Allocating zones *)

Fixpoint AllocateMetaZone_loop (zs : list nat) : ZM nat :=
  match zs with
  | [] => fail (NoSpace "Out of metadata zones")
  | z :: zs' =>
      acq <- Acquire z ;;
      if (acq : bool) then
        zn <- get_zone z ;;
        if negb (IsUsed zn) then
          reset <- (if negb (IsEmpty zn) then r <- attempt (Zone_Reset z) ;; ret (status_of r)
                    else ret OK) ;;
          if negb (ok reset) then CheckRelease z ;; AllocateMetaZone_loop zs'
          else ret z
        else AllocateMetaZone_loop zs'
      else AllocateMetaZone_loop zs'
  end.
Definition AllocateMetaZone : ZM nat := s <- get ;; AllocateMetaZone_loop (meta_zones s).

Definition best_candidate (file_lifetime min_capacity : Z) (acc : Z * option nat) (z : nat) :
  ZM (Z * option nat) :=
  let '(best_diff, allocated_zone) := acc in
  acq <- Acquire z ;;
  if (acq : bool) then
    zn <- get_zone z ;;
    if (0 <? used_capacity_ zn) && negb (IsFull zn) && (min_capacity <=? capacity_ zn) then
      let diff := GetLifeTimeDiff (lifetime_ zn) file_lifetime in
      if diff <=? best_diff then
        match allocated_zone with
        | Some a =>
            r <- attempt (CheckRelease a) ;;
            match r with
            | inl e => CheckRelease z ;; fail e
            | inr _ => ret tt
            end
        | None => ret tt
        end ;;
        ret (diff, Some z)
      else CheckRelease z ;; ret acc
    else CheckRelease z ;; ret acc
  else ret acc.

Definition GetBestOpenZoneMatch (file_lifetime min_capacity : Z) : ZM (Z * option nat) :=
  s <- get ;;
  foldM (best_candidate file_lifetime min_capacity) (LIFETIME_DIFF_NOT_GOOD, None) (io_zones s).

Fixpoint AllocateEmptyZone_loop (zs : list nat) : ZM (option nat) :=
  match zs with
  | [] => ret None
  | z :: zs' =>
      acq <- Acquire z ;;
      if (acq : bool) then
        zn <- get_zone z ;;
        if IsEmpty zn then ret (Some z) else CheckRelease z ;; AllocateEmptyZone_loop zs'
      else AllocateEmptyZone_loop zs'
  end.
Definition AllocateEmptyZone : ZM (option nat) :=
  s <- get ;; AllocateEmptyZone_loop (io_zones s).

Definition GetZoneDeferredStatus : ZM IOStatus := gets zone_deferred_status_.
Definition SetZoneDeferredStatus (status : IOStatus) : ZM unit :=
  modify (fun s => if negb (ok (zone_deferred_status_ s)) then set_deferred status s else s).

(** [while (!got_token && !GetActiveIOZoneTokenIfAvailable())] *)
Fixpoint get_active_token (n : nat) (got_token : bool) : ZM unit :=
  if got_token then ret tt else
  got <- GetActiveIOZoneTokenIfAvailable ;;
  if (got : bool) then ret tt else
  match n with
  | O => stuckM OutOfFuel
  | S n' =>
      r <- attempt FinishCheapestIOZone ;;
      match r with
      | inl e => PutOpenIOZoneToken ;; fail e
      | inr _ => get_active_token n' false
      end
  end.

(** Opens a new zone for [file_lifetime]. *)
Definition open_new_zone (file_lifetime : Z) (got_token : bool) : ZM (option nat) :=
  get_active_token loop_bound got_token ;;
  r <- attempt AllocateEmptyZone ;;
  match r with
  | inl e => PutActiveIOZoneToken ;; PutOpenIOZoneToken ;; fail e
  | inr (Some z) => mod_zone z (set_lifetime file_lifetime) ;; ret (Some z)
  | inr None => PutActiveIOZoneToken ;; ret None
  end.

Definition AllocateIOZone (file_lifetime : Z) (io_type : IOType) : ZM (option nat) :=
  s <- GetZoneDeferredStatus ;;
  returnS s ;;
  when (negb (is_kWAL io_type)) ApplyFinishThreshold ;;
  WaitForOpenIOZoneToken (is_kWAL io_type) ;;
  r <- attempt (GetBestOpenZoneMatch file_lifetime 0) ;;
  match r with
  | inl e => PutOpenIOZoneToken ;; fail e
  | inr (best_diff, allocated_zone) =>
      allocated_zone <- (
        if LIFETIME_DIFF_COULD_BE_WORSE <=? best_diff then
          got_token <- GetActiveIOZoneTokenIfAvailable ;;
          allocated_zone <- match allocated_zone with
            | Some a =>
                if negb got_token && (best_diff =? LIFETIME_DIFF_COULD_BE_WORSE)
                then ret (Some a)
                else
                  r <- attempt (CheckRelease a) ;;
                  match r with
                  | inl e =>
                      PutOpenIOZoneToken ;; when got_token PutActiveIOZoneToken ;; fail e
                  | inr _ => ret None
                  end
            | None => ret None
            end ;;
          match allocated_zone with
          | Some a => ret (Some a)
          | None => open_new_zone file_lifetime got_token
          end
        else ret allocated_zone) ;;
      match allocated_zone with
      | Some a => ret tt
      | None => PutOpenIOZoneToken
      end ;;
      ret allocated_zone
  end.

(** ** Migration *)

Definition ReleaseMigrateZone (zone : option nat) : ZM unit :=
  modify (set_migrating false) ;;
  match zone with Some z => CheckRelease z | None => ret tt end.

Definition TakeMigrateZone (file_lifetime min_capacity : Z) : ZM (option nat) :=
  s <- get ;;
  if migrating_ s then stuckM Blocked else
  modify (set_migrating true) ;;
  r <- attempt (GetBestOpenZoneMatch file_lifetime min_capacity) ;;
  match r with
  | inr (_, Some z) => ret (Some z)
  | inr (_, None) => modify (set_migrating false) ;; ret None
  | inl e => modify (set_migrating false) ;; fail e
  end.

(** ** Reading *)

Definition InvalidateCache (pos size : Z) : ZM unit :=
  r <- with_be (call (be_InvalidateCache pos size)) ;;
  if r =? 0 then ret tt else fail (IOError "Failed to invalidate cache").

(** [r] is what the last call returned, [acc] the [ret] bytes in the buffer. *)
Fixpoint Read_loop (n : nat) (offset left : Z) (direct : bool) (r : Z) (acc : bytes) :
  ZM (Z * bytes) :=
  let done_ r := ret (if r <? 0 then r else zlen acc, acc) in
  if left =? 0 then done_ r else
  match n with
  | O => stuckM OutOfFuel
  | S n' =>
      let* (r, errno, data) := with_be (call (be_Read left offset direct)) in
      if r <=? 0 then
        if (r =? -1) && (errno =? EINTR) then Read_loop n' offset left direct r acc
        else done_ r
      else Read_loop n' (offset +64 r) (left - r) direct r (acc ++ data)
  end.

(** The [int] returned and the bytes at the start of the buffer. *)
Definition Zbd_Read (offset n : Z) (direct : bool) : ZM (Z * bytes) :=
  Read_loop loop_bound offset n direct (-1) [].
End zbd.

Section zbd_wal.
Context {D L : Type} `{be : ZonedBlockDeviceBackend D L} {szd : SZDOnceLog D L}.
Abbreviation ZM := (M (Zbd D)).

(** ** Zones of the write-ahead log *)

(** The [compare_exchange_weak] loop on [write_channel_ptr_]. *)
Definition next_channel : ZM Z :=
  s <- get ;;
  let next_ind := (write_channel_ptr_ s + 1) mod write_channel_size_ in
  modify (set_write_channel_ptr next_ind) ;;
  ret next_ind.

(** [new SZDOnceLog(...)] and [RecoverPointers()]. *)
Definition new_wal (min_zone max_zone : Z) : ZM (bool * L) :=
  next_ind <- next_channel ;;
  with_be (call (fun d =>
    let '(b, (w, d')) := szd_RecoverPointers (szd_new min_zone max_zone next_ind) d in
    ((b, w), d'))).

Definition recover_status (b : bool) : IOStatus := if b then OK else IOError "WAL recover error".

Fixpoint GetWAL_loop (idxs : list nat) (offset : Z) : ZM (option L) :=
  match idxs with
  | [] => ret None
  | i :: idxs' =>
      s <- get ;;
      z <- deref (wal_zones s !! i) ;;
      zn <- get_zone z ;;
      if in_zone offset zn then
        let* (_, wal) :=
          new_wal (Z.of_nat i + ZENFS_META_ZONES + ZENFS_FLAKY_ZONES)
            (Z.of_nat i + ZENFS_META_ZONES + ZENFS_ZONES_FOREACH_WAL + ZENFS_FLAKY_ZONES) in
        ret (Some wal)
      else GetWAL_loop idxs' offset
  end.
Definition GetWAL (offset : Z) : ZM (option L) :=
  s <- get ;; GetWAL_loop (steps (length (wal_zones s)) 3) offset.

(** [wal_zones[i]] *)
Definition wal_zone_at (i : Z) : ZM nat :=
  s <- get ;; deref (if 0 <=? i then wal_zones s !! Z.to_nat i else None).

(** [while (!GetActiveIOZoneTokenIfAvailable()) ;] *)
Definition spin_active_token : ZM unit :=
  got <- GetActiveIOZoneTokenIfAvailable ;;
  if (got : bool) then ret tt else stuckM Blocked.

(** The new log, which takes the place of the file's, and the status. *)
Definition OpenWALZone (active_zone : nat) : ZM (L * IOStatus) :=
  WaitForOpenIOZoneToken true ;;
  spin_active_token ;;
  nr <- GetZoneNr active_zone ;;
  z <- wal_zone_at ((nr -64 ZENFS_META_ZONES) -64 ZENFS_FLAKY_ZONES) ;;
  acq <- Acquire z ;;
  (if (acq : bool) then ret tt else stuckM Blocked) ;;
  znr <- GetZoneNr z ;;
  let* (b, wal) := new_wal znr (znr +64 ZENFS_ZONES_FOREACH_WAL) in
  ret (wal, recover_status b).

Fixpoint AllocateWALZone_loop (idxs : list nat) : ZM (option (nat * nat)) :=
  match idxs with
  | [] => ret None
  | i :: idxs' =>
      s <- get ;;
      z <- deref (wal_zones s !! i) ;;
      acq <- Acquire z ;;
      if (acq : bool) then
        zn <- get_zone z ;;
        if IsEmpty zn then ret (Some (i, z)) else CheckRelease z ;; AllocateWALZone_loop idxs'
      else AllocateWALZone_loop idxs'
  end.

(** A fresh group of zones. *)
Definition AllocateWALZone_new (wal : option L) : ZM (IOStatus * option nat * option L) :=
  WaitForOpenIOZoneToken true ;;
  spin_active_token ;;
  r <- attempt (AllocateWALZone_loop
         (steps (Z.to_nat ZENFS_WAL_ZONES) (Z.to_nat ZENFS_ZONES_FOREACH_WAL))) ;;
  match r with
  | inl e => ret (e, None, wal)
  | inr None =>
      PutActiveIOZoneToken ;;
      PutOpenIOZoneToken ;;
      ret (NoSpace "No WAL space left (during alloc)", None, wal)
  | inr (Some (i, z)) =>
      let* (b, wal') :=
        new_wal (Z.of_nat i + ZENFS_META_ZONES + ZENFS_FLAKY_ZONES)
          (Z.of_nat i + ZENFS_META_ZONES + ZENFS_ZONES_FOREACH_WAL + ZENFS_FLAKY_ZONES) in
      ret (recover_status b, Some z, Some wal')
  end.

(** The status, [*wal_zones_out] where it is set, and [*wal] afterwards. *)
Definition AllocateWALZone (wal : option L) (active_zone : option nat) :
  ZM (IOStatus * option nat * option L) :=
  attempt ReleaseUnusedWALZones ;;
  match active_zone with
  | Some a =>
      nr <- GetZoneNr a ;;
      let w_z := ((nr -64 ZENFS_META_ZONES) -64 ZENFS_FLAKY_ZONES)
                   mod ZENFS_ZONES_FOREACH_WAL in
      if w_z =? ZENFS_ZONES_FOREACH_WAL - 1 then AllocateWALZone_new wal else
      z <- wal_zone_at (((nr +64 1) -64 ZENFS_META_ZONES) -64 ZENFS_FLAKY_ZONES) ;;
      match wal with
      | Some w => ret (OK, Some z, wal)
      | None =>
          let* (b, wal') :=
            new_wal (w_z + ZENFS_META_ZONES + ZENFS_FLAKY_ZONES)
              (w_z + ZENFS_META_ZONES + ZENFS_ZONES_FOREACH_WAL + ZENFS_FLAKY_ZONES) in
          ret (recover_status b, Some z, Some wal')
      end
  | None => AllocateWALZone_new wal
  end.
End zbd_wal.

(** ** Scanning the zones

    The allocators walk over [io_zones] holding at most one zone.  [hold v s]
    is [s] with the zone [v] marked busy. *)

Section scan.
Context {D L : Type} `{be : ZonedBlockDeviceBackend D L}.
Implicit Types s : Zbd D.

Definition hold (v : option nat) s : Zbd D :=
  match v with
  | Some z => set_heap (alter (set_busy true) z (zone_heap s)) s
  | None => s
  end.

Definition free_zone (h : gmap nat Zone) (z : nat) (zn : Zone) : Prop :=
  h !! z = Some zn /\ busy_ zn = false.

Lemma hold_lookup z zn s :
  zone_heap s !! z = Some zn -> zone_heap (hold (Some z) s) !! z = Some (set_busy true zn).
Proof. intros H. simpl. by rewrite lookup_alter_eq, H. Qed.

Lemma hold_lookup_ne v z s : v <> Some z -> zone_heap (hold v s) !! z = zone_heap s !! z.
Proof. intros H. destruct v; [|done]. simpl. apply lookup_alter_ne. congruence. Qed.

Lemma alter_insert_id (h : gmap nat Zone) z zn f : h !! z = Some zn -> <[z := f zn]> h = alter f z h.
Proof.
  intros H. apply map_eq. intros i. destruct (decide (i = z)) as [->|].
  - by rewrite lookup_insert_eq, lookup_alter_eq, H.
  - by rewrite lookup_insert_ne, lookup_alter_ne.
Qed.

Lemma Acquire_hold z zn s : free_zone (zone_heap s) z zn -> Acquire z s = Ok true (hold (Some z) s).
Proof.
  intros [H Hb]. rewrite (Acquire_free z zn) by done. simpl. by rewrite alter_insert_id.
Qed.

Lemma CheckRelease_hold z zn s :
  free_zone (zone_heap s) z zn -> CheckRelease z (hold (Some z) s) = Ok tt s.
Proof.
  intros [H Hb]. rewrite (CheckRelease_busy z (set_busy true zn)); [|by apply hold_lookup|done].
  simpl. rewrite set_busy_set_busy, set_busy_id by done.
  rewrite <- (alter_insert_id _ z zn) by done.
  rewrite set_heap_set_heap, insert_insert_eq, insert_id by done. f_equal. apply set_heap_id.
Qed.

Lemma hold_hold v z s : v <> z -> hold (Some z) (hold (Some v) s) = hold (Some v) (hold (Some z) s).
Proof.
  intros H. simpl. rewrite !set_heap_set_heap. simpl. f_equal. apply map_eq; intros i. rewrite !lookup_alter. by repeat case_decide; subst.
Qed.

Lemma free_zone_hold v z zn s :
  v <> Some z -> free_zone (zone_heap s) z zn -> free_zone (zone_heap (hold v s)) z zn.
Proof. intros Hv [H Hb]. split; [|done]. by rewrite hold_lookup_ne. Qed.

(** [v] is free in [s], or there is none. *)
Definition holdable s (v : option nat) : Prop :=
  match v with Some z => exists zn, free_zone (zone_heap s) z zn | None => True end.

(** *** The zone that [FinishCheapestIOZone] picks *)

Definition cheaper (h : gmap nat Zone) (victim : option nat) (z : nat) : option nat :=
  match h !! z with
  | None => victim
  | Some zn =>
      if busy_ zn || (IsEmpty zn || IsFull zn) then victim else
      match victim with
      | None => Some z
      | Some v => match h !! v with
                  | Some vn => if capacity_ zn <? capacity_ vn then Some z else Some v
                  | None => Some v
                  end
      end
  end.

Lemma finish_candidate_run s v z :
  is_Some (zone_heap s !! z) -> v <> Some z -> holdable s v ->
  finish_candidate v z (hold v s)
  = Ok (cheaper (zone_heap s) v z) (hold (cheaper (zone_heap s) v z) s)
  /\ holdable s (cheaper (zone_heap s) v z).
Proof.
  intros [zn Hz] Hne Hv. unfold finish_candidate, cheaper. rewrite Hz.
  destruct (busy_ zn) eqn:Hb; simpl.
  { erewrite bind_ok; [|eapply Acquire_busy; [by rewrite hold_lookup_ne|done]]. done. }
  assert (free_zone (zone_heap s) z zn) as Hf by done.
  pose proof (free_zone_hold v z zn s Hne Hf) as Hfz.
  erewrite bind_ok by by eapply Acquire_hold. cbv iota.
  erewrite bind_ok by by apply get_zone_ok, hold_lookup, Hfz.
  change (IsEmpty (set_busy true zn)) with (IsEmpty zn).
  change (IsFull (set_busy true zn)) with (IsFull zn).
  destruct (IsEmpty zn || IsFull zn).
  { by erewrite bind_ok by by eapply CheckRelease_hold. }
  destruct v as [v|]; [|by split; [|exists zn]].
  destruct Hv as [vn [Hvn Hvb]]. assert (v <> z) as Hvz by congruence.
  rewrite Hvn, hold_hold by done.
  assert (zone_heap (hold (Some v) (hold (Some z) s)) !! v = Some (set_busy true vn)) as Hl.
  { apply hold_lookup. by rewrite hold_lookup_ne by congruence. }
  erewrite bind_ok by by apply get_zone_ok. cbn [capacity_ set_busy].
  destruct (capacity_ zn <? capacity_ vn).
  - erewrite bind_ok; [by split; [|exists zn]|]. eapply CheckRelease_hold.
    by apply free_zone_hold; [congruence|].
  - rewrite hold_hold by done. erewrite bind_ok; [by split; [|exists vn]|].
    by eapply CheckRelease_hold.
Qed.

Lemma finish_scan_run s zs v :
  Forall (fun z => is_Some (zone_heap s !! z)) zs -> NoDup zs ->
  (forall z, z ∈ zs -> v <> Some z) -> holdable s v ->
  let v' := foldl (cheaper (zone_heap s)) v zs in
  foldM finish_candidate v zs (hold v s) = Ok v' (hold v' s) /\ holdable s v'.
Proof.
  intros Hz Hnd. revert v. induction zs as [|z zs IH]; intros v Hv Hh; [done|].
  apply Forall_cons in Hz as [Hz Hzs]. apply NoDup_cons in Hnd as [Hni Hnd].
  destruct (finish_candidate_run s v z Hz) as [Hrun Hh']; [by apply Hv; left|done|].
  cbn [foldM foldl]. erewrite bind_ok by done. apply IH; [done..| |done].
  intros y Hy E. assert (y <> z) by congruence.
  revert E. unfold cheaper. destruct (zone_heap s !! z); [|apply Hv; by right].
  assert (v <> Some y) by (apply Hv; by right).
  repeat case_match; congruence.
Qed.

(** A zone the scan may pick: not busy, neither empty nor full. *)
Definition finishable (h : gmap nat Zone) (z : nat) (zn : Zone) : Prop :=
  free_zone h z zn /\ IsEmpty zn = false /\ IsFull zn = false.

Definition cheapest (h : gmap nat Zone) (zs : list nat) (v : option nat) : Prop :=
  match v with
  | None => forall z zn, z ∈ zs -> ~ finishable h z zn
  | Some v => exists vn, v ∈ zs /\ finishable h v vn /\
      forall z zn, z ∈ zs -> finishable h z zn -> capacity_ vn <= capacity_ zn
  end.

Lemma finishable_fun h z zn zn' : finishable h z zn -> finishable h z zn' -> zn = zn'.
Proof. intros [[? _] _] [[? _] _]. congruence. Qed.

Lemma cheaper_spec h v z :
  (cheaper h v z = v /\ forall zn, ~ finishable h z zn) \/
  exists zn, finishable h z zn /\ cheaper h v z =
    match v with
    | None => Some z
    | Some v => match h !! v with
                | Some vn => if capacity_ zn <? capacity_ vn then Some z else Some v
                | None => Some v
                end
    end.
Proof.
  unfold cheaper, finishable, free_zone.
  destruct (h !! z) as [zn|] eqn:Hz; [|left; by split; [|intros ? [[? _] _]]].
  destruct (busy_ zn) eqn:Hb; [left; split; [done|intros ? ([??] & _); congruence]|].
  destruct (IsEmpty zn) eqn:He; [left; split; [done|intros ? ([??] & ? & _); congruence]|].
  destruct (IsFull zn) eqn:Hf; [left; split; [done|intros ? ([??] & _ & ?); congruence]|].
  right. by exists zn.
Qed.

Lemma cheapest_step h zs v z : cheapest h zs v -> cheapest h (zs ++ [z]) (cheaper h v z).
Proof.
  intros Hv. destruct (cheaper_spec h v z) as [[-> Hz]|(zn & Hz & ->)].
  - destruct v as [v|]; simpl in *.
    + destruct Hv as (vn & Hin & Hfv & Hmin). exists vn. split; [solve_snoc|]. split; [done|].
      intros y yn Hy Hf; in_snoc Hy; [by eapply Hmin|by destruct (Hz yn)].
    + intros y yn Hy; in_snoc Hy; [by apply Hv|by apply Hz].
  - destruct v as [v|]; simpl in *.
    + destruct Hv as (vn & Hin & Hfv & Hmin). destruct (id Hfv) as [[-> _] _].
      destruct (Z.ltb_spec (capacity_ zn) (capacity_ vn)); [exists zn|exists vn];
        (split; [set_solver|]; split; [done|]);
        intros y yn Hy Hf; in_snoc Hy.
      * specialize (Hmin y yn Hy Hf). lia.
      * by rewrite (finishable_fun _ _ _ _ Hf Hz).
      * by eapply Hmin.
      * by rewrite (finishable_fun _ _ _ _ Hf Hz).
    + exists zn. split; [solve_snoc|]. split; [done|].
      intros y yn Hy Hf; in_snoc Hy; [by destruct (Hv y yn Hy)|].
      by rewrite (finishable_fun _ _ _ _ Hf Hz).
Qed.

Lemma cheapest_scan h zs : cheapest h zs (foldl (cheaper h) None zs).
Proof.
  induction zs as [|z zs IH] using rev_ind; [intros ? ?; set_solver|].
  rewrite foldl_app. by apply cheapest_step.
Qed.

(** *** The zone that [GetBestOpenZoneMatch] picks *)

Definition matches (min_capacity : Z) (zn : Zone) : bool :=
  (0 <? used_capacity_ zn) && negb (IsFull zn) && (min_capacity <=? capacity_ zn).

Definition better (file_lifetime min_capacity : Z) (h : gmap nat Zone) (acc : Z * option nat)
  (z : nat) : Z * option nat :=
  match h !! z with
  | None => acc
  | Some zn =>
      if busy_ zn then acc
      else if matches min_capacity zn then
        let diff := GetLifeTimeDiff (lifetime_ zn) file_lifetime in
        if diff <=? acc.1 then (diff, Some z) else acc
      else acc
  end.

Lemma best_candidate_run fl mc s acc z :
  is_Some (zone_heap s !! z) -> acc.2 <> Some z -> holdable s acc.2 ->
  let acc' := better fl mc (zone_heap s) acc z in
  best_candidate fl mc acc z (hold acc.2 s) = Ok acc' (hold acc'.2 s) /\ holdable s acc'.2.
Proof.
  destruct acc as [bd v]. simpl. intros [zn Hz] Hne Hv. unfold best_candidate, better. rewrite Hz.
  destruct (busy_ zn) eqn:Hb; simpl.
  { erewrite bind_ok; [|eapply Acquire_busy; [by rewrite hold_lookup_ne|done]]. done. }
  assert (free_zone (zone_heap s) z zn) as Hf by done.
  pose proof (free_zone_hold v z zn s Hne Hf) as Hfz.
  erewrite bind_ok by by eapply Acquire_hold. cbv iota.
  erewrite bind_ok by by apply get_zone_ok, hold_lookup, Hfz.
  change (_ && _ && _) with (matches mc zn). destruct (matches mc zn).
  2: { by erewrite bind_ok by by eapply CheckRelease_hold. }
  cbn [lifetime_ set_busy]. destruct (_ <=? bd).
  2: { by erewrite bind_ok by by eapply CheckRelease_hold. }
  destruct v as [v|]; [|by split; [|exists zn]].
  destruct Hv as [vn Hvn]. assert (v <> z) as Hvz by congruence.
  split; [|by exists zn]. rewrite hold_hold by done.
  unfold bind at 1 2, attempt. erewrite CheckRelease_hold; [done|].
  by apply free_zone_hold; [congruence|].
Qed.

Lemma better_other fl mc h acc z y : (better fl mc h acc z).2 = Some y -> acc.2 = Some y \/ y = z.
Proof. unfold better. repeat case_match; simpl; intros; simplify_eq; auto. Qed.

Lemma best_scan_run fl mc s zs acc :
  Forall (fun z => is_Some (zone_heap s !! z)) zs -> NoDup zs ->
  (forall z, z ∈ zs -> acc.2 <> Some z) -> holdable s acc.2 ->
  let acc' := foldl (better fl mc (zone_heap s)) acc zs in
  foldM (best_candidate fl mc) acc zs (hold acc.2 s) = Ok acc' (hold acc'.2 s) /\
  holdable s acc'.2.
Proof.
  intros Hz Hnd. revert acc. induction zs as [|z zs IH]; intros acc Hv Hh; [done|].
  apply Forall_cons in Hz as [Hz Hzs]. apply NoDup_cons in Hnd as [Hni Hnd].
  destruct (best_candidate_run fl mc s acc z Hz) as [Hrun Hh']; [by apply Hv; left|done|].
  cbn [foldM foldl]. erewrite bind_ok by done. apply IH; [done..| |done].
  intros y Hy [E| ->]%better_other; [|done]. apply (Hv y); [by right|done].
Qed.

Definition matchable (mc : Z) (h : gmap nat Zone) (z : nat) (zn : Zone) : Prop :=
  free_zone h z zn /\ matches mc zn = true.

(** The difference and the zone are the best among [zs]. *)
Definition best_match (fl mc : Z) (h : gmap nat Zone) (zs : list nat) (acc : Z * option nat) : Prop :=
  match acc.2 with
  | None => acc.1 = LIFETIME_DIFF_NOT_GOOD
  | Some v => exists vn, v ∈ zs /\ matchable mc h v vn /\
      acc.1 = GetLifeTimeDiff (lifetime_ vn) fl /\ acc.1 <= LIFETIME_DIFF_NOT_GOOD
  end /\
  forall z zn, z ∈ zs -> matchable mc h z zn ->
    acc.1 <= GetLifeTimeDiff (lifetime_ zn) fl /\
    (acc.2 = None -> LIFETIME_DIFF_NOT_GOOD < GetLifeTimeDiff (lifetime_ zn) fl).

Lemma matchable_fun mc h z zn zn' : matchable mc h z zn -> matchable mc h z zn' -> zn = zn'.
Proof. intros [[? _] _] [[? _] _]. congruence. Qed.

Lemma better_spec fl mc h acc z :
  (better fl mc h acc z = acc /\ forall zn, ~ matchable mc h z zn) \/
  exists zn, matchable mc h z zn /\ better fl mc h acc z =
    let diff := GetLifeTimeDiff (lifetime_ zn) fl in
    if diff <=? acc.1 then (diff, Some z) else acc.
Proof.
  unfold better, matchable, free_zone.
  destruct (h !! z) as [zn|] eqn:Hz; [|left; by split; [|intros ? [[? _] _]]].
  destruct (busy_ zn) eqn:Hb; [left; split; [done|intros ? ([??] & _); congruence]|].
  destruct (matches mc zn) eqn:Hm; [right; by exists zn|].
  left; split; [done|intros ? ([??] & ?); congruence].
Qed.

Lemma best_match_step fl mc h zs acc z :
  best_match fl mc h zs acc -> acc.1 <= LIFETIME_DIFF_NOT_GOOD ->
  best_match fl mc h (zs ++ [z]) (better fl mc h acc z) /\
  (better fl mc h acc z).1 <= LIFETIME_DIFF_NOT_GOOD.
Proof.
  intros [Hv Hmin] Hle. destruct (better_spec fl mc h acc z) as [[-> Hz]|(zn & Hz & ->)].
  - split; [|done]. split.
    + destruct acc.2; [|done]. destruct Hv as (vn & ? & ?). exists vn. split; [solve_snoc|done].
    + intros y yn Hy Hf; in_snoc Hy; [by eapply Hmin|by destruct (Hz yn)].
  - cbv zeta. destruct (Z.leb_spec (GetLifeTimeDiff (lifetime_ zn) fl) acc.1); simpl.
    + split; [|lia]. split; simpl.
      * exists zn. split; [solve_snoc|]. split; [done|]. split; [done|lia].
      * intros y yn Hy Hf; in_snoc Hy; (split; [|done]).
        -- destruct (Hmin _ _ Hy Hf). lia.
        -- by rewrite (matchable_fun _ _ _ _ _ Hf Hz).
    + split; [|done]. split.
      * destruct acc.2; [|done]. destruct Hv as (vn & ? & ?). exists vn. split; [solve_snoc|done].
      * intros y yn Hy Hf; in_snoc Hy; [by eapply Hmin|].
        rewrite (matchable_fun _ _ _ _ _ Hf Hz). split; [lia|]. intros E. rewrite E in Hv. lia.
Qed.

Lemma best_match_scan fl mc h zs :
  best_match fl mc h zs (foldl (better fl mc h) (LIFETIME_DIFF_NOT_GOOD, None) zs).
Proof.
  enough (best_match fl mc h zs (foldl (better fl mc h) (LIFETIME_DIFF_NOT_GOOD, None) zs) /\
    (foldl (better fl mc h) (LIFETIME_DIFF_NOT_GOOD, None) zs).1 <= LIFETIME_DIFF_NOT_GOOD)
    by tauto.
  induction zs as [|z zs [IH1 IH2]] using rev_ind.
  - split; [|done]. split; [done|]. intros ? ? H. by apply elem_of_nil in H.
  - rewrite foldl_app. by apply best_match_step.
Qed.

Lemma GetBestOpenZoneMatch_run fl mc s :
  Forall (fun z => is_Some (zone_heap s !! z)) (io_zones s) -> NoDup (io_zones s) ->
  let acc := foldl (better fl mc (zone_heap s)) (LIFETIME_DIFF_NOT_GOOD, None) (io_zones s) in
  GetBestOpenZoneMatch fl mc s = Ok acc (hold acc.2 s) /\ holdable s acc.2.
Proof.
  intros Hz Hnd. unfold GetBestOpenZoneMatch. unfold bind at 1, get.
  by apply (best_scan_run fl mc s (io_zones s) (LIFETIME_DIFF_NOT_GOOD, None)).
Qed.

(** *** The empty zone that [AllocateEmptyZone] picks *)

Definition free_empty (h : gmap nat Zone) (z : nat) : bool :=
  match h !! z with Some zn => negb (busy_ zn) && IsEmpty zn | None => false end.

Lemma AllocateEmptyZone_loop_run s zs :
  Forall (fun z => is_Some (zone_heap s !! z)) zs ->
  let v := List.find (free_empty (zone_heap s)) zs in
  AllocateEmptyZone_loop zs s = Ok v (hold v s).
Proof.
  induction zs as [|z zs IH]; intros H; [done|]. apply Forall_cons in H as [[zn Hz] Hzs].
  cbn [AllocateEmptyZone_loop List.find]. unfold free_empty. rewrite Hz.
  destruct (busy_ zn) eqn:Hb; simpl.
  { erewrite bind_ok by (by eapply Acquire_busy). by apply IH. }
  assert (free_zone (zone_heap s) z zn) as Hf by done.
  erewrite bind_ok by by eapply Acquire_hold. cbv iota.
  erewrite bind_ok by by apply get_zone_ok, hold_lookup.
  change (IsEmpty (set_busy true zn)) with (IsEmpty zn). destruct (IsEmpty zn); [done|].
  erewrite bind_ok by by eapply CheckRelease_hold. by apply IH.
Qed.
End scan.

(** ** The invariant of the device's zones *)

Section zbd_ok.
Context {D L : Type} `{spec : BackendSpec D L}.
Implicit Types s : Zbd D.

(** The zone lists point to zones and name none twice. *)
Definition io_zones_ok s : Prop :=
  Forall (fun z => is_Some (zone_heap s !! z)) (io_zones s) /\ NoDup (io_zones s).

Lemma ok_status_of_inr {A} (a : A) : ok (status_of (inr a)) = true.
Proof. done. Qed.

Lemma FinishCheapestIOZone_run s :
  io_zones_ok s ->
  FinishCheapestIOZone s =
    match foldl (cheaper (zone_heap s)) None (io_zones s) with
    | None => Ok tt s
    | Some v =>
        match zone_heap s !! v with
        | None => Stuck Undefined
        | Some vn =>
            match be_Finish (start_ vn) (zbd_be_ s) with
            | (inr _, d') =>
                Ok tt (set_tokens (active_io_zones_ s - 1) (open_io_zones_ s)
                  (set_heap (<[v := finish_zone vn]> (zone_heap s)) (set_be d' s)))
            | (inl e, d') => Err e (set_be d' s)
            end
        end
    end.
Proof.
  intros [Hl Hnd]. unfold FinishCheapestIOZone. unfold bind at 1, get.
  destruct (finish_scan_run s (io_zones s) None) as [Hrun Hh]; [done..|].
  erewrite bind_ok by apply Hrun. destruct (foldl _ _ _) as [v|]; [|done].
  destruct Hh as [vn [Hv Hb]]. rewrite Hv.
  pose proof (hold_lookup v vn s Hv) as Hlk.
  unfold bind at 1, attempt at 1. erewrite Zone_Finish_run by done.
  unfold zone_call. simpl zbd_be_. simpl start_.
  destruct (be_Finish (start_ vn) (zbd_be_ s)) as [[e|[]] d'] eqn:Ef.
  - unfold bind at 1, attempt at 1.
    change (set_be d' (hold (Some v) s)) with (hold (Some v) (set_be d' s)).
    erewrite CheckRelease_hold by (split; done).
    simpl. unfold returnS. by rewrite (finish_err _ _ _ _ Ef).
  - unfold bind at 1, attempt at 1.
    erewrite CheckRelease_busy; [|simpl; by rewrite lookup_insert_eq|done].
    simpl. unfold bind, ret, returnS. simpl. do 2 f_equal.
    unfold set_tokens, set_heap, set_be. simpl. f_equal.
    rewrite insert_insert_eq, <- (alter_insert_id _ v vn), insert_insert_eq by done.
    f_equal. destruct vn. simpl in *. unfold finish_zone, set_busy. simpl. by rewrite Hb.
Qed.
End zbd_ok.

(** ** Finishing and resetting free zones

    [quiet s s']: from [s] to [s'] only zones that no one holds were finished
    or reset, and the active tokens moved with the number of active zones. *)

Section quiet.
Context {D L : Type} `{spec : BackendSpec D L}.
Implicit Types s : Zbd D.

Definition active (zn : Zone) : Z := if IsEmpty zn || IsFull zn then 0 else 1.
Definition active_at (h : gmap nat Zone) (z : nat) : Z := from_option active 0 (h !! z).
Definition count_active (h : gmap nat Zone) (zs : list nat) : Z :=
  foldr (fun z n => active_at h z + n) 0 zs.

(** Tokens taken for zones that are not active yet. *)
Definition token_balance s : Z :=
  active_io_zones_ s - count_active (zone_heap s) (io_zones s).

Lemma count_active_notin h zs z zn : z ∉ zs -> count_active (<[z := zn]> h) zs = count_active h zs.
Proof.
  induction zs as [|y zs IH]; intros H; [done|]. apply not_elem_of_cons in H as [Hy Hz].
  simpl. rewrite IH by done. unfold active_at. by rewrite lookup_insert_ne.
Qed.

Lemma count_active_insert h zs z zn :
  NoDup zs -> z ∈ zs ->
  count_active (<[z := zn]> h) zs = count_active h zs - active_at h z + active zn.
Proof.
  intros Hnd. induction Hnd as [|y zs Hy Hnd IH]; [by intros ?%elem_of_nil|].
  intros [->|Hz]%elem_of_cons; simpl.
  - rewrite count_active_notin by done. unfold active_at at 1. rewrite lookup_insert_eq. simpl. lia.
  - rewrite IH by done. unfold active_at at 1. rewrite lookup_insert_ne by set_solver.
    fold (active_at h y). lia.
Qed.

Definition zone_kept (zn zn' : Zone) : Prop :=
  start_ zn' = start_ zn /\ used_capacity_ zn' = used_capacity_ zn /\ busy_ zn' = busy_ zn /\
  (busy_ zn = true -> zn' = zn).

Definition quiet s s' : Prop :=
  io_zones s' = io_zones s /\ open_io_zones_ s' = open_io_zones_ s /\
  max_nr_active_io_zones_ s' = max_nr_active_io_zones_ s /\
  max_nr_open_io_zones_ s' = max_nr_open_io_zones_ s /\
  finish_threshold_ s' = finish_threshold_ s /\
  token_balance s' = token_balance s /\
  dom (zone_heap s') = dom (zone_heap s) /\
  forall z zn, zone_heap s !! z = Some zn ->
    exists zn', zone_heap s' !! z = Some zn' /\ zone_kept zn zn'.

#[export] Instance quiet_preorder : PreOrder quiet.
Proof.
  split.
  - intros s. split_and!; try done. intros z zn H. exists zn. done.
  - intros s1 s2 s3 (?&?&?&?&?&?&?&K1) (?&?&?&?&?&?&?&K2).
    split_and!; try congruence. intros z zn Hz.
    destruct (K1 z zn Hz) as (zn2 & Hz2 & Hs & Hu & Hb & Hk).
    destruct (K2 z zn2 Hz2) as (zn3 & Hz3 & Hs' & Hu' & Hb' & Hk').
    exists zn3. split; [done|]. split_and!; try congruence.
    intros Hbusy. assert (zn2 = zn) as -> by auto. auto.
Qed.

Lemma quiet_set_be d s : quiet s (set_be d s).
Proof. split_and!; try done. intros z zn H. by exists zn. Qed.

Lemma quiet_io_zones_ok s s' : quiet s s' -> io_zones_ok s -> io_zones_ok s'.
Proof.
  intros (Hio&_&_&_&_&_&_&Hz) [Hl Hnd]. unfold io_zones_ok. rewrite Hio. split; [|done].
  eapply Forall_impl; [done|]. intros z [zn Hzn]. destruct (Hz z zn Hzn) as (zn' & ? & _). by exists zn'.
Qed.

(** A zone changes, [da] active tokens are returned. *)
Definition zone_update (z : nat) (zn : Zone) (da : Z) (d : D) s : Zbd D :=
  set_tokens (active_io_zones_ s - da) (open_io_zones_ s)
    (set_heap (<[z := zn]> (zone_heap s)) (set_be d s)).

Lemma quiet_zone_update z zn zn' d s :
  io_zones_ok s -> z ∈ io_zones s -> free_zone (zone_heap s) z zn ->
  start_ zn' = start_ zn -> used_capacity_ zn' = used_capacity_ zn -> busy_ zn' = false ->
  quiet s (zone_update z zn' (active zn - active zn') d s).
Proof.
  intros [_ Hnd] Hin [Hz Hb] Hs Hu Hb'. split_and!; try done.
  - unfold token_balance. simpl. rewrite count_active_insert by done.
    unfold active_at. rewrite Hz. simpl. lia.
  - simpl. rewrite dom_insert_lookup_L; [done|by exists zn].
  - intros y yn Hy. simpl. destruct (decide (y = z)) as [->|].
    + exists zn'. rewrite lookup_insert_eq. split; [done|]. simplify_eq.
      split_and!; congruence.
    + exists yn. by rewrite lookup_insert_ne.
Qed.

Lemma active_finish zn : active (finish_zone zn) = 0.
Proof. unfold active, IsFull. simpl. by rewrite orb_true_r. Qed.

Lemma active_reset offline mc zn : active (reset_zone offline mc zn) = 0.
Proof. unfold active, IsEmpty. simpl. by rewrite Z.eqb_refl. Qed.

Lemma active_1 zn : IsEmpty zn = false -> IsFull zn = false -> active zn = 1.
Proof. unfold active. by intros -> ->. Qed.

Definition below_threshold (threshold : Z) (zn : Zone) : bool :=
  negb (IsEmpty zn || IsFull zn) && (capacity_ zn <? (max_capacity_ zn *64 threshold) / 100).

Lemma Release_hold z zn s : free_zone (zone_heap s) z zn -> Release z (hold (Some z) s) = Ok true s.
Proof.
  intros [H Hb]. unfold Release.
  erewrite bind_ok by by apply get_zone_ok, hold_lookup. simpl.
  erewrite bind_ok by by apply mod_zone_ok, hold_lookup. unfold ret. f_equal.
  simpl. rewrite set_busy_set_busy, set_busy_id by done.
  rewrite <- (alter_insert_id _ z zn) by done.
  rewrite set_heap_set_heap, insert_insert_eq, insert_id by done. apply set_heap_id.
Qed.

(** Releasing a held zone that changed meanwhile. *)
Lemma CheckRelease_changed z zn s d :
  busy_ zn = true ->
  CheckRelease z (set_heap (<[z := zn]> (zone_heap (hold (Some z) s))) (set_be d (hold (Some z) s)))
  = Ok tt (set_heap (<[z := set_busy false zn]> (zone_heap s)) (set_be d s)).
Proof.
  intros Hb. erewrite CheckRelease_busy; [|simpl; by rewrite lookup_insert_eq|done].
  simpl. unfold set_heap, set_be. simpl. do 2 f_equal.
  rewrite insert_insert_eq. apply map_eq. intros i. destruct (decide (i = z)) as [->|].
  - by rewrite !lookup_insert_eq.
  - by rewrite !lookup_insert_ne, lookup_alter_ne by done.
Qed.

Lemma finish_round_run t s z zn :
  zone_heap s !! z = Some zn ->
  finish_round t z s =
    if busy_ zn then Ok tt s
    else if below_threshold t zn then
      match be_Finish (start_ zn) (zbd_be_ s) with
      | (inr _, d') => Ok tt (zone_update z (finish_zone zn) (active zn - active (finish_zone zn)) d' s)
      | (inl e, d') => Err e (set_be d' s)
      end
    else Ok tt s.
Proof.
  intros Hz. unfold finish_round. destruct (busy_ zn) eqn:Hb.
  { by erewrite bind_ok by by eapply Acquire_busy. }
  assert (free_zone (zone_heap s) z zn) as Hf by done.
  erewrite bind_ok by by eapply Acquire_hold. simpl when.
  erewrite bind_ok by by apply get_zone_ok, hold_lookup.
  change (negb _ && _) with (below_threshold t zn).
  destruct (below_threshold t zn) eqn:Ht; [|by eapply CheckRelease_hold].
  unfold bind at 1, attempt. erewrite Zone_Finish_run by by apply hold_lookup.
  unfold zone_call. simpl zbd_be_. simpl start_.
  destruct (be_Finish (start_ zn) (zbd_be_ s)) as [[e|[]] d'].
  - by erewrite bind_ok by by apply (Release_hold z zn (set_be d' s)).
  - erewrite bind_ok by by apply (CheckRelease_changed z).
    apply andb_true_iff in Ht as [[He Hfu]%negb_true_iff%orb_false_iff _].
    rewrite active_finish, (active_1 zn) by done.
    unfold PutActiveIOZoneToken, modify, zone_update. do 4 f_equal.
    destruct zn. simpl in *. by subst.
Qed.

Definition reclaimable (zn : Zone) : bool := negb (IsEmpty zn) && negb (IsUsed zn).

Lemma reset_round_run s z zn :
  zone_heap s !! z = Some zn ->
  reset_round z s =
    if busy_ zn then Ok tt s
    else if reclaimable zn then
      match be_Reset (start_ zn) (zbd_be_ s) with
      | (inr (offline, mc), d') =>
          let zn' := reset_zone offline mc zn in
          Ok tt (zone_update z zn' (active zn - active zn') d' s)
      | (inl e, d') => Err e (set_be d' s)
      end
    else Ok tt s.
Proof.
  intros Hz. unfold reset_round. destruct (busy_ zn) eqn:Hb.
  { by erewrite bind_ok by by eapply Acquire_busy. }
  assert (free_zone (zone_heap s) z zn) as Hf by done.
  erewrite bind_ok by by eapply Acquire_hold. simpl when.
  erewrite bind_ok by by apply get_zone_ok, hold_lookup.
  change (negb _ && _) with (reclaimable zn).
  destruct (reclaimable zn) eqn:Ht; [|by eapply CheckRelease_hold].
  unfold bind at 1, attempt. erewrite Zone_Reset_run by by apply hold_lookup.
  unfold zone_call. simpl zbd_be_. simpl start_.
  destruct (be_Reset (start_ zn) (zbd_be_ s)) as [[e|[offline mc]] d'] eqn:Er.
  - erewrite bind_ok; [|eapply attempt_ok; by apply (CheckRelease_hold z zn (set_be d' s))].
    unfold bind at 1, returnS at 1. cbn [status_of]. by rewrite (reset_err _ _ _ _ Er).
  - erewrite bind_ok; [|eapply attempt_ok; by apply (CheckRelease_changed z)].
    rewrite active_reset. change (IsFull (set_busy true zn)) with (IsFull zn).
    apply andb_true_iff in Ht as [He%negb_true_iff _]. unfold active. rewrite He.
    assert (set_busy false (reset_zone offline mc (set_busy true zn)) = reset_zone offline mc zn)
      as Hr by (destruct zn; simpl in *; by subst).
    unfold PutActiveIOZoneToken, modify, zone_update.
    destruct (IsFull zn); cbn [negb when fst snd orb]; unfold bind, returnS, ret;
      cbn [ok status_of]; simpl; rewrite Hr; [|done].
    by rewrite !Z.sub_0_r.
Qed.

Lemma finish_round_quiet t s0 z :
  io_zones_ok s0 -> z ∈ io_zones s0 -> runs (quiet s0) (finish_round t z) (quiet s0).
Proof.
  intros Hok Hin s Hq. pose proof (quiet_io_zones_ok _ _ Hq Hok) as Hs.
  assert (z ∈ io_zones s) as Hin' by (destruct Hq as [-> _]; done).
  destruct (proj1 (Forall_forall _ _) (proj1 Hs) z Hin') as [zn Hz].
  rewrite (finish_round_run _ _ _ zn) by done.
  destruct (busy_ zn) eqn:Hb; [done|]. destruct (below_threshold t zn); [|done].
  destruct (be_Finish _ _) as [[e|[]] d'].
  - etrans; [done|apply quiet_set_be].
  - etrans; [done|]. by apply quiet_zone_update.
Qed.

Lemma ApplyFinishThreshold_quiet s0 :
  io_zones_ok s0 -> runs (fun s => s = s0) ApplyFinishThreshold (quiet s0).
Proof.
  intros Hok s ->. unfold ApplyFinishThreshold. unfold bind at 1, get.
  destruct (_ =? 0); [simpl; reflexivity|].
  apply (runs_forM (quiet s0)); [|reflexivity]. intros z Hz. by apply finish_round_quiet.
Qed.

Lemma reset_round_quiet s0 z :
  io_zones_ok s0 -> z ∈ io_zones s0 -> runs (quiet s0) (reset_round z) (quiet s0).
Proof.
  intros Hok Hin s Hq. pose proof (quiet_io_zones_ok _ _ Hq Hok) as Hs.
  assert (z ∈ io_zones s) as Hin' by (destruct Hq as [-> _]; done).
  destruct (proj1 (Forall_forall _ _) (proj1 Hs) z Hin') as [zn Hz].
  rewrite (reset_round_run _ _ zn) by done.
  destruct (busy_ zn) eqn:Hb; [done|]. destruct (reclaimable zn); [|done].
  destruct (be_Reset _ _) as [[e|[offline mc]] d'].
  - etrans; [done|apply quiet_set_be].
  - cbv zeta iota. etrans; [done|]. by apply quiet_zone_update.
Qed.

Lemma FinishCheapestIOZone_quiet s0 :
  io_zones_ok s0 -> runs (fun s => s = s0) FinishCheapestIOZone (quiet s0).
Proof.
  intros Hok s ->. rewrite FinishCheapestIOZone_run by done.
  pose proof (cheapest_scan (zone_heap s0) (io_zones s0)) as Hc.
  destruct (foldl _ _ _) as [v|]; [|simpl; reflexivity].
  destruct Hc as (vn & Hin & ([Hv Hb] & He & Hf) & _). rewrite Hv.
  destruct (be_Finish _ _) as [[e|[]] d']; [apply quiet_set_be|].
  pose proof (quiet_zone_update v vn (finish_zone vn) d' s0) as Hq.
  rewrite active_finish, (active_1 vn) in Hq by done. by apply Hq.
Qed.

Lemma GetActive_run s :
  GetActiveIOZoneTokenIfAvailable s =
    if active_io_zones_ s <? max_nr_active_io_zones_ s
    then Ok true (set_tokens (active_io_zones_ s + 1) (open_io_zones_ s) s) else Ok false s.
Proof.
  unfold GetActiveIOZoneTokenIfAvailable. unfold bind at 1, get. by destruct (_ <? _).
Qed.

(** An active token is taken for a zone that is not active yet. *)
Definition with_token s : Zbd D := set_tokens (active_io_zones_ s + 1) (open_io_zones_ s) s.
Definition without_open s : Zbd D := set_tokens (active_io_zones_ s) (open_io_zones_ s - 1) s.

Lemma get_active_token_run n s0 :
  io_zones_ok s0 ->
  match get_active_token n false s0 with
  | Ok _ s' => exists s1, quiet s0 s1 /\ s' = with_token s1 /\
                 active_io_zones_ s1 < max_nr_active_io_zones_ s1
  | Err _ s' => exists s1, quiet s0 s1 /\ s' = without_open s1
  | Stuck w => w = OutOfFuel
  end.
Proof.
  revert s0. induction n as [|n IH]; intros s0 Hok; cbn [get_active_token];
    unfold bind at 1; rewrite GetActive_run;
    destruct (Z.ltb_spec (active_io_zones_ s0) (max_nr_active_io_zones_ s0)); try done;
    try (exists s0; split_and!; [reflexivity|done|done]).
  pose proof (FinishCheapestIOZone_quiet s0 Hok s0 eq_refl) as Hq.
  unfold bind at 1, attempt. destruct (FinishCheapestIOZone s0) as [[] s1|e s1|]; [|by exists s1|done].
  specialize (IH s1 (quiet_io_zones_ok _ _ Hq Hok)).
  destruct (get_active_token n false s1); [|destruct IH as (s2 & ? & ->)|done].
  - destruct IH as (s2 & Hq2 & -> & Hlt). exists s2. split; [by etrans|done].
  - exists s2. split; [by etrans|done].
Qed.

(** *** Allocating a zone for I/O *)

Definition with_open s : Zbd D := set_tokens (active_io_zones_ s) (open_io_zones_ s + 1) s.

Lemma WaitForOpen_run p s :
  WaitForOpenIOZoneToken p s =
    if open_io_zones_ s <? allocator_open_limit p s then Ok tt (with_open s) else Stuck Blocked.
Proof. unfold WaitForOpenIOZoneToken. unfold bind at 1, get. by destruct (_ <? _). Qed.

Lemma without_with_open s : without_open (with_open s) = s.
Proof. unfold without_open, with_open, set_tokens. destruct s. simpl. f_equal. lia. Qed.

Lemma quiet_with_open s s' : quiet (with_open s) s' -> quiet s (without_open s').
Proof.
  intros (?&?&?&?&?&?&?&?). unfold quiet, token_balance, with_open, without_open in *.
  simpl in *. split_and!; try done. lia.
Qed.

Lemma with_open_without s : with_open (without_open s) = s.
Proof. unfold without_open, with_open, set_tokens. destruct s. simpl. f_equal. lia. Qed.

(** The zone [z] as [AllocateIOZone] hands it out from [s1]: an open zone
    with room, or a new one, which takes an active token. *)
Definition allocated_from (fl : Z) s1 (z : nat) s' : Prop :=
  z ∈ io_zones s1 /\ exists zn, free_zone (zone_heap s1) z zn /\
  ((exists diff, best_match fl 0 (zone_heap s1) (io_zones s1) (diff, Some z) /\
      matches 0 zn = true /\
      (diff < LIFETIME_DIFF_COULD_BE_WORSE \/
       diff = LIFETIME_DIFF_COULD_BE_WORSE /\ max_nr_active_io_zones_ s1 <= active_io_zones_ s1) /\
      s' = hold (Some z) (with_open s1)) \/
   (IsEmpty zn = true /\ active_io_zones_ s1 < max_nr_active_io_zones_ s1 /\
      s' = set_heap (<[z := set_lifetime fl (set_busy true zn)]> (zone_heap s1))
             (with_token (with_open s1)))).

Definition AllocateIOZone_post (fl : Z) s (r : result (Zbd D) (option nat)) : Prop :=
  match r with
  | Ok (Some z) s' => exists s1, quiet s s1 /\ allocated_from fl s1 z s'
  | Ok None s' | Err _ s' => quiet s s'
  | Stuck w => w <> Undefined
  end.

(** After the token for an open zone is taken and the token for an active one
    is or is not. *)
Lemma open_new_zone_post fl s (got : bool) :
  io_zones_ok s -> (got = true -> active_io_zones_ s < max_nr_active_io_zones_ s) ->
  match open_new_zone fl got (if got then with_token (with_open s) else with_open s) with
  | Ok (Some z) s' => exists s1, quiet s s1 /\ allocated_from fl s1 z s'
  | Ok None s' => exists s1, quiet s s1 /\ s' = with_open s1
  | Err _ s' => quiet s s'
  | Stuck w => w = OutOfFuel
  end.
Proof.
  intros Hok Hgot. unfold open_new_zone.
  assert (match get_active_token loop_bound got (if got then with_token (with_open s) else with_open s) with
    | Ok _ s' => exists s1, quiet s s1 /\ s' = with_token (with_open s1) /\
                   active_io_zones_ s1 < max_nr_active_io_zones_ s1
    | Err _ s' => quiet s s'
    | Stuck w => w = OutOfFuel
    end) as Htok.
  { destruct got.
    - destruct loop_bound; simpl; (exists s; split_and!; [reflexivity|done|auto]).
    - pose proof (get_active_token_run loop_bound (with_open s) Hok) as H.
      destruct (get_active_token _ _ _); [| |done].
      + destruct H as (s1 & Hq & -> & Hlt). exists (without_open s1).
        split; [by apply quiet_with_open|]. by rewrite with_open_without.
      + destruct H as (s1 & Hq & ->). by apply quiet_with_open. }
  unfold bind at 1. destruct (get_active_token _ _ _) as [[] s2|e s2|]; [|done..].
  destruct Htok as (s1 & Hq & -> & Hlt). pose proof (quiet_io_zones_ok _ _ Hq Hok) as [Hl Hnd].
  unfold bind at 1, attempt, AllocateEmptyZone. unfold bind at 1, get.
  rewrite AllocateEmptyZone_loop_run by done.
  destruct (List.find _ _) as [z|] eqn:Hfind.
  - apply List.find_some in Hfind as [Hin Hfe].
    unfold free_empty in Hfe. simpl in Hfe, Hin.
    destruct (zone_heap s1 !! z) as [zn|] eqn:Hz; [|done].
    apply andb_true_iff in Hfe as [Hb%negb_true_iff He].
    erewrite bind_ok by by apply mod_zone_ok, hold_lookup.
    exists s1. split; [done|]. split; [by apply list_elem_of_In|].
    exists zn. split; [done|]. right. split_and!; [done|done|].
    simpl. unfold set_heap, with_token, with_open, set_tokens. simpl. f_equal.
    apply map_eq. intros i. destruct (decide (i = z)) as [->|].
    + by rewrite !lookup_insert_eq.
    + by rewrite !lookup_insert_ne, lookup_alter_ne by done.
  - unfold bind, PutActiveIOZoneToken, modify, ret. simpl.
    exists s1. split; [done|]. unfold with_token, with_open, set_tokens. simpl. f_equal. lia.
Qed.

Lemma quiet_post fl s s1 r : quiet s s1 -> AllocateIOZone_post fl s1 r -> AllocateIOZone_post fl s r.
Proof.
  intros Hq. destruct r as [[z|] s'|e s'|]; simpl; [|intros; by etrans..|done].
  intros (s2 & ? & ?). exists s2. split; [by etrans|done].
Qed.

Lemma hold_with_open v s : hold v (with_open s) = with_open (hold v s).
Proof. by destruct v. Qed.
Lemma hold_with_token v s : hold v (with_token s) = with_token (hold v s).
Proof. by destruct v. Qed.

(** From the best open zone on. *)
Lemma AllocateIOZone_tail fl s :
  io_zones_ok s ->
  let acc := foldl (better fl 0 (zone_heap s)) (LIFETIME_DIFF_NOT_GOOD, None) (io_zones s) in
  LIFETIME_DIFF_COULD_BE_WORSE <= acc.1 ->
  forall got : bool,
  (if got then active_io_zones_ s < max_nr_active_io_zones_ s
   else max_nr_active_io_zones_ s <= active_io_zones_ s) ->
  AllocateIOZone_post fl s (
    (a <- (allocated_zone <- match acc.2 with
            | Some a =>
                if negb got && (acc.1 =? LIFETIME_DIFF_COULD_BE_WORSE)
                then ret (Some a)
                else
                  r <- attempt (CheckRelease a) ;;
                  match r with
                  | inl e =>
                      PutOpenIOZoneToken ;; when got PutActiveIOZoneToken ;; fail e
                  | inr _ => ret None
                  end
            | None => ret None
            end ;;
          match allocated_zone with
          | Some a => ret (Some a)
          | None => open_new_zone fl got
          end) ;;
     match a with Some _ => ret tt | None => PutOpenIOZoneToken end ;;
     ret a)
    (if got then with_token (hold acc.2 (with_open s)) else hold acc.2 (with_open s))).
Proof.
  intros Hok acc Hdiff got Hgot. pose proof (best_match_scan fl 0 (zone_heap s) (io_zones s)) as Hbest.
  fold acc in Hbest. destruct acc as [diff v]. cbn [fst snd] in *.
  pose proof (open_new_zone_post fl s got Hok) as Hnew.
  assert (AllocateIOZone_post fl s (
    (a <- open_new_zone fl got ;;
     match a with Some _ => ret tt | None => PutOpenIOZoneToken end ;; ret a)
    (if got then with_token (with_open s) else with_open s))) as Hopen.
  { unfold bind at 1. destruct (open_new_zone _ _ _) as [[z|] s'|e s'|w]; simpl.
    - apply Hnew. by destruct got.
    - destruct Hnew as (s1 & Hq & ->); [by destruct got|].
      change (quiet s (without_open (with_open s1))). by rewrite without_with_open.
    - apply Hnew. by destruct got.
    - rewrite Hnew; [done|by destruct got]. }
  destruct v as [v|].
  - destruct (id Hbest) as [(vn & Hin & [Hf Hm] & Hd & Hle) Hmin]. cbn [fst snd] in *.
    destruct (negb got && (diff =? LIFETIME_DIFF_COULD_BE_WORSE)) eqn:Hc.
    + apply andb_true_iff in Hc as [Hg%negb_true_iff Hd'%Z.eqb_eq]. subst got.
      unfold bind, ret. simpl. exists s. split; [reflexivity|]. split; [done|].
      exists vn. split; [done|]. left. exists diff. split; [done|]. split; [done|]. split; [by right|done].
    + assert (forall (k : option nat -> M (Zbd D) (option nat)),
        (bind (bind (attempt (CheckRelease v)) (fun r => match r with
           | inl e => PutOpenIOZoneToken ;; when got PutActiveIOZoneToken ;; fail e
           | inr _ => ret None end)) k)
          (if got then with_token (hold (Some v) (with_open s)) else hold (Some v) (with_open s))
        = k None (if got then with_token (with_open s) else with_open s)) as Hrel.
      { intros k. unfold bind, attempt. destruct got; [rewrite <- hold_with_token|];
          by rewrite (CheckRelease_hold v vn). }
      rewrite bind_assoc, Hrel. exact Hopen.
  - exact Hopen.
Qed.

Lemma AllocateIOZone_run fl t s :
  io_zones_ok s -> ok (zone_deferred_status_ s) = true ->
  AllocateIOZone_post fl s (AllocateIOZone fl t s).
Proof.
  intros Hok Hdef. unfold AllocateIOZone. unfold bind at 1, GetZoneDeferredStatus, gets.
  unfold bind at 1, returnS. rewrite Hdef. unfold ret at 1.
  assert (runs (fun s' => s' = s) (when (negb (is_kWAL t)) ApplyFinishThreshold) (quiet s)) as Ha.
  { destruct (is_kWAL t); simpl; [|by apply ApplyFinishThreshold_quiet].
    intros ? ->. simpl. reflexivity. }
  specialize (Ha s eq_refl). unfold bind at 1.
  destruct (when _ _ s) as [[] s1|e s1|]; [|done|done].
  apply (quiet_post fl s s1); [done|]. pose proof (quiet_io_zones_ok _ _ Ha Hok) as Hok1.
  unfold bind at 1. rewrite WaitForOpen_run.
  destruct (_ <? _); [|done].
  destruct (GetBestOpenZoneMatch_run fl 0 (with_open s1)) as [Hrun _]; [apply Hok1..|].
  erewrite bind_ok by by eapply attempt_ok.
  change (zone_heap (with_open s1)) with (zone_heap s1).
  change (io_zones (with_open s1)) with (io_zones s1).
  pose proof (AllocateIOZone_tail fl s1 Hok1) as Htail. cbv zeta in Htail.
  pose proof (best_match_scan fl 0 (zone_heap s1) (io_zones s1)) as Hbest.
  destruct (foldl _ _ _) as [diff v]. cbn [fst snd] in *.
  destruct (Z.leb_spec LIFETIME_DIFF_COULD_BE_WORSE diff) as [Hd|Hd].
  - rewrite bind_assoc. unfold bind at 1. rewrite GetActive_run.
    assert (active_io_zones_ (hold v (with_open s1)) = active_io_zones_ s1 /\
      max_nr_active_io_zones_ (hold v (with_open s1)) = max_nr_active_io_zones_ s1)
      as [-> ->] by (by destruct v).
    destruct (Z.ltb_spec (active_io_zones_ s1) (max_nr_active_io_zones_ s1)) as [Hlt|Hge].
    + specialize (Htail Hd true Hlt).
      replace (with_token (hold v (with_open s1))) with
        (set_tokens (active_io_zones_ s1 + 1) (open_io_zones_ (hold v (with_open s1)))
           (hold v (with_open s1))) in Htail by (by destruct v).
      exact Htail.
    + exact (Htail Hd false Hge).
  - unfold bind, ret. destruct v as [v|]; simpl.
    + exists s1. split; [reflexivity|].
      destruct (id Hbest) as [(vn & Hin & [Hf Hm] & _) _].
      split; [done|]. exists vn. split; [done|]. left. exists diff.
      split; [done|]. split; [done|]. split; [by left|done].
    + destruct Hbest as [Hb _]. simpl in Hb. rewrite Hb in Hd. done.
Qed.
End quiet.

(** ** Every operation keeps the zones well formed *)

Section zbd_wf.
Context {D L : Type} `{spec : BackendSpec D L} {szd : SZDOnceLog D L}.
Abbreviation wf := (zones_wf (D := D) (L := L)).

Lemma PutOpenIOZoneToken_wf : preserves wf PutOpenIOZoneToken.
Proof. by intros s H. Qed.
Lemma PutActiveIOZoneToken_wf : preserves wf PutActiveIOZoneToken.
Proof. by intros s H. Qed.
Lemma modify_tokens_wf a o : preserves wf (modify (fun s => set_tokens (a s) (o s) s)).
Proof. by intros s H. Qed.
Lemma set_migrating_wf b : preserves wf (modify (set_migrating b)).
Proof. by intros s H. Qed.
Lemma set_write_channel_wf p : preserves wf (modify (set_write_channel_ptr p)).
Proof. by intros s H. Qed.
Hint Resolve PutOpenIOZoneToken_wf PutActiveIOZoneToken_wf modify_tokens_wf set_migrating_wf
  set_write_channel_wf : preserves.

Lemma zone_wf_set_lifetime l zn : zone_wf zn -> zone_wf (set_lifetime l zn).
Proof. done. Qed.
Lemma zone_wf_rewind zn :
  zone_wf zn -> zone_wf (set_wp (start_ zn) (set_capacity (max_capacity_ zn) zn)).
Proof. unfold zone_wf, is_u. simpl. pose proof zone_sz_pos. lia. Qed.
Hint Resolve zone_wf_set_lifetime zone_wf_rewind : preserves.

Lemma WaitForOpenIOZoneToken_wf p : preserves wf (WaitForOpenIOZoneToken p).
Proof. unfold WaitForOpenIOZoneToken. preserves_solve. Qed.
Lemma GetActiveIOZoneTokenIfAvailable_wf : preserves wf GetActiveIOZoneTokenIfAvailable.
Proof. unfold GetActiveIOZoneTokenIfAvailable. preserves_solve. Qed.
Lemma ResetUnusedIOZones_wf : preserves wf ResetUnusedIOZones.
Proof. unfold ResetUnusedIOZones, reset_round. preserves_solve. Qed.
Lemma ReleaseUnusedWALZones_wf : preserves wf ReleaseUnusedWALZones.
Proof. unfold ReleaseUnusedWALZones. preserves_solve. Qed.
Lemma ApplyFinishThreshold_wf : preserves wf ApplyFinishThreshold.
Proof. unfold ApplyFinishThreshold, finish_round. preserves_solve. Qed.
Lemma FinishCheapestIOZone_wf : preserves wf FinishCheapestIOZone.
Proof. unfold FinishCheapestIOZone, finish_candidate. preserves_solve. Qed.
Lemma GetBestOpenZoneMatch_wf fl mc : preserves wf (GetBestOpenZoneMatch fl mc).
Proof. unfold GetBestOpenZoneMatch, best_candidate. preserves_solve. Qed.
Hint Resolve WaitForOpenIOZoneToken_wf GetActiveIOZoneTokenIfAvailable_wf ResetUnusedIOZones_wf
  ReleaseUnusedWALZones_wf ApplyFinishThreshold_wf FinishCheapestIOZone_wf
  GetBestOpenZoneMatch_wf : preserves.

Lemma AllocateMetaZone_wf : preserves wf AllocateMetaZone.
Proof.
  unfold AllocateMetaZone. preserves_step; [preserves_solve|].
  generalize (meta_zones a). intros zs. induction zs; simpl; preserves_solve.
Qed.
Lemma AllocateEmptyZone_wf : preserves wf AllocateEmptyZone.
Proof.
  unfold AllocateEmptyZone. preserves_step; [preserves_solve|].
  generalize (io_zones a). intros zs. induction zs; simpl; preserves_solve.
Qed.
Lemma get_active_token_wf n got : preserves wf (get_active_token n got).
Proof. revert got. induction n; intros got; simpl; preserves_solve. Qed.
Hint Resolve AllocateMetaZone_wf AllocateEmptyZone_wf get_active_token_wf : preserves.

Lemma AllocateIOZone_wf fl t : preserves wf (AllocateIOZone fl t).
Proof. unfold AllocateIOZone, GetZoneDeferredStatus, open_new_zone. preserves_solve. Qed.
Lemma ReleaseMigrateZone_wf z : preserves wf (ReleaseMigrateZone z).
Proof. unfold ReleaseMigrateZone. preserves_solve. Qed.
Lemma TakeMigrateZone_wf fl mc : preserves wf (TakeMigrateZone fl mc).
Proof. unfold TakeMigrateZone. preserves_solve. Qed.

Lemma new_wal_wf a b : preserves wf (new_wal a b).
Proof. unfold new_wal, next_channel. preserves_solve. Qed.
Lemma spin_active_token_wf : preserves wf spin_active_token.
Proof. unfold spin_active_token. preserves_solve. Qed.
Hint Resolve new_wal_wf spin_active_token_wf : preserves.

Lemma GetWAL_wf offset : preserves wf (GetWAL offset).
Proof.
  unfold GetWAL. preserves_step; [preserves_solve|].
  generalize (steps (length (wal_zones a)) 3). intros zs. induction zs; simpl; preserves_solve.
Qed.
Lemma OpenWALZone_wf z : preserves wf (OpenWALZone z).
Proof. unfold OpenWALZone, GetZoneNr, wal_zone_at. preserves_solve. Qed.
Lemma AllocateWALZone_loop_wf zs : preserves wf (AllocateWALZone_loop zs).
Proof. induction zs; simpl; preserves_solve. Qed.
Hint Resolve AllocateWALZone_loop_wf : preserves.
Lemma AllocateWALZone_wf wal z : preserves wf (AllocateWALZone wal z).
Proof. unfold AllocateWALZone, AllocateWALZone_new, GetZoneNr, wal_zone_at. preserves_solve. Qed.
End zbd_wf.
#[export] Hint Resolve PutOpenIOZoneToken_wf PutActiveIOZoneToken_wf WaitForOpenIOZoneToken_wf
  GetActiveIOZoneTokenIfAvailable_wf ResetUnusedIOZones_wf ReleaseUnusedWALZones_wf
  ApplyFinishThreshold_wf FinishCheapestIOZone_wf GetBestOpenZoneMatch_wf AllocateMetaZone_wf
  AllocateEmptyZone_wf AllocateIOZone_wf ReleaseMigrateZone_wf TakeMigrateZone_wf GetWAL_wf
  OpenWALZone_wf AllocateWALZone_wf : preserves.

(** ** Reading *)

Section zbd_read.
Context {D L : Type} `{spec : BackendSpec D L}.
Implicit Types s : Zbd D.

(** The state after reads: only the device may have changed, not its contents. *)
Definition after_read s s' : Prop :=
  exists d', s' = set_be d' s /\ forall a, disk d' a = disk (zbd_be_ s) a.

Lemma after_read_refl s : after_read s s.
Proof. exists (zbd_be_ s). split; [by destruct s|done]. Qed.

Lemma after_read_trans s1 s2 s3 : after_read s1 s2 -> after_read s2 s3 -> after_read s1 s3.
Proof.
  intros (d2 & -> & H2) (d3 & -> & H3). exists d3. split; [done|].
  intros a. rewrite H3. apply H2.
Qed.

Lemma after_read_range s s' pos n :
  after_read s s' -> range (disk (zbd_be_ s')) pos n = range (disk (zbd_be_ s)) pos n.
Proof. intros (d' & -> & H). apply range_ext. intros a _. apply H. Qed.

Lemma Read_loop_sound n offset left direct r0 acc s r data s' pos :
  0 <= left -> 0 <= pos -> offset = pos + zlen acc -> offset + left < 2 ^ 64 ->
  acc = range (disk (zbd_be_ s)) pos (zlen acc) ->
  Read_loop n offset left direct r0 acc s = Ok (r, data) s' ->
  after_read s s' /\ data = range (disk (zbd_be_ s)) pos (zlen data) /\
  zlen data <= zlen acc + left /\ (0 <= r -> r = zlen data).
Proof.
  revert offset left r0 acc s.
  induction n as [|n IH]; intros offset left r0 acc s Hl Hp Ho Hb Hacc; cbn [Read_loop];
    destruct (Z.eqb_spec left 0) as [->|Hne].
  1, 3: intros [= <- <- <-]; split; [apply after_read_refl|]; split; [done|]; split; [lia|];
        destruct (Z.ltb_spec r0 0); lia.
  { done. }
  unfold bind at 1, with_be, zoom, call.
  destruct (be_Read left offset direct (zbd_be_ s)) as [[[r1 errno] d1] dd] eqn:Er.
  destruct (read_ok _ _ _ _ _ _ _ _ Er) as [Hsame Hdata].
  assert (after_read s (set_be dd s)) as Har by (exists dd; done).
  destruct (Z.leb_spec r1 0) as [Hr|Hr].
  - destruct ((r1 =? -1) && (errno =? EINTR)).
    + intros Hrun. apply IH in Hrun as (H1 & H2 & H3 & H4); [|done..|].
      * split; [by eapply after_read_trans|]. rewrite (after_read_range _ _ _ _ Har) in H2. done.
      * by rewrite (after_read_range _ _ _ _ Har).
    + intros [= <- <- <-]. split; [done|]. split; [done|]. split; [lia|].
      destruct (Z.ltb_spec r1 0); lia.
  - destruct Hdata as [Hle ->]; [lia|done|]. pose proof (zlen_nonneg acc).
    assert (zlen (acc ++ range (disk (zbd_be_ s)) offset r1) = zlen acc + r1) as Hlen.
    { rewrite zlen_app, zlen_range; lia. }
    intros Hrun. apply IH in Hrun as (H1 & H2 & H3 & H4).
    + split; [by eapply after_read_trans|]. rewrite (after_read_range _ _ _ _ Har) in H2.
      split; [done|]. split; [lia|done].
    + lia.
    + done.
    + rewrite Hlen, u64_small; lia.
    + rewrite u64_small; lia.
    + rewrite (after_read_range _ _ _ _ Har), Hlen, range_app by lia. rewrite <- Hacc, Ho. done.
Qed.
End zbd_read.

Section zbd_read_reliable.
Context {D L : Type} `{spec : BackendSpec D L} {rel : ReliableReads D L}.
Implicit Types s : Zbd D.

Lemma Read_loop_total n offset left direct r0 acc s :
  (Z.to_nat left <= n)%nat -> 0 <= left -> 0 <= offset ->
  offset + left <= nr_zones_ * zone_sz_ -> 0 < left \/ 0 <= r0 ->
  exists data s', Read_loop n offset left direct r0 acc s = Ok (zlen acc + left, data) s' /\
    zlen data = zlen acc + left.
Proof.
  pose proof device_size_u64 as Hdev.
  revert offset left r0 acc s.
  induction n as [|n IH]; intros offset left r0 acc s Hn Hl Ho Hb Hr0; cbn [Read_loop];
    destruct (Z.eqb_spec left 0) as [->|Hne].
  1, 3: exists acc, s; rewrite Z.add_0_r; destruct (Z.ltb_spec r0 0); [lia|done].
  { lia. }
  destruct (read_progress left offset direct (zbd_be_ s)) as (r1 & errno & d1 & dd & Er & Hr);
    [lia..|].
  unfold bind at 1, with_be, zoom, call. rewrite Er.
  destruct (read_ok _ _ _ _ _ _ _ _ Er) as [_ Hdata]. destruct Hdata as [Hle ->]; [lia|done|].
  destruct (Z.leb_spec r1 0); [lia|].
  destruct (IH (offset +64 r1) (left - r1) r1 (acc ++ range (disk (zbd_be_ s)) offset r1)
    (set_be dd s)) as (data & s' & Hrun & Hlen).
  - lia.
  - lia.
  - apply u64_range.
  - rewrite u64_small; lia.
  - lia.
  - exists data, s'. rewrite Hrun. rewrite zlen_app, zlen_range in * by lia.
    split; [|lia]. do 2 f_equal. lia.
Qed.

(** Reading a range of the device. *)
Lemma Zbd_Read_ok offset n direct s :
  0 < n -> (Z.to_nat n <= loop_bound)%nat -> 0 <= offset ->
  offset + n <= nr_zones_ * zone_sz_ ->
  exists s', Zbd_Read offset n direct s = Ok (n, range (disk (zbd_be_ s)) offset n) s' /\
    after_read s s'.
Proof.
  intros Hn Hf Ho Hb. unfold Zbd_Read. pose proof device_size_u64.
  destruct (Read_loop_total loop_bound offset n direct (-1) [] s)
    as (data & s' & Hrun & Hlen); [lia..|].
  change (zlen (@nil byte)) with 0 in *. rewrite Z.add_0_l in *.
  pose proof Hrun as Hs. apply (Read_loop_sound _ _ _ _ _ _ _ _ _ _ offset) in Hs
    as (Har & Hd & _ & _); [|lia|lia|rewrite zlen_nil; lia|lia|done].
  exists s'. rewrite Hrun. rewrite Hd, Hlen. done.
Qed.
End zbd_read_reliable.
