(* ===== verification/ZbdOpen.v ===== *)
(** * Opening the zoned block device

    [ZonedBlockDevice::Open] (zbd_zenfs.cc): the first zones serve the metadata
    log, one zone is skipped, the next ones serve write-ahead logs and the rest
    serve I/O.  A zone's address in the heap of the model is its index in the
    zone list.  The objects of SZD that [OpenCharacterDevice] creates are part of
    the [SZDOnceLog] interface and have no state here. *)

From S2P Require Import Prelude Status Device MemDevice Zone Zbd.

Section open.
Context {D L : Type} `{be : ZonedBlockDeviceBackend D L}.
Abbreviation ZM := (M (Zbd D)).

(** [new Zone(this, zbd_be_.get(), zone_rep, i)] *)
Definition new_zone (i : nat) (r : zone_rep) : ZM unit :=
  modify (fun s => set_heap (<[i := Zone_new r]> (zone_heap s)) s).

Definition push_meta (i : nat) : ZM unit :=
  modify (fun s => set_zone_lists (io_zones s) (wal_zones s) (meta_zones s ++ [i]) s).
Definition push_wal (i : nat) : ZM unit :=
  modify (fun s => set_zone_lists (io_zones s) (wal_zones s ++ [i]) (meta_zones s) s).
Definition push_io (i : nat) : ZM unit :=
  modify (fun s => set_zone_lists (io_zones s ++ [i]) (wal_zones s) (meta_zones s) s).

(** [while (m < ZENFS_META_ZONES && i < ZoneCount())]; returns the zones left. *)
Fixpoint Open_meta (zs : list (nat * zone_rep)) (m : Z) : ZM (list (nat * zone_rep)) :=
  match zs with
  | [] => ret []
  | (i, r) :: zs' =>
      if m <? ZENFS_META_ZONES then
        if ZoneIsSwr r then
          when (negb (ZoneIsOffline r)) (new_zone i r ;; push_meta i) ;;
          Open_meta zs' (m + 1)
        else Open_meta zs' m
      else ret zs
  end.

(** [while (i < n) i++] *)
Fixpoint skip_to (n : Z) (zs : list (nat * zone_rep)) : list (nat * zone_rep) :=
  match zs with
  | [] => []
  | (i, r) :: zs' => if Z.of_nat i <? n then skip_to n zs' else zs
  end.

Definition wal_end : Z := ZENFS_META_ZONES + ZENFS_FLAKY_ZONES + ZENFS_WAL_ZONES.

Fixpoint Open_wal (zs : list (nat * zone_rep)) : ZM (list (nat * zone_rep)) :=
  match zs with
  | [] => ret []
  | (i, r) :: zs' =>
      if Z.of_nat i <? wal_end then
        when (ZoneIsSwr r && negb (ZoneIsOffline r)) (new_zone i r ;; push_wal i) ;;
        Open_wal zs'
      else ret zs
  end.

Definition Open_io_zone (readonly : bool) (p : nat * zone_rep) : ZM unit :=
  let '(i, r) := p in
  when (ZoneIsSwr r && negb (ZoneIsOffline r)) (
    new_zone i r ;;
    acq <- Acquire i ;;
    (if (acq : bool) then ret tt
     else fail (Corruption "Failed to set busy flag of zone ")) ;;
    push_io i ;;
    when (ZoneIsActive r) (
      modify (fun s => set_tokens (active_io_zones_ s + 1) (open_io_zones_ s) s) ;;
      when (ZoneIsOpen r && negb readonly) (attempt (Zone_Close i) ;; ret tt)) ;;
    CheckRelease i).

Definition reserved_zones : Z := 2.

Definition limit (max_nr : Z) : Z :=
  if max_nr =? 0 then nr_zones_ else u32 (max_nr - reserved_zones).

Definition Zbd_Open (readonly exclusive : bool) : ZM unit :=
  if negb readonly && negb exclusive
  then fail (InvalidArgument "Write opens must be exclusive") else
  let* (max_active, max_open) := with_be (io_run (be_Open readonly exclusive)) in
  if nr_zones_ <? ZENFS_MIN_ZONES
  then fail (NotSupported "To few zones on zoned backend (32 required)") else
  modify (set_limits (limit max_active) (limit max_open)) ;;
  s <- get ;;
  match be_ListZones (zbd_be_ s) with
  | None => fail (IOError "Failed to list zones")
  | Some reps =>
      if negb (zlen reps =? nr_zones_) then fail (IOError "Failed to list zones") else
      rest <- Open_meta (imap pair reps) 0 ;;
      rest <- Open_wal (skip_to (ZENFS_META_ZONES + ZENFS_FLAKY_ZONES) rest) ;;
      modify (set_tokens 0 0) ;;
      forM rest (Open_io_zone readonly) ;;
      match String.index 0 "nvme" be_GetFilename with
      | Some _ => ret tt
      | None => stuckM Undefined
      end
  end.
End open.
