(* ===== verification/ZbdProps.v ===== *)
(** * Properties of the zoned block device

    The theorems on the operations of Zbd.v, with examples on the in-memory
    device. *)

From S2P Require Import Prelude Status Device MemDevice Zone Zbd.

(** ** Examples *)

(** Zones 1 to 3 serve I/O: 1 holds 16 live bytes, 2 holds 8 bytes no file
    uses any more, 3 is empty.  One active token is taken for each of 1 and 2. *)
Definition zbd1 : Zbd MemDev :=
  mkZbd (mkMemDev [] {[ 1 := 80; 2 := 136 ]})
    (list_to_map [(0%nat, zone0 0);
                  (1%nat, mkZone 64 48 64 80 WLTH_MEDIUM 16 false);
                  (2%nat, mkZone 128 56 64 136 WLTH_LONG 0 false);
                  (3%nat, zone0 3)])
    [1; 2; 3]%nat [] [0]%nat 0 24 0 2 0 OK false 2 2 0.

Lemma io_zones_ok_intro {D} (s : Zbd D) :
  forallb (fun z => bool_decide (is_Some (zone_heap s !! z))) (io_zones s) = true ->
  bool_decide (NoDup (io_zones s)) = true -> io_zones_ok s.
Proof.
  intros H1 H2. split; [|by apply bool_decide_eq_true in H2].
  apply Forall_forall. intros z Hz. rewrite forallb_forall in H1.
  apply list_elem_of_In in Hz. apply H1 in Hz. by apply bool_decide_eq_true in Hz.
Qed.

(** ** Zones stay well formed *)

(** C28: Every operation of the device, successful or failing, keeps every zone
    well formed: its write pointer stays inside the zone and its remaining
    capacity is what is not yet written, or nothing. *)
Theorem zbd_operations_keep_zones_wf
  `{spec : BackendSpec D L} {szd : SZDOnceLog D L} (z : nat) data (wal : option L) fl mc t zo off :
  let wf := zones_wf (D := D) (L := L) in
  preserves wf (Append z data) /\ preserves wf (Zone_Reset z) /\ preserves wf (Zone_Finish z) /\
  (forall w, preserves wf (ZoneAppend z data w)) /\
  preserves wf ResetUnusedIOZones /\ preserves wf ReleaseUnusedWALZones /\
  preserves wf ApplyFinishThreshold /\ preserves wf FinishCheapestIOZone /\
  preserves wf (GetBestOpenZoneMatch fl mc) /\ preserves wf AllocateMetaZone /\
  preserves wf (AllocateIOZone fl t) /\ preserves wf (TakeMigrateZone fl mc) /\
  preserves wf (ReleaseMigrateZone zo) /\ preserves wf (GetWAL off) /\
  preserves wf (OpenWALZone z) /\ preserves wf (AllocateWALZone wal zo).
Proof. cbv zeta. split_and!; intros; eauto with preserves. Qed.

(** ** Allocation *)

(** C21: [AllocateIOZone] with no deferred error.  A zone it hands out was free
    and is the best open match for the lifetime hint (used only when good
    enough, or when no active token is left), or is an empty zone opened with an
    active token that was available; the caller gets one open token and the busy
    flag of exactly that zone.  When it hands out no zone or fails, no token and
    no busy flag is leaked.  In all cases free zones may only have been finished
    with their active token returned, and it never dereferences a null zone. *)
Theorem AllocateIOZone_correct `{spec : BackendSpec D L} fl t (s : Zbd D) :
  io_zones_ok s -> ok (zone_deferred_status_ s) = true ->
  AllocateIOZone_post fl s (AllocateIOZone fl t s).
Proof. apply AllocateIOZone_run. Qed.

Lemma AllocateIOZone_correct_witness :
  AllocateIOZone_post WLTH_MEDIUM zbd1
    (AllocateIOZone (be := be0) WLTH_MEDIUM kData zbd1).
Proof.
  apply (AllocateIOZone_correct (spec := spec0)); [by apply io_zones_ok_intro|reflexivity].
Defined.

(** [FinishCheapestIOZone] finishes the free, active zone with the least
    remaining capacity, returns its active token and changes no other zone; it
    does nothing when there is none, and on a device error it changes no zone. *)
Theorem FinishCheapestIOZone_correct `{spec : BackendSpec D L} (s : Zbd D) :
  io_zones_ok s ->
  ((forall z zn, z ∈ io_zones s -> ~ finishable (zone_heap s) z zn) /\
   FinishCheapestIOZone s = Ok tt s) \/
  exists v vn, v ∈ io_zones s /\ finishable (zone_heap s) v vn /\
    (forall z zn, z ∈ io_zones s -> finishable (zone_heap s) z zn -> capacity_ vn <= capacity_ zn) /\
    (exists d',
      FinishCheapestIOZone s =
        Ok tt (set_tokens (active_io_zones_ s - 1) (open_io_zones_ s)
          (set_heap (<[v := finish_zone vn]> (zone_heap s)) (set_be d' s))) \/
      exists e, FinishCheapestIOZone s = Err e (set_be d' s)).
Proof.
  intros Hok. rewrite FinishCheapestIOZone_run by done.
  pose proof (cheapest_scan (zone_heap s) (io_zones s)) as Hc.
  destruct (foldl _ _ _) as [v|]; [right|by left].
  destruct Hc as (vn & Hin & Hf & Hmin). exists v, vn. split; [done|]. split; [done|].
  split; [done|]. destruct Hf as [[-> _] _].
  destruct (be_Finish _ _) as [[e|[]] d']; exists d'; [right; by exists e|by left].
Qed.

Lemma FinishCheapestIOZone_correct_witness :
  ((forall z zn, z ∈ io_zones zbd1 -> ~ finishable (zone_heap zbd1) z zn) /\
   FinishCheapestIOZone (be := be0) zbd1 = Ok tt zbd1) \/
  exists v vn, v ∈ io_zones zbd1 /\ finishable (zone_heap zbd1) v vn /\
    (forall z zn, z ∈ io_zones zbd1 -> finishable (zone_heap zbd1) z zn -> capacity_ vn <= capacity_ zn) /\
    (exists d',
      FinishCheapestIOZone (be := be0) zbd1 =
        Ok tt (set_tokens (active_io_zones_ zbd1 - 1) (open_io_zones_ zbd1)
          (set_heap (<[v := finish_zone (be := be0) vn]> (zone_heap zbd1)) (set_be d' zbd1))) \/
      exists e, FinishCheapestIOZone (be := be0) zbd1 = Err e (set_be d' zbd1)).
Proof. apply (FinishCheapestIOZone_correct (spec := spec0)). by apply io_zones_ok_intro. Defined.

(** [GetBestOpenZoneMatch] returns the least lifetime difference over the
    free zones with live data and at least [min_capacity] left, with a zone that
    has it, whose busy flag is then the only change; it returns no zone exactly
    when every difference is above [LIFETIME_DIFF_NOT_GOOD]. *)
Theorem GetBestOpenZoneMatch_optimal `{spec : BackendSpec D L} fl mc (s : Zbd D) :
  io_zones_ok s ->
  exists diff v, GetBestOpenZoneMatch fl mc s = Ok (diff, v) (hold v s) /\
    best_match fl mc (zone_heap s) (io_zones s) (diff, v).
Proof.
  intros [Hl Hnd]. destruct (GetBestOpenZoneMatch_run fl mc s Hl Hnd) as [Hrun _].
  pose proof (best_match_scan fl mc (zone_heap s) (io_zones s)) as Hb.
  destruct (foldl _ _ _) as [diff v]. by exists diff, v.
Qed.

Lemma GetBestOpenZoneMatch_optimal_witness :
  exists diff v, GetBestOpenZoneMatch (be := be0) WLTH_SHORT 32 zbd1 = Ok (diff, v) (hold v zbd1) /\
    best_match WLTH_SHORT 32 (zone_heap zbd1) (io_zones zbd1) (diff, v).
Proof. apply (GetBestOpenZoneMatch_optimal (spec := spec0)). by apply io_zones_ok_intro. Defined.

(** ** Reclaiming *)

Section reset_rounds.
Context {D L : Type} `{spec : BackendSpec D L}.

Definition reset_outcome (h h' : gmap nat Zone) (z : nat) : Prop :=
  forall zn, h !! z = Some zn ->
    if negb (busy_ zn) && reclaimable zn
    then exists offline mc, h' !! z = Some (reset_zone offline mc zn)
    else h' !! z = Some zn.

Lemma reset_rounds zs (s s' : Zbd D) :
  Forall (fun z => is_Some (zone_heap s !! z)) zs -> NoDup zs ->
  forM zs reset_round s = Ok tt s' ->
  (forall z, z ∉ zs -> zone_heap s' !! z = zone_heap s !! z) /\
  forall z, z ∈ zs -> reset_outcome (zone_heap s) (zone_heap s') z.
Proof.
  intros Hl Hnd. revert s Hl. induction Hnd as [|y zs Hy Hnd IH]; intros s Hl Hrun.
  { unfold forM, ret in Hrun. simplify_eq. split; [done|]. by intros z ?%elem_of_nil. }
  apply Forall_cons in Hl as [[yn Hyn] Hl]. cbn [forM] in Hrun.
  apply bind_inv_ok in Hrun as ([] & s1 & Hround & Hrun).
  rewrite (reset_round_run _ _ yn) in Hround by done.
  assert ((forall z, z <> y -> zone_heap s1 !! z = zone_heap s !! z) /\
    if negb (busy_ yn) && reclaimable yn
    then exists offline mc, zone_heap s1 !! y = Some (reset_zone offline mc yn)
    else zone_heap s1 !! y = Some yn) as [Hother Hthis].
  { destruct (busy_ yn); [by simplify_eq|]. destruct (reclaimable yn); [|by simplify_eq].
    destruct (be_Reset _ _) as [[e|[offline mc]] d']; [done|]. injection Hround as <-. simpl. split.
    - intros z Hz. by rewrite lookup_insert_ne.
    - exists offline, mc. by rewrite lookup_insert_eq. }
  destruct (IH s1) as [Hout Hin]; [|done|].
  { apply Forall_forall. intros z Hz. destruct (proj1 (Forall_forall _ _) Hl z Hz) as [zn Hzn].
    exists zn. rewrite Hother; [done|]. by intros ->. }
  split.
  - intros z [Hz1 Hz2]%not_elem_of_cons. rewrite Hout by done. by apply Hother.
  - intros z [->|Hz]%elem_of_cons zn Hzn.
    + rewrite Hout by done. by simplify_eq.
    + apply Hin; [done|]. rewrite Hother; [done|]. by intros ->.
Qed.
End reset_rounds.

(** [ResetUnusedIOZones] resets exactly the free zones that were written and
    hold no live data; every other zone is left as it was, no busy flag is kept,
    and the active tokens move with the number of active zones.  On a device
    error it stops, still without leaking a flag or a token. *)
Theorem ResetUnusedIOZones_correct `{spec : BackendSpec D L} (s : Zbd D) :
  io_zones_ok s ->
  match ResetUnusedIOZones s with
  | Ok _ s' => quiet s s' /\
      (forall z, z ∉ io_zones s -> zone_heap s' !! z = zone_heap s !! z) /\
      forall z, z ∈ io_zones s -> reset_outcome (zone_heap s) (zone_heap s') z
  | Err _ s' => quiet s s'
  | Stuck _ => False
  end.
Proof.
  intros Hok. unfold ResetUnusedIOZones. unfold bind, get.
  assert (runs (quiet s) (forM (io_zones s) reset_round) (quiet s)) as Hq.
  { apply runs_forM. intros z Hz. by apply reset_round_quiet. }
  specialize (Hq s ltac:(reflexivity)).
  destruct (forM (io_zones s) reset_round s) as [[] s'|e s'|] eqn:Hrun; [|done|done].
  split; [done|]. apply reset_rounds; [apply Hok..|done].
Qed.

Lemma ResetUnusedIOZones_correct_witness :
  match ResetUnusedIOZones (be := be0) zbd1 with
  | Ok _ s' => quiet zbd1 s' /\
      (forall z, z ∉ io_zones zbd1 -> zone_heap s' !! z = zone_heap zbd1 !! z) /\
      forall z, z ∈ io_zones zbd1 -> reset_outcome (zone_heap zbd1) (zone_heap s') z
  | Err _ s' => quiet zbd1 s'
  | Stuck _ => False
  end.
Proof. apply (ResetUnusedIOZones_correct (spec := spec0)). by apply io_zones_ok_intro. Defined.

(** ** Lookup *)

Section lookup.
Context {D L : Type} `{spec : BackendSpec D L}.
Implicit Types s : Zbd D.

Definition zone_at (h : gmap nat Zone) (offset : Z) (z : nat) : bool :=
  from_option (in_zone offset) false (h !! z).

Lemma find_zone_run zs offset s :
  Forall (fun z => is_Some (zone_heap s !! z)) zs ->
  find_zone zs offset s = Ok (List.find (zone_at (zone_heap s) offset) zs) s.
Proof.
  induction zs as [|z zs IH]; intros H; [done|]. apply Forall_cons in H as [[zn Hz] Hzs].
  cbn [find_zone List.find]. erewrite bind_ok by by apply get_zone_ok.
  unfold zone_at at 1. rewrite Hz. simpl. destruct (in_zone offset zn); [done|]. by apply IH.
Qed.

(** The zones of the device do not overlap. *)
Definition zones_disjoint s : Prop :=
  forall z z' zn zn', zone_heap s !! z = Some zn -> zone_heap s !! z' = Some zn' ->
    z <> z' -> start_ zn + zone_sz_ <= start_ zn' \/ start_ zn' + zone_sz_ <= start_ zn.

Definition zone_list_ok s (zs : list nat) : Prop :=
  Forall (fun z => is_Some (zone_heap s !! z)) zs.

(** A zone of [zs] that spans the offset. *)
Definition spans s (zs : list nat) offset z : Prop :=
  z ∈ zs /\ exists zn, zone_heap s !! z = Some zn /\ start_ zn <= offset < start_ zn + zone_sz_.

Lemma spans_unique s zs zs' offset z z' :
  zones_disjoint s -> spans s zs offset z -> spans s zs' offset z' -> z = z'.
Proof.
  intros Hd (_ & zn & Hz & ?) (_ & zn' & Hz' & ?).
  destruct (decide (z = z')) as [|Hne]; [done|]. destruct (Hd _ _ _ _ Hz Hz' Hne); lia.
Qed.

Lemma find_spans s zs offset z :
  zones_wf s -> zones_disjoint s ->
  List.find (zone_at (zone_heap s) offset) zs = Some z <-> spans s zs offset z.
Proof.
  intros Hwf Hd.
  assert (forall y, y ∈ zs -> zone_at (zone_heap s) offset y = true <-> spans s zs offset y) as Hat.
  { intros y Hy. unfold zone_at, spans. destruct (zone_heap s !! y) as [yn|] eqn:Hyn; simpl.
    - unfold in_zone. destruct (zones_wf_lookup _ _ _ Hwf Hyn) as (?&?&_). pose proof zone_sz_pos.
      rewrite u64_small by lia. rewrite andb_true_iff. naive_solver lia.
    - naive_solver. }
  split.
  - intros [Hin%list_elem_of_In Hz]%List.find_some. by apply Hat.
  - intros Hz. pose proof Hz as [Hin _]. pose proof Hz as Ht. apply Hat in Ht; [|done].
    destruct (List.find _ _) as [y|] eqn:Hf.
    + apply List.find_some in Hf as [Hy%list_elem_of_In Hyat]. apply Hat in Hyat; [|done].
      f_equal. by eapply spans_unique.
    + apply list_elem_of_In in Hin. apply (List.find_none _ _ Hf) in Hin. congruence.
Qed.

(** The zone [GetIOZone] looks for. *)
Definition io_zone_at s offset : option nat :=
  match List.find (zone_at (zone_heap s) offset) (io_zones s) with
  | Some z => Some z
  | None => List.find (zone_at (zone_heap s) offset) (wal_zones s)
  end.

Lemma GetIOZone_run s offset :
  zone_list_ok s (io_zones s) -> zone_list_ok s (wal_zones s) ->
  GetIOZone offset s = Ok (io_zone_at s offset) s.
Proof.
  intros Hio Hwal. unfold GetIOZone, io_zone_at. unfold bind at 1, get.
  erewrite bind_ok by by apply find_zone_run.
  destruct (List.find _ (io_zones s)); [done|]. by apply find_zone_run.
Qed.

Lemma io_zone_at_spans s offset z :
  zones_wf s -> zones_disjoint s ->
  io_zone_at s offset = Some z <-> spans s (io_zones s) offset z \/ spans s (wal_zones s) offset z.
Proof.
  intros Hwf Hd. unfold io_zone_at.
  destruct (List.find _ (io_zones s)) as [y|] eqn:Hf.
  - apply find_spans in Hf; [|done..]. split; [naive_solver|].
    intros [H|H]; f_equal; by eapply spans_unique.
  - rewrite find_spans by done. split; [by right|]. intros [H|]; [|done].
    apply find_spans in H; [congruence|done..].
Qed.

Lemma io_zone_at_found s offset z zn :
  zones_wf s -> zones_disjoint s ->
  zone_heap s !! z = Some zn -> z ∈ io_zones s \/ z ∈ wal_zones s ->
  start_ zn <= offset < start_ zn + zone_sz_ ->
  io_zone_at s offset = Some z.
Proof.
  intros Hwf Hd Hz Hin Hoff. apply io_zone_at_spans; [done..|]. unfold spans. naive_solver.
Qed.

(** States with the same zones in the same places. *)
Definition same_layout s s' : Prop :=
  io_zones s' = io_zones s /\ wal_zones s' = wal_zones s /\
  forall z, start_ <$> zone_heap s' !! z = start_ <$> zone_heap s !! z.

Lemma same_layout_refl s : same_layout s s.
Proof. done. Qed.

Lemma same_layout_trans s1 s2 s3 : same_layout s1 s2 -> same_layout s2 s3 -> same_layout s1 s3.
Proof. intros (H1 & H2 & H3) (H4 & H5 & H6). split; [congruence|]. split; [congruence|].
  intros z. by rewrite H6, H3. Qed.

Lemma same_layout_list_ok s s' zs : same_layout s s' -> zone_list_ok s zs -> zone_list_ok s' zs.
Proof.
  intros (_ & _ & H) Hl. eapply Forall_impl; [exact Hl|]. intros z [zn Hz]. specialize (H z). rewrite Hz in H.
  apply fmap_Some in H as (zn' & -> & _). by eexists.
Qed.

Lemma zone_at_layout s s' offset z :
  same_layout s s' -> zone_at (zone_heap s') offset z = zone_at (zone_heap s) offset z.
Proof.
  intros (_ & _ & H). specialize (H z). unfold zone_at.
  destruct (zone_heap s' !! z), (zone_heap s !! z); simpl in *; simplify_eq; [|done].
  unfold in_zone. congruence.
Qed.

Lemma find_ext {A} (f g : A -> bool) l : (forall x, f x = g x) -> List.find f l = List.find g l.
Proof. intros H. induction l as [|x l IH]; simpl; [done|]. by rewrite H, IH. Qed.

Lemma io_zone_at_layout s s' offset :
  same_layout s s' -> io_zone_at s' offset = io_zone_at s offset.
Proof.
  intros H. pose proof H as (Hio & Hwal & _). unfold io_zone_at. rewrite Hio, Hwal.
  rewrite !(find_ext (zone_at (zone_heap s') offset) (zone_at (zone_heap s) offset))
    by (intros; by apply zone_at_layout). done.
Qed.
End lookup.

(** [GetIOZone] finds the zone an offset lies in, be it an I/O zone or a
    zone of the write-ahead log; for an offset outside of both kinds of zones it
    returns the null pointer.  The state does not change. *)
Theorem GetIOZone_correct `{spec : BackendSpec D L} (s : Zbd D) offset :
  zones_wf s -> zones_disjoint s -> zone_list_ok s (io_zones s) -> zone_list_ok s (wal_zones s) ->
  exists r, GetIOZone offset s = Ok r s /\
    forall z, r = Some z <->
      (z ∈ io_zones s \/ z ∈ wal_zones s) /\
      exists zn, zone_heap s !! z = Some zn /\ start_ zn <= offset < start_ zn + zone_sz_.
Proof.
  intros Hwf Hd Hio Hwal. eexists. rewrite GetIOZone_run by done. split; [done|].
  intros z. rewrite io_zone_at_spans by done. unfold spans. naive_solver.
Qed.

Lemma zones_disjoint_intro {D L} `{be : ZonedBlockDeviceBackend D L} (s : Zbd D) :
  forallb (fun p => forallb (fun q => bool_decide (p.1 = q.1) ||
      (start_ p.2 + zone_sz_ <=? start_ q.2) || (start_ q.2 + zone_sz_ <=? start_ p.2))
    (map_to_list (zone_heap s))) (map_to_list (zone_heap s)) = true ->
  zones_disjoint s.
Proof.
  rewrite forallb_forall. intros H z z' zn zn' Hz Hz' Hne.
  specialize (H (z, zn)). rewrite forallb_forall in H.
  specialize (H ltac:(by apply list_elem_of_In, elem_of_map_to_list) (z', zn')
                ltac:(by apply list_elem_of_In, elem_of_map_to_list)).
  simpl in H. rewrite !orb_true_iff in H. destruct H as [[H|H]|H]; [|lia..].
  by apply bool_decide_eq_true in H.
Qed.

Lemma zones_wf_zbd1 : zones_wf (be := be0) zbd1.
Proof.
  unfold zones_wf. apply map_Forall_to_list.
  repeat (apply Forall_cons; split; [zone_wf_done|]). by apply Forall_nil.
Qed.

Lemma GetIOZone_correct_witness :
  exists r, GetIOZone (be := be0) 100 zbd1 = Ok r zbd1 /\
    forall z, r = Some z <->
      (z ∈ io_zones zbd1 \/ z ∈ wal_zones zbd1) /\
      exists zn, zone_heap zbd1 !! z = Some zn /\ start_ zn <= 100 < start_ zn + 64.
Proof.
  apply (GetIOZone_correct (spec := spec0) zbd1 100).
  - apply zones_wf_zbd1.
  - by apply zones_disjoint_intro.
  - apply (io_zones_ok_intro zbd1); reflexivity.
  - apply Forall_nil. done.
Defined.

(** ** Tokens *)

(** The steps by which concurrent allocators and writers move tokens, each of
    them atomic under [zone_resources_mtx_]. *)
Inductive token_step `{be : ZonedBlockDeviceBackend D L} : Zbd D -> Zbd D -> Prop :=
  | token_open p s s' : WaitForOpenIOZoneToken p s = Ok tt s' -> token_step s s'
  | token_active s s' b : GetActiveIOZoneTokenIfAvailable s = Ok b s' -> token_step s s'
  | token_put_open s s' : PutOpenIOZoneToken s = Ok tt s' -> token_step s s'
  | token_put_active s s' : PutActiveIOZoneToken s = Ok tt s' -> token_step s s'.



(** ** Reading the device *)

(** [ZonedBlockDevice::Read] puts into the buffer what the device holds at
    the offset, however the device splits or interrupts the reads; the contents
    of the device do not change, and a non-negative return value is the number of
    bytes in the buffer.  Where reads inside the device make progress it ends and
    returns all [n] bytes. *)
Theorem Zbd_Read_correct `{spec : BackendSpec D L} offset n direct (s : Zbd D) :
  0 < n -> 0 <= offset -> offset + n < 2 ^ 64 ->
  (forall r data s', Zbd_Read offset n direct s = Ok (r, data) s' ->
     after_read s s' /\ data = range (disk (zbd_be_ s)) offset (zlen data) /\
     zlen data <= n /\ (0 <= r -> r = zlen data)) /\
  (ReliableReads D L -> (Z.to_nat n <= loop_bound)%nat -> offset + n <= nr_zones_ * zone_sz_ ->
   exists s', Zbd_Read offset n direct s = Ok (n, range (disk (zbd_be_ s)) offset n) s').
Proof.
  intros Hn Ho Hb. split.
  - intros r data s' Hrun.
    apply (Read_loop_sound _ _ _ _ _ _ _ _ _ _ offset) in Hrun as (H1 & H2 & H3 & H4);
      rewrite ?zlen_nil in *; [|lia..|done]. done.
  - intros Hrel Hf Hd. destruct (Zbd_Read_ok offset n direct s) as (s' & -> & _); [done..|].
    by exists s'.
Qed.

Lemma Zbd_Read_correct_witness :
  exists s', Zbd_Read (be := be0) 64 40 false zbd1
    = Ok (40, range (disk (BackendSpec := spec0) (zbd_be_ zbd1)) 64 40) s'.
Proof.
  apply (Zbd_Read_correct (spec := spec0) 64 40 false zbd1 ltac:(lia) ltac:(lia) ltac:(lia));
    [exact rel0|simpl; lia|simpl; lia].
Defined.

(** ** Deferred errors *)

(** [SetZoneDeferredStatus] records an error only when one is recorded
    already: whatever errors are reported, a device that starts without one
    still has none, and [AllocateIOZone] never sees them. *)
Theorem SetZoneDeferredStatus_drops_errors {D} (errors : list IOStatus) (s : Zbd D) :
  ok (zone_deferred_status_ s) = true -> forM errors SetZoneDeferredStatus s = Ok tt s.
Proof.
  intros Hok. induction errors as [|e errors IH]; [done|]. simpl. unfold bind at 1.
  unfold SetZoneDeferredStatus at 1, modify. by rewrite Hok.
Qed.

Lemma SetZoneDeferredStatus_drops_errors_witness :
  forM [IOError "Zone reset failed"] SetZoneDeferredStatus zbd1 = Ok tt zbd1.
Proof. apply SetZoneDeferredStatus_drops_errors. reflexivity. Defined.

(** ** Metadata zones *)

Section meta.
Context {D L : Type} `{spec : BackendSpec D L}.
Implicit Types s : Zbd D.

Definition free_used (h : gmap nat Zone) (z : nat) : Prop :=
  exists zn, free_zone h z zn /\ IsUsed zn = true.

Lemma free_used_hold s z y : z <> y -> free_used (zone_heap s) y -> free_used (zone_heap (hold (Some z) s)) y.
Proof.
  intros Hne (zn & Hf & Hu). exists zn. split; [|done]. apply free_zone_hold; [congruence|done].
Qed.

Lemma AllocateMetaZone_loop_used zs s :
  NoDup zs -> Forall (free_used (zone_heap s)) zs ->
  exists s', AllocateMetaZone_loop zs s = Err (NoSpace "Out of metadata zones") s' /\
    (forall z, z ∉ zs -> zone_heap s' !! z = zone_heap s !! z) /\
    forall z, z ∈ zs -> exists zn, zone_heap s' !! z = Some zn /\ busy_ zn = true.
Proof.
  intros Hnd. revert s. induction Hnd as [|z zs Hz Hnd IH]; intros s Hf; simpl.
  { exists s. split; [done|]. split; [done|]. by intros z ?%elem_of_nil. }
  apply Forall_cons in Hf as [(zn & Hfz & Hu) Hf].
  erewrite bind_ok by by eapply Acquire_hold. cbv iota.
  erewrite bind_ok by apply get_zone_ok, hold_lookup, Hfz.
  change (IsUsed (set_busy true zn)) with (IsUsed zn). rewrite Hu. simpl negb. cbv iota.
  destruct (IH (hold (Some z) s)) as (s' & Hrun & Hout & Hin).
  { apply Forall_forall. intros y Hy. apply free_used_hold; [by intros ->|].
    by apply (proj1 (Forall_forall _ _) Hf). }
  exists s'. split; [done|]. split.
  - intros y [Hyz Hy]%not_elem_of_cons. rewrite Hout by done. apply hold_lookup_ne. congruence.
  - intros y [->|Hy]%elem_of_cons; [|by apply Hin].
    exists (set_busy true zn). split; [|done]. rewrite Hout by done. apply hold_lookup, Hfz.
Qed.
End meta.

(** [AllocateMetaZone] keeps the busy flag of every used metadata zone it
    passes over: when all of them are in use it fails with [NoSpace], and none of
    them can be acquired any more, even after its data is dropped. *)
Theorem AllocateMetaZone_keeps_busy_flags `{spec : BackendSpec D L} (s : Zbd D) :
  NoDup (meta_zones s) -> Forall (free_used (zone_heap s)) (meta_zones s) ->
  exists s', AllocateMetaZone s = Err (NoSpace "Out of metadata zones") s' /\
    forall z, z ∈ meta_zones s -> Acquire z s' = Ok false s'.
Proof.
  intros Hnd Hf. unfold AllocateMetaZone. unfold bind at 1, get.
  destruct (AllocateMetaZone_loop_used _ _ Hnd Hf) as (s' & Hrun & _ & Hin).
  exists s'. split; [done|]. intros z Hz. destruct (Hin z Hz) as (zn & Hzn & Hb).
  by eapply Acquire_busy.
Qed.

Definition zbd_meta_used : Zbd MemDev :=
  set_heap (<[0%nat := mkZone 0 32 64 32 WLTH_NOT_SET 32 false]> (zone_heap zbd1)) zbd1.

Lemma AllocateMetaZone_keeps_busy_flags_witness :
  exists s', AllocateMetaZone (be := be0) zbd_meta_used = Err (NoSpace "Out of metadata zones") s' /\
    forall z, z ∈ meta_zones zbd_meta_used -> Acquire z s' = Ok false s'.
Proof.
  apply (AllocateMetaZone_keeps_busy_flags (spec := spec0)).
  - by apply NoDup_singleton.
  - apply Forall_cons. split; [|by apply Forall_nil].
    exists (mkZone 0 32 64 32 WLTH_NOT_SET 32 false). by repeat split.
Defined.
