(* ===== verification/Paths.v ===== *)
(** * Paths

    [ZenFS::FormatPathLexically] and the operations of [std::filesystem::path]
    (POSIX paths) the file system uses, on byte strings; and the [path] class of
    filesystem_utility.h that replaces it before C++17. *)

From S2P Require Import Prelude.

(** ** Splitting and joining *)

Definition slash : byte := Byte.x2f.
Definition dot : bytes := [Byte.x2e].
Definition dotdot : bytes := [Byte.x2e; Byte.x2e].

(** The items between the separators, as [std::getline(iss, item, '/')] returns
    them, with the empty ones. *)
Fixpoint split_path (p : bytes) : list bytes :=
  match p with
  | [] => [[]]
  | b :: p' =>
      if decide (b = slash) then [] :: split_path p'
      else match split_path p' with
           | item :: l => (b :: item) :: l
           | [] => [[b]]
           end
  end.

(** The file names of a path. *)
Definition names (p : bytes) : list bytes := filter (fun c => c <> []) (split_path p).

Fixpoint join_path (l : list bytes) : bytes :=
  match l with
  | [] => []
  | [c] => c
  | c :: l' => c ++ slash :: join_path l'
  end.

Definition is_absolute (p : bytes) : bool := bool_decide (head p = Some slash).
Definition ends_with_sep (p : bytes) : bool := bool_decide (last p = Some slash).

(** ** [std::filesystem::path] *)

(** One name of [lexically_normal]: the names kept so far, the last one first,
    and whether the result ends in a separator. *)
Definition norm_step (abs : bool) (st : list bytes * bool) (c : bytes) : list bytes * bool :=
  let '(stack, tr) := st in
  if decide (c = dot) then (stack, true)
  else if decide (c = dotdot) then
    match stack with
    | top :: rest => if decide (top = dotdot) then (c :: stack, false) else (rest, true)
    | [] => if abs then ([], true) else ([c], false)
    end
  else (c :: stack, false).

Definition trailing (tr : bool) (stack : list bytes) : bytes :=
  match stack with
  | top :: _ => if tr && bool_decide (top <> dotdot) then [slash] else []
  | [] => []
  end.

Definition lexically_normal (p : bytes) : bytes :=
  match p with
  | [] => []
  | _ =>
      let '(stack, tr) := foldl (norm_step (is_absolute p)) ([], false) (names p) in
      let out := (if is_absolute p then [slash] else []) ++ join_path (reverse stack) ++
                 trailing (tr || ends_with_sep p) stack in
      match out with [] => dot | _ => out end
  end.

(** [a / b] *)
Definition path_append (a b : bytes) : bytes :=
  if is_absolute b then b
  else match last a with
       | Some c => if decide (c = slash) then a ++ b else a ++ slash :: b
       | None => b
       end.

(** What is left of [l] after its last element without [P], from the back. *)
Fixpoint drop_while (f : byte -> bool) (l : bytes) : bytes :=
  match l with
  | [] => []
  | b :: l' => if f b then drop_while f l' else l
  end.
Definition drop_while_end (f : byte -> bool) (l : bytes) : bytes := reverse (drop_while f (reverse l)).

(** Removes the file name and the separators before it. *)
Definition parent_path (p : bytes) : bytes :=
  let q := drop_while_end (fun b => bool_decide (b = slash))
             (drop_while_end (fun b => bool_decide (b <> slash)) p) in
  match q with [] => if is_absolute p then [slash] else [] | _ => q end.

(** ** The names of files *)

Definition FormatPathLexically (filepath : bytes) : bytes :=
  path_append [slash] (lexically_normal filepath).

(** [path_as_string_with_separator_at_end] *)
Definition with_separator_at_end (p : bytes) : bytes := lexically_normal (path_append p []).

Fixpoint starts_with (s needle : bytes) : bool :=
  match needle, s with
  | [], _ => true
  | b :: needle', c :: s' => bool_decide (b = c) && starts_with s' needle'
  | _ :: _, [] => false
  end.

(** ** [filesystem_utility::path] *)

(** [std::getline] does not return the empty item behind a final separator. *)
Definition getline_items (p : bytes) : list bytes :=
  let l := split_path p in
  match last l with Some [] => take (length l - 1) l | _ => l end.

(** The loop over the items: the segments, the last one first. *)
Definition util_step (segs : list bytes) (item : bytes) : list bytes :=
  if bool_decide (item = dotdot) && negb (bool_decide (segs = [])) then tail segs
  else if decide (item = dot) then segs
  else if decide (item = []) then segs
  else item :: segs.

(** [path::lexically_normal]; [None] where [segs] is accessed while empty. *)
Definition util_normal (src_path : bytes) : option bytes :=
  match src_path with
  | [] => Some []
  | _ =>
      if decide (src_path = [slash]) then Some [slash] else
      let segs := foldl util_step [] (getline_items src_path) in
      let root := if is_absolute src_path then [slash] else [] in
      if ends_with_sep src_path
      then Some (root ++ mjoin ((fun s => s ++ [slash]) <$> reverse segs))
      else match segs with
           | [] => None
           | _ => Some (root ++ join_path (reverse segs))
           end
  end.

(** [operator/] *)
Definition util_append (a b : bytes) : option bytes :=
  match util_normal a, util_normal b with
  | Some na, Some nb => util_normal (na ++ (if ends_with_sep a then [] else [slash]) ++ nb)
  | _, _ => None
  end.

(** ** Splitting what was joined *)

Definition no_slash (c : bytes) : Prop := slash ∉ c.

Lemma split_path_items p : Forall no_slash (split_path p).
Proof.
  induction p as [|b p IH]; simpl.
  - apply Forall_cons. split; [apply not_elem_of_nil|by apply Forall_nil].
  - destruct (decide (b = slash)); [apply Forall_cons; split; [apply not_elem_of_nil|done]|].
    destruct (split_path p) as [|item l]; apply Forall_cons; split.
    + by apply not_elem_of_cons; split; [|apply not_elem_of_nil].
    + by apply Forall_nil.
    + apply Forall_cons in IH as [H1 H2]. by apply not_elem_of_cons.
    + by apply Forall_cons in IH as [_ ?].
Qed.

Lemma split_path_name c : no_slash c -> split_path c = [c].
Proof.
  induction c as [|b c IH]; [done|]. intros [Hb Hc]%not_elem_of_cons. cbn [split_path].
  rewrite decide_False by done. by rewrite IH.
Qed.

Lemma split_path_app c p : no_slash c -> split_path (c ++ slash :: p) = c :: split_path p.
Proof.
  induction c as [|b c IH]; cbn [split_path app]; [by rewrite decide_True|].
  intros [Hb Hc]%not_elem_of_cons. rewrite decide_False by done. by rewrite IH.
Qed.

Definition is_name (c : bytes) : Prop := c <> [] /\ no_slash c.

Lemma names_ok p : Forall is_name (names p).
Proof.
  unfold names. pose proof (split_path_items p) as H. induction (split_path p) as [|c l IH]; [done|].
  apply Forall_cons in H as [Hc Hl]. rewrite filter_cons. destruct (decide _); [|by apply IH].
  apply Forall_cons. by split; [|apply IH].
Qed.

Lemma names_slash p : names (slash :: p) = names p.
Proof. unfold names. cbn [split_path]. rewrite decide_True by done. rewrite filter_cons_False; [done|]. tauto. Qed.

Lemma names_join l (tr : bool) :
  Forall is_name l -> names (join_path l ++ (if tr then [slash] else [])) = l.
Proof.
  unfold names. induction l as [|c l IH]; intros H.
  - by destruct tr.
  - apply Forall_cons in H as [[Hne Hc] Hl]. destruct l as [|c' l].
    + simpl. destruct tr.
      * rewrite split_path_app by done. by rewrite filter_cons_True.
      * rewrite app_nil_r, split_path_name by done. by rewrite filter_cons_True.
    + change (join_path (c :: c' :: l)) with (c ++ slash :: join_path (c' :: l)).
      rewrite <- app_assoc. simpl app at 2. rewrite split_path_app by done.
      rewrite filter_cons_True by done. f_equal. by apply IH.
Qed.

Lemma join_path_last l c d : is_name c -> last (join_path (l ++ [c])) = Some d -> d <> slash.
Proof.
  intros [Hne Hc] H.
  assert (last c = Some d) as Hl.
  { induction l as [|x l IH]; [done|]. apply IH. clear IH. cbn [app] in H.
    destruct (l ++ [c]) as [|y l'] eqn:E; [by destruct l|].
    change (join_path (x :: y :: l')) with (x ++ slash :: join_path (y :: l')) in H.
    rewrite last_app, last_cons in H. destruct (last (join_path (y :: l'))) eqn:E'; [done|].
    exfalso. apply last_None in E'. destruct l as [|z l]; injection E as <- <-.
    - by destruct c.
    - destruct (l ++ [c]) eqn:E2; [by destruct l|]. by destruct z. }
  intros ->. apply Hc. by apply last_Some_elem_of.
Qed.

Lemma join_path_head l c d : is_name c -> head (join_path (c :: l)) = Some d -> d <> slash.
Proof.
  intros [Hne Hc] H ->. destruct c as [|b c]; [done|]. apply Hc.
  destruct l; simpl in H; injection H as ->; left.
Qed.

(** ** Normal forms *)

(** A name that normalization keeps. *)
Definition plain (c : bytes) : Prop := is_name c /\ c <> dot /\ c <> dotdot.

Definition sep_if (tr : bool) : bytes := if tr then [slash] else [].

Lemma norm_step_plain abs stack tr c : plain c -> norm_step abs (stack, tr) c = (c :: stack, false).
Proof. intros (_ & H1 & H2). unfold norm_step. by rewrite !decide_False. Qed.

Lemma norm_steps_plain abs stack l :
  Forall plain l -> foldl (norm_step abs) (stack, false) l = (reverse l ++ stack, false).
Proof.
  revert stack. induction l as [|c l IH]; intros stack H; [done|].
  apply Forall_cons in H as [Hc Hl]. cbn [foldl]. rewrite norm_step_plain by done.
  rewrite IH by done. by rewrite reverse_cons, <- app_assoc.
Qed.

(** Where nothing has to be kept of a dot-dot, the stack holds plain names. *)
Lemma norm_steps_stack (abs : bool) l st :
  Forall is_name l -> Forall plain st.1 -> abs = true \/ dotdot ∉ l ->
  Forall plain (foldl (norm_step abs) st l).1.
Proof.
  revert st. induction l as [|c l IH]; intros [stack tr] Hl Hst Habs; [done|].
  apply Forall_cons in Hl as [Hc Hl]. cbn [foldl]. apply IH; [done| |set_solver].
  unfold norm_step. destruct (decide (c = dot)); [done|].
  destruct (decide (c = dotdot)) as [->|]; [|by apply Forall_cons].
  destruct Habs as [->|Hn]; [|set_solver].
  destruct stack as [|top rest]; [done|]. apply Forall_cons in Hst as [(? & ? & Ht) ?].
  by rewrite decide_False.
Qed.

Lemma norm_steps_kept (abs : bool) l st :
  dotdot ∉ l -> (st.1 <> [] \/ exists c, c ∈ l /\ c <> dot) ->
  (foldl (norm_step abs) st l).1 <> [].
Proof.
  revert st. induction l as [|c l IH]; intros [stack tr] Hn H; [set_solver|].
  cbn [foldl]. apply IH; [set_solver|]. unfold norm_step.
  destruct (decide (c = dot)) as [->|]; [set_solver|].
  rewrite decide_False by set_solver. by left.
Qed.

(** Paths that start at the root and have a normal form below it. *)
Definition rooted (p : bytes) : Prop :=
  is_absolute p = true \/ ((dotdot ∉ names p) /\ (exists c, c ∈ names p /\ c <> dot)).

Definition normal_path (q : bytes) : Prop :=
  exists l (tr : bool),
    Forall plain l /\ (l = [] -> tr = false) /\ q = (slash :: join_path l ++ sep_if tr).

Lemma plain_name c : plain c -> is_name c.
Proof. by intros []. Qed.

Lemma trailing_plain tr stack :
  Forall plain stack -> exists tr' : bool, (stack = [] -> tr' = false) /\ trailing tr stack = sep_if tr'.
Proof.
  intros H. destruct stack as [|top rest]; [by exists false|].
  apply Forall_cons in H as [(_ & _ & Ht) _]. exists tr. split; [done|]. simpl.
  rewrite bool_decide_true by done. by destruct tr.
Qed.

Lemma reverse_nil_inv {A} (l : list A) : reverse l = [] -> l = [].
Proof. intros H. rewrite <- (reverse_involutive l), H. done. Qed.

Lemma Format_normal p : rooted p -> normal_path (FormatPathLexically p).
Proof.
  intros Hp. unfold FormatPathLexically, lexically_normal.
  destruct p as [|b p]; [by destruct Hp as [?|[_ [? [?%elem_of_nil _]]]]|].
  set (q := b :: p) in *.
  pose proof (norm_steps_stack (is_absolute q) (names q) ([], false) (names_ok q)) as Hst.
  pose proof (norm_steps_kept (is_absolute q) (names q) ([], false)) as Hne.
  destruct (foldl _ _ _) as [stack tr] eqn:Hf. cbn [fst] in *.
  assert (Forall plain stack) as Hstack.
  { apply Hst; [by apply Forall_nil|]. destruct Hp as [?|[? _]]; [by left|by right]. }
  destruct (trailing_plain (tr || ends_with_sep q) stack Hstack) as (tr' & Htr & ->).
  exists (reverse stack), tr'. split; [by apply Forall_reverse|].
  split; [intros ?%reverse_nil_inv; auto|]. unfold path_append.
  destruct (is_absolute q) eqn:Ha; [done|].
  assert (stack <> []) as Hs.
  { apply Hne; destruct Hp as [?|[? ?]]; [congruence|done|congruence|by right]. }
  destruct (reverse stack) as [|c l] eqn:Hr; [by apply reverse_nil_inv in Hr|].
  assert (is_name c) as Hc.
  { apply plain_name. eapply Forall_forall; [by apply Forall_reverse in Hstack|]. rewrite Hr. left. }
  pose proof (join_path_head l c) as Hh. destruct (join_path (c :: l)) as [|d j] eqn:Hj.
  { destruct Hc as [Hc _]. destruct l; simpl in Hj; by destruct c. }
  specialize (Hh d Hc eq_refl). simpl. unfold is_absolute. simpl.
  by rewrite bool_decide_false by congruence.
Qed.

Lemma Format_fixpoint q : normal_path q -> FormatPathLexically q = q.
Proof.
  intros (l & tr & Hl & Htr & ->). unfold FormatPathLexically, lexically_normal.
  change (is_absolute (slash :: join_path l ++ sep_if tr)) with true.
  rewrite names_slash. unfold sep_if at 1. rewrite names_join by (by eapply Forall_impl, plain_name).
  rewrite norm_steps_plain, app_nil_r, reverse_involutive by done. cbn [orb].
  cut (trailing (ends_with_sep (slash :: join_path l ++ sep_if tr)) (reverse l) = sep_if tr).
  { intros ->. reflexivity. }
  destruct l as [|c l _] using rev_ind; [by rewrite Htr|].
  apply Forall_app in Hl as [_ Hc%Forall_cons]. destruct Hc as [(Hc & _ & Hdd) _].
  rewrite reverse_app. simpl. rewrite (bool_decide_true (c <> dotdot)), andb_true_r by done.
  unfold ends_with_sep. rewrite last_cons. destruct tr; cbn [sep_if].
  - by rewrite last_snoc.
  - rewrite app_nil_r. destruct (last _) eqn:E.
    + apply join_path_last in E; [|done]. by rewrite bool_decide_false by congruence.
    + apply last_None in E. destruct Hc as [Hc _]. destruct l as [|x l]; simpl in E; [by destruct c|].
      destruct (l ++ [c]) eqn:E2; [by destruct l|]. by destruct x.
Qed.

(** A dot-dot that leads out of the directory is kept once and dropped then. *)
Lemma Format_escape c :
  plain c -> FormatPathLexically (dotdot ++ slash :: c) = (slash :: dotdot ++ slash :: c) /\
  FormatPathLexically (slash :: dotdot ++ slash :: c) = slash :: c.
Proof.
  intros Hc. pose proof (plain_name _ Hc) as Hn.
  assert (no_slash dotdot) as Hd by (unfold no_slash, dotdot; set_solver).
  assert (names (dotdot ++ slash :: c) = [dotdot; c]) as Hnames.
  { rewrite <- (app_nil_r (dotdot ++ slash :: c)). apply (names_join [dotdot; c] false).
    apply Forall_cons. split; [done|]. apply Forall_cons. by split; [|apply Forall_nil]. }
  assert (forall x, last (x ++ slash :: c) <> Some slash) as Hlast.
  { intros x. rewrite last_app, last_cons. destruct (last c) eqn:E.
    - intros [= ->]. by apply (proj2 Hn), last_Some_elem_of.
    - apply last_None in E. by destruct Hn. }
  unfold FormatPathLexically, lexically_normal. split.
  - change (is_absolute (dotdot ++ slash :: c)) with false. rewrite Hnames. cbn [foldl].
    change (norm_step false ([], false) dotdot) with ([dotdot], false).
    rewrite norm_step_plain by done. cbn [orb]. unfold ends_with_sep.
    rewrite bool_decide_false by done. simpl. by rewrite app_nil_r.
  - change (is_absolute (slash :: dotdot ++ slash :: c)) with true. rewrite names_slash, Hnames.
    cbn [foldl]. change (norm_step true ([], false) dotdot) with ([] : list bytes, true).
    rewrite norm_step_plain by done. cbn [orb]. unfold ends_with_sep.
    rewrite bool_decide_false by apply (Hlast (slash :: dotdot)). simpl. by rewrite app_nil_r.
Qed.

(** Normalizing the name of a file is stable: for every path that is absolute,
    or relative with a name and without dot-dots, [FormatPathLexically] gives an
    absolute path without empty, dot or dot-dot names, and normalizing it again,
    as the nested calls of the file system do, does not change it.  A relative
    path that leads out of its directory has no such form: its dot-dot
    survives one pass and not the next. *)
Theorem format_path_stable (p : bytes) :
  rooted p ->
  (exists l (tr : bool), Forall plain l /\ (l = [] -> tr = false) /\
     FormatPathLexically p = (slash :: join_path l ++ sep_if tr)) /\
  FormatPathLexically (FormatPathLexically p) = FormatPathLexically p /\
  (forall c, plain c ->
     FormatPathLexically (FormatPathLexically (dotdot ++ slash :: c)) <>
     FormatPathLexically (dotdot ++ slash :: c)).
Proof.
  intros Hp. split; [by apply Format_normal|]. split; [by apply Format_fixpoint, Format_normal|].
  intros c Hc. destruct (Format_escape c Hc) as [-> ->]. intros [= E].
  apply (f_equal length) in E. simpl in E. lia.
Qed.

Definition path0 : bytes := Stdlib.Strings.String.list_byte_of_string "/db//./tmp/../000042.log".

Lemma format_path_stable_witness :
  FormatPathLexically (FormatPathLexically path0) = FormatPathLexically path0 /\
  FormatPathLexically path0 = Stdlib.Strings.String.list_byte_of_string "/db/000042.log".
Proof. split; [apply (format_path_stable path0); by left|reflexivity]. Defined.

(** ** The replacement before C++17 *)

(** The names stay below where they start and end in a proper name. *)
Fixpoint balanced (depth : nat) (l : list bytes) : Prop :=
  match l with
  | [] => True
  | c :: l' =>
      if decide (c = dot) then balanced depth l'
      else if decide (c = dotdot) then match depth with O => False | S d => balanced d l' end
      else balanced (S depth) l'
  end.

Lemma fold_util_names items segs :
  foldl util_step segs items = foldl util_step segs (filter (fun c => c <> []) items).
Proof.
  revert segs. induction items as [|c l IH]; intros segs; [done|]. rewrite filter_cons. cbn [foldl].
  destruct (decide (c <> [])) as [Hc|Hc]; [apply IH|].
  assert (c = []) as -> by (destruct c; [done|by destruct Hc]). apply IH.
Qed.

Lemma util_step_norm abs c l segs tr :
  is_name c -> Forall plain segs -> balanced (length segs) (c :: l) ->
  let st := norm_step abs (segs, tr) c in
  util_step segs c = st.1 /\ Forall plain st.1 /\ balanced (length st.1) l.
Proof.
  intros [Hne Hns] Hs Hb. cbn [balanced] in Hb. unfold norm_step, util_step.
  destruct (decide (c = dot)) as [->|Hd]; [done|].
  destruct (decide (c = dotdot)) as [->|Hdd].
  - destruct segs as [|top rest]; [done|]. cbn [length] in Hb.
    apply Forall_cons in Hs as [(? & ? & Ht) Hs]. rewrite !(decide_False (P := top = dotdot)) by done.
    by rewrite bool_decide_true.
  - rewrite bool_decide_false by done. cbn [andb]. rewrite decide_False by done.
    split; [done|]. split; [|done]. apply Forall_cons. by repeat split.
Qed.

Lemma util_steps abs l st :
  Forall is_name l -> Forall plain st.1 -> balanced (length st.1) l ->
  foldl util_step st.1 l = (foldl (norm_step abs) st l).1.
Proof.
  revert st. induction l as [|c l IH]; intros [segs tr] Hl Hs Hb; [done|].
  apply Forall_cons in Hl as [Hc Hl]. cbn [foldl].
  destruct (util_step_norm abs c l segs tr) as (E & ? & ?); [done..|].
  cbn [fst]. rewrite E. by apply IH.
Qed.

Lemma join_path_nonnil c l : is_name c -> join_path (l ++ [c]) <> [].
Proof.
  intros [Hne _]. destruct l as [|x l]; [done|]. simpl.
  destruct (l ++ [c]) eqn:E; [by destruct l|]. by destruct x.
Qed.

Lemma join_sep l : l <> [] -> mjoin ((fun s => s ++ [slash]) <$> l) = join_path l ++ [slash].
Proof.
  induction l as [|c l IH]; [done|]. intros _. destruct l as [|c' l]; [simpl; by rewrite app_nil_r|].
  change (join_path (c :: c' :: l)) with (c ++ slash :: join_path (c' :: l)).
  specialize (IH ltac:(done)).
  change (mjoin _) with ((c ++ [slash]) ++ mjoin ((fun s => s ++ [slash]) <$> (c' :: l))).
  rewrite IH. by rewrite <- !app_assoc.
Qed.

Lemma names_getline p : filter (fun c => c <> []) (getline_items p) = names p.
Proof.
  unfold getline_items, names. destruct (split_path p) as [|c l _] using rev_ind; [done|].
  rewrite last_snoc. destruct c; [|done].
  rewrite length_app, take_app_le, take_ge by (simpl; lia).
  rewrite filter_app. simpl. by rewrite app_nil_r.
Qed.

Lemma norm_steps_last abs l c st : plain c -> (foldl (norm_step abs) st (l ++ [c])) =
  (c :: (foldl (norm_step abs) st l).1, false).
Proof.
  intros Hc. rewrite foldl_app. cbn [foldl]. destruct (foldl _ _ l). by apply norm_step_plain.
Qed.

(** The [path] class that stands in for [std::filesystem::path] before C++17
    agrees with it on the paths whose dot-dots stay inside the path and which end
    in a proper name: both normalize such a path to the same string. *)
Theorem util_path_equivalent (p : bytes) l c :
  names p = l ++ [c] -> plain c -> balanced 0 (names p) ->
  util_normal p = Some (lexically_normal p).
Proof.
  intros Hn Hc Hb. pose proof (names_ok p) as Hok. unfold util_normal, lexically_normal.
  destruct p as [|b p]; [by destruct l|]. set (q := b :: p) in *.
  destruct (decide (q = [slash])) as [E|_]; [by rewrite E in Hn; destruct l|].
  rewrite fold_util_names, names_getline.
  pose proof (util_steps (is_absolute q) (names q) ([], false) Hok) as Hu. cbn [fst] in Hu.
  rewrite Hu by (done || by apply Forall_nil).
  rewrite Hn, norm_steps_last by done. cbn [fst orb trailing].
  set (st := (foldl _ _ l).1). destruct Hc as (Hc & _ & Hdd).
  rewrite (bool_decide_true (c <> dotdot)), andb_true_r by done. rewrite reverse_cons.
  pose proof (join_path_nonnil c (reverse st) Hc) as Hj.
  set (root := if is_absolute q then [slash] else []). destruct (ends_with_sep q).
  - rewrite join_sep by (by destruct (reverse st)).
    destruct (root ++ _ ++ _) eqn:E; [|done]. apply app_eq_nil in E as [_ [E _]%app_eq_nil]. done.
  - rewrite app_nil_r. destruct (root ++ _) eqn:E; [|done]. by apply app_eq_nil in E as [_ E].
Qed.

Lemma util_path_equivalent_witness : util_normal path0 = Some (lexically_normal path0).
Proof.
  apply (util_path_equivalent path0
    (Stdlib.Strings.String.list_byte_of_string <$> ["db"; "."; "tmp"; ".."]%string)
    (Stdlib.Strings.String.list_byte_of_string "000042.log")).
  - reflexivity.
  - unfold plain, is_name, no_slash. split; [split; [done|]|done]. 
    apply (bool_decide_eq_true_1 (slash ∉ Stdlib.Strings.String.list_byte_of_string "000042.log")).
    reflexivity.
  - by vm_compute.
Defined.
