(* ===== verification/ZbdFrame.v ===== *)
(** * What the device operations leave alone

    The relation [kept] between two states of the device: the zones stay where
    they are, no write pointer of an I/O zone moves back and the bytes below the
    write pointers stay on the device.  Allocating, finishing and closing zones
    keeps everything in this sense; an append keeps everything and adds its
    data.  The write path of the files is proved on top of this. *)

From S2P Require Import Prelude Status Device MemDevice Zone Zbd ZbdProps.

Section frame.
Context {D L : Type} `{spec : BackendSpec D L} {szd : SZDOnceLog D L}.
Implicit Types s : Zbd D.

(** ** The relation *)

Definition zone_grows (zn zn' : Zone) : Prop :=
  wp_ zn <= wp_ zn' /\ used_capacity_ zn' = used_capacity_ zn /\
  (capacity_ zn' = capacity_ zn \/ capacity_ zn' = 0).

Definition kept s s' : Prop :=
  same_layout s s' /\ meta_zones s' = meta_zones s /\
  zone_deferred_status_ s' = zone_deferred_status_ s /\ bytes_written_ s' = bytes_written_ s /\
  forall z zn, z ∈ io_zones s -> zone_heap s !! z = Some zn ->
    exists zn', zone_heap s' !! z = Some zn' /\ zone_grows zn zn' /\
      forall a, start_ zn <= a < wp_ zn -> disk (zbd_be_ s') a = disk (zbd_be_ s) a.

Lemma same_layout_start s s' z zn zn' :
  same_layout s s' -> zone_heap s !! z = Some zn -> zone_heap s' !! z = Some zn' ->
  start_ zn' = start_ zn.
Proof. intros (_ & _ & H) Hz Hz'. specialize (H z). rewrite Hz, Hz' in H. by injection H. Qed.

Lemma kept_refl s : kept s s.
Proof.
  split_and!; try done. intros z zn _ Hz. exists zn. split; [done|]. split; [|done].
  split; [lia|]. split; [done|by left].
Qed.

Lemma kept_trans s1 s2 s3 : kept s1 s2 -> kept s2 s3 -> kept s1 s3.
Proof.
  intros (Hl & Hm & Hd & Hb & Hz) (Hl' & Hm' & Hd' & Hb' & Hz').
  split; [by eapply same_layout_trans|]. split_and!; [congruence..|].
  intros z zn Hin Hzn. destruct (Hz z zn Hin Hzn) as (zn2 & Hzn2 & (?&?&?) & Ha).
  pose proof (same_layout_start _ _ _ _ _ Hl Hzn Hzn2) as Hst. pose proof Hl as (Hio & _).
  destruct (Hz' z zn2) as (zn3 & Hzn3 & (?&?&?) & Ha'); [by rewrite Hio|done|].
  exists zn3. split; [done|]. split; [unfold zone_grows; intuition (lia || congruence)|].
  intros a Hr. rewrite Ha', Ha by lia. done.
Qed.

#[export] Instance kept_preorder : PreOrder kept.
Proof. split; [exact kept_refl|exact kept_trans]. Qed.

(** ** Operations that keep everything *)

Definition frame s0 s : Prop := zones_wf s /\ kept s0 s.

(** A change that touches neither the lists nor the zones nor the contents. *)
Lemma frame_set s0 s s' :
  zone_heap s' = zone_heap s -> io_zones s' = io_zones s -> wal_zones s' = wal_zones s ->
  meta_zones s' = meta_zones s -> zone_deferred_status_ s' = zone_deferred_status_ s ->
  bytes_written_ s' = bytes_written_ s ->
  (forall a, disk (zbd_be_ s') a = disk (zbd_be_ s) a) -> frame s0 s -> frame s0 s'.
Proof.
  intros Hh Hio Hw Hm Hd Hb Ha [Hwf Hk]. split; [unfold zones_wf; by rewrite Hh|].
  transitivity s; [done|]. split.
  { split_and!; [done..|]. intros z. by rewrite Hh. }
  split_and!; [done..|]. intros z zn _ Hz. exists zn. rewrite Hh. split; [done|].
  split; [split; [lia|split; [done|by left]]|done].
Qed.

Lemma frame_mod_zone s0 z f :
  (forall zn, zone_wf zn -> zone_wf (f zn) /\ start_ (f zn) = start_ zn /\ zone_grows zn (f zn)) ->
  preserves (frame s0) (mod_zone z f).
Proof.
  intros Hf s [Hwf Hk]. unfold mod_zone, bind, get_zone, get, deref, bind.
  destruct (zone_heap s !! z) as [zn|] eqn:Hz; [|done]. simpl.
  destruct (Hf zn) as (Hwf' & Hst & Hg); [by eapply zones_wf_lookup|].
  split; [by apply zones_wf_insert|]. transitivity s; [done|].
  split_and!; try done.
  - split_and!; [done..|]. intros y. simpl. destruct (decide (y = z)) as [->|Hne].
    + rewrite lookup_insert_eq, Hz. simpl. by f_equal.
    + by rewrite lookup_insert_ne.
  - intros y yn _ Hy. simpl. destruct (decide (y = z)) as [->|Hne].
    + rewrite lookup_insert_eq. exists (f zn). split; [done|]. by simplify_eq.
    + rewrite lookup_insert_ne by done. exists yn. split; [done|].
      split; [split; [lia|split; [done|by left]]|done].
Qed.

Lemma frame_with_be {A} s0 (m : M D A) :
  (forall d, match m d with
             | Ok _ d' | Err _ d' => forall a, disk d' a = disk d a | Stuck _ => True end) ->
  preserves (frame s0) (with_be m).
Proof.
  intros Hm s Hf. unfold with_be, zoom. specialize (Hm (zbd_be_ s)).
  destruct (m (zbd_be_ s)); [by apply (frame_set s0 s)|by apply (frame_set s0 s)|done].
Qed.

Lemma frame_tokens s0 a o : preserves (frame s0) (modify (fun s => set_tokens (a s) (o s) s)).
Proof. intros s H. by apply (frame_set s0 s). Qed.
Lemma frame_tokens_const s0 a o : preserves (frame s0) (modify (set_tokens a o)).
Proof. intros s H. by apply (frame_set s0 s). Qed.

Lemma frame_Finish s0 z : preserves (frame s0) (Zone_Finish z).
Proof.
  unfold Zone_Finish. preserves_step; [apply preserves_get_zone|].
  preserves_step.
  - apply frame_with_be. intros d. unfold io_run.
    destruct (be_Finish _ d) as [[?|?] ?] eqn:E; by eapply finish_ok.
  - apply frame_mod_zone. intros zn (?&?&?&?&?&?&?). pose proof zone_sz_pos.
    unfold zone_wf, zone_grows, is_u in *. simpl. rewrite u64_small by lia. lia.
Qed.

Lemma frame_Close s0 z : preserves (frame s0) (Zone_Close z).
Proof.
  unfold Zone_Close. preserves_step; [apply preserves_get_zone|]. apply preserves_when, frame_with_be.
  intros d. unfold io_run. destruct (be_Close _ d) as [[?|?] ?] eqn:E; by eapply close_ok.
Qed.

Lemma frame_busy s0 z b : preserves (frame s0) (mod_zone z (set_busy b)).
Proof. apply frame_mod_zone. intros zn H. unfold zone_grows. simpl. by auto with lia. Qed.
Lemma frame_lifetime s0 z l : preserves (frame s0) (mod_zone z (set_lifetime l)).
Proof. apply frame_mod_zone. intros zn H. unfold zone_grows. simpl. by auto with lia. Qed.
Hint Resolve preserves_get_zone frame_Finish frame_Close frame_busy frame_lifetime frame_tokens
  frame_tokens_const : preserves.

Lemma frame_Acquire s0 z : preserves (frame s0) (Acquire z).
Proof. unfold Acquire. preserves_solve. Qed.
Lemma frame_Release s0 z : preserves (frame s0) (Release z).
Proof. unfold Release. preserves_solve. Qed.
Hint Resolve frame_Acquire frame_Release : preserves.
Lemma frame_CheckRelease s0 z : preserves (frame s0) (CheckRelease z).
Proof. unfold CheckRelease, GetZoneNr. preserves_solve. Qed.
Hint Resolve frame_CheckRelease : preserves.

Lemma frame_PutOpen s0 : preserves (frame s0) PutOpenIOZoneToken.
Proof. unfold PutOpenIOZoneToken. preserves_solve. Qed.
Lemma frame_PutActive s0 : preserves (frame s0) PutActiveIOZoneToken.
Proof. unfold PutActiveIOZoneToken. preserves_solve. Qed.
Lemma frame_WaitForOpen s0 p : preserves (frame s0) (WaitForOpenIOZoneToken p).
Proof. unfold WaitForOpenIOZoneToken. preserves_solve. Qed.
Lemma frame_GetActive s0 : preserves (frame s0) GetActiveIOZoneTokenIfAvailable.
Proof. unfold GetActiveIOZoneTokenIfAvailable. preserves_solve. Qed.
Lemma frame_ApplyFinishThreshold s0 : preserves (frame s0) ApplyFinishThreshold.
Proof. unfold ApplyFinishThreshold, finish_round, PutActiveIOZoneToken. preserves_solve. Qed.
Lemma frame_FinishCheapest s0 : preserves (frame s0) FinishCheapestIOZone.
Proof. unfold FinishCheapestIOZone, finish_candidate, PutActiveIOZoneToken. preserves_solve. Qed.
Lemma frame_GetBest s0 fl mc : preserves (frame s0) (GetBestOpenZoneMatch fl mc).
Proof. unfold GetBestOpenZoneMatch, best_candidate. preserves_solve. Qed.
Hint Resolve frame_PutOpen frame_PutActive frame_WaitForOpen frame_GetActive
  frame_ApplyFinishThreshold frame_FinishCheapest frame_GetBest : preserves.

Lemma frame_AllocateEmptyZone s0 : preserves (frame s0) AllocateEmptyZone.
Proof.
  unfold AllocateEmptyZone. preserves_step; [preserves_solve|].
  generalize (io_zones a). intros zs. induction zs; simpl; preserves_solve.
Qed.
Lemma frame_get_active_token s0 n got : preserves (frame s0) (get_active_token n got).
Proof. revert got. induction n; intros got; simpl; preserves_solve. Qed.
Hint Resolve frame_AllocateEmptyZone frame_get_active_token : preserves.

Lemma frame_AllocateIOZone s0 fl t : preserves (frame s0) (AllocateIOZone fl t).
Proof. unfold AllocateIOZone, GetZoneDeferredStatus, open_new_zone. preserves_solve. Qed.

(** ** The device while files are written *)

(** Zones as the write path needs them; what is left of a zone is a number of
    blocks. *)
Record dev_ok s : Prop := {
  dok_wf : zones_wf s;
  dok_disjoint : zones_disjoint s;
  dok_io : io_zones_ok s;
  dok_roles : forall z, z ∈ io_zones s -> z ∉ meta_zones s;
  dok_bytes : is_u 64 (bytes_written_ s);
  dok_status : ok (zone_deferred_status_ s) = true;
  dok_blocks : forall z zn, z ∈ io_zones s -> zone_heap s !! z = Some zn ->
    capacity_ zn mod block_sz_ = 0
}.

(** Like [kept], with [u z] bytes more in use in zone [z]. *)
Definition stored (u : nat -> Z) s s' : Prop :=
  same_layout s s' /\ meta_zones s' = meta_zones s /\
  zone_deferred_status_ s' = zone_deferred_status_ s /\
  forall z zn, z ∈ io_zones s -> zone_heap s !! z = Some zn ->
    exists zn', zone_heap s' !! z = Some zn' /\ wp_ zn <= wp_ zn' /\
      used_capacity_ zn' = used_capacity_ zn +64 u z /\
      forall a, start_ zn <= a < wp_ zn -> disk (zbd_be_ s') a = disk (zbd_be_ s) a.

Definition none : nat -> Z := fun _ => 0.

Lemma stored_trans u v s1 s2 s3 :
  stored u s1 s2 -> stored v s2 s3 -> stored (fun z => u z + v z) s1 s3.
Proof.
  intros (Hl & Hm & Hd & Hz) (Hl' & Hm' & Hd' & Hz').
  split; [by eapply same_layout_trans|]. split_and!; [congruence..|].
  intros z zn Hin Hzn. destruct (Hz z zn Hin Hzn) as (zn2 & Hzn2 & Hw & Hu & Ha).
  pose proof (same_layout_start _ _ _ _ _ Hl Hzn Hzn2) as Hst. pose proof Hl as (Hio & _).
  destruct (Hz' z zn2) as (zn3 & Hzn3 & Hw' & Hu' & Ha'); [by rewrite Hio|done|].
  exists zn3. split; [done|]. split; [lia|]. split; [by rewrite Hu', Hu, u64_add_add|].
  intros a Hr. rewrite Ha', Ha by lia. done.
Qed.

Lemma stored_ext u v s s' : (forall z, u z = v z) -> stored u s s' -> stored v s s'.
Proof.
  intros H (Hl & Hm & Hd & Hz). split_and!; [done..|]. intros z zn Hin Hzn. rewrite <- H. eauto.
Qed.

Lemma kept_stored s s' : zones_wf s -> kept s s' -> stored none s s'.
Proof.
  intros Hwf (Hl & Hm & Hd & _ & Hz). split_and!; [done..|]. intros z zn Hin Hzn.
  destruct (Hz z zn Hin Hzn) as (zn' & Hz' & (Hw & Hu & _) & Ha). exists zn'. split_and!; [done..| |done].
  unfold none. rewrite Z.add_0_r, u64_small; [done|].
  by destruct (zones_wf_lookup _ _ _ Hwf Hzn) as (_&_&_&_&_&_&?).
Qed.

Lemma stored_refl s : zones_wf s -> stored none s s.
Proof. intros H. by apply kept_stored. Qed.

Lemma layout_disjoint s s' : same_layout s s' -> zones_disjoint s -> zones_disjoint s'.
Proof.
  intros (_ & _ & Hl) Hd z z' zn zn' Hz Hz' Hne. pose proof (Hl z) as H1. pose proof (Hl z') as H2.
  rewrite Hz in H1. rewrite Hz' in H2. symmetry in H1, H2.
  apply fmap_Some in H1 as (yn & Hy & ->). apply fmap_Some in H2 as (yn' & Hy' & ->). by eapply Hd.
Qed.

Lemma layout_io_ok s s' : same_layout s s' -> io_zones_ok s -> io_zones_ok s'.
Proof.
  intros Hl [H1 H2]. pose proof Hl as (Hio & _). unfold io_zones_ok. rewrite Hio.
  split; [by apply (same_layout_list_ok s)|done].
Qed.

Lemma dev_ok_step s s' :
  dev_ok s -> same_layout s s' -> meta_zones s' = meta_zones s ->
  zone_deferred_status_ s' = zone_deferred_status_ s -> zones_wf s' -> is_u 64 (bytes_written_ s') ->
  (forall z zn', z ∈ io_zones s -> zone_heap s' !! z = Some zn' -> capacity_ zn' mod block_sz_ = 0) ->
  dev_ok s'.
Proof.
  intros [] Hl Hm Hd Hwf Hb Hc. pose proof Hl as (Hio & _). split; try done.
  - by apply (layout_disjoint s).
  - by apply (layout_io_ok s).
  - rewrite Hio, Hm. done.
  - by rewrite Hd.
  - rewrite Hio. done.
Qed.

Lemma kept_dev_ok s s' : dev_ok s -> frame s s' -> dev_ok s'.
Proof.
  intros Hok [Hwf (Hl & Hm & Hd & Hb & Hz)]. apply (dev_ok_step s); try done.
  { rewrite Hb. by destruct Hok. }
  intros z zn' Hin Hz'. destruct (dok_io _ Hok) as [Hio _]. rewrite Forall_forall in Hio.
  destruct (Hio z Hin) as [zn Hzn]. destruct (Hz z zn Hin Hzn) as (yn & Hy & (_ & _ & Hc) & _).
  simplify_eq. destruct Hc as [->| ->]; [by eapply dok_blocks|]. apply Z.mod_0_l. pose proof block_sz_pos. lia.
Qed.

Lemma frame_start s : zones_wf s -> frame s s.
Proof. by split. Qed.

(** A zone [AllocateIOZone] hands out. *)
Lemma AllocateIOZone_some fl t s z s' :
  dev_ok s -> AllocateIOZone fl t s = Ok (Some z) s' ->
  z ∈ io_zones s' /\ exists zn, zone_heap s' !! z = Some zn.
Proof.
  intros Hok Hrun. pose proof (AllocateIOZone_run fl t s (dok_io _ Hok) (dok_status _ Hok)) as H.
  rewrite Hrun in H. destruct H as (s1 & _ & Hin & zn & [Hz _] & [(diff & _ & _ & _ & ->)|(_ & _ & ->)]).
  - split; [done|]. simpl. rewrite lookup_alter_eq, Hz. by eexists.
  - simpl. split; [done|]. rewrite lookup_insert_eq. by eexists.
Qed.

(** ** Appending *)

Lemma same_layout_insert s z zn zn' d b :
  zone_heap s !! z = Some zn -> start_ zn' = start_ zn ->
  same_layout s (set_bytes_written b (set_heap (<[z := zn']> (zone_heap s)) (set_be d s))).
Proof.
  intros Hz Hst. split_and!; [done..|]. intros y. simpl. destruct (decide (y = z)) as [->|].
  - rewrite lookup_insert_eq, Hz. simpl. by f_equal.
  - by rewrite lookup_insert_ne.
Qed.

Lemma advance_wp n zn : zone_wf zn -> 0 <= n <= capacity_ zn -> wp_ (advance n zn) = wp_ zn + n.
Proof. intros (?&?&?&?&?&?&?) ?. simpl. apply u64_small. lia. Qed.

Lemma after_write_stored z zn n d s :
  dev_ok s -> z ∈ io_zones s -> zone_heap s !! z = Some zn -> 0 <= n <= capacity_ zn ->
  (forall a, ~ (wp_ zn <= a < wp_ zn + capacity_ zn) -> disk d a = disk (zbd_be_ s) a) ->
  stored none s (after_write z zn n d s).
Proof.
  intros Hok Hin Hz Hn Hd. pose proof (zones_wf_lookup _ _ _ (dok_wf _ Hok) Hz) as Hwf.
  split; [by eapply same_layout_insert|]. split_and!; [done..|].
  intros y yn Hy Hyn. pose proof (zones_wf_lookup _ _ _ (dok_wf _ Hok) Hyn) as Hwfy.
  assert (used_capacity_ yn = used_capacity_ yn +64 none y) as Hu.
  { unfold none. rewrite Z.add_0_r, u64_small; [done|]. by destruct Hwfy as (_&_&_&_&_&_&?). }
  unfold after_write. simpl. destruct (decide (y = z)) as [->|Hne].
  - rewrite Hz in Hyn. injection Hyn as <-. rewrite lookup_insert_eq. exists (advance n zn).
    split; [done|]. rewrite advance_wp by done. split; [lia|]. split; [done|].
    intros a Ha. apply Hd. lia.
  - rewrite lookup_insert_ne by done. exists yn. split; [done|]. split; [lia|]. split; [done|].
    intros a Ha. apply Hd. intros Ha'. destruct Hwf as (?&?&?&?&?&?&?), Hwfy as (?&?&?&?&?&?&?).
    destruct (dok_disjoint _ Hok _ _ _ _ Hz Hyn ltac:(done)); lia.
Qed.

Lemma after_write_dev_ok z zn n d s :
  dev_ok s -> z ∈ io_zones s -> zone_heap s !! z = Some zn -> 0 <= n <= capacity_ zn ->
  n mod block_sz_ = 0 -> dev_ok (after_write z zn n d s).
Proof.
  intros Hok Hin Hz Hn Hb. pose proof (zones_wf_lookup _ _ _ (dok_wf _ Hok) Hz) as Hwf.
  apply (dev_ok_step s); try done.
  - by eapply same_layout_insert.
  - unfold after_write. apply (zones_wf_insert (set_be d s)); [apply Hok|by apply zone_wf_advance].
  - apply u64_range.
  - intros y yn Hy. unfold after_write. simpl. destruct (decide (y = z)) as [->|Hne].
    + rewrite lookup_insert_eq. intros [= <-]. simpl.
      destruct (zone_wf_u64 _ Hwf) as [_ Hc]. unfold is_u in Hc. rewrite u64_small by lia.
      pose proof (dok_blocks _ Hok z zn Hin Hz). pose proof block_sz_pos.
      rewrite Zminus_mod, H, Hb. by apply Z.mod_0_l; lia.
    + rewrite lookup_insert_ne by done. by eapply dok_blocks.
Qed.

Lemma append_step z zn data s :
  dev_ok s -> z ∈ io_zones s -> zone_heap s !! z = Some zn -> zlen data <= capacity_ zn ->
  (length data <= loop_bound)%nat ->
  match Append z data s with
  | Ok _ s' => stored none s s' /\ zone_heap s' !! z = Some (advance (zlen data) zn) /\
      range (disk (zbd_be_ s')) (wp_ zn) (zlen data) = data /\
      (zlen data mod block_sz_ = 0 -> dev_ok s')
  | Err _ s' => stored none s s'
  | Stuck _ => False
  end.
Proof.
  intros Hok Hin Hz Hc Hlen. pose proof (zones_wf_lookup _ _ _ (dok_wf _ Hok) Hz) as Hwf.
  pose proof (zlen_nonneg data) as Hn. unfold Append. mstep. destruct (Z.ltb_spec (capacity_ zn) (zlen data)); [lia|].
  destruct (Append_loop_ok loop_bound z zn data s Hlen Hz) as [(d & -> & Hd)|(m & err & d & Hm & -> & Hd)].
  - by apply zone_wf_u64.
  - apply Hok.
  - destruct Hwf as (?&?&?&?&?&?&?). lia.
  - split; [|split; [|split]].
    + apply after_write_stored; [done..|lia|]. intros a Ha. rewrite Hd. apply store_outside. lia.
    + unfold after_write. simpl. by rewrite lookup_insert_eq.
    + unfold after_write. simpl. rewrite (range_ext _ (store (disk (zbd_be_ s)) (wp_ zn) data)) by done.
      apply range_store_same.
    + intros Hb. apply after_write_dev_ok; (done || lia).
  - apply after_write_stored; [done..|lia|]. intros a Ha. rewrite Hd by lia. apply store_outside.
    rewrite zlen_ztake by lia. lia.
Qed.

(** [used_capacity_ += n] *)
Lemma add_used_heap z zn n s :
  dev_ok s -> z ∈ io_zones s -> zone_heap s !! z = Some zn ->
  let s' := set_heap (<[z := set_used_capacity (used_capacity_ zn +64 n) zn]> (zone_heap s)) s in
  stored (fun y => if decide (y = z) then n else 0) s s' /\ dev_ok s'.
Proof.
  intros Hok Hin Hz s'. pose proof (zones_wf_lookup _ _ _ (dok_wf _ Hok) Hz) as Hwf.
  assert (same_layout s s') as Hl.
  { pose proof (same_layout_insert s z zn (set_used_capacity (used_capacity_ zn +64 n) zn)
      (zbd_be_ s) (bytes_written_ s) Hz ltac:(done)) as Hl. unfold s'. by destruct s. }
  split.
  - split; [done|]. split_and!; [done..|]. intros y yn Hy Hyn. unfold s'. simpl.
    destruct (decide (y = z)) as [->|Hne].
    + rewrite lookup_insert_eq. eexists. split; [done|]. simplify_eq. by split; [simpl; lia|].
    + rewrite lookup_insert_ne by done. exists yn. split; [done|]. split; [lia|]. split; [|done].
      rewrite Z.add_0_r, u64_small; [done|].
      by destruct (zones_wf_lookup _ _ _ (dok_wf _ Hok) Hyn) as (_&_&_&_&_&_&?).
  - apply (dev_ok_step s); try done.
    + apply zones_wf_insert; [apply Hok|]. unfold zone_wf, is_u in *. simpl.
      pose proof (u64_range (used_capacity_ zn + n)). intuition.
    + apply Hok.
    + intros y yn Hy. unfold s'. simpl. destruct (decide (y = z)) as [->|Hne].
      * rewrite lookup_insert_eq. intros [= <-]. simpl. by eapply dok_blocks.
      * rewrite lookup_insert_ne by done. by eapply dok_blocks.
Qed.
End frame.
