(* ===== verification/Superblock.v ===== *)
(** * The superblock

    [class Superblock] (fs_zenfs.h, fs_zenfs.cc): the 512-byte record at the
    start of every metadata zone. *)

From stdpp Require Import pretty.
From S2P Require Import Prelude Status Coding Device MemDevice.

(** ** Data *)

(** The [char] arrays are byte strings of the array's size. *)
Record Superblock := mkSuperblock {
  magic_ : Z;
  uuid_ : bytes;           (* char[37] *)
  sequence_ : Z;
  superblock_version_ : Z;
  flags_ : Z;
  block_size_ : Z;         (* in bytes *)
  zone_size_ : Z;          (* in blocks *)
  sb_nr_zones_ : Z;
  aux_fs_path_ : bytes;    (* char[256] *)
  finish_treshold_ : Z;
  zenfs_version_ : bytes;  (* char[64] *)
  reserved_ : bytes        (* char[123] *)
}.

Definition MAGIC : Z := 0x5a454e46.
Definition ENCODED_SIZE : Z := 512.
Definition CURRENT_SUPERBLOCK_VERSION : Z := 2.
Definition DEFAULT_FLAGS : Z := 0.
Definition FLAGS_ENABLE_GC : Z := Z.shiftl 1 0.

Definition uuid_sz : Z := 37.
Definition aux_fs_path_sz : Z := 256.
Definition zenfs_version_sz : Z := 64.
Definition reserved_sz : Z := 123.

(** [Superblock()] *)
Definition Superblock_default : Superblock :=
  mkSuperblock 0 (zeros uuid_sz) 0 0 0 0 0 0 (zeros aux_fs_path_sz) 0 (zeros zenfs_version_sz)
    (zeros reserved_sz).

(** The string a [char *] points to: up to the first NUL. *)
Fixpoint c_str (l : bytes) : bytes :=
  match l with
  | [] => []
  | b :: l' => if decide (b = Byte.x00) then [] else b :: c_str l'
  end.

(** [strncpy(dst, src, sz - 1)] into a zeroed array of [sz] bytes. *)
Definition strncpy (sz : Z) (src : bytes) : bytes :=
  let s := ztake (sz - 1) (c_str src) in s ++ zeros (sz - zlen s).

(** [memcpy] of the first [min(length, sz - 1)] bytes into a zeroed array. *)
Definition memcpy_uuid (uuid : bytes) : bytes :=
  let s := ztake (Z.min (zlen uuid) (uuid_sz - 1)) uuid in s ++ zeros (uuid_sz - zlen s).

Section superblock.
Context {D L : Type} `{be : ZonedBlockDeviceBackend D L}.

(** The constructor for a new file system; [uuid] is what
    [Env::GenerateUniqueId] returned, [version] is [ZENFS_VERSION]. *)
Definition Superblock_new (uuid version aux_fs_path : bytes) (finish_threshold : Z)
  (enable_gc : bool) : Superblock :=
  mkSuperblock MAGIC (memcpy_uuid uuid) 0 CURRENT_SUPERBLOCK_VERSION
    (if enable_gc then Z.lor DEFAULT_FLAGS FLAGS_ENABLE_GC else DEFAULT_FLAGS)
    block_sz_ (u32 (zone_sz_ / block_sz_)) nr_zones_
    (strncpy aux_fs_path_sz aux_fs_path) finish_threshold (strncpy zenfs_version_sz version)
    (zeros reserved_sz).

Definition CompatibleWith (sb : Superblock) : Status :=
  if negb (block_size_ sb =? block_sz_)
  then Corruption "ZenFS Superblock: Error: block size missmatch" else
  if negb (zone_size_ sb =? zone_sz_ / block_size_ sb)
  then Corruption "ZenFS Superblock: Error: zone size missmatch" else
  if nr_zones_ <? sb_nr_zones_ sb
  then Corruption "ZenFS Superblock: Error: nr of zones missmatch" else
  OK.
End superblock.

Definition set_sequence (q : Z) (sb : Superblock) : Superblock :=
  mkSuperblock (magic_ sb) (uuid_ sb) q (superblock_version_ sb) (flags_ sb) (block_size_ sb)
    (zone_size_ sb) (sb_nr_zones_ sb) (aux_fs_path_ sb) (finish_treshold_ sb)
    (zenfs_version_ sb) (reserved_ sb).

(** The output and the superblock, whose sequence number moved. *)
Definition Superblock_EncodeTo (sb : Superblock) : bytes * Superblock :=
  let sb := set_sequence (sequence_ sb +32 1) sb in
  let out := PutFixed32 [] (magic_ sb) in
  let out := out ++ uuid_ sb in
  let out := PutFixed32 out (sequence_ sb) in
  let out := PutFixed32 out (superblock_version_ sb) in
  let out := PutFixed32 out (flags_ sb) in
  let out := PutFixed32 out (block_size_ sb) in
  let out := PutFixed32 out (zone_size_ sb) in
  let out := PutFixed32 out (sb_nr_zones_ sb) in
  let out := PutFixed32 out (finish_treshold_ sb) in
  let out := out ++ aux_fs_path_ sb in
  let out := out ++ zenfs_version_ sb in
  let out := out ++ reserved_ sb in
  (out, sb).

(** [GetFixed32(input, &field)] whose result is not looked at. *)
Definition get32 (old : Z) (input : bytes) : Z * bytes :=
  match GetFixed32 input with Some p => p | None => (old, input) end.

(** [memcpy] of [sz] bytes and [remove_prefix]. *)
Definition get_array (sz : Z) (input : bytes) : bytes * bytes := (ztake sz input, zdrop sz input).

Definition Superblock_DecodeFrom (sb : Superblock) (input : bytes) : Status * Superblock :=
  if negb (zlen input =? ENCODED_SIZE)
  then (Corruption "ZenFS Superblock: Error: Superblock size missmatch", sb) else
  let '(magic, input) := get32 (magic_ sb) input in
  let '(uuid, input) := get_array uuid_sz input in
  let '(sequence, input) := get32 (sequence_ sb) input in
  let '(version, input) := get32 (superblock_version_ sb) input in
  let '(flags, input) := get32 (flags_ sb) input in
  let '(block_size, input) := get32 (block_size_ sb) input in
  let '(zone_size, input) := get32 (zone_size_ sb) input in
  let '(nr_zones, input) := get32 (sb_nr_zones_ sb) input in
  let '(finish_treshold, input) := get32 (finish_treshold_ sb) input in
  let '(aux_fs_path, input) := get_array aux_fs_path_sz input in
  let '(zenfs_version, input) := get_array zenfs_version_sz input in
  let '(reserved, input) := get_array reserved_sz input in
  let sb := mkSuperblock magic uuid sequence version flags block_size zone_size nr_zones
              aux_fs_path finish_treshold zenfs_version reserved in
  if negb (magic =? MAGIC)
  then (Corruption "ZenFS Superblock: Error: Magic missmatch", sb) else
  if negb (version =? CURRENT_SUPERBLOCK_VERSION)
  then (Corruption "ZenFS Superblock: Error: Incompatible ZenFS on-disk format version, please migrate data or switch to previously used ZenFS version. See the ZenFS README for instructions.", sb)
  else (OK, sb).

Definition GetSeq (sb : Superblock) : Z := sequence_ sb.
Definition GetAuxFsPath (sb : Superblock) : bytes := c_str (aux_fs_path_ sb).
Definition GetFinishTreshold (sb : Superblock) : Z := finish_treshold_ sb.
Definition GetUUID (sb : Superblock) : bytes := c_str (uuid_ sb).
Definition IsGCEnabled (sb : Superblock) : bool := negb (Z.land (flags_ sb) FLAGS_ENABLE_GC =? 0).

(** ** Well-formed superblocks *)

Definition superblock_wf (sb : Superblock) : Prop :=
  is_u 32 (magic_ sb) /\ is_u 32 (sequence_ sb) /\ is_u 32 (superblock_version_ sb) /\
  is_u 32 (flags_ sb) /\ is_u 32 (block_size_ sb) /\ is_u 32 (zone_size_ sb) /\
  is_u 32 (sb_nr_zones_ sb) /\ is_u 32 (finish_treshold_ sb) /\
  zlen (uuid_ sb) = uuid_sz /\ zlen (aux_fs_path_ sb) = aux_fs_path_sz /\
  zlen (zenfs_version_ sb) = zenfs_version_sz /\ zlen (reserved_ sb) = reserved_sz.

Definition superblock_fields (sb : Superblock) (q : Z) : bytes :=
  le_split 4 (magic_ sb) ++ uuid_ sb ++ le_split 4 q ++ le_split 4 (superblock_version_ sb) ++
  le_split 4 (flags_ sb) ++ le_split 4 (block_size_ sb) ++ le_split 4 (zone_size_ sb) ++
  le_split 4 (sb_nr_zones_ sb) ++ le_split 4 (finish_treshold_ sb) ++ aux_fs_path_ sb ++
  zenfs_version_ sb ++ reserved_ sb.

Lemma Superblock_EncodeTo_eq sb :
  Superblock_EncodeTo sb =
    (superblock_fields sb (sequence_ sb +32 1), set_sequence (sequence_ sb +32 1) sb).
Proof.
  unfold Superblock_EncodeTo, superblock_fields. rewrite !PutFixed32_eq. cbn -[le_split].
  by rewrite <- !app_assoc.
Qed.

Lemma zlen_superblock_fields sb q : superblock_wf sb -> zlen (superblock_fields sb q) = ENCODED_SIZE.
Proof.
  intros (_&_&_&_&_&_&_&_&H1&H2&H3&H4). unfold superblock_fields. autorewrite with zlen.
  rewrite H1, H2, H3, H4. done.
Qed.

Lemma get32_le_split old v rest : is_u 32 v -> get32 old (le_split 4 v ++ rest) = (v, rest).
Proof. intros H. unfold get32. rewrite GetFixed32_le_split. by rewrite u32_small. Qed.

Lemma get_array_app sz l rest : zlen l = sz -> get_array sz (l ++ rest) = (l, rest).
Proof. intros <-. unfold get_array. by rewrite ztake_app, zdrop_app. Qed.

Lemma Superblock_DecodeFrom_fields sb0 sb q :
  superblock_wf sb -> is_u 32 q ->
  (Superblock_DecodeFrom sb0 (superblock_fields sb q)).2 = set_sequence q sb /\
  ((Superblock_DecodeFrom sb0 (superblock_fields sb q)).1 = OK <->
     magic_ sb = MAGIC /\ superblock_version_ sb = CURRENT_SUPERBLOCK_VERSION).
Proof.
  intros Hwf Hq. pose proof Hwf as (?&?&?&?&?&?&?&?&H1&H2&H3&H4).
  unfold Superblock_DecodeFrom. rewrite zlen_superblock_fields by done. simpl negb. cbv iota.
  unfold superblock_fields. rewrite get32_le_split by done. rewrite get_array_app by done.
  do 7 (rewrite get32_le_split by done). do 2 (rewrite get_array_app by done).
  rewrite <- (app_nil_r (reserved_ sb)), get_array_app by done.
  destruct (Z.eqb_spec (magic_ sb) MAGIC), (Z.eqb_spec (superblock_version_ sb) CURRENT_SUPERBLOCK_VERSION);
    simpl; (split; [rewrite ?app_nil_r; done|]);
    (split; [intros; try discriminate; tauto|intros [? ?]; congruence]).
Qed.

Lemma c_str_app l : Forall (fun b => b <> Byte.x00) l -> forall k, c_str (l ++ Byte.x00 :: k) = l.
Proof.
  induction 1 as [|b l Hb _ IH]; intros k; simpl; [done|].
  rewrite decide_False by done. by rewrite IH.
Qed.

Lemma c_str_nonzero l : Forall (fun b => b <> Byte.x00) l -> c_str l = l.
Proof. induction 1; simpl; [done|]. rewrite decide_False by done. by f_equal. Qed.

Lemma zeros_pos n : 0 < n -> zeros n = Byte.x00 :: zeros (n - 1).
Proof.
  intros H. unfold zeros. replace (Z.to_nat n) with (S (Z.to_nat (n - 1))) by lia. done.
Qed.

Lemma c_str_strncpy sz src :
  Forall (fun b => b <> Byte.x00) src -> zlen src < sz -> c_str (strncpy sz src) = src.
Proof.
  intros Hs Hl. unfold strncpy. rewrite (c_str_nonzero src), ztake_all by (done || lia).
  rewrite zeros_pos by lia. by apply c_str_app.
Qed.

Lemma zlen_strncpy sz src : 0 < sz -> zlen (strncpy sz src) = sz.
Proof. intros H. unfold strncpy. zlen_solve. Qed.

Lemma zlen_memcpy_uuid uuid : zlen (memcpy_uuid uuid) = uuid_sz.
Proof.
  pose proof (zlen_nonneg uuid). unfold memcpy_uuid, uuid_sz.
  rewrite zlen_app, zlen_zeros; rewrite zlen_ztake by lia; lia.
Qed.

(** ** Properties *)

(** Decoding what [EncodeTo] wrote, into any superblock, gives back every
    field, with the sequence number that encoding moved on by one; it is
    accepted exactly when the magic number and the version are ZenFS's. *)
Theorem superblock_roundtrip sb sb0 :
  superblock_wf sb ->
  let '(out, sb') := Superblock_EncodeTo sb in
  zlen out = ENCODED_SIZE /\ sb' = set_sequence (sequence_ sb +32 1) sb /\
  (Superblock_DecodeFrom sb0 out).2 = sb' /\
  ((Superblock_DecodeFrom sb0 out).1 = OK <->
     magic_ sb = MAGIC /\ superblock_version_ sb = CURRENT_SUPERBLOCK_VERSION).
Proof.
  intros Hwf. rewrite Superblock_EncodeTo_eq.
  split; [by apply zlen_superblock_fields|]. split; [done|].
  apply Superblock_DecodeFrom_fields; [done|apply u32_range].
Qed.

Definition sb0 : Superblock :=
  Superblock_new (be := be0) (replicate 40 Byte.x41) (replicate 4 Byte.x76) [Byte.x2f] 10 true.

Lemma superblock_roundtrip_witness :
  let '(out, sb') := Superblock_EncodeTo sb0 in
  zlen out = ENCODED_SIZE /\ sb' = set_sequence (sequence_ sb0 +32 1) sb0 /\
  (Superblock_DecodeFrom Superblock_default out).2 = sb' /\
  ((Superblock_DecodeFrom Superblock_default out).1 = OK <->
     magic_ sb0 = MAGIC /\ superblock_version_ sb0 = CURRENT_SUPERBLOCK_VERSION).
Proof.
  apply superblock_roundtrip. unfold superblock_wf, is_u. vm_compute. intuition congruence.
Defined.

(** C31: A superblock made for a device survives being written and read back: it
    is accepted, compatible with the same device, and gives back the auxiliary
    path, the finish threshold and whether garbage collection is enabled. *)
Theorem superblock_new_accepted `{spec : BackendSpec D L} uuid version path threshold gc sbd :
  Forall (fun b => b <> Byte.x00) path -> zlen path < aux_fs_path_sz -> is_u 32 threshold ->
  is_u 32 nr_zones_ -> zone_sz_ / block_sz_ < 2 ^ 32 ->
  let '(st, sb') := Superblock_DecodeFrom sbd
    (Superblock_EncodeTo (Superblock_new uuid version path threshold gc)).1 in
  st = OK /\ CompatibleWith sb' = OK /\ GetAuxFsPath sb' = path /\
  GetFinishTreshold sb' = threshold /\ IsGCEnabled sb' = gc /\ GetSeq sb' = 1.
Proof.
  intros Hp Hl Ht Hn Hz. set (sb := Superblock_new uuid version path threshold gc).
  pose proof block_sz_pos as Hb. pose proof block_sz_u32 as Hb'. pose proof zone_sz_pos as Hzs.
  assert (superblock_wf sb) as Hwf.
  { unfold superblock_wf, sb, Superblock_new. simpl.
    rewrite zlen_memcpy_uuid, !zlen_strncpy by done.
    pose proof (u32_range (zone_sz_ / block_sz_)).
    destruct gc; unfold is_u in *; simpl; repeat (split; [lia || done|]); done. }
  pose proof (Superblock_DecodeFrom_fields sbd sb (sequence_ sb +32 1) Hwf (u32_range _)) as [H2 H1].
  rewrite Superblock_EncodeTo_eq. cbn [fst].
  destruct (Superblock_DecodeFrom _ _) as [st sb']. cbn [fst snd] in *. subst sb'.
  split; [by apply H1|]. split.
  { unfold CompatibleWith, sb. simpl. rewrite Z.eqb_refl. simpl.
    assert (0 <= zone_sz_ / block_sz_) by (apply Z.div_pos; lia).
    rewrite u32_small, Z.eqb_refl by lia. simpl. by rewrite Z.ltb_irrefl. }
  split; [by apply c_str_strncpy|]. split; [done|]. split; [by destruct gc|done].
Qed.

Lemma superblock_new_accepted_witness :
  let '(st, sb') := Superblock_DecodeFrom Superblock_default
    (Superblock_EncodeTo (Superblock_new (be := be0) [] [] [Byte.x2f] 10 true)).1 in
  st = OK /\ CompatibleWith (be := be0) sb' = OK /\ GetAuxFsPath sb' = [Byte.x2f] /\
  GetFinishTreshold sb' = 10 /\ IsGCEnabled sb' = true /\ GetSeq sb' = 1.
Proof.
  apply (superblock_new_accepted (spec := spec0) [] [] [Byte.x2f] 10 true Superblock_default).
  - by apply Forall_singleton.
  - reflexivity.
  - split; lia.
  - split; simpl; lia.
  - vm_compute. reflexivity.
Defined.
