(* ===== verification/MetaLog.v ===== *)
(** * The metadata log

    [class ZenMetaLog] (fs_zenfs.h, fs_zenfs.cc): checksummed records in a
    metadata zone, each starting on a block boundary. *)

From S2P Require Import Prelude Status Coding Crc32c Device MemDevice Zone Zbd.

(** ** Definitions *)

Record ZenMetaLog := mkMetaLog { read_pos_ : Z; ml_zone_ : nat }.

Definition zMetaHeaderSize : Z := 8.

(** [crc32c::Extend]; what it computes does not depend on the address of the
    data, which is taken to be aligned. *)
Definition crc32c_Extend (crc : Z) (data : bytes) : Z := ExtendImpl 0 crc data.
Definition crc32c_Value (data : bytes) : Z := crc32c_Extend 0 data.

Section metalog.
Context {D L : Type} `{be : ZonedBlockDeviceBackend D L}.
Abbreviation MS := (Zbd D * ZenMetaLog)%type.

Definition on_zbd {A} (m : M (Zbd D) A) : M MS A :=
  zoom fst (fun z s => (z, s.2)) m.
Definition set_read_pos (p : Z) : M MS unit :=
  modify (fun s => (s.1, mkMetaLog p (ml_zone_ s.2))).

(** [ZenMetaLog(zbd, zone)] *)
Definition ZenMetaLog_new (zone : nat) : M (Zbd D) ZenMetaLog :=
  zn <- get_zone zone ;; ret (mkMetaLog (start_ zn) zone).

Definition round_up (n : Z) : Z :=
  if n mod block_sz_ =? 0 then n else n +64 (block_sz_ - n mod block_sz_).

(** The checksum of a record of size [record_sz]. *)
Definition record_crc (record_sz : Z) (data : bytes) : Z :=
  crc32c_Extend (crc32c_Extend 0 (EncodeFixed32 kLittleEndian record_sz)) data.

(** The buffer [AddRecord] fills.  Memory allocation is taken to succeed. *)
Definition record_buffer (slice : bytes) : bytes :=
  let record_sz := u32 (zlen slice) in
  let data := ztake record_sz slice in
  let phys_sz := round_up (record_sz +64 zMetaHeaderSize) in
  let crc := Mask (record_crc record_sz data) in
  EncodeFixed32 kLittleEndian crc ++ EncodeFixed32 kLittleEndian record_sz ++ data ++
  zeros (phys_sz - zMetaHeaderSize - record_sz).

Definition AddRecord (zone : nat) (slice : bytes) : M (Zbd D) unit :=
  let buffer := record_buffer slice in
  Append zone (ztake (u32 (zlen buffer)) buffer).

(** [while (read < to_read)]; a read that [EINTR] interrupts is retried by
    [ZonedBlockDevice::Read] itself. *)
Fixpoint MetaLog_Read_loop (n : nat) (to_read : Z) (acc : bytes) : M MS bytes :=
  if zlen acc <? to_read then
    match n with
    | O => stuckM OutOfFuel
    | S n' =>
        s <- get ;;
        let* (r, data) := on_zbd (Zbd_Read (read_pos_ s.2) (to_read - zlen acc) false) in
        if r <? 0 then fail (IOError "Read failed") else
        set_read_pos (read_pos_ s.2 +64 r) ;;
        MetaLog_Read_loop n' to_read (acc ++ ztake r data)
    end
  else ret acc.

(** [Read] into a slice of [to_read] bytes; an empty result is the end. *)
Definition MetaLog_Read (to_read : Z) : M MS bytes :=
  s <- get ;;
  zn <- on_zbd (get_zone (ml_zone_ s.2)) ;;
  if wp_ zn <=? read_pos_ s.2 then ret [] else
  if start_ zn +64 max_capacity_ zn <? read_pos_ s.2 +64 to_read
  then fail (IOError "Read across zone")
  else MetaLog_Read_loop loop_bound to_read [].

(** An empty record is the end of the log. *)
Definition ReadRecord : M MS bytes :=
  header <- MetaLog_Read zMetaHeaderSize ;;
  if zlen header =? 0 then ret [] else
  let* (record_crc_, header) := deref (GetFixed32 header) in
  let* (record_sz, _) := deref (GetFixed32 header) in
  record <- MetaLog_Read record_sz ;;
  if negb (record_crc record_sz record =? Unmask record_crc_)
  then fail (IOError "Not a valid record") else
  s <- get ;;
  let read_pos := read_pos_ s.2 in
  (if negb (read_pos mod block_sz_ =? 0)
   then set_read_pos (read_pos +64 (block_sz_ - read_pos mod block_sz_)) else ret tt) ;;
  ret record.
End metalog.

Lemma crc32c_Value_app a b : crc32c_Value (a ++ b) = crc32c_Extend (crc32c_Value a) b.
Proof. unfold crc32c_Value, crc32c_Extend. symmetry. by apply crc32c_extend_app. Qed.

(** ** Encoding of records *)

Section encoding.
Context {D L : Type} `{spec : BackendSpec D L}.

Lemma round_up_spec n :
  0 <= n -> n + block_sz_ < 2 ^ 64 ->
  n <= round_up n < n + block_sz_ /\ round_up n mod block_sz_ = 0.
Proof.
  intros Hn Hb. pose proof block_sz_pos as Hp. unfold round_up.
  pose proof (Z.mod_pos_bound n block_sz_ Hp).
  destruct (Z.eqb_spec (n mod block_sz_) 0); [lia|]. rewrite u64_small by lia.
  split; [lia|]. pose proof (Z.div_mod n block_sz_) as Hdm. specialize (Hdm ltac:(lia)).
  replace (n + (block_sz_ - n mod block_sz_)) with ((n / block_sz_ + 1) * block_sz_) by lia.
  apply Z.mod_mul. lia.
Qed.

Lemma record_crc_range sz data : 0 <= record_crc sz data < 2 ^ 32.
Proof. apply ExtendImpl_range. Qed.

(** The bytes of a record whose payload is [data]. *)
Definition meta_record (data : bytes) : bytes :=
  le_split 4 (Mask (record_crc (zlen data) data)) ++ le_split 4 (zlen data) ++ data ++
  zeros (round_up (zlen data + zMetaHeaderSize) - zMetaHeaderSize - zlen data).

(** A record that fits an [int]-sized transfer. *)
Definition record_ok (data : bytes) : Prop := zlen data + zMetaHeaderSize + block_sz_ < 2 ^ 31.

Lemma record_ok_round data :
  record_ok data ->
  zlen data + zMetaHeaderSize <= round_up (zlen data + zMetaHeaderSize)
    < zlen data + zMetaHeaderSize + block_sz_ /\
  round_up (zlen data + zMetaHeaderSize) mod block_sz_ = 0.
Proof.
  unfold record_ok, zMetaHeaderSize. intros H. pose proof (zlen_nonneg data).
  apply round_up_spec; lia.
Qed.

Lemma zlen_meta_record data :
  record_ok data -> zlen (meta_record data) = round_up (zlen data + zMetaHeaderSize).
Proof.
  intros H. pose proof (record_ok_round data H). pose proof (zlen_nonneg data).
  unfold meta_record, zMetaHeaderSize in *. autorewrite with zlen. lia.
Qed.

Lemma record_buffer_eq data : record_ok data -> record_buffer data = meta_record data.
Proof.
  intros H. unfold record_ok, zMetaHeaderSize in H. pose proof (zlen_nonneg data).
  pose proof block_sz_pos. unfold record_buffer, zMetaHeaderSize.
  rewrite (u32_small (zlen data)) by lia. rewrite (u64_small (zlen data + 8)) by lia.
  rewrite ztake_all by lia. done.
Qed.

Lemma AddRecord_eq zone data :
  record_ok data -> AddRecord zone data = Append zone (meta_record data).
Proof.
  intros H. pose proof (zlen_meta_record data H) as Hl. pose proof (record_ok_round data H).
  unfold record_ok, zMetaHeaderSize in *. pose proof (zlen_nonneg data).
  unfold AddRecord. rewrite record_buffer_eq by done.
  by rewrite u32_small, ztake_all by lia.
Qed.
End encoding.

(** ** Reading records *)

Section reading.
Context {D L : Type} `{spec : BackendSpec D L} {rel : ReliableReads D L}.
Implicit Types s : Zbd D.

Lemma on_zbd_ok {A} (m : M (Zbd D) A) s s' log a : m s = Ok a s' -> on_zbd m (s, log) = Ok a (s', log).
Proof. intros H. unfold on_zbd, zoom. simpl. by rewrite H. Qed.

Lemma after_read_heap s s' : after_read s s' -> zone_heap s' = zone_heap s.
Proof. by intros (d' & -> & _). Qed.

(** The zone of the log lies on the device and holds the [n] bytes to read. *)
Definition readable s (zn : Zone) (pos n : Z) : Prop :=
  0 <= pos /\ 0 <= n /\ pos < wp_ zn /\ pos + n <= start_ zn + max_capacity_ zn /\
  start_ zn + max_capacity_ zn <= nr_zones_ * zone_sz_ /\ (Z.to_nat n < loop_bound)%nat.

Lemma MetaLog_Read_ok n s log zn :
  zone_heap s !! ml_zone_ log = Some zn -> readable s zn (read_pos_ log) n ->
  exists s', MetaLog_Read n (s, log)
    = Ok (range (disk (zbd_be_ s)) (read_pos_ log) n) (s', mkMetaLog (read_pos_ log + n) (ml_zone_ log)) /\
    after_read s s'.
Proof.
  intros Hz (Hp & Hn & Hw & Hc & Hd & Hf). pose proof device_size_u64.
  unfold MetaLog_Read. unfold bind at 1, get.
  erewrite bind_ok by by apply on_zbd_ok, get_zone_ok. cbn [snd].
  destruct (Z.leb_spec (wp_ zn) (read_pos_ log)); [lia|].
  rewrite (u64_small (start_ zn + max_capacity_ zn)), (u64_small (read_pos_ log + n)) by lia.
  destruct (Z.ltb_spec (start_ zn + max_capacity_ zn) (read_pos_ log + n)); [lia|].
  destruct loop_bound as [|b] eqn:Hb; [lia|]. cbn [MetaLog_Read_loop]. rewrite zlen_nil.
  destruct (Z.ltb_spec 0 n) as [Hpos|Hzero].
  2: { assert (n = 0) as -> by lia. exists s. rewrite Z.add_0_r. split; [by destruct log|].
       apply after_read_refl. }
  unfold bind at 1, get. cbn [snd]. rewrite Z.sub_0_r.
  destruct (Zbd_Read_ok (read_pos_ log) n false s) as (s' & Hrun & Har); [lia..|].
  erewrite bind_ok by by apply on_zbd_ok. cbv beta iota. destruct (Z.ltb_spec n 0); [lia|].
  unfold bind at 1, set_read_pos, modify. simpl. rewrite u64_small by lia.
  exists s'. split; [|done].
  rewrite ztake_all by (rewrite zlen_range; lia). change ([] ++ ?l) with l.
  assert (forall m acc (st : Zbd D * ZenMetaLog), zlen acc = n ->
    MetaLog_Read_loop m n acc st = Ok acc st) as Hend.
  { intros m acc st Hl. destruct m; simpl; destruct (Z.ltb_spec (zlen acc) n); done || lia. }
  apply Hend. by rewrite zlen_range by lia.
Qed.

Lemma Mask_range crc : 0 <= Mask crc < 2 ^ 32.
Proof. apply u32_range. Qed.

(** Reads a record whose header announces [sz] bytes with checksum [crc];
    [next] is where the next one starts. *)
Definition aligned_up (pos : Z) : Z := if pos mod block_sz_ =? 0 then pos else pos +64 (block_sz_ - pos mod block_sz_).

Lemma ReadRecord_run s log zn masked data :
  zone_heap s !! ml_zone_ log = Some zn ->
  readable s zn (read_pos_ log) zMetaHeaderSize ->
  readable s zn (read_pos_ log + zMetaHeaderSize) (zlen data) ->
  is_u 32 masked -> is_u 32 (zlen data) ->
  range (disk (zbd_be_ s)) (read_pos_ log) (zMetaHeaderSize + zlen data)
    = le_split 4 masked ++ le_split 4 (zlen data) ++ data ->
  exists s', after_read s s' /\
    let pos := read_pos_ log + zMetaHeaderSize + zlen data in
    ReadRecord (s, log) =
      if record_crc (zlen data) data =? Unmask masked
      then Ok data (s', mkMetaLog (aligned_up pos) (ml_zone_ log))
      else Err (IOError "Not a valid record") (s', mkMetaLog pos (ml_zone_ log)).
Proof.
  intros Hz Hr1 Hr2 Hm Hsz Hdisk.
  rewrite range_app in Hdisk by (unfold zMetaHeaderSize; zlen_solve).
  rewrite (app_assoc (le_split 4 masked)) in Hdisk.
  apply app_inj_1 in Hdisk as [Hhead Hdata].
  2: { apply Nat2Z.inj. change (zlen (range (disk (zbd_be_ s)) (read_pos_ log) zMetaHeaderSize)
         = zlen (le_split 4 masked ++ le_split 4 (zlen data))).
       rewrite zlen_range by done. autorewrite with zlen. done. }
  destruct (MetaLog_Read_ok _ _ _ _ Hz Hr1) as (s1 & Hrun1 & Har1).
  unfold ReadRecord. rewrite Hhead in Hrun1. erewrite bind_ok by done.
  assert ((zlen (le_split 4 masked ++ le_split 4 (zlen data)) =? 0) = false) as ->
    by (autorewrite with zlen; done).
  rewrite GetFixed32_le_split. cbn [deref]. erewrite bind_ok by done. cbv iota beta.
  rewrite <- (app_nil_r (le_split 4 (zlen data))), GetFixed32_le_split. cbn [deref].
  erewrite bind_ok by done. cbv iota beta. rewrite !u32_small by done.
  destruct (MetaLog_Read_ok (zlen data) s1
    (mkMetaLog (read_pos_ log + zMetaHeaderSize) (ml_zone_ log)) zn) as (s2 & Hrun2 & Har2).
  { simpl. by rewrite (after_read_heap _ _ Har1). }
  { exact Hr2. }
  cbn [read_pos_ ml_zone_] in Hrun2. rewrite (after_read_range _ _ _ _ Har1), Hdata in Hrun2.
  erewrite bind_ok by done. exists s2. split; [by eapply after_read_trans|]. cbv zeta.
  destruct (_ =? Unmask masked); cbn [negb]; [|done].
  unfold bind, get, aligned_up. cbn [snd read_pos_]. by destruct (_ mod block_sz_ =? 0).
Qed.
End reading.

(** ** Writing and reading back *)

Section roundtrip.
Context {D L : Type} `{spec : BackendSpec D L} {rel : ReliableReads D L}.
Implicit Types s : Zbd D.

Definition log_bytes (recs : list bytes) : bytes := concat (meta_record <$> recs).

Lemma log_bytes_cons data recs : log_bytes (data :: recs) = meta_record data ++ log_bytes recs.
Proof. done. Qed.

Definition record_fits (data : bytes) : Prop :=
  0 < zlen data /\ record_ok data /\ (length data < loop_bound)%nat /\ (8 < loop_bound)%nat /\
  (length (meta_record data) <= loop_bound)%nat.

(** A metadata zone ready for the next record. *)
Definition log_zone_ok (zn : Zone) : Prop :=
  zone_wf zn /\ wp_ zn mod block_sz_ = 0 /\ start_ zn + max_capacity_ zn <= nr_zones_ * zone_sz_.

Lemma meta_record_aligned data : record_ok data -> zlen (meta_record data) mod block_sz_ = 0.
Proof. intros H. rewrite zlen_meta_record by done. by apply record_ok_round. Qed.

Lemma log_zone_ok_advance n zn :
  log_zone_ok zn -> 0 <= n <= capacity_ zn -> n mod block_sz_ = 0 ->
  log_zone_ok (advance n zn) /\ wp_ (advance n zn) = wp_ zn + n.
Proof.
  intros (Hwf & Hal & Hd) Hn Hm. pose proof block_sz_pos.
  assert (wp_ (advance n zn) = wp_ zn + n) as Hw.
  { destruct Hwf as (?&?&?&?&?&?&?). simpl. apply u64_small. lia. }
  split; [|done]. split; [by apply zone_wf_advance|]. split; [|done].
  rewrite Hw, Z.add_mod, Hal, Hm by lia. by rewrite Z.mod_0_l by lia.
Qed.

Lemma AddRecord_inv zone zn data s s' :
  zone_heap s !! zone = Some zn -> log_zone_ok zn -> is_u 64 (bytes_written_ s) ->
  record_fits data -> AddRecord zone data s = Ok tt s' ->
  exists d', s' = after_write zone zn (zlen (meta_record data)) d' s /\
    zlen (meta_record data) <= capacity_ zn /\
    forall a, disk d' a = store (disk (zbd_be_ s)) (wp_ zn) (meta_record data) a.
Proof.
  intros Hz (Hwf & _ & Hd) Hb (_ & Hok & _ & _ & Hf). rewrite AddRecord_eq by done.
  unfold Append. mstep.
  destruct (Z.ltb_spec (capacity_ zn) (zlen (meta_record data))) as [|Hc]; [done|].
  intros Hrun. pose proof (zone_wf_u64 _ Hwf) as Hu.
  assert (wp_ zn + zlen (meta_record data) < 2 ^ 64) as Hw
    by (destruct Hwf as (?&?&?&?&?&?&?); lia).
  destruct (Append_loop_ok loop_bound zone zn _ s Hf Hz Hu Hb Hw)
    as [(d' & Hr & Hdisk)|(m & err & d' & _ & Hr & _)]; rewrite Hr in Hrun; [|done].
  simplify_eq. by exists d'.
Qed.

Lemma AddRecords_inv zone zn recs s s' :
  zone_heap s !! zone = Some zn -> log_zone_ok zn -> is_u 64 (bytes_written_ s) ->
  Forall record_fits recs -> forM recs (AddRecord zone) s = Ok tt s' ->
  let n := zlen (log_bytes recs) in
  log_zone_ok (advance n zn) /\ wp_ (advance n zn) = wp_ zn + n /\ n <= capacity_ zn /\
  zone_heap s' !! zone = Some (advance n zn) /\
  forall a, disk (zbd_be_ s') a = store (disk (zbd_be_ s)) (wp_ zn) (log_bytes recs) a.
Proof.
  revert zn s. induction recs as [|data recs IH]; intros zn s Hz Hok Hb Hf Hrun; simpl in Hrun.
  { unfold ret in Hrun. simplify_eq. cbv zeta. change (log_bytes []) with (@nil byte).
    rewrite zlen_nil. destruct Hok as (Hwf & Hal & Hd).
    destruct (log_zone_ok_advance 0 zn) as [H1 H2]; [done|destruct Hwf as (?&?&?&?&?&?&?); lia|by apply Z.mod_0_l; pose proof block_sz_pos; lia|].
    destruct (id Hwf) as (?&?&?&?&?&?&?).
    split; [done|]. split; [done|]. split; [lia|]. split; [|intros; by rewrite store_nil].
    rewrite Hz. f_equal. unfold advance. rewrite Z.add_0_r, Z.sub_0_r.
    rewrite !u64_small by lia. by destruct zn. }
  apply Forall_cons in Hf as [Hfd Hf]. apply bind_inv_ok in Hrun as ([] & s1 & Hrun1 & Hrun).
  destruct (AddRecord_inv _ _ _ _ _ Hz Hok Hb Hfd Hrun1) as (d1 & -> & Hle & Hd1).
  pose proof (zlen_nonneg (meta_record data)).
  destruct (log_zone_ok_advance (zlen (meta_record data)) zn) as [Hok1 Hw1];
    [done|lia|apply meta_record_aligned, Hfd|].
  set (zn1 := advance (zlen (meta_record data)) zn) in *.
  destruct (IH zn1 (after_write zone zn (zlen (meta_record data)) d1 s))
    as (H1 & H2 & H3 & H4 & H5); [|done|apply u64_range|done|done|].
  { simpl. by rewrite lookup_insert_eq. }
  assert (zlen (log_bytes (data :: recs)) = zlen (meta_record data) + zlen (log_bytes recs)) as Hlen.
  { rewrite log_bytes_cons. apply zlen_app. }
  assert (advance (zlen (log_bytes recs)) zn1 = advance (zlen (log_bytes (data :: recs))) zn) as Hadv.
  { unfold zn1. by rewrite advance_advance, Hlen. }
  cbv zeta. rewrite <- Hadv. split; [done|]. split; [rewrite H2, Hw1; lia|].
  assert (capacity_ zn1 = capacity_ zn - zlen (meta_record data)) as Hcap.
  { unfold zn1. destruct Hok as [(?&?&?&?&?&?&?) _]. simpl. apply u64_small. lia. }
  split; [lia|]. split; [done|]. intros a. rewrite H5, Hw1.
  change (zbd_be_ (after_write _ _ _ d1 _)) with d1. rewrite (store_ext _ _ _ _ _ Hd1). by rewrite <- store_app, <- log_bytes_cons.
Qed.

Fixpoint ReadRecords (n : nat) : M (Zbd D * ZenMetaLog) (list bytes) :=
  match n with
  | O => ret []
  | S n' => r <- ReadRecord ;; rs <- ReadRecords n' ;; ret (r :: rs)
  end.

Lemma aligned_up_pos pos sz :
  0 <= pos -> 0 <= sz -> pos mod block_sz_ = 0 -> sz + block_sz_ < 2 ^ 64 ->
  pos + round_up sz < 2 ^ 64 -> aligned_up (pos + sz) = pos + round_up sz.
Proof.
  intros Hp Hs Hm Hb. pose proof block_sz_pos as Hbs. unfold aligned_up, round_up.
  assert ((pos + sz) mod block_sz_ = sz mod block_sz_) as ->.
  { rewrite Z.add_mod, Hm, Z.add_0_l, Z.mod_mod by lia. done. }
  pose proof (Z.mod_pos_bound sz block_sz_ Hbs).
  destruct (_ =? 0); [done|]. rewrite (u64_small (sz + _)) by lia. intros Hr.
  rewrite u64_small by lia. lia.
Qed.

(** One record at the read position of the log. *)
Lemma ReadRecord_ok s zone zn pos data :
  zone_heap s !! zone = Some zn -> start_ zn + max_capacity_ zn <= nr_zones_ * zone_sz_ ->
  0 <= pos -> pos mod block_sz_ = 0 -> record_fits data ->
  pos + zlen (meta_record data) <= wp_ zn -> wp_ zn <= start_ zn + max_capacity_ zn ->
  range (disk (zbd_be_ s)) pos (zlen (meta_record data)) = meta_record data ->
  exists s', after_read s s' /\
    ReadRecord (s, mkMetaLog pos zone)
    = Ok data (s', mkMetaLog (pos + zlen (meta_record data)) zone).
Proof.
  intros Hz Hd Hp Hal (Hne & Hok & Hf1 & Hf2 & _) Hw Hwc Hdisk. pose proof device_size_u64.
  pose proof (record_ok_round data Hok) as [Hround _].
  pose proof (zlen_meta_record data Hok) as Hlen. pose proof block_sz_pos.
  pose proof (zlen_nonneg data). unfold record_ok, zMetaHeaderSize in *.
  assert (range (disk (zbd_be_ s)) pos (8 + zlen data)
    = le_split 4 (Mask (record_crc (zlen data) data)) ++ le_split 4 (zlen data) ++ data) as Hpre.
  { replace (zlen (meta_record data))
      with ((8 + zlen data) + (zlen (meta_record data) - (8 + zlen data))) in Hdisk by lia.
    rewrite range_app in Hdisk by lia. set (n := zlen (meta_record data) - _) in Hdisk.
    unfold meta_record in Hdisk. rewrite !app_assoc in Hdisk.
    apply app_inj_1 in Hdisk as [Hdisk _].
    - by rewrite Hdisk, <- !app_assoc.
    - apply Nat2Z.inj. change (zlen (range (disk (zbd_be_ s)) pos (8 + zlen data)) =
        zlen ((le_split 4 (Mask (record_crc (zlen data) data)) ++ le_split 4 (zlen data)) ++ data)).
      rewrite zlen_range by lia. autorewrite with zlen. lia. }
  destruct (ReadRecord_run s (mkMetaLog pos zone) zn (Mask (record_crc (zlen data) data)) data)
    as (s' & Har & Hrun); try done; unfold readable, zMetaHeaderSize; simpl.
  - split_and!; lia.
  - split_and!; try lia. unfold zlen. lia.
  - apply Mask_range.
  - split; lia.
  - exists s'. split; [done|]. rewrite Hrun, Unmask_Mask by apply record_crc_range.
    rewrite Z.eqb_refl. cbn [read_pos_ ml_zone_]. do 3 f_equal.
    rewrite Hlen, <- Z.add_assoc, (Z.add_comm 8). apply aligned_up_pos; lia.
Qed.

Lemma ReadRecords_ok recs s zone zn pos :
  zone_heap s !! zone = Some zn -> start_ zn + max_capacity_ zn <= nr_zones_ * zone_sz_ ->
  0 <= pos -> pos mod block_sz_ = 0 -> Forall record_fits recs ->
  pos + zlen (log_bytes recs) <= wp_ zn -> wp_ zn <= start_ zn + max_capacity_ zn ->
  range (disk (zbd_be_ s)) pos (zlen (log_bytes recs)) = log_bytes recs ->
  exists s', after_read s s' /\
    ReadRecords (length recs) (s, mkMetaLog pos zone)
    = Ok recs (s', mkMetaLog (pos + zlen (log_bytes recs)) zone).
Proof.
  revert s pos. induction recs as [|data recs IH]; intros s pos Hz Hd Hp Hal Hf Hw Hwc Hdisk.
  { exists s. split; [apply after_read_refl|]. simpl. by rewrite Z.add_0_r. }
  apply Forall_cons in Hf as [Hfd Hf]. rewrite log_bytes_cons, zlen_app in *.
  pose proof (zlen_nonneg (meta_record data)). pose proof (zlen_nonneg (log_bytes recs)).
  rewrite range_app in Hdisk by done. apply app_inj_1 in Hdisk as [Hd1 Hd2].
  2: { apply Nat2Z.inj. by apply zlen_range. }
  destruct (ReadRecord_ok s zone zn pos data) as (s1 & Har1 & Hrun1); try done; [lia|].
  destruct (IH s1 (pos + zlen (meta_record data))) as (s2 & Har2 & Hrun2); try done; try lia.
  - by rewrite (after_read_heap _ _ Har1).
  - destruct Hfd as (_ & Hok & _). pose proof (meta_record_aligned data Hok) as Hm.
    pose proof block_sz_pos. rewrite Z.add_mod, Hal, Hm by lia. by rewrite Z.mod_0_l by lia.
  - by rewrite (after_read_range _ _ _ _ Har1).
  - exists s2. split; [by eapply after_read_trans|]. cbn [length ReadRecords].
    erewrite bind_ok by done. erewrite bind_ok by done. unfold ret. do 3 f_equal. lia.
Qed.
End roundtrip.

(** ** Properties *)

(** C20: Records appended to a metadata zone are read back from where the first
    one was written: the same records in the same order, and then the end of the
    log. *)
Theorem metalog_roundtrip `{spec : BackendSpec D L} {rel : ReliableReads D L}
  (s s1 : Zbd D) zone zn recs :
  zone_heap s !! zone = Some zn -> log_zone_ok zn -> capacity_ zn = max_capacity_ zn - (wp_ zn - start_ zn) ->
  is_u 64 (bytes_written_ s) -> Forall record_fits recs ->
  forM recs (AddRecord zone) s = Ok tt s1 ->
  exists s2 log, ReadRecords (length recs) (s1, mkMetaLog (wp_ zn) zone) = Ok recs (s2, log) /\
    ReadRecord (s2, log) = Ok [] (s2, log).
Proof.
  intros Hz Hok Hcap Hb Hf Hrun. pose proof Hok as ((?&?&?&?&?&?&?) & Hal & Hd).
  destruct (AddRecords_inv _ _ _ _ _ Hz Hok Hb Hf Hrun) as (H1' & Hw & Hle & Hz1 & Hdisk).
  set (n := zlen (log_bytes recs)) in *. set (zn1 := advance n zn) in *.
  destruct (ReadRecords_ok recs s1 zone zn1 (wp_ zn)) as (s2 & Har & Hread); try done.
  - lia.
  - fold n. rewrite Hw. lia.
  - rewrite Hw. change (start_ zn1) with (start_ zn). change (max_capacity_ zn1) with (max_capacity_ zn). lia.
  - rewrite (range_ext _ _ _ _ (fun a _ => Hdisk a)). apply range_store_same.
  - fold n in Hread. exists s2, (mkMetaLog (wp_ zn + n) zone). split; [done|].
    unfold ReadRecord, MetaLog_Read. unfold bind at 1, bind at 1, get.
    erewrite bind_ok by (apply on_zbd_ok, get_zone_ok; cbn [ml_zone_ snd fst];
      by rewrite (after_read_heap _ _ Har)).
    cbn [snd read_pos_]. rewrite Hw, Z.leb_refl. done.
Qed.

(** Two metadata records on the small device. *)
Definition recs0 : list bytes := [[Byte.x01; Byte.x02; Byte.x03]; replicate 9 Byte.x07].

Definition zbd_recs : Zbd MemDev :=
  match forM recs0 (AddRecord (be := be0) 0%nat) zbd0 with
  | Ok _ s | Err _ s => s
  | Stuck _ => zbd0
  end.

Lemma record_fits_intro (data : bytes) :
  (0 <? zlen data) && (zlen data + zMetaHeaderSize + geom_bs g0 <? 2 ^ 31) &&
  (length data <? geom_bound g0)%nat && (8 <? geom_bound g0)%nat &&
  (length (meta_record (be := be0) data) <=? geom_bound g0)%nat = true ->
  record_fits (be := be0) data.
Proof.
  rewrite !andb_true_iff, !Nat.ltb_lt, Nat.leb_le, !Z.ltb_lt.
  intros ((((H1 & H2) & H3) & H4) & H5). unfold record_fits, record_ok. simpl. by split_and!.
Qed.

Lemma metalog_roundtrip_witness :
  exists s2 log, ReadRecords (be := be0) 2 (zbd_recs, mkMetaLog 0 0%nat) = Ok recs0 (s2, log) /\
    ReadRecord (be := be0) (s2, log) = Ok [] (s2, log).
Proof.
  apply (metalog_roundtrip (spec := spec0) (rel := rel0) zbd0 zbd_recs 0%nat (zone0 0) recs0).
  - reflexivity.
  - split; [|split; [reflexivity|vm_compute; discriminate]].
    zone_wf_done.
  - reflexivity.
  - split; simpl; lia.
  - repeat (apply Forall_cons; split; [apply record_fits_intro; vm_compute; reflexivity|]).
    by apply Forall_nil.
  - vm_compute. reflexivity.
Defined.

(** C30: A record whose payload was damaged within four consecutive bytes is
    never returned: reading it reports an invalid record. *)
Theorem metalog_detects_damage `{spec : BackendSpec D L} {rel : ReliableReads D L}
  (s : Zbd D) zone zn pos a p q c :
  let data := a ++ p ++ c in
  let damaged := a ++ q ++ c in
  zone_heap s !! zone = Some zn ->
  readable s zn pos zMetaHeaderSize -> readable s zn (pos + zMetaHeaderSize) (zlen data) ->
  zlen data < 2 ^ 32 -> (length p <= 4)%nat -> length p = length q -> p <> q ->
  range (disk (zbd_be_ s)) pos (zMetaHeaderSize + zlen data)
    = le_split 4 (Mask (record_crc (zlen data) data)) ++ le_split 4 (zlen data) ++ damaged ->
  exists s' log', ReadRecord (s, mkMetaLog pos zone) = Err (IOError "Not a valid record") (s', log').
Proof.
  intros data damaged Hz Hr1 Hr2 Hsz Hp Hpq Hne Hdisk.
  assert (zlen damaged = zlen data) as Hlen.
  { unfold damaged, data, zlen. rewrite !length_app. lia. }
  rewrite <- Hlen in Hr2, Hdisk. pose proof (zlen_nonneg damaged).
  destruct (ReadRecord_run s (mkMetaLog pos zone) zn (Mask (record_crc (zlen damaged) data)) damaged)
    as (s' & _ & ->); [done..|apply Mask_range|split; lia|done|].
  rewrite Unmask_Mask by apply record_crc_range.
  assert ((record_crc (zlen damaged) damaged =? record_crc (zlen damaged) data) = false) as ->;
    [|by eexists s', _].
  apply Z.eqb_neq. unfold record_crc, crc32c_Extend.
  apply ExtendImpl_burst; [lia|apply ExtendImpl_range|by rewrite <- Hpq|done|by intros ->].
Qed.

(** The first record of [recs0] with its second byte overwritten. *)
Definition zbd_damaged : Zbd MemDev :=
  set_be (mkMemDev ((9, [Byte.x63]) :: md_stores (zbd_be_ zbd_recs)) (md_wp (zbd_be_ zbd_recs))) zbd_recs.

Lemma metalog_detects_damage_witness :
  exists s' log', ReadRecord (be := be0) (zbd_damaged, mkMetaLog 0 0%nat)
    = Err (IOError "Not a valid record") (s', log').
Proof.
  apply (metalog_detects_damage (spec := spec0) (rel := rel0) zbd_damaged 0%nat
    (advance 40 (zone0 0)) 0 [Byte.x01] [Byte.x02] [Byte.x63] [Byte.x03]).
  - vm_compute. reflexivity.
  - unfold readable. vm_compute. intuition (discriminate || lia).
  - unfold readable. vm_compute. intuition (discriminate || lia).
  - reflexivity.
  - simpl. lia.
  - reflexivity.
  - discriminate.
  - vm_compute. reflexivity.
Defined.
