(* ===== verification/ZoneFile.v ===== *)
(** * Files

    [class ZoneFile] (io_zenfs.h, io_zenfs.cc): the data of a file, its encoding
    in the metadata log and the operations on its extents, its links and the
    log of a write-ahead log file.  Reading and writing the data is in
    FileRead.v and FileWrite.v. *)

From S2P Require Import Prelude Status Coding Device MemDevice Zone Zbd.

(** ** Data *)

Definition KiB : Z := 1024.

(** The two sizes build.sh sets, with the [static_assert] of io_zenfs.h. *)
Class BuildConfig := {
  SPARSE_BUFFER_SIZE_IN_KB : Z;
  WAL_BARRIER_SIZE_IN_KB : Z;
  config_assert : WAL_BARRIER_SIZE_IN_KB mod SPARSE_BUFFER_SIZE_IN_KB = 0 /\
    0 < SPARSE_BUFFER_SIZE_IN_KB /\ 0 < WAL_BARRIER_SIZE_IN_KB
}.

(** [WAL_BARRIER_SIZE_IN_KB * KiB] *)
Definition WAL_BARRIER `{BuildConfig} : Z := WAL_BARRIER_SIZE_IN_KB *64 KiB.

Definition NO_EXTENT : Z := 0xffffffffffffffff.
Definition SPARSE_HEADER_SIZE : Z := 8.
Definition SPARSE_WAL_HEADER_SIZE : Z := 8.

Record loaded_wal_chunk := mkChunk {
  lwc_start_ : Z; lwc_end_ : Z; lwc_jump_ : Z; wal_entries_ : list (Z * bytes)
}.

Record ZoneExtent := mkExtent { e_start_ : Z; e_length_ : Z; e_zone_ : nat }.

#[export] Instance ZoneExtent_eq_dec : EqDecision ZoneExtent.
Proof. solve_decision. Defined.

Record ZoneFile (L : Type) := mkZoneFile {
  extents_ : list ZoneExtent;
  linkfiles_ : list bytes;
  active_zone_ : option nat;
  extent_start_ : Z;
  extent_filepos_ : Z;
  zf_lifetime_ : Z;
  io_type_ : IOType;
  is_wal_ : bool;
  wal_seq_ : Z;
  wal_ : option L;
  loaded_wal_chunks_ : loaded_wal_chunk;
  chunk_id_ : Z;
  append_bytes_since_last_barrier_ : Z;
  wal_syncs_ : Z;
  wal_writes_ : Z;
  file_size_ : Z;
  file_id_ : Z;
  nr_synced_extents_ : Z;
  open_for_wr_ : bool;
  m_time_ : Z;
  is_sparse_ : bool;
  is_deleted_ : bool;
  reader_offset_ : Z;
  reader_offset_index_ : Z;
  last_read : Z
}.
Arguments mkZoneFile {L}.
Arguments extents_ {L}. Arguments linkfiles_ {L}. Arguments active_zone_ {L}.
Arguments extent_start_ {L}. Arguments extent_filepos_ {L}. Arguments zf_lifetime_ {L}.
Arguments io_type_ {L}. Arguments is_wal_ {L}. Arguments wal_seq_ {L}.
Arguments wal_ {L}. Arguments loaded_wal_chunks_ {L}. Arguments chunk_id_ {L}.
Arguments append_bytes_since_last_barrier_ {L}. Arguments wal_syncs_ {L}. Arguments wal_writes_ {L}.
Arguments file_size_ {L}. Arguments file_id_ {L}. Arguments nr_synced_extents_ {L}.
Arguments open_for_wr_ {L}. Arguments m_time_ {L}. Arguments is_sparse_ {L}.
Arguments is_deleted_ {L}. Arguments reader_offset_ {L}. Arguments reader_offset_index_ {L}.
Arguments last_read {L}.

Section file_setters.
Context {L : Type}.
Implicit Types f : ZoneFile L.

Definition set_extents x f := mkZoneFile x (linkfiles_ f) (active_zone_ f) (extent_start_ f)
  (extent_filepos_ f) (zf_lifetime_ f) (io_type_ f) (is_wal_ f) (wal_seq_ f) (wal_ f)
  (loaded_wal_chunks_ f) (chunk_id_ f) (append_bytes_since_last_barrier_ f) (wal_syncs_ f)
  (wal_writes_ f) (file_size_ f) (file_id_ f) (nr_synced_extents_ f) (open_for_wr_ f) (m_time_ f)
  (is_sparse_ f) (is_deleted_ f) (reader_offset_ f) (reader_offset_index_ f) (last_read f).
Definition set_linkfiles x f := mkZoneFile (extents_ f) x (active_zone_ f) (extent_start_ f)
  (extent_filepos_ f) (zf_lifetime_ f) (io_type_ f) (is_wal_ f) (wal_seq_ f) (wal_ f)
  (loaded_wal_chunks_ f) (chunk_id_ f) (append_bytes_since_last_barrier_ f) (wal_syncs_ f)
  (wal_writes_ f) (file_size_ f) (file_id_ f) (nr_synced_extents_ f) (open_for_wr_ f) (m_time_ f)
  (is_sparse_ f) (is_deleted_ f) (reader_offset_ f) (reader_offset_index_ f) (last_read f).
Definition set_active_zone x f := mkZoneFile (extents_ f) (linkfiles_ f) x (extent_start_ f)
  (extent_filepos_ f) (zf_lifetime_ f) (io_type_ f) (is_wal_ f) (wal_seq_ f) (wal_ f)
  (loaded_wal_chunks_ f) (chunk_id_ f) (append_bytes_since_last_barrier_ f) (wal_syncs_ f)
  (wal_writes_ f) (file_size_ f) (file_id_ f) (nr_synced_extents_ f) (open_for_wr_ f) (m_time_ f)
  (is_sparse_ f) (is_deleted_ f) (reader_offset_ f) (reader_offset_index_ f) (last_read f).
Definition set_extent_start x f := mkZoneFile (extents_ f) (linkfiles_ f) (active_zone_ f) x
  (extent_filepos_ f) (zf_lifetime_ f) (io_type_ f) (is_wal_ f) (wal_seq_ f) (wal_ f)
  (loaded_wal_chunks_ f) (chunk_id_ f) (append_bytes_since_last_barrier_ f) (wal_syncs_ f)
  (wal_writes_ f) (file_size_ f) (file_id_ f) (nr_synced_extents_ f) (open_for_wr_ f) (m_time_ f)
  (is_sparse_ f) (is_deleted_ f) (reader_offset_ f) (reader_offset_index_ f) (last_read f).
Definition set_extent_filepos x f := mkZoneFile (extents_ f) (linkfiles_ f) (active_zone_ f)
  (extent_start_ f) x (zf_lifetime_ f) (io_type_ f) (is_wal_ f) (wal_seq_ f) (wal_ f)
  (loaded_wal_chunks_ f) (chunk_id_ f) (append_bytes_since_last_barrier_ f) (wal_syncs_ f)
  (wal_writes_ f) (file_size_ f) (file_id_ f) (nr_synced_extents_ f) (open_for_wr_ f) (m_time_ f)
  (is_sparse_ f) (is_deleted_ f) (reader_offset_ f) (reader_offset_index_ f) (last_read f).
Definition set_zf_lifetime x f := mkZoneFile (extents_ f) (linkfiles_ f) (active_zone_ f)
  (extent_start_ f) (extent_filepos_ f) x (io_type_ f) (is_wal_ f) (wal_seq_ f) (wal_ f)
  (loaded_wal_chunks_ f) (chunk_id_ f) (append_bytes_since_last_barrier_ f) (wal_syncs_ f)
  (wal_writes_ f) (file_size_ f) (file_id_ f) (nr_synced_extents_ f) (open_for_wr_ f) (m_time_ f)
  (is_sparse_ f) (is_deleted_ f) (reader_offset_ f) (reader_offset_index_ f) (last_read f).
Definition set_io_type x y f := mkZoneFile (extents_ f) (linkfiles_ f) (active_zone_ f)
  (extent_start_ f) (extent_filepos_ f) (zf_lifetime_ f) x y (wal_seq_ f) (wal_ f)
  (loaded_wal_chunks_ f) (chunk_id_ f) (append_bytes_since_last_barrier_ f) (wal_syncs_ f)
  (wal_writes_ f) (file_size_ f) (file_id_ f) (nr_synced_extents_ f) (open_for_wr_ f) (m_time_ f)
  (is_sparse_ f) (is_deleted_ f) (reader_offset_ f) (reader_offset_index_ f) (last_read f).
Definition set_wal_seq x f := mkZoneFile (extents_ f) (linkfiles_ f) (active_zone_ f)
  (extent_start_ f) (extent_filepos_ f) (zf_lifetime_ f) (io_type_ f) (is_wal_ f) x (wal_ f)
  (loaded_wal_chunks_ f) (chunk_id_ f) (append_bytes_since_last_barrier_ f) (wal_syncs_ f)
  (wal_writes_ f) (file_size_ f) (file_id_ f) (nr_synced_extents_ f) (open_for_wr_ f) (m_time_ f)
  (is_sparse_ f) (is_deleted_ f) (reader_offset_ f) (reader_offset_index_ f) (last_read f).
Definition set_wal (x : option L) f := mkZoneFile (extents_ f) (linkfiles_ f) (active_zone_ f) (extent_start_
  f) (extent_filepos_ f) (zf_lifetime_ f) (io_type_ f) (is_wal_ f) (wal_seq_ f) x
  (loaded_wal_chunks_ f) (chunk_id_ f) (append_bytes_since_last_barrier_ f) (wal_syncs_ f)
  (wal_writes_ f) (file_size_ f) (file_id_ f) (nr_synced_extents_ f) (open_for_wr_ f) (m_time_ f)
  (is_sparse_ f) (is_deleted_ f) (reader_offset_ f) (reader_offset_index_ f) (last_read f).
Definition set_loaded_wal_chunks x f := mkZoneFile (extents_ f) (linkfiles_ f) (active_zone_ f)
  (extent_start_ f) (extent_filepos_ f) (zf_lifetime_ f) (io_type_ f) (is_wal_ f) (wal_seq_ f)
  (wal_ f) x (chunk_id_ f) (append_bytes_since_last_barrier_ f) (wal_syncs_ f) (wal_writes_ f)
  (file_size_ f) (file_id_ f) (nr_synced_extents_ f) (open_for_wr_ f) (m_time_ f) (is_sparse_ f)
  (is_deleted_ f) (reader_offset_ f) (reader_offset_index_ f) (last_read f).
Definition set_chunk_id x f := mkZoneFile (extents_ f) (linkfiles_ f) (active_zone_ f)
  (extent_start_ f) (extent_filepos_ f) (zf_lifetime_ f) (io_type_ f) (is_wal_ f) (wal_seq_ f)
  (wal_ f) (loaded_wal_chunks_ f) x (append_bytes_since_last_barrier_ f) (wal_syncs_ f)
  (wal_writes_ f) (file_size_ f) (file_id_ f) (nr_synced_extents_ f) (open_for_wr_ f) (m_time_ f)
  (is_sparse_ f) (is_deleted_ f) (reader_offset_ f) (reader_offset_index_ f) (last_read f).
Definition set_append_bytes x f := mkZoneFile (extents_ f) (linkfiles_ f) (active_zone_ f)
  (extent_start_ f) (extent_filepos_ f) (zf_lifetime_ f) (io_type_ f) (is_wal_ f) (wal_seq_ f)
  (wal_ f) (loaded_wal_chunks_ f) (chunk_id_ f) x (wal_syncs_ f) (wal_writes_ f) (file_size_ f)
  (file_id_ f) (nr_synced_extents_ f) (open_for_wr_ f) (m_time_ f) (is_sparse_ f) (is_deleted_ f)
  (reader_offset_ f) (reader_offset_index_ f) (last_read f).
Definition set_wal_syncs x f := mkZoneFile (extents_ f) (linkfiles_ f) (active_zone_ f)
  (extent_start_ f) (extent_filepos_ f) (zf_lifetime_ f) (io_type_ f) (is_wal_ f) (wal_seq_ f)
  (wal_ f) (loaded_wal_chunks_ f) (chunk_id_ f) (append_bytes_since_last_barrier_ f) x
  (wal_writes_ f) (file_size_ f) (file_id_ f) (nr_synced_extents_ f) (open_for_wr_ f) (m_time_ f)
  (is_sparse_ f) (is_deleted_ f) (reader_offset_ f) (reader_offset_index_ f) (last_read f).
Definition set_wal_writes x f := mkZoneFile (extents_ f) (linkfiles_ f) (active_zone_ f)
  (extent_start_ f) (extent_filepos_ f) (zf_lifetime_ f) (io_type_ f) (is_wal_ f) (wal_seq_ f)
  (wal_ f) (loaded_wal_chunks_ f) (chunk_id_ f) (append_bytes_since_last_barrier_ f) (wal_syncs_
  f) x (file_size_ f) (file_id_ f) (nr_synced_extents_ f) (open_for_wr_ f) (m_time_ f) (is_sparse_
  f) (is_deleted_ f) (reader_offset_ f) (reader_offset_index_ f) (last_read f).
Definition set_file_size x f := mkZoneFile (extents_ f) (linkfiles_ f) (active_zone_ f)
  (extent_start_ f) (extent_filepos_ f) (zf_lifetime_ f) (io_type_ f) (is_wal_ f) (wal_seq_ f)
  (wal_ f) (loaded_wal_chunks_ f) (chunk_id_ f) (append_bytes_since_last_barrier_ f) (wal_syncs_
  f) (wal_writes_ f) x (file_id_ f) (nr_synced_extents_ f) (open_for_wr_ f) (m_time_ f)
  (is_sparse_ f) (is_deleted_ f) (reader_offset_ f) (reader_offset_index_ f) (last_read f).
Definition set_file_id x f := mkZoneFile (extents_ f) (linkfiles_ f) (active_zone_ f)
  (extent_start_ f) (extent_filepos_ f) (zf_lifetime_ f) (io_type_ f) (is_wal_ f) (wal_seq_ f)
  (wal_ f) (loaded_wal_chunks_ f) (chunk_id_ f) (append_bytes_since_last_barrier_ f) (wal_syncs_
  f) (wal_writes_ f) (file_size_ f) x (nr_synced_extents_ f) (open_for_wr_ f) (m_time_ f)
  (is_sparse_ f) (is_deleted_ f) (reader_offset_ f) (reader_offset_index_ f) (last_read f).
Definition set_nr_synced_extents x f := mkZoneFile (extents_ f) (linkfiles_ f) (active_zone_ f)
  (extent_start_ f) (extent_filepos_ f) (zf_lifetime_ f) (io_type_ f) (is_wal_ f) (wal_seq_ f)
  (wal_ f) (loaded_wal_chunks_ f) (chunk_id_ f) (append_bytes_since_last_barrier_ f) (wal_syncs_
  f) (wal_writes_ f) (file_size_ f) (file_id_ f) x (open_for_wr_ f) (m_time_ f) (is_sparse_ f)
  (is_deleted_ f) (reader_offset_ f) (reader_offset_index_ f) (last_read f).
Definition set_open_for_wr x f := mkZoneFile (extents_ f) (linkfiles_ f) (active_zone_ f)
  (extent_start_ f) (extent_filepos_ f) (zf_lifetime_ f) (io_type_ f) (is_wal_ f) (wal_seq_ f)
  (wal_ f) (loaded_wal_chunks_ f) (chunk_id_ f) (append_bytes_since_last_barrier_ f) (wal_syncs_
  f) (wal_writes_ f) (file_size_ f) (file_id_ f) (nr_synced_extents_ f) x (m_time_ f) (is_sparse_
  f) (is_deleted_ f) (reader_offset_ f) (reader_offset_index_ f) (last_read f).
Definition set_m_time x f := mkZoneFile (extents_ f) (linkfiles_ f) (active_zone_ f)
  (extent_start_ f) (extent_filepos_ f) (zf_lifetime_ f) (io_type_ f) (is_wal_ f) (wal_seq_ f)
  (wal_ f) (loaded_wal_chunks_ f) (chunk_id_ f) (append_bytes_since_last_barrier_ f) (wal_syncs_
  f) (wal_writes_ f) (file_size_ f) (file_id_ f) (nr_synced_extents_ f) (open_for_wr_ f) x
  (is_sparse_ f) (is_deleted_ f) (reader_offset_ f) (reader_offset_index_ f) (last_read f).
Definition set_is_sparse x f := mkZoneFile (extents_ f) (linkfiles_ f) (active_zone_ f)
  (extent_start_ f) (extent_filepos_ f) (zf_lifetime_ f) (io_type_ f) (is_wal_ f) (wal_seq_ f)
  (wal_ f) (loaded_wal_chunks_ f) (chunk_id_ f) (append_bytes_since_last_barrier_ f) (wal_syncs_
  f) (wal_writes_ f) (file_size_ f) (file_id_ f) (nr_synced_extents_ f) (open_for_wr_ f) (m_time_
  f) x (is_deleted_ f) (reader_offset_ f) (reader_offset_index_ f) (last_read f).
Definition set_is_deleted x f := mkZoneFile (extents_ f) (linkfiles_ f) (active_zone_ f)
  (extent_start_ f) (extent_filepos_ f) (zf_lifetime_ f) (io_type_ f) (is_wal_ f) (wal_seq_ f)
  (wal_ f) (loaded_wal_chunks_ f) (chunk_id_ f) (append_bytes_since_last_barrier_ f) (wal_syncs_
  f) (wal_writes_ f) (file_size_ f) (file_id_ f) (nr_synced_extents_ f) (open_for_wr_ f) (m_time_
  f) (is_sparse_ f) x (reader_offset_ f) (reader_offset_index_ f) (last_read f).
Definition set_reader x y f := mkZoneFile (extents_ f) (linkfiles_ f) (active_zone_ f)
  (extent_start_ f) (extent_filepos_ f) (zf_lifetime_ f) (io_type_ f) (is_wal_ f) (wal_seq_ f)
  (wal_ f) (loaded_wal_chunks_ f) (chunk_id_ f) (append_bytes_since_last_barrier_ f) (wal_syncs_
  f) (wal_writes_ f) (file_size_ f) (file_id_ f) (nr_synced_extents_ f) (open_for_wr_ f) (m_time_
  f) (is_sparse_ f) (is_deleted_ f) x y (last_read f).
Definition set_last_read x f := mkZoneFile (extents_ f) (linkfiles_ f) (active_zone_ f)
  (extent_start_ f) (extent_filepos_ f) (zf_lifetime_ f) (io_type_ f) (is_wal_ f) (wal_seq_ f)
  (wal_ f) (loaded_wal_chunks_ f) (chunk_id_ f) (append_bytes_since_last_barrier_ f) (wal_syncs_
  f) (wal_writes_ f) (file_size_ f) (file_id_ f) (nr_synced_extents_ f) (open_for_wr_ f) (m_time_
  f) (is_sparse_ f) (is_deleted_ f) (reader_offset_ f) (reader_offset_index_ f) x.
End file_setters.

(** The state a method of a file runs on: the device, the file, the buffer of
    the [ZonedWritableFile] that writes it, and the rest of the file system,
    which only the metadata writer reaches. *)
Record FSt (D L X : Type) := mkFSt { f_zbd : Zbd D; f_file : ZoneFile L; f_buf : bytes; f_ctx : X }.
Arguments mkFSt {D L X}.
Arguments f_zbd {D L X}. Arguments f_file {D L X}. Arguments f_buf {D L X}. Arguments f_ctx {D L X}.

(** [class MetadataWriter] *)
Class MetadataWriter (D L X : Type) := { Persist : M (FSt D L X) unit }.

(** [ZoneFile(zbd, file_id, metadata_writer)] *)
Definition ZoneFile_new {L} (file_id : Z) : ZoneFile L :=
  mkZoneFile [] [] None NO_EXTENT 0 WLTH_NOT_SET kUnknown false 0 None (mkChunk 1 0 0 []) 0 0 0 0
    0 file_id 0 false 0 false false 0 0 0.

Definition b_of (s : string) : bytes := Stdlib.Strings.String.list_byte_of_string s.

(** [std::equal(ending.rbegin(), ending.rend(), value.rbegin())] *)
Definition ends_with (value ending : bytes) : bool :=
  if zlen value <? zlen ending then false
  else bool_decide (take (length ending) (reverse value) = reverse ending).

(** ** Encoding *)

Definition kFileID : Z := 1.
Definition kFileSize : Z := 3.
Definition kWriteLifeTimeHint : Z := 4.
Definition kExtent : Z := 5.
Definition kModificationTime : Z := 6.
Definition kActiveExtentStart : Z := 7.
Definition kIsSparse : Z := 8.
Definition kLinkedFilename : Z := 9.
Definition kWALSeq : Z := 10.

Definition ZoneExtent_EncodeTo (output : bytes) (e : ZoneExtent) : bytes :=
  PutFixed64 (PutFixed64 output (e_start_ e)) (e_length_ e).

(** The start and the length. *)
Definition ZoneExtent_DecodeFrom (input : bytes) : Status + Z * Z :=
  if negb (zlen input =? 16) then inl (Corruption "ZoneExtent: Error: length missmatch")
  else match GetFixed64 input with
       | Some (start, input) =>
           match GetFixed64 input with
           | Some (length, _) => inr (start, length)
           | None => inr (start, 0)
           end
       | None => inr (0, 0)
       end.

Definition put_extent (output : bytes) (e : ZoneExtent) : bytes :=
  PutLengthPrefixedSlice (PutFixed32 output kExtent) (ZoneExtent_EncodeTo [] e).
Definition put_link (output : bytes) (name : bytes) : bytes :=
  PutLengthPrefixedSlice (PutFixed32 output kLinkedFilename) name.

Definition EncodeTo {L} (output : bytes) (extent_start : Z) (f : ZoneFile L) : bytes :=
  let output := PutFixed64 (PutFixed32 output kFileID) (file_id_ f) in
  let output := PutFixed64 (PutFixed32 output kFileSize) (file_size_ f) in
  let output := PutFixed32 (PutFixed32 output kWriteLifeTimeHint) (zf_lifetime_ f) in
  let output := foldl put_extent output (zdrop extent_start (extents_ f)) in
  let output := if is_wal_ f then PutFixed64 (PutFixed32 output kWALSeq) (wal_seq_ f) else output in
  let output := PutFixed64 (PutFixed32 output kModificationTime) (m_time_ f) in
  let output := PutFixed64 (PutFixed32 output kActiveExtentStart) (extent_start_ f) in
  let output := if is_sparse_ f then PutFixed32 output kIsSparse else output in
  foldl put_link output (linkfiles_ f).

Definition EncodeUpdateTo {L} (output : bytes) (f : ZoneFile L) : bytes :=
  EncodeTo output (nr_synced_extents_ f) f.
Definition EncodeSnapshotTo {L} (output : bytes) (f : ZoneFile L) : bytes := EncodeTo output 0 f.

Definition MetadataSynced {L} (f : ZoneFile L) : ZoneFile L :=
  set_nr_synced_extents (u32 (zlen (extents_ f))) f.
Definition MetadataUnsynced {L} (f : ZoneFile L) : ZoneFile L := set_nr_synced_extents 0 f.
Definition HasActiveExtent {L} (f : ZoneFile L) : bool := negb (extent_start_ f =? NO_EXTENT).
Definition AddLinkName {L} (linkf : bytes) (f : ZoneFile L) : ZoneFile L :=
  set_linkfiles (linkfiles_ f ++ [linkf]) f.

(** [std::find] and [erase] *)
Fixpoint erase_first (x : bytes) (l : list bytes) : option (list bytes) :=
  match l with
  | [] => None
  | y :: l' => if decide (y = x) then Some l' else (cons y) <$> erase_first x l'
  end.

Section file.
Context {D L X : Type} `{be : ZonedBlockDeviceBackend D L} {szd : SZDOnceLog D L}
  {cfg : BuildConfig}.
Abbreviation FM := (M (FSt D L X)).

Definition on_dev {A} (m : M (Zbd D) A) : FM A :=
  zoom f_zbd (fun z s => mkFSt z (f_file s) (f_buf s) (f_ctx s)) m.
Definition get_file : FM (ZoneFile L) := gets f_file.
Definition mod_file (g : ZoneFile L -> ZoneFile L) : FM unit :=
  modify (fun s => mkFSt (f_zbd s) (g (f_file s)) (f_buf s) (f_ctx s)).
Definition GetFilename : FM bytes := f <- get_file ;; deref (head (linkfiles_ f)).

(** [zone->used_capacity_ += n] *)
Definition add_used (z : nat) (n : Z) : M (Zbd D) unit :=
  mod_zone z (fun zn => set_used_capacity (used_capacity_ zn +64 n) zn).
Definition sub_used (z : nat) (n : Z) : M (Zbd D) unit :=
  mod_zone z (fun zn => set_used_capacity (used_capacity_ zn -64 n) zn).

Definition push_extent (e : ZoneExtent) : FM unit :=
  mod_file (fun f => set_extents (extents_ f ++ [e]) f).

Definition SetIOType (io_type : IOType) : FM unit :=
  name <- (if is_kWAL io_type then GetFilename else ret []) ;;
  mod_file (set_io_type io_type (is_kWAL io_type && ends_with name (b_of ".log"))).

Definition RenameLink (src dest : bytes) : FM unit :=
  f <- get_file ;;
  match erase_first src (linkfiles_ f) with
  | Some l => mod_file (set_linkfiles (l ++ [dest]))
  | None => fail (IOError "RenameLink: Failed to find the linked file")
  end.

Definition RemoveLinkName (linkf : bytes) : FM unit :=
  f <- get_file ;;
  match erase_first linkf (linkfiles_ f) with
  | Some l => mod_file (set_linkfiles l)
  | None => fail (IOError "RemoveLinkInfo: Failed to find the link file")
  end.

(** [case kExtent] *)
Definition decode_extent (pad_sz : Z) (input : bytes) : FM (Z * bytes) :=
  let '(slice, input) := GetLengthPrefixedSlice input in
  match ZoneExtent_DecodeFrom (default [] slice) with
  | inl e => fail e
  | inr (start, length) =>
      zone <- on_dev (GetIOZone start) ;;
      match zone with
      | None => fail (Corruption "ZoneFile: Invalid zone extent")
      | Some z =>
          on_dev (add_used z length) ;;
          let align := length mod 4096 in
          let pad_sz := if align =? 0 then pad_sz else pad_sz +64 (4096 - align) in
          push_extent (mkExtent start length z) ;;
          f <- get_file ;;
          match wal_ f with
          | Some _ => ret tt
          | None =>
              wal_pos <- on_dev (GetWAL start) ;;
              match wal_pos with
              | Some _ => mod_file (set_wal wal_pos)
              | None => ret tt
              end
          end ;;
          ret (pad_sz, input)
      end
  end.

(** A field of the record, or an error. *)
Definition get64 (input : bytes) (error : string) : FM (Z * bytes) :=
  match GetFixed64 input with Some p => ret p | None => fail (Corruption error) end.
Definition get32 (input : bytes) (error : string) : FM (Z * bytes) :=
  match GetFixed32 input with Some p => ret p | None => fail (Corruption error) end.

(** The body of the [switch]; [is_wal] and [pad_sz] are the locals it sets. *)
Definition decode_field (tag : Z) (is_wal : bool) (pad_sz : Z) (input : bytes) :
  FM (bool * Z * bytes) :=
  if tag =? kFileSize then
    let* (v, input) := get64 input "ZoneFile: Missing file size" in
    mod_file (set_file_size v) ;; ret (is_wal, pad_sz, input)
  else if tag =? kWriteLifeTimeHint then
    let* (lt, input) := get32 input "ZoneFile: Missing life time hint" in
    mod_file (set_zf_lifetime lt) ;; ret (is_wal, pad_sz, input)
  else if tag =? kExtent then
    let* (pad_sz, input) := decode_extent pad_sz input in ret (is_wal, pad_sz, input)
  else if tag =? kModificationTime then
    let* (ct, input) := get64 input "ZoneFile: Missing creation time" in
    mod_file (set_m_time (to_i64 ct)) ;; ret (is_wal, pad_sz, input)
  else if tag =? kActiveExtentStart then
    let* (es, input) := get64 input "ZoneFile: Active extent start" in
    mod_file (set_extent_start es) ;; ret (is_wal, pad_sz, input)
  else if tag =? kIsSparse then
    mod_file (set_is_sparse true) ;; ret (is_wal, pad_sz, input)
  else if tag =? kLinkedFilename then
    match GetLengthPrefixedSlice input with
    | (None, _) => fail (Corruption "ZoneFile: LinkFilename missing")
    | (Some slice, input) =>
        if zlen slice =? 0 then fail (Corruption "ZoneFile: Zero length Linkfilename")
        else mod_file (fun f => set_linkfiles (linkfiles_ f ++ [slice]) f) ;;
             ret (is_wal, pad_sz, input)
    end
  else if tag =? kWALSeq then
    let* (wal_seq, input) := get64 input "ZoneFile: Missing sequence number" in
    mod_file (set_wal_seq wal_seq) ;; ret (true, pad_sz, input)
  else fail (Corruption "ZoneFile: Unexpected tag").

(** [while (true)]; every round consumes a tag, so the length of the input
    bounds the rounds. *)
Fixpoint DecodeFrom_loop (n : nat) (is_wal : bool) (pad_sz : Z) (input : bytes) : FM (bool * Z) :=
  match GetFixed32 input with
  | None => ret (is_wal, pad_sz)
  | Some (tag, input) =>
      match n with
      | O => stuckM OutOfFuel
      | S n' =>
          let* (is_wal, pad_sz, input) := decode_field tag is_wal pad_sz input in
          DecodeFrom_loop n' is_wal pad_sz input
      end
  end.

Definition DecodeFrom (input : bytes) : FM unit :=
  match GetFixed32 input with
  | Some (tag, input) =>
      if tag =? kFileID then
        let* (id, input) := get64 input "ZoneFile: File ID missing" in
        mod_file (set_file_id id) ;;
        let* (is_wal, pad_sz) := DecodeFrom_loop (length input) false 0 input in
        (if (is_wal : bool) then
           mod_file (fun f => set_append_bytes ((file_size_ f +64 pad_sz) mod WAL_BARRIER) f)
         else ret tt) ;;
        mod_file MetadataSynced
      else fail (Corruption "ZoneFile: File ID missing")
  | None => fail (Corruption "ZoneFile: File ID missing")
  end.

(** ** Extents *)

Definition ClearExtents : FM unit :=
  f <- get_file ;;
  forM (extents_ f) (fun e => on_dev (sub_used (e_zone_ e) (e_length_ e))) ;;
  mod_file (set_extents []).

Definition MergeUpdate (update : ZoneFile L) (replace : bool) : FM unit :=
  f <- get_file ;;
  if negb (file_id_ f =? file_id_ update)
  then fail (Corruption "ZoneFile update: ID missmatch") else
  mod_file (fun f => set_m_time (m_time_ update)
    (set_zf_lifetime (zf_lifetime_ update) (set_file_size (file_size_ update) f))) ;;
  (if wal_seq_ f <? wal_seq_ update then mod_file (set_wal_seq (wal_seq_ update)) else ret tt) ;;
  when replace ClearExtents ;;
  forM (extents_ update) (fun e =>
    on_dev (add_used (e_zone_ e) (e_length_ e)) ;;
    push_extent (mkExtent (e_start_ e) (e_length_ e) (e_zone_ e))) ;;
  mod_file (fun f => MetadataSynced
    (set_is_sparse (is_sparse_ update) (set_extent_start (extent_start_ update) f))) ;;
  mod_file (set_linkfiles (linkfiles_ update)).

(** ** The log of a write-ahead log file *)

(** A call on [wal_], which must be there. *)
Definition wal_call (g : L -> D -> bool * (L * D)) : FM bool :=
  f <- get_file ;;
  w <- deref (wal_ f) ;;
  let* (b, w') := on_dev (with_be (call (fun d => let '(b, (w', d')) := g w d in ((b, w'), d')))) in
  mod_file (set_wal (Some w')) ;;
  ret b.

(** [zbd_->AppendSync(wal_)]; its result is not looked at. *)
Definition AppendSync : FM unit :=
  wal_call (fun w d => let '(_, (w', d')) := be_AppendSync w d in (true, (w', d'))) ;; ret tt.

Definition WALSync : FM unit :=
  f <- get_file ;;
  match wal_ f with
  | Some _ =>
      AppendSync ;;
      b <- wal_call szd_Sync ;;
      if (b : bool) then ret tt else fail (IOError "Error WAL sync")
  | None => ret tt
  end.

(** [zbd_->OpenWALZone(&wal_, zone)] *)
Definition open_wal (zone : nat) : FM unit :=
  let* (w, st) := on_dev (OpenWALZone zone) in
  mod_file (set_wal (Some w)) ;;
  returnS st.

Definition ResetWALZones : FM unit :=
  f <- get_file ;;
  z <- match extents_ f, wal_ f with
       | e :: _, None =>
           acq <- on_dev (Acquire (e_zone_ e)) ;;
           (if (acq : bool) then ret tt else stuckM Blocked) ;;
           open_wal (e_zone_ e) ;;
           ret (Some (e_zone_ e))
       | _, _ => ret None
       end ;;
  f <- get_file ;;
  st <- match wal_ f with
        | Some _ =>
            b <- wal_call szd_ResetAll ;;
            if (b : bool) then r <- attempt (on_dev ReleaseUnusedWALZones) ;; ret (status_of r)
            else ret (IOError "WAL sync error")
        | None => ret OK
        end ;;
  match z with
  | Some z => on_dev (Release z) ;; ret tt
  | None => ret tt
  end ;;
  returnS st.

(** [~ZoneFile()] *)
Definition ZoneFile_delete : FM unit :=
  f <- get_file ;;
  match wal_ f with
  | Some _ => AppendSync ;; wal_call szd_Sync ;; mod_file (set_wal None)
  | None => ret tt
  end ;;
  ClearExtents ;;
  mod_file (fun f => set_loaded_wal_chunks
    (mkChunk (lwc_start_ (loaded_wal_chunks_ f)) (lwc_end_ (loaded_wal_chunks_ f))
       (lwc_jump_ (loaded_wal_chunks_ f)) []) f).

(** ** The active zone *)

Definition ReleaseActiveZone : FM unit :=
  f <- get_file ;;
  z <- deref (active_zone_ f) ;;
  on_dev (Release z) ;;
  mod_file (set_active_zone None).

Definition SetActiveZone (zone : nat) : FM unit := mod_file (set_active_zone (Some zone)).

Definition CloseActiveZone : FM unit :=
  f <- get_file ;;
  s <- match is_wal_ f, wal_ f with
       | true, Some _ =>
           b <- wal_call szd_Sync ;;
           ret (if (b : bool) then OK else IOError "Failed syncing WAL")
       | _, _ => ret OK
       end ;;
  match active_zone_ f with
  | Some z =>
      zn <- on_dev (get_zone z) ;;
      r <- attempt (on_dev (Zone_Close z)) ;;
      ReleaseActiveZone ;;
      match r with
      | inl e => fail e
      | inr _ => on_dev (PutOpenIOZoneToken ;; when (IsFull zn) PutActiveIOZoneToken)
      end
  | None => returnS s
  end.

(** The mutex [open_for_wr_mtx_] is held exactly while [open_for_wr_] is set. *)
Definition AcquireWRLock : FM unit :=
  f <- get_file ;;
  if open_for_wr_ f then stuckM Blocked else mod_file (set_open_for_wr true).
Definition TryAcquireWRLock : FM bool :=
  f <- get_file ;;
  if open_for_wr_ f then ret false else mod_file (set_open_for_wr true) ;; ret true.
Definition ReleaseWRLock : FM unit :=
  f <- get_file ;;
  if open_for_wr_ f then mod_file (set_open_for_wr false) else stuckM Undefined.

Definition PushExtent : FM unit :=
  f <- get_file ;;
  match active_zone_ f with
  | None => ret tt
  | Some z =>
      let length := file_size_ f -64 extent_filepos_ f in
      if length =? 0 then ret tt else
      push_extent (mkExtent (extent_start_ f) length z) ;;
      on_dev (add_used z length) ;;
      zn <- on_dev (get_zone z) ;;
      mod_file (fun f => set_extent_filepos (file_size_ f) (set_extent_start (wp_ zn) f))
  end.

(** ** Recovery of the extents *)

Definition header_size (is_wal : bool) : Z :=
  SPARSE_HEADER_SIZE + (if is_wal then SPARSE_WAL_HEADER_SIZE else 0).

(** [while (next_extent_start < end)]; [wal_seq_rec] is the highest sequence
    number seen, [s] how the loop ended. *)
Fixpoint RecoverSparseExtents_loop (n : nat) (next_extent_start last : Z) (zone : nat)
    (wal_seq_rec : Z) : FM (IOStatus * Z) :=
  if next_extent_start <? last then
    match n with
    | O => stuckM OutOfFuel
    | S n' =>
        f <- get_file ;;
        let header_size := header_size (is_wal_ f) in
        let* (r, buffer) := on_dev (Zbd_Read next_extent_start block_sz_ false) in
        if negb (r =? block_sz_)
        then ret (IOError "Unexpected read error while recovering", wal_seq_rec) else
        let extent_length := DecodeFixed64 kLittleEndian buffer in
        if extent_length =? 0
        then ret (IOError "Unexpected extent length while recovering", wal_seq_rec) else
        name <- GetFilename ;;
        let wal_seq_rec :=
          if ends_with name (b_of ".log")
          then Z.max wal_seq_rec (DecodeFixed64 kLittleEndian (zdrop 8 buffer)) else wal_seq_rec in
        on_dev (add_used zone extent_length) ;;
        push_extent (mkExtent (next_extent_start +64 header_size) extent_length zone) ;;
        let total := extent_length +64 header_size in
        let extent_blocks :=
          if total mod block_sz_ =? 0 then total / block_sz_ else total / block_sz_ +64 1 in
        RecoverSparseExtents_loop n' (next_extent_start +64 (extent_blocks *64 block_sz_)) last zone
          wal_seq_rec
    end
  else ret (OK, wal_seq_rec).

Definition RecoverSparseExtents (start last : Z) (zone : nat) : FM unit :=
  f <- get_file ;;
  let* (s, wal_seq_rec) := RecoverSparseExtents_loop loop_bound start last zone (wal_seq_ f) in
  mod_file (set_wal_seq wal_seq_rec) ;;
  returnS s.

Definition Recover : FM unit :=
  f <- get_file ;;
  if negb (HasActiveExtent f) then ret tt else
  zone <- on_dev (GetIOZone (extent_start_ f)) ;;
  match zone with
  | None => fail (IOError "Could not find zone for extent start while recovering")
  | Some z =>
      zn <- on_dev (get_zone z) ;;
      if wp_ zn <? extent_start_ f
      then fail (IOError "Zone wp is smaller than active extent start") else
      let to_recover := wp_ zn - extent_start_ f in
      if to_recover =? 0 then mod_file (set_extent_start NO_EXTENT) else
      (if is_sparse_ f then RecoverSparseExtents (extent_start_ f) (wp_ zn) z
       else on_dev (add_used z to_recover) ;;
            push_extent (mkExtent (extent_start_ f) to_recover z)) ;;
      mod_file (set_extent_start NO_EXTENT) ;;
      mod_file (fun f => set_file_size (foldl (fun sz e => sz +64 e_length_ e) 0 (extents_ f)) f)
  end.
End file.
