(* ===== verification/ZoneFileProps.v ===== *)
(** * Properties of files

    The encoding of a file in the metadata log, and what the operations on
    extents, links and the log of a file do. *)

From S2P Require Import Prelude Status Coding Device MemDevice Zone Zbd ZbdProps ZoneFile.

(** ** The fields of an encoded file *)

Inductive field :=
  | FSize (v : Z) | FLifetime (v : Z) | FExtent (e : ZoneExtent) | FWALSeq (v : Z)
  | FMTime (v : Z) | FActiveExtent (v : Z) | FSparse | FLink (name : bytes).

Definition enc_field (fd : field) : bytes :=
  match fd with
  | FSize v => le_split 4 kFileSize ++ le_split 8 v
  | FLifetime v => le_split 4 kWriteLifeTimeHint ++ le_split 4 v
  | FExtent e =>
      le_split 4 kExtent ++ EncodeVarint32 (u32 (zlen (ZoneExtent_EncodeTo [] e))) ++
      ZoneExtent_EncodeTo [] e
  | FWALSeq v => le_split 4 kWALSeq ++ le_split 8 v
  | FMTime v => le_split 4 kModificationTime ++ le_split 8 v
  | FActiveExtent v => le_split 4 kActiveExtentStart ++ le_split 8 v
  | FSparse => le_split 4 kIsSparse
  | FLink name => le_split 4 kLinkedFilename ++ EncodeVarint32 (u32 (zlen name)) ++ name
  end.
Definition enc_fields (fds : list field) : bytes := mjoin (enc_field <$> fds).

Definition extent_ok (e : ZoneExtent) : Prop := is_u 64 (e_start_ e) /\ is_u 64 (e_length_ e).

Definition field_ok (fd : field) : Prop :=
  match fd with
  | FSize v | FWALSeq v | FActiveExtent v => is_u 64 v
  | FLifetime v => is_u 32 v
  | FMTime v => - 2 ^ 63 <= v < 2 ^ 63
  | FExtent e => extent_ok e
  | FSparse => True
  | FLink name => 0 < zlen name < 2 ^ 32
  end.

Definition fields_of {L} (extent_start : Z) (f : ZoneFile L) : list field :=
  [FSize (file_size_ f); FLifetime (zf_lifetime_ f)] ++
  (FExtent <$> zdrop extent_start (extents_ f)) ++
  (if is_wal_ f then [FWALSeq (wal_seq_ f)] else []) ++
  [FMTime (m_time_ f); FActiveExtent (extent_start_ f)] ++
  (if is_sparse_ f then [FSparse] else []) ++
  (FLink <$> linkfiles_ f).

Lemma foldl_put_extent out es : foldl put_extent out es = out ++ enc_fields (FExtent <$> es).
Proof.
  revert out. induction es as [|e es IH]; intros out; simpl; [by rewrite app_nil_r|].
  rewrite IH. unfold put_extent. rewrite PutLengthPrefixedSlice_eq, PutFixed32_eq.
  unfold enc_fields. simpl. by rewrite <- !app_assoc.
Qed.

Lemma foldl_put_link out ns : foldl put_link out ns = out ++ enc_fields (FLink <$> ns).
Proof.
  revert out. induction ns as [|n ns IH]; intros out; simpl; [by rewrite app_nil_r|].
  rewrite IH. unfold put_link. rewrite PutLengthPrefixedSlice_eq, PutFixed32_eq.
  unfold enc_fields. simpl. by rewrite <- !app_assoc.
Qed.

Lemma enc_fields_app a b : enc_fields (a ++ b) = enc_fields a ++ enc_fields b.
Proof. unfold enc_fields. by rewrite fmap_app, join_app. Qed.

Lemma EncodeTo_eq {L} out k (f : ZoneFile L) :
  EncodeTo out k f = out ++ le_split 4 kFileID ++ le_split 8 (file_id_ f) ++ enc_fields (fields_of k f).
Proof.
  unfold EncodeTo, fields_of. cbv zeta. rewrite foldl_put_link, foldl_put_extent, !enc_fields_app.
  rewrite !PutFixed64_eq, !PutFixed32_eq. unfold enc_fields at 3 6. simpl.
  destruct (is_wal_ f), (is_sparse_ f);
    rewrite ?PutFixed64_eq, ?PutFixed32_eq; unfold enc_fields; simpl; rewrite ?app_nil_r, <- ?app_assoc; done.
Qed.

Lemma to_i64_id v : - 2 ^ 63 <= v < 2 ^ 63 -> to_i64 (u64 v) = v.
Proof.
  intros H. unfold to_i64, u64, wrap. rewrite Zmod_mod.
  destruct (Z.ltb_spec (v mod 2 ^ 64) (2 ^ 63));
    pose proof (Z.mod_pos_bound v (2 ^ 64)); pose proof (Z.div_mod v (2 ^ 64)); lia.
Qed.

Lemma ZoneExtent_roundtrip e :
  extent_ok e -> ZoneExtent_DecodeFrom (ZoneExtent_EncodeTo [] e) = inr (e_start_ e, e_length_ e).
Proof.
  intros [Hs Hl]. unfold ZoneExtent_DecodeFrom, ZoneExtent_EncodeTo.
  rewrite !PutFixed64_eq, app_nil_l.
  rewrite zlen_app, !zlen_le_split, GetFixed64_le_split. cbn [negb Z.eqb].
  rewrite <- (app_nil_r (le_split 8 (e_length_ e))), GetFixed64_le_split.
  by rewrite !u64_small.
Qed.

Lemma zlen_ZoneExtent_EncodeTo e : zlen (ZoneExtent_EncodeTo [] e) = 16.
Proof. unfold ZoneExtent_EncodeTo. by rewrite !PutFixed64_eq, app_nil_l, zlen_app, !zlen_le_split. Qed.

Section codec.
Context {D L X : Type} `{be : ZonedBlockDeviceBackend D L} {szd : SZDOnceLog D L}
  {cfg : BuildConfig}.
Abbreviation FM := (M (FSt D L X)).

(** [decode_extent] once the extent has been taken from the input. *)
Definition load_extent (pad_sz : Z) (e : ZoneExtent) : FM Z :=
  zone <- on_dev (GetIOZone (e_start_ e)) ;;
  match zone with
  | None => fail (Corruption "ZoneFile: Invalid zone extent")
  | Some z =>
      on_dev (add_used z (e_length_ e)) ;;
      let align := e_length_ e mod 4096 in
      let pad_sz := if align =? 0 then pad_sz else pad_sz +64 (4096 - align) in
      push_extent (mkExtent (e_start_ e) (e_length_ e) z) ;;
      f <- get_file ;;
      match wal_ f with
      | Some _ => ret tt
      | None =>
          wal_pos <- on_dev (GetWAL (e_start_ e)) ;;
          match wal_pos with
          | Some _ => mod_file (set_wal wal_pos)
          | None => ret tt
          end
      end ;;
      ret pad_sz
  end.

(** What decoding a field does to the file and the locals of the loop. *)
Definition run_field (p : bool * Z) (fd : field) : FM (bool * Z) :=
  match fd with
  | FSize v => mod_file (set_file_size v) ;; ret p
  | FLifetime v => mod_file (set_zf_lifetime v) ;; ret p
  | FExtent e => pad_sz <- load_extent p.2 e ;; ret (p.1, pad_sz)
  | FWALSeq v => mod_file (set_wal_seq v) ;; ret (true, p.2)
  | FMTime v => mod_file (set_m_time v) ;; ret p
  | FActiveExtent v => mod_file (set_extent_start v) ;; ret p
  | FSparse => mod_file (set_is_sparse true) ;; ret p
  | FLink name => mod_file (fun f => set_linkfiles (linkfiles_ f ++ [name]) f) ;; ret p
  end.

Lemma decode_extent_encoded e pad_sz rest (s : FSt D L X) :
  extent_ok e ->
  decode_extent pad_sz (EncodeVarint32 (u32 (zlen (ZoneExtent_EncodeTo [] e))) ++
    ZoneExtent_EncodeTo [] e ++ rest) s
  = bind (load_extent pad_sz e) (fun pad_sz => ret (pad_sz, rest)) s.
Proof.
  intros He. unfold decode_extent.
  rewrite GetLengthPrefixedSlice_encode by (rewrite zlen_ZoneExtent_EncodeTo; lia).
  cbv beta iota. change (default [] (Some ?x)) with x. rewrite ZoneExtent_roundtrip by done. unfold load_extent, bind.
  destruct (on_dev _ s) as [[z|] s1| |]; [|done..].
  destruct (on_dev _ s1); [|done..]. destruct (push_extent _ _); [|done..].
  destruct (get_file _) as [f ?| |]; [|done..]. destruct (wal_ f); [done|].
  destruct (on_dev _ _) as [[?|] ?| |]; done.
Qed.

(** Takes the branch of the [switch] for a known tag. *)
Ltac switch :=
  unfold decode_field;
  repeat match goal with
    | |- context [u32 ?a =? ?b] =>
        let v := eval vm_compute in (u32 a =? b) in change (u32 a =? b) with v; cbv iota
    end.

(** One round of the loop on an encoded field. *)
Lemma DecodeFrom_loop_field n is_wal pad_sz fd rest (s : FSt D L X) :
  field_ok fd ->
  DecodeFrom_loop (S n) is_wal pad_sz (enc_field fd ++ rest) s
  = bind (run_field (is_wal, pad_sz) fd)
      (fun p => DecodeFrom_loop n p.1 p.2 rest) s.
Proof.
  intros Hok. destruct fd as [v|v|e|v|v|v| |name]; cbn [enc_field field_ok] in *;
    rewrite <- ?app_assoc; cbn [DecodeFrom_loop]; rewrite GetFixed32_le_split.
  - switch. unfold get64. rewrite GetFixed64_le_split. by rewrite (u64_small v).
  - switch. unfold get32. rewrite GetFixed32_le_split. by rewrite (u32_small v).
  - switch. unfold bind at 1 2. rewrite decode_extent_encoded by done.
    unfold run_field, bind, ret. simpl. by destruct (load_extent pad_sz e s).
  - switch. unfold get64. rewrite GetFixed64_le_split. by rewrite (u64_small v).
  - switch. unfold get64. rewrite GetFixed64_le_split. unfold bind, ret, mod_file, modify.
    by rewrite to_i64_id.
  - switch. unfold get64. rewrite GetFixed64_le_split. by rewrite (u64_small v).
  - switch. done.
  - switch. rewrite GetLengthPrefixedSlice_encode by lia. cbv beta iota.
    destruct (Z.eqb_spec (zlen name) 0); [lia|]. done.
Qed.

(** The loop on a sequence of encoded fields. *)
Lemma DecodeFrom_loop_fields n fds p (s : FSt D L X) :
  Forall field_ok fds -> (length fds <= n)%nat ->
  DecodeFrom_loop n p.1 p.2 (enc_fields fds) s = foldM run_field p fds s.
Proof.
  revert n p s. induction fds as [|fd fds IH]; intros n p s Hok Hn.
  { unfold enc_fields. simpl. destruct n; simpl; by destruct p. }
  apply Forall_cons in Hok as [Hfd Hok]. destruct n as [|n]; [simpl in Hn; lia|].
  change (enc_fields (fd :: fds)) with (enc_field fd ++ enc_fields fds).
  rewrite DecodeFrom_loop_field by done. cbn [foldM]. destruct p as [w pad]. cbn [fst snd].
  unfold bind. destruct (run_field (w, pad) fd s) as [p' s'|e s'|st]; [|reflexivity..].
  apply IH; [done|simpl in Hn; lia].
Qed.

Lemma zlen_enc_fields fds : zlen fds <= zlen (enc_fields fds).
Proof.
  induction fds as [|fd fds IH]; [done|]. change (enc_fields (fd :: fds)) with (enc_field fd ++ enc_fields fds).
  rewrite zlen_cons, zlen_app.
  assert (4 <= zlen (enc_field fd)); [|lia].
  destruct fd; cbn [enc_field]; rewrite ?zlen_app, zlen_le_split; zlen_solve.
Qed.

Lemma DecodeFrom_fields id fds (s : FSt D L X) :
  is_u 64 id -> Forall field_ok fds ->
  DecodeFrom (le_split 4 kFileID ++ le_split 8 id ++ enc_fields fds) s
  = bind (mod_file (set_file_id id)) (fun _ =>
      let* (is_wal, pad_sz) := foldM run_field (false, 0) fds in
      (if (is_wal : bool) then
         mod_file (fun f => set_append_bytes ((file_size_ f +64 pad_sz) mod WAL_BARRIER) f)
       else ret tt) ;;
      mod_file MetadataSynced) s.
Proof.
  intros Hid Hok. unfold DecodeFrom. rewrite GetFixed32_le_split. cbn [Z.eqb]. simpl (u32 kFileID =? kFileID).
  cbv iota. unfold get64. rewrite GetFixed64_le_split. rewrite (u64_small id) by done.
  unfold bind, ret. unfold mod_file at 1 4, modify.
  rewrite (DecodeFrom_loop_fields _ _ (false, 0)); [done|done|].
  pose proof (zlen_enc_fields fds). unfold zlen in *. lia.
Qed.

(** *** Loading the extents *)

(** [s] after opening logs: only the device and the write channel moved. *)
Definition wal_opened (s s' : Zbd D) : Prop :=
  exists c d, s' = set_write_channel_ptr c (set_be d s).

Lemma wal_opened_refl s : wal_opened s s.
Proof. exists (write_channel_ptr_ s), (zbd_be_ s). by destruct s. Qed.

Lemma wal_opened_trans s1 s2 s3 : wal_opened s1 s2 -> wal_opened s2 s3 -> wal_opened s1 s3.
Proof. intros (c & d & ->) (c' & d' & ->). by exists c', d'. Qed.

Lemma wal_opened_layout s s' : wal_opened s s' -> same_layout s s'.
Proof. intros (c & d & ->). done. Qed.

(** Whether [offset] lies in the first zone of a group of log zones. *)
Definition wal_group_at (s : Zbd D) (offset : Z) : bool :=
  existsb (fun i => from_option (zone_at (zone_heap s) offset) false (wal_zones s !! i))
    (steps (length (wal_zones s)) 3).
#[local] Arguments wal_group_at : simpl never.
#[local] Arguments GetWAL : simpl never.

Lemma steps_lt n i : i ∈ steps n 3 -> (i < n)%nat.
Proof.
  unfold steps. intros (j & -> & Hj)%list_elem_of_fmap. apply elem_of_seq in Hj.
  pose proof (Nat.div_mod_eq (n + 3 - 1) 3). pose proof (Nat.mod_upper_bound (n + 3 - 1) 3). lia.
Qed.

Lemma GetWAL_loop_run idxs offset (s : Zbd D) :
  zone_list_ok s (wal_zones s) -> Forall (fun i => (i < length (wal_zones s))%nat) idxs ->
  if existsb (fun i => from_option (zone_at (zone_heap s) offset) false (wal_zones s !! i)) idxs
  then exists w s', GetWAL_loop idxs offset s = Ok (Some w) s' /\ wal_opened s s'
  else GetWAL_loop idxs offset s = Ok None s.
Proof.
  intros Hok. induction idxs as [|i idxs IH]; intros Hi; [done|].
  apply Forall_cons in Hi as [Hi Hidx].
  destruct (lookup_lt_is_Some_2 _ _ Hi) as [z Hz].
  destruct (proj1 (Forall_lookup _ _) Hok i z Hz) as [zn Hzn].
  assert (GetWAL_loop (i :: idxs) offset s =
    if in_zone offset zn then bind (new_wal (Z.of_nat i + ZENFS_META_ZONES + ZENFS_FLAKY_ZONES)
      (Z.of_nat i + ZENFS_META_ZONES + ZENFS_ZONES_FOREACH_WAL + ZENFS_FLAKY_ZONES))
      (fun p => ret (Some p.2)) s
    else GetWAL_loop idxs offset s) as ->.
  { cbn [GetWAL_loop]. unfold bind at 1, get. rewrite Hz. unfold bind at 1. cbn [deref ret].
    erewrite bind_ok by by apply get_zone_ok. destruct (in_zone offset zn); [|done].
    unfold bind. by destruct (new_wal _ _ s) as [[]| |]. }
  cbn [existsb]. rewrite Hz. cbn [from_option]. unfold zone_at at 1. rewrite Hzn.
  cbn [from_option]. destruct (in_zone offset zn); cbn [orb]; [|by apply IH].
  unfold new_wal, next_channel, with_be, zoom, call, bind, get, modify, ret. simpl.
  destruct (szd_RecoverPointers _ _) as [b [w d]]. do 2 eexists. split; [done|]. by do 2 eexists.
Qed.

Lemma GetWAL_run offset (s : Zbd D) :
  zone_list_ok s (wal_zones s) ->
  if wal_group_at s offset
  then exists w s', GetWAL offset s = Ok (Some w) s' /\ wal_opened s s'
  else GetWAL offset s = Ok None s.
Proof.
  intros Hok. apply GetWAL_loop_run; [done|]. apply Forall_forall. apply steps_lt.
Qed.

(** The heap once the extents [es] are accounted for. *)
Definition add_usage (es : list ZoneExtent) (h : gmap nat Zone) : gmap nat Zone :=
  foldl (fun h e => alter (fun zn => set_used_capacity (used_capacity_ zn +64 e_length_ e) zn)
                      (e_zone_ e) h) h es.

(** The bytes of padding [DecodeFrom] assumes after the extents. *)
Definition padding (p : Z) (es : list ZoneExtent) : Z :=
  foldl (fun p e => if e_length_ e mod 4096 =? 0 then p else p +64 (4096 - e_length_ e mod 4096)) p es.

Lemma same_layout_alter (s : Zbd D) z (g : Zone -> Zone) :
  (forall zn, start_ (g zn) = start_ zn) -> same_layout s (set_heap (alter g z (zone_heap s)) s).
Proof.
  intros Hg. split; [done|]. split; [done|]. intros z'. simpl.
  destruct (decide (z' = z)) as [->|].
  - rewrite lookup_alter_eq. destruct (zone_heap s !! z); simpl; [by rewrite Hg|done].
  - by rewrite lookup_alter_ne by done.
Qed.

Lemma mod_zone_alter z g (s : Zbd D) :
  is_Some (zone_heap s !! z) -> mod_zone z g s = Ok tt (set_heap (alter g z (zone_heap s)) s).
Proof.
  intros [zn Hz]. rewrite (mod_zone_ok z g zn) by done. do 2 f_equal. symmetry.
  apply map_eq. intros j. destruct (decide (j = z)) as [->|].
  - by rewrite lookup_alter_eq, lookup_insert_eq, Hz.
  - by rewrite lookup_alter_ne, lookup_insert_ne by done.
Qed.

(** What loading leaves: the zones account for [es], the file has them, and
    [w] is the log it found, if any. *)
Definition loaded (es : list ZoneExtent) (s : FSt D L X) (w : option L) (s' : FSt D L X) : Prop :=
  exists z, wal_opened (f_zbd s) z /\
    (existsb (fun e => wal_group_at (f_zbd s) (e_start_ e)) es = false -> z = f_zbd s /\ w = wal_ (f_file s)) /\
    s' = mkFSt (set_heap (add_usage es (zone_heap z)) z)
           (set_wal w (set_extents (extents_ (f_file s) ++ es) (f_file s))) (f_buf s) (f_ctx s).

Lemma existsb_ext {A} (f g : A -> bool) l : (forall x, f x = g x) -> existsb f l = existsb g l.
Proof. intros H. induction l as [|x l IH]; simpl; [done|]. by rewrite H, IH. Qed.

Lemma wal_group_at_layout s s' offset :
  same_layout s s' -> wal_group_at s' offset = wal_group_at s offset.
Proof.
  intros H. pose proof H as (_ & Hw & _). unfold wal_group_at. rewrite Hw. apply existsb_ext.
  intros i. destruct (wal_zones s !! i); simpl; [|done]. by apply zone_at_layout.
Qed.

Lemma io_zone_at_Some s offset z : io_zone_at s offset = Some z -> is_Some (zone_heap s !! z).
Proof.
  unfold io_zone_at. assert (forall zs, List.find (zone_at (zone_heap s) offset) zs = Some z ->
    is_Some (zone_heap s !! z)) as H.
  { intros zs [_ Hz]%List.find_some. unfold zone_at in Hz. destruct (zone_heap s !! z); [by eexists|done]. }
  destruct (List.find _ (io_zones s)) as [y|] eqn:E; [intros ?; simplify_eq; eauto|apply H].
Qed.

(** Every extent lies in the zone it names, and the zones are there. *)
Definition extents_located (s : Zbd D) (es : list ZoneExtent) : Prop :=
  zone_list_ok s (io_zones s) /\ zone_list_ok s (wal_zones s) /\
  Forall (fun e => io_zone_at s (e_start_ e) = Some (e_zone_ e)) es.

Lemma extents_located_layout s s' es :
  same_layout s s' -> extents_located s es -> extents_located s' es.
Proof.
  intros H (Hio & Hwal & Hes). pose proof H as (H1 & H2 & _). unfold extents_located.
  rewrite H1, H2. split; [by eapply same_layout_list_ok|]. split; [by eapply same_layout_list_ok|].
  eapply Forall_impl; [done|]. intros e He. by rewrite (io_zone_at_layout s).
Qed.

Lemma load_extent_run p e (s : FSt D L X) :
  extents_located (f_zbd s) [e] ->
  exists w s', load_extent p e s = Ok (padding p [e]) s' /\ loaded [e] s w s'.
Proof.
  intros (Hio & Hwal & He). apply Forall_cons in He as [He _]. destruct s as [z f buf x].
  cbn [f_zbd] in *. cbv beta in He.
  unfold load_extent. erewrite bind_ok; cycle 1.
  { unfold on_dev, zoom. cbn [f_zbd]. by rewrite GetIOZone_run by done. }
  rewrite He. cbv iota. erewrite bind_ok; cycle 1.
  { unfold on_dev, zoom, add_used. cbn [f_zbd]. rewrite mod_zone_alter by (by eapply io_zone_at_Some). done. }
  cbv zeta. unfold push_extent, get_file, mod_file, gets, modify, ret. unfold bind at 1. unfold bind at 2.
  cbn. set (z1 := set_heap _ _).
  assert (same_layout z z1) as Hl by (by apply same_layout_alter).
  destruct (wal_ f) as [w|] eqn:Ew.
  - exists (Some w). eexists. split; [reflexivity|]. exists z. split; [apply wal_opened_refl|].
    split; [intros _; cbn; by rewrite Ew|]. destruct e, f. cbn in *. by subst.
  - pose proof (GetWAL_run (e_start_ e) z1) as Hrun.
    specialize (Hrun ltac:(pose proof Hl as (_ & -> & _); by eapply same_layout_list_ok)).
    rewrite (wal_group_at_layout z z1) in Hrun by done. unfold loaded. cbn [existsb f_zbd f_file].
    unfold on_dev, zoom, bind. cbn -[GetWAL wal_group_at].
    destruct (wal_group_at z (e_start_ e)).
    + destruct Hrun as (w & z2 & -> & (c & d & ->)). exists (Some w). eexists. split; [reflexivity|].
      exists (set_write_channel_ptr c (set_be d z)). split; [by do 2 eexists|]. split; [done|]. by destruct e.
    + rewrite Hrun. exists None. eexists. split; [reflexivity|]. exists z.
      split; [apply wal_opened_refl|]. split; [done|]. destruct e, f. cbn in *. by subst.
Qed.

Lemma add_usage_layout es (s : Zbd D) : same_layout s (set_heap (add_usage es (zone_heap s)) s).
Proof.
  revert s. induction es as [|e es IH]; intros s; [done|].
  eapply same_layout_trans; [|apply (IH (set_heap _ s))].
  by apply (same_layout_alter s (e_zone_ e)
    (fun zn => set_used_capacity (used_capacity_ zn +64 e_length_ e) zn)).
Qed.

Lemma loaded_layout es s w s' : loaded es s w s' -> same_layout (f_zbd s) (f_zbd s').
Proof.
  intros (z & Hz & _ & ->). eapply same_layout_trans; [by apply wal_opened_layout|].
  apply add_usage_layout.
Qed.

Lemma loaded_app es es' s w s1 w' s' :
  loaded es s w s1 -> loaded es' s1 w' s' -> loaded (es ++ es') s w' s'.
Proof.
  intros Hl. pose proof (loaded_layout _ _ _ _ Hl) as Hlay. revert Hl.
  intros (z & (c & d & ->) & Hn & ->) (z' & (c' & d' & ->) & Hn' & ->). cbn in *.
  exists (set_write_channel_ptr c' (set_be d' (f_zbd s))). split; [by do 2 eexists|]. split.
  - rewrite existsb_app. intros [H1 H2]%orb_false_iff. destruct (Hn H1) as [Hz ->].
    destruct Hn' as [Hz' ->].
    { rewrite <- H2. apply existsb_ext. intros e. by apply wal_group_at_layout. }
    split; [|done]. rewrite Hz in Hz'. destruct (f_zbd s).
    unfold set_write_channel_ptr, set_be, set_heap in *. cbn in *. congruence.
  - unfold add_usage. rewrite foldl_app. by rewrite <- app_assoc.
Qed.

Lemma load_extents_run wl p es (s : FSt D L X) :
  extents_located (f_zbd s) es ->
  exists w s', foldM run_field (wl, p) (FExtent <$> es) s = Ok (wl, padding p es) s' /\ loaded es s w s'.
Proof.
  revert p s. induction es as [|e es IH]; intros p s Hl.
  { exists (wal_ (f_file s)), s. split; [done|]. exists (f_zbd s). split; [apply wal_opened_refl|].
    split; [done|]. destruct s as [[] [] ? ?]. cbn. by rewrite app_nil_r. }
  assert (extents_located (f_zbd s) [e] /\ extents_located (f_zbd s) es) as [He Hes].
  { destruct Hl as (? & ? & [? ?]%Forall_cons). split; (split; [done|]; split; [done|]); [by apply Forall_singleton|done]. }
  destruct (load_extent_run p e s He) as (w & s1 & Hrun & Hld).
  destruct (IH (padding p [e]) s1) as (w' & s' & Hrun' & Hld').
  { eapply extents_located_layout; [by eapply loaded_layout|done]. }
  exists w', s'. split; [|by apply (loaded_app [e] es s w s1)].
  cbn [fmap list_fmap foldM run_field]. rewrite bind_assoc. cbn [snd fst].
  erewrite bind_ok by exact Hrun. exact Hrun'.
Qed.

Lemma load_links_run p ns (s : FSt D L X) :
  foldM run_field p (FLink <$> ns) s
  = Ok p (mkFSt (f_zbd s) (set_linkfiles (linkfiles_ (f_file s) ++ ns) (f_file s)) (f_buf s) (f_ctx s)).
Proof.
  revert s. induction ns as [|n ns IH]; intros s.
  - destruct s as [? [] ? ?]. cbn. by rewrite app_nil_r.
  - cbn [fmap list_fmap foldM run_field]. rewrite bind_assoc. erewrite bind_ok by done.
    unfold bind, ret. rewrite IH. cbn. by rewrite <- app_assoc.
Qed.

Definition file_ok (f : ZoneFile L) : Prop :=
  is_u 64 (file_id_ f) /\ is_u 64 (file_size_ f) /\ is_u 32 (zf_lifetime_ f) /\
  is_u 64 (wal_seq_ f) /\ - 2 ^ 63 <= m_time_ f < 2 ^ 63 /\ is_u 64 (extent_start_ f) /\
  Forall extent_ok (extents_ f) /\ Forall (fun n => 0 < zlen n < 2 ^ 32) (linkfiles_ f).

Lemma fields_of_ok k f : file_ok f -> Forall field_ok (fields_of k f).
Proof.
  intros (Hid & Hsz & Hlt & Hsq & Hmt & Hes & Hex & Hln). unfold fields_of.
  rewrite !Forall_app. split_and!.
  - by repeat (apply Forall_cons; split); try apply Forall_nil.
  - apply Forall_fmap. apply Forall_drop. done.
  - destruct (is_wal_ f); by repeat (apply Forall_cons; split); try apply Forall_nil.
  - by repeat (apply Forall_cons; split); try apply Forall_nil.
  - destruct (is_sparse_ f); by repeat (apply Forall_cons; split); try apply Forall_nil.
  - by apply Forall_fmap.
Qed.

(** The file [DecodeFrom] makes of the record of [f] from extent [k] on, with
    the log [w]: what is not in the record has its initial value. *)
Definition decoded (k : Z) (w : option L) (f : ZoneFile L) : ZoneFile L :=
  let es := zdrop k (extents_ f) in
  mkZoneFile es (linkfiles_ f) None (extent_start_ f) 0 (zf_lifetime_ f) kUnknown false
    (if is_wal_ f then wal_seq_ f else 0) w (mkChunk 1 0 0 []) 0
    (if is_wal_ f then (file_size_ f +64 padding 0 es) mod WAL_BARRIER else 0) 0 0
    (file_size_ f) (file_id_ f) (u32 (zlen es)) false (m_time_ f) (is_sparse_ f) false 0 0 0.

Lemma extents_located_drop s n es : extents_located s es -> extents_located s (zdrop n es).
Proof. intros (? & ? & ?). split; [done|]. split; [done|]. by apply Forall_drop. Qed.

(** The file [f] in the middle of decoding, and after it. *)
Lemma DecodeFrom_encoded k f id0 (z : Zbd D) buf (x : X) :
  file_ok f -> extents_located z (extents_ f) ->
  exists w z', wal_opened z z' /\
    (existsb (fun e => wal_group_at z (e_start_ e)) (zdrop k (extents_ f)) = false -> z' = z /\ w = None) /\
    DecodeFrom (EncodeTo [] k f) (mkFSt z (ZoneFile_new id0) buf x)
    = Ok tt (mkFSt (set_heap (add_usage (zdrop k (extents_ f)) (zone_heap z')) z')
               (decoded k w f) buf x).
Proof.
  intros Hok Hloc. rewrite EncodeTo_eq, app_nil_l.
  rewrite DecodeFrom_fields by (try apply Hok; by apply fields_of_ok).
  set (f1 := set_zf_lifetime (zf_lifetime_ f) (set_file_size (file_size_ f)
                (set_file_id (file_id_ f) (ZoneFile_new (L := L) id0)))).
  destruct (load_extents_run false 0 (zdrop k (extents_ f)) (mkFSt z f1 buf x))
    as (w & s2 & Hrun & (z' & Hop & Hn & ->)); [by apply extents_located_drop|].
  exists w, z'. split; [done|]. split; [done|].
  unfold bind at 1, mod_file at 1, modify. cbn [f_zbd f_file f_buf f_ctx] in *.
  unfold fields_of. unfold bind at 1. rewrite foldM_app.
  rewrite (bind_ok _ _ _ (false, 0) (mkFSt z f1 buf x)) by reflexivity.
  rewrite foldM_app. erewrite bind_ok by exact Hrun.
  destruct (is_wal_ f) eqn:Ew, (is_sparse_ f) eqn:Es;
    repeat (rewrite foldM_app; unfold bind at 1; cbn [foldM run_field mod_file modify ret bind]);
    rewrite load_links_run; cbn; unfold decoded; rewrite Ew, Es; reflexivity.
Qed.
End codec.

(** Decoding the record of a file gives the file back: identity, size,
    lifetime, times, sparseness, names, the extents from [k] on (all of them in
    a snapshot, the unsynced ones in an update) and the sequence number of a
    write-ahead log, for every file whose fields fit their types and whose
    extents lie in the zones they name.  Each zone accounts for the extents read,
    the file counts as synced, and nothing else of the device changes, except
    that a log is opened for a file with an extent in the first zone of a group
    of log zones. *)
Theorem file_codec_roundtrip {D L X} `{be : ZonedBlockDeviceBackend D L} {szd : SZDOnceLog D L}
    {cfg : BuildConfig} (k id0 : Z) (f : ZoneFile L) (z : Zbd D) (buf : bytes) (x : X) :
  file_ok f -> extents_located z (extents_ f) ->
  exists w z', wal_opened z z' /\
    (existsb (fun e => wal_group_at z (e_start_ e)) (zdrop k (extents_ f)) = false ->
       z' = z /\ w = None) /\
    DecodeFrom (EncodeTo [] k f) (mkFSt z (ZoneFile_new id0) buf x)
    = Ok tt (mkFSt (set_heap (add_usage (zdrop k (extents_ f)) (zone_heap z')) z')
               (decoded k w f) buf x).
Proof. apply DecodeFrom_encoded. Qed.

(** A small configuration, and a file with two extents and two names. *)
Definition cfg0 : BuildConfig.
Proof. refine {| SPARSE_BUFFER_SIZE_IN_KB := 4; WAL_BARRIER_SIZE_IN_KB := 8 |}. done. Defined.

Definition file1 : ZoneFile MemLog :=
  set_linkfiles [b_of "/db/000001.sst"; b_of "/db/link"]
    (set_extents [mkExtent 64 16 1; mkExtent 128 24 2]
       (set_file_size 40 (set_m_time (-5) (ZoneFile_new 7)))).

Lemma file1_ok : file_ok file1.
Proof.
  unfold file_ok, is_u. cbn [file1 set_linkfiles set_extents set_file_size set_m_time
    ZoneFile_new file_id_ file_size_ zf_lifetime_ wal_seq_ m_time_ extent_start_ extents_ linkfiles_].
  unfold WLTH_NOT_SET, NO_EXTENT. do 6 (split; [lia|]).
  split; repeat (apply Forall_cons; split; [repeat split; cbn; lia|]); by apply Forall_nil.
Qed.

Lemma file1_located : extents_located (be := be0) zbd1 (extents_ file1).
Proof.
  split; [apply (io_zones_ok_intro zbd1); reflexivity|]. split; [by apply Forall_nil|].
  repeat (apply Forall_cons; split; [reflexivity|]). by apply Forall_nil.
Qed.

Lemma file_codec_roundtrip_witness :
  exists w z', wal_opened zbd1 z' /\
    (existsb (fun e => wal_group_at (be := be0) zbd1 (e_start_ e)) (zdrop 1 (extents_ file1)) = false ->
       z' = zbd1 /\ w = None) /\
    DecodeFrom (be := be0) (szd := szd0) (cfg := cfg0) (EncodeTo [] 1 file1)
      (mkFSt zbd1 (ZoneFile_new 0) [] tt)
    = Ok tt (mkFSt (set_heap (add_usage (zdrop 1 (extents_ file1)) (zone_heap z')) z')
               (decoded (cfg := cfg0) 1 w file1) [] tt).
Proof.
  apply (file_codec_roundtrip (be := be0) (szd := szd0) (cfg := cfg0)).
  - apply file1_ok.
  - apply file1_located.
Defined.
