(* ===== verification/FileWrite.v ===== *)
(** * Writing files

    The write path of [ZoneFile] and [ZonedWritableFile] (io_zenfs.cc).  The
    buffer of the writable file is part of the state the methods run on, since
    they pad it and move data in it in place. *)

From S2P Require Import Prelude Status Coding Device MemDevice Zone Zbd ZoneFile.

Section write.
Context {D L X : Type} `{be : ZonedBlockDeviceBackend D L} {szd : SZDOnceLog D L}
  {cfg : BuildConfig} {mw : MetadataWriter D L X}.
Abbreviation FM := (M (FSt D L X)).

(** ** The buffer *)

Definition get_buf : FM bytes := gets f_buf.

(** [memcpy] or [memset] into the buffer; out of its bounds it is undefined. *)
Definition buf_write (pos : Z) (data : bytes) : FM unit :=
  b <- get_buf ;;
  if (0 <=? pos) && (pos + zlen data <=? zlen b)
  then modify (fun s => mkFSt (f_zbd s) (f_file s) (splice pos data (f_buf s)) (f_ctx s))
  else stuckM Undefined.

(** [n] bytes of the buffer at [pos]. *)
Definition buf_read (pos n : Z) : FM bytes :=
  b <- get_buf ;;
  if (0 <=? pos) && (0 <=? n) && (pos + n <=? zlen b) then ret (ztake n (zdrop pos b))
  else stuckM Undefined.

(** [memmove(buffer + dst, buffer + src, n)] *)
Definition buf_move (dst src n : Z) : FM unit :=
  data <- buf_read src n ;; buf_write dst data.

(** ** Zones for writing *)

Definition PersistMetadata : FM unit := Persist.

(** The extents' zone with the highest number, the first one of them. *)
Definition last_zone (es : list ZoneExtent) : M (Zbd D) (option nat) :=
  foldM (fun z e =>
    match z with
    | None => ret (Some (e_zone_ e))
    | Some z =>
        a <- GetZoneNr (e_zone_ e) ;;
        b <- GetZoneNr z ;;
        ret (Some (if b <? a then e_zone_ e else z))
    end) None es.

Definition AllocateNewZone : FM unit :=
  f <- get_file ;;
  zone <- (
    if is_wal_ f then
      z <- on_dev (last_zone (extents_ f)) ;;
      let* (s, zone, wal) := on_dev (AllocateWALZone (wal_ f) z) in
      mod_file (set_wal wal) ;;
      returnS s ;;
      ret zone
    else on_dev (AllocateIOZone (zf_lifetime_ f) (io_type_ f))) ;;
  match zone with
  | None => fail (NoSpace "Zone allocation failure\n")
  | Some zone =>
      SetActiveZone zone ;;
      zn <- on_dev (get_zone zone) ;;
      mod_file (fun f => set_extent_filepos (file_size_ f) (set_extent_start (wp_ zn) f)) ;;
      PersistMetadata
  end.

(** [if (active_zone_ == NULL) AllocateNewZone();] *)
Definition ensure_zone : FM unit :=
  f <- get_file ;;
  match active_zone_ f with None => AllocateNewZone | Some _ => ret tt end.

(** The zone being written. *)
Definition active_zone : FM (nat * Zone) :=
  f <- get_file ;;
  z <- deref (active_zone_ f) ;;
  zn <- on_dev (get_zone z) ;;
  ret (z, zn).

(** [active_zone_->ZoneAppend(data, size, wal_)] *)
Definition zone_append (z : nat) (data : bytes) : FM unit :=
  f <- get_file ;;
  w <- deref (wal_ f) ;;
  w' <- on_dev (ZoneAppend z data w) ;;
  mod_file (set_wal (Some w')).

(** What the loops do after a write of [extent_length] bytes. *)
Definition record_extent (start extent_length : Z) (z : nat) : FM unit :=
  push_extent (mkExtent start extent_length z) ;;
  zn <- on_dev (get_zone z) ;;
  mod_file (set_extent_start (wp_ zn)) ;;
  on_dev (add_used z extent_length) ;;
  mod_file (fun f => set_file_size (file_size_ f +64 extent_length) f).

Definition sync_barrier : FM unit :=
  mod_file (fun f => set_wal_syncs (wal_syncs_ f +64 1) (set_append_bytes 0 f)).
Definition count_write : FM unit := mod_file (fun f => set_wal_writes (wal_writes_ f +64 1) f).
Definition add_append_bytes (n : Z) : FM unit :=
  mod_file (fun f => set_append_bytes (append_bytes_since_last_barrier_ f +64 n) f).

(** The size of one write: the zone and the next barrier limit it. *)
Definition limit_write (wr_size : Z) (zn : Zone) (f : ZoneFile L) : Z :=
  let wr_size := if capacity_ zn <? wr_size then u32 (capacity_ zn) else wr_size in
  let room := WAL_BARRIER -64 append_bytes_since_last_barrier_ f in
  if is_wal_ f && (room <? wr_size) then u32 room else wr_size.

Definition pad_to (block_sz wr_size : Z) : Z :=
  if wr_size mod block_sz =? 0 then 0 else block_sz - wr_size mod block_sz.

(** ** Appending without headers *)

(** [while (left)] *)
Fixpoint BufferedAppend_loop (n : nat) (left : Z) : FM unit :=
  if left =? 0 then ret tt else
  match n with
  | O => stuckM OutOfFuel
  | S n' =>
      let* (z, zn) := active_zone in
      f <- get_file ;;
      let wr_size := limit_write left zn f in
      let pad_sz := pad_to block_sz_ wr_size in
      when (negb (pad_sz =? 0)) (buf_write wr_size (zeros pad_sz)) ;;
      (if is_wal_ f then
         when (WAL_BARRIER <=? append_bytes_since_last_barrier_ f) (wal_call szd_Sync ;; sync_barrier) ;;
         count_write ;;
         data <- buf_read 0 (wr_size + pad_sz) ;;
         r <- attempt (zone_append z data) ;;
         add_append_bytes (wr_size + pad_sz) ;;
         returnS (status_of r)
       else
         data <- buf_read 0 (wr_size + pad_sz) ;;
         on_dev (Append z data)) ;;
      f <- get_file ;;
      record_extent (extent_start_ f) wr_size z ;;
      let left := left -32 wr_size in
      zn <- on_dev (get_zone z) ;;
      (if capacity_ zn =? 0 then
         CloseActiveZone ;;
         when (negb (left =? 0)) (buf_move 0 wr_size left) ;;
         AllocateNewZone
       else ret tt) ;;
      BufferedAppend_loop n' left
  end.

Definition BufferedAppend (data_size : Z) : FM unit :=
  ensure_zone ;; BufferedAppend_loop loop_bound data_size.

(** ** Appending with headers *)

(** The caller reserves the header at the front of the buffer. *)
Fixpoint SparseAppend_loop (n : nat) (left : Z) : FM unit :=
  if left =? 0 then ret tt else
  match n with
  | O => stuckM OutOfFuel
  | S n' =>
      f <- get_file ;;
      let header_size := header_size (is_wal_ f) in
      when (is_wal_ f && (WAL_BARRIER <=? append_bytes_since_last_barrier_ f))
        (WALSync ;; sync_barrier) ;;
      count_write ;;
      let* (z, zn) := active_zone in
      f <- get_file ;;
      let wr_size := limit_write (left +32 header_size) zn f in
      let pad_sz := pad_to 4096 wr_size in
      when (negb (pad_sz =? 0)) (buf_write wr_size (zeros pad_sz)) ;;
      let extent_length := wr_size -64 header_size in
      buf_write 0 (EncodeFixed64 kLittleEndian extent_length) ;;
      buf_write 8 (EncodeFixed64 kLittleEndian (wal_seq_ f)) ;;
      mod_file (set_wal_seq (wal_seq_ f +64 1)) ;;
      data <- buf_read 0 (wr_size + pad_sz) ;;
      (if is_wal_ f then zone_append z data ;; add_append_bytes (wr_size + pad_sz)
       else on_dev (Append z data)) ;;
      f <- get_file ;;
      record_extent (extent_start_ f +64 header_size) extent_length z ;;
      let left := left -32 extent_length in
      zn <- on_dev (get_zone z) ;;
      (if capacity_ zn =? 0 then
         CloseActiveZone ;;
         when (negb (left =? 0)) (buf_move header_size wr_size left) ;;
         AllocateNewZone
       else ret tt) ;;
      SparseAppend_loop n' left
  end.

Definition SparseAppend (data_size : Z) : FM unit :=
  ensure_zone ;; SparseAppend_loop loop_bound data_size.

(** ** Appending without a buffer *)

(** [data] is what is left to write. *)
Fixpoint Append_direct_loop (n : nat) (data : bytes) : FM unit :=
  if zlen data =? 0 then ret tt else
  match n with
  | O => stuckM OutOfFuel
  | S n' =>
      let* (_, zn) := active_zone in
      (if capacity_ zn =? 0 then PushExtent ;; CloseActiveZone ;; AllocateNewZone else ret tt) ;;
      let* (z, zn) := active_zone in
      let wr_size := if capacity_ zn <? zlen data then u32 (capacity_ zn) else zlen data in
      on_dev (Append z (ztake wr_size data)) ;;
      mod_file (fun f => set_file_size (file_size_ f +64 wr_size) f) ;;
      Append_direct_loop n' (zdrop wr_size data)
  end.

(** [ZoneFile::Append]; [left] is 32 bits wide. *)
Definition Append_direct (data : bytes) : FM unit :=
  ensure_zone ;; Append_direct_loop loop_bound (ztake (u32 (zlen data)) data).

(** ** Closing *)

Definition CloseWR : FM unit :=
  mod_file (set_extent_start NO_EXTENT) ;;
  PersistMetadata ;;
  ReleaseWRLock ;;
  CloseActiveZone.

(** ** Migration *)

(** [while (length > 0)]; the status of [Append] is not looked at.  The message of
    the read error is [strerror(errno)] in the code. *)
Fixpoint MigrateData_loop (n : nat) (offset length read_sz : Z) (target_zone : nat) : FM unit :=
  if 0 <? length then
    match n with
    | O => stuckM OutOfFuel
    | S n' =>
        let read_sz := if read_sz <? length then read_sz else length in
        let pad_sz := pad_to block_sz_ read_sz in
        let* (r, buf) := on_dev (Zbd_Read offset (read_sz + pad_sz) true) in
        if r <? 0 then fail (IOError "read error") else
        attempt (on_dev (Append target_zone buf)) ;;
        MigrateData_loop n' (offset +64 r) (length -32 read_sz) read_sz target_zone
    end
  else ret tt.

Definition MigrateData (offset length : Z) (target_zone : nat) : FM unit :=
  if negb (offset mod block_sz_ =? 0)
  then fail (IOError "MigrateData offset is not aligned!\n")
  else MigrateData_loop loop_bound offset length (Z.shiftl 128 10) target_zone.
End write.

(** ** Writable files *)

(** [ZonedWritableFile]; its memory is the buffer of the state, of which
    [buffer] starts at [wf_offset]. *)
Record WFile := mkWFile {
  wf_buffered : bool; wf_offset : Z; wf_buffer_sz : Z; wf_buffer_pos : Z; wf_wp : Z; wf_open : bool
}.

Section writable.
Context {D L X : Type} `{be : ZonedBlockDeviceBackend D L} {szd : SZDOnceLog D L}
  {cfg : BuildConfig} {mw : MetadataWriter D L X}.
Abbreviation FM := (M (FSt D L X)).
Abbreviation WM := (M (FSt D L X * WFile)).

Definition on_file {A} (m : FM A) : WM A := zoom fst (fun s w => (s, w.2)) m.
Definition wfile : WM WFile := gets snd.
Definition mod_wfile (g : WFile -> WFile) : WM unit := modify (fun s => (s.1, g s.2)).

(** The constructor; [mem] is the memory it gets, whatever it holds. *)
Definition ZonedWritableFile_new (buffered : bool) (mem : Z -> byte) (s : FSt D L X) :
  FSt D L X * WFile :=
  let f := f_file s in
  let sparse_buffer_sz := SPARSE_BUFFER_SIZE_IN_KB *64 KiB +64 block_sz_ in
  let header_size := header_size (is_wal_ f) in
  let '(sz, off, buffer_sz) :=
    if buffered then
      if is_sparse_ f
      then (sparse_buffer_sz, header_size, (sparse_buffer_sz -64 header_size) -64 block_sz_)
      else (1024 * 1024, 0, 1024 * 1024)
    else (0, 0, 0) in
  (mkFSt (f_zbd s) f (range mem 0 sz) (f_ctx s), mkWFile buffered off buffer_sz 0 (file_size_ f) true).

Definition set_buffer_pos p w :=
  mkWFile (wf_buffered w) (wf_offset w) (wf_buffer_sz w) p (wf_wp w) (wf_open w).
Definition set_wf_wp p w :=
  mkWFile (wf_buffered w) (wf_offset w) (wf_buffer_sz w) (wf_buffer_pos w) p (wf_open w).
Definition set_closed w :=
  mkWFile (wf_buffered w) (wf_offset w) (wf_buffer_sz w) (wf_buffer_pos w) (wf_wp w) false.

Definition FlushBuffer : WM unit :=
  w <- wfile ;;
  if wf_buffer_pos w =? 0 then ret tt else
  f <- on_file get_file ;;
  (if is_sparse_ f then on_file (SparseAppend (wf_buffer_pos w))
   else on_file (BufferedAppend (wf_buffer_pos w))) ;;
  mod_wfile (fun w => set_buffer_pos 0 (set_wf_wp (wf_wp w +64 wf_buffer_pos w) w)).

(** [while (data_left)] *)
Fixpoint BufferedWrite_loop (n : nat) (data : bytes) : WM unit :=
  if zlen data =? 0 then ret tt else
  match n with
  | O => stuckM OutOfFuel
  | S n' =>
      w <- wfile ;;
      let buffer_left := u32 (wf_buffer_sz w - wf_buffer_pos w) in
      (if buffer_left =? 0 then FlushBuffer else ret tt) ;;
      let buffer_left := if buffer_left =? 0 then u32 (wf_buffer_sz w) else buffer_left in
      let to_buffer := if buffer_left <? zlen data then buffer_left else zlen data in
      w <- wfile ;;
      on_file (buf_write (wf_offset w + wf_buffer_pos w) (ztake to_buffer data)) ;;
      mod_wfile (fun w => set_buffer_pos (wf_buffer_pos w +32 to_buffer) w) ;;
      BufferedWrite_loop n' (zdrop to_buffer data)
  end.
Definition BufferedWrite (slice : bytes) : WM unit :=
  BufferedWrite_loop (S (length slice)) (ztake (u32 (zlen slice)) slice).

Definition DataSync : WM unit :=
  f <- on_file get_file ;;
  (if is_wal_ f then attempt (on_file WALSync) ;; ret tt else ret tt) ;;
  w <- wfile ;;
  if wf_buffered w then
    FlushBuffer ;;
    f <- on_file get_file ;;
    if negb (is_sparse_ f) then on_file PersistMetadata else ret tt
  else on_file PushExtent.

Definition Fsync : WM unit :=
  DataSync ;;
  w <- wfile ;;
  f <- on_file get_file ;;
  if wf_buffered w && negb (is_sparse_ f) then ret tt else on_file PersistMetadata.

Definition WFile_Sync : WM unit := DataSync.

Definition RangeSync (offset nbytes : Z) : WM unit :=
  w <- wfile ;; if wf_wp w <? offset +64 nbytes then DataSync else ret tt.

Definition Truncate (size : Z) : WM unit := on_file (mod_file (set_file_size size)).

Definition CloseInternal : WM unit :=
  w <- wfile ;;
  if negb (wf_open w) then ret tt else
  DataSync ;;
  on_file CloseWR ;;
  mod_wfile set_closed.

(** [~ZonedWritableFile()] *)
Definition ZonedWritableFile_delete : WM unit :=
  r <- attempt CloseInternal ;;
  match r with
  | inl s => on_file (on_dev (SetZoneDeferredStatus s))
  | inr _ => ret tt
  end.

Definition WFile_Append (data : bytes) : WM unit :=
  w <- wfile ;;
  if wf_buffered w then BufferedWrite data
  else on_file (Append_direct data) ;;
       mod_wfile (fun w => set_wf_wp (wf_wp w +64 zlen data) w).

Definition PositionedAppend (data : bytes) (offset : Z) : WM unit :=
  w <- wfile ;;
  if negb (offset =? wf_wp w) then fail (IOError "positioned append not at write pointer")
  else WFile_Append data.
End writable.
