(* ===== verification/FileRead.v ===== *)
(** * Reading files

    The read path of [ZoneFile] and the readers (io_zenfs.cc): positioned reads
    through the extents, and for write-ahead logs through the chunks that
    [RecoverWALChunk] reads back and sorts. *)

From stdpp Require Import sorting.
From S2P Require Import Prelude Status Coding Device MemDevice Zone Zbd ZoneFile.

(** ** Extents *)

(** The extent at [file_offset], and the offset on the device. *)
Fixpoint GetExtent (es : list ZoneExtent) (file_offset : Z) : option (ZoneExtent * Z) :=
  match es with
  | [] => None
  | e :: es' =>
      if file_offset <? e_length_ e then Some (e, e_start_ e +64 file_offset)
      else GetExtent es' (file_offset -64 e_length_ e)
  end.

(** The same from extent [index] on; the offset is the one in the extent. *)
Fixpoint GetWALExtent_loop (es : list ZoneExtent) (i file_offset : Z) :
  option (ZoneExtent * Z * Z) :=
  match es with
  | [] => None
  | e :: es' =>
      if file_offset <? e_length_ e then Some (e, file_offset, i)
      else GetWALExtent_loop es' (i + 1) (file_offset -64 e_length_ e)
  end.
Definition GetWALExtent (es : list ZoneExtent) (file_offset index : Z) :
  option (ZoneExtent * Z * Z) :=
  GetWALExtent_loop (zdrop (u32 index) es) (u32 index) file_offset.

(** ** Chunks of a write-ahead log *)

Definition shift_block_size (blocksize : Z) : Z := if blocksize =? 512 then 9 else 12.

Definition by_seq (a b : Z * bytes) : Prop := a.1 <= b.1.
#[export] Instance by_seq_dec : RelDecision by_seq.
Proof. intros a b. unfold by_seq. apply _. Defined.
#[export] Instance by_seq_total : Total by_seq.
Proof. intros a b. unfold by_seq. lia. Qed.
#[export] Instance by_seq_trans : Transitive by_seq.
Proof. intros a b c. unfold by_seq. lia. Qed.

Inductive chunk_result :=
  | Entries (entries : list (Z * bytes))
  | Overshoot (entries : list (Z * bytes))
  | OutOfRange.   (* reads beyond the chunk *)

(** [while (r < str_size && br < str_size)]: [ptr] is what is left of the chunk,
    [first] tells whether [begin] is the write tail.  Every round consumes a
    header. *)
Fixpoint decode_chunk (n : nat) (first : bool) (str_size r br : Z) (ptr : bytes)
    (acc : list (Z * bytes)) : chunk_result :=
  let finish := if str_size <? r then Overshoot acc else Entries acc in
  if (r <? str_size) && (br <? str_size) then
    match n with
    | O => finish
    | S n' =>
        if zlen ptr <? 16 then OutOfRange else
        let size := DecodeFixed64 kLittleEndian ptr in
        let seqn := DecodeFixed64 kLittleEndian (zdrop 8 ptr) in
        if size =? 0 then finish else
        if (seqn =? 0) && negb first then finish else
        if zlen ptr <? 16 + size then OutOfRange else
        decode_chunk n' first str_size (r + 16 + size) (br + size) (zdrop (16 + size) ptr)
          (acc ++ [(seqn, ztake size (zdrop 16 ptr))])
    end
  else finish.

Section read.
Context {D L X : Type} `{be : ZonedBlockDeviceBackend D L} {szd : SZDOnceLog D L}
  {cfg : BuildConfig}.
Abbreviation FM := (M (FSt D L X)).

Definition set_entries (es : list (Z * bytes)) (f : ZoneFile L) : ZoneFile L :=
  let c := loaded_wal_chunks_ f in
  set_loaded_wal_chunks (mkChunk (lwc_start_ c) (lwc_end_ c) (lwc_jump_ c) es) f.

(** [wal_->GetWriteTail() << shift_block_size(GetBlockSize())] *)
Definition wal_tail (w : L) : Z := u64 (Z.shiftl (szd_GetWriteTail w) (shift_block_size block_sz_)).
Definition wal_head (w : L) : Z := u64 (Z.shiftl (szd_GetWriteHead w) (shift_block_size block_sz_)).

(** The entries of [begin_, end_), sorted by sequence number.  [std::sort] leaves
    the order of equal sequence numbers open, which a log does not have. *)
Definition RecoverWALChunk (begin_ end_ : Z) : FM unit :=
  let str_size := end_ -64 begin_ in
  mod_file (set_entries []) ;;
  s <- get ;;
  w <- deref (wal_ (f_file s)) ;;
  let '(b, data) :=
    szd_Read (Z.shiftr begin_ (shift_block_size block_sz_)) str_size w (zbd_be_ (f_zbd s)) in
  if negb b then fail (IOError "Error WAL read I/O") else
  match decode_chunk (S (length data)) (begin_ <=? wal_tail w) str_size 0 0 (ztake str_size data) [] with
  | OutOfRange => stuckM Undefined
  | Overshoot entries => mod_file (set_entries entries) ;; fail (Corruption "Overshooting WAL\n")
  | Entries entries => mod_file (set_entries (merge_sort by_seq entries))
  end.

(** [do ... while (...)] *)
Fixpoint TryRecoverWAL_loop (n : nat) (offset : Z) : FM unit :=
  match n with
  | O => stuckM OutOfFuel
  | S n' =>
      f <- get_file ;;
      w <- deref (wal_ f) ;;
      let jump := zlen (wal_entries_ (loaded_wal_chunks_ f)) in
      let lba_in := Z.min (wal_tail w +64 (chunk_id_ f *64 WAL_BARRIER)) (wal_head w) in
      let lba_out := Z.min (wal_tail w +64 ((chunk_id_ f +64 1) *64 WAL_BARRIER)) (wal_head w) in
      if lba_out <=? lba_in then ret tt else
      RecoverWALChunk lba_in lba_out ;;
      f <- get_file ;;
      let c := loaded_wal_chunks_ f in
      let extent_size := foldl (fun n e => n +64 zlen e.2) 0 (wal_entries_ c) in
      mod_file (fun f => set_chunk_id (chunk_id_ f +64 1)
        (set_loaded_wal_chunks (mkChunk (lwc_end_ c) (lwc_end_ c +64 extent_size)
           (lwc_jump_ c +64 jump) (wal_entries_ c)) f)) ;;
      f <- get_file ;;
      let c := loaded_wal_chunks_ f in
      if negb (zlen (wal_entries_ c) =? 0) && (lwc_end_ c <? offset)
      then TryRecoverWAL_loop n' offset else ret tt
  end.

Definition TryRecoverWAL (offset : Z) : FM unit :=
  f <- get_file ;;
  let c := loaded_wal_chunks_ f in
  if negb (zlen (wal_entries_ c) =? 0) && (offset <? lwc_end_ c) then ret tt else
  match wal_ f with
  | Some _ => ret tt
  | None => e <- deref (head (extents_ f)) ;; open_wal (e_zone_ e)
  end ;;
  TryRecoverWAL_loop loop_bound (Z.min offset (file_size_ f)).

(** ** Positioned reads *)

Record cursor := mkCursor { c_r_off : Z; c_extent_end : Z; c_extend_id : Z }.

(** Moves to the extent after the one that ends at the cursor; [None] at the end
    of the synced data. *)
Definition next_extent (iswal : bool) (offset : Z) (c : cursor) : FM (option cursor) :=
  (if iswal then TryRecoverWAL offset else ret tt) ;;
  f <- get_file ;;
  if iswal then
    match GetWALExtent (extents_ f) (c_r_off c) (c_extend_id c) with
    | Some (e, _, i) => ret (Some (mkCursor 0 (e_length_ e) i))
    | None => ret None
    end
  else
    match GetExtent (extents_ f) offset with
    | Some (e, _) => ret (Some (mkCursor (e_start_ e) (e_start_ e +64 e_length_ e) (c_extend_id c)))
    | None => ret None
    end.

(** Reads [pread_sz] bytes at the cursor: the [ssize_t] and the bytes. *)
Definition read_piece (iswal direct : bool) (pread_sz : Z) (c : cursor) : FM (Z * bytes) :=
  if iswal then
    f <- get_file ;;
    let ch := loaded_wal_chunks_ f in
    let i := c_extend_id c -64 lwc_jump_ ch in
    e <- deref (wal_entries_ ch !! Z.to_nat i) ;;
    if zlen e.2 <? c_r_off c + pread_sz then stuckM Undefined
    else ret (pread_sz, ztake pread_sz (zdrop (c_r_off c) e.2))
  else on_dev (Zbd_Read (c_r_off c) pread_sz direct).

(** [while (read != r_sz)]: the last [r], what was read, the cursor. *)
Fixpoint PositionedRead_loop (n : nat) (iswal direct : bool) (offset r_sz : Z) (r : Z)
    (acc : bytes) (c : cursor) : FM (Z * bytes * cursor) :=
  if zlen acc =? r_sz then ret (r, acc, c) else
  match n with
  | O => stuckM OutOfFuel
  | S n' =>
      let pread_sz := r_sz -64 zlen acc in
      let pread_sz :=
        if c_extent_end c <? pread_sz +64 c_r_off c then c_extent_end c -64 c_r_off c else pread_sz in
      let bytes_to_align :=
        if direct && negb (pread_sz mod block_sz_ =? 0) then block_sz_ - pread_sz mod block_sz_ else 0 in
      let* (r, data) := read_piece iswal direct (pread_sz +64 bytes_to_align) c in
      if r <=? 0 then ret (r, acc, c) else
      let pread_sz := if r <=? pread_sz then r else pread_sz in
      let acc := acc ++ ztake pread_sz data in
      let c := mkCursor (c_r_off c +64 pread_sz) (c_extent_end c) (c_extend_id c) in
      if negb (zlen acc =? r_sz) && (c_r_off c =? c_extent_end c) then
        next <- next_extent iswal (offset +64 zlen acc) c ;;
        match next with
        | Some c => PositionedRead_loop n' iswal direct offset r_sz r acc c
        | None => ret (r, acc, c)
        end
      else PositionedRead_loop n' iswal direct offset r_sz r acc c
  end.

(** [WALPositionedRead]: the status and the slice it returns. *)
Definition WALPositionedRead (offset n : Z) (direct : bool) : FM (IOStatus * bytes) :=
  f <- get_file ;;
  name <- GetFilename ;;
  let iswal := ends_with name (b_of ".log") in
  if file_size_ f <=? offset then ret (OK, []) else
  (if iswal then TryRecoverWAL offset else ret tt) ;;
  f <- get_file ;;
  let start :=
    if iswal then
      match GetWALExtent (extents_ f) 0 (reader_offset_index_ f) with
      | Some (e, _, i) => Some (mkCursor (reader_offset_ f) (e_length_ e) i)
      | None => None
      end
    else
      match GetExtent (extents_ f) offset with
      | Some (e, r_off) => Some (mkCursor r_off (e_start_ e +64 e_length_ e) 0)
      | None => None
      end in
  match start with
  | None => ret (OK, [])
  | Some c =>
      let r_sz := if file_size_ f <? offset +64 n then file_size_ f -64 offset else n in
      let* (r, acc, c) := PositionedRead_loop loop_bound iswal direct offset r_sz 0 [] c in
      c <- (if iswal && (c_r_off c =? c_extent_end c) then
              next <- next_extent iswal (offset +64 zlen acc) c ;;
              ret (default c next)
            else ret c) ;;
      let '(s, acc) := if r <? 0 then (IOError "pread error\n", []) else (OK, acc) in
      (if iswal then mod_file (set_reader (c_r_off c) (c_extend_id c)) else ret tt) ;;
      mod_file (set_last_read (offset +64 zlen acc)) ;;
      ret (s, acc)
  end.

Definition PositionedRead := WALPositionedRead.

(** The reader [ZoneFile] had before logs got their own path, which the sources
    keep: the loop has [r_off] and [extent_end] as its state. *)
Fixpoint NormalRead_loop (n : nat) (direct : bool) (offset r_sz : Z) (r : Z) (acc : bytes)
    (r_off extent_end : Z) : FM (Z * bytes) :=
  if zlen acc =? r_sz then ret (r, acc) else
  match n with
  | O => stuckM OutOfFuel
  | S n' =>
      let pread_sz := r_sz -64 zlen acc in
      let pread_sz :=
        if extent_end <? pread_sz +64 r_off then extent_end -64 r_off else pread_sz in
      let aligned := pread_sz mod block_sz_ =? 0 in
      let bytes_to_align := if direct && negb aligned then block_sz_ - pread_sz mod block_sz_ else 0 in
      let aligned := if direct && negb aligned then true else aligned in
      let* (r, data) := on_dev (Zbd_Read r_off (pread_sz +64 bytes_to_align) (direct && aligned)) in
      if r <=? 0 then ret (r, acc) else
      let pread_sz := if r <=? pread_sz then r else pread_sz in
      let acc := acc ++ ztake pread_sz data in
      let r_off := r_off +64 pread_sz in
      if negb (zlen acc =? r_sz) && (r_off =? extent_end) then
        f <- get_file ;;
        match GetExtent (extents_ f) (offset +64 zlen acc) with
        | None => ret (r, acc)
        | Some (e, _) =>
            NormalRead_loop n' direct offset r_sz r acc (e_start_ e) (e_start_ e +64 e_length_ e)
        end
      else NormalRead_loop n' direct offset r_sz r acc r_off extent_end
  end.

Definition NormalPositionedRead (offset n : Z) (direct : bool) : FM (IOStatus * bytes) :=
  f <- get_file ;;
  if file_size_ f <=? offset then ret (OK, []) else
  match GetExtent (extents_ f) offset with
  | None => ret (OK, [])
  | Some (e, r_off) =>
      let extent_end := if is_wal_ f then e_length_ e else e_start_ e +64 e_length_ e in
      let r_sz := if file_size_ f <? offset +64 n then file_size_ f -64 offset else n in
      let* (r, acc) := NormalRead_loop loop_bound direct offset r_sz 0 [] r_off extent_end in
      if r <? 0 then ret (IOError "pread error\n", []) else ret (OK, acc)
  end.

Fixpoint InvalidateCache_loop (n : nat) (offset left : Z) : FM unit :=
  if left =? 0 then ret tt else
  match n with
  | O => stuckM OutOfFuel
  | S n' =>
      f <- get_file ;;
      match GetExtent (extents_ f) offset with
      | None => fail (IOError "Extent not found while invalidating cache")
      | Some (e, dev_offset) =>
          let extent_end := e_start_ e +64 e_length_ e in
          let invalidate_size := Z.min left (extent_end -64 dev_offset) in
          on_dev (Zbd.InvalidateCache dev_offset invalidate_size) ;;
          InvalidateCache_loop n' (offset +64 invalidate_size) (left -64 invalidate_size)
      end
  end.
(** [ZoneFile::InvalidateCache] *)
Definition File_InvalidateCache (pos size : Z) : FM unit :=
  f <- get_file ;;
  InvalidateCache_loop loop_bound pos (if size =? 0 then file_size_ f else size).
End read.

(** ** Readers *)

Section readers.
Context {D L X : Type} `{be : ZonedBlockDeviceBackend D L} {szd : SZDOnceLog D L}
  {cfg : BuildConfig}.
Abbreviation FM := (M (FSt D L X)).

(** [ZonedSequentialFile]: the read position and [direct_]. *)
Record SeqFile := mkSeqFile { rp : Z; sf_direct : bool }.

Definition SeqFile_new (use_direct_reads : bool) (f : ZoneFile L) : SeqFile :=
  mkSeqFile 0 (use_direct_reads && negb (is_sparse_ f)).

Definition SeqFile_Read (sf : SeqFile) (n : Z) : FM (IOStatus * bytes * SeqFile) :=
  let* (s, result) := PositionedRead (rp sf) n (sf_direct sf) in
  ret (s, result, if ok s then mkSeqFile (rp sf +64 zlen result) (sf_direct sf) else sf).

Definition SeqFile_Skip (sf : SeqFile) (n : Z) : FM SeqFile :=
  f <- get_file ;;
  if file_size_ f <=? rp sf +64 n then fail (InvalidArgument "Skip beyond end of file")
  else ret (mkSeqFile (rp sf +64 n) (sf_direct sf)).

(** [ZonedRandomAccessFile::Read] *)
Definition RandomAccessFile_Read (direct_ : bool) (offset n : Z) : FM (IOStatus * bytes) :=
  PositionedRead offset n direct_.
End readers.

(** ** One round of the read loop *)

Section rounds.
Context {D L X : Type} `{be : ZonedBlockDeviceBackend D L} {szd : SZDOnceLog D L} {cfg : BuildConfig}.
Implicit Types s : FSt D L X.

Lemma PositionedRead_loop_done n iswal direct offset r_sz r acc c s :
  zlen acc = r_sz ->
  PositionedRead_loop n iswal direct offset r_sz r acc c s = Ok (r, acc, c) s.
Proof. intros <-. destruct n; cbn [PositionedRead_loop]; by rewrite Z.eqb_refl. Qed.

(** The read is cut at the end of the extent. *)
Lemma piece_size left off stop :
  0 <= left -> 0 <= off <= stop -> left + off < 2 ^ 64 -> stop < 2 ^ 64 ->
  (if stop <? left +64 off then stop -64 off else left) = Z.min left (stop - off).
Proof.
  intros. rewrite (u64_small (left + off)) by lia.
  destruct (Z.ltb_spec stop (left + off)); [rewrite u64_small|]; lia.
Qed.

(** [bytes_to_align] *)
Definition align_bytes (direct : bool) (m : Z) : Z :=
  if direct && negb (m mod block_sz_ =? 0) then block_sz_ - m mod block_sz_ else 0.

Lemma PositionedRead_round n iswal direct offset r_sz r acc c s data s' :
  let m := Z.min (r_sz - zlen acc) (c_extent_end c - c_r_off c) in
  let b := align_bytes direct m in
  zlen acc < r_sz -> 0 <= c_r_off c < c_extent_end c -> c_extent_end c < 2 ^ 64 ->
  r_sz - zlen acc + c_r_off c < 2 ^ 64 -> 0 <= b -> m + b < 2 ^ 64 ->
  read_piece iswal direct (m + b) c s = Ok (m + b, data) s' ->
  let acc' := acc ++ ztake m data in
  let c' := mkCursor (c_r_off c + m) (c_extent_end c) (c_extend_id c) in
  PositionedRead_loop (S n) iswal direct offset r_sz r acc c s
  = (if negb (zlen acc' =? r_sz) && (c_r_off c' =? c_extent_end c') then
       next <- next_extent iswal (offset +64 zlen acc') c' ;;
       match next with
       | Some c'' => PositionedRead_loop n iswal direct offset r_sz (m + b) acc' c''
       | None => ret (m + b, acc', c')
       end
     else PositionedRead_loop n iswal direct offset r_sz (m + b) acc' c') s'.
Proof.
  intros m b Ha Hc He Hu Hb Hmb Hrun. cbn [PositionedRead_loop]. pose proof (zlen_nonneg acc).
  destruct (Z.eqb_spec (zlen acc) r_sz); [lia|].
  rewrite (u64_small (r_sz - zlen acc)), piece_size by lia. fold m. fold (align_bytes direct m). fold b.
  rewrite (u64_small (m + b)) by lia. rewrite (bind_ok _ _ _ _ _ Hrun). cbv beta iota.
  destruct (Z.leb_spec (m + b) 0); [lia|].
  assert ((if m + b <=? m then m + b else m) = m) as -> by (destruct (Z.leb_spec (m + b) m); lia).
  by rewrite (u64_small (c_r_off c + m)) by lia.
Qed.

(** What a round adds to what was read. *)
Lemma read_join {A} (acc x y : list A) n :
  zlen x <= n -> (acc ++ x) ++ ztake (n - zlen x) y = acc ++ ztake n (x ++ y).
Proof. intros. by rewrite <- app_assoc, (ztake_app_ge n). Qed.
End rounds.
