(* ===== verification/WalRecovery.v ===== *)
(** * Recovery of write-ahead logs

    The appends of a chunk may reach the log in any order; every entry carries
    its size and its sequence number, and [RecoverWALChunk] sorts.  This file
    shows that chunks written without padding between their entries are
    recovered, and what happens to the others. *)

From stdpp Require Import sorting.
From S2P Require Import Prelude Status Coding Device MemDevice Zone Zbd ZoneFile FileRead ZoneFileProps.

(** ** Chunks *)

(** An entry as [SparseAppend] writes it, without padding. *)
Definition entry_bytes (e : Z * bytes) : bytes := le_split 8 (zlen e.2) ++ le_split 8 e.1 ++ e.2.
Definition chunk_bytes (es : list (Z * bytes)) : bytes := mjoin (entry_bytes <$> es).

Definition entry_ok (first : bool) (e : Z * bytes) : Prop :=
  0 < zlen e.2 < 2 ^ 64 /\ is_u 64 e.1 /\ (first = false -> e.1 <> 0).

(** What may follow the last entry: nothing, or padding that shows a size of 0. *)
Definition chunk_pad (pad : bytes) : Prop := pad = [] \/ exists rest, pad = zeros 16 ++ rest.

Lemma DecodeFixed64_le_split v rest :
  is_u 64 v -> DecodeFixed64 kLittleEndian (le_split 8 v ++ rest) = v.
Proof.
  intros Hv. unfold DecodeFixed64, kLittleEndian. rewrite memcpy_to_from. by apply u64_small.
Qed.

Lemma zdrop_le_split v rest : zdrop 8 (le_split 8 v ++ rest) = rest.
Proof. by apply zdrop_app'; rewrite zlen_le_split. Qed.

Lemma zlen_entry_bytes e : zlen (entry_bytes e) = 16 + zlen e.2.
Proof. unfold entry_bytes. rewrite !zlen_app, !zlen_le_split. lia. Qed.

Lemma decode_chunk_entry n first str_size r br e rest acc :
  entry_ok first e -> 0 <= r -> r < str_size -> br < str_size ->
  decode_chunk (S n) first str_size r br (entry_bytes e ++ rest) acc
  = decode_chunk n first str_size (r + 16 + zlen e.2) (br + zlen e.2) rest (acc ++ [e]).
Proof.
  intros ([Hpos Hlen] & Hseq & Hne) Hr H1 H2. cbn [decode_chunk].
  rewrite (proj2 (Z.ltb_lt r str_size)), (proj2 (Z.ltb_lt br str_size)) by done. cbn [andb].
  assert (zlen (entry_bytes e ++ rest) = 16 + zlen e.2 + zlen rest) as Hz
    by (rewrite zlen_app, zlen_entry_bytes; lia).
  pose proof (zlen_nonneg rest).
  destruct (Z.ltb_spec (zlen (entry_bytes e ++ rest)) 16); [lia|].
  assert (DecodeFixed64 kLittleEndian (entry_bytes e ++ rest) = zlen e.2) as ->.
  { unfold entry_bytes. rewrite <- app_assoc. apply DecodeFixed64_le_split. split; lia. }
  assert (zdrop 8 (entry_bytes e ++ rest) = le_split 8 e.1 ++ e.2 ++ rest) as ->.
  { unfold entry_bytes. by rewrite <- !app_assoc, zdrop_le_split. }
  rewrite DecodeFixed64_le_split by done.
  destruct (Z.eqb_spec (zlen e.2) 0); [lia|].
  assert ((e.1 =? 0) && negb first = false) as ->.
  { destruct first; [by rewrite andb_false_r|]. destruct (Z.eqb_spec e.1 0); [|done]. by destruct Hne. }
  destruct (Z.ltb_spec (zlen (entry_bytes e ++ rest)) (16 + zlen e.2)); [lia|].
  rewrite (zdrop_app' (16 + zlen e.2)) by (by rewrite zlen_entry_bytes).
  assert (zdrop 16 (entry_bytes e ++ rest) = e.2 ++ rest) as ->.
  { unfold entry_bytes. rewrite app_assoc, <- app_assoc. apply zdrop_app'.
    by rewrite zlen_app, !zlen_le_split. }
  rewrite ztake_app. by destruct e.
Qed.

Lemma decode_chunk_pad n first str_size r br pad acc :
  0 <= r -> br <= r -> r + zlen pad = str_size -> chunk_pad pad ->
  decode_chunk (S n) first str_size r br pad acc = Entries acc.
Proof.
  intros Hr Hbr Hlen Hpad. cbn [decode_chunk]. pose proof (zlen_nonneg pad).
  destruct (Z.ltb_spec str_size r); [lia|].
  destruct Hpad as [->|[rest ->]].
  - rewrite zlen_nil in Hlen. destruct (Z.ltb_spec r str_size); [lia|done].
  - rewrite zlen_app, zlen_zeros in Hlen by lia. pose proof (zlen_nonneg rest).
    destruct (_ && _); [|done]. rewrite zlen_app, zlen_zeros by lia.
    destruct (Z.ltb_spec (16 + zlen rest) 16); [lia|].
    change (zeros 16 ++ rest) with (le_split 8 0 ++ (le_split 8 0 ++ rest)).
    by rewrite DecodeFixed64_le_split.
Qed.

Lemma zlen_chunk_bytes es :
  zlen (chunk_bytes es) = foldr (fun e n => 16 + zlen e.2 + n) 0 es.
Proof.
  induction es as [|e es IH]; [done|]. change (chunk_bytes (e :: es)) with (entry_bytes e ++ chunk_bytes es).
  rewrite zlen_app, zlen_entry_bytes, IH. done.
Qed.

Lemma decode_chunk_entries n first str_size r br es pad acc :
  (length es < n)%nat -> Forall (entry_ok first) es -> chunk_pad pad -> 0 <= r -> br <= r ->
  r + zlen (chunk_bytes es) + zlen pad = str_size ->
  decode_chunk n first str_size r br (chunk_bytes es ++ pad) acc = Entries (acc ++ es).
Proof.
  revert n r br acc. induction es as [|e es IH]; intros n r br acc Hn Hok Hpad Hr Hbr Hlen.
  - destruct n as [|n]; [simpl in Hn; lia|]. rewrite app_nil_r. change (zlen (chunk_bytes [])) with 0 in Hlen.
    change (chunk_bytes [] ++ pad) with pad. apply decode_chunk_pad; [done..|lia|done].
  - apply Forall_cons in Hok as [He Hok]. destruct n as [|n]; [simpl in Hn; lia|].
    change (chunk_bytes (e :: es)) with (entry_bytes e ++ chunk_bytes es) in *.
    rewrite zlen_app, zlen_entry_bytes in Hlen. pose proof He as ([Hpos _] & _).
    pose proof (zlen_nonneg (chunk_bytes es)). pose proof (zlen_nonneg pad).
    rewrite <- app_assoc, decode_chunk_entry by (done || lia).
    rewrite IH; [by rewrite <- app_assoc|simpl in Hn; lia|done|done|lia..].
Qed.

(** Entries in the order of their sequence numbers. *)
Definition in_order (es : list (Z * bytes)) : Prop := StronglySorted (fun a b => a.1 < b.1) es.

Lemma in_order_unique es a b : in_order es -> a ∈ es -> b ∈ es -> a.1 = b.1 -> a = b.
Proof.
  intros H. induction H as [|e es Hs IH Hf]; [by intros ?%elem_of_nil|].
  rewrite Forall_forall in Hf.
  intros [->|Ha]%elem_of_cons [->|Hb]%elem_of_cons Heq; [done|..|by apply IH].
  - apply Hf in Hb. lia.
  - apply Hf in Ha. lia.
Qed.

Lemma in_order_by_seq es : in_order es -> StronglySorted by_seq es.
Proof.
  intros Hs. induction Hs as [|e es Hs IH Hf]; constructor; [done|].
  eapply Forall_impl; [done|]. unfold by_seq. simpl. intros; lia.
Qed.

Lemma merge_sort_in_order es phys : phys ≡ₚ es -> in_order es -> merge_sort by_seq phys = es.
Proof.
  intros Hp Hs. apply (StronglySorted_unique_strong by_seq).
  - intros a b Ha Hb H1 H2. rewrite merge_sort_Permutation, Hp in Ha.
    eapply in_order_unique; [done..|]. unfold by_seq in *. lia.
  - apply StronglySorted_merge_sort; apply _.
  - by apply in_order_by_seq.
  - by rewrite merge_sort_Permutation.
Qed.

Section recover.
Context {D L X : Type} `{be : ZonedBlockDeviceBackend D L} {szd : SZDOnceLog D L}
  {cfg : BuildConfig}.
Implicit Types s : FSt D L X.

(** The log [w] on the device [d] holds the entries [es] between [begin_] and
    [end_], in any order, packed and then padded. *)
Definition chunk_holds (w : L) (d : D) (begin_ end_ : Z) (es : list (Z * bytes)) : Prop :=
  begin_ <= end_ /\ exists phys pad, phys ≡ₚ es /\ chunk_pad pad /\
    zlen (chunk_bytes phys) + zlen pad = end_ - begin_ /\
    szd_Read (Z.shiftr begin_ (shift_block_size block_sz_)) (end_ - begin_) w d
    = (true, chunk_bytes phys ++ pad).

Definition mod_f (g : ZoneFile L -> ZoneFile L) s : FSt D L X :=
  mkFSt (f_zbd s) (g (f_file s)) (f_buf s) (f_ctx s).

Lemma RecoverWALChunk_run w begin_ end_ es s :
  wal_ (f_file s) = Some w -> 0 <= begin_ -> end_ < 2 ^ 64 ->
  chunk_holds w (zbd_be_ (f_zbd s)) begin_ end_ es -> in_order es ->
  Forall (entry_ok (begin_ <=? wal_tail w)) es ->
  RecoverWALChunk begin_ end_ s = Ok tt (mod_f (set_entries es) s).
Proof.
  intros Hw Hb He (Hle & phys & pad & Hperm & Hpad & Hlen & Hread) Hs Hok.
  unfold RecoverWALChunk. unfold bind at 1, mod_file, modify. unfold bind at 1, get.
  rewrite u64_small by lia. cbn [f_file f_zbd wal_ set_entries set_loaded_wal_chunks].
  rewrite Hw. unfold bind at 1. cbn [deref ret]. rewrite Hread. cbn [negb].
  rewrite ztake_all by (rewrite zlen_app; lia).
  rewrite (decode_chunk_entries _ _ _ _ _ phys pad []).
  - rewrite app_nil_l, (merge_sort_in_order es) by done. by destruct s as [? [] ? ?].
  - assert (zlen phys <= zlen (chunk_bytes phys)); [|rewrite length_app; unfold zlen in *; lia].
    clear. rewrite zlen_chunk_bytes. induction phys as [|e phys IH]; [done|]. simpl.
    rewrite zlen_cons. zlen_solve.
  - by rewrite Hperm.
  - done.
  - lia.
  - lia.
  - lia.
Qed.
End recover.

(** Whatever order the device stored the appends of a chunk in, recovery
    returns exactly the entries that were written, in the order of their sequence
    numbers, when the entries are packed (only the end of the chunk is padded).
    Nothing else of the state changes. *)
Theorem wal_chunk_recovery `{be : ZonedBlockDeviceBackend D L} {szd : SZDOnceLog D L} {X : Type}
    (w : L) (begin_ end_ : Z) (es : list (Z * bytes)) (s : FSt D L X) :
  wal_ (f_file s) = Some w -> 0 <= begin_ -> end_ < 2 ^ 64 ->
  chunk_holds w (zbd_be_ (f_zbd s)) begin_ end_ es -> in_order es ->
  Forall (entry_ok (begin_ <=? wal_tail w)) es ->
  RecoverWALChunk begin_ end_ s = Ok tt (mod_f (set_entries es) s).
Proof. apply RecoverWALChunk_run. Qed.

(** Two entries that reached the log in the wrong order. *)
Definition wal_phys : list (Z * bytes) := [(1, b_of "bb"); (0, b_of "a")].
Definition wal_state : FSt MemDev MemLog unit :=
  mkFSt (mkZbd (mkMemDev [(4 * 16384, chunk_bytes wal_phys)] ∅) ∅ [] [] [] 0 0 0 0 0 OK false 2 2 0)
    (set_wal (Some (mkMemLog 4 7 0 17)) (ZoneFile_new 1)) [] tt.

Lemma wal_chunk_recovery_witness :
  RecoverWALChunk (be := be1) (szd := szd1) 65536 65571 wal_state
  = Ok tt (mod_f (set_entries [(0, b_of "a"); (1, b_of "bb")]) wal_state).
Proof.
  apply (wal_chunk_recovery (be := be1) (szd := szd1) (mkMemLog 4 7 0 17)).
  - reflexivity.
  - lia.
  - lia.
  - split; [lia|]. exists wal_phys, []. split; [apply Permutation_swap|]. split; [by left|].
    split; [reflexivity|]. vm_compute. reflexivity.
  - repeat constructor; simpl; lia.
  - repeat (apply Forall_cons; split; [repeat split; (done || (vm_compute; congruence))|]).
    by apply Forall_nil.
Defined.

(** ** Reading a write-ahead log *)

Definition data_of (es : list (Z * bytes)) : bytes := mjoin (snd <$> es).

Lemma data_of_app a b : data_of (a ++ b) = data_of a ++ data_of b.
Proof. unfold data_of. by rewrite fmap_app, join_app. Qed.

Lemma data_of_cons e es : data_of (e :: es) = e.2 ++ data_of es.
Proof. done. Qed.

Lemma foldl_entry_sizes (es : list (Z * bytes)) n :
  0 <= n -> n + zlen (data_of es) < 2 ^ 64 ->
  foldl (fun n e => n +64 zlen e.2) n es = n + zlen (data_of es).
Proof.
  revert n. induction es as [|e es IH]; intros n Hn Hb; simpl.
  - unfold data_of. simpl. rewrite zlen_nil. lia.
  - rewrite data_of_cons, zlen_app in Hb. pose proof (zlen_nonneg e.2).
    pose proof (zlen_nonneg (data_of es)). rewrite u64_small by lia.
    rewrite IH by lia. rewrite data_of_cons, zlen_app. lia.
Qed.

Section wal_read.
Context {D L X : Type} `{be : ZonedBlockDeviceBackend D L} {szd : SZDOnceLog D L}
  {cfg : BuildConfig}.
Implicit Types s : FSt D L X.
(** The log, the device, and the chunks that were written to it. *)
Context (w : L) (d : D) (cs : list (list (Z * bytes))).

Abbreviation tl := (wal_tail w).
Abbreviation hd_ := (wal_head w).
Abbreviation bar := WAL_BARRIER.

Definition all_entries : list (Z * bytes) := mjoin cs.
Definition chunk_end (k : nat) : Z := Z.min (tl + (Z.of_nat k + 1) * bar) hd_.

(** The log holds the chunks one after the other, each of them up to the next
    barrier, in any order inside the chunk. *)
Record log_holds : Prop := {
  lh_chunk : forall k es, cs !! k = Some es ->
    tl + Z.of_nat k * bar < chunk_end k /\
    chunk_holds w d (tl + Z.of_nat k * bar) (chunk_end k) es /\
    es <> [] /\ in_order es /\ Forall (entry_ok (bool_decide (k = 0%nat))) es;
  lh_end : hd_ <= tl + Z.of_nat (length cs) * bar;
  lh_barrier : 0 < bar;
  lh_u64 : tl + (Z.of_nat (length cs) + 1) * bar < 2 ^ 64;
  lh_size : zlen (data_of all_entries) < 2 ^ 64
}.

(** The first [k] chunks have been loaded, the last of them is at hand. *)
Definition at_chunk (k : nat) (f : ZoneFile L) : Prop :=
  chunk_id_ f = Z.of_nat k /\
  lwc_end_ (loaded_wal_chunks_ f) = zlen (data_of (mjoin (take k cs))) /\
  lwc_jump_ (loaded_wal_chunks_ f) = zlen (mjoin (take (pred k) cs)) /\
  wal_entries_ (loaded_wal_chunks_ f) = match k with O => [] | S k' => default [] (cs !! k') end.

(** A file of the log in state [s] (up to what is loaded and read). *)
Definition log_file s : Prop :=
  wal_ (f_file s) = Some w /\ zbd_be_ (f_zbd s) = d /\
  e_length_ <$> extents_ (f_file s) = (fun e => zlen e.2) <$> all_entries /\
  file_size_ (f_file s) = zlen (data_of all_entries).

(** Only the chunk at hand changed. *)
Definition chunk_step s s' : Prop :=
  exists c id, s' = mod_f (fun f => set_chunk_id id (set_loaded_wal_chunks c f)) s.

Lemma chunk_step_refl s : chunk_step s s.
Proof. exists (loaded_wal_chunks_ (f_file s)), (chunk_id_ (f_file s)). by destruct s as [? [] ? ?]. Qed.

Context (Hlog : log_holds).

Lemma wal_tail_nonneg : 0 <= tl.
Proof. apply u64_range. Qed.
Lemma wal_head_u64 : 0 <= hd_ < 2 ^ 64.
Proof. apply u64_range. Qed.

Lemma zlen_take_le {A} k (l : list (list A)) : zlen (mjoin (take k l)) <= zlen (mjoin l).
Proof. rewrite <- (take_drop k l) at 2. rewrite join_app, zlen_app. zlen_solve. Qed.

Lemma data_take_le k : zlen (data_of (mjoin (take k cs))) <= zlen (data_of all_entries).
Proof.
  unfold all_entries. rewrite <- (take_drop k cs) at 2. rewrite join_app, data_of_app, zlen_app.
  zlen_solve.
Qed.

Lemma mjoin_take_S k es : cs !! k = Some es -> mjoin (take (S k) cs) = mjoin (take k cs) ++ es.
Proof. intros E. rewrite (take_S_r _ _ es) by done. rewrite join_app. simpl. by rewrite app_nil_r. Qed.

Lemma all_entries_pos : Forall (fun e => 0 < zlen e.2) all_entries.
Proof.
  unfold all_entries. apply Forall_join, Forall_lookup. intros k es Hk.
  destruct (lh_chunk Hlog k es Hk) as (_ & _ & _ & _ & Hok).
  eapply Forall_impl; [done|]. intros e ([? _] & _). done.
Qed.

Lemma zlen_data_of_ge es : Forall (fun e => 0 < zlen e.2) es -> zlen es <= zlen (data_of es).
Proof.
  induction es as [|e es IH]; intros Hp; [done|]. apply Forall_cons in Hp as [Hp Hps].
  rewrite data_of_cons, zlen_cons, zlen_app. specialize (IH Hps). lia.
Qed.

Lemma entries_le_data k : zlen (mjoin (take k cs)) <= zlen (data_of (mjoin (take k cs))).
Proof.
  apply zlen_data_of_ge. pose proof all_entries_pos as Hp. unfold all_entries in Hp.
  rewrite <- (take_drop k cs), join_app in Hp. by apply Forall_app in Hp as [? _].
Qed.

Lemma all_entries_split k es :
  cs !! k = Some es -> all_entries = mjoin (take k cs) ++ es ++ mjoin (drop (S k) cs).
Proof.
  intros Hk. unfold all_entries. rewrite <- (take_drop (S k) cs) at 1.
  by rewrite join_app, (mjoin_take_S k es), <- app_assoc by done.
Qed.

(** Loading the next chunk. *)
Lemma TryRecoverWAL_loop_next n k es offset s :
  log_file s -> at_chunk k (f_file s) -> cs !! k = Some es ->
  offset <= zlen (data_of (mjoin (take (S k) cs))) ->
  exists s', TryRecoverWAL_loop (S n) offset s = Ok tt s' /\ chunk_step s s' /\
    at_chunk (S k) (f_file s').
Proof.
  intros (Hw & Hd & Hex & Hsz) (Hid & Hend & Hjump & Hent) Hk Hoff.
  destruct (lh_chunk Hlog k es Hk) as (Hlt & Hch & Hne & Hord & Hok).
  pose proof (lh_barrier Hlog) as HB. pose proof (lh_u64 Hlog) as Hu. pose proof wal_tail_nonneg as HT.
  pose proof wal_head_u64 as HH. pose proof (lookup_lt_Some _ _ _ Hk) as Hkl.
  pose proof (lh_size Hlog) as Hs.
  assert (Z.of_nat k * bar + bar <= Z.of_nat (length cs) * bar) by nia.
  pose proof (data_take_le (S k)) as Hle. rewrite (mjoin_take_S k es) in * by done.
  rewrite data_of_app, zlen_app in *. pose proof (zlen_nonneg (data_of (mjoin (take k cs)))).
  pose proof (zlen_nonneg (data_of es)).
  cbn [TryRecoverWAL_loop]. unfold bind at 1, get_file, gets. rewrite Hw. unfold bind at 1. cbn [deref ret].
  rewrite Hid, Hent. unfold chunk_end in *.
  rewrite !(u64_small (Z.of_nat k * bar)), (u64_small (Z.of_nat k + 1)), (u64_small ((Z.of_nat k + 1) * bar)),
    !(u64_small (tl + _)) by nia.
  rewrite (Z.min_l (tl + Z.of_nat k * bar) hd_) by lia.
  destruct (Z.leb_spec (Z.min (tl + (Z.of_nat k + 1) * bar) hd_) (tl + Z.of_nat k * bar)); [lia|].
  erewrite bind_ok; cycle 1.
  { apply (RecoverWALChunk_run w _ _ es); [done|lia|lia|by rewrite Hd|done|].
    replace (tl + Z.of_nat k * bar <=? tl) with (bool_decide (k = 0%nat)); [done|].
    destruct k; [by rewrite Z.mul_0_l, Z.add_0_r, Z.leb_refl|].
    symmetry. apply Z.leb_gt. nia. }
  unfold bind at 1, mod_f. cbn [f_file set_entries set_loaded_wal_chunks loaded_wal_chunks_ wal_entries_ lwc_end_ lwc_jump_].
  rewrite foldl_entry_sizes, Z.add_0_l by lia. rewrite Hend, Hjump.
  unfold bind at 1, mod_file, modify. unfold bind at 1. cbn.
  rewrite (proj2 (Z.ltb_ge _ offset)) by (rewrite u64_small by lia; lia). rewrite andb_false_r.
  eexists. split; [reflexivity|]. split.
  { destruct s as [? [] ? ?]. by do 2 eexists. }
  split; [|split; [|split]]; cbn.
  - rewrite Hid, u64_small; lia.
  - rewrite (mjoin_take_S k es), data_of_app, zlen_app by done. rewrite u64_small; lia.
  - assert (zlen (mjoin (take k cs)) < 2 ^ 64) as Hb by (pose proof (entries_le_data k); lia).
    destruct k as [|k]; [done|]. cbn [pred].
    destruct (lookup_lt_is_Some_2 cs k ltac:(lia)) as [es' Hk'].
    rewrite Hk'. change (default [] (Some es')) with es'. rewrite (mjoin_take_S k es'), zlen_app in Hb |- * by done.
    rewrite u64_small; zlen_solve.
  - by rewrite Hk.
Qed.

Lemma TryRecoverWAL_loop_end n offset s :
  log_file s -> at_chunk (length cs) (f_file s) -> TryRecoverWAL_loop (S n) offset s = Ok tt s.
Proof.
  intros (Hw & Hd & Hex & Hsz) (Hid & Hend & Hjump & Hent).
  pose proof (lh_barrier Hlog) as HB. pose proof (lh_u64 Hlog) as Hu. pose proof wal_tail_nonneg.
  pose proof wal_head_u64. pose proof (lh_end Hlog).
  cbn [TryRecoverWAL_loop]. unfold bind at 1, get_file, gets. rewrite Hw. unfold bind at 1. cbn [deref ret].
  rewrite Hid.
  rewrite !(u64_small (Z.of_nat _ * bar)), (u64_small (Z.of_nat _ + 1)), (u64_small ((Z.of_nat _ + 1) * bar)),
    !(u64_small (tl + _)) by nia.
  rewrite !Z.min_r by nia. by rewrite Z.leb_refl.
Qed.

(** Entry [i] is in the chunk at hand. *)
Definition loaded_entry (i : nat) (f : ZoneFile L) : Prop :=
  exists k es j, cs !! k = Some es /\ at_chunk (S k) f /\
    i = (length (mjoin (take k cs)) + j)%nat /\ (j < length es)%nat.

Lemma loaded_entry_lookup i f :
  loaded_entry i f ->
  wal_entries_ (loaded_wal_chunks_ f) !! Z.to_nat (Z.of_nat i -64 lwc_jump_ (loaded_wal_chunks_ f))
  = all_entries !! i.
Proof.
  intros (k & es & j & Hk & (_ & _ & Hjump & Hent) & -> & Hj).
  rewrite Hent, Hk, Hjump. cbn [pred]. change (default [] (Some es)) with es.
  pose proof (entries_le_data (S k)). pose proof (data_take_le (S k)). pose proof (lh_size Hlog).
  rewrite (mjoin_take_S k es), zlen_app in * by done.
  rewrite u64_small by (unfold zlen in *; lia).
  replace (Z.to_nat _) with j by (unfold zlen; lia).
  rewrite (all_entries_split k es) by done. rewrite lookup_app_r by lia. rewrite lookup_app_l by lia. f_equal. lia.
Qed.

(** The data before entry [i]. *)
Definition offset_of (i : nat) : Z := zlen (data_of (take i all_entries)).

Lemma offset_of_chunk k j es :
  cs !! k = Some es -> (j <= length es)%nat ->
  offset_of (length (mjoin (take k cs)) + j)
  = zlen (data_of (mjoin (take k cs))) + zlen (data_of (take j es)).
Proof.
  intros Hk Hj. unfold offset_of. rewrite (all_entries_split k es) by done.
  rewrite take_app, take_ge, data_of_app, zlen_app by lia. do 3 f_equal.
  rewrite take_app_le by lia. f_equal. lia.
Qed.

Lemma offset_of_S i e : all_entries !! i = Some e -> offset_of (S i) = offset_of i + zlen e.2.
Proof.
  intros Hi. unfold offset_of. rewrite (take_S_r _ _ e) by done.
  rewrite data_of_app, zlen_app. unfold data_of at 2. simpl. by rewrite app_nil_r.
Qed.

Lemma data_of_take_lt es j :
  Forall (fun e => 0 < zlen e.2) es -> (j < length es)%nat ->
  zlen (data_of (take j es)) < zlen (data_of es).
Proof.
  intros Hp Hj. rewrite <- (take_drop j es) at 2. rewrite data_of_app, zlen_app.
  destruct (drop j es) as [|e l] eqn:E; [apply (f_equal length) in E; rewrite length_drop in E; simpl in E; lia|].
  rewrite data_of_cons, zlen_app. rewrite <- (take_drop j es), E in Hp.
  apply Forall_app in Hp as [_ [Hp _]%Forall_cons]. zlen_solve.
Qed.

Lemma chunk_pos k es : cs !! k = Some es -> Forall (fun e => 0 < zlen e.2) es.
Proof.
  intros Hk. pose proof all_entries_pos as Hp. rewrite (all_entries_split k es) in Hp by done.
  by apply Forall_app in Hp as [_ [? _]%Forall_app].
Qed.

Lemma loaded_entries_ne i f :
  loaded_entry i f -> (zlen (wal_entries_ (loaded_wal_chunks_ f)) =? 0) = false.
Proof.
  intros (k & es & j & Hk & (_ & _ & _ & ->) & _ & Hj). rewrite Hk.
  change (default [] (Some es)) with es. apply Z.eqb_neq. unfold zlen. lia.
Qed.

(** No chunk is loaded while the offset is in the chunk at hand. *)
Lemma TryRecoverWAL_in i e offset s :
  loaded_entry i (f_file s) -> all_entries !! i = Some e -> offset < offset_of i + zlen e.2 ->
  TryRecoverWAL offset s = Ok tt s.
Proof.
  intros Hl Hi Hoff. unfold TryRecoverWAL. unfold bind at 1, get_file, gets.
  rewrite (loaded_entries_ne i) by done. destruct Hl as (k & es & j & Hk & (_ & Hend & _) & -> & Hj).
  rewrite Hend, (mjoin_take_S k es), data_of_app, zlen_app by done.
  rewrite <- offset_of_S, <- Nat.add_succ_r, (offset_of_chunk k _ es) in Hoff by (done || lia).
  assert (zlen (data_of (take (S j) es)) <= zlen (data_of es)).
  { rewrite <- (take_drop (S j) es) at 2. rewrite data_of_app, zlen_app. zlen_solve. }
  rewrite (proj2 (Z.ltb_lt _ _)) by lia. done.
Qed.

Lemma TryRecoverWAL_load offset s :
  log_file s -> (zlen (wal_entries_ (loaded_wal_chunks_ (f_file s))) = 0 \/
                 lwc_end_ (loaded_wal_chunks_ (f_file s)) <= offset) ->
  offset <= zlen (data_of all_entries) ->
  TryRecoverWAL offset s = TryRecoverWAL_loop loop_bound offset s.
Proof.
  intros (Hw & _ & _ & Hsz) Hc Hoff. unfold TryRecoverWAL. unfold bind at 1, get_file, gets.
  assert (negb (zlen (wal_entries_ (loaded_wal_chunks_ (f_file s))) =? 0) &&
          (offset <? lwc_end_ (loaded_wal_chunks_ (f_file s))) = false) as ->.
  { destruct Hc as [->|Hc]; [done|]. apply andb_false_intro2. apply Z.ltb_ge. lia. }
  rewrite Hw, Hsz, Z.min_l by done. done.
Qed.

Context (Hfuel : (0 < loop_bound)%nat).

Lemma lookup_cs_0 : all_entries <> [] -> exists es, cs !! 0%nat = Some es /\ (0 < length es)%nat.
Proof.
  intros Hne. destruct (cs !! 0%nat) as [es|] eqn:Hk.
  - destruct (lh_chunk Hlog 0 es Hk) as (_ & _ & He & _). exists es. split; [done|].
    destruct es; [done|simpl; lia].
  - apply lookup_ge_None in Hk. unfold all_entries in Hne. by destruct cs; [|simpl in Hk; lia].
Qed.

Lemma TryRecoverWAL_first s :
  log_file s -> at_chunk 0 (f_file s) -> all_entries <> [] ->
  exists s', TryRecoverWAL 0 s = Ok tt s' /\ chunk_step s s' /\ loaded_entry 0 (f_file s').
Proof.
  intros Hf Hc Hne. destruct (lookup_cs_0 Hne) as (es & Hk & Hlt).
  destruct loop_bound as [|n] eqn:En; [lia|].
  rewrite TryRecoverWAL_load, En; [|done|left; destruct Hc as (_ & _ & _ & ->); done|zlen_solve].
  destruct (TryRecoverWAL_loop_next n 0 es 0 s) as (s' & Hrun & Hst & Hat); [done..|zlen_solve|].
  exists s'. split; [done|]. split; [done|]. exists 0%nat, es, 0%nat. done.
Qed.

(** From entry [i] to the next one. *)
Lemma TryRecoverWAL_next i s :
  log_file s -> loaded_entry i (f_file s) -> (S i < length all_entries)%nat ->
  exists s', TryRecoverWAL (offset_of (S i)) s = Ok tt s' /\ chunk_step s s' /\
    loaded_entry (S i) (f_file s').
Proof.
  intros Hf Hl Hi. pose proof Hl as (k & es & j & Hk & Hat & -> & Hj).
  destruct (decide (S j < length es)%nat) as [Hj'|Hj'].
  - destruct (lookup_lt_is_Some_2 all_entries _ Hi) as [e He].
    assert (loaded_entry (S (length (mjoin (take k cs)) + j)) (f_file s)) as Hl'.
    { exists k, es, (S j). split; [done|]. split; [done|]. split; [lia|done]. }
    exists s. split; [|split; [apply chunk_step_refl|done]].
    apply (TryRecoverWAL_in (S (length (mjoin (take k cs)) + j)) e); [done|done|].
    pose proof all_entries_pos as Hp. rewrite Forall_lookup in Hp. specialize (Hp _ _ He). simpl in Hp. lia.
  - destruct loop_bound as [|n] eqn:En; [lia|].
    assert (cs !! S k = None \/ exists es', cs !! S k = Some es') as [Hn|[es' Hk']]
      by (destruct (cs !! S k); eauto).
    { rewrite (all_entries_split k es) in Hi by done. apply lookup_ge_None in Hn.
      rewrite drop_ge in Hi by lia. rewrite !length_app in Hi. simpl in Hi. lia. }
    pose proof Hat as (_ & Hend & _).
    assert (offset_of (S (length (mjoin (take k cs)) + j)) = zlen (data_of (mjoin (take (S k) cs)))) as Hoff.
    { rewrite <- Nat.add_succ_r, (offset_of_chunk k _ es), (take_ge es (S j)) by (done || lia).
      by rewrite (mjoin_take_S k es), data_of_app, zlen_app. }
    pose proof (data_take_le (S k)).
    rewrite Hoff, TryRecoverWAL_load, En; [|done|right; lia|lia].
    destruct (TryRecoverWAL_loop_next n (S k) es' (zlen (data_of (mjoin (take (S k) cs)))) s)
      as (s' & Hrun & Hst & Hat'); [done..| |].
    { rewrite (mjoin_take_S (S k) es'), data_of_app, zlen_app by done. zlen_solve. }
    exists s'. split; [done|]. split; [done|]. exists (S k), es', 0%nat.
    destruct (lh_chunk Hlog (S k) es' Hk') as (_ & _ & Hne & _).
    split; [done|]. split; [done|]. rewrite (mjoin_take_S k es), length_app by done.
    split; [lia|]. destruct es'; [done|simpl; lia].
Qed.

(** At the end of the log nothing is loaded. *)
Lemma TryRecoverWAL_end i s :
  log_file s -> loaded_entry i (f_file s) -> S i = length all_entries ->
  TryRecoverWAL (offset_of (S i)) s = Ok tt s.
Proof.
  intros Hf Hl Hi. pose proof Hl as (k & es & j & Hk & Hat & -> & Hj).
  destruct loop_bound as [|n] eqn:En; [lia|].
  assert (cs !! S k = None) as Hn.
  { destruct (cs !! S k) as [es'|] eqn:Hk'; [|done]. exfalso.
    destruct (lh_chunk Hlog (S k) es' Hk') as (_ & _ & Hne & _).
    rewrite (all_entries_split k es), (drop_S _ es') in Hi by done.
    rewrite !length_app in Hi. simpl in Hi. rewrite length_app in Hi. destruct es'; [done|simpl in Hi; lia]. }
  apply lookup_ge_None in Hn. pose proof (lookup_lt_Some _ _ _ Hk).
  assert (length cs = S k) as Hlen by lia.
  assert (offset_of (S (length (mjoin (take k cs)) + j)) = zlen (data_of all_entries)) as ->.
  { unfold offset_of. rewrite take_ge; [done|lia]. }
  assert (lwc_end_ (loaded_wal_chunks_ (f_file s)) = zlen (data_of all_entries)) as Hend.
  { destruct Hat as (_ & -> & _). unfold all_entries. by rewrite take_ge by lia. }
  rewrite TryRecoverWAL_load, En; [|done|right; lia|lia].
  apply TryRecoverWAL_loop_end; [done|by rewrite Hlen].
Qed.

Lemma chunk_step_trans s1 s2 s3 : chunk_step s1 s2 -> chunk_step s2 s3 -> chunk_step s1 s3.
Proof. intros (c & id & ->) (c' & id' & ->). by exists c', id'. Qed.

Lemma chunk_step_log s s' : chunk_step s s' -> log_file s -> log_file s'.
Proof. by intros (c & id & ->). Qed.

Context (Hcount : zlen all_entries < 2 ^ 32).

Lemma extents_drop s i e :
  log_file s -> all_entries !! i = Some e ->
  exists x es, drop i (extents_ (f_file s)) = x :: es /\ e_length_ x = zlen e.2 /\
    es = drop (S i) (extents_ (f_file s)).
Proof.
  intros (_ & _ & Hex & _) Hi. apply (f_equal (lookup i)) in Hex.
  rewrite !list_lookup_fmap, Hi in Hex. destruct (extents_ (f_file s) !! i) as [x|] eqn:E; [|done].
  simpl in Hex. simplify_eq. eexists x, _. by rewrite (drop_S _ x) by done.
Qed.

Lemma GetWALExtent_at s i e :
  log_file s -> all_entries !! i = Some e ->
  exists x, GetWALExtent (extents_ (f_file s)) 0 (Z.of_nat i) = Some (x, 0, Z.of_nat i) /\
    e_length_ x = zlen e.2.
Proof.
  intros Hf Hi. destruct (extents_drop s i e Hf Hi) as (x & es & Hd & Hx & _). exists x. split; [|done].
  pose proof (lookup_lt_Some _ _ _ Hi). unfold zlen in Hcount.
  unfold GetWALExtent, zdrop. rewrite u32_small, Nat2Z.id, Hd by lia. cbn [GetWALExtent_loop].
  pose proof all_entries_pos as Hp. rewrite Forall_lookup in Hp. specialize (Hp _ _ Hi). simpl in Hp.
  rewrite Hx, (proj2 (Z.ltb_lt _ _)) by done. done.
Qed.

Lemma GetWALExtent_next s i e :
  log_file s -> all_entries !! i = Some e ->
  match all_entries !! S i with
  | Some e' => exists x, GetWALExtent (extents_ (f_file s)) (zlen e.2) (Z.of_nat i)
                         = Some (x, 0, Z.of_nat (S i)) /\ e_length_ x = zlen e'.2
  | None => GetWALExtent (extents_ (f_file s)) (zlen e.2) (Z.of_nat i) = None
  end.
Proof.
  intros Hf Hi. destruct (extents_drop s i e Hf Hi) as (x & es & Hd & Hx & Hes).
  pose proof (lookup_lt_Some _ _ _ Hi). unfold zlen in Hcount.
  unfold GetWALExtent, zdrop. rewrite u32_small, Nat2Z.id, Hd by lia. cbn [GetWALExtent_loop].
  rewrite Hx, Z.ltb_irrefl, Z.sub_diag, u64_small by lia. subst es.
  destruct (all_entries !! S i) as [e'|] eqn:Hi'.
  - destruct (extents_drop s (S i) e' Hf Hi') as (x' & es' & -> & Hx' & _). exists x'. split; [|done].
    cbn [GetWALExtent_loop].
    pose proof all_entries_pos as Hp. rewrite Forall_lookup in Hp. specialize (Hp _ _ Hi'). simpl in Hp.
    rewrite Hx', (proj2 (Z.ltb_lt _ _)) by done. do 3 f_equal. lia.
  - rewrite drop_ge; [done|]. apply lookup_ge_None in Hi'. destruct Hf as (_ & _ & Hex & _).
    apply (f_equal length) in Hex. rewrite !length_fmap in Hex. lia.
Qed.

(** The cursor is at byte [off] of entry [i]. *)
Definition cursor_at (i : nat) (off : Z) (e : Z * bytes) (c : cursor) s : Prop :=
  all_entries !! i = Some e /\ c = mkCursor off (zlen e.2) (Z.of_nat i) /\ 0 <= off <= zlen e.2 /\
  loaded_entry i (f_file s) /\ log_file s.

Lemma cursor_at_intro i off e s :
  all_entries !! i = Some e -> loaded_entry i (f_file s) -> log_file s -> 0 <= off <= zlen e.2 ->
  cursor_at i off e (mkCursor off (zlen e.2) (Z.of_nat i)) s.
Proof. done. Qed.

Lemma next_extent_wal i e c s :
  cursor_at i (zlen e.2) e c s ->
  match all_entries !! S i with
  | Some e' => exists s', next_extent true (offset_of (S i)) c s
                          = Ok (Some (mkCursor 0 (zlen e'.2) (Z.of_nat (S i)))) s' /\
                 chunk_step s s' /\ loaded_entry (S i) (f_file s')
  | None => next_extent true (offset_of (S i)) c s = Ok None s
  end.
Proof.
  intros (Hi & -> & Hoff & Hl & Hf). unfold next_extent. cbn [c_r_off c_extend_id].
  destruct (all_entries !! S i) as [e'|] eqn:Hi'.
  - destruct (TryRecoverWAL_next i s) as (s' & Hrun & Hst & Hl'); [done..|by eapply lookup_lt_Some|].
    erewrite bind_ok by exact Hrun. unfold bind, get_file, gets.
    pose proof (GetWALExtent_next s' i e (chunk_step_log _ _ Hst Hf) Hi) as HG. rewrite Hi' in HG.
    destruct HG as (x & -> & ->). by exists s'.
  - pose proof (lookup_lt_Some _ _ _ Hi). apply lookup_ge_None in Hi' as Hge.
    erewrite bind_ok by (apply (TryRecoverWAL_end i); [done..|lia]).
    unfold bind, get_file, gets. pose proof (GetWALExtent_next s i e Hf Hi) as HG. rewrite Hi' in HG.
    by rewrite HG.
Qed.

Definition stream : bytes := data_of all_entries.

Lemma offset_of_join i : offset_of i = join_offset (snd <$> all_entries) i.
Proof. unfold offset_of, join_offset, data_of. by rewrite fmap_take. Qed.

Lemma stream_at i e off :
  all_entries !! i = Some e -> 0 <= off <= zlen e.2 ->
  zdrop (offset_of i + off) stream = zdrop off e.2 ++ zdrop (offset_of (S i)) stream.
Proof.
  intros Hi Hoff. unfold stream, data_of. rewrite !offset_of_join.
  apply join_at; [|done]. by rewrite list_lookup_fmap, Hi.
Qed.

Lemma read_piece_wal i off e s m :
  cursor_at i off e (mkCursor off (zlen e.2) (Z.of_nat i)) s -> 0 <= m -> off + m <= zlen e.2 ->
  read_piece true false m (mkCursor off (zlen e.2) (Z.of_nat i)) s = Ok (m, ztake m (zdrop off e.2)) s.
Proof.
  intros (Hi & _ & Hoff & Hl & _) Hm Hle. unfold read_piece, bind, get_file, gets.
  cbn [c_extend_id c_r_off]. rewrite (loaded_entry_lookup i) by done. rewrite Hi. cbn [deref ret].
  destruct (Z.ltb_spec (zlen e.2) (off + m)); [lia|done].
Qed.

Lemma entry_in_stream i e : all_entries !! i = Some e -> zlen e.2 <= zlen stream.
Proof.
  intros Hi. pose proof (offset_of_S i e Hi) as HS. pose proof (zlen_nonneg (data_of (take i all_entries))).
  unfold offset_of at 2 in HS. assert (offset_of (S i) <= zlen stream); [|lia].
  unfold offset_of, stream. rewrite <- (take_drop (S i) all_entries) at 2. rewrite data_of_app, zlen_app. zlen_solve.
Qed.

Lemma PositionedRead_loop_wal n offset r_sz r acc i off e c s :
  cursor_at i off e c s -> 0 <= offset -> offset_of i + off = offset + zlen acc ->
  zlen acc <= r_sz -> offset + r_sz <= zlen stream -> zlen acc = r_sz \/ off < zlen e.2 ->
  (length all_entries - i < n)%nat -> 0 <= r ->
  exists r' i' off' e' c' s',
    PositionedRead_loop n true false offset r_sz r acc c s
    = Ok (r', acc ++ ztake (r_sz - zlen acc) (zdrop (offset + zlen acc) stream), c') s' /\
    0 <= r' /\ cursor_at i' off' e' c' s' /\ offset_of i' + off' = offset + r_sz /\ chunk_step s s'.
Proof.
  pose proof (lh_size Hlog) as Hsz. fold stream in Hsz.
  revert r acc i off e c s. induction n as [|n IH]; intros r acc i off e c s Hc Ho Hp Ha Hr Hd Hn Hr0.
  { lia. }
  destruct (Z.eqb_spec (zlen acc) r_sz) as [Heq|Hne].
  { exists r, i, off, e, c, s. rewrite PositionedRead_loop_done by done.
    rewrite Heq, Z.sub_diag, ztake_0, app_nil_r. split_and!; try done; [lia|apply chunk_step_refl]. }
  destruct Hd as [|Hlt]; [done|]. pose proof Hc as (Hi & -> & Hoff & Hl & Hf).
  pose proof (zlen_nonneg acc). pose proof (entry_in_stream i e Hi).
  assert (0 <= offset_of i) by apply zlen_nonneg.
  set (m := Z.min (r_sz - zlen acc) (zlen e.2 - off)).
  assert (zlen (ztake m (zdrop off e.2)) = m) as Hlen by (rewrite zlen_ztake, zlen_zdrop; lia).
  erewrite PositionedRead_round; cbn [c_extent_end c_r_off c_extend_id align_bytes andb]; fold m; [|lia..|].
  2: { rewrite Z.add_0_r. apply (read_piece_wal i off e); [done|lia|lia]. }
  rewrite Z.add_0_r, (ztake_all m (ztake m _)), zlen_app, Hlen by lia.
  rewrite <- Hp, (stream_at i e off Hi) by lia.
  destruct (Z.eqb_spec (zlen acc + m) r_sz) as [Hfull|Hmore]; cbn [negb andb].
  - rewrite PositionedRead_loop_done by (rewrite zlen_app; lia).
    exists m, i, (off + m), e, (mkCursor (off + m) (zlen e.2) (Z.of_nat i)), s.
    rewrite (ztake_app_le (r_sz - zlen acc)) by (rewrite zlen_zdrop; lia).
    replace (r_sz - zlen acc) with m by lia. split; [done|]. split; [lia|].
    split; [by apply cursor_at_intro; [..|lia]|]. split; [lia|apply chunk_step_refl].
  - assert (m = zlen e.2 - off) as Hm by lia. rewrite !Hm in *.
    replace (off + (zlen e.2 - off)) with (zlen e.2) in * by lia. rewrite Z.eqb_refl.
    pose proof (offset_of_S i e Hi) as HS.
    destruct (all_entries !! S i) as [e'|] eqn:Hi'; cycle 1.
    { exfalso. apply lookup_ge_None in Hi'. unfold offset_of in HS at 1.
      rewrite take_ge in HS by done. fold stream in HS. lia. }
    rewrite (u64_small (offset + _)) by lia.
    replace (offset + (zlen acc + (zlen e.2 - off))) with (offset_of (S i)) by lia.
    pose proof (next_extent_wal i e (mkCursor (zlen e.2) (zlen e.2) (Z.of_nat i)) s) as Hnext.
    rewrite Hi' in Hnext. destruct Hnext as (s1 & Hrun & Hst & Hl'); [by apply cursor_at_intro; [..|lia]|].
    erewrite bind_ok by exact Hrun. cbv beta iota.
    pose proof all_entries_pos as Hpos. rewrite Forall_lookup in Hpos. specialize (Hpos _ _ Hi'). simpl in Hpos.
    assert (cursor_at (S i) 0 e' (mkCursor 0 (zlen e'.2) (Z.of_nat (S i))) s1) as Hc'.
    { apply cursor_at_intro; [done|done|by eapply chunk_step_log|lia]. }
    pose proof (lookup_lt_Some _ _ _ Hi).
    destruct (IH (zlen e.2 - off) (acc ++ ztake (zlen e.2 - off) (zdrop off e.2)) (S i) 0 e' _ s1 Hc')
      as (r' & i' & off' & e'' & c' & s' & Hrun' & Hr' & Hc'' & Hp' & Hst');
      rewrite ?zlen_app, ?Hlen; try lia.
    exists r', i', off', e'', c', s'. rewrite Hrun'. split; [|split; [done|]; split; [done|];
      split; [done|by eapply chunk_step_trans]].
    rewrite zlen_app, Hlen. replace (offset + (zlen acc + (zlen e.2 - off))) with (offset_of (S i)) by lia.
    rewrite (ztake_all (zlen e.2 - off)) in * by (rewrite zlen_zdrop; lia).
    rewrite <- (read_join acc (zdrop off e.2)) by lia.
    by replace (r_sz - zlen acc - zlen (zdrop off e.2)) with (r_sz - (zlen acc + (zlen e.2 - off))) by lia.
Qed.

Definition named_log s : Prop :=
  exists name, head (linkfiles_ (f_file s)) = Some name /\ ends_with name (b_of ".log") = true.

(** Where the reader is: nothing read yet, or at byte [off] of entry [i], which
    is the end of an entry only at the end of the log. *)
Definition reader_pos (p : Z) s : Prop :=
  (p = 0 /\ at_chunk 0 (f_file s) /\ reader_offset_index_ (f_file s) = 0 /\
   reader_offset_ (f_file s) = 0) \/
  exists i off e, cursor_at i off e
      (mkCursor (reader_offset_ (f_file s)) (zlen e.2) (reader_offset_index_ (f_file s))) s /\
    offset_of i + off = p /\ (off < zlen e.2 \/ p = zlen stream).

(** A file of the log whose readers have read [p] bytes. *)
Definition reader_at (p : Z) s : Prop :=
  log_file s /\ named_log s /\ 0 <= p <= zlen stream /\ reader_pos p s.

(** The cursor a read starts with. *)
Lemma reader_start p s :
  reader_at p s -> p < zlen stream ->
  exists s1 i off e, TryRecoverWAL p s = Ok tt s1 /\ chunk_step s s1 /\ off < zlen e.2 /\
    offset_of i + off = p /\
    cursor_at i off e (mkCursor (reader_offset_ (f_file s1)) (zlen e.2) (Z.of_nat i)) s1 /\
    reader_offset_index_ (f_file s1) = Z.of_nat i.
Proof.
  intros (Hf & _ & Hp & [(-> & Hc & Hi & Ho)|(i & off & e & Hc & Hpos & Hd)]) Hlt.
  - assert (all_entries <> []) as Hne by (intros E; unfold stream in Hlt; by rewrite E in Hlt).
    destruct (TryRecoverWAL_first s Hf Hc Hne) as (s1 & Hrun & Hst & Hl).
    destruct (lookup_lt_is_Some_2 all_entries 0) as [e He]; [destruct all_entries; [done|simpl; lia]|].
    pose proof all_entries_pos as Hps. rewrite Forall_lookup in Hps. specialize (Hps _ _ He). simpl in Hps.
    exists s1, 0%nat, 0, e. split; [done|]. split; [done|]. split; [done|]. split; [done|].
    pose proof (chunk_step_log _ _ Hst Hf) as Hf1. destruct Hst as (c & id & ->). cbn. rewrite Ho, Hi.
    split; [by apply (cursor_at_intro 0 0 e); [..|lia]|done].
  - destruct Hd as [Hd|]; [|lia]. exists s, i, off, e.
    split; [destruct Hc as (Hi & _ & _ & Hl & _); apply (TryRecoverWAL_in i e); [done..|lia]|].
    split; [apply chunk_step_refl|]. split; [done|]. split; [done|].
    pose proof Hc as (Hi & Heq & Hoff & Hl & _). injection Heq as -> Hidx. rewrite Hidx.
    split; [by apply cursor_at_intro|done].
Qed.

Lemma reader_pos_set i off e c s last :
  cursor_at i off e c s -> (off < zlen e.2 \/ offset_of i + off = zlen stream) ->
  reader_pos (offset_of i + off)
    (mod_f (set_last_read last) (mod_f (set_reader (c_r_off c) (c_extend_id c)) s)).
Proof.
  intros (Hi & -> & Hoff & Hl & Hf) Hd. right. exists i, off, e. cbn.
  split; [by apply (cursor_at_intro i off e)|]. done.
Qed.

(** Moving past the end of an entry after the last byte was read. *)
Lemma reader_settle i off e c s :
  cursor_at i off e c s -> offset_of i + off <= zlen stream ->
  exists i' off' e' c' s',
    (if true && (c_r_off c =? c_extent_end c) then
       bind (next_extent true (offset_of i + off) c) (fun next => ret (default c next))
     else ret c) s = Ok c' s' /\ cursor_at i' off' e' c' s' /\ chunk_step s s' /\
    offset_of i' + off' = offset_of i + off /\ (off' < zlen e'.2 \/ offset_of i' + off' = zlen stream).
Proof.
  intros Hc Hle. pose proof Hc as (Hi & -> & Hoff & Hl & Hf). cbn [c_r_off c_extent_end andb].
  destruct (Z.eqb_spec off (zlen e.2)) as [->|Hne]; cycle 1.
  { eexists i, off, e, _, s. split; [done|]. split; [done|]. split; [apply chunk_step_refl|].
    split; [done|]. left. lia. }
  rewrite <- (offset_of_S i e Hi). pose proof (next_extent_wal i e _ s Hc) as Hnext.
  destruct (all_entries !! S i) as [e'|] eqn:Hi'.
  - destruct Hnext as (s1 & Hrun & Hst & Hl'). rewrite (bind_ok _ _ _ _ _ Hrun).
    pose proof all_entries_pos as Hps. rewrite Forall_lookup in Hps. specialize (Hps _ _ Hi'). simpl in Hps.
    eexists (S i), 0, e', _, s1. split; [reflexivity|].
    split; [apply cursor_at_intro; [done|done|by eapply chunk_step_log|lia]|].
    split; [done|]. split; [lia|]. by left.
  - rewrite (bind_ok _ _ _ _ _ Hnext). eexists i, (zlen e.2), e, _, s. split; [reflexivity|].
    split; [done|]. split; [apply chunk_step_refl|]. rewrite (offset_of_S i e Hi).
    split; [done|]. right. rewrite <- (offset_of_S i e Hi). unfold offset_of.
    apply lookup_ge_None in Hi'. by rewrite take_ge.
Qed.

Context (Hbound : (length all_entries < loop_bound)%nat).

Lemma WALPositionedRead_run p n s :
  reader_at p s -> 0 <= n -> p + n < 2 ^ 64 ->
  exists s', WALPositionedRead p n false s = Ok (OK, ztake n (zdrop p stream)) s' /\
    reader_at (Z.min (p + n) (zlen stream)) s'.
Proof.
  intros Hr Hn Hu. pose proof Hr as (Hf & (name & Hname & Hlogn) & Hp & Hpos).
  pose proof Hf as (_ & _ & _ & Hsz). fold stream in Hsz. pose proof (lh_size Hlog) as Hsu. fold stream in Hsu.
  unfold WALPositionedRead. unfold bind at 1, get_file, gets. unfold bind at 1, GetFilename.
  unfold bind at 1, get_file, gets. rewrite Hname. cbn [deref ret]. rewrite Hlogn, Hsz.
  destruct (Z.leb_spec (zlen stream) p) as [Hge|Hlt].
  { exists s. unfold zdrop. rewrite drop_ge by (unfold zlen in *; lia). unfold ztake. rewrite take_nil.
    split; [done|]. by rewrite Z.min_r by lia; replace (zlen stream) with p by lia. }
  destruct (reader_start p s Hr Hlt) as (s1 & i & off & e & Hrun & Hst & Hoff & Hio & Hc & Hidx).
  rewrite (bind_ok _ _ _ _ _ Hrun). unfold bind at 1.
  pose proof Hc as (Hi & Heq & Hoff' & _ & Hf1). injection Heq as Hro.
  destruct (GetWALExtent_at s1 i e Hf1 Hi) as (x & HG & Hx). rewrite Hidx, HG, Hx.
  cbv beta iota zeta. pose proof Hf1 as (_ & _ & _ & Hsz1). fold stream in Hsz1. rewrite Hsz1.
  rewrite (u64_small (p + n)) by lia. set (r_sz := if _ <? _ then _ else _).
  assert (r_sz = Z.min n (zlen stream - p)) as Hrs.
  { unfold r_sz. destruct (Z.ltb_spec (zlen stream) (p + n)); [rewrite u64_small|]; lia. }
  destruct (PositionedRead_loop_wal loop_bound p r_sz 0 [] i off e _ s1 Hc)
    as (r & i2 & off2 & e2 & c2 & s2 & Hloop & Hr2 & Hc2 & Hp2 & Hst2);
    rewrite ?zlen_nil; try lia.
  rewrite (bind_ok _ _ _ _ _ Hloop). cbv beta iota.
  rewrite app_nil_l, zlen_nil, Z.sub_0_r, Z.add_0_r.
  assert (zlen (ztake r_sz (zdrop p stream)) = r_sz) as Hlen by (rewrite zlen_ztake, zlen_zdrop; lia).
  rewrite Hlen, (u64_small (p + r_sz)), <- Hp2 by lia.
  destruct (reader_settle i2 off2 e2 c2 s2 Hc2) as (i3 & off3 & e3 & c3 & s3 & Hset & Hc3 & Hst3 & Hp3 & Hd3);
    [lia|].
  rewrite (bind_ok _ _ _ _ _ Hset). destruct (Z.ltb_spec r 0); [lia|].
  assert (ztake n (zdrop p stream) = ztake r_sz (zdrop p stream)) as ->.
  { destruct (Z.le_gt_cases n (zlen stream - p)); [f_equal; lia|].
    rewrite !ztake_all; [done|rewrite zlen_zdrop; lia..]. }
  rewrite Hlen, (u64_small (p + r_sz)) by lia.
  exists (mod_f (set_last_read (p + r_sz)) (mod_f (set_reader (c_r_off c3) (c_extend_id c3)) s3)).
  split; [done|].
  replace (Z.min (p + n) (zlen stream)) with (offset_of i3 + off3) by lia.
  assert (chunk_step s s3) as (c & id & ->) by eauto using chunk_step_trans.
  split; [done|]. split; [by exists name|]. split; [lia|]. by apply (reader_pos_set i3 off3 e3).
Qed.
End wal_read.


(** The smallest barrier, and a file of one chunk with the two entries above. *)
Definition cfg1 : BuildConfig.
Proof. refine {| SPARSE_BUFFER_SIZE_IN_KB := 4; WAL_BARRIER_SIZE_IN_KB := 4 |}. done. Defined.

Definition wal_log : MemLog := mkMemLog 4 7 0 17.
Definition wal_written : list (list (Z * bytes)) := [[(0, b_of "a"); (1, b_of "bb")]].
Definition wal_file_state : FSt MemDev MemLog unit :=
  mod_f (fun f => set_linkfiles [b_of "/db/000003.log"] (set_file_size 3
    (set_extents [mkExtent 65552 1 4; mkExtent 65569 2 4] f))) wal_state.

Lemma wal_log_holds :
  log_holds (be := be1) (szd := szd1) (cfg := cfg1) wal_log (zbd_be_ (f_zbd wal_state)) wal_written.
Proof.
  split; [|vm_compute; congruence|done|done|done].
  intros [|k] es Hk; [|done]. injection Hk as <-.
  assert (chunk_end (be := be1) (szd := szd1) (cfg := cfg1) wal_log 0 = 69632) as -> by done.
  assert (wal_tail (be := be1) (szd := szd1) wal_log = 65536) as -> by done.
  split; [done|]. split; [|split; [done|split]].
  - split; [done|]. exists wal_phys, (zeros 16 ++ zeros 4045). split; [apply Permutation_swap|].
    split; [right; by eexists|]. split; [reflexivity|]. vm_compute. reflexivity.
  - repeat constructor; simpl; lia.
  - repeat (apply Forall_cons; split; [repeat split; (done || (vm_compute; congruence))|]).
    by apply Forall_nil.
Qed.

