(* ===== verification/FileReadProps.v ===== *)
(** * Properties of reads

    What a file holds, and that positioned reads of files other than
    write-ahead logs return it. *)

From S2P Require Import Prelude Status Coding Device MemDevice Zone Zbd ZbdProps ZoneFile FileRead ZoneFileProps.

(** ** The contents of a file *)

Section contents.
Context {D L : Type} `{spec : BackendSpec D L}.

(** The bytes of the extents on the device [d]. *)
Definition pieces (d : D) (es : list ZoneExtent) : list bytes :=
  (fun e => range (disk d) (e_start_ e) (e_length_ e)) <$> es.
Definition contents (d : D) (es : list ZoneExtent) : bytes := mjoin (pieces d es).

(** An extent that is not empty and ends at least a block before the end of the
    device, so that aligned reads stay inside of it. *)
Definition extent_readable (e : ZoneExtent) : Prop :=
  0 <= e_start_ e /\ 0 < e_length_ e /\
  e_start_ e + e_length_ e + block_sz_ <= nr_zones_ * zone_sz_ /\
  e_length_ e + block_sz_ <= Z.of_nat loop_bound.

Lemma pieces_same d d' es :
  (forall a, disk d' a = disk d a) -> pieces d' es = pieces d es.
Proof.
  intros H. unfold pieces. apply list_fmap_ext. intros i e _. apply range_ext. intros; apply H.
Qed.

Lemma contents_same d d' es : (forall a, disk d' a = disk d a) -> contents d' es = contents d es.
Proof. intros H. unfold contents. by rewrite (pieces_same d). Qed.

Lemma zlen_contents_1 d e : 0 <= e_length_ e -> zlen (contents d [e]) = e_length_ e.
Proof. intros H. unfold contents. simpl. by rewrite app_nil_r, zlen_range. Qed.

Lemma contents_app d es es' : contents d (es ++ es') = contents d es ++ contents d es'.
Proof. unfold contents, pieces. by rewrite fmap_app, join_app. Qed.
End contents.

Section read_props.
Context {D L X : Type} `{spec : BackendSpec D L} {rel : ReliableReads D L} {szd : SZDOnceLog D L}
  {cfg : BuildConfig}.
Implicit Types s : FSt D L X.

Lemma zlen_pieces_lookup (d : D) es i e :
  Forall extent_readable es -> es !! i = Some e ->
  pieces d es !! i = Some (range (disk d) (e_start_ e) (e_length_ e)) /\
  zlen (range (disk d) (e_start_ e) (e_length_ e)) = e_length_ e.
Proof.
  intros Hok Hi. rewrite Forall_lookup in Hok. destruct (Hok _ _ Hi) as (_ & ? & _).
  unfold pieces. rewrite list_lookup_fmap, Hi. split; [done|]. apply zlen_range. lia.
Qed.

(** [GetExtent] finds the extent of a position. *)
Lemma GetExtent_at (d : D) es i e off :
  Forall extent_readable es -> es !! i = Some e -> 0 <= off < e_length_ e ->
  zlen (contents d es) < 2 ^ 64 ->
  GetExtent es (join_offset (pieces d es) i + off) = Some (e, e_start_ e +64 off).
Proof.
  revert i. induction es as [|x es IH]; intros i Hok Hi Hoff Hb; [done|].
  apply Forall_cons in Hok as [(_ & Hxl & _) Hok]. cbn [GetExtent].
  rewrite (contents_app d [x] es), zlen_app, zlen_contents_1 in Hb by lia.
  pose proof (zlen_nonneg (contents d es)).
  destruct i as [|i]; simpl in Hi.
  - simplify_eq. unfold join_offset. simpl. rewrite zlen_nil, Z.add_0_l.
    by destruct (Z.ltb_spec off (e_length_ e)); [|lia].
  - assert (join_offset (pieces d (x :: es)) (S i) = e_length_ x + join_offset (pieces d es) i) as ->.
    { unfold join_offset, pieces. simpl. by rewrite zlen_app, zlen_range by lia. }
    pose proof (join_offset_nonneg (pieces d es) i).
    destruct (Z.ltb_spec (e_length_ x + join_offset (pieces d es) i + off) (e_length_ x)); [lia|].
    destruct (zlen_pieces_lookup d es i e Hok Hi) as [Hp Hpl].
    pose proof (join_offset_S _ _ _ Hp). pose proof (join_offset_le (pieces d es) (S i)).
    unfold contents in *. rewrite u64_small by lia.
    replace (e_length_ x + join_offset (pieces d es) i + off - e_length_ x)
      with (join_offset (pieces d es) i + off) by lia.
    apply IH; [done..|lia].
Qed.

(** Only reads happened. *)
Definition read_step s s' : Prop :=
  exists z', after_read (f_zbd s) z' /\ s' = mkFSt z' (f_file s) (f_buf s) (f_ctx s).

Lemma read_step_refl s : read_step s s.
Proof. exists (f_zbd s). split; [apply after_read_refl|by destruct s]. Qed.

Lemma read_step_trans s1 s2 s3 : read_step s1 s2 -> read_step s2 s3 -> read_step s1 s3.
Proof.
  intros (z & Hz & ->) (z' & Hz' & ->). exists z'. split; [by eapply after_read_trans|done].
Qed.

Lemma read_step_disk s s' a : read_step s s' -> disk (zbd_be_ (f_zbd s')) a = disk (zbd_be_ (f_zbd s)) a.
Proof. intros (z & (d' & -> & H) & ->). apply H. Qed.

(** The cursor is at byte [off] of extent [i]. *)
Definition at_extent (es : list ZoneExtent) (i : nat) (off : Z) (e : ZoneExtent) (c : cursor) : Prop :=
  es !! i = Some e /\ c = mkCursor (e_start_ e + off) (e_start_ e + e_length_ e) 0 /\
  0 <= off <= e_length_ e.

(** Reading [m] bytes at the cursor, up to the end of the extent, with [b]
    bytes more for the alignment. *)
Lemma read_piece_file (e : ZoneExtent) off m b direct id s :
  extent_readable e -> 0 <= off -> 0 < m -> off + m <= e_length_ e -> 0 <= b <= block_sz_ ->
  exists s', read_piece false direct (m + b) (mkCursor (e_start_ e + off) (e_start_ e + e_length_ e) id) s
    = Ok (m + b, range (disk (zbd_be_ (f_zbd s))) (e_start_ e + off) (m + b)) s' /\ read_step s s'.
Proof.
  intros (Hs & Hl & Hdev & Hlb) Ho Hm Hle Hb. unfold read_piece, on_dev, zoom. cbn [c_r_off].
  destruct (Zbd_Read_ok (e_start_ e + off) (m + b) direct (f_zbd s)) as (z' & -> & Har); [lia..|].
  eexists. split; [reflexivity|]. by exists z'.
Qed.

Lemma align_bytes_bounds direct m : 0 <= align_bytes direct m <= block_sz_.
Proof.
  pose proof block_sz_pos. unfold align_bytes. destruct (direct && _); [|lia].
  pose proof (Z.mod_pos_bound m block_sz_). lia.
Qed.

(** The cursor moves to the start of the next extent. *)
Lemma next_extent_file (d : D) es i e c s :
  Forall extent_readable es -> es !! i = Some e -> extents_ (f_file s) = es ->
  nr_zones_ * zone_sz_ + zlen (contents d es) < 2 ^ 64 ->
  next_extent false (join_offset (pieces d es) i) c s
  = Ok (Some (mkCursor (e_start_ e) (e_start_ e + e_length_ e) (c_extend_id c))) s.
Proof.
  intros Hok Hi Hes Hu. pose proof block_sz_pos. pose proof device_size_u64. pose proof Hok as Hok'. rewrite Forall_lookup in Hok'.
  pose proof (Hok' _ _ Hi) as (Hs & Hl & He & _).
  unfold next_extent, bind, ret, get_file, gets. rewrite Hes.
  rewrite <- (Z.add_0_r (join_offset _ _)), (GetExtent_at d es i e 0) by (done || lia).
  by rewrite (u64_small (e_start_ e + e_length_ e)) by lia.
Qed.

Lemma PositionedRead_loop_file n direct offset r_sz r acc es i off e c s :
  extents_ (f_file s) = es -> Forall extent_readable es -> at_extent es i off e c -> 0 <= offset ->
  let d := zbd_be_ (f_zbd s) in
  nr_zones_ * zone_sz_ + zlen (contents d es) < 2 ^ 64 ->
  join_offset (pieces d es) i + off = offset + zlen acc ->
  zlen acc <= r_sz -> offset + r_sz <= zlen (contents d es) -> zlen acc = r_sz \/ off < e_length_ e ->
  (length es - i < n)%nat -> 0 <= r ->
  exists r' c' s', PositionedRead_loop n false direct offset r_sz r acc c s
    = Ok (r', acc ++ ztake (r_sz - zlen acc) (zdrop (offset + zlen acc) (contents d es)), c') s' /\
    0 <= r' /\ read_step s s'.
Proof.
  intros Hes Hok. pose proof device_size_u64 as Hdev. pose proof block_sz_pos as Hbs.
  revert r acc i off e c s Hes.
  induction n as [|n IH]; intros r acc i off e c s Hes Hc Ho d Hu Hp Ha Hr Hd Hn Hr0; [lia|].
  destruct (Z.eqb_spec (zlen acc) r_sz) as [Heq|Hne].
  { exists r, c, s. rewrite PositionedRead_loop_done by done. rewrite Heq, Z.sub_diag, ztake_0, app_nil_r.
    split; [done|]. split; [done|apply read_step_refl]. }
  destruct Hd as [|Hlt]; [done|]. pose proof Hc as (Hi & -> & Hoff).
  destruct (zlen_pieces_lookup d es i e Hok Hi) as [Hpi Hpl].
  pose proof (join_offset_S _ _ _ Hpi) as HS. rewrite Hpl in HS.
  pose proof (join_offset_le (pieces d es) (S i)) as HSle. fold (contents d es) in HSle.
  pose proof (join_offset_nonneg (pieces d es) i). pose proof (zlen_nonneg acc).
  pose proof Hok as Hok'. rewrite Forall_lookup in Hok'. pose proof (Hok' _ _ Hi) as Hre.
  pose proof Hre as (Hst & Hlen & Hend & _).
  set (m := Z.min (r_sz - zlen acc) (e_length_ e - off)).
  pose proof (align_bytes_bounds direct m) as Hb.
  destruct (read_piece_file e off m (align_bytes direct m) direct 0 s Hre) as (s1 & Hrun & Hst1); [lia..|].
  assert (Z.min (r_sz - zlen acc) (e_start_ e + e_length_ e - (e_start_ e + off)) = m) as Hm by lia.
  erewrite PositionedRead_round; cbn [c_extent_end c_r_off c_extend_id]; rewrite ?Hm; [|lia..|exact Hrun].
  fold d. rewrite ztake_range by lia. set (x := range (disk d) (e_start_ e + off) m).
  assert (x = ztake m (zdrop off (range (disk d) (e_start_ e) (e_length_ e)))) as Hx
    by (unfold x; by rewrite zdrop_range, ztake_range by lia).
  assert (zlen x = m) as Hxl by (apply zlen_range; lia).
  rewrite zlen_app, Hxl, <- Hp. unfold contents. rewrite (join_at (pieces d es) i _ off Hpi) by (rewrite Hpl; lia).
  destruct (Z.eqb_spec (zlen acc + m) r_sz) as [Hfull|Hmore]; cbn [negb andb].
  - rewrite PositionedRead_loop_done by (rewrite zlen_app; lia).
    eexists (m + align_bytes direct m), _, s1. split; [|split; [|exact Hst1]]; [|lia].
    rewrite ztake_app_le by (rewrite zlen_zdrop, Hpl; lia). rewrite Hx.
    by replace (r_sz - zlen acc) with m by lia.
  - destruct (Z.eqb_spec (e_start_ e + off + m) (e_start_ e + e_length_ e)) as [Ht|]; [|lia].
    rewrite (u64_small (offset + _)) by lia.
    replace (offset + (zlen acc + m)) with (join_offset (pieces d es) (S i)) by lia.
    destruct (es !! S i) as [e'|] eqn:Hi'; cycle 1.
    { exfalso. apply lookup_ge_None in Hi'. rewrite (join_offset_all _ (S i)) in HS
        by (unfold pieces; by rewrite length_fmap). unfold contents in *. lia. }
    pose proof (Hok' _ _ Hi') as (Hs' & Hl' & He' & _).
    assert (extents_ (f_file s1) = es) as Hes1 by (destruct Hst1 as (z & _ & ->); done).
    rewrite (bind_ok _ _ _ _ _ (next_extent_file d es (S i) e' _ s1 Hok Hi' Hes1 Hu)). cbn [c_extend_id].
    set (d1 := zbd_be_ (f_zbd s1)).
    assert (pieces d1 es = pieces d es) as Hpc by (apply pieces_same; intros a; by apply read_step_disk).
    pose proof (lookup_lt_Some _ _ _ Hi).
    destruct (IH (m + align_bytes direct m) (acc ++ x) (S i) 0 e' (mkCursor (e_start_ e') (e_start_ e' + e_length_ e') 0) s1 Hes1)
      as (r' & c' & s' & Hrun' & Hr' & Hst'); fold d1; unfold contents in *; rewrite ?Hpc, ?zlen_app, ?Hxl;
      [split; [done|]; split; [by rewrite Z.add_0_r|lia]|lia..|].
    exists r', c', s'. split; [|split; [done|by eapply read_step_trans]]. rewrite Hrun'.
    fold d1. rewrite Hpc, zlen_app, Hxl.
    replace (offset + (zlen acc + m)) with (join_offset (pieces d es) (S i)) by lia.
    rewrite (ztake_all m) in Hx by (rewrite zlen_zdrop, Hpl; lia). rewrite <- Hx, <- read_join by lia.
    by replace (r_sz - (zlen acc + m)) with (r_sz - zlen acc - zlen x) by lia.
Qed.

(** Every position before the end lies in an extent. *)
Lemma position_in_extent (d : D) es p :
  Forall extent_readable es -> 0 <= p < zlen (contents d es) ->
  exists i off e, es !! i = Some e /\ 0 <= off < e_length_ e /\ join_offset (pieces d es) i + off = p.
Proof.
  revert p. induction es as [|x es IH]; intros p Hok Hp; [change (zlen (contents d [])) with 0 in Hp; lia|].
  apply Forall_cons in Hok as [(_ & Hxl & _) Hok].
  rewrite (contents_app d [x] es), zlen_app, zlen_contents_1 in Hp by lia.
  destruct (Z.lt_ge_cases p (e_length_ x)) as [Hlt|Hge].
  - exists 0%nat, p, x. split; [done|]. split; [lia|]. unfold join_offset. simpl. rewrite zlen_nil. lia.
  - destruct (IH (p - e_length_ x) Hok) as (i & off & e & Hi & Hoff & Heq); [lia|].
    exists (S i), off, e. split; [done|]. split; [done|].
    assert (join_offset (pieces d (x :: es)) (S i) = e_length_ x + join_offset (pieces d es) i) as ->.
    { unfold join_offset, pieces. simpl. by rewrite zlen_app, zlen_range by lia. }
    lia.
Qed.

(** A file whose data is all in its extents, and which is not a log. *)
Definition file_readable s : Prop :=
  let f := f_file s in
  let d := zbd_be_ (f_zbd s) in
  (exists name, head (linkfiles_ f) = Some name /\ ends_with name (b_of ".log") = false) /\
  Forall extent_readable (extents_ f) /\ file_size_ f = zlen (contents d (extents_ f)) /\
  nr_zones_ * zone_sz_ + zlen (contents d (extents_ f)) < 2 ^ 64 /\
  (length (extents_ f) < loop_bound)%nat.

Lemma PositionedRead_file p n direct s :
  file_readable s -> 0 <= p -> 0 <= n -> p + n < 2 ^ 64 ->
  exists s' last, PositionedRead p n direct s
    = Ok (OK, ztake n (zdrop p (contents (zbd_be_ (f_zbd s)) (extents_ (f_file s)))))
         (mkFSt (f_zbd s') (set_last_read last (f_file s')) (f_buf s') (f_ctx s')) /\ read_step s s'.
Proof.
  intros ((name & Hname & Hlog) & Hok & Hsz & Hu & Hlen) Hp Hn Hpn.
  set (d := zbd_be_ (f_zbd s)) in *. set (es := extents_ (f_file s)) in *.
  pose proof device_size_u64. pose proof zone_sz_pos.
  unfold PositionedRead, WALPositionedRead. unfold bind at 1, get_file, gets. unfold bind at 1, GetFilename.
  unfold bind at 1, get_file, gets. rewrite Hname. cbn [deref ret]. rewrite Hlog, Hsz.
  destruct (Z.leb_spec (zlen (contents d es)) p) as [Hge|Hlt].
  { exists s, (last_read (f_file s)). unfold zdrop. rewrite drop_ge by (unfold zlen in *; lia).
    unfold ztake. rewrite take_nil. split; [by destruct s as [? [] ? ?]|apply read_step_refl]. }
  destruct (position_in_extent d es p Hok ltac:(lia)) as (i & off & e & Hi & Hoff & Hio).
  pose proof Hok as Hok'. rewrite Forall_lookup in Hok'. pose proof (Hok' _ _ Hi) as (Hs & Hl & Hd & _). pose proof block_sz_pos.
  unfold bind at 1. cbn [ret]. unfold bind at 1. fold es. rewrite <- Hio, (GetExtent_at d es i e off) by (done || lia).
  cbv beta iota zeta. rewrite Hsz, Hio.
  rewrite (u64_small (e_start_ e + off)), (u64_small (e_start_ e + e_length_ e)), (u64_small (p + n)) by lia.
  set (r_sz := if _ <? _ then _ else _).
  assert (r_sz = Z.min n (zlen (contents d es) - p)) as Hrs.
  { unfold r_sz. destruct (Z.ltb_spec (zlen (contents d es)) (p + n)); [rewrite u64_small|]; lia. }
  destruct (PositionedRead_loop_file loop_bound direct p r_sz 0 [] es i off e
    (mkCursor (e_start_ e + off) (e_start_ e + e_length_ e) 0) s) as (r & c' & s' & Hrun & Hr & Hst);
    fold d; rewrite ?zlen_nil; try done; try lia; [by split; [|split; [|lia]]|].
  fold d in Hrun. rewrite app_nil_l in Hrun. change (zlen []) with 0 in Hrun.
  rewrite Z.sub_0_r, Z.add_0_r in Hrun.
  rewrite (bind_ok _ _ _ _ _ Hrun). cbv beta iota. cbn [andb]. unfold bind at 1. cbn [ret].
  destruct (Z.ltb_spec r 0); [lia|].
  assert (ztake n (zdrop p (contents d es)) = ztake r_sz (zdrop p (contents d es))) as ->.
  { destruct (Z.le_gt_cases n (zlen (contents d es) - p)); [f_equal; lia|].
    rewrite !ztake_all; [done|rewrite zlen_zdrop; lia..]. }
  do 2 eexists. split; [reflexivity|done].
Qed.
(** ** The old reader

    Outside of logs the loop of [WALPositionedRead] does what the loop it replaces
    did: its cursor is the old loop's [r_off] and [extent_end]. *)
Lemma NormalRead_loop_equiv n direct offset r_sz : forall r acc c s,
  bind (PositionedRead_loop n false direct offset r_sz r acc c) (fun x => ret x.1) s
  = NormalRead_loop (X := X) n direct offset r_sz r acc (c_r_off c) (c_extent_end c) s.
Proof.
  induction n as [|n IH]; intros r acc c s; cbn [PositionedRead_loop NormalRead_loop];
    destruct (zlen acc =? r_sz); try done.
  set (sz := if _ <? _ then _ else _). set (al := if direct && _ then _ else 0).
  assert (direct && (if direct && negb (sz mod block_sz_ =? 0) then true else sz mod block_sz_ =? 0)
          = direct) as ->.
  { by destruct direct, (_ =? 0). }
  rewrite bind_assoc. unfold read_piece. apply bind_ext. intros [r1 data] s1.
  destruct (r1 <=? 0); [done|].
  set (sz' := if r1 <=? sz then _ else _). set (acc' := acc ++ _). cbn [c_r_off c_extent_end].
  destruct (negb _ && _); [|exact (IH r1 acc' (mkCursor _ _ _) s1)].
  unfold next_extent. rewrite !bind_assoc, bind_ret_l, bind_assoc. apply bind_ext. intros f s2.
  destruct (GetExtent _ _) as [[e ?]|]; [|done]. rewrite bind_ret_l.
  exact (IH r1 acc' (mkCursor _ _ _) s2).
Qed.
End read_props.


(** A file of two extents on the small device. *)
Definition file_state : FSt MemDev MemLog unit :=
  mkFSt (mkZbd (mkMemDev [(128, b_of "world"); (64, b_of "hello ")] ∅) ∅ [] [] [] 0 0 0 0 0 OK false 2 2 0)
    (set_linkfiles [b_of "/db/1.sst"] (set_file_size 11
       (set_extents [mkExtent 64 6 1; mkExtent 128 5 2] (ZoneFile_new 1)))) [] tt.


(** C34: The positioned read that replaced the old one returns, for a file that is
    not a write-ahead log, what the old one returns, with the same status, and
    leaves the same state, apart from the record of the last read; it fails and
    gets stuck where the old one does. *)
Theorem normal_read_equivalent {D L X : Type} `{be : ZonedBlockDeviceBackend D L}
    {szd : SZDOnceLog D L} {cfg : BuildConfig} (p n : Z) (direct : bool) (name : bytes)
    (s : FSt D L X) :
  head (linkfiles_ (f_file s)) = Some name -> ends_with name (b_of ".log") = false ->
  is_wal_ (f_file s) = false ->
  match NormalPositionedRead p n direct s with
  | Ok x s' => exists last, PositionedRead p n direct s
      = Ok x (mkFSt (f_zbd s') (set_last_read last (f_file s')) (f_buf s') (f_ctx s'))
  | Err e s' => PositionedRead p n direct s = Err e s'
  | Stuck k => PositionedRead p n direct s = Stuck k
  end.
Proof.
  intros Hname Hlog Hwal. pose proof (fun s' : FSt D L X => ex_intro (fun l => s' = mkFSt (f_zbd s')
    (set_last_read l (f_file s')) (f_buf s') (f_ctx s')) (last_read (f_file s'))
    ltac:(by destruct s' as [? [] ? ?])) as Hsame.
  assert (PositionedRead p n direct s = if file_size_ (f_file s) <=? p then Ok (OK, []) s else
    match GetExtent (extents_ (f_file s)) p with
    | None => Ok (OK, []) s
    | Some (e, r_off) =>
        bind (PositionedRead_loop loop_bound false direct p
          (if file_size_ (f_file s) <? p +64 n then file_size_ (f_file s) -64 p else n) 0 []
          (mkCursor r_off (e_start_ e +64 e_length_ e) 0)) (fun x =>
          let res := if x.1.1 <? 0 then (IOError "pread error\n", []) else (OK, x.1.2) in
          mod_file (set_last_read (p +64 zlen res.2)) ;; ret res) s
    end) as ->.
  { unfold PositionedRead, WALPositionedRead, GetFilename, bind, get_file, gets.
    rewrite Hname. cbn [deref ret]. rewrite Hlog. unfold ret. destruct (_ <=? p); [done|]. destruct (GetExtent _ p) as [[e r_off]|]; [|done].
    destruct (PositionedRead_loop _ _ _ _ _ _ _ _ s) as [[[r acc] c] s'| |]; [|done..].
    simpl. by destruct (r <? 0). }
  unfold NormalPositionedRead. unfold bind at 1, get_file, gets. rewrite Hwal.
  destruct (_ <=? p). { destruct (Hsame s) as [l Hl]. exists l. unfold ret. by rewrite <- Hl. }
  destruct (GetExtent _ p) as [[e r_off]|].
  2:{ destruct (Hsame s) as [l Hl]. exists l. by rewrite <- Hl. }
  set (r_sz := if _ <? _ then _ else _).
  pose proof (NormalRead_loop_equiv loop_bound direct p r_sz 0 []
    (mkCursor r_off (e_start_ e +64 e_length_ e) 0) s) as Heq.
  cbn [c_r_off c_extent_end] in Heq. cbv zeta. unfold bind at 1. rewrite <- Heq. unfold bind, ret.
  destruct (PositionedRead_loop _ _ _ _ _ _ _ _ s) as [[[r acc] c] s'| |]; [|done..].
  simpl. destruct (r <? 0); by eexists.
Qed.

Lemma normal_read_equivalent_witness :
  NormalPositionedRead (be := be0) 3 5 true file_state = Ok (OK, b_of "lo wo") file_state /\
  exists last, PositionedRead (be := be0) (szd := szd0) (cfg := cfg0) 3 5 true file_state
    = Ok (OK, b_of "lo wo")
         (mkFSt (f_zbd file_state) (set_last_read last (f_file file_state)) (f_buf file_state) (f_ctx file_state)).
Proof.
  assert (NormalPositionedRead (be := be0) 3 5 true file_state
    = Ok (OK, b_of "lo wo") file_state) as H by (vm_compute; reflexivity).
  split; [done|].
  pose proof (normal_read_equivalent (be := be0) (szd := szd0) (cfg := cfg0) 3 5 true
    (b_of "/db/1.sst") file_state eq_refl eq_refl eq_refl) as Heq.
  rewrite H in Heq. exact Heq.
Defined.
