(* ===== verification/FileWriteProps.v ===== *)
(** * Properties of writes

    Appending to files other than write-ahead logs: the data ends up behind the
    contents of the file, whatever the zones it is spread over, and nothing that
    was stored before is touched.  The metadata the write path persists goes
    through the interface [MetadataWriterSpec], which the file system implements. *)

From S2P Require Import Prelude Status Coding Device MemDevice Zone Zbd ZbdProps ZbdFrame ZoneFile FileWrite FileRead ZoneFileProps FileReadProps.

(** ** The metadata writer *)

Section meta_step.
Context {D L : Type} `{spec : BackendSpec D L}.
Implicit Types s : Zbd D.

(** What persisting metadata may change on the device: the metadata zones. *)
Definition meta_step s s' : Prop :=
  same_layout s s' /\ meta_zones s' = meta_zones s /\
  zone_deferred_status_ s' = zone_deferred_status_ s /\ is_u 64 (bytes_written_ s') /\ zones_wf s' /\
  (forall z, z ∉ meta_zones s -> zone_heap s' !! z = zone_heap s !! z) /\
  (forall a, (forall z zn, z ∈ meta_zones s -> zone_heap s !! z = Some zn ->
      ~ (start_ zn <= a < start_ zn + zone_sz_)) -> disk (zbd_be_ s') a = disk (zbd_be_ s) a).

Lemma meta_step_stored s s' : dev_ok s -> meta_step s s' -> stored none s s' /\ dev_ok s'.
Proof.
  intros Hok (Hl & Hm & Hd & Hb & Hwf & Hh & Ha). split.
  - split_and!; [done..|]. intros z zn Hin Hz.
    pose proof (zones_wf_lookup _ _ _ (dok_wf _ Hok) Hz) as (?&?&?&?&?&?&?).
    exists zn. rewrite Hh by (by apply Hok). split; [done|]. split; [lia|].
    split; [unfold none; by rewrite Z.add_0_r, u64_small|].
    intros a Hr. apply Ha. intros y yn Hy Hyn Hr'.
    assert (y <> z) as Hne by (intros ->; by apply (dok_roles _ Hok z)).
    destruct (dok_disjoint _ Hok _ _ _ _ Hyn Hz Hne); lia.
  - apply (dev_ok_step s); try done. intros z zn' Hin. rewrite Hh by (by apply Hok).
    by eapply dok_blocks.
Qed.
End meta_step.

(** What the write path relies on: persisting the metadata of a file writes to
    metadata zones only and changes the file in its modification time and in
    what is synced.  [writer_ok] is what the writer itself needs, given the
    metadata zones. *)
Class MetadataWriterSpec (D L X : Type) `{spec : BackendSpec D L} {mw : MetadataWriter D L X} := {
  writer_ok : list nat -> X -> Prop;
  persist_step : forall s : FSt D L X,
    dev_ok (f_zbd s) -> writer_ok (meta_zones (f_zbd s)) (f_ctx s) ->
    match Persist s with
    | Ok _ s' | Err _ s' =>
        meta_step (f_zbd s) (f_zbd s') /\ f_buf s' = f_buf s /\
        writer_ok (meta_zones (f_zbd s)) (f_ctx s') /\
        exists n t, f_file s' = set_nr_synced_extents n (set_m_time t (f_file s))
    | Stuck _ => True
    end
}.

(** ** What a write adds *)

Section wrote.
Context {D L X : Type} `{spec : BackendSpec D L} {mw : MetadataWriter D L X} {mws : MetadataWriterSpec D L X}.
Implicit Types s : FSt D L X.

(** The bytes of the extents in a zone. *)
Definition usage (es : list ZoneExtent) (z : nat) : Z :=
  foldr (fun e n => (if decide (z = e_zone_ e) then e_length_ e else 0) + n) 0 es.

(** An extent whose data is below the write pointer of its zone. *)
Definition stored_extent (s : Zbd D) (e : ZoneExtent) : Prop :=
  0 <= e_length_ e /\ e_zone_ e ∈ io_zones s /\
  exists zn, zone_heap s !! e_zone_ e = Some zn /\
    start_ zn <= e_start_ e /\ e_start_ e + e_length_ e <= wp_ zn.

Lemma usage_app es es' z : usage (es ++ es') z = usage es z + usage es' z.
Proof. induction es as [|e es IH]; simpl; [done|]. rewrite IH. lia. Qed.

Lemma stored_extent_step u (s s' : Zbd D) e : stored u s s' -> stored_extent s e -> stored_extent s' e.
Proof.
  intros (Hl & _ & _ & Hz) (Hn & Hin & zn & Hzn & H1 & H2). pose proof Hl as (Hio & _).
  destruct (Hz _ _ Hin Hzn) as (zn' & Hzn' & Hw & _). split; [done|]. rewrite Hio. split; [done|].
  exists zn'. rewrite (same_layout_start _ _ _ _ _ Hl Hzn Hzn'). split; [done|]. lia.
Qed.

Lemma contents_step u (s s' : Zbd D) es :
  stored u s s' -> Forall (stored_extent s) es -> contents (zbd_be_ s') es = contents (zbd_be_ s) es.
Proof.
  intros (_ & _ & _ & Hz) Hes. unfold contents, pieces. f_equal.
  induction Hes as [|e es (Hn & Hin & zn & Hzn & H1 & H2) _ IH]; [done|]. rewrite !fmap_cons, IH. f_equal.
  destruct (Hz _ _ Hin Hzn) as (_ & _ & _ & _ & Ha). apply range_ext. intros a Hr. apply Ha. lia.
Qed.

(** What the metadata writer needs still holds. *)
Definition writer_kept s s' : Prop :=
  writer_ok (meta_zones (f_zbd s)) (f_ctx s) -> writer_ok (meta_zones (f_zbd s)) (f_ctx s').

(** [data] was added to the file: in new extents, accounted for in their zones,
    and with everything stored before unchanged. *)
Definition wrote (data : bytes) s s' : Prop :=
  exists new, extents_ (f_file s') = extents_ (f_file s) ++ new /\
    Forall (stored_extent (f_zbd s')) new /\ contents (zbd_be_ (f_zbd s')) new = data /\
    stored (usage new) (f_zbd s) (f_zbd s') /\
    file_size_ (f_file s') = file_size_ (f_file s) +64 zlen data /\
    linkfiles_ (f_file s') = linkfiles_ (f_file s) /\ is_wal_ (f_file s') = is_wal_ (f_file s) /\
    is_sparse_ (f_file s') = is_sparse_ (f_file s) /\ writer_kept s s'.

Lemma wrote_trans d1 d2 s1 s2 s3 : wrote d1 s1 s2 -> wrote d2 s2 s3 -> wrote (d1 ++ d2) s1 s3.
Proof.
  intros (n1 & E1 & F1 & C1 & S1 & Z1 & L1 & W1 & P1 & K1) (n2 & E2 & F2 & C2 & S2 & Z2 & L2 & W2 & P2 & K2).
  exists (n1 ++ n2). split; [by rewrite E2, E1, app_assoc|].
  split; [apply Forall_app; split; [|done]; eapply Forall_impl; [done|]; intros; by eapply stored_extent_step|].
  split; [by rewrite contents_app, C2, (contents_step _ _ _ _ S2 F1), C1|].
  split; [|split_and!; [by rewrite Z2, Z1, zlen_app, u64_add_add|congruence..|]].
  2: { unfold writer_kept in *. destruct S1 as (_ & Hm & _). rewrite Hm in K2. auto. }
  eapply stored_ext; [|by eapply stored_trans]. intros z. simpl. by rewrite usage_app.
Qed.

(** Steps that write no data. *)
Lemma wrote_nothing s s' :
  stored none (f_zbd s) (f_zbd s') -> extents_ (f_file s') = extents_ (f_file s) ->
  file_size_ (f_file s') = file_size_ (f_file s) -> is_u 64 (file_size_ (f_file s)) ->
  linkfiles_ (f_file s') = linkfiles_ (f_file s) -> is_wal_ (f_file s') = is_wal_ (f_file s) ->
  is_sparse_ (f_file s') = is_sparse_ (f_file s) -> writer_kept s s' -> wrote [] s s'.
Proof.
  intros Hs He Hz Hu Hl Hw Hsp Hk. exists []. rewrite app_nil_r. split_and!; try done.
  rewrite Hz, zlen_nil, Z.add_0_r, u64_small; done.
Qed.
End wrote.

(** ** The steps of a write *)

Section write_steps.
Context {D L X : Type} `{spec : BackendSpec D L} {szd : SZDOnceLog D L} {cfg : BuildConfig}
  {mw : MetadataWriter D L X} {mws : MetadataWriterSpec D L X}.
Implicit Types s : FSt D L X.

(** A file that is being written, and is not a write-ahead log: its active zone
    is an I/O zone, and the next extent starts at its write pointer. *)
Record file_inv s : Prop := {
  fi_dev : dev_ok (f_zbd s);
  fi_writer : writer_ok (meta_zones (f_zbd s)) (f_ctx s);
  fi_wal : is_wal_ (f_file s) = false;
  fi_size : is_u 64 (file_size_ (f_file s));
  fi_active : forall z, active_zone_ (f_file s) = Some z ->
    z ∈ io_zones (f_zbd s) /\
    exists zn, zone_heap (f_zbd s) !! z = Some zn /\ extent_start_ (f_file s) = wp_ zn
}.

Lemma on_dev_run {A} (m : M (Zbd D) A) s :
  on_dev m s =
    match m (f_zbd s) with
    | Ok a z => Ok a (mkFSt z (f_file s) (f_buf s) (f_ctx s))
    | Err e z => Err e (mkFSt z (f_file s) (f_buf s) (f_ctx s))
    | Stuck w => Stuck w
    end.
Proof. done. Qed.

Lemma AllocateNewZone_step s :
  file_inv s ->
  match AllocateNewZone s with
  | Ok _ s' => file_inv s' /\ wrote [] s s' /\ f_buf s' = f_buf s /\ is_Some (active_zone_ (f_file s'))
  | Err _ s' => wrote [] s s'
  | Stuck _ => True
  end.
Proof.
  intros Hi. unfold AllocateNewZone. unfold bind at 1, get_file, gets. rewrite (fi_wal _ Hi).
  unfold bind at 1. rewrite on_dev_run.
  pose proof (frame_AllocateIOZone (f_zbd s) (zf_lifetime_ (f_file s)) (io_type_ (f_file s))
    (f_zbd s) (frame_start _ (dok_wf _ (fi_dev _ Hi)))) as Hfr.
  destruct (AllocateIOZone _ _ _) as [[z|] d1|e d1|] eqn:Ha; [| | |done].
  2,3: destruct Hfr as [Hwf1 Hk1]; apply wrote_nothing; try done;
    [apply kept_stored; [apply Hi|done]|apply Hi|by intros ?].
  destruct (AllocateIOZone_some _ _ _ _ _ (fi_dev _ Hi) Ha) as (Hin & zn & Hz).
  pose proof (kept_dev_ok _ _ (fi_dev _ Hi) Hfr) as Hok1.
  pose proof (kept_stored _ _ (dok_wf _ (fi_dev _ Hi)) (proj2 Hfr)) as Hst1.
  unfold SetActiveZone. unfold bind at 1, mod_file, modify. unfold bind at 1. rewrite on_dev_run.
  cbn [f_zbd f_file f_buf f_ctx]. rewrite (get_zone_ok z zn d1 Hz). unfold bind at 1, modify.
  set (s1 := mkFSt _ _ _ _). assert (meta_zones d1 = meta_zones (f_zbd s)) as Hm by apply Hst1.
  pose proof (persist_step s1 Hok1) as Hp. cbn [f_zbd f_ctx s1] in Hp.
  rewrite Hm in Hp. specialize (Hp (fi_writer _ Hi)).
  assert (forall s2, meta_step (f_zbd s1) (f_zbd s2) ->
    (exists n t, f_file s2 = set_nr_synced_extents n (set_m_time t (f_file s1))) ->
    writer_ok (meta_zones (f_zbd s)) (f_ctx s2) -> dev_ok (f_zbd s2) /\ wrote [] s s2) as Hw.
  { intros s2 Hms (n & t & Hf) Hctx. destruct (meta_step_stored _ _ Hok1 Hms) as [Hst2 Hok2].
    split; [done|]. apply wrote_nothing; rewrite ?Hf; try done; [|apply Hi|by intros ?].
    eapply stored_ext; [|by eapply stored_trans]. done. }
  unfold PersistMetadata. destruct (Persist s1) as [[] s2|e s2|]; [| |done].
  - destruct Hp as (Hms & Hb & Hwo & Hf). destruct (Hw s2 Hms Hf Hwo) as [Hok2 Hwr].
    destruct Hf as (n & t & Hf). split; [|by rewrite Hf; split_and!].
    pose proof Hms as ((Hio & _) & Hm2 & _ & _ & _ & Hh & _). split; [done| | | |].
    + rewrite Hm2. cbn [f_zbd s1]. rewrite Hm. done.
    + rewrite Hf. apply Hi.
    + rewrite Hf. apply Hi.
    + intros y. rewrite Hf. cbn. intros [= <-]. rewrite Hio. split; [done|].
      exists zn. rewrite Hh; [done|]. by apply Hok1.
  - destruct Hp as (Hms & _ & Hwo & Hf). by apply Hw.
Qed.

Lemma CloseActiveZone_frame s z zn :
  dev_ok (f_zbd s) -> is_wal_ (f_file s) = false -> active_zone_ (f_file s) = Some z -> zone_heap (f_zbd s) !! z = Some zn ->
  match CloseActiveZone s with
  | Ok _ s' | Err _ s' => frame (f_zbd s) (f_zbd s') /\ s' = mkFSt (f_zbd s') (set_active_zone None (f_file s)) (f_buf s) (f_ctx s)
  | Stuck _ => False
  end.
Proof.
  intros Hdev Hwal Hz Hzn. unfold CloseActiveZone. unfold bind at 1, get_file, gets. rewrite Hwal, Hz.
  unfold bind at 1. unfold ret at 1. unfold bind at 1. rewrite on_dev_run, (get_zone_ok z zn _ Hzn).
  pose proof (frame_Close (f_zbd s) z (f_zbd s) (frame_start _ (dok_wf _ Hdev))) as Hc.
  assert (exists r d1, attempt (on_dev (Zone_Close z)) s = Ok r (mkFSt d1 (f_file s) (f_buf s) (f_ctx s)) /\
    frame (f_zbd s) d1 /\ zone_heap d1 !! z = Some zn) as (r & d1 & Hr & Hfr1 & Hzn1).
  { unfold attempt. rewrite on_dev_run. rewrite (Zone_Close_run z zn) in * by done.
    destruct (_ || _); [by eexists _, _|]. destruct (be_Close _ _) as [[e|u] d']; by eexists _, _. }
  destruct s as [zb f b x]. cbn [f_zbd f_file f_buf f_ctx] in *.
  rewrite (bind_ok _ _ _ _ _ Hr). unfold ReleaseActiveZone. unfold bind at 1 2, get_file, gets.
  cbn [f_file]. rewrite Hz. unfold bind at 1, deref, ret at 1. unfold bind at 1. rewrite on_dev_run.
  cbn [f_zbd f_file f_buf f_ctx].
  pose proof (frame_Release zb z d1 Hfr1) as Hrel. unfold Release in *.
  assert (exists b' d2, (zn0 <- get_zone z ;; if busy_ zn0 then mod_zone z (set_busy false) ;; ret true
    else ret false) d1 = Ok b' d2) as (b' & d2 & Hrun).
  { rewrite (bind_ok _ _ _ _ _ (get_zone_ok z zn d1 Hzn1)). destruct (busy_ zn); [|by eexists _, _].
    rewrite (bind_ok _ _ _ _ _ (mod_zone_ok z (set_busy false) zn d1 Hzn1)). by eexists _, _. }
  rewrite Hrun in *. unfold mod_file, modify. cbn [f_zbd f_file f_buf f_ctx].
  destruct r as [e|u]; [done|]. rewrite on_dev_run. cbn [f_zbd f_file f_buf f_ctx].
  assert (preserves (frame zb) (PutOpenIOZoneToken ;; when (IsFull zn) PutActiveIOZoneToken)) as Hput.
  { apply preserves_bind; [apply frame_PutOpen|]. intros _. apply preserves_when, frame_PutActive. }
  specialize (Hput d2 Hrel). unfold bind, when, PutOpenIOZoneToken, PutActiveIOZoneToken, modify in *.
  by destruct (IsFull zn).
Qed.

Lemma CloseActiveZone_step s z :
  file_inv s -> active_zone_ (f_file s) = Some z ->
  match CloseActiveZone s with
  | Ok _ s' | Err _ s' => file_inv s' /\ wrote [] s s' /\ f_buf s' = f_buf s
  | Stuck _ => False
  end.
Proof.
  intros Hi Hz. destruct (fi_active _ Hi z Hz) as (Hin & zn & Hzn & _).
  assert (forall d, frame (f_zbd s) d ->
    let s' := mkFSt d (set_active_zone None (f_file s)) (f_buf s) (f_ctx s) in file_inv s' /\ wrote [] s s' /\ f_buf s' = f_buf s) as Hend.
  { intros d Hfr s'. pose proof (kept_stored _ _ (dok_wf _ (fi_dev _ Hi)) (proj2 Hfr)) as Hst.
    split; [|split; [|done]].
    - split; [by apply (kept_dev_ok (f_zbd s)); [apply Hi|]| |apply Hi|apply Hi|done].
      cbn. replace (meta_zones d) with (meta_zones (f_zbd s)) by (symmetry; apply Hst). apply Hi.
    - apply wrote_nothing; try done; [apply Hi|by intros ?]. }
  pose proof (CloseActiveZone_frame s z zn (fi_dev _ Hi) (fi_wal _ Hi) Hz Hzn) as Hc.
  destruct (CloseActiveZone s); [| |done]; destruct Hc as [Hfr ->]; by apply Hend.
Qed.

Lemma pad_to_spec n : 0 <= n -> 0 <= pad_to block_sz_ n /\ (n + pad_to block_sz_ n) mod block_sz_ = 0 /\
  forall c, c mod block_sz_ = 0 -> n <= c -> n + pad_to block_sz_ n <= c.
Proof.
  intros Hn. pose proof block_sz_pos as Hb. pose proof (Z.mod_pos_bound n block_sz_ Hb) as Hm.
  pose proof (Z.div_mod n block_sz_) as Hdm. specialize (Hdm ltac:(lia)). unfold pad_to.
  destruct (Z.eqb_spec (n mod block_sz_) 0) as [E|E]; [rewrite Z.add_0_r; auto with lia|].
  replace (n + (block_sz_ - n mod block_sz_)) with ((n / block_sz_ + 1) * block_sz_) by lia.
  split; [lia|]. split; [by apply Z.mod_mul; lia|]. intros c Hc Hle.
  apply Z.mod_divide in Hc as [k ->]; [|lia]. apply Z.mul_le_mono_nonneg_r; [lia|].
  destruct (Z.le_gt_cases k (n / block_sz_)); [|lia].
  assert (k * block_sz_ <= n / block_sz_ * block_sz_) by (apply Z.mul_le_mono_nonneg_r; lia). lia.
Qed.

(** Padding the buffer behind the first [n] bytes. *)
Lemma pad_run n s :
  0 <= n -> n + pad_to block_sz_ n <= zlen (f_buf s) ->
  exists b, when (negb (pad_to block_sz_ n =? 0)) (buf_write n (zeros (pad_to block_sz_ n))) s
      = Ok tt (mkFSt (f_zbd s) (f_file s) b (f_ctx s)) /\
    zlen b = zlen (f_buf s) /\ ztake n b = ztake n (f_buf s) /\
    (pad_to block_sz_ n = 0 -> b = f_buf s).
Proof.
  intros Hn Hl. destruct (pad_to_spec n Hn) as (Hp & _).
  destruct (Z.eqb_spec (pad_to block_sz_ n) 0) as [E|E].
  - exists (f_buf s). split_and!; try done. by destruct s.
  - exists (splice n (zeros (pad_to block_sz_ n)) (f_buf s)).
    unfold when, buf_write, get_buf. cbn [negb]. unfold bind at 1, gets.
    assert ((0 <=? n) && (n + zlen (zeros (pad_to block_sz_ n)) <=? zlen (f_buf s)) = true) as ->.
    { rewrite zlen_zeros by lia. apply andb_true_iff. lia. }
    split; [done|]. split; [apply zlen_splice; rewrite ?zlen_zeros; lia|].
    split; [apply ztake_splice; lia|done].
Qed.

(** What [record_extent] leaves. *)
Definition recorded (start len : Z) (zn : Zone) (f : ZoneFile L) (z : nat) : ZoneFile L :=
  set_file_size (file_size_ f +64 len)
    (set_extent_start (wp_ zn) (set_extents (extents_ f ++ [mkExtent start len z]) f)).

Lemma record_extent_run start len z zn s :
  zone_heap (f_zbd s) !! z = Some zn ->
  record_extent start len z s =
    Ok tt (mkFSt (set_heap (<[z := set_used_capacity (used_capacity_ zn +64 len) zn]>
                    (zone_heap (f_zbd s))) (f_zbd s))
             (recorded start len zn (f_file s) z) (f_buf s) (f_ctx s)).
Proof.
  intros Hz. unfold record_extent, push_extent, mod_file, add_used. unfold bind at 1, modify.
  unfold bind at 1. rewrite on_dev_run. cbn [f_zbd f_file f_buf f_ctx].
  rewrite (get_zone_ok z zn _ Hz). unfold bind at 1. unfold bind at 1. rewrite on_dev_run.
  cbn [f_zbd f_file f_buf f_ctx]. rewrite (mod_zone_ok z _ zn _ Hz). done.
Qed.

(** The piece of [n] bytes that is appended to the active zone. *)
Lemma append_piece n s z zn :
  file_inv s -> active_zone_ (f_file s) = Some z -> zone_heap (f_zbd s) !! z = Some zn ->
  0 <= n <= capacity_ zn -> n + pad_to block_sz_ n <= zlen (f_buf s) ->
  (length (f_buf s) <= loop_bound)%nat ->
  match (data <- buf_read 0 (n + pad_to block_sz_ n) ;; on_dev (Append z data)) s with
  | Ok _ s' => exists d zn', s' = mkFSt d (f_file s) (f_buf s) (f_ctx s) /\
      zone_heap d !! z = Some zn' /\ capacity_ zn' = capacity_ zn - (n + pad_to block_sz_ n) /\
      file_inv (mkFSt d (set_extent_start (wp_ zn') (f_file s)) (f_buf s) (f_ctx s)) /\
      stored none (f_zbd s) d /\ range (disk (zbd_be_ d)) (wp_ zn) n = ztake n (f_buf s) /\
      wp_ zn + n <= wp_ zn'
  | Err _ s' => wrote [] s s'
  | Stuck _ => False
  end.
Proof.
  intros Hi Hact Hz Hn Hl Hlb. destruct (fi_active _ Hi z Hact) as (Hin & zn0 & Hz0 & _). simplify_eq.
  destruct (pad_to_spec n ltac:(lia)) as (Hp & Hmod & Hle).
  specialize (Hle (capacity_ zn) (dok_blocks _ (fi_dev _ Hi) _ _ Hin Hz) ltac:(lia)).
  unfold buf_read, get_buf. unfold bind at 1 2, gets.
  set (m := n + pad_to block_sz_ n) in *.
  assert ((0 <=? 0) && (0 <=? m) && (0 + m <=? zlen (f_buf s)) = true) as -> by lia.
  unfold ret. cbv beta iota. rewrite zdrop_0, on_dev_run. set (data := ztake m (f_buf s)).
  assert (zlen data = m) as Hlen by (unfold data; rewrite zlen_ztake; lia).
  pose proof (append_step z zn data (f_zbd s) (fi_dev _ Hi) Hin Hz ltac:(lia)) as Ha.
  assert (length data <= loop_bound)%nat as Hdl.
  { unfold data, ztake. rewrite length_take. lia. }
  specialize (Ha Hdl). destruct (Append z data (f_zbd s)) as [[] d'|e d'|]; [|apply wrote_nothing; (done || apply Hi || by intros ?)|done].
  destruct Ha as (Hst & Hz' & Hr & Hok'). rewrite Hlen in *. specialize (Hok' Hmod).
  pose proof (zones_wf_lookup _ _ _ (dok_wf _ (fi_dev _ Hi)) Hz) as Hwf.
  exists d', (advance m zn). split; [done|]. split; [done|].
  destruct (zone_wf_u64 _ Hwf) as [_ Hc64]. unfold is_u in Hc64.
  split; [simpl; rewrite u64_small; lia|]. rewrite advance_wp by (done || lia).
  pose proof Hst as ((Hio & _) & Hm & _). split; [|split; [done|split; [|lia]]].
  - split; cbn; [done|rewrite Hm; apply Hi|apply Hi|apply Hi|]. rewrite Hact. intros y [= <-].
    rewrite Hio. split; [done|]. exists (advance m zn). by rewrite advance_wp by (done || lia).
  - apply (f_equal (ztake n)) in Hr. rewrite ztake_range in Hr by lia. rewrite Hr. unfold data, ztake.
    rewrite take_take. f_equal. lia.
Qed.

(** The state with [len] bytes recorded as a new extent. *)
Lemma record_step s d b z zn zn' len :
  file_inv s -> active_zone_ (f_file s) = Some z -> zone_heap (f_zbd s) !! z = Some zn ->
  zone_heap d !! z = Some zn' -> 0 <= len -> wp_ zn + len <= wp_ zn' -> stored none (f_zbd s) d ->
  file_inv (mkFSt d (set_extent_start (wp_ zn') (f_file s)) b (f_ctx s)) ->
  let s' := mkFSt (set_heap (<[z := set_used_capacity (used_capacity_ zn' +64 len) zn']> (zone_heap d)) d)
              (recorded (extent_start_ (f_file s)) len zn' (f_file s) z) b (f_ctx s) in
  file_inv s' /\ wrote (range (disk (zbd_be_ d)) (wp_ zn) len) s s'.
Proof.
  intros Hi Hact Hz Hz' Hlen Hwp Hst Hi' s'.
  destruct (fi_active _ Hi z Hact) as (Hin & zn0 & Hz0 & Hes). simplify_eq.
  pose proof Hst as (Hl & Hm & _). pose proof Hl as (Hio & _). cbn in Hi'.
  assert (z ∈ io_zones d) as Hin' by (by rewrite Hio).
  destruct (add_used_heap z zn' len d (fi_dev _ Hi') Hin' Hz') as [Hu Hok].
  pose proof (same_layout_start _ _ _ _ _ Hl Hz Hz') as Hstart.
  pose proof (zones_wf_lookup _ _ _ (dok_wf _ (fi_dev _ Hi)) Hz) as (?&?&?&?&?&?&?).
  split.
  - split; [done|apply Hi'|apply Hi|apply u64_range|]. cbn. intros y. rewrite Hact. intros [= <-].
    split; [done|]. rewrite lookup_insert_eq. by eexists.
  - exists [mkExtent (extent_start_ (f_file s)) len z].
    assert (zlen (range (disk (zbd_be_ d)) (wp_ zn) len) = len) as Hzl by (by apply zlen_range).
    split_and!; try done.
    + apply Forall_cons. split; [|by apply Forall_nil]. split; [done|]. split; [done|]. cbn.
      rewrite lookup_insert_eq. eexists. split; [done|]. rewrite Hes. cbn. rewrite Hstart. lia.
    + unfold contents, pieces. cbn. by rewrite app_nil_r, Hes.
    + eapply stored_ext; [|by eapply stored_trans]. intros y. unfold none. cbn.
      destruct (decide (y = z)); lia.
    + cbn. by rewrite Hzl.
    + by intros ?.
Qed.

Lemma limit_write_file left zn (f : ZoneFile L) :
  is_wal_ f = false -> 0 <= left < 2 ^ 32 -> 0 <= capacity_ zn ->
  limit_write left zn f = Z.min left (capacity_ zn).
Proof.
  intros Hw Hl Hc. unfold limit_write. rewrite Hw. cbn [andb].
  destruct (Z.ltb_spec (capacity_ zn) left); [rewrite u32_small|]; lia.
Qed.

(** The rest of the data moves to the front of the buffer. *)
Lemma buf_move_run src n s :
  0 <= src -> 0 <= n -> src + n <= zlen (f_buf s) ->
  exists b, buf_move 0 src n s = Ok tt (mkFSt (f_zbd s) (f_file s) b (f_ctx s)) /\
    zlen b = zlen (f_buf s) /\ ztake n b = ztake n (zdrop src (f_buf s)).
Proof.
  intros Hs Hn Hl. unfold buf_move, buf_read, buf_write, get_buf. unfold bind at 1 2, gets.
  assert ((0 <=? src) && (0 <=? n) && (src + n <=? zlen (f_buf s)) = true) as -> by lia.
  unfold ret. cbv beta iota. unfold bind at 1. set (data := ztake n (zdrop src (f_buf s))).
  assert (zlen data = n) as Hd by (unfold data; rewrite zlen_ztake, zlen_zdrop by lia; lia).
  assert ((0 <=? 0) && (0 + zlen data <=? zlen (f_buf s)) = true) as -> by lia.
  eexists. split; [done|]. split; [apply zlen_splice; lia|].
  unfold splice. rewrite ztake_0. cbn [app]. by rewrite ztake_app'.
Qed.

(** What the loop leaves. *)
Definition append_post (n : nat) (left : Z) s (r : result (FSt D L X) unit) : Prop :=
  match r with
  | Ok _ s' => file_inv s' /\ wrote (ztake left (f_buf s)) s s' /\ zlen (f_buf s') = zlen (f_buf s)
  | Err _ s' => exists k, 0 <= k <= left /\ wrote (ztake k (f_buf s)) s s'
  | Stuck _ => left <> 0 /\ (n = O \/ forall z zn, active_zone_ (f_file s) = Some z ->
      zone_heap (f_zbd s) !! z = Some zn -> capacity_ zn <= left + pad_to block_sz_ left)
  end.

(** Going on after a piece of [w] bytes. *)
Lemma append_post_after n m left w s s1 r :
  0 <= w <= left -> left <= zlen (f_buf s) -> wrote (ztake w (f_buf s)) s s1 ->
  ztake (left - w) (f_buf s1) = ztake (left - w) (zdrop w (f_buf s)) -> zlen (f_buf s1) = zlen (f_buf s) ->
  (forall z zn, active_zone_ (f_file s) = Some z -> zone_heap (f_zbd s) !! z = Some zn ->
     left <> 0 -> capacity_ zn <= left + pad_to block_sz_ left) ->
  append_post m (left - w) s1 r -> left <> 0 -> append_post n left s r.
Proof.
  intros Hw Hl Hw1 Hb Hbl Hcap Hr Hne. unfold append_post in *.
  assert (forall k, 0 <= k <= left - w ->
    ztake w (f_buf s) ++ ztake k (f_buf s1) = ztake (w + k) (f_buf s)) as Htake.
  { intros k Hk. assert (ztake k (f_buf s1) = ztake k (zdrop w (f_buf s))) as ->.
    { apply (f_equal (ztake k)) in Hb. unfold ztake, zdrop in *. rewrite !take_take in Hb.
      rewrite !Nat.min_l in Hb by lia. done. }
    rewrite <- (ztake_zdrop w (ztake (w + k) (f_buf s))). unfold ztake, zdrop.
    rewrite take_take, skipn_firstn_comm. f_equal; [f_equal; lia|]. f_equal. lia. }
  destruct r as [a s2|e s2|].
  - destruct Hr as (Hi & Hw2 & Hl2). split; [done|]. split; [|congruence].
    replace left with (w + (left - w)) by lia. rewrite <- Htake by lia. by eapply wrote_trans.
  - destruct Hr as (k & Hk & Hw2). exists (w + k). split; [lia|]. rewrite <- Htake by lia.
    by eapply wrote_trans.
  - split; [done|]. right. intros. by eapply Hcap.
Qed.

(** Closing a full zone, moving the rest of the data and opening the next zone. *)
Definition next_zone (w left : Z) : M (FSt D L X) unit :=
  CloseActiveZone ;; when (negb (left =? 0)) (buf_move 0 w left) ;; AllocateNewZone.

Lemma wrote_then data s s1 s2 : wrote data s s1 -> wrote [] s1 s2 -> wrote data s s2.
Proof. intros H1 H2. rewrite <-(app_nil_r data). by apply (wrote_trans data [] s s1 s2). Qed.

Lemma next_zone_step w rest s z :
  file_inv s -> active_zone_ (f_file s) = Some z -> 0 <= w -> 0 <= rest -> w + rest <= zlen (f_buf s) ->
  match next_zone w rest s with
  | Ok _ s' => file_inv s' /\ wrote [] s s' /\ is_Some (active_zone_ (f_file s')) /\
      zlen (f_buf s') = zlen (f_buf s) /\ ztake rest (f_buf s') = ztake rest (zdrop w (f_buf s))
  | Err _ s' => wrote [] s s'
  | Stuck _ => True
  end.
Proof.
  intros Hi Hz Hw Hr Hl. unfold next_zone. pose proof (CloseActiveZone_step s z Hi Hz) as Hclose.
  unfold bind at 1. destruct (CloseActiveZone s) as [[] s1|e s1|]; [|apply Hclose|done].
  destruct Hclose as (Hi1 & Hw1 & Hb1).
  assert (exists b, when (negb (rest =? 0)) (buf_move 0 w rest) s1
      = Ok tt (mkFSt (f_zbd s1) (f_file s1) b (f_ctx s1)) /\ zlen b = zlen (f_buf s1) /\
      ztake rest b = ztake rest (zdrop w (f_buf s1))) as (b & Hb & Hbl & Hbt).
  { destruct (Z.eqb_spec rest 0) as [->|]; cbn [negb]; unfold when.
    - exists (f_buf s1). rewrite !ztake_0. by destruct s1.
    - apply buf_move_run; rewrite ?Hb1; lia. }
  rewrite (bind_ok _ _ _ _ _ Hb). set (s2 := mkFSt _ _ b _).
  assert (file_inv s2) as Hi2 by (by destruct Hi1; split).
  pose proof (AllocateNewZone_step s2 Hi2) as Hal. destruct (AllocateNewZone s2) as [[] s3|e s3|]; [| |done].
  - destruct Hal as (Hi3 & Hw3 & Hb3 & Ha3). split_and!; [done|by apply (wrote_then [] s s1)|done| |];
      rewrite Hb3; cbn [f_buf s2]; rewrite ?Hbl, ?Hbt; by rewrite Hb1.
  - by apply (wrote_then [] s s1).
Qed.

(** One round of the loop. *)
Lemma append_round n left s z zn :
  file_inv s -> 0 < left < 2 ^ 32 -> active_zone_ (f_file s) = Some z ->
  zone_heap (f_zbd s) !! z = Some zn -> left + pad_to block_sz_ left <= zlen (f_buf s) ->
  (length (f_buf s) <= loop_bound)%nat ->
  let w := Z.min left (capacity_ zn) in
  (exists e s', BufferedAppend_loop (S n) left s = Err e s' /\ wrote [] s s') \/
  (exists s3 c, BufferedAppend_loop (S n) left s
       = ((if c =? 0 then next_zone w (left - w) else ret tt) ;; BufferedAppend_loop n (left - w)) s3 /\
     file_inv s3 /\ wrote (ztake w (f_buf s)) s s3 /\ active_zone_ (f_file s3) = Some z /\
     c = capacity_ zn - (w + pad_to block_sz_ w) /\ zlen (f_buf s3) = zlen (f_buf s) /\
     (pad_to block_sz_ w = 0 -> f_buf s3 = f_buf s)).
Proof.
  intros Hi Hleft Hz Hzn Hroom Hlb w. destruct (fi_active _ Hi z Hz) as (Hin & zn0 & Hzn0 & Hes). simplify_eq.
  remember (BufferedAppend_loop (S n) left s) as r eqn:Hloop. symmetry in Hloop. revert Hloop.
  cbn [BufferedAppend_loop]. destruct (Z.eqb_spec left 0) as [->|Hne]; [lia|].
  assert (active_zone s = Ok (z, zn) s) as Hrun.
  { unfold active_zone. unfold bind at 1, get_file, gets. rewrite Hz. unfold bind at 1, deref, ret at 1.
    unfold bind at 1. rewrite on_dev_run, (get_zone_ok z zn _ Hzn). by destruct s. }
  rewrite (bind_ok _ _ _ _ _ Hrun). cbv beta iota. unfold bind at 1, get_file, gets.
  pose proof (zones_wf_lookup _ _ _ (dok_wf _ (fi_dev _ Hi)) Hzn) as (_&_&_&_&Hcap&_).
  rewrite (fi_wal _ Hi), limit_write_file by (apply Hi || lia). cbv zeta. fold w.
  pose proof (dok_blocks _ (fi_dev _ Hi) _ _ Hin Hzn) as Hblk.
  destruct (pad_to_spec left ltac:(lia)) as (Hp & Hmod & _).
  destruct (pad_to_spec w ltac:(lia)) as (Hpw & _ & Hle). pose proof (Hle _ Hmod ltac:(lia)) as Hlew.
  destruct (pad_run w s ltac:(lia) ltac:(lia)) as (b & Hpad & Hbl & Hbt & Hb0).
  rewrite (bind_ok _ _ _ _ _ Hpad). set (s1 := mkFSt _ _ b _) in *.
  assert (file_inv s1) as Hi1 by (by destruct Hi; split).
  pose proof (append_piece w s1 z zn Hi1 Hz Hzn ltac:(lia)) as Hpiece. cbn [f_buf s1] in Hpiece.
  rewrite Hbl in Hpiece. specialize (Hpiece ltac:(lia)).
  assert (length b <= loop_bound)%nat as Hlb1 by (unfold zlen in Hbl; lia). specialize (Hpiece Hlb1).
  unfold bind at 1. destruct (bind (buf_read _ _) _ s1) as [[] s2|e s2|]; [|intros <-; left; by eexists _, _|done].
  destruct Hpiece as (d2 & zn' & -> & Hz2 & Hcap' & Hi2 & Hst & Hr & Hwp). cbn [f_zbd f_file f_buf f_ctx s1] in *.
  unfold bind at 1, get_file, gets. cbn [f_file].
  rewrite (bind_ok _ _ _ _ _ (record_extent_run _ w z zn' (mkFSt d2 (f_file s) b (f_ctx s)) Hz2)).
  cbn [f_zbd f_file f_buf f_ctx].
  destruct (record_step s1 d2 b z zn zn' w Hi1 Hz Hzn Hz2 ltac:(lia) Hwp Hst Hi2) as [Hi3 Hw3].
  cbn [f_zbd f_file f_buf f_ctx s1] in Hi3, Hw3. rewrite Hr, Hbt in Hw3.
  set (s3 := mkFSt _ (recorded _ _ _ _ _) b _) in *.
  assert (zone_heap (f_zbd s3) !! z = Some (set_used_capacity (used_capacity_ zn' +64 w) zn')) as Hz3
    by (cbn; by rewrite lookup_insert_eq).
  unfold bind at 1. rewrite on_dev_run, (get_zone_ok z _ _ Hz3).
  cbn [capacity_ set_used_capacity]. rewrite (u32_small (left - w)) by lia.
  intros <-. right. exists s3, (capacity_ zn'). by split_and!.
Qed.

Lemma BufferedAppend_loop_post n left s :
  file_inv s -> 0 <= left < 2 ^ 32 -> (left <> 0 -> is_Some (active_zone_ (f_file s))) ->
  left + pad_to block_sz_ left <= zlen (f_buf s) -> (length (f_buf s) <= loop_bound)%nat ->
  append_post n left s (BufferedAppend_loop n left s).
Proof.
  revert left s. induction n as [|n IH]; intros left s Hi Hleft Hact Hroom Hlb;
    destruct (Z.eq_dec left 0) as [->|Hne].
  1,3: simpl; split; [done|]; split; [|done]; rewrite ztake_0; apply wrote_nothing; (done || apply stored_refl, Hi || apply Hi || by intros ?).
  { simpl. destruct (Z.eqb_spec left 0); [done|]. by split; [|left]. }
  destruct (Hact Hne) as [z Hz]. destruct (fi_active _ Hi z Hz) as (Hin & zn & Hzn & _).
  destruct (append_round n left s z zn Hi ltac:(lia) Hz Hzn Hroom Hlb)
    as [(e & s' & -> & Hw)|(s3 & c & -> & Hi3 & Hw3 & Hz3 & Hc & Hbl & Hb0)].
  { exists 0. split; [lia|]. by rewrite ztake_0. }
  pose proof (zones_wf_lookup _ _ _ (dok_wf _ (fi_dev _ Hi)) Hzn) as (_&_&_&_&Hcap&_).
  pose proof (dok_blocks _ (fi_dev _ Hi) _ _ Hin Hzn) as Hblk.
  destruct (pad_to_spec left ltac:(lia)) as (Hp & Hmod & Hmin).
  set (w := Z.min left (capacity_ zn)) in *. destruct (pad_to_spec w ltac:(lia)) as (Hpw & _ & Hle).
  pose proof (Hle _ Hblk ltac:(lia)) as Hlec. unfold bind at 1. destruct (Z.eqb_spec c 0) as [Hc0|Hc0].
  - pose proof (next_zone_step w (left - w) s3 z Hi3 Hz3 ltac:(lia) ltac:(lia) ltac:(lia)) as Hnext.
    assert (capacity_ zn <= left + pad_to block_sz_ left) as Hfull.
    { pose proof (Z.le_min_l left (capacity_ zn)). pose proof (Hle _ Hmod ltac:(lia)). lia. }
    destruct (next_zone w (left - w) s3) as [[] s4|e s4|].
    + destruct Hnext as (Hi4 & Hw4 & Ha4 & Hl4 & Ht4). apply (append_post_after (S n) n left w s s4).
      1,2,5,8: lia.
      * by apply (wrote_then _ s s3).
      * rewrite Ht4. destruct (Z.eq_dec (left - w) 0) as [->|]; [by rewrite !ztake_0|].
        rewrite Hb0; [done|lia].
      * intros ? ? ? ? _. by simplify_eq.
      * apply IH; [done|lia|done| |unfold zlen in *; lia]. rewrite Hl4, Hbl.
        destruct (pad_to_spec (left - w) ltac:(lia)) as (_ & _ & Hrest).
        pose proof (Hrest _ Hmod ltac:(lia)). lia.
    + exists w. split; [lia|]. by apply (wrote_then _ s s3).
    + split; [done|right]. intros. by simplify_eq.
  - assert (w = left) as Hwl.
    { destruct (Z.le_gt_cases left (capacity_ zn)); [lia|]. assert (w = capacity_ zn) as Hw by lia. lia. }
    rewrite Hwl, Z.sub_diag in *. destruct n; simpl; by split_and!.
Qed.

(** What the file holds. *)
Definition file_contents s : bytes := contents (zbd_be_ (f_zbd s)) (extents_ (f_file s)).

(** No extent, of this file or of another one, lost its data, and the metadata
    writer has what it needs. *)
Definition others_kept s s' : Prop :=
  (forall es, Forall (stored_extent (f_zbd s)) es ->
     contents (zbd_be_ (f_zbd s')) es = contents (zbd_be_ (f_zbd s)) es /\
     Forall (stored_extent (f_zbd s')) es) /\
  meta_zones (f_zbd s') = meta_zones (f_zbd s) /\ writer_kept s s'.

Lemma others_kept_trans s1 s2 s3 : others_kept s1 s2 -> others_kept s2 s3 -> others_kept s1 s3.
Proof.
  intros (H1 & M1 & K1) (H2 & M2 & K2). split; [|split; [congruence|]].
  - intros es Hes. destruct (H1 es Hes) as [E1 F1]. destruct (H2 es F1) as [E2 F2]. by rewrite E2, E1.
  - unfold writer_kept in *. rewrite M1 in K2. auto.
Qed.

(** The data is behind what the file held, and everything else is kept. *)
Definition appended_to_file (data : bytes) s s' : Prop :=
  file_contents s' = file_contents s ++ data /\
  file_size_ (f_file s') = file_size_ (f_file s) +64 zlen data /\
  linkfiles_ (f_file s') = linkfiles_ (f_file s) /\ is_sparse_ (f_file s') = is_sparse_ (f_file s) /\
  Forall (stored_extent (f_zbd s')) (extents_ (f_file s')) /\ others_kept s s'.

Lemma wrote_appended data s s' :
  Forall (stored_extent (f_zbd s)) (extents_ (f_file s)) -> wrote data s s' -> appended_to_file data s s'.
Proof.
  intros Hes (new & Hext & Hnew & Hc & Hst & Hsz & Hl & _ & Hsp & Hk). unfold appended_to_file, file_contents.
  assert (others_kept s s') as Ho.
  { split; [|by split; [apply Hst|]]. intros es Hs. split; [by apply (contents_step (usage new))|].
    eapply Forall_impl; [exact Hs|]. intros e. apply stored_extent_step with (u := usage new), Hst. }
  rewrite Hext, contents_app, Hc, (contents_step _ _ _ _ Hst Hes). split_and!; try done.
  apply Forall_app. by split; [apply Ho|].
Qed.

Lemma BufferedAppend_post n s :
  file_inv s -> 0 < n < 2 ^ 32 -> n + pad_to block_sz_ n <= zlen (f_buf s) ->
  (length (f_buf s) <= loop_bound)%nat ->
  match BufferedAppend n s with
  | Ok _ s' => file_inv s' /\ wrote (ztake n (f_buf s)) s s' /\ zlen (f_buf s') = zlen (f_buf s)
  | Err _ s' => exists k, 0 <= k <= n /\ wrote (ztake k (f_buf s)) s s'
  | Stuck _ => forall z zn, active_zone_ (f_file s) = Some z -> zone_heap (f_zbd s) !! z = Some zn ->
      capacity_ zn <= n + pad_to block_sz_ n
  end.
Proof.
  intros Hi Hn Hroom Hlb. destruct (pad_to_spec n ltac:(lia)) as (Hp & _).
  unfold BufferedAppend, ensure_zone. unfold bind at 1. unfold bind at 1, get_file, gets.
  destruct (active_zone_ (f_file s)) as [z|] eqn:Hz.
  - unfold ret at 1. pose proof (BufferedAppend_loop_post loop_bound n s Hi ltac:(lia)) as Hpost.
    specialize (Hpost (fun _ => ltac:(by eexists)) Hroom Hlb).
    destruct (BufferedAppend_loop loop_bound n s); [done..|]. destruct Hpost as [_ [H0|Hcap]].
    + unfold zlen in *. lia.
    + intros. simplify_eq. by eapply Hcap.
  - pose proof (AllocateNewZone_step s Hi) as Hal. destruct (AllocateNewZone s) as [[] s1|e s1|]; [| |done].
    + destruct Hal as (Hi1 & Hw1 & Hb1 & Ha1). rewrite <-Hb1 in *.
      pose proof (BufferedAppend_loop_post loop_bound n s1 Hi1 ltac:(lia) (fun _ => Ha1) Hroom Hlb) as Hpost.
      destruct (BufferedAppend_loop loop_bound n s1) as [[] s2|e s2|]; [| |done].
      * destruct Hpost as (Hi2 & Hw2 & Hl2). split; [done|]. split; [|done]. by apply (wrote_trans [] _ s s1).
      * destruct Hpost as (k & Hk & Hw2). exists k. split; [done|]. by apply (wrote_trans [] _ s s1).
    + exists 0. rewrite ztake_0. split; [lia|done].
Qed.

End write_steps.

(** C10: [ZoneFile::BufferedAppend] on a file that is not a log appends the first
    [n] bytes of the buffer to the contents of the file, over as many zones as
    it takes, and keeps the data of every other extent; on an error it has
    appended some prefix of them, completely.  It waits for another zone at most
    when the padded data does not fit the active one. *)
Theorem buffered_append_correct `{spec : BackendSpec D L} {szd : SZDOnceLog D L} {cfg : BuildConfig}
    {X : Type} {mw : MetadataWriter D L X} {mws : MetadataWriterSpec D L X} (n : Z) (s : FSt D L X) :
  file_inv s -> Forall (stored_extent (f_zbd s)) (extents_ (f_file s)) ->
  0 < n < 2 ^ 32 -> n + pad_to block_sz_ n <= zlen (f_buf s) -> (length (f_buf s) <= loop_bound)%nat ->
  match BufferedAppend n s with
  | Ok _ s' => file_inv s' /\ appended_to_file (ztake n (f_buf s)) s s'
  | Err _ s' => exists k, 0 <= k <= n /\ appended_to_file (ztake k (f_buf s)) s s'
  | Stuck _ => forall z zn, active_zone_ (f_file s) = Some z -> zone_heap (f_zbd s) !! z = Some zn ->
      capacity_ zn <= n + pad_to block_sz_ n
  end.
Proof.
  intros Hi Hes Hn Hroom Hlb. pose proof (BufferedAppend_post n s Hi Hn Hroom Hlb) as Hpost.
  destruct (BufferedAppend n s) as [[] s'|e s'|]; [| |done].
  - destruct Hpost as (Hi' & Hw & _). by split; [|apply wrote_appended].
  - destruct Hpost as (k & Hk & Hw). exists k. by split; [|apply wrote_appended].
Qed.

(** What [BufferedAppend] appended is what [PositionedRead] returns: any read of
    the file afterwards is a read of the old contents followed by the appended data. *)
Theorem append_then_read `{spec : BackendSpec D L} {rel : ReliableReads D L} {szd : SZDOnceLog D L}
    {cfg : BuildConfig} {X : Type} {mw : MetadataWriter D L X} {mws : MetadataWriterSpec D L X}
    (p m : Z) (direct : bool) (n : Z) (s s' : FSt D L X) :
  file_inv s -> file_readable s -> Forall (stored_extent (f_zbd s)) (extents_ (f_file s)) ->
  0 < n < 2 ^ 32 -> n + pad_to block_sz_ n <= zlen (f_buf s) -> (length (f_buf s) <= loop_bound)%nat ->
  BufferedAppend n s = Ok tt s' ->
  Forall extent_readable (extents_ (f_file s')) -> (length (extents_ (f_file s')) < loop_bound)%nat ->
  nr_zones_ * zone_sz_ + zlen (file_contents s) + n < 2 ^ 64 ->
  0 <= p -> 0 <= m -> p + m < 2 ^ 64 ->
  exists s'', PositionedRead p m direct s'
    = Ok (OK, ztake m (zdrop p (file_contents s ++ ztake n (f_buf s)))) s''.
Proof.
  intros Hi ((name & Hname & Hlog) & _ & Hsz & _) Hes Hn Hroom Hlb Hrun Hok Hlen Hu Hp Hm Hpm.
  pose proof (BufferedAppend_post n s Hi Hn Hroom Hlb) as Hpost. rewrite Hrun in Hpost.
  destruct Hpost as (Hi' & Hw & _). apply wrote_appended in Hw as (Hc & Hs & Hl & _); [|done].
  destruct (pad_to_spec n ltac:(lia)) as (? & _).
  pose proof device_size_u64. pose proof (zlen_nonneg (file_contents s)).
  assert (zlen (ztake n (f_buf s)) = n) as Hzn by (rewrite zlen_ztake by lia; lia).
  assert (zlen (file_contents s') = zlen (file_contents s) + n) as Hz by (rewrite Hc, zlen_app; lia).
  assert (0 <= nr_zones_ * zone_sz_).
  { pose proof block_sz_pos. unfold file_contents in Hz at 1. destruct (extents_ (f_file s')) as [|e es].
    - change (contents (zbd_be_ (f_zbd s')) []) with (@nil byte) in Hz. unfold zlen in Hz at 1. simpl in Hz. lia.
    - apply Forall_cons in Hok as [(? & ? & ? & _) _]. lia. }
  destruct (PositionedRead_file p m direct s') as (s2 & l & Hr & _); [|done..|].
  - split; [exists name; by rewrite Hl|]. split; [done|]. fold (file_contents s') (file_contents s) in *.
    rewrite Hs, Hzn, Hsz, u64_small by lia. lia.
  - eexists. rewrite Hr. fold (file_contents s'). by rewrite Hc.
Qed.

(** A file of three bytes in its zone, and a writer that has nothing to persist. *)
Definition no_writer : MetadataWriter MemDev MemLog unit := {| Persist := ret tt |}.
Definition no_writer_spec : MetadataWriterSpec MemDev MemLog unit (spec := spec0) (mw := no_writer).
Proof.
  refine {| writer_ok := fun _ _ => True |}. intros s Hok _. cbn.
  split; [|split; [done|split; [done|]]].
  - split; [split_and!; done|]. split_and!; try done; apply Hok.
  - exists (nr_synced_extents_ (f_file s)), (m_time_ (f_file s)). by destruct (f_file s).
Defined.

Definition append_state (n : nat) : FSt MemDev MemLog unit :=
  mkFSt (set_be (mkMemDev [(64, b_of "abc"); (67, zeros 13)] {[ 1 := 80; 2 := 136 ]}) zbd1)
    (set_linkfiles [b_of "/db/1.sst"] (set_file_size 3 (set_active_zone (Some 1%nat) (set_extent_start 80
       (set_extents [mkExtent 64 3 1] (ZoneFile_new 1))))))
    (replicate n Byte.x78 ++ zeros 8) tt.

Lemma append_state_inv n : file_inv (spec := spec0) (mw := no_writer) (mws := no_writer_spec) (append_state n).
Proof.
  split; try done.
  - split; try done.
    + apply zones_wf_zbd1.
    + by apply zones_disjoint_intro.
    + apply (io_zones_ok_intro zbd1); reflexivity.
    + intros z Hz Hm. cbn in Hz, Hm. set_solver.
    + intros z zn _ Hz. revert z zn Hz. change (map_Forall (fun (_ : nat) zn => capacity_ zn mod 8 = 0) (zone_heap zbd1)).
      apply map_Forall_to_list. repeat (apply Forall_cons; split; [reflexivity|]). by apply Forall_nil.
  - intros z Hz. injection Hz as <-. split; [cbn; set_solver|]. eexists. by split.
Qed.

Lemma buffered_append_correct_witness :
  match BufferedAppend (be := be0) (szd := szd0) (cfg := cfg0) (mw := no_writer) 50 (append_state 50) with
  | Ok _ s' => file_inv (spec := spec0) (mw := no_writer) (mws := no_writer_spec) s' /\
      appended_to_file (spec := spec0) (mws := no_writer_spec) (replicate 50 Byte.x78) (append_state 50) s'
  | Err _ s' => exists k, 0 <= k <= 50 /\
      appended_to_file (spec := spec0) (mws := no_writer_spec) (ztake k (f_buf (append_state 50))) (append_state 50) s'
  | Stuck _ => forall z zn, active_zone_ (f_file (append_state 50)) = Some z ->
      zone_heap (f_zbd (append_state 50)) !! z = Some zn -> capacity_ zn <= 56
  end.
Proof.
  apply (buffered_append_correct (spec := spec0) (szd := szd0) (cfg := cfg0)
    (mw := no_writer) (mws := no_writer_spec) 50 (append_state 50)); [apply append_state_inv| |done|done|simpl; lia].
  apply Forall_cons. split; [|by apply Forall_nil].
  split; [done|]. split; [cbn; set_solver|]. eexists. split; [reflexivity|]. simpl. lia.
Defined.

Definition append_end : FSt MemDev MemLog unit :=
  match BufferedAppend (be := be0) (szd := szd0) (cfg := cfg0) (mw := no_writer) 10 (append_state 10) with
  | Ok _ s' => s' | _ => append_state 10
  end.

Lemma append_then_read_witness :
  exists s'', PositionedRead (be := be0) (szd := szd0) (cfg := cfg0) 1 5 false append_end
    = Ok (OK, b_of "bcxxx") s''.
Proof.
  apply (append_then_read (spec := spec0) (rel := rel0) (szd := szd0) (cfg := cfg0)
    (mw := no_writer) (mws := no_writer_spec) 1 5 false 10 (append_state 10) append_end).
  - apply append_state_inv.
  - split; [by eexists|]. split; [|split; [done|split; [by vm_compute|simpl; lia]]].
    replace (extents_ _) with [mkExtent 64 3 1] by reflexivity. apply Forall_singleton.
    unfold extent_readable. simpl. lia.
  - apply Forall_cons. split; [|by apply Forall_nil].
    split; [done|]. split; [cbn; set_solver|]. eexists. split; [reflexivity|]. simpl. lia.
  - lia.
  - by vm_compute.
  - simpl. lia.
  - by vm_compute.
  - replace (extents_ (f_file append_end)) with [mkExtent 64 3 1; mkExtent 80 10 1] by reflexivity.
    repeat (apply Forall_cons; split; [unfold extent_readable; simpl; lia|]). by apply Forall_nil.
  - apply Nat.ltb_lt. by vm_compute.
  - by vm_compute.
  - lia.
  - lia.
  - lia.
Defined.
