(* ===== verification/WalAppend.v ===== *)
(** * Appending to the write-ahead log

    What one flush of a log file hands to the device ([ZoneFile::SparseAppend],
    io_zenfs.cc, with [is_wal_] set): the record that [RecoverWALChunk] reads
    back, how much of a chunk it reads back when the records are padded, and
    what happens when the next barrier cuts the flush in two.  Also what
    [ResetWALZones] does with a log that is not open. *)

From S2P Require Import Prelude Status Coding Device MemDevice Zone Zbd ZbdProps ZoneFile FileWrite FileRead WalRecovery FileWriteProps.

Section wal_append.
Context {D L X : Type} `{be : ZonedBlockDeviceBackend D L} {szd : SZDOnceLog D L}
  {cfg : BuildConfig} {mw : MetadataWriter D L X}.
Implicit Types s : FSt D L X.

(** ** The record in the buffer *)

(** The record of [data] with its padding. *)
Definition entry_block (seq : Z) (data : bytes) : bytes :=
  entry_bytes (seq, data) ++ zeros (pad_to 4096 (16 + zlen data)).

Lemma pad_4096 n : 0 <= n -> 0 <= pad_to 4096 n < 4096.
Proof.
  intros Hn. unfold pad_to. pose proof (Z.mod_pos_bound n 4096 ltac:(lia)).
  destruct (Z.eqb_spec (n mod 4096) 0); lia.
Qed.

Lemma zlen_entry_block seq data :
  zlen (entry_block seq data) = 16 + zlen data + pad_to 4096 (16 + zlen data).
Proof.
  pose proof (zlen_nonneg data). pose proof (pad_4096 (16 + zlen data) ltac:(lia)).
  unfold entry_block. rewrite zlen_app, zlen_entry_bytes, zlen_zeros by lia. done.
Qed.

Definition with_buf s (b : bytes) : FSt D L X := mkFSt (f_zbd s) (f_file s) b (f_ctx s).

Lemma buf_overwrite_run pos (old new l k : bytes) s :
  f_buf s = l ++ old ++ k -> pos = zlen l -> zlen new = zlen old ->
  buf_write pos new s = Ok tt (with_buf s (l ++ new ++ k)).
Proof.
  intros Hb -> Hn. unfold buf_write, get_buf. unfold bind at 1, gets.
  pose proof (zlen_nonneg l). pose proof (zlen_nonneg k).
  assert ((0 <=? zlen l) && (zlen l + zlen new <=? zlen (f_buf s)) = true) as ->.
  { rewrite Hb, !zlen_app. apply andb_true_iff. lia. }
  unfold modify, splice, with_buf. rewrite Hb, ztake_app, (app_assoc l old k).
  by rewrite zdrop_app' by (rewrite zlen_app; lia).
Qed.

Lemma buf_front_run n (data k : bytes) s :
  f_buf s = data ++ k -> n = zlen data -> buf_read 0 n s = Ok data s.
Proof.
  intros Hb ->. unfold buf_read, get_buf. unfold bind at 1, gets.
  pose proof (zlen_nonneg data). pose proof (zlen_nonneg k).
  assert ((0 <=? 0) && (0 <=? zlen data) && (0 + zlen data <=? zlen (f_buf s)) = true) as ->.
  { rewrite Hb, zlen_app. lia. }
  unfold ret. by rewrite Hb, zdrop_0, ztake_app.
Qed.

(** Splits the first [n] elements off. *)
Lemma split_at {A} n (l : list A) : 0 <= n <= zlen l -> exists a b, l = a ++ b /\ zlen a = n.
Proof.
  intros Hn. exists (ztake n l), (zdrop n l). split; [by rewrite ztake_zdrop|].
  rewrite zlen_ztake; lia.
Qed.

(** What the buffer looks like before the flush: room for the header, the
    data, and room for the padding. *)
Definition holds_data (data : bytes) s : Prop :=
  exists hdr rest, f_buf s = hdr ++ data ++ rest /\ zlen hdr = 16 /\
    pad_to 4096 (16 + zlen data) <= zlen rest.

(** The padding and the header. *)
Lemma fill_block seq data s :
  holds_data data s ->
  let wr_size := 16 + zlen data in
  forall B (k : M (FSt D L X) B),
  (when (negb (pad_to 4096 wr_size =? 0)) (buf_write wr_size (zeros (pad_to 4096 wr_size))) ;;
   buf_write 0 (EncodeFixed64 kLittleEndian (zlen data)) ;;
   buf_write 8 (EncodeFixed64 kLittleEndian seq) ;; k) s
  = k (with_buf s (entry_block seq data ++ zdrop (zlen (entry_block seq data)) (f_buf s))).
Proof.
  cbv zeta. rewrite zlen_entry_block. unfold entry_block. intros (hdr & r & Hb & Hh & Hr). pose proof (zlen_nonneg data) as Hd.
  pose proof (pad_4096 (16 + zlen data) ltac:(lia)) as Hp.
  set (pad := pad_to 4096 (16 + zlen data)) in *.
  destruct (split_at pad r ltac:(lia)) as (p & rest & -> & Hpl).
  destruct (split_at 8 hdr ltac:(lia)) as (h1 & h2 & -> & Hh1). rewrite zlen_app in Hh.
  intros B k.
  assert (zdrop (16 + zlen data + pad) (f_buf s) = rest) as ->.
  { rewrite Hb, !app_assoc. apply zdrop_app'. rewrite !zlen_app. lia. }
  assert (when (negb (pad =? 0)) (buf_write (16 + zlen data) (zeros pad)) s
    = Ok tt (with_buf s (h1 ++ h2 ++ data ++ zeros pad ++ rest))) as H1.
  { rewrite <- !app_assoc in Hb. destruct (Z.eqb_spec pad 0) as [E|E]; simpl.
    - rewrite E in *. assert (p = []) as -> by (destruct p; [done|unfold zlen in Hpl; simpl in Hpl; lia]).
      unfold ret, with_buf. destruct s; simpl in *. by rewrite Hb.
    - rewrite (buf_overwrite_run _ p _ (h1 ++ h2 ++ data) rest); rewrite <- ?app_assoc; try done.
      + rewrite !zlen_app. lia.
      + rewrite zlen_zeros; lia. }
  rewrite (bind_ok _ _ _ _ _ H1). change (EncodeFixed64 kLittleEndian) with (le_split 8).
  unfold bind at 1. erewrite (buf_overwrite_run 0 h1 _ []); [|done|done|rewrite zlen_le_split; lia].
  unfold bind at 1. erewrite (buf_overwrite_run 8 h2 _ (le_split 8 (zlen data))); [|done|done|rewrite zlen_le_split; lia].
  unfold with_buf, entry_bytes. cbn [f_zbd f_file f_ctx f_buf fst snd]. by rewrite <- !app_assoc.
Qed.

(** ** One round *)

(** The state after [data] was logged in zone [z]. *)
Definition logged (z : nat) (data : bytes) (w : L) (d : D) s s' : Prop :=
  let size := zlen (entry_block (wal_seq_ (f_file s)) data) in
  exists zn, zone_heap (f_zbd s) !! z = Some zn /\
  f_zbd s' = set_heap (<[z := set_used_capacity (used_capacity_ zn +64 zlen data) (advance size zn)]>
                 (zone_heap (f_zbd s)))
               (set_bytes_written (bytes_written_ (f_zbd s) +64 size) (set_be d (f_zbd s))) /\
  f_file s' = recorded (extent_start_ (f_file s) +64 16) (zlen data) (advance size zn)
    (set_append_bytes (append_bytes_since_last_barrier_ (f_file s) +64 size)
      (set_wal (Some w) (set_wal_seq (wal_seq_ (f_file s) +64 1)
        (set_wal_writes (wal_writes_ (f_file s) +64 1) (f_file s))))) z /\
  f_buf s' = entry_block (wal_seq_ (f_file s)) data ++ zdrop size (f_buf s) /\
  f_ctx s' = f_ctx s.

(** A log with a zone, the zone with room for a record of [data] and more. *)
Definition log_ready (z : nat) (w : L) (data : bytes) s : Prop :=
  is_wal_ (f_file s) = true /\ wal_ (f_file s) = Some w /\ active_zone_ (f_file s) = Some z /\
  append_bytes_since_last_barrier_ (f_file s) < WAL_BARRIER /\
  holds_data data s /\
  exists zn, zone_heap (f_zbd s) !! z = Some zn /\
    zlen (entry_block (wal_seq_ (f_file s)) data) < capacity_ zn < 2 ^ 64.

Lemma zone_append_run z data w zn r err w' d' s :
  wal_ (f_file s) = Some w -> zone_heap (f_zbd s) !! z = Some zn -> zlen data <= capacity_ zn ->
  be_Append data w (zbd_be_ (f_zbd s)) = (r, err, (w', d')) -> 0 <= r ->
  zone_append z data s
  = Ok tt (mkFSt (set_bytes_written (bytes_written_ (f_zbd s) +64 zlen data)
                   (set_heap (<[z := advance (zlen data) zn]> (zone_heap (f_zbd s))) (set_be d' (f_zbd s))))
             (set_wal (Some w') (f_file s)) (f_buf s) (f_ctx s)).
Proof.
  intros Hw Hz Hc Ha Hr. unfold zone_append. unfold bind at 1, get_file, gets. rewrite Hw.
  unfold bind at 1, deref, ret at 1. unfold bind at 1. rewrite on_dev_run. unfold ZoneAppend.
  unfold bind at 1. rewrite (get_zone_ok z zn _ Hz). cbv zeta.
  destruct (Z.ltb_spec (capacity_ zn) (zlen data)); [lia|]. unfold bind at 1, with_be, zoom, call.
  rewrite Ha. destruct (Z.ltb_spec r 0); [lia|]. unfold bind at 1.
  erewrite mod_zone_ok by exact Hz. reflexivity.
Qed.

Lemma log_round k data left z zn w r err w' d' s :
  log_ready z w data s -> zone_heap (f_zbd s) !! z = Some zn -> 0 < left < 2 ^ 32 ->
  zlen data <= left -> 16 + zlen data < 2 ^ 64 ->
  limit_write (left +32 16) zn (f_file s) = 16 + zlen data ->
  be_Append (entry_block (wal_seq_ (f_file s)) data) w (zbd_be_ (f_zbd s)) = (r, err, (w', d')) -> 0 <= r ->
  exists s', SparseAppend_loop (S k) left s = SparseAppend_loop k (left - zlen data) s' /\
    logged z data w' d' s s'.
Proof.
  intros (Hwal & Hw & Hz & Hab & Hdata & zn0 & Hzn0 & Hcap) Hzn Hl Hdl Hd64 Hlim Ha Hr.
  rewrite Hzn in Hzn0. injection Hzn0 as <-. pose proof (zlen_nonneg data) as Hd.
  cbn [SparseAppend_loop]. destruct (Z.eqb_spec left 0); [lia|].
  unfold bind at 1, get_file, gets. rewrite Hwal. cbn [andb header_size].
  destruct (Z.leb_spec WAL_BARRIER (append_bytes_since_last_barrier_ (f_file s))); [lia|].
  change (header_size true) with 16. cbn [when]. unfold bind at 1, ret at 1.
  set (s1 := mkFSt (f_zbd s) (set_wal_writes (wal_writes_ (f_file s) +64 1) (f_file s)) (f_buf s) (f_ctx s)).
  unfold bind at 1. unfold count_write, mod_file at 1, modify at 1. fold s1.
  assert (active_zone s1 = Ok (z, zn) s1) as Hrun.
  { unfold active_zone. unfold bind at 1, get_file, gets. cbn [f_file s1]. change (active_zone_ _) with (active_zone_ (f_file s)).
    rewrite Hz. unfold bind at 1, deref, ret at 1. unfold bind at 1. by rewrite on_dev_run, (get_zone_ok z zn (f_zbd s1) Hzn). }
  rewrite (bind_ok _ _ _ _ _ Hrun). cbv beta iota. unfold bind at 1.
  change (limit_write (left +32 16) zn (f_file s1)) with (limit_write (left +32 16) zn (f_file s)).
  rewrite Hlim. cbv zeta.
  assert (16 + zlen data -64 16 = zlen data) as -> by (rewrite u64_small; lia).
  assert (holds_data data s1) as Hdata1 by done.
  rewrite (fill_block (wal_seq_ (f_file s1)) data s1 Hdata1). change (wal_seq_ (f_file s1)) with (wal_seq_ (f_file s)).
  set (block := entry_block _ data) in *. unfold bind at 1. unfold mod_file at 1, modify at 1.
  unfold bind at 1. erewrite (buf_front_run _ block); [|done|unfold block; by rewrite zlen_entry_block].
  change (is_wal_ (f_file s1)) with (is_wal_ (f_file s)). rewrite Hwal.
  unfold bind at 1. unfold bind at 1.
  erewrite zone_append_run; [|exact Hw|exact Hzn|lia|exact Ha|done].
  unfold add_append_bytes, mod_file at 1, modify at 1. cbn [f_zbd f_file f_buf f_ctx with_buf s1].
  unfold bind at 1. unfold bind at 1. erewrite record_extent_run by apply lookup_insert_eq.
  cbn [f_zbd f_file f_buf f_ctx].
  unfold bind at 1. rewrite on_dev_run. erewrite get_zone_ok by apply lookup_insert_eq.
  cbn [f_zbd f_file f_buf f_ctx].
  cbn [capacity_ set_used_capacity advance set_capacity set_wp].
  rewrite (u64_small (capacity_ zn - zlen block)) by (pose proof (zlen_nonneg block); lia).
  destruct (Z.eqb_spec (capacity_ zn - zlen block) 0); [lia|]. unfold bind at 1, ret at 1.
  rewrite (u32_small (left - zlen data)) by lia. eexists. split; [done|].
  exists zn. fold block. cbn [f_zbd f_file f_buf f_ctx]. split; [done|].
  split; [cbn [zone_heap set_heap set_bytes_written]; by rewrite insert_insert_eq|].
  split; [|done]. unfold block at 3. by rewrite zlen_entry_block.
Qed.

Lemma limit_write_fits n zn s :
  0 <= append_bytes_since_last_barrier_ (f_file s) -> 0 <= n < 2 ^ 32 -> n <= capacity_ zn ->
  n <= WAL_BARRIER - append_bytes_since_last_barrier_ (f_file s) < 2 ^ 64 ->
  limit_write n zn (f_file s) = n.
Proof.
  intros Hab Hn Hc Hroom. unfold limit_write. destruct (Z.ltb_spec (capacity_ zn) n); [lia|].
  rewrite u64_small by lia. destruct (Z.ltb_spec (WAL_BARRIER - append_bytes_since_last_barrier_ (f_file s)) n); [lia|].
  by rewrite andb_false_r.
Qed.

Lemma ensure_zone_active z s : active_zone_ (f_file s) = Some z -> ensure_zone s = Ok tt s.
Proof. intros Hz. unfold ensure_zone. unfold bind, get_file, gets. by rewrite Hz. Qed.

Lemma SparseAppend_loop_0 k s : SparseAppend_loop k 0 s = Ok tt s.
Proof. by destruct k. Qed.

(** C16: flushing [data] of a write-ahead log that fits before the next barrier
    and in the active zone hands exactly one block to the device: the record
    that recovery reads (length, sequence number, data) and zeros up to the
    block size.  The file grows by one extent that covers the data and not the
    header, the sequence number and the distance to the barrier move on, and
    the zone's write pointer, capacity and used capacity follow. *)
Theorem wal_flush_record data z w r err w' d' s :
  (0 < loop_bound)%nat -> log_ready z w data s -> 0 < zlen data -> 16 + zlen data < 2 ^ 32 ->
  0 <= append_bytes_since_last_barrier_ (f_file s) ->
  16 + zlen data <= WAL_BARRIER - append_bytes_since_last_barrier_ (f_file s) < 2 ^ 64 ->
  be_Append (entry_block (wal_seq_ (f_file s)) data) w (zbd_be_ (f_zbd s)) = (r, err, (w', d')) -> 0 <= r ->
  exists s', SparseAppend (zlen data) s = Ok tt s' /\ logged z data w' d' s s'.
Proof.
  intros Hlb Hlog Hd H32 Hab Hroom Ha Hr. pose proof Hlog as (_ & _ & Hz & _ & _ & zn & Hzn & Hcap).
  rewrite zlen_entry_block in Hcap. pose proof (pad_4096 (16 + zlen data) ltac:(lia)).
  unfold SparseAppend. rewrite (bind_ok _ _ _ _ _ (ensure_zone_active z s Hz)).
  destruct loop_bound as [|k]; [lia|].
  destruct (log_round k data (zlen data) z zn w r err w' d' s) as (s' & -> & Hs); try done; try lia.
  - rewrite u32_small by lia. rewrite (Z.add_comm (zlen data)). apply limit_write_fits; lia.
  - exists s'. by rewrite Z.sub_diag, SparseAppend_loop_0.
Qed.

(** ** A flush that crosses a barrier *)

Lemma round_up n m : 0 <= n <= m -> n + pad_to 4096 n <= m + pad_to 4096 m.
Proof.
  intros Hn. unfold pad_to.
  destruct (Z.eqb_spec (n mod 4096) 0), (Z.eqb_spec (m mod 4096) 0);
    Z.to_euclidean_division_equations; lia.
Qed.

Lemma holds_data_prefix a b s : holds_data (a ++ b) s -> holds_data a s.
Proof.
  intros (hdr & rest & Hb & Hh & Hr). exists hdr, (b ++ rest). rewrite Hb, <- app_assoc.
  split; [done|]. split; [done|]. rewrite !zlen_app in *. pose proof (zlen_nonneg a). pose proof (zlen_nonneg b).
  pose proof (round_up (16 + zlen a) (16 + (zlen a + zlen b)) ltac:(lia)). lia.
Qed.

(** What was logged is still at the front of the buffer. *)
Lemma logged_holds z a w d s s' :
  logged z a w d s s' -> holds_data a s'.
Proof.
  intros (zn & _ & _ & _ & Hb & _). pose proof (zlen_nonneg a).
  pose proof (pad_4096 (16 + zlen a) ltac:(lia)).
  eexists (le_split 8 (zlen a) ++ le_split 8 (wal_seq_ (f_file s))), (zeros (pad_to 4096 (16 + zlen a)) ++ _).
  split_and!.
  - rewrite Hb. unfold entry_block at 1, entry_bytes. by rewrite <- !app_assoc.
  - by rewrite zlen_app, !zlen_le_split.
  - rewrite zlen_app, zlen_zeros by lia. pose proof (zlen_nonneg (zdrop (zlen (entry_block (wal_seq_ (f_file s)) a)) (f_buf s))). lia.
Qed.

(** The barrier syncs the log and starts the count again. *)
Lemma barrier_round k left s s' :
  left <> 0 -> is_wal_ (f_file s) = true -> WAL_BARRIER <= append_bytes_since_last_barrier_ (f_file s) ->
  0 < WAL_BARRIER -> (WALSync ;; sync_barrier) s = Ok tt s' -> is_wal_ (f_file s') = true ->
  append_bytes_since_last_barrier_ (f_file s') = 0 ->
  SparseAppend_loop (S k) left s = SparseAppend_loop (S k) left s'.
Proof.
  intros Hl Hw Hab Hpos Hs Hw' Hab'.
  remember (SparseAppend_loop (S k) left s') as r eqn:Hr. cbn [SparseAppend_loop] in *.
  destruct (Z.eqb_spec left 0); [done|].
  unfold bind at 1, get_file, gets. unfold bind at 1, get_file, gets in Hr. rewrite Hw. rewrite Hw', Hab' in Hr.
  assert ((WAL_BARRIER <=? append_bytes_since_last_barrier_ (f_file s)) = true) as -> by lia.
  assert ((WAL_BARRIER <=? 0) = false) as E by lia. rewrite E in Hr. cbn [andb when] in *.
  rewrite (bind_ok _ _ _ _ _ Hs). by rewrite Hr.
Qed.

(** The state after the sync at a barrier. *)
Definition synced (w : L) (d : D) s : FSt D L X :=
  mkFSt (set_be d (f_zbd s))
    (set_wal_syncs (wal_syncs_ (f_file s) +64 1) (set_append_bytes 0 (set_wal (Some w) (f_file s))))
    (f_buf s) (f_ctx s).

Lemma log_sync_run w w1 w2 d1 d2 r s :
  wal_ (f_file s) = Some w -> be_AppendSync w (zbd_be_ (f_zbd s)) = (r, (w1, d1)) ->
  szd_Sync w1 d1 = (true, (w2, d2)) ->
  (WALSync ;; sync_barrier) s = Ok tt (synced w2 d2 s).
Proof.
  intros Hw Ha Hs. unfold WALSync, sync_barrier. do 2 unfold bind at 1. unfold get_file, gets. rewrite Hw.
  unfold bind at 1, AppendSync. unfold bind at 1, wal_call. unfold bind at 1, get_file, gets. rewrite Hw.
  unfold bind at 1, deref, ret at 1. unfold bind at 1. rewrite on_dev_run. unfold with_be, zoom, call.
  rewrite Ha. cbv beta iota. unfold bind at 1, mod_file, modify, ret. unfold bind at 1.
  unfold wal_call. unfold bind at 1, get_file, gets. cbn [f_file wal_ set_wal].
  unfold bind at 1, deref, ret. unfold bind at 1. rewrite on_dev_run. unfold with_be, zoom, call.
  cbn [f_zbd zbd_be_ set_be]. by rewrite Hs.
Qed.

(** C27: The barrier cuts a flush of [a ++ b] after [a] while the zone has room
    left: the rest is not moved to the front of the buffer, so the second
    record holds the first bytes of [a] again and [b] is not logged at all.
    The flush returns OK. *)
Theorem barrier_cut_repeats a b z w w1 w2 w3 w4 d1 d2 d3 d4 r1 r2 r3 err1 err3 s :
  (1 < loop_bound)%nat -> log_ready z w (a ++ b) s ->
  0 < zlen b <= zlen a -> zlen (a ++ b) + 16 < 2 ^ 32 ->
  0 <= append_bytes_since_last_barrier_ (f_file s) -> WAL_BARRIER + 4096 < 2 ^ 64 ->
  16 + zlen a = WAL_BARRIER - append_bytes_since_last_barrier_ (f_file s) ->
  (forall zn, zone_heap (f_zbd s) !! z = Some zn ->
     zlen (entry_block 0 a) + zlen (entry_block 0 b) < capacity_ zn) ->
  be_Append (entry_block (wal_seq_ (f_file s)) a) w (zbd_be_ (f_zbd s)) = (r1, err1, (w1, d1)) -> 0 <= r1 ->
  be_AppendSync w1 d1 = (r2, (w2, d2)) -> szd_Sync w2 d2 = (true, (w3, d3)) ->
  be_Append (entry_block (wal_seq_ (f_file s) +64 1) (ztake (zlen b) a)) w3 d3 = (r3, err3, (w4, d4)) -> 0 <= r3 ->
  exists s', SparseAppend (zlen (a ++ b)) s = Ok tt s' /\ zbd_be_ (f_zbd s') = d4 /\
    file_size_ (f_file s') = file_size_ (f_file s) +64 zlen a +64 zlen b.
Proof.
  intros Hlb Hlog Hb H32 Hab Hbar Hcut Hcap Ha Hr1 Hs1 Hs2 Ha2 Hr3.
  pose proof Hlog as (Hwal & Hw & Hz & Hlt & Hdata & zn & Hzn & Hc). specialize (Hcap _ Hzn).
  rewrite zlen_app in *. rewrite !zlen_entry_block in *.
  pose proof (pad_4096 (16 + zlen a) ltac:(lia)) as Hpa. pose proof (pad_4096 (16 + zlen b) ltac:(lia)) as Hpb.
  unfold SparseAppend. rewrite (bind_ok _ _ _ _ _ (ensure_zone_active z s Hz)).
  destruct loop_bound as [|[|k]]; [lia..|].
  destruct (log_round (S k) a (zlen a + zlen b) z zn w r1 err1 w1 d1 s) as (s1 & -> & Hl1); try done; try lia.
  { split_and!; try done. { by apply (holds_data_prefix a b). }
    exists zn. rewrite zlen_entry_block. split; [done|lia]. }
  { rewrite u32_small by lia. unfold limit_write. rewrite Hwal, u64_small by lia. cbn [andb].
    destruct (Z.ltb_spec (capacity_ zn) (zlen a + zlen b + 16)); destruct (Z.ltb_spec
      (WAL_BARRIER - append_bytes_since_last_barrier_ (f_file s)) (zlen a + zlen b + 16)); try lia.
    all: rewrite ?u32_small; lia. }
  replace (zlen a + zlen b - zlen a) with (zlen b) by lia.
  pose proof (logged_holds _ _ _ _ _ _ Hl1) as Hd1. destruct Hl1 as (zn0 & Hzn0 & Hz1 & Hf1 & _).
  rewrite Hzn in Hzn0. injection Hzn0 as <-. rewrite zlen_entry_block in *.
  set (size := 16 + zlen a + pad_to 4096 (16 + zlen a)) in *.
  assert (append_bytes_since_last_barrier_ (f_file s1) = append_bytes_since_last_barrier_ (f_file s) + size) as Hab1
    by (rewrite Hf1; apply u64_small; lia).
  assert (zlen (ztake (zlen b) a) = zlen b) as Hlen by (rewrite zlen_ztake; lia).
  rewrite (barrier_round k (zlen b) s1 (synced w3 d3 s1)).
  2: lia. 2: by rewrite Hf1. 2,3: lia.
  2: { apply (log_sync_run w1 w2 w3 d2 d3 r2); [by rewrite Hf1|by rewrite Hz1|done]. }
  2: { cbn [f_file synced is_wal_ set_wal_syncs set_append_bytes set_wal]. by rewrite Hf1. } 2: done.
  set (s2 := synced w3 d3 s1).
  set (zn1 := set_used_capacity (used_capacity_ zn +64 zlen a) (advance size zn)) in *.
  assert (zone_heap (f_zbd s2) !! z = Some zn1) as Hzn1
    by (cbn [f_zbd s2 synced zone_heap set_be]; rewrite Hz1; apply lookup_insert_eq).
  assert (capacity_ zn1 = capacity_ zn - size) as Hc1 by (apply u64_small; lia).
  destruct (log_round k (ztake (zlen b) a) (zlen b) z zn1 w3 r3 err3 w4 d4 s2) as (s3 & -> & Hl3); try done; try lia.
  - split_and!; cbn [f_file s2 synced]; try (by rewrite ?Hf1). { change (0 < WAL_BARRIER). lia. }
    + apply (holds_data_prefix _ (zdrop (zlen b) a)). by rewrite ztake_zdrop.
    + exists zn1. rewrite zlen_entry_block, Hlen. split; [done|lia].
  - rewrite Hlen, u32_small by lia. rewrite (Z.add_comm 16). apply limit_write_fits; cbn [append_bytes_since_last_barrier_ f_file s2 synced set_wal_syncs set_append_bytes]; lia.
  - cbn [f_file s2 synced wal_seq_ set_wal_syncs set_append_bytes set_wal]. by rewrite Hf1.
  - exists s3. rewrite Hlen, Z.sub_diag, SparseAppend_loop_0. destruct Hl3 as (? & _ & -> & -> & _).
    split; [done|]. split; [done|]. rewrite Hlen. cbn. by rewrite Hf1.
Qed.

(** ** Reading the record back *)

Lemma zeros_split n m : 0 <= m <= n -> zeros n = zeros m ++ zeros (n - m).
Proof. intros H. unfold zeros. rewrite <- replicate_add. f_equal. lia. Qed.

(** C26: Recovery reads the record of a flush from its block, and stops at the
    padding of the block: whatever [rest] follows it in the chunk, the records
    of later flushes before the barrier included, is not recovered. *)
Theorem padding_ends_chunk w begin_ end_ seq data rest s :
  wal_ (f_file s) = Some w -> 0 <= begin_ <= end_ -> end_ < 2 ^ 64 ->
  entry_ok (begin_ <=? wal_tail w) (seq, data) -> 16 <= pad_to 4096 (16 + zlen data) ->
  zlen (entry_block seq data ++ rest) = end_ - begin_ ->
  szd_Read (Z.shiftr begin_ (shift_block_size block_sz_)) (end_ - begin_) w (zbd_be_ (f_zbd s))
    = (true, entry_block seq data ++ rest) ->
  RecoverWALChunk begin_ end_ s = Ok tt (mod_f (set_entries [(seq, data)]) s).
Proof.
  intros Hw Hb He Hok Hp Hlen Hread. apply (RecoverWALChunk_run w); try (done || lia).
  - split; [lia|]. exists [(seq, data)], (zeros (pad_to 4096 (16 + zlen data)) ++ rest).
    assert (chunk_bytes [(seq, data)] = entry_bytes (seq, data)) as -> by apply app_nil_r.
    unfold entry_block in *. rewrite <- app_assoc in *. rewrite <- zlen_app. split_and!; try done.
    right. rewrite (zeros_split _ 16) by lia. rewrite <- app_assoc. by eexists.
  - repeat constructor.
  - by constructor.
Qed.

(** ** Resetting a log that is not open *)

(** The place of a zone in [wal_zones]. *)
Definition wal_index (zn : Zone) : Z := (start_ zn / zone_sz_ -64 ZENFS_META_ZONES) -64 ZENFS_FLAKY_ZONES.

(** Opening a log waits for its zone. *)
Lemma OpenWALZone_busy z zn (d : Zbd D) :
  zone_heap d !! z = Some zn -> busy_ zn = true -> wal_zones d !! Z.to_nat (wal_index zn) = Some z ->
  OpenWALZone z d = Stuck Blocked.
Proof.
  intros Hz Hb Hi. unfold OpenWALZone, WaitForOpenIOZoneToken, spin_active_token, GetActiveIOZoneTokenIfAvailable.
  do 2 unfold bind at 1. unfold get. destruct (_ <? _); [|done]. unfold modify.
  do 3 unfold bind at 1. destruct (_ <? _); [|done].
  unfold bind at 1, ret. unfold bind at 1, GetZoneNr. unfold bind at 1. erewrite get_zone_ok by exact Hz.
  unfold ret at 1. fold (wal_index zn). unfold bind at 1, wal_zone_at. unfold bind at 1, get.
  assert ((0 <=? wal_index zn) = true) as -> by (unfold wal_index, u64; apply Z.leb_le, Z.mod_pos_bound; lia).
  cbn [wal_zones set_tokens]. rewrite Hi. unfold deref, ret, bind at 1, Acquire. unfold bind at 1.
  erewrite get_zone_ok by exact Hz. by rewrite Hb.
Qed.

(** C32: [ResetWALZones] on a log that has extents and is not open, such as one
    whose extents recovery found in its zone, takes the zone of the first extent and then opens the log of
    that zone, which waits for the zone: it never returns. *)
Theorem ResetWALZones_deadlock e es zn s :
  extents_ (f_file s) = e :: es -> wal_ (f_file s) = None ->
  zone_heap (f_zbd s) !! e_zone_ e = Some zn ->
  wal_zones (f_zbd s) !! Z.to_nat (wal_index zn) = Some (e_zone_ e) ->
  ResetWALZones s = Stuck Blocked.
Proof.
  intros He Hw Hz Hi. unfold ResetWALZones. unfold bind at 1, get_file, gets. rewrite He, Hw.
  do 2 unfold bind at 1. rewrite on_dev_run. unfold Acquire. unfold bind at 1. rewrite (get_zone_ok _ zn _ Hz).
  destruct (busy_ zn); [done|]. unfold bind at 1. erewrite mod_zone_ok by exact Hz. unfold ret at 1.
  unfold bind at 1, ret at 1. unfold bind at 1, open_wal. unfold bind at 1. rewrite on_dev_run.
  by rewrite (OpenWALZone_busy (e_zone_ e) (set_busy true zn)) by (apply lookup_insert_eq || done).
Qed.
End wal_append.

(** A log in zone 4 whose buffer holds one byte. *)
Definition log_state : FSt MemDev MemLog unit :=
  mkFSt (mkZbd (mkMemDev [] ∅) {[4%nat := mkZone 65536 12288 16384 69632 0 0 true]}
           [] [] [] 0 0 0 0 0 OK false 2 2 0)
    (set_active_zone (Some 4%nat) (set_extent_start 69632 (set_wal_seq 1 (set_wal (Some (mkMemLog 4 7 0 17))
      (set_io_type kWAL true (ZoneFile_new 1))))))
    (zeros 16 ++ b_of "a" ++ zeros 4079) tt.

Lemma wal_flush_record_witness :
  exists s', SparseAppend (be := be1) (szd := szd1) (cfg := cfg1) (mw := no_writer) 1 log_state = Ok tt s' /\
    logged 4 (b_of "a") (mkMemLog 4 7 0 18)
      (mem_store g1 (mkMemDev [] ∅) 69632 (entry_block 1 (b_of "a"))) log_state s'.
Proof.
  apply (wal_flush_record (be := be1) (szd := szd1) (cfg := cfg1) (mw := no_writer) (b_of "a") 4
    (mkMemLog 4 7 0 17) 4096 "").
  - apply Nat.ltb_lt. reflexivity.
  - split_and!; try reflexivity.
    + exists (zeros 16), (zeros 4079). split; [reflexivity|]. split; [reflexivity|]. vm_compute. congruence.
    + exists (mkZone 65536 12288 16384 69632 0 0 true). split; [reflexivity|]. rewrite zlen_entry_block.
      split; reflexivity.
  - reflexivity.
  - reflexivity.
  - vm_compute. congruence.
  - split; [vm_compute; congruence|reflexivity].
  - change (be_Append (ZonedBlockDeviceBackend := be1) (entry_block 1 (b_of "a")) (mkMemLog 4 7 0 17) (mkMemDev [] ∅)
      = (4096, "", (mkMemLog 4 7 0 18, mem_store g1 (mkMemDev [] ∅) 69632 (entry_block 1 (b_of "a"))))).
    unfold be1, mem_backend, be_Append, log_append. rewrite zlen_entry_block. reflexivity.
  - lia.
Defined.

(** The smallest barrier that can cut a flush: 4 KiB were logged since the last
    one, and one byte more than fits is flushed.  The flush logs 4080 bytes and
    then the byte [x61] again, and not [x62]. *)
Definition cfg8 : BuildConfig.
Proof. refine {| SPARSE_BUFFER_SIZE_IN_KB := 8; WAL_BARRIER_SIZE_IN_KB := 8 |}. done. Defined.

Definition cut_front : bytes := replicate 4080 Corelib.Init.Byte.x61.
Definition cut_back : bytes := [Corelib.Init.Byte.x62].
Definition cut_state : FSt MemDev MemLog unit :=
  mkFSt (f_zbd log_state) (set_append_bytes 4096 (f_file log_state))
    (zeros 16 ++ (cut_front ++ cut_back) ++ zeros 4095) tt.

Lemma barrier_cut_repeats_witness :
  exists s', SparseAppend (be := be1) (szd := szd1) (cfg := cfg8) (mw := no_writer)
      (zlen (cut_front ++ cut_back)) cut_state = Ok tt s' /\
    zbd_be_ (f_zbd s')
    = mem_store g1 (mem_store g1 (mkMemDev [] ∅) 69632 (entry_block 1 cut_front))
        73728 (entry_block 2 [Corelib.Init.Byte.x61]) /\
    file_size_ (f_file s') = 4081.
Proof.
  assert (zlen cut_front = 4080) as Hf by reflexivity.
  assert (zlen (cut_front ++ cut_back) = 4081) as Hfb by reflexivity.
  apply (barrier_cut_repeats (be := be1) (szd := szd1) (cfg := cfg8) (mw := no_writer) cut_front cut_back 4
    (mkMemLog 4 7 0 17) (mkMemLog 4 7 0 18) (mkMemLog 4 7 0 18) (mkMemLog 4 7 0 18) (mkMemLog 4 7 0 19)
    (mem_store g1 (mkMemDev [] ∅) 69632 (entry_block 1 cut_front))
    (mem_store g1 (mkMemDev [] ∅) 69632 (entry_block 1 cut_front))
    (mem_store g1 (mkMemDev [] ∅) 69632 (entry_block 1 cut_front))
    (mem_store g1 (mem_store g1 (mkMemDev [] ∅) 69632 (entry_block 1 cut_front))
        73728 (entry_block 2 [Corelib.Init.Byte.x61])) 4096 0 4096 "" "" cut_state).
  - apply Nat.ltb_lt. reflexivity.
  - split_and!; try reflexivity.
    + exists (zeros 16), (zeros 4095). split; [reflexivity|]. split; [reflexivity|]. rewrite Hfb. vm_compute. congruence.
    + exists (mkZone 65536 12288 16384 69632 0 0 true). split; [reflexivity|]. rewrite zlen_entry_block, Hfb.
      split; reflexivity.
  - rewrite Hf. split; [reflexivity|]. vm_compute. congruence.
  - rewrite Hfb. reflexivity.
  - vm_compute. congruence.
  - reflexivity.
  - rewrite Hf. reflexivity.
  - intros zn Hzn. injection Hzn as <-. rewrite !zlen_entry_block, Hf. reflexivity.
  - change (wal_seq_ (f_file cut_state)) with 1. unfold be1, mem_backend, be_Append, log_append.
    rewrite zlen_entry_block, Hf. reflexivity.
  - lia.
  - reflexivity.
  - reflexivity.
  - change (ztake (zlen cut_back) cut_front) with [Corelib.Init.Byte.x61].
    change (wal_seq_ (f_file cut_state) +64 1) with 2. unfold be1, mem_backend, be_Append, log_append.
    rewrite zlen_entry_block. reflexivity.
  - lia.
Defined.

(** The block of one flush, and behind it the block of another one. *)
Definition two_blocks : bytes := entry_block 1 (b_of "a") ++ entry_block 2 (b_of "bb").
Definition padded_state : FSt MemDev MemLog unit :=
  mkFSt (set_be (mkMemDev [(65536, two_blocks)] ∅) (f_zbd log_state))
    (set_wal (Some (mkMemLog 4 7 0 18)) (f_file log_state)) [] tt.

Lemma log_position_65536 : Z.shiftr 65536 (shift_block_size (block_sz_ (ZonedBlockDeviceBackend := be1))) * geom_bs g1 = 65536.
Proof. reflexivity. Qed.

Lemma mem_range_same pos data l ws : range (mem_disk (mkMemDev ((pos, data) :: l) ws)) pos (zlen data) = data.
Proof. apply (range_store_same (mem_disk_of l)). Qed.

Lemma padding_ends_chunk_witness :
  RecoverWALChunk (be := be1) (szd := szd1) 65536 73728 padded_state
  = Ok tt (mod_f (set_entries [(1, b_of "a")]) padded_state).
Proof.
  apply (padding_ends_chunk (be := be1) (szd := szd1) (mkMemLog 4 7 0 18) 65536 73728 1 (b_of "a")
    (entry_block 2 (b_of "bb"))).
  - reflexivity.
  - lia.
  - lia.
  - split; [|split; [|done]]; split; vm_compute; congruence.
  - vm_compute. congruence.
  - rewrite zlen_app, !zlen_entry_block. reflexivity.
  - assert (zlen two_blocks = 8192) as Hl by (unfold two_blocks; rewrite zlen_app, !zlen_entry_block; reflexivity).
    cbn [szd1 mem_log szd_Read]. rewrite (log_position_65536 : Z.shiftr 65536 _ * _ = _).
    change (73728 - 65536) with 8192. rewrite <- Hl at 1.
    change (zbd_be_ _) with (mkMemDev [(65536, two_blocks)] ∅). rewrite mem_range_same. reflexivity.
Defined.

(** A log with one extent, in the first zone of the logs. *)
Definition closed_log : FSt MemDev MemLog unit :=
  mkFSt (mkZbd (mkMemDev [] ∅) {[4%nat := mkZone 65536 12288 16384 69632 0 1 false]}
           [] [4%nat] [] 0 0 0 0 0 OK false 2 2 0)
    (set_extents [mkExtent 65552 1 4] (ZoneFile_new 1)) [] tt.

Lemma ResetWALZones_deadlock_witness :
  ResetWALZones (be := be1) (szd := szd1) closed_log = Stuck Blocked.
Proof.
  apply (ResetWALZones_deadlock (be := be1) (szd := szd1) (mkExtent 65552 1 4) []
    (mkZone 65536 12288 16384 69632 0 1 false)); reflexivity.
Defined.
