(* ===== verification/WritableProps.v ===== *)
(** * Writable files

    [ZonedWritableFile] with a buffer refines a plain sequence of bytes: what was
    written is the contents of the file followed by what the buffer holds, an
    append extends it, and syncing moves all of it to the device. *)

From S2P Require Import Prelude Status Coding Device MemDevice Zone Zbd ZbdProps ZbdFrame ZoneFile FileWrite FileRead ZoneFileProps FileReadProps FileWriteProps.

Section writable.
Context {D L X : Type} `{spec : BackendSpec D L} {szd : SZDOnceLog D L} {cfg : BuildConfig}
  {mw : MetadataWriter D L X} {mws : MetadataWriterSpec D L X}.
Implicit Types s : FSt D L X.
Implicit Types p : FSt D L X * WFile.

(** A buffered writer of a file that is neither sparse nor a log. *)
Record writer_inv p : Prop := {
  wi_file : file_inv p.1;
  wi_stored : Forall (stored_extent (f_zbd p.1)) (extents_ (f_file p.1));
  wi_sparse : is_sparse_ (f_file p.1) = false;
  wi_buffered : wf_buffered p.2 = true;
  wi_offset : wf_offset p.2 = 0;
  wi_size : zlen (f_buf p.1) = wf_buffer_sz p.2;
  wi_blocks : wf_buffer_sz p.2 mod block_sz_ = 0;
  wi_range : 0 < wf_buffer_sz p.2 < 2 ^ 32;
  wi_pos : 0 <= wf_buffer_pos p.2 <= wf_buffer_sz p.2;
  wi_bound : (length (f_buf p.1) <= loop_bound)%nat
}.

(** What is in the buffer, and all that was written. *)
Definition pending p : bytes := ztake (wf_buffer_pos p.2) (f_buf p.1).
Definition written p : bytes := file_contents p.1 ++ pending p.

(** A write that failed left a prefix of what should be there. *)
Definition partly_written (goal : bytes) p p' : Prop :=
  file_contents p.1 `prefix_of` file_contents p'.1 /\ file_contents p'.1 `prefix_of` goal /\
  others_kept p.1 p'.1.

Lemma ZonedWritableFile_new_inv mem s :
  file_inv s -> Forall (stored_extent (f_zbd s)) (extents_ (f_file s)) -> is_sparse_ (f_file s) = false ->
  2 ^ 20 mod block_sz_ = 0 -> 2 ^ 20 <= Z.of_nat loop_bound ->
  let p := ZonedWritableFile_new true mem s in writer_inv p /\ written p = file_contents s.
Proof.
  intros Hi Hes Hsp Hb Hl. unfold ZonedWritableFile_new. rewrite Hsp.
  assert (exists sz, 1024 * 1024 = sz /\ 2 ^ 20 = sz /\ 0 < sz < 2 ^ 32) as (sz & E1 & E2 & Hsz) by (by exists (2 ^ 20)).
  rewrite E1. rewrite E2 in Hb, Hl. clear E1 E2. cbv zeta beta iota.
  pose proof (zlen_range mem 0 sz ltac:(lia)) as Hz.
  split; [|unfold written, pending; cbn [fst snd f_buf wf_buffer_pos]; by rewrite ztake_0, app_nil_r].
  split; cbn [fst snd f_zbd f_file f_buf f_ctx wf_buffered wf_offset wf_buffer_sz wf_buffer_pos];
    try done; try lia.
  - by destruct Hi; split.
  - unfold zlen in Hz. lia.
Qed.

Lemma others_kept_same s s' : f_zbd s' = f_zbd s -> f_ctx s' = f_ctx s -> others_kept s s'.
Proof. intros E C. unfold others_kept, writer_kept. by rewrite E, C. Qed.

Lemma ztake_ztake_prefix k n (l : bytes) : 0 <= k <= n -> ztake k l `prefix_of` ztake n l.
Proof.
  intros H. replace (ztake k l) with (ztake k (ztake n l)); [apply prefix_ztake|].
  unfold ztake. rewrite take_take. f_equal. lia.
Qed.

Lemma FlushBuffer_step p :
  writer_inv p ->
  match FlushBuffer p with
  | Ok _ p' => writer_inv p' /\ file_contents p'.1 = written p /\ others_kept p.1 p'.1 /\
      wf_buffer_pos p'.2 = 0 /\ wf_buffer_sz p'.2 = wf_buffer_sz p.2
  | Err _ p' => partly_written (written p) p p'
  | Stuck _ => wf_buffer_pos p.2 <> 0
  end.
Proof.
  destruct p as [s w]. intros Hi. pose proof Hi as [Hf Hes Hsp Hbuf Hoff Hsz Hblk Hrange Hpos Hlb].
  cbn [fst snd] in *. unfold FlushBuffer, wfile. unfold bind at 1, gets. cbn [snd].
  destruct (Z.eqb_spec (wf_buffer_pos w) 0) as [H0|H0].
  { unfold ret. split_and!; try done; [|by apply others_kept_same].
    unfold written, pending. cbn. by rewrite H0, ztake_0, app_nil_r. }
  unfold bind at 1, on_file, zoom, get_file, gets. cbn [fst]. rewrite Hsp.
  destruct (pad_to_spec (wf_buffer_pos w) ltac:(lia)) as (Hp & _ & Hle).
  specialize (Hle _ Hblk ltac:(lia)).
  pose proof (BufferedAppend_post (wf_buffer_pos w) s Hf ltac:(lia) ltac:(lia) Hlb) as Hpost.
  unfold bind at 1. cbn [fst snd]. destruct (BufferedAppend (wf_buffer_pos w) s) as [[] s'|e s'|]; [| |done].
  - destruct Hpost as (Hf' & Hw & Hl'). apply wrote_appended in Hw as (Hc & _ & _ & Hs' & Hes' & Ho); [|done].
    unfold mod_wfile, modify. cbn [fst snd]. split; [|by split_and!].
    split; cbn; try done; try congruence; [lia|]. unfold zlen in Hl'. lia.
  - destruct Hpost as (k & Hk & Hw). apply wrote_appended in Hw as (Hc & _ & _ & _ & _ & Ho); [|done].
    unfold partly_written. cbn [fst]. rewrite Hc. split; [by eexists|]. split; [|done].
    unfold written, pending. cbn. apply prefix_app, ztake_ztake_prefix. lia.
Qed.

Lemma buf_write_run pos data s :
  0 <= pos -> pos + zlen data <= zlen (f_buf s) ->
  buf_write pos data s = Ok tt (mkFSt (f_zbd s) (f_file s) (splice pos data (f_buf s)) (f_ctx s)).
Proof.
  intros H1 H2. unfold buf_write, get_buf, bind, gets.
  by assert ((0 <=? pos) && (pos + zlen data <=? zlen (f_buf s)) = true) as -> by lia.
Qed.

(** Copying data into a buffer with room for it. *)
Lemma buffer_step data p :
  writer_inv p -> wf_buffer_pos p.2 + zlen data <= wf_buffer_sz p.2 ->
  exists p', (forall k : M (FSt D L X * WFile) unit, (w <- wfile ;; on_file (buf_write (wf_offset w + wf_buffer_pos w) data) ;;
              mod_wfile (fun w => set_buffer_pos (wf_buffer_pos w +32 zlen data) w) ;; k) p = k p') /\
    writer_inv p' /\ written p' = written p ++ data /\ f_zbd p'.1 = f_zbd p.1 /\ f_ctx p'.1 = f_ctx p.1 /\
    file_contents p'.1 = file_contents p.1 /\
    wf_buffer_pos p'.2 = wf_buffer_pos p.2 + zlen data /\ wf_buffer_sz p'.2 = wf_buffer_sz p.2.
Proof.
  destruct p as [s w]. intros Hi Hroom. pose proof Hi as [Hf Hes Hsp Hbuf Hoff Hsz Hblk Hrange Hpos Hlb].
  cbn [fst snd] in *. pose proof (zlen_nonneg data). eexists. split.
  { intros k. unfold wfile. unfold bind at 1, gets. cbn [snd].
    rewrite Hoff, Z.add_0_l. unfold bind at 1, on_file, zoom. cbn [fst].
    rewrite buf_write_run by lia. unfold bind at 1, mod_wfile, modify. cbn [fst snd]. reflexivity. }
  cbn [fst snd set_buffer_pos wf_buffer_pos wf_buffer_sz].
  rewrite u32_small by lia. split; [|split; [|by split_and!]].
  - split; cbn; try done; rewrite ?zlen_splice by lia; try done; [by destruct Hf; split|lia|].
    pose proof (zlen_splice (wf_buffer_pos w) data (f_buf s) ltac:(lia) ltac:(lia)) as Hz.
    unfold zlen in Hz. lia.
  - unfold written, pending. cbn.
    by rewrite ztake_splice_all, app_assoc by lia.
Qed.

Lemma partly_written_after goal p p1 p' :
  file_contents p.1 `prefix_of` file_contents p1.1 -> others_kept p.1 p1.1 ->
  partly_written goal p1 p' -> partly_written goal p p'.
Proof.
  intros Hp Ho (H1 & H2 & H3). split; [by etrans|]. split; [done|]. by eapply others_kept_trans.
Qed.

(** A full buffer is flushed first. *)
Lemma make_room_step p :
  writer_inv p ->
  let left := wf_buffer_sz p.2 - wf_buffer_pos p.2 in
  match (if left =? 0 then FlushBuffer else ret tt) p with
  | Ok _ p1 => writer_inv p1 /\ written p1 = written p /\ others_kept p.1 p1.1 /\
      wf_buffer_sz p1.2 = wf_buffer_sz p.2 /\ file_contents p.1 `prefix_of` file_contents p1.1 /\
      (if left =? 0 then wf_buffer_sz p.2 else left) = wf_buffer_sz p1.2 - wf_buffer_pos p1.2 /\
      0 < wf_buffer_sz p1.2 - wf_buffer_pos p1.2 /\ (left <> 0 -> p1 = p)
  | Err _ p1 => partly_written (written p) p p1
  | Stuck _ => left = 0
  end.
Proof.
  intros Hi left. pose proof (wi_range _ Hi). destruct (Z.eqb_spec left 0) as [Hfull|Hroom].
  - pose proof (FlushBuffer_step p Hi) as Hf. destruct (FlushBuffer p) as [[] p1|e p1|]; [|done..].
    destruct Hf as (Hi1 & Hc & Ho & Hp0 & Hs). split; [done|].
    split; [unfold written at 1, pending; by rewrite Hp0, ztake_0, app_nil_r|].
    split_and!; [done..| |lia|lia|lia]. rewrite Hc. by eexists.
  - unfold ret. pose proof (wi_pos _ Hi). split_and!; first [done|by apply others_kept_same|lia].
Qed.

Lemma BufferedWrite_loop_post n data p :
  writer_inv p -> (length data < n)%nat -> zlen data < 2 ^ 32 ->
  match BufferedWrite_loop n data p with
  | Ok _ p' => writer_inv p' /\ written p' = written p ++ data /\ others_kept p.1 p'.1 /\
      file_contents p.1 `prefix_of` file_contents p'.1 /\ wf_buffer_sz p'.2 = wf_buffer_sz p.2 /\
      (wf_buffer_pos p.2 + zlen data <= wf_buffer_sz p.2 ->
       wf_buffer_pos p'.2 = wf_buffer_pos p.2 + zlen data)
  | Err _ p' => partly_written (written p ++ data) p p'
  | Stuck _ => wf_buffer_sz p.2 < wf_buffer_pos p.2 + zlen data
  end.
Proof.
  revert data p. induction n as [|n IH]; intros data p Hi Hn Hu; [lia|]. cbn [BufferedWrite_loop].
  destruct (Z.eqb_spec (zlen data) 0) as [H0|H0].
  { unfold ret. destruct data; [|done]. rewrite app_nil_r.
    split_and!; first [done|by apply others_kept_same|unfold zlen; simpl; lia]. }
  pose proof (wi_range _ Hi). pose proof (wi_pos _ Hi). pose proof (zlen_nonneg data).
  unfold wfile at 1. unfold bind at 1, gets. cbv zeta. rewrite !u32_small by lia.
  pose proof (make_room_step p Hi) as Hroom. cbv zeta in Hroom. unfold bind at 1.
  destruct ((if _ =? 0 then FlushBuffer else ret tt) p) as [[] p1|e p1|].
  2: { destruct Hroom as (Hp1 & Hp2 & Ho). split; [done|]. split; [|done]. etrans; [done|]. by eexists. }
  2: lia.
  destruct Hroom as (Hi1 & Hw1 & Ho1 & Hs1 & Hpre & -> & Hpos1 & Hsame).
  set (room := wf_buffer_sz p1.2 - wf_buffer_pos p1.2) in *. pose proof (wi_pos _ Hi1). pose proof (wi_range _ Hi1).
  set (m := if room <? zlen data then room else zlen data).
  assert (0 < m <= zlen data /\ m <= room) as Hm.
  { unfold m. destruct (Z.ltb_spec room (zlen data)); lia. }
  assert (zlen (ztake m data) = m) as Hzm by (rewrite zlen_ztake; lia).
  destruct (buffer_step (ztake m data) p1 Hi1 ltac:(lia)) as (p2 & Hrun & Hi2 & Hw2 & Hd2 & Hx2 & Hc2 & Hp2 & Hs2).
  rewrite Hzm in Hrun. rewrite Hrun. clear Hrun.
  specialize (IH (zdrop m data) p2 Hi2). rewrite zlen_zdrop in IH by lia.
  specialize (IH ltac:(unfold zlen, zdrop in *; rewrite length_drop; lia) ltac:(lia)).
  assert (written p2 ++ zdrop m data = written p ++ data) as Hall.
  { by rewrite Hw2, Hw1, <-app_assoc, ztake_zdrop. }
  rewrite Hall in IH. assert (others_kept p.1 p2.1) as Ho2.
  { eapply others_kept_trans; [done|]. by apply others_kept_same. }
  destruct (BufferedWrite_loop n (zdrop m data) p2) as [[] p'|e p'|].
  - destruct IH as (Hi' & Hw' & Ho' & Hpre' & Hs' & Hpos'). split_and!; try done; try congruence.
    + by eapply others_kept_trans.
    + etrans; [done|]. by rewrite <-Hc2.
    + intros Hfit. rewrite Hsame in * by lia. rewrite Hpos'; lia.
  - apply (partly_written_after _ p p2); [by rewrite Hc2|done|done].
  - destruct (Z.eq_dec (wf_buffer_sz p.2 - wf_buffer_pos p.2) 0); [lia|].
    rewrite Hsame in * by done. lia.
Qed.

(** ** Syncing *)

Lemma Persist_step s :
  file_inv s -> Forall (stored_extent (f_zbd s)) (extents_ (f_file s)) ->
  match PersistMetadata s with
  | Ok _ s' | Err _ s' => file_inv s' /\ appended_to_file [] s s' /\ f_buf s' = f_buf s
  | Stuck _ => True
  end.
Proof.
  intros Hi Hes. pose proof (persist_step s (fi_dev _ Hi) (fi_writer _ Hi)) as Hp.
  assert (forall s', meta_step (f_zbd s) (f_zbd s') -> f_buf s' = f_buf s ->
    writer_ok (meta_zones (f_zbd s)) (f_ctx s') ->
    (exists n t, f_file s' = set_nr_synced_extents n (set_m_time t (f_file s))) ->
    file_inv s' /\ appended_to_file [] s s' /\ f_buf s' = f_buf s) as Hend.
  { intros s' Hms Hb Hwo (n & t & Hf). destruct (meta_step_stored _ _ (fi_dev _ Hi) Hms) as [Hst Hok].
    pose proof Hms as ((Hio & _) & Hm & _ & _ & _ & Hh & _).
    split; [|split; [|done]].
    - split; [done|by rewrite Hm|rewrite Hf; apply Hi|rewrite Hf; apply Hi|]. rewrite Hf. intros z Hz.
      destruct (fi_active _ Hi z Hz) as (Hin & zn & Hzn & He). rewrite Hio. split; [done|].
      exists zn. rewrite Hh; [done|]. by apply (fi_dev _ Hi).
    - apply wrote_appended; [done|]. apply wrote_nothing; rewrite ?Hf; try done; [apply Hi|by intros ?]. }
  unfold PersistMetadata. destruct (Persist s) as [[] s'|e s'|]; [| |done];
    destruct Hp as (Hms & Hb & Hwo & Hf); by apply Hend.
Qed.

Lemma DataSync_post p :
  writer_inv p ->
  match DataSync p with
  | Ok _ p' => writer_inv p' /\ file_contents p'.1 = written p /\ wf_buffer_pos p'.2 = 0 /\
      others_kept p.1 p'.1 /\ wf_buffer_sz p'.2 = wf_buffer_sz p.2
  | Err _ p' => partly_written (written p) p p'
  | Stuck _ => True
  end.
Proof.
  intros Hi. unfold DataSync. unfold bind at 1, on_file at 1, zoom, get_file, gets.
  rewrite (fi_wal _ (wi_file _ Hi)). unfold bind at 1, ret at 1. unfold bind at 1, wfile, gets.
  destruct p as [s w]. cbn [fst snd] in *. pose proof (wi_buffered _ Hi) as Hb. cbn [snd] in Hb. rewrite Hb.
  pose proof (FlushBuffer_step _ Hi) as Hf. unfold bind at 1.
  destruct (FlushBuffer (s, w)) as [[] [s1 w1]|e p1|]; [|done|done].
  destruct Hf as (Hi1 & Hc1 & Ho1 & Hp1 & Hs1). cbn [fst snd] in *.
  unfold bind at 1, on_file at 1, zoom, get_file, gets. cbn [fst snd].
  pose proof (wi_sparse _ Hi1) as Hsp. cbn [fst] in Hsp. rewrite Hsp. cbn [negb].
  unfold on_file, zoom. cbn [fst snd]. pose proof (Persist_step s1 (wi_file _ Hi1) (wi_stored _ Hi1)) as Hp.
  cbn [fst] in Hp. destruct (PersistMetadata s1) as [[] s2|e s2|]; [| |done];
    destruct Hp as (Hf2 & (Hc2 & _ & _ & Hsp2 & Hst2 & Ho2) & Hb2); rewrite app_nil_r in Hc2;
    pose proof (others_kept_trans _ _ _ Ho1 Ho2) as Ho.
  - cbn [fst snd]. split_and!; [|congruence|done|done|done]. destruct Hi1; split; cbn in *; congruence.
  - split; [|split; [|done]]; cbn [fst]; rewrite Hc2, Hc1; [by eexists|done].
Qed.
End writable.

(** ** The contract *)

Inductive wop := OpAppend (data : bytes) | OpSync.

(** The data that is in the file, and the data that was accepted but may be lost. *)
Abbreviation spec_state := (bytes * bytes)%type.

Definition op_data (op : wop) : bytes := match op with OpAppend d => d | OpSync => [] end.
Definition is_sync (op : wop) : bool := match op with OpAppend _ => false | OpSync => true end.

(** An append may move any part of what was accepted to the file; a sync moves all of it. *)
Inductive spec_step : wop -> spec_state -> spec_state -> Prop :=
| spec_append d c q c' q' :
    c `prefix_of` c' -> c' ++ q' = c ++ q ++ d -> spec_step (OpAppend d) (c, q) (c', q')
| spec_sync c q : spec_step OpSync (c, q) (c ++ q, []).

Inductive spec_run : list wop -> spec_state -> spec_state -> Prop :=
| spec_nil a : spec_run [] a a
| spec_cons op ops a b c : spec_step op a b -> spec_run ops b c -> spec_run (op :: ops) a c.

(** A call that failed left a prefix of what was accepted. *)
Definition partial_step (op : wop) (a b : spec_state) : Prop :=
  a.1 `prefix_of` b.1 /\ b.1 `prefix_of` a.1 ++ a.2 ++ op_data op.
Definition failed_run (ops : list wop) (a b : spec_state) : Prop :=
  exists ops1 op ops2 c, ops = ops1 ++ op :: ops2 /\ spec_run ops1 a c /\ partial_step op c b.

(** What an implementation of the contract has to show: its invariant [w_inv], the
    state [w_abs] it stands for, what it leaves alone, the room in its buffer,
    and that every operation is a step. *)
Class WritableFile (S : Type) (exec : wop -> M S unit) := {
  w_inv : S -> Prop;
  w_abs : S -> spec_state;
  w_kept : relation S;
  w_room : S -> Z;
  w_preorder : PreOrder w_kept;
  w_step op p : w_inv p -> zlen (op_data op) < 2 ^ 32 ->
    match exec op p with
    | Ok _ p' => w_inv p' /\ spec_step op (w_abs p) (w_abs p') /\ w_kept p p' /\
        (zlen (op_data op) <= w_room p -> w_room p <= w_room p' + zlen (op_data op))
    | Err _ p' => partial_step op (w_abs p) (w_abs p') /\ w_kept p p'
    | Stuck _ => is_sync op = true \/ w_room p < zlen (op_data op)
    end
}.
#[export] Existing Instance w_preorder.

Lemma ops_data_cons op ops :
  zlen (mjoin (op_data <$> op :: ops)) = zlen (op_data op) + zlen (mjoin (op_data <$> ops)).
Proof. rewrite fmap_cons. cbn [mjoin list_join]. apply zlen_app. Qed.

(** Sequences of operations. *)
Lemma w_run {S} {exec : wop -> M S unit} {W : WritableFile S exec} ops p :
  w_inv p -> Forall (fun op => zlen (op_data op) < 2 ^ 32) ops ->
  match forM ops exec p with
  | Ok _ p' => w_inv p' /\ spec_run ops (w_abs p) (w_abs p') /\ w_kept p p'
  | Err _ p' => failed_run ops (w_abs p) (w_abs p') /\ w_kept p p'
  | Stuck _ => existsb is_sync ops = true \/ w_room p < zlen (mjoin (op_data <$> ops))
  end.
Proof.
  intros Hi Hops. revert p Hi. induction Hops as [|op ops Hu _ IH]; intros p Hi.
  { split_and!; [done|constructor|done]. }
  cbn [forM]. unfold bind at 1. pose proof (w_step op p Hi Hu) as Hstep.
  destruct (exec op p) as [[] p1|e p1|].
  - destruct Hstep as (Hi1 & Hs1 & Ho1 & Hpos). specialize (IH p1 Hi1).
    destruct (forM ops exec p1) as [[] p'|e p'|].
    + destruct IH as (Hi' & Hr & Ho). split_and!; [done|by econstructor|by transitivity p1].
    + destruct IH as [(o1 & o & o2 & b & -> & Hr & H1) Ho]. split; [|by transitivity p1].
      exists (op :: o1), o, o2, b. split_and!; try done. by econstructor.
    + rewrite ops_data_cons. cbn [existsb]. rewrite orb_true_iff.
      pose proof (zlen_nonneg (mjoin (op_data <$> ops))). destruct IH as [IH|IH]; [by left; right|right; lia].
  - destruct Hstep as [Hp Ho]. split; [|done]. exists [], op, ops, (w_abs p). by split_and!; [|constructor|].
  - rewrite ops_data_cons. cbn [existsb]. rewrite orb_true_iff.
    pose proof (zlen_nonneg (mjoin (op_data <$> ops))). destruct Hstep as [->|]; [by left; left|right; lia].
Qed.

Section contract.
Context {D L X : Type} `{spec : BackendSpec D L} {szd : SZDOnceLog D L} {cfg : BuildConfig}
  {mw : MetadataWriter D L X} {mws : MetadataWriterSpec D L X}.
Implicit Types p : FSt D L X * WFile.

Definition exec_op (op : wop) : M (FSt D L X * WFile) unit :=
  match op with OpAppend d => WFile_Append d | OpSync => WFile_Sync end.
Definition abs p : spec_state := (file_contents p.1, pending p).

Lemma others_kept_preorder : PreOrder (fun p p' => others_kept p.1 p'.1).
Proof. split; [intros p; by apply others_kept_same|]. intros p1 p2 p3. apply others_kept_trans. Qed.

#[export] Instance ZonedWritableFile_impl : WritableFile (FSt D L X * WFile) exec_op.
Proof.
  refine {| w_inv := writer_inv; w_abs := abs; w_kept := fun p p' => others_kept p.1 p'.1;
            w_room := fun p => wf_buffer_sz p.2 - wf_buffer_pos p.2; w_preorder := others_kept_preorder |}.
  intros op p Hi Hu. assert (forall p', partly_written (written p ++ op_data op) p p' ->
    partial_step op (abs p) (abs p') /\ others_kept p.1 p'.1) as Herr.
  { intros p' (H1 & H2 & H3). split; [|done]. split; [done|]. unfold written in H2. by rewrite <-app_assoc in H2. }
  destruct op as [d|]; cbn [exec_op op_data is_sync] in *.
  - unfold WFile_Append, wfile. unfold bind at 1, gets. rewrite (wi_buffered _ Hi).
    unfold BufferedWrite. rewrite u32_small by (pose proof (zlen_nonneg d); lia).
    rewrite ztake_all by lia. pose proof (BufferedWrite_loop_post (S (length d)) d p Hi ltac:(lia) Hu) as Hpost.
    destruct (BufferedWrite_loop _ d p) as [[] p'|e p'|]; [|by apply Herr|right; lia].
    destruct Hpost as (Hi' & Hw & Ho & Hpre & Hs & Hpos). split_and!; try done; [|lia].
    constructor; [done|]. fold (written p'). by rewrite app_assoc.
  - pose proof (DataSync_post p Hi) as Hpost. unfold WFile_Sync. destruct (DataSync p) as [[] p'|e p'|].
    + destruct Hpost as (Hi' & Hc & Hp0 & Ho & Hs). split_and!; try done.
      * unfold abs, pending. rewrite Hp0, ztake_0, Hc. constructor.
      * intros _. rewrite Hp0, Hs. pose proof (wi_pos _ Hi). unfold zlen. simpl. lia.
    + apply Herr. by rewrite app_nil_r.
    + by left.
Defined.
End contract.


(** A writer with a buffer of 16 bytes. *)
Definition writer0 : FSt MemDev MemLog unit * WFile := (append_state 8, mkWFile true 0 16 0 3 true).
Definition ops0 : list wop := [OpAppend (b_of "0123456789"); OpAppend (b_of "abcdefghij"); OpSync].

