(* ===== verification/FileWriter.v ===== *)
(** * RocksDB's buffered file writer

    WritableFileWriter (rocksdb-raw/file/writable_file_writer.h, .cc) with its
    AlignedBuffer (rocksdb-raw/util/aligned_buffer.h), which stands between log::Writer
    or the table builder and a file of a file system.  The file below
    ([FSWritableFile]), the rate limiter and the generator of file checksums are type
    classes; listeners and statistics have no effect on the data and are left out. *)

From S2P Require Import Prelude Status Coding Crc32c CrcCombine MetaLog.

(** ** aligned_buffer.h *)

Definition TruncateToPageBoundary (page_size s : Z) : Z := s -64 Z.land s (page_size -64 1).
Definition Roundup (x y : Z) : Z := ((x +64 y) -64 1) / y *64 y.

(** [ab_mem] is the memory from [bufstart_] on, which ends behind the capacity. *)
Record AlignedBuffer := mkAlignedBuffer { ab_alignment : Z; ab_mem : bytes; ab_capacity : Z; cursize_ : Z }.

Definition CurrentSize (b : AlignedBuffer) : Z := cursize_ b.
Definition ab_set (mem : bytes) (n : Z) (b : AlignedBuffer) : AlignedBuffer :=
  mkAlignedBuffer (ab_alignment b) mem (ab_capacity b) n.
(** The bytes in the buffer. *)
Definition ab_data (b : AlignedBuffer) : bytes := ztake (cursize_ b) (ab_mem b).
Definition ab_room (b : AlignedBuffer) : Z := ab_capacity b -64 cursize_ b.

(** [fresh] is what new memory holds. *)
Definition AllocateNewBuffer (fresh : Z -> byte) (requested_capacity : Z) (copy_data : bool)
    (copy_offset copy_len : Z) (b : AlignedBuffer) : AlignedBuffer :=
  let copy_len := if 0 <? copy_len then copy_len else cursize_ b in
  if copy_data && (requested_capacity <? copy_len) then b
  else
    let new_capacity := Roundup requested_capacity (ab_alignment b) in
    let new_mem := fresh <$> seqZ 0 (new_capacity + ab_alignment b) in
    if copy_data
    then mkAlignedBuffer (ab_alignment b) (splice 0 (ztake copy_len (zdrop copy_offset (ab_mem b))) new_mem)
           new_capacity copy_len
    else mkAlignedBuffer (ab_alignment b) new_mem new_capacity 0.

Definition AlignedBuffer_Append (src : bytes) (b : AlignedBuffer) : Z * AlignedBuffer :=
  let to_copy := Z.min (zlen src) (ab_room b) in
  (to_copy,
   if 0 <? to_copy then ab_set (splice (cursize_ b) (ztake to_copy src) (ab_mem b)) (cursize_ b +64 to_copy) b
   else b).

Definition PadWith (pad_size : Z) (b : AlignedBuffer) : AlignedBuffer :=
  ab_set (splice (cursize_ b) (zeros pad_size) (ab_mem b)) (cursize_ b +64 pad_size) b.

Definition PadToAlignmentWith (b : AlignedBuffer) : AlignedBuffer :=
  let pad_size := Roundup (cursize_ b) (ab_alignment b) -64 cursize_ b in
  if 0 <? pad_size then PadWith pad_size b else b.

Definition RefitTail (tail_offset tail_size : Z) (b : AlignedBuffer) : AlignedBuffer :=
  if 0 <? tail_size
  then ab_set (splice 0 (ztake tail_size (zdrop tail_offset (ab_mem b))) (ab_mem b)) tail_size b
  else ab_set (ab_mem b) tail_size b.

Definition AlignedBuffer_Size (n : Z) (b : AlignedBuffer) : AlignedBuffer := ab_set (ab_mem b) n b.

(** ** What the writer uses *)

Inductive IOPriority := IO_LOW | IO_MID | IO_HIGH | IO_USER | IO_TOTAL.
#[export] Instance IOPriority_eq_dec : EqDecision IOPriority.
Proof. solve_decision. Defined.

(** [FSWritableFile]; the [option] is the checksum in a DataVerificationInfo. *)
Class FSWritableFile (F : Type) := {
  fs_PrepareWrite : Z -> Z -> F -> F;
  fs_Append : bytes -> option bytes -> M F unit;
  fs_PositionedAppend : bytes -> Z -> option bytes -> M F unit;
  fs_Truncate : Z -> M F unit;
  fs_Flush : M F unit;
  fs_Sync : M F unit;
  fs_Fsync : M F unit;
  fs_RangeSync : Z -> Z -> M F unit;
  fs_Close : M F unit;
  fs_use_direct_io : F -> bool;
  fs_IsSyncThreadSafe : F -> bool;
  fs_GetRequiredBufferAlignment : F -> Z;
  fs_GetIOPriority : F -> IOPriority
}.

(** [RateLimiter::RequestToken]: how many of the bytes may be written now. *)
Class RateLimiter (R : Type) := { RequestToken : Z -> Z -> IOPriority -> R -> Z * R }.

Class FileChecksumGenerator (G : Type) := { gen_Update : bytes -> G -> G; gen_Finalize : G -> G }.

(** ** WritableFileWriter *)

(** The pointer to the file; a file that was given up by [reset] is still there. *)
Inductive FilePtr (F : Type) := Held (f : F) | Released (f : F).
Arguments Held {F} f.
Arguments Released {F} f.

Record FileWriter (F R G : Type) := mkFileWriter {
  writable_file_ : FilePtr F;
  buf_ : AlignedBuffer;
  max_buffer_size_ : Z;
  filesize_ : Z;
  flushed_size_ : Z;
  next_write_offset_ : Z;
  pending_sync_ : bool;
  seen_error_ : bool;
  last_sync_size_ : Z;
  bytes_per_sync_ : Z;
  rate_limiter_ : option R;
  checksum_generator_ : option G;
  checksum_finalized_ : bool;
  perform_data_verification_ : bool;
  buffered_data_crc32c_checksum_ : Z;
  buffered_data_with_checksum_ : bool
}.
Arguments mkFileWriter {F R G} _ _ _ _ _ _ _ _ _ _ _ _ _ _ _ _.
Arguments writable_file_ {F R G} _.
Arguments buf_ {F R G} _.
Arguments max_buffer_size_ {F R G} _.
Arguments filesize_ {F R G} _.
Arguments flushed_size_ {F R G} _.
Arguments next_write_offset_ {F R G} _.
Arguments pending_sync_ {F R G} _.
Arguments seen_error_ {F R G} _.
Arguments last_sync_size_ {F R G} _.
Arguments bytes_per_sync_ {F R G} _.
Arguments rate_limiter_ {F R G} _.
Arguments checksum_generator_ {F R G} _.
Arguments checksum_finalized_ {F R G} _.
Arguments perform_data_verification_ {F R G} _.
Arguments buffered_data_crc32c_checksum_ {F R G} _.
Arguments buffered_data_with_checksum_ {F R G} _.

Section writer.
Context {F R G : Type} `{FSWritableFile F} `{RateLimiter R} `{FileChecksumGenerator G}.
(** What new memory holds. *)
Context (fresh : Z -> byte).
Abbreviation FW := (FileWriter F R G).
Abbreviation WM := (M FW).
Implicit Types w : FW.

Definition set_file (f : FilePtr F) w : FW :=
  mkFileWriter f (buf_ w) (max_buffer_size_ w) (filesize_ w) (flushed_size_ w) (next_write_offset_ w)
    (pending_sync_ w) (seen_error_ w) (last_sync_size_ w) (bytes_per_sync_ w) (rate_limiter_ w)
    (checksum_generator_ w) (checksum_finalized_ w) (perform_data_verification_ w)
    (buffered_data_crc32c_checksum_ w) (buffered_data_with_checksum_ w).
Definition set_buf (b : AlignedBuffer) w : FW :=
  mkFileWriter (writable_file_ w) b (max_buffer_size_ w) (filesize_ w) (flushed_size_ w) (next_write_offset_ w)
    (pending_sync_ w) (seen_error_ w) (last_sync_size_ w) (bytes_per_sync_ w) (rate_limiter_ w)
    (checksum_generator_ w) (checksum_finalized_ w) (perform_data_verification_ w)
    (buffered_data_crc32c_checksum_ w) (buffered_data_with_checksum_ w).
Definition set_sizes (file flushed next_off last_sync : Z) w : FW :=
  mkFileWriter (writable_file_ w) (buf_ w) (max_buffer_size_ w) file flushed next_off
    (pending_sync_ w) (seen_error_ w) last_sync (bytes_per_sync_ w) (rate_limiter_ w)
    (checksum_generator_ w) (checksum_finalized_ w) (perform_data_verification_ w)
    (buffered_data_crc32c_checksum_ w) (buffered_data_with_checksum_ w).
Definition set_flags (pending error : bool) w : FW :=
  mkFileWriter (writable_file_ w) (buf_ w) (max_buffer_size_ w) (filesize_ w) (flushed_size_ w) (next_write_offset_ w)
    pending error (last_sync_size_ w) (bytes_per_sync_ w) (rate_limiter_ w)
    (checksum_generator_ w) (checksum_finalized_ w) (perform_data_verification_ w)
    (buffered_data_crc32c_checksum_ w) (buffered_data_with_checksum_ w).
Definition set_limiter (r : option R) w : FW :=
  mkFileWriter (writable_file_ w) (buf_ w) (max_buffer_size_ w) (filesize_ w) (flushed_size_ w) (next_write_offset_ w)
    (pending_sync_ w) (seen_error_ w) (last_sync_size_ w) (bytes_per_sync_ w) r
    (checksum_generator_ w) (checksum_finalized_ w) (perform_data_verification_ w)
    (buffered_data_crc32c_checksum_ w) (buffered_data_with_checksum_ w).
Definition set_generator (g : option G) (finalized : bool) w : FW :=
  mkFileWriter (writable_file_ w) (buf_ w) (max_buffer_size_ w) (filesize_ w) (flushed_size_ w) (next_write_offset_ w)
    (pending_sync_ w) (seen_error_ w) (last_sync_size_ w) (bytes_per_sync_ w) (rate_limiter_ w)
    g finalized (perform_data_verification_ w)
    (buffered_data_crc32c_checksum_ w) (buffered_data_with_checksum_ w).
Definition set_buffered_crc (c : Z) w : FW :=
  mkFileWriter (writable_file_ w) (buf_ w) (max_buffer_size_ w) (filesize_ w) (flushed_size_ w) (next_write_offset_ w)
    (pending_sync_ w) (seen_error_ w) (last_sync_size_ w) (bytes_per_sync_ w) (rate_limiter_ w)
    (checksum_generator_ w) (checksum_finalized_ w) (perform_data_verification_ w)
    c (buffered_data_with_checksum_ w).

Definition set_flushed (n : Z) w : FW := set_sizes (filesize_ w) n (next_write_offset_ w) (last_sync_size_ w) w.
Definition set_filesize (n : Z) w : FW := set_sizes n (flushed_size_ w) (next_write_offset_ w) (last_sync_size_ w) w.
Definition set_next_offset (n : Z) w : FW := set_sizes (filesize_ w) (flushed_size_ w) n (last_sync_size_ w) w.
Definition set_last_sync (n : Z) w : FW := set_sizes (filesize_ w) (flushed_size_ w) (next_write_offset_ w) n w.
Definition set_pending (b : bool) w : FW := set_flags b (seen_error_ w) w.
Definition set_seen_error w : FW := set_flags (pending_sync_ w) true w.

Definition FileWriter_new (file : F) (max_buffer_size bytes_per_sync : Z) (limiter : option R) (gen : option G)
    (perform with_checksum : bool) : FW :=
  let b := mkAlignedBuffer (fs_GetRequiredBufferAlignment file) [] 0 0 in
  mkFileWriter (Held file) (AllocateNewBuffer fresh (Z.min 65536 max_buffer_size) false 0 0 b) max_buffer_size
    0 0 0 false false 0 bytes_per_sync limiter gen false perform 0 with_checksum.

(** A call of the file, which must be open. *)
Definition on_fs {A} (m : M F A) : WM A := fun w =>
  match writable_file_ w with
  | Released _ => Stuck Undefined
  | Held f =>
      match m f with
      | Ok a f' => Ok a (set_file (Held f') w)
      | Err e f' => Err e (set_file (Held f') w)
      | Stuck s => Stuck s
      end
  end.

(** A status that is an error is remembered. *)
Definition or_error (m : WM unit) : WM unit :=
  r <- attempt m ;;
  match r with inl e => modify set_seen_error ;; fail e | inr _ => ret tt end.

(** [AssertFalseAndGetStatusForPrevError] *)
Definition unless_error (m : WM unit) : WM unit :=
  w <- get ;; if seen_error_ w then fail (IOError "Writer has previous error.") else m.

Definition use_direct_io : WM bool := on_fs (gets fs_use_direct_io).

Definition DecideRateLimiterPriority (writable_file_io_priority op : IOPriority) : IOPriority :=
  match writable_file_io_priority, op with
  | IO_TOTAL, IO_TOTAL => IO_TOTAL
  | IO_TOTAL, _ => op
  | p, IO_TOTAL => p
  | _, _ => op
  end.

(** How much the rate limiter allows. *)
Definition request_token (bytes alignment : Z) (prio : IOPriority) : WM Z :=
  w <- get ;;
  match rate_limiter_ w with
  | Some r =>
      if bool_decide (prio <> IO_TOTAL) then
        let '(n, r') := RequestToken bytes alignment prio r in
        modify (set_limiter (Some r')) ;; ret n
      else ret bytes
  | None => ret bytes
  end.

(** Asks the rate limiter until it has allowed all bytes. *)
Fixpoint request_all (n : nat) (data_size alignment : Z) (prio : IOPriority) : WM unit :=
  if 0 <? data_size then
    match n with
    | O => stuckM OutOfFuel
    | S n' =>
        t <- request_token data_size alignment prio ;;
        request_all n' (data_size -64 t) alignment prio
    end
  else ret tt.

Definition Crc32cHandoffChecksumCalculation (data : bytes) : bytes :=
  EncodeFixed32 kLittleEndian (crc32c_Extend 0 data).

Definition clear_buffer : WM unit := modify (fun w => set_buffered_crc 0 (set_buf (AlignedBuffer_Size 0 (buf_ w)) w)).

(** [while (left > 0)] *)
Fixpoint WriteBuffered_loop (n : nat) (prio : IOPriority) (src : bytes) : WM unit :=
  if 0 <? zlen src then
    match n with
    | O => stuckM OutOfFuel
    | S n' =>
        allowed <- request_token (zlen src) 0 prio ;;
        w <- get ;;
        let piece := ztake allowed src in
        r <- attempt (on_fs (fs_Append piece
               (if perform_data_verification_ w then Some (Crc32cHandoffChecksumCalculation piece) else None))) ;;
        match r with
        | inl e => clear_buffer ;; modify set_seen_error ;; fail e
        | inr _ =>
            modify (fun w => set_flushed (flushed_size_ w +64 allowed) w) ;;
            WriteBuffered_loop n' prio (zdrop allowed src)
        end
    end
  else ret tt.

Definition WriteBuffered (data : bytes) (op : IOPriority) : WM unit := unless_error (
  p <- on_fs (gets fs_GetIOPriority) ;;
  WriteBuffered_loop (length data) (DecideRateLimiterPriority p op) data ;;
  clear_buffer).

Definition WriteBufferedWithChecksum (data : bytes) (op : IOPriority) : WM unit := unless_error (
  p <- on_fs (gets fs_GetIOPriority) ;;
  w <- get ;;
  let prio := DecideRateLimiterPriority p op in
  when (bool_decide (is_Some (rate_limiter_ w)) && bool_decide (prio <> IO_TOTAL))
    (request_all (length data) (zlen data) (ab_alignment (buf_ w)) prio) ;;
  r <- attempt (on_fs (fs_Append data (Some (EncodeFixed32 kLittleEndian (buffered_data_crc32c_checksum_ w))))) ;;
  match r with
  | inl e => clear_buffer ;; modify set_seen_error ;; fail e
  | inr _ =>
      clear_buffer ;;
      modify (fun w => set_flushed (flushed_size_ w +64 zlen data) w)
  end).

Definition next_piece (allowed : Z) (src : bytes) : bytes * bytes := (ztake allowed src, zdrop allowed src).

(** [while (left > 0)]; [size] is the size of the buffer without its padding. *)
Fixpoint WriteDirect_loop (n : nat) (prio : IOPriority) (size : Z) (src : bytes) (write_offset : Z) : WM unit :=
  if 0 <? zlen src then
    match n with
    | O => stuckM OutOfFuel
    | S n' =>
        w <- get ;;
        allowed <- request_token (zlen src) (ab_alignment (buf_ w)) prio ;;
        let '(piece, rest) := next_piece allowed src in
        r <- attempt (on_fs (fs_PositionedAppend piece write_offset
               (if perform_data_verification_ w then Some (Crc32cHandoffChecksumCalculation piece) else None))) ;;
        match r with
        | inl e => modify (fun w => set_buf (AlignedBuffer_Size size (buf_ w)) w) ;; modify set_seen_error ;; fail e
        | inr _ =>
            modify (fun w => set_flushed (flushed_size_ w +64 allowed) w) ;;
            WriteDirect_loop n' prio size rest (write_offset +64 allowed)
        end
    end
  else ret tt.

Definition WriteDirect (op : IOPriority) : WM unit := unless_error (
  w <- get ;;
  let file_advance := TruncateToPageBoundary (ab_alignment (buf_ w)) (cursize_ (buf_ w)) in
  let leftover_tail := cursize_ (buf_ w) -64 file_advance in
  modify (fun w => set_buf (PadToAlignmentWith (buf_ w)) w) ;;
  p <- on_fs (gets fs_GetIOPriority) ;;
  src <- gets (fun w => ab_data (buf_ w)) ;;
  WriteDirect_loop (length src) (DecideRateLimiterPriority p op) (file_advance +64 leftover_tail) src
    (next_write_offset_ w) ;;
  modify (fun w => set_next_offset (next_write_offset_ w +64 file_advance)
    (set_buf (RefitTail file_advance leftover_tail (buf_ w)) w))).

(** The checksum of what is in the buffer. *)
Definition recompute_crc : WM unit := modify (fun w => set_buffered_crc (crc32c_Value (ab_data (buf_ w))) w).

Definition WriteDirectWithChecksum (op : IOPriority) : WM unit := unless_error (
  w <- get ;;
  let file_advance := TruncateToPageBoundary (ab_alignment (buf_ w)) (cursize_ (buf_ w)) in
  let leftover_tail := cursize_ (buf_ w) -64 file_advance in
  let last_cur_size := cursize_ (buf_ w) in
  modify (fun w => set_buf (PadToAlignmentWith (buf_ w)) w) ;;
  src <- gets (fun w => ab_data (buf_ w)) ;;
  let padded_size := zlen src - last_cur_size in
  modify (fun w => set_buffered_crc (Crc32cCombine 0 (buffered_data_crc32c_checksum_ w)
    (crc32c_Value (zdrop last_cur_size src)) padded_size) w) ;;
  p <- on_fs (gets fs_GetIOPriority) ;;
  w' <- get ;;
  let prio := DecideRateLimiterPriority p op in
  when (bool_decide (is_Some (rate_limiter_ w)) && bool_decide (prio <> IO_TOTAL))
    (request_all (length src) (zlen src) (ab_alignment (buf_ w)) prio) ;;
  r <- attempt (on_fs (fs_PositionedAppend src (next_write_offset_ w)
         (Some (EncodeFixed32 kLittleEndian (buffered_data_crc32c_checksum_ w'))))) ;;
  match r with
  | inl e =>
      modify (fun w => set_buf (AlignedBuffer_Size (file_advance +64 leftover_tail) (buf_ w)) w) ;;
      recompute_crc ;; modify set_seen_error ;; fail e
  | inr _ =>
      modify (fun w => set_flushed (flushed_size_ w +64 zlen src) w) ;;
      modify (fun w => set_buf (RefitTail file_advance leftover_tail (buf_ w)) w) ;;
      recompute_crc ;;
      modify (fun w => set_next_offset (next_write_offset_ w +64 file_advance) w)
  end).

Definition SyncInternal (use_fsync : bool) : WM unit := on_fs (if use_fsync then fs_Fsync else fs_Sync).

Definition FileWriter_RangeSync (offset nbytes : Z) : WM unit := unless_error (or_error (on_fs (fs_RangeSync offset nbytes))).

(** The end of [Flush]: a sync of a range after every [bytes_per_sync_] bytes. *)
Definition kBytesNotSyncRange : Z := 1024 * 1024.
Definition kBytesAlignWhenSync : Z := 4 * 1024.
Definition sync_range : WM unit :=
  direct <- use_direct_io ;;
  w <- get ;;
  if negb direct && negb (bytes_per_sync_ w =? 0) && (kBytesNotSyncRange <? filesize_ w) then
    let offset_sync_to := filesize_ w - kBytesNotSyncRange in
    let offset_sync_to := offset_sync_to - offset_sync_to mod kBytesAlignWhenSync in
    if (0 <? offset_sync_to) && (bytes_per_sync_ w <=? offset_sync_to -64 last_sync_size_ w) then
      r <- attempt (or_error (FileWriter_RangeSync (last_sync_size_ w) (offset_sync_to -64 last_sync_size_ w))) ;;
      modify (set_last_sync offset_sync_to) ;;
      returnS (status_of r)
    else ret tt
  else ret tt.

Definition FileWriter_Flush (op : IOPriority) : WM unit := unless_error (
  w <- get ;;
  let with_checksum := perform_data_verification_ w && buffered_data_with_checksum_ w in
  (if 0 <? cursize_ (buf_ w) then
     direct <- use_direct_io ;;
     or_error (
       if direct then
         when (pending_sync_ w) (if with_checksum then WriteDirectWithChecksum op else WriteDirect op)
       else
         (if with_checksum then WriteBufferedWithChecksum (ab_data (buf_ w)) op
          else WriteBuffered (ab_data (buf_ w)) op))
   else ret tt) ;;
  or_error (on_fs fs_Flush) ;;
  sync_range).

Definition FileWriter_Sync (use_fsync : bool) : WM unit := unless_error (
  or_error (FileWriter_Flush IO_TOTAL) ;;
  direct <- use_direct_io ;;
  w <- get ;;
  when (negb direct && pending_sync_ w) (or_error (SyncInternal use_fsync)) ;;
  modify (set_pending false)).

Definition FileWriter_SyncWithoutFlush (use_fsync : bool) : WM unit := unless_error (
  safe <- on_fs (gets fs_IsSyncThreadSafe) ;;
  if negb safe then
    fail (NotSupported "Can't WritableFileWriter::SyncWithoutFlush() because WritableFile::IsSyncThreadSafe() is false")
  else or_error (SyncInternal use_fsync)).

(** [for (cap = Capacity(); cap < max_buffer_size_; cap *= 2)] *)
Fixpoint enlarge_loop (n : nat) (cap left : Z) (direct : bool) : WM unit :=
  w <- get ;;
  if cap <? max_buffer_size_ w then
    match n with
    | O => stuckM OutOfFuel
    | S n' =>
        let desired_capacity := Z.min (cap *64 2) (max_buffer_size_ w) in
        if (left <=? desired_capacity -64 cursize_ (buf_ w)) ||
           (direct && (desired_capacity =? max_buffer_size_ w))
        then modify (fun w => set_buf (AllocateNewBuffer fresh desired_capacity true 0 0 (buf_ w)) w)
        else enlarge_loop n' (cap *64 2) left direct
    end
  else ret tt.

(** [while (left > 0)]: into the buffer, which is flushed when it is full. *)
Fixpoint append_loop (n : nat) (src : bytes) (with_checksum : bool) (op : IOPriority) : WM unit :=
  if 0 <? zlen src then
    match n with
    | O => stuckM OutOfFuel
    | S n' =>
        w <- get ;;
        let '(appended, b) := AlignedBuffer_Append src (buf_ w) in
        let '(piece, rest) := next_piece appended src in
        modify (set_buf b) ;;
        when with_checksum
          (modify (fun w => set_buffered_crc (crc32c_Extend (buffered_data_crc32c_checksum_ w) piece) w)) ;;
        (if 0 <? zlen rest then FileWriter_Flush op else ret tt) ;;
        append_loop n' rest with_checksum op
    end
  else ret tt.

(** A larger buffer, or else an empty one when the file is buffered. *)
Definition make_room (left : Z) (op : IOPriority) (direct : bool) : WM unit :=
  w <- get ;;
  when (ab_room (buf_ w) <? left) (enlarge_loop 64 (ab_capacity (buf_ w)) left direct) ;;
  w <- get ;;
  when (negb direct && (ab_room (buf_ w) <? left) && (0 <? cursize_ (buf_ w))) (or_error (FileWriter_Flush op)).

(** Into the buffer, or to the file when the data does not fit. *)
Definition append_data (data : bytes) (crc32c_checksum : Z) (op : IOPriority) (direct : bool) : WM unit :=
  w <- get ;;
  let left := zlen data in
  let with_checksum := perform_data_verification_ w && buffered_data_with_checksum_ w in
  if with_checksum && negb (crc32c_checksum =? 0) then
    if direct || (left <=? ab_room (buf_ w)) then
      if left <=? ab_room (buf_ w) then
        let '(appended, b) := AlignedBuffer_Append data (buf_ w) in
        modify (set_buf b) ;;
        modify (fun w => set_buffered_crc
          (Crc32cCombine 0 (buffered_data_crc32c_checksum_ w) crc32c_checksum appended) w) ;;
        if negb (appended =? left) then fail (Corruption "Write buffer append failure") else ret tt
      else append_loop (S (length data)) data true op
    else modify (set_buffered_crc crc32c_checksum) ;; WriteBufferedWithChecksum data op
  else
    if direct || (left <=? ab_capacity (buf_ w)) then append_loop (S (length data)) data with_checksum op
    else if with_checksum then
      modify (set_buffered_crc (crc32c_Value data)) ;; WriteBufferedWithChecksum data op
    else WriteBuffered data op.

Definition FileWriter_Append (data : bytes) (crc32c_checksum : Z) (op : IOPriority) : WM unit := unless_error (
  let left := zlen data in
  modify (set_pending true) ;;
  modify (fun w => set_generator (gen_Update data <$> checksum_generator_ w) (checksum_finalized_ w) w) ;;
  w <- get ;;
  on_fs (modify (fs_PrepareWrite (filesize_ w) left)) ;;
  direct <- use_direct_io ;;
  make_room left op direct ;;
  or_error (append_data data crc32c_checksum op direct) ;;
  modify (fun w => set_filesize (filesize_ w +64 left) w)).

(** [while (left)] *)
Fixpoint Pad_loop (n : nat) (left : Z) (op : IOPriority) : WM unit :=
  if 0 <? left then
    match n with
    | O => stuckM OutOfFuel
    | S n' =>
        w <- get ;;
        let append_bytes := Z.min (ab_room (buf_ w)) left in
        modify (set_buf (PadWith append_bytes (buf_ w))) ;;
        when (0 <? left - append_bytes) (or_error (FileWriter_Flush op)) ;;
        Pad_loop n' (left - append_bytes) op
    end
  else ret tt.

Definition FileWriter_Pad (pad_bytes : Z) (op : IOPriority) : WM unit := unless_error (
  w <- get ;;
  let pad_start := cursize_ (buf_ w) in
  Pad_loop (S (Z.to_nat pad_bytes)) pad_bytes op ;;
  modify (set_pending true) ;;
  modify (fun w => set_filesize (filesize_ w +64 pad_bytes) w) ;;
  w <- get ;;
  if perform_data_verification_ w then
    if pad_start + pad_bytes <=? zlen (ab_mem (buf_ w)) then
      modify (fun w => set_buffered_crc
        (crc32c_Extend (buffered_data_crc32c_checksum_ w) (ztake pad_bytes (zdrop pad_start (ab_mem (buf_ w))))) w)
    else stuckM Undefined
  else ret tt).

(** [writable_file_.reset()] *)
Definition release_file w : FW :=
  match writable_file_ w with Held f | Released f => set_file (Released f) w end.

(** The first status that is an error. *)
Definition first_error (s interim : Status) : Status := if ok s then interim else s.

(** With direct I/O, the padding of the last page is cut off. *)
Definition close_truncate (s : Status) : WM Status :=
  direct <- use_direct_io ;;
  if direct then
    w <- get ;;
    t <- attempt (on_fs (fs_Truncate (filesize_ w))) ;;
    t <- (match t with inl e => ret (inl e) | inr _ => attempt (on_fs fs_Fsync) end) ;;
    ret (first_error s (status_of t))
  else ret s.

Definition close_release (s : Status) : WM unit :=
  c <- attempt (on_fs fs_Close) ;;
  let s := first_error s (status_of c) in
  modify release_file ;;
  if ok s then
    modify (fun w => if checksum_finalized_ w then w
      else set_generator (gen_Finalize <$> checksum_generator_ w) (bool_decide (is_Some (checksum_generator_ w))) w)
  else modify set_seen_error ;; fail s.

Definition FileWriter_Close : WM unit :=
  w <- get ;;
  if seen_error_ w then
    match writable_file_ w with
    | Held _ =>
        interim <- attempt (on_fs fs_Close) ;;
        modify release_file ;;
        fail (if ok (status_of interim)
              then IOError "File is closed but data not flushed as writer has previous error."
              else status_of interim)
    | Released _ => fail (IOError "File is closed but data not flushed as writer has previous error.")
    end
  else
    match writable_file_ w with
    | Released _ => ret tt
    | Held _ =>
        r <- attempt (FileWriter_Flush IO_TOTAL) ;;
        s <- close_truncate (status_of r) ;;
        close_release s
    end.
End writer.
