(* ===== verification/FileWriterProps.v ===== *)
(** * Correctness of the file writer

    WritableFileWriter keeps the order of the data: what the file has accepted and what
    is in the buffer is what was appended, a failure of the file leaves a prefix of it in
    the file, no data is written after a failure, and the checksums it hands to the file
    are those of the data.  It returns whenever the file does. *)

From S2P Require Import Prelude Status Coding Crc32c CrcCombine MetaLog FileWriter.

(** ** Buffers *)

(** Capacities stay far below the range of [size_t]. *)
Record buffer_ok (b : AlignedBuffer) : Prop := {
  bo_align : exists k, 0 <= k <= 30 /\ ab_alignment b = 2 ^ k;
  bo_capacity : 0 < ab_capacity b < 2 ^ 32;
  bo_pages : ab_capacity b mod ab_alignment b = 0;
  bo_mem : zlen (ab_mem b) = ab_capacity b + ab_alignment b;
  bo_size : 0 <= cursize_ b <= ab_capacity b
}.

Lemma alignment_range al : (exists k, 0 <= k <= 30 /\ al = 2 ^ k) -> 0 < al <= 2 ^ 30.
Proof.
  intros (k & Hk & ->). split; [apply Z.pow_pos_nonneg; lia|]. apply Z.pow_le_mono_r; lia.
Qed.

Lemma zlen_ab_data b : buffer_ok b -> zlen (ab_data b) = cursize_ b.
Proof.
  intros [Ha Hc _ Hm Hs]. apply alignment_range in Ha. unfold ab_data. rewrite zlen_ztake by lia. lia.
Qed.

Lemma ab_room_eq b : buffer_ok b -> ab_room b = ab_capacity b - cursize_ b.
Proof. intros [_ Hc _ _ Hs]. unfold ab_room. apply u64_small. lia. Qed.

Lemma Roundup_spec x al :
  0 <= x <= 2 ^ 40 -> (exists k, 0 <= k <= 30 /\ al = 2 ^ k) ->
  x <= Roundup x al < x + al /\ Roundup x al mod al = 0.
Proof.
  intros Hx Ha. apply alignment_range in Ha. unfold Roundup.
  rewrite (u64_small (x + al)), (u64_small (x + al - 1)) by lia.
  pose proof (Z.div_mod (x + al - 1) al ltac:(lia)). pose proof (Z.mod_pos_bound (x + al - 1) al ltac:(lia)).
  rewrite u64_small by nia. split; [nia|]. by rewrite Z.mod_mul by lia.
Qed.

Lemma TruncateToPageBoundary_spec al s :
  0 <= s < 2 ^ 64 -> (exists k, 0 <= k <= 30 /\ al = 2 ^ k) -> TruncateToPageBoundary al s = s - s mod al.
Proof.
  intros Hs (k & Hk & ->). unfold TruncateToPageBoundary. pose proof (alignment_range (2 ^ k) ltac:(eauto)).
  rewrite (u64_small (2 ^ k - 1)) by lia.
  replace (2 ^ k - 1) with (Z.ones k) by (rewrite Z.ones_equiv; lia). rewrite Z.land_ones by lia.
  pose proof (Z.mod_pos_bound s (2 ^ k) ltac:(lia)). pose proof (Z.mod_le s (2 ^ k) ltac:(lia) ltac:(lia)).
  apply u64_small. lia.
Qed.

Lemma AllocateNewBuffer_ok fresh n b :
  buffer_ok b -> cursize_ b <= n -> 0 < n -> n + ab_alignment b < 2 ^ 32 ->
  let b' := AllocateNewBuffer fresh n true 0 0 b in
  buffer_ok b' /\ ab_data b' = ab_data b /\ n <= ab_capacity b' /\ cursize_ b' = cursize_ b /\ ab_alignment b' = ab_alignment b.
Proof.
  intros Hb Hn Hpos Hlim. pose proof (zlen_ab_data b Hb) as Hl. pose proof Hb as [Ha Hc Hp Hm Hs].
  pose proof (alignment_range _ Ha). unfold AllocateNewBuffer. change (0 <? 0) with false. cbn iota.
  destruct (Z.ltb_spec n (cursize_ b)); [lia|]. cbn [andb].
  pose proof (Roundup_spec n (ab_alignment b) ltac:(lia) Ha) as [Hr Hr0]. rewrite zdrop_0. fold (ab_data b).
  assert (zlen (fresh <$> seqZ 0 (Roundup n (ab_alignment b) + ab_alignment b)) = Roundup n (ab_alignment b) + ab_alignment b) as Hz.
  { unfold zlen. rewrite length_fmap, length_seqZ. lia. }
  split_and!; cbn; try done; try lia.
  - split; cbn; try done; try lia. rewrite zlen_splice; lia.
  - unfold ab_data at 1. cbn. rewrite <- Hl at 1. pose proof (ztake_splice_all 0 (ab_data b)
      (fresh <$> seqZ 0 (Roundup n (ab_alignment b) + ab_alignment b)) ltac:(split; [done|apply zlen_nonneg])) as Hs0.
    by rewrite Z.add_0_l, ztake_0 in Hs0.
Qed.

Lemma AlignedBuffer_new_ok fresh al n :
  (exists k, 0 <= k <= 30 /\ al = 2 ^ k) -> 0 < n -> n + al < 2 ^ 32 ->
  let b := AllocateNewBuffer fresh n false 0 0 (mkAlignedBuffer al [] 0 0) in
  buffer_ok b /\ ab_data b = [] /\ ab_alignment b = al.
Proof.
  intros Ha Hn Hlim. pose proof (alignment_range _ Ha). pose proof (Roundup_spec n al ltac:(lia) Ha) as [Hr Hr0].
  unfold AllocateNewBuffer. cbn. split_and!; [|by unfold ab_data; cbn; rewrite ztake_0|done].
  split; cbn; try done; try lia. unfold zlen. rewrite length_fmap, length_seqZ. lia.
Qed.

(** Data that fits is put behind what is there. *)
Lemma splice_ok d b :
  buffer_ok b -> zlen d <= ab_capacity b - cursize_ b ->
  let b' := ab_set (splice (cursize_ b) d (ab_mem b)) (cursize_ b +64 zlen d) b in
  buffer_ok b' /\ ab_data b' = ab_data b ++ d /\ cursize_ b' = cursize_ b + zlen d.
Proof.
  intros Hb Hd. pose proof Hb as [Ha Hc Hp Hm Hs]. pose proof (alignment_range _ Ha). pose proof (zlen_nonneg d).
  cbv zeta. unfold ab_set. rewrite u64_small by lia.
  split; [split; cbn; try done; rewrite ?zlen_splice; lia|]. split; [|done].
  unfold ab_data. cbn. rewrite ztake_splice_all by lia. done.
Qed.

Lemma AlignedBuffer_Append_ok src b :
  buffer_ok b ->
  exists n b', AlignedBuffer_Append src b = (n, b') /\ n = Z.min (zlen src) (ab_capacity b - cursize_ b) /\
    buffer_ok b' /\ ab_data b' = ab_data b ++ ztake n src /\ cursize_ b' = cursize_ b + n /\
    ab_capacity b' = ab_capacity b /\ ab_alignment b' = ab_alignment b.
Proof.
  intros Hb. unfold AlignedBuffer_Append. rewrite ab_room_eq by done. set (n := Z.min _ _). pose proof (zlen_nonneg src).
  pose proof Hb as [Ha Hc Hp Hm Hs]. destruct (Z.ltb_spec 0 n).
  - assert (zlen (ztake n src) = n) as Hl by (rewrite zlen_ztake by lia; lia).
    destruct (splice_ok (ztake n src) b Hb) as (Hb' & Hd & Hc'); [lia|]. rewrite Hl in *.
    do 2 eexists. split; [done|]. by split_and!.
  - assert (n = 0) as Hn by lia. do 2 eexists. split; [done|]. rewrite Hn, ztake_0, app_nil_r. split_and!; try done; lia.
Qed.

Lemma Size_ok n b : buffer_ok b -> 0 <= n <= ab_capacity b ->
  buffer_ok (AlignedBuffer_Size n b) /\ ab_data (AlignedBuffer_Size n b) = ztake n (ab_mem b).
Proof. intros [Ha Hc Hp Hm Hs] Hn. split; [split; cbn; try done; lia|done]. Qed.

Lemma PadWith_ok n b :
  buffer_ok b -> 0 <= n <= ab_capacity b - cursize_ b ->
  buffer_ok (PadWith n b) /\ ab_data (PadWith n b) = ab_data b ++ zeros n /\ cursize_ (PadWith n b) = cursize_ b + n.
Proof.
  intros Hb Hn. destruct (splice_ok (zeros n) b Hb) as (Hb' & Hd & Hc'); [rewrite zlen_zeros; lia|].
  unfold PadWith. rewrite zlen_zeros in * by lia. done.
Qed.

(** Filling up to the alignment, as pages go to a file with direct I/O. *)
Definition pad_page (al : Z) (t : bytes) : bytes := t ++ zeros (Roundup (zlen t) al - zlen t).

Lemma Roundup_mono x y al :
  0 <= x <= y -> y <= 2 ^ 40 -> (exists k, 0 <= k <= 30 /\ al = 2 ^ k) -> Roundup x al <= Roundup y al.
Proof.
  intros Hx Hy Ha. pose proof (alignment_range al Ha). unfold Roundup.
  rewrite (u64_small (x + al)), (u64_small (x + al - 1)), (u64_small (y + al)), (u64_small (y + al - 1)) by lia.
  pose proof (Z.div_le_mono (x + al - 1) (y + al - 1) al ltac:(lia) ltac:(lia)).
  pose proof (Z.div_mod (y + al - 1) al ltac:(lia)). pose proof (Z.mod_pos_bound (y + al - 1) al ltac:(lia)).
  pose proof (Z.div_pos (x + al - 1) al ltac:(lia) ltac:(lia)). rewrite !u64_small by nia. nia.
Qed.

Lemma zlen_pad_page al t :
  zlen t <= 2 ^ 40 -> (exists k, 0 <= k <= 30 /\ al = 2 ^ k) -> zlen (pad_page al t) = Roundup (zlen t) al.
Proof.
  intros Ht Ha. pose proof (zlen_nonneg t). pose proof (Roundup_spec (zlen t) al ltac:(lia) Ha) as [? _].
  unfold pad_page. rewrite zlen_app, zlen_zeros by lia. lia.
Qed.

(** Whole pages in front do not change the padding. *)
Lemma pad_page_drop al (d : bytes) n :
  0 <= n <= zlen d -> zlen d <= 2 ^ 40 -> n mod al = 0 -> (exists k, 0 <= k <= 30 /\ al = 2 ^ k) ->
  pad_page al d = ztake n d ++ pad_page al (zdrop n d).
Proof.
  intros Hn Hd Hm Ha. pose proof (alignment_range al Ha). unfold pad_page.
  rewrite app_assoc, ztake_zdrop. do 2 f_equal. rewrite zlen_zdrop by lia. rewrite Z.max_r by lia. unfold Roundup.
  rewrite (u64_small (zlen d + al)), (u64_small (zlen d + al - 1)), (u64_small (zlen d - n + al)), (u64_small (zlen d - n + al - 1)) by lia.
  apply Z.mod_divide in Hm as [q ->]; [|lia].
  replace (zlen d + al - 1) with (zlen d - q * al + al - 1 + q * al) by lia. rewrite Z.div_add by lia.
  set (x := zlen d - q * al + al - 1). pose proof (Z.div_mod x al ltac:(lia)). pose proof (Z.mod_pos_bound x al ltac:(lia)).
  assert (0 <= x / al) by (apply Z.div_pos; unfold x; lia). assert (0 <= q) by nia.
  rewrite !u64_small by (unfold x in *; nia). lia.
Qed.

Lemma PadToAlignmentWith_ok b :
  buffer_ok b ->
  buffer_ok (PadToAlignmentWith b) /\ ab_data (PadToAlignmentWith b) = pad_page (ab_alignment b) (ab_data b) /\
  ab_mem (PadToAlignmentWith b) = splice (cursize_ b) (zeros (Roundup (cursize_ b) (ab_alignment b) - cursize_ b)) (ab_mem b) /\
  ab_alignment (PadToAlignmentWith b) = ab_alignment b /\ ab_capacity (PadToAlignmentWith b) = ab_capacity b.
Proof.
  intros Hb. pose proof Hb as [Ha Hc Hp Hm Hs]. pose proof (alignment_range _ Ha).
  pose proof (Roundup_spec (cursize_ b) _ ltac:(lia) Ha) as [Hr Hr0].
  assert (Roundup (cursize_ b) (ab_alignment b) <= ab_capacity b) as Hcap.
  { apply Z.mod_divide in Hp as [p Hp]; [|lia]. apply Z.mod_divide in Hr0 as [q Hr0]; [|lia].
    assert (q < p + 1) by nia. nia. }
  unfold PadToAlignmentWith. rewrite u64_small by lia. set (n := _ - _). unfold pad_page. rewrite zlen_ab_data by done. fold n.
  destruct (Z.ltb_spec 0 n).
  - destruct (PadWith_ok n b Hb ltac:(unfold n; lia)) as (Hb' & Hd & Hc'). by split_and!.
  - assert (n = 0) as -> by (unfold n in *; lia). unfold zeros. cbn [Z.to_nat replicate]. rewrite app_nil_r. split_and!; try done.
    unfold splice. change (zlen []) with 0. rewrite Z.add_0_r. cbn [app]. symmetry. apply ztake_zdrop.
Qed.

(** The tail moves to the front; the padding behind it is forgotten. *)
Lemma RefitTail_ok b n :
  buffer_ok b -> 0 <= n <= cursize_ b ->
  let b' := RefitTail n (cursize_ b - n) (PadToAlignmentWith b) in
  buffer_ok b' /\ ab_data b' = zdrop n (ab_data b) /\ cursize_ b' = cursize_ b - n /\
  ab_alignment b' = ab_alignment b /\ ab_capacity b' = ab_capacity b.
Proof.
  intros Hb Hn. destruct (PadToAlignmentWith_ok b Hb) as (Hb' & Hd & Hm & Ha & Hc). cbv zeta.
  set (b1 := PadToAlignmentWith b) in *. pose proof Hb as [Ba Bc Bp Bm Bs]. pose proof Hb' as [Ba' Bc' Bp' Bm' Bs'].
  pose proof (alignment_range _ Ba). unfold RefitTail. destruct (Z.ltb_spec 0 (cursize_ b - n)).
  - assert (ztake (cursize_ b - n) (zdrop n (ab_mem b1)) = zdrop n (ab_data b)) as Hdata.
    { unfold ab_data. rewrite <- (ztake_splice (cursize_ b) (zeros (Roundup (cursize_ b) (ab_alignment b) - cursize_ b))) by lia.
      rewrite <- Hm. unfold ztake, zdrop. rewrite skipn_firstn_comm. f_equal. lia. }
    rewrite Hdata. assert (zlen (zdrop n (ab_data b)) = cursize_ b - n) as Hl by (rewrite zlen_zdrop, zlen_ab_data by (done || lia); lia).
    split_and!; try done; [split; cbn; rewrite ?zlen_splice; try done; lia|].
    unfold ab_data at 1. cbn. rewrite <- Hl at 1.
    pose proof (ztake_splice_all 0 (zdrop n (ab_data b)) (ab_mem b1) ltac:(lia)) as Hs. by rewrite Z.add_0_l, ztake_0 in Hs.
  - split_and!; try done; [split; cbn; try done; lia|]. unfold ab_data at 1. cbn.
    assert (n = cursize_ b) as -> by lia. rewrite Z.sub_diag, ztake_0. symmetry. apply zlen_nil_inv.
    rewrite zlen_zdrop, zlen_ab_data by (done || lia). lia.
Qed.

(** ** Checksums *)

Lemma crc32c_Value_combine a b :
  zlen b < 2 ^ 64 -> Crc32cCombine 0 (crc32c_Value a) (crc32c_Value b) (zlen b) = crc32c_Value (a ++ b).
Proof.
  intros Hb. rewrite crc32c_Value_app. unfold crc32c_Value at 2, crc32c_Extend at 1.
  rewrite Crc32cCombine_spec; [|lia|lia|apply ExtendImpl_range|done].
  unfold crc32c_Extend. by rewrite ExtendImpl_spec; [|lia|apply ExtendImpl_range].
Qed.

(** ** What the writer relies on *)

(** The rate limiter allows at least a byte and at most what is asked for. *)
Class RateLimiterSpec (R : Type) `{lim : RateLimiter R} := {
  token_range : forall n al p r, 0 < n -> 0 < (RequestToken n al p r).1 <= n
}.

(** The checksum of a DataVerificationInfo, if there is one. *)
Definition handoff_ok (b : bytes) (ck : option bytes) : Prop :=
  ck = None \/ ck = Some (EncodeFixed32 kLittleEndian (crc32c_Value b)).

(** A file: [fs_data] is what it has accepted, [fs_file] the part of it that is there
    for certain.  A buffered file is appended to, and a call that fails leaves a prefix of
    what was accepted; a file with direct I/O is written at an offset.  The promises
    about a write only hold if the checksum handed over is that of the data.  Only a file
    that waits ([fs_waits]) may not answer, closing it after a failure included. *)
Class FSWritableFileSpec (F : Type) `{fs : FSWritableFile F} := {
  fs_inv : F -> Prop;
  fs_waits : Prop;
  fs_file : F -> bytes;
  fs_data : F -> bytes;
  fs_prepare_ok o n f : fs_inv f ->
    fs_inv (fs_PrepareWrite o n f) /\ fs_data (fs_PrepareWrite o n f) = fs_data f /\
    fs_use_direct_io (fs_PrepareWrite o n f) = fs_use_direct_io f;
  fs_append_ok b ck f :
    fs_inv f -> fs_use_direct_io f = false -> zlen b < 2 ^ 32 -> handoff_ok b ck ->
    match fs_Append b ck f with
    | Ok _ f' => fs_inv f' /\ fs_data f' = fs_data f ++ b /\ fs_use_direct_io f' = false
    | Err e f' => ok e = false /\ fs_file f' `prefix_of` fs_data f ++ b
    | Stuck _ => fs_waits
    end;
  fs_pappend_ok b off ck f :
    fs_inv f -> fs_use_direct_io f = true -> 0 <= off <= zlen (fs_data f) -> zlen b < 2 ^ 32 -> handoff_ok b ck ->
    match fs_PositionedAppend b off ck f with
    | Ok _ f' => fs_inv f' /\ fs_data f' = splice off b (fs_data f) /\ fs_use_direct_io f' = true
    | Err e _ => ok e = false
    | Stuck _ => fs_waits
    end;
  fs_flush_ok f : fs_inv f ->
    match fs_Flush f with
    | Ok _ f' => fs_inv f' /\ fs_data f' = fs_data f /\ fs_use_direct_io f' = fs_use_direct_io f
    | Err e f' => ok e = false /\ (fs_use_direct_io f = false -> fs_file f' `prefix_of` fs_data f)
    | Stuck _ => fs_waits
    end;
  fs_range_sync_ok o n f : fs_inv f -> fs_use_direct_io f = false ->
    match fs_RangeSync o n f with
    | Ok _ f' => fs_inv f' /\ fs_data f' = fs_data f /\ fs_use_direct_io f' = false
    | Err e f' => ok e = false /\ fs_file f' `prefix_of` fs_data f
    | Stuck _ => fs_waits
    end;
  fs_sync_ok (use_fsync : bool) f : fs_inv f ->
    match (if use_fsync then fs_Fsync else fs_Sync) f with
    | Ok _ f' => fs_inv f' /\ fs_data f' = fs_data f /\ fs_file f' = fs_data f /\
        fs_use_direct_io f' = fs_use_direct_io f
    | Err e f' => ok e = false /\ (fs_use_direct_io f = false -> fs_file f' `prefix_of` fs_data f)
    | Stuck _ => fs_waits
    end;
  fs_truncate_ok n f : fs_inv f -> fs_use_direct_io f = true -> 0 <= n <= zlen (fs_data f) ->
    match fs_Truncate n f with
    | Ok _ f' => fs_inv f' /\ fs_data f' = ztake n (fs_data f) /\ fs_use_direct_io f' = true
    | Err e _ => ok e = false
    | Stuck _ => fs_waits
    end;
  fs_close_ok f : fs_inv f ->
    match fs_Close f with
    | Ok _ f' => fs_file f' = fs_data f
    | Err e f' => ok e = false /\ (fs_use_direct_io f = false -> fs_file f' `prefix_of` fs_data f)
    | Stuck _ => fs_waits
    end;
  fs_truncate_answers n f s : fs_Truncate n f = Stuck s -> fs_waits;
  fs_fsync_answers f s : fs_Fsync f = Stuck s -> fs_waits;
  fs_close_answers f s : fs_Close f = Stuck s -> fs_waits
}.

Section writer.
Context {F R G : Type} `{fspec : FSWritableFileSpec F} `{lspec : RateLimiterSpec R} `{gen : FileChecksumGenerator G}.
Context (fresh : Z -> byte).
Abbreviation FW := (FileWriter F R G).
Implicit Types w : FW.

(** The outcomes of a call: it only hangs if the file does. *)
Definition outcome {A} (m : M FW A) w (Q : A -> FW -> Prop) (E : FW -> Prop) : Prop :=
  match m w with
  | Ok a w' => Q a w'
  | Err e w' => ok e = false /\ E w'
  | Stuck _ => fs_waits
  end.

Lemma outcome_bind {A B} (m : M FW A) (k : A -> M FW B) w Q1 Q E :
  outcome m w Q1 E -> (forall a w1, Q1 a w1 -> outcome (k a) w1 Q E) -> outcome (bind m k) w Q E.
Proof. unfold outcome, bind. intros Hm Hk. destruct (m w); [by apply Hk|done|done]. Qed.

Lemma outcome_conseq {A} (m : M FW A) w (Q Q' : A -> FW -> Prop) (E E' : FW -> Prop) :
  outcome m w Q E -> (forall a w', Q a w' -> Q' a w') -> (forall w', E w' -> E' w') -> outcome m w Q' E'.
Proof. unfold outcome. intros Hm HQ HE. destruct (m w); [by apply HQ|naive_solver|done]. Qed.

Lemma outcome_attempt {A B} (m : M FW A) (k : Status + A -> M FW B) w Q1 E1 Q E :
  outcome m w Q1 E1 -> (forall a w1, Q1 a w1 -> outcome (k (inr a)) w1 Q E) ->
  (forall e w1, ok e = false -> E1 w1 -> outcome (k (inl e)) w1 Q E) -> outcome (bind (attempt m) k) w Q E.
Proof. unfold outcome, bind, attempt. intros Hm Hk He. destruct (m w); [by apply Hk|destruct Hm; by apply He|done]. Qed.

Lemma outcome_or_error (m : M FW unit) w Q E :
  outcome m w Q E -> outcome (or_error m) w Q (fun w' => exists w1, E w1 /\ w' = set_seen_error w1).
Proof.
  intros Hm. unfold or_error. eapply outcome_attempt; [exact Hm| |].
  - intros [] w1 H1. exact H1.
  - intros e w1 He H1. unfold outcome. cbn. eauto.
Qed.

Lemma outcome_unless (m : M FW unit) w Q E :
  seen_error_ w = false -> outcome m w Q E -> outcome (unless_error m) w Q E.
Proof. intros Hs Hm. unfold outcome, unless_error, bind, get. by rewrite Hs. Qed.

(** A writer that has seen an error does nothing. *)
Lemma unless_error_stops (m : M FW unit) w :
  seen_error_ w = true -> unless_error m w = Err (IOError "Writer has previous error.") w.
Proof. intros Hs. unfold unless_error, bind, get. by rewrite Hs. Qed.

Lemma outcome_fs {A} (m : M F A) w f Q E :
  writable_file_ w = Held f ->
  match m f with
  | Ok a f' => Q a (set_file (Held f') w)
  | Err e f' => ok e = false /\ E (set_file (Held f') w)
  | Stuck _ => fs_waits
  end -> outcome (on_fs m) w Q E.
Proof. intros Hf H. unfold outcome, on_fs. rewrite Hf. by destruct (m f). Qed.

(** What the parts of a write leave alone. *)
Definition keeps w w' : Prop :=
  buf_ w' = buf_ w /\ max_buffer_size_ w' = max_buffer_size_ w /\ filesize_ w' = filesize_ w /\
  next_write_offset_ w' = next_write_offset_ w /\ pending_sync_ w' = pending_sync_ w /\
  seen_error_ w' = seen_error_ w /\ perform_data_verification_ w' = perform_data_verification_ w /\
  buffered_data_crc32c_checksum_ w' = buffered_data_crc32c_checksum_ w /\
  buffered_data_with_checksum_ w' = buffered_data_with_checksum_ w.

#[local] Instance keeps_preorder : PreOrder keeps.
Proof.
  split; [by repeat split|].
  intros w1 w2 w3 (? & ? & ? & ? & ? & ? & ? & ? & ?) (? & ? & ? & ? & ? & ? & ? & ? & ?). split_and!; congruence.
Qed.

(** The file and what it has accepted. *)
Definition has_file (direct : bool) (D : bytes) w : Prop :=
  exists f, writable_file_ w = Held f /\ fs_inv f /\ fs_use_direct_io f = direct /\ fs_data f = D.

(** What a failure leaves: a prefix of [goal], when the file is buffered. *)
Definition leaves (direct : bool) (goal : bytes) w : Prop :=
  exists f, writable_file_ w = Held f /\ (direct = false -> fs_file f `prefix_of` goal).

Lemma request_token_spec n al p w E :
  0 < n -> outcome (request_token n al p) w
    (fun t w' => 0 < t <= n /\ keeps w w' /\ writable_file_ w' = writable_file_ w) E.
Proof.
  intros Hn. unfold request_token, outcome, bind, get. destruct (rate_limiter_ w) as [r|]; [|cbn; by repeat split; try lia].
  case_bool_decide; [|cbn; by repeat split; try lia]. pose proof (token_range n al p r Hn) as Ht.
  destruct (RequestToken n al p r) as [t r']. cbn in *. by repeat split; try lia.
Qed.

Lemma set_file_id w f : writable_file_ w = Held f -> set_file (Held f) w = w.
Proof. destruct w. cbn. by intros ->. Qed.

Lemma io_priority_spec w direct D Q E :
  has_file direct D w -> (forall p, Q p w) -> outcome (on_fs (gets fs_GetIOPriority)) w Q E.
Proof.
  intros (f & Hf & _) HQ. apply (outcome_fs _ _ f); [done|]. cbn.
  rewrite set_file_id by done. apply HQ.
Qed.

Lemma direct_spec w direct D (Q : bool -> FW -> Prop) E :
  has_file direct D w -> Q direct w -> outcome use_direct_io w Q E.
Proof.
  intros (f & Hf & _ & Hd & _) HQ. apply (outcome_fs _ _ f); [done|]. cbn.
  rewrite set_file_id by done. by rewrite Hd.
Qed.

(** ** Writing out *)

Lemma EncodeFixed32_handoff b : handoff_ok b (Some (Crc32cHandoffChecksumCalculation b)).
Proof. by right. Qed.

(** The buffer is empty, the rest as it was. *)
Definition cleared w w' : Prop :=
  keeps (set_buffered_crc 0 (set_buf (AlignedBuffer_Size 0 (buf_ w)) w)) w'.

Lemma cleared_keeps w w1 w' : keeps w w1 -> cleared w1 w' -> cleared w w'.
Proof.
  intros (Hb & ? & ? & ? & ? & ? & ? & ? & ?) Hc. unfold cleared in *. rewrite Hb in Hc.
  destruct Hc as (? & ? & ? & ? & ? & ? & ? & ? & ?). cbn in *. repeat split; cbn; congruence.
Qed.

Lemma has_file_keeps direct D w w' : has_file direct D w -> writable_file_ w' = writable_file_ w -> has_file direct D w'.
Proof. intros (f & Hf & ?) Hw. exists f. by rewrite Hw. Qed.

Lemma WriteBuffered_loop_spec n prio : forall src w D goal,
  has_file false D w -> (length src <= n)%nat -> zlen src < 2 ^ 32 -> D ++ src `prefix_of` goal ->
  outcome (WriteBuffered_loop n prio src) w
    (fun _ w' => has_file false (D ++ src) w' /\ keeps w w') (leaves false goal).
Proof.
  induction n as [|n IH]; intros src w D goal Hf Hn Hlen Hg; cbn [WriteBuffered_loop].
  { destruct src; [|cbn in Hn; lia]. cbn. rewrite app_nil_r. by split. }
  destruct (Z.ltb_spec 0 (zlen src)) as [Hpos|Hpos].
  2: { assert (src = []) as -> by (apply zlen_nil_inv; pose proof (zlen_nonneg src); lia).
       unfold outcome, ret. rewrite app_nil_r. by split. }
  eapply outcome_bind; [by apply request_token_spec|]. intros t w1 (Ht & Hk1 & Hw1).
  assert (zlen (ztake t src) = t) as Hl by (rewrite zlen_ztake; lia).
  pose proof (ztake_zdrop t src) as Hsplit. destruct (has_file_keeps _ _ _ _ Hf Hw1) as (f & Hwf & Hi & Hd & HD).
  eapply (outcome_bind get _ _ (fun x y => x = w1 /\ y = w1)); [by split|]. intros w1' ? [-> ->]. cbv zeta.
  eapply outcome_attempt with (E1 := leaves false goal).
  { apply (outcome_fs _ _ f _ _ Hwf).
    instantiate (1 := fun _ w2 => has_file false (D ++ ztake t src) w2 /\ keeps w1 w2).
    set (ck := if perform_data_verification_ w1 then _ else _).
    assert (handoff_ok (ztake t src) ck) as Hck by (unfold ck; destruct (perform_data_verification_ w1); [by right|by left]).
    pose proof (fs_append_ok (ztake t src) ck f Hi Hd ltac:(lia) Hck) as Ha.
    destruct (fs_Append _ _ f) as [[] f'|e f'|]; [| |done].
    - destruct Ha as (? & Hdata & ?). split; [|by repeat split]. exists f'. rewrite Hdata, HD. by split_and!.
    - destruct Ha as [He Hp]. split; [done|]. exists f'. split; [done|]. intros _. etrans; [exact Hp|].
      etrans; [|exact Hg]. rewrite HD. apply prefix_app, prefix_ztake. }
  - intros [] w2 [Hf2 Hk2]. eapply (outcome_bind (modify _) _ _ (fun _ w3 => has_file false (D ++ ztake t src) w3 /\ keeps w2 w3)).
    { split; [|by repeat split]. by eapply has_file_keeps. }
    intros [] w3 [Hf3 Hk3]. eapply outcome_conseq; [eapply (IH (zdrop t src) w3 (D ++ ztake t src) goal)|..].
    + done.
    + unfold zlen in *. pose proof (f_equal length Hsplit). rewrite length_app in *. lia.
    + rewrite zlen_zdrop; lia.
    + by rewrite <- app_assoc, Hsplit.
    + intros [] w' [Hf' Hk']. rewrite <- app_assoc, Hsplit in Hf'. split; [done|]. by repeat (etrans; [eassumption|]).
    + done.
  - intros e w2 He Hl2. unfold outcome. by cbn.
Qed.

Lemma WriteBuffered_spec data op w D goal :
  has_file false D w -> seen_error_ w = false -> zlen data < 2 ^ 32 -> D ++ data `prefix_of` goal ->
  outcome (WriteBuffered data op) w (fun _ w' => has_file false (D ++ data) w' /\ cleared w w') (leaves false goal).
Proof.
  intros Hf Hs Hlen Hg. apply outcome_unless; [done|].
  eapply outcome_bind; [apply (io_priority_spec _ _ _ (fun _ w1 => w1 = w) _ Hf); done|]. intros p ? ->.
  eapply outcome_bind; [by apply WriteBuffered_loop_spec|]. intros [] w1 [Hf1 Hk1].
  unfold outcome, clear_buffer, modify. split; [by eapply has_file_keeps|]. eapply cleared_keeps; [exact Hk1|]. by repeat split.
Qed.

Lemma request_all_spec n al p : forall size w E,
  0 <= size <= Z.of_nat n -> size < 2 ^ 32 ->
  outcome (request_all n size al p) w (fun _ w' => keeps w w' /\ writable_file_ w' = writable_file_ w) E.
Proof.
  induction n as [|n IH]; intros size w E Hn Hs; cbn [request_all]; (destruct (Z.ltb_spec 0 size); [|by repeat split]); [lia|].
  eapply outcome_bind; [by apply request_token_spec|]. intros t w1 (Ht & Hk1 & Hw1). rewrite u64_small by lia.
  eapply outcome_conseq; [apply IH; lia|..|done]. intros [] w' [Hk' Hw']. split; [by etrans|congruence].
Qed.

Lemma WriteBufferedWithChecksum_spec data op w D goal :
  has_file false D w -> seen_error_ w = false -> zlen data < 2 ^ 32 -> D ++ data `prefix_of` goal ->
  buffered_data_crc32c_checksum_ w = crc32c_Value data ->
  outcome (WriteBufferedWithChecksum data op) w
    (fun _ w' => has_file false (D ++ data) w' /\ cleared w w') (leaves false goal).
Proof.
  intros Hf Hs Hlen Hg Hcrc. apply outcome_unless; [done|].
  eapply outcome_bind; [apply (io_priority_spec _ _ _ (fun _ w1 => w1 = w) _ Hf); done|]. intros p ? ->.
  eapply (outcome_bind get _ _ (fun x y => x = w /\ y = w)); [by split|]. intros ? ? [-> ->]. cbv zeta.
  eapply (outcome_bind _ _ _ (fun _ w1 => keeps w w1 /\ writable_file_ w1 = writable_file_ w)).
  { destruct (_ && _); cbn [when]; [|by repeat split]. apply request_all_spec; [unfold zlen; lia|done]. }
  intros [] w1 [Hk1 Hw1]. destruct (has_file_keeps _ _ _ _ Hf Hw1) as (f & Hwf & Hi & Hd & HD).
  eapply outcome_attempt with (E1 := leaves false goal).
  { apply (outcome_fs _ _ f _ _ Hwf).
    instantiate (1 := fun _ w2 => has_file false (D ++ data) w2 /\ keeps w1 w2). rewrite Hcrc.
    pose proof (fs_append_ok data _ f Hi Hd Hlen (or_intror eq_refl)) as Ha.
    destruct (fs_Append _ _ f) as [[] f'|e f'|]; [| |done].
    - destruct Ha as (? & Hdata & ?). split; [|by repeat split]. exists f'. rewrite Hdata, HD. by split_and!.
    - destruct Ha as [He Hp]. split; [done|]. exists f'. split; [done|]. intros _. etrans; [exact Hp|]. by rewrite HD. }
  - intros [] w2 [Hf2 Hk2]. unfold outcome. cbn. split; [by eapply has_file_keeps|].
    eapply cleared_keeps; [exact Hk1|]. eapply cleared_keeps; [exact Hk2|]. by repeat split.
  - intros e w2 He Hl2. unfold outcome. by cbn.
Qed.

(** ** Direct I/O *)

Lemma splice_app_at (P b X : bytes) : splice (zlen P) b (P ++ X) = P ++ b ++ zdrop (zlen b) X.
Proof.
  unfold splice. rewrite ztake_app. do 2 f_equal. unfold zdrop, zlen. rewrite drop_app_ge by lia. f_equal. lia.
Qed.

Lemma WriteDirect_loop_spec n prio size : forall src w P X off,
  has_file true (P ++ X) w -> zlen P = off -> off + zlen src < 2 ^ 64 -> (length src <= n)%nat -> zlen src < 2 ^ 32 ->
  outcome (WriteDirect_loop n prio size src off) w
    (fun _ w' => has_file true (P ++ src ++ zdrop (zlen src) X) w' /\ keeps w w') (leaves true []).
Proof.
  induction n as [|n IH]; intros src w P X off Hf Hoff Hend Hn Hlen; cbn [WriteDirect_loop].
  { destruct src; [|cbn in Hn; lia]. cbn. rewrite zdrop_0. by split. }
  destruct (Z.ltb_spec 0 (zlen src)) as [Hpos|Hpos].
  2: { assert (src = []) as -> by (apply zlen_nil_inv; pose proof (zlen_nonneg src); lia).
       unfold outcome, ret. rewrite zlen_nil, zdrop_0. by split. }
  eapply (outcome_bind get _ _ (fun x y => x = w /\ y = w)); [by split|]. intros ? ? [-> ->].
  eapply outcome_bind; [by apply request_token_spec|]. intros t w1 (Ht & Hk1 & Hw1). unfold next_piece. cbv iota.
  assert (zlen (ztake t src) = t) as Hl by (rewrite zlen_ztake; lia). pose proof (zlen_nonneg P).
  pose proof (ztake_zdrop t src) as Hsplit. destruct (has_file_keeps _ _ _ _ Hf Hw1) as (f & Hwf & Hi & Hd & HD).
  eapply outcome_attempt with (E1 := leaves true []).
  { apply (outcome_fs _ _ f _ _ Hwf).
    instantiate (1 := fun _ w2 => has_file true ((P ++ ztake t src) ++ zdrop t X) w2 /\ keeps w1 w2).
    set (ck := if perform_data_verification_ w then _ else _).
    assert (handoff_ok (ztake t src) ck) as Hck by (unfold ck; destruct (perform_data_verification_ w); [by right|by left]).
    assert (0 <= off <= zlen (fs_data f)) as Hrange by (rewrite HD, zlen_app; pose proof (zlen_nonneg X); lia).
    pose proof (fs_pappend_ok (ztake t src) off ck f Hi Hd Hrange ltac:(lia) Hck) as Ha.
    destruct (fs_PositionedAppend _ _ _ f) as [[] f'|e f'|]; [|split; [done|by exists f']|done].
    destruct Ha as (? & Hdata & ?). split; [|by repeat split]. exists f'.
    rewrite HD, <- Hoff, splice_app_at, Hl, app_assoc in Hdata. by split_and!. }
  - intros [] w2 [Hf2 Hk2]. eapply (outcome_bind (modify _) _ _
      (fun _ w3 => has_file true ((P ++ ztake t src) ++ zdrop t X) w3 /\ keeps w2 w3)).
    { split; [|by repeat split]. by eapply has_file_keeps. }
    intros [] w3 [Hf3 Hk3]. assert (zlen (zdrop t src) = zlen src - t) as Hz by (rewrite zlen_zdrop; lia).
    eapply outcome_conseq; [eapply (IH (zdrop t src) w3 (P ++ ztake t src) (zdrop t X) (off +64 t))|..|done].
    + done.
    + rewrite zlen_app, u64_small; lia.
    + rewrite u64_small; lia.
    + unfold zlen in *. lia.
    + lia.
    + intros [] w' [Hf' Hk']. split; [|by repeat (etrans; [eassumption|])].
      assert (zdrop (zlen (zdrop t src)) (zdrop t X) = zdrop (zlen src) X) as E.
      { rewrite Hz. unfold zdrop. rewrite drop_drop. f_equal. lia. }
      by rewrite E, <- app_assoc, (app_assoc (ztake t src)), Hsplit in Hf'.
  - intros e w2 He Hl2. unfold outcome. by cbn.
Qed.

(** Whole pages have left the buffer; the tail, which was written too, stays. *)
Definition page_part (b : AlignedBuffer) : Z := cursize_ b - cursize_ b mod ab_alignment b.
Definition advanced (crc : Z) w w' : Prop :=
  keeps (set_buffered_crc crc (set_next_offset (next_write_offset_ w + page_part (buf_ w))
    (set_buf (RefitTail (page_part (buf_ w)) (cursize_ (buf_ w) - page_part (buf_ w)) (PadToAlignmentWith (buf_ w))) w))) w'.

Lemma page_part_spec b :
  buffer_ok b ->
  TruncateToPageBoundary (ab_alignment b) (cursize_ b) = page_part b /\ 0 <= page_part b <= cursize_ b /\
  page_part b mod ab_alignment b = 0.
Proof.
  intros [Ha Hc _ _ Hs]. rewrite TruncateToPageBoundary_spec by (done || lia). apply alignment_range in Ha. unfold page_part.
  pose proof (Z.mod_pos_bound (cursize_ b) (ab_alignment b) ltac:(lia)).
  pose proof (Z.mod_le (cursize_ b) (ab_alignment b) ltac:(lia) ltac:(lia)). split_and!; try lia.
  rewrite Zminus_mod_idemp_r, Z.sub_diag. apply Z.mod_0_l. lia.
Qed.

(** What was padded before is overwritten. *)
Lemma overwrite_page b (P X : bytes) w :
  buffer_ok b -> zlen X <= Roundup (cursize_ b) (ab_alignment b) ->
  has_file true (P ++ pad_page (ab_alignment b) (ab_data b) ++ zdrop (zlen (pad_page (ab_alignment b) (ab_data b))) X) w ->
  has_file true (P ++ pad_page (ab_alignment b) (ab_data b)) w.
Proof.
  intros Hb HX Hf. pose proof Hb as [Ha Hc _ _ Hs]. set (p := pad_page _ _) in *.
  assert (zdrop (zlen p) X = []) as E.
  { apply zlen_nil_inv. pose proof (zlen_nonneg p). rewrite zlen_zdrop by done. unfold p.
    rewrite zlen_pad_page, zlen_ab_data by (rewrite ?zlen_ab_data by done; done || lia). lia. }
  by rewrite E, app_nil_r in Hf.
Qed.

Lemma zlen_pad_data b : buffer_ok b -> cursize_ b <= zlen (pad_page (ab_alignment b) (ab_data b)) < 2 ^ 32.
Proof.
  intros Hb. destruct (PadToAlignmentWith_ok b Hb) as (Hb' & Hd & _). rewrite <- Hd at 2. rewrite zlen_ab_data by done.
  unfold pad_page. rewrite zlen_app, zlen_ab_data by done. destruct Hb' as [_ Hc _ _ Hs].
  pose proof (zlen_nonneg (zeros (Roundup (cursize_ b) (ab_alignment b) - cursize_ b))). lia.
Qed.

Lemma WriteDirect_spec op w P X :
  has_file true (P ++ X) w -> buffer_ok (buf_ w) -> seen_error_ w = false -> next_write_offset_ w = zlen P ->
  zlen P + 2 ^ 32 < 2 ^ 64 -> zlen X <= Roundup (cursize_ (buf_ w)) (ab_alignment (buf_ w)) ->
  outcome (WriteDirect op) w
    (fun _ w' => has_file true (P ++ pad_page (ab_alignment (buf_ w)) (ab_data (buf_ w))) w' /\
      advanced (buffered_data_crc32c_checksum_ w) w w') (leaves true []).
Proof.
  intros Hf Hb Hs Hoff Hlim HX. apply outcome_unless; [done|].
  eapply (outcome_bind get _ _ (fun x y => x = w /\ y = w)); [by split|]. intros ? ? [-> ->]. cbv zeta.
  destruct (page_part_spec _ Hb) as (-> & Hp & _). destruct (PadToAlignmentWith_ok _ Hb) as (Hb1 & Hd1 & _).
  pose proof (zlen_pad_data _ Hb) as Hlen. pose proof (bo_capacity _ Hb). pose proof (bo_size _ Hb). pose proof (zlen_nonneg P).
  set (w0 := set_buf (PadToAlignmentWith (buf_ w)) w). eapply (outcome_bind (modify _) _ _ (fun _ w1 => w1 = w0)); [done|].
  intros [] ? ->. assert (has_file true (P ++ X) w0) as Hf0 by done.
  eapply outcome_bind; [apply (io_priority_spec _ _ _ (fun _ w1 => w1 = w0) _ Hf0); done|]. intros p ? ->.
  eapply (outcome_bind (gets _) _ _ (fun x w1 => x = pad_page (ab_alignment (buf_ w)) (ab_data (buf_ w)) /\ w1 = w0)).
  { by split. }
  intros ? ? [-> ->]. eapply outcome_bind; [apply (WriteDirect_loop_spec _ _ _ _ w0 P X); [done|lia|lia|done|lia]|].
  intros [] w1 [Hf1 (Kb & Kr)]. apply overwrite_page in Hf1; [|done|done]. unfold outcome, modify.
  split; [by eapply has_file_keeps|]. unfold advanced. destruct Kr as (? & ? & Kn & ? & ? & ? & ? & ?).
  repeat split; cbn; rewrite ?Kb, ?Kn; cbn; try done; rewrite !u64_small by lia; done.
Qed.

Lemma pad_crc al d :
  zlen (pad_page al d) < 2 ^ 64 ->
  Crc32cCombine 0 (crc32c_Value d) (crc32c_Value (zdrop (zlen d) (pad_page al d))) (zlen (pad_page al d) - zlen d) =
    crc32c_Value (pad_page al d).
Proof.
  intros Hl. unfold pad_page in *. rewrite zdrop_app, zlen_app, Z.add_simpl_l in *.
  apply crc32c_Value_combine. pose proof (zlen_nonneg d). lia.
Qed.

Lemma WriteDirectWithChecksum_spec op w P X :
  has_file true (P ++ X) w -> buffer_ok (buf_ w) -> seen_error_ w = false -> next_write_offset_ w = zlen P ->
  zlen P + 2 ^ 32 < 2 ^ 64 -> zlen X <= Roundup (cursize_ (buf_ w)) (ab_alignment (buf_ w)) ->
  buffered_data_crc32c_checksum_ w = crc32c_Value (ab_data (buf_ w)) ->
  outcome (WriteDirectWithChecksum op) w
    (fun _ w' => has_file true (P ++ pad_page (ab_alignment (buf_ w)) (ab_data (buf_ w))) w' /\
      advanced (crc32c_Value (zdrop (page_part (buf_ w)) (ab_data (buf_ w)))) w w') (leaves true []).
Proof.
  intros Hf Hb Hs Hoff Hlim HX Hcrc. apply outcome_unless; [done|].
  eapply (outcome_bind get _ _ (fun x y => x = w /\ y = w)); [by split|]. intros ? ? [-> ->]. cbv zeta.
  destruct (page_part_spec _ Hb) as (-> & Hp & _). destruct (PadToAlignmentWith_ok _ Hb) as (Hb1 & Hd1 & _).
  pose proof (zlen_pad_data _ Hb) as Hlen. pose proof (bo_capacity _ Hb). pose proof (bo_size _ Hb). pose proof (zlen_nonneg P).
  set (w0 := set_buf (PadToAlignmentWith (buf_ w)) w). set (src := pad_page (ab_alignment (buf_ w)) (ab_data (buf_ w))) in *.
  eapply (outcome_bind (modify _) _ _ (fun _ w1 => w1 = w0)); [done|]. intros [] ? ->.
  eapply (outcome_bind (gets _) _ _ (fun x w1 => x = src /\ w1 = w0)); [by split|]. intros ? ? [-> ->].
  set (w1 := set_buffered_crc (crc32c_Value src) w0).
  eapply (outcome_bind (modify _) _ _ (fun _ w2 => w2 = w1)).
  { unfold outcome, modify, w1. cbn. rewrite Hcrc, <- (zlen_ab_data _ Hb). unfold src at 1 2. by rewrite pad_crc by (fold src; lia). }
  intros [] ? ->. assert (has_file true (P ++ X) w1) as Hf1 by done.
  eapply outcome_bind; [apply (io_priority_spec _ _ _ (fun _ w2 => w2 = w1) _ Hf1); done|]. intros p ? ->.
  eapply (outcome_bind get _ _ (fun x y => x = w1 /\ y = w1)); [by split|]. intros ? ? [-> ->].
  eapply (outcome_bind _ _ _ (fun _ w2 => keeps w1 w2 /\ writable_file_ w2 = writable_file_ w1)).
  { destruct (_ && _); cbn [when]; [|by repeat split]. apply request_all_spec; [unfold zlen; lia|lia]. }
  intros [] w2 [Hk2 Hw2]. destruct (has_file_keeps _ _ _ _ Hf1 Hw2) as (f & Hwf & Hi & Hd & HD).
  eapply outcome_attempt with (E1 := leaves true []).
  { apply (outcome_fs _ _ f _ _ Hwf).
    instantiate (1 := fun _ w3 => has_file true (P ++ src ++ zdrop (zlen src) X) w3 /\ keeps w2 w3).
    assert (0 <= next_write_offset_ w <= zlen (fs_data f)) as Hrange by (rewrite HD, zlen_app; pose proof (zlen_nonneg X); lia).
    pose proof (fs_pappend_ok src _ _ f Hi Hd Hrange ltac:(lia) (or_intror eq_refl)) as Ha. cbn [buffered_data_crc32c_checksum_ w1 set_buffered_crc].
    destruct (fs_PositionedAppend _ _ _ f) as [[] f'|e f'|]; [|split; [done|by exists f']|done].
    destruct Ha as (? & Hdata & ?). split; [|by repeat split]. exists f'.
    rewrite HD, Hoff, splice_app_at in Hdata. by split_and!. }
  2: { intros e w3 He Hl3. unfold outcome. by cbn. }
  intros [] w3 [Hf3 Hk3]. apply overwrite_page in Hf3; [|done|done].
  destruct (RefitTail_ok _ (page_part (buf_ w)) Hb Hp) as (_ & Ht & _).
  assert (keeps w1 w3) as (Kb & ? & ? & Kn & ? & ? & ? & ? & ?) by (by etrans). unfold outcome, recompute_crc. cbn.
  split; [by eapply has_file_keeps|]. unfold advanced.
  repeat split; cbn; rewrite ?Kb, ?Kn; cbn; rewrite ?(u64_small (cursize_ (buf_ w) - _)), ?u64_small, ?Ht by lia; done.
Qed.
(** ** The writer's state *)

(** The options: the size of the buffer and what is checked. *)
Definition same_options w w' : Prop :=
  max_buffer_size_ w' = max_buffer_size_ w /\ filesize_ w' = filesize_ w /\ pending_sync_ w' = pending_sync_ w /\
  perform_data_verification_ w' = perform_data_verification_ w /\
  buffered_data_with_checksum_ w' = buffered_data_with_checksum_ w /\ ab_alignment (buf_ w') = ab_alignment (buf_ w).

#[local] Instance same_options_preorder : PreOrder same_options.
Proof.
  split; [by repeat split|]. intros w1 w2 w3 (? & ? & ? & ? & ? & ?) (? & ? & ? & ? & ? & ?). split_and!; congruence.
Qed.

Definition checks w : bool := perform_data_verification_ w && buffered_data_with_checksum_ w.

(** What the file holds when [P] has left the buffer and [t] of it was written in
    advance: with direct I/O, whole pages. *)
Definition file_bytes (direct : bool) (al : Z) (P t : bytes) : bytes := P ++ (if direct then pad_page al t else []).

(** With direct I/O, offsets are 64-bit numbers. *)
Definition len_ok (direct : bool) (A : bytes) : Prop := direct = true -> zlen A < 2 ^ 62.

Lemma len_ok_prefix direct A B : A `prefix_of` B -> len_ok direct B -> len_ok direct A.
Proof. intros [k ->] Hl Hd. specialize (Hl Hd). rewrite zlen_app in Hl. pose proof (zlen_nonneg k). lia. Qed.

(** [A] was appended. *)
Record winv (direct : bool) (A : bytes) w : Prop := {
  wi_error : seen_error_ w = false;
  wi_buf : buffer_ok (buf_ w);
  wi_max : 0 < max_buffer_size_ w /\ max_buffer_size_ w + ab_alignment (buf_ w) < 2 ^ 32;
  wi_len : len_ok direct A;
  wi_crc : checks w = true -> buffered_data_crc32c_checksum_ w = crc32c_Value (ab_data (buf_ w));
  wi_data : exists P t, A = P ++ ab_data (buf_ w) /\ has_file direct (file_bytes direct (ab_alignment (buf_ w)) P t) w /\
    t `prefix_of` ab_data (buf_ w) /\
    (direct = true -> next_write_offset_ w = zlen P /\ (pending_sync_ w = false -> t = ab_data (buf_ w)))
}.

(** Everything is in the file. *)
Definition settled (direct : bool) (A : bytes) w : Prop :=
  exists P, A = P ++ ab_data (buf_ w) /\ has_file direct (file_bytes direct (ab_alignment (buf_ w)) P (ab_data (buf_ w))) w /\
    (direct = false -> ab_data (buf_ w) = []).

(** The writer remembers a failure. *)
Definition failed (direct : bool) (goal : bytes) w : Prop := leaves direct goal w /\ seen_error_ w = true.

Lemma or_error_failed (m : M FW unit) w Q direct goal :
  outcome m w Q (leaves direct goal) -> outcome (or_error m) w Q (failed direct goal).
Proof.
  intros Hm. eapply outcome_conseq; [by apply outcome_or_error|done|]. intros ? (w1 & Hw1 & ->). by split.
Qed.

Lemma failed_leaves direct goal w : failed direct goal w -> leaves direct goal w.
Proof. by intros [? _]. Qed.

Lemma leaves_prefix direct g g' w : g `prefix_of` g' -> leaves direct g w -> leaves direct g' w.
Proof. intros Hg (f & Hf & Hp). exists f. split; [done|]. intros Hd. etrans; [by apply Hp|done]. Qed.

Lemma failed_prefix direct g g' w : g `prefix_of` g' -> failed direct g w -> failed direct g' w.
Proof. intros Hg [Hl Hs]. split; [by eapply leaves_prefix|done]. Qed.

Lemma keeps_options w w' : keeps w w' -> same_options w w'.
Proof. intros (Hb & ? & ? & ? & ? & ? & ? & ? & ?). split_and!; try done. by rewrite Hb. Qed.

(** [winv] only looks at the buffer, the file and the flags. *)
Lemma winv_keeps direct A w w' :
  winv direct A w -> keeps w w' -> (forall D, has_file direct D w -> has_file direct D w') -> winv direct A w'.
Proof.
  intros [He Hb Hm Hl Hc (P & t & HA & Hf & Ht & Hd)] (Kb & Km & Ks & Kn & Kp & Ke & K1 & K2 & K3) Hfile.
  split; unfold checks; rewrite ?Kb, ?Km, ?Kn, ?Kp, ?Ke, ?K1, ?K2, ?K3; try done. exists P, t. split_and!; try done. by apply Hfile.
Qed.

Lemma settled_keeps direct A w w' :
  settled direct A w -> keeps w w' -> (forall D, has_file direct D w -> has_file direct D w') -> settled direct A w'.
Proof. intros (P & HA & Hf & Hd) (Kb & _) Hfile. exists P. rewrite Kb. split_and!; try done. by apply Hfile. Qed.
(** What a flush leaves in the buffer. *)
Definition drained (direct : bool) w w' : Prop :=
  ab_capacity (buf_ w') = ab_capacity (buf_ w) /\
  cursize_ (buf_ w') =
    if direct then (if pending_sync_ w then cursize_ (buf_ w) mod ab_alignment (buf_ w) else cursize_ (buf_ w)) else 0.

Definition flushed_to (direct : bool) (A : bytes) w w' : Prop :=
  winv direct A w' /\ settled direct A w' /\ same_options w w' /\ drained direct w w'.

Lemma flushed_buffered A A' w w' :
  winv false A w -> has_file false A' w' -> cleared w w' -> flushed_to false A' w w'.
Proof.
  intros [He Hb Hm Hl Hc _] Hf (Kb & Km & Ks & Kn & Kp & Ke & K1 & K2 & K3). cbn in *.
  pose proof (bo_capacity _ Hb). destruct (Size_ok 0 (buf_ w) Hb ltac:(lia)) as [Hb0 Hd0]. rewrite ztake_0 in Hd0.
  assert (ab_data (buf_ w') = []) as Hd by (by rewrite Kb).
  assert (file_bytes false (ab_alignment (buf_ w')) A' [] = A') as HF by (unfold file_bytes; by rewrite app_nil_r).
  split_and!.
  - split; unfold checks; rewrite ?Hd, ?Km, ?K2; try done; [by rewrite Ke|by rewrite Kb|by rewrite Kb|].
    exists A', []. rewrite HF, app_nil_r. by split_and!.
  - exists A'. by rewrite Hd, HF, app_nil_r.
  - repeat split; try done. by rewrite Kb.
  - split; by rewrite Kb.
Qed.

Lemma flushed_direct A w w' P c :
  winv true A w -> A = P ++ ab_data (buf_ w) -> next_write_offset_ w = zlen P -> pending_sync_ w = true ->
  has_file true (P ++ pad_page (ab_alignment (buf_ w)) (ab_data (buf_ w))) w' -> advanced c w w' ->
  (checks w = true -> c = crc32c_Value (zdrop (page_part (buf_ w)) (ab_data (buf_ w)))) -> flushed_to true A w w'.
Proof.
  intros [He Hb Hm Hl Hc _] HA Hn Hpend Hf (Kb & Km & Ks & Kn & Kp & Ke & K1 & K2 & K3) Hcrc. cbn in *.
  destruct (page_part_spec _ Hb) as (_ & Hpp & Hpm).
  destruct (RefitTail_ok _ _ Hb Hpp) as (Hb' & Hd & Hcur & Hal & Hcap). rewrite <- Kb in *.
  pose proof Hb as [Ba Bc Bp Bm Bs]. set (al := ab_alignment (buf_ w)) in *. set (d := ab_data (buf_ w)) in *. set (n := page_part (buf_ w)) in *.
  assert (zlen d = cursize_ (buf_ w)) as Hld by by apply zlen_ab_data. assert (0 < al) by (apply alignment_range in Ba; lia).
  assert (A = (P ++ ztake n d) ++ ab_data (buf_ w')) as HA'.
  { rewrite Hd, <- app_assoc, ztake_zdrop. done. }
  assert (has_file true (file_bytes true (ab_alignment (buf_ w')) (P ++ ztake n d) (ab_data (buf_ w'))) w') as Hf'.
  { unfold file_bytes. rewrite Hal, Hd, <- app_assoc, <- (pad_page_drop al d n) by (done || lia). done. }
  split_and!.
  - split; unfold checks; rewrite ?Km, ?K1, ?K2, ?K3, ?Hal; try done; [by rewrite Ke|by rewrite Hd|].
    exists (P ++ ztake n d), (ab_data (buf_ w')). rewrite <- Hal. split_and!; try done. intros _. split; [|done].
    rewrite Kn, Hn, zlen_app, zlen_ztake by lia. lia.
  - exists (P ++ ztake n d). by split_and!.
  - by repeat split.
  - split; [done|]. rewrite Hcur, Hpend. unfold n, page_part. fold al. lia.
Qed.

(** What a buffered file has accepted. *)
Lemma winv_buffered A w : winv false A w -> exists D, has_file false D w /\ A = D ++ ab_data (buf_ w).
Proof. intros Hi. destruct (wi_data _ _ _ Hi) as (P & t & HA & Hf & _). exists P. unfold file_bytes in Hf. by rewrite app_nil_r in Hf. Qed.

Lemma write_buffered_spec op A w :
  winv false A w ->
  outcome (if checks w then WriteBufferedWithChecksum (ab_data (buf_ w)) op else WriteBuffered (ab_data (buf_ w)) op) w
    (fun _ w' => flushed_to false A w w') (leaves false A).
Proof.
  intros Hi. destruct (winv_buffered _ _ Hi) as (D & Hf & HA). pose proof Hi as [He Hb _ Hl Hc _].
  pose proof (bo_capacity _ Hb). pose proof (bo_size _ Hb).
  assert (zlen (ab_data (buf_ w)) < 2 ^ 32) as Hlen by (rewrite zlen_ab_data by done; lia).
  assert (D ++ ab_data (buf_ w) `prefix_of` A) as Hp by (by rewrite HA).
  destruct (checks w) eqn:Hck.
  - eapply outcome_conseq; [apply (WriteBufferedWithChecksum_spec _ _ _ D A); auto|..|done].
    intros [] w' [Hf' Hcl]. rewrite <- HA in Hf'. by eapply flushed_buffered.
  - eapply outcome_conseq; [by apply (WriteBuffered_spec _ _ _ D A)|..|done].
    intros [] w' [Hf' Hcl]. rewrite <- HA in Hf'. by eapply flushed_buffered.
Qed.

Lemma write_direct_spec op A w :
  winv true A w -> pending_sync_ w = true ->
  outcome (if checks w then WriteDirectWithChecksum op else WriteDirect op) w
    (fun _ w' => flushed_to true A w w') (leaves true A).
Proof.
  intros Hi Hpend. pose proof Hi as [He Hb _ Hl Hc (P & t & HA & Hf & Ht & Hn)]. destruct (Hn eq_refl) as [Hoff _].
  pose proof Hb as [Ba Bc _ _ Bs]. pose proof (zlen_ab_data _ Hb) as Hld. pose proof (zlen_nonneg t).
  assert (zlen t <= cursize_ (buf_ w)) as Hlt by (destruct Ht as [k Hk]; rewrite Hk, zlen_app in Hld; pose proof (zlen_nonneg k); lia).
  assert (zlen (pad_page (ab_alignment (buf_ w)) t) <= Roundup (cursize_ (buf_ w)) (ab_alignment (buf_ w))) as HX.
  { rewrite zlen_pad_page by (done || lia). apply Roundup_mono; [lia|lia|done]. }
  assert (zlen P + 2 ^ 32 < 2 ^ 64) as HP by (specialize (Hl eq_refl); rewrite HA, zlen_app in Hl; pose proof (zlen_nonneg (ab_data (buf_ w))); lia).
  destruct (checks w) eqn:Hck.
  - eapply outcome_conseq; [by apply (WriteDirectWithChecksum_spec op w P _ Hf); auto|..].
    + intros [] w' [Hf' Ha]. by eapply flushed_direct.
    + intros w' (f' & Hf' & _). by exists f'.
  - eapply outcome_conseq; [by apply (WriteDirect_spec op w P _ Hf)|..].
    + intros [] w' [Hf' Ha]. eapply flushed_direct; try done. by rewrite Hck.
    + intros w' (f' & Hf' & _). by exists f'.
Qed.
(** A flush that has nothing to write. *)
Lemma flushed_idle direct A w :
  winv direct A w -> (cursize_ (buf_ w) = 0 \/ direct = true /\ pending_sync_ w = false) -> flushed_to direct A w w.
Proof.
  intros Hi Hw. pose proof Hi as [_ Hb _ _ _ (P & t & HA & Hf & Ht & Hn)]. pose proof (zlen_ab_data _ Hb) as Hl.
  assert (cursize_ (buf_ w) = 0 -> ab_data (buf_ w) = []) as H0 by (intros E; apply zlen_nil_inv; lia).
  split_and!; [done| |done|].
  - exists P. split_and!; [done| |].
    + assert (t = ab_data (buf_ w) \/ direct = false) as [->| ->]; [|done|done].
      destruct Hw as [E|[-> E]]; [|left; by apply Hn]. left. rewrite (H0 E) in *. by apply prefix_nil_inv.
    + intros ->. destruct Hw as [E|[? _]]; [by apply H0|done].
  - split; [done|]. destruct direct; [|by destruct Hw as [?|[? _]]]. destruct Hw as [E|[_ ->]]; [|done].
    rewrite E, Z.mod_0_l; [by destruct (pending_sync_ w)|]. pose proof (alignment_range _ (bo_align _ Hb)). lia.
Qed.

(** Calls that do not touch the data. *)
Lemma harmless direct A w w' :
  winv direct A w -> keeps w w' -> (forall D, has_file direct D w -> has_file direct D w') ->
  forall w0, flushed_to direct A w0 w -> flushed_to direct A w0 w'.
Proof.
  intros Hi Hk Hf w0 (_ & Hs & Ho & Hd1 & Hd2). split_and!.
  - by eapply winv_keeps.
  - by eapply settled_keeps.
  - etrans; [done|by apply keeps_options].
  - unfold drained. destruct Hk as (-> & _). done.
Qed.

(** What a buffered file has accepted is part of what was appended. *)
Lemma winv_goal A w f : winv false A w -> writable_file_ w = Held f -> fs_data f `prefix_of` A.
Proof.
  intros Hi Hf. destruct (winv_buffered _ _ Hi) as (D & (f' & Hf' & _ & _ & <-) & ->). assert (f' = f) as -> by congruence. by exists (ab_data (buf_ w)).
Qed.

Lemma winv_file direct A w : winv direct A w -> exists f, writable_file_ w = Held f /\ fs_inv f /\ fs_use_direct_io f = direct.
Proof. intros Hi. destruct (wi_data _ _ _ Hi) as (P & t & _ & (f & ? & ? & ? & _) & _). eauto. Qed.

(** A call of the file that leaves its data alone. *)
Lemma quiet_call direct A w (m : M F unit) f :
  winv direct A w -> writable_file_ w = Held f ->
  (match m f with
   | Ok _ f' => fs_inv f' /\ fs_data f' = fs_data f /\ fs_use_direct_io f' = fs_use_direct_io f
   | Err e f' => ok e = false /\ (fs_use_direct_io f = false -> fs_file f' `prefix_of` fs_data f)
   | Stuck _ => fs_waits
   end) ->
  outcome (on_fs m) w (fun _ w' => exists f', m f = Ok tt f' /\ w' = set_file (Held f') w /\
     keeps w w' /\ forall D, has_file direct D w -> has_file direct D w') (leaves direct A).
Proof.
  intros Hi Hf Hm. apply (outcome_fs _ _ f _ _ Hf). destruct (m f) as [[] f'|e f'|]; [| |done].
  - destruct Hm as (Hi' & Hd & Hu). exists f'. split_and!; [done|done|by repeat split|].
    intros D (f0 & Hf0 & ? & <- & <-). assert (f0 = f) as -> by congruence. exists f'. by split_and!.
  - destruct Hm as [He Hp]. split; [done|]. exists f'. split; [done|]. intros ->.
    destruct (winv_file _ _ _ Hi) as (f0 & Hf0 & _ & Hu). assert (f0 = f) as -> by congruence.
    etrans; [by apply Hp|]. by eapply winv_goal.
Qed.
Abbreviation quiet direct w := (fun (_ : unit) w' => keeps w w' /\ forall D, has_file direct D w -> has_file direct D w').

Lemma sync_range_spec direct A w : winv direct A w -> outcome sync_range w (quiet direct w) (failed direct A).
Proof.
  intros Hi. destruct (winv_file _ _ _ Hi) as (f & Hf & Hfi & Hu). pose proof (wi_error _ _ _ Hi) as He.
  eapply (outcome_bind use_direct_io _ _ (fun d w1 => d = direct /\ w1 = w)).
  { eapply direct_spec; [exists f; by split_and!|done]. }
  intros ? ? [-> ->]. eapply (outcome_bind get _ _ (fun x y => x = w /\ y = w)); [by split|]. intros ? ? [-> ->].
  destruct (negb direct) eqn:Hd; [|done]. apply negb_true_iff in Hd as ->. cbn [andb].
  destruct (negb _ && _); [|done]. cbv zeta. set (off := _ - _). destruct ((0 <? off) && _); [|done].
  eapply outcome_attempt.
  - apply or_error_failed, outcome_unless; [done|].
    eapply outcome_conseq; [apply or_error_failed|intros ? ? H; exact H|apply failed_leaves].
    eapply outcome_conseq; [eapply (quiet_call false A w _ f); [done|done|]|intros ? ? H; exact H|done].
    pose proof (fs_range_sync_ok (last_sync_size_ w) (off -64 last_sync_size_ w) f Hfi Hu) as Hs.
    destruct (fs_RangeSync _ _ f) as [[] f'|e f'|]; rewrite ?Hu; naive_solver.
  - intros [] w1 (f' & _ & _ & Hk & Hfile). unfold outcome. cbn. split; [etrans; [done|by repeat split]|].
    intros D HD. by apply Hfile in HD.
  - intros e w1 Hok Hl1. unfold outcome. cbn. unfold returnS. by rewrite Hok.
Qed.

Lemma Flush_spec direct A w op :
  winv direct A w -> outcome (FileWriter_Flush op) w (fun _ w' => flushed_to direct A w w') (failed direct A).
Proof.
  intros Hi. apply outcome_unless; [by apply (wi_error _ _ _ Hi)|].
  eapply (outcome_bind get _ _ (fun x y => x = w /\ y = w)); [by split|]. intros ? ? [-> ->]. cbv zeta. fold (checks w).
  eapply (outcome_bind _ _ _ (fun _ w1 => flushed_to direct A w w1)).
  { destruct (Z.ltb_spec 0 (cursize_ (buf_ w))) as [Hc|Hc].
    2: { apply (flushed_idle direct A w); [done|]. left. pose proof (bo_size _ (wi_buf _ _ _ Hi)). lia. }
    destruct (wi_data _ _ _ Hi) as (P & t & _ & Hf & _).
    eapply (outcome_bind use_direct_io _ _ (fun d w1 => d = direct /\ w1 = w)); [by eapply direct_spec|].
    intros ? ? [-> ->]. apply or_error_failed. destruct direct; [|by apply write_buffered_spec].
    destruct (pending_sync_ w) eqn:Hp; [by apply write_direct_spec|].
    apply (flushed_idle true A w); auto. }
  intros [] w1 Hw1. pose proof Hw1 as [Hi1 _]. destruct (winv_file _ _ _ Hi1) as (f & Hf & Hfi & Hu).
  eapply outcome_bind.
  { apply or_error_failed, (quiet_call direct A w1 _ f); [done|done|]. apply (fs_flush_ok f Hfi). }
  intros [] w2 (f' & _ & _ & Hk & Hfile). assert (winv direct A w2) as Hi2 by by eapply winv_keeps.
  eapply outcome_conseq; [by apply sync_range_spec|..|done]. intros [] w3 [Hk3 Hf3].
  apply (harmless _ _ _ _ Hi2 Hk3 Hf3), (harmless _ _ _ _ Hi1 Hk Hfile), Hw1.
Qed.
(** ** Appending *)

(** Data that was put behind what is in the buffer. *)
Lemma winv_fill direct A w b c d :
  winv direct A w -> (direct = true -> pending_sync_ w = true) -> buffer_ok b -> ab_data b = ab_data (buf_ w) ++ d ->
  ab_alignment b = ab_alignment (buf_ w) -> (checks w = true -> c = crc32c_Value (ab_data b)) -> len_ok direct (A ++ d) ->
  winv direct (A ++ d) (set_buffered_crc c (set_buf b w)) /\ same_options w (set_buffered_crc c (set_buf b w)).
Proof.
  intros [He Hb Hm Hl Hc (P & t & HA & Hf & Ht & Hn)] Hp Hb' Hd Hal Hc' Hl'. split; [|by repeat split].
  split; cbn; rewrite ?Hal; try done. exists P, t. rewrite Hd. split_and!.
  - by rewrite HA, app_assoc.
  - done.
  - by apply prefix_app_r.
  - intros E. destruct (Hn E) as [? _]. split; [done|]. by rewrite (Hp E).
Qed.

Lemma append_loop_spec direct op n : forall src wc w A,
  winv direct A w -> pending_sync_ w = true -> wc = checks w -> len_ok direct (A ++ src) ->
  (length src <= n)%nat -> (cursize_ (buf_ w) = ab_capacity (buf_ w) -> 0 < zlen src -> (length src < n)%nat) ->
  outcome (append_loop n src wc op) w (fun _ w' => winv direct (A ++ src) w' /\ same_options w w') (failed direct (A ++ src)).
Proof.
  induction n as [|n IH]; intros src wc w A Hi Hp Hwc Hl Hn Hfull; cbn [append_loop].
  { destruct src; [|cbn in Hn; lia]. cbn. rewrite app_nil_r. by split. }
  destruct (Z.ltb_spec 0 (zlen src)) as [Hpos|Hpos].
  2: { assert (src = []) as -> by (apply zlen_nil_inv; pose proof (zlen_nonneg src); lia).
       unfold outcome, ret. rewrite app_nil_r. by split. }
  eapply (outcome_bind get _ _ (fun x y => x = w /\ y = w)); [by split|]. intros ? ? [-> ->].
  pose proof (wi_buf _ _ _ Hi) as Hb. destruct (AlignedBuffer_Append_ok src _ Hb) as (k & b & -> & Hk & Hb' & Hd & Hcur & Hcap & Hal).
  unfold next_piece. cbv iota. pose proof (ztake_zdrop k src) as Hsplit. pose proof (bo_size _ Hb) as Hsz.
  set (c := if wc then crc32c_Extend (buffered_data_crc32c_checksum_ w) (ztake k src) else buffered_data_crc32c_checksum_ w).
  set (w1 := set_buffered_crc c (set_buf b w)).
  assert (zlen (zdrop k src) = zlen src - k) as Hz by (rewrite zlen_zdrop; lia).
  assert (len_ok direct (A ++ ztake k src)) as Hl1.
  { eapply len_ok_prefix; [|exact Hl]. rewrite <- Hsplit at 2. rewrite app_assoc. by apply prefix_app_r. }
  destruct (winv_fill direct A w b c (ztake k src) Hi (fun _ => Hp) Hb' Hd Hal) as [Hi1 Ho1]; [|done|].
  { intros Hck. unfold c. rewrite Hwc, Hck, Hd, crc32c_Value_app. by rewrite (wi_crc _ _ _ Hi Hck). }
  eapply (outcome_bind (modify (set_buf b)) _ _ (fun _ x => x = set_buf b w)); [done|]. intros [] ? ->.
  eapply (outcome_bind (when wc _) _ _ (fun _ x => x = w1)). { unfold w1, c. by destruct wc. }
  intros [] ? ->. fold w1 in Hi1, Ho1.
  eapply (outcome_bind _ _ _ (fun _ w2 => winv direct (A ++ ztake k src) w2 /\ same_options w1 w2 /\
    (0 < zlen (zdrop k src) -> cursize_ (buf_ w2) < ab_capacity (buf_ w2)))).
  { destruct (Z.ltb_spec 0 (zlen (zdrop k src))) as [Hrest|Hrest].
    2: { unfold outcome, ret. split_and!; [done|done|lia]. }
    eapply outcome_conseq; [by apply Flush_spec|..].
    - intros [] w2 (Hi2 & _ & Ho2 & Hdr1 & Hdr2). split_and!; [done|done|]. intros _.
      rewrite Hdr1, Hdr2. change (pending_sync_ w1) with (pending_sync_ w). rewrite Hp. cbn [buf_ w1 set_buffered_crc set_buf].
      pose proof (bo_capacity _ Hb'). destruct direct; [|lia].
      replace (cursize_ b) with (ab_capacity b) by lia. rewrite (bo_pages _ Hb'). lia.
    - intros w2. apply failed_prefix. rewrite <- Hsplit at 2. rewrite app_assoc. by apply prefix_app_r. }
  intros [] w2 (Hi2 & Ho2 & Hroom). assert (same_options w w2) as Ho by (by etrans). destruct Ho as (? & ? & Hp2 & Hv & Hw & ?).
  eapply outcome_conseq; [eapply (IH (zdrop k src) wc w2 (A ++ ztake k src) Hi2)|..].
  - congruence.
  - rewrite Hwc. unfold checks. by rewrite Hv, Hw.
  - by rewrite <- app_assoc, Hsplit.
  - destruct (decide (cursize_ (buf_ w) = ab_capacity (buf_ w))); unfold zlen in *; lia.
  - intros E Hr. specialize (Hroom Hr). lia.
  - intros [] w' [Hi' Ho']. rewrite <- app_assoc, Hsplit in Hi'. split; [done|]. by repeat (etrans; [eassumption|]).
  - by rewrite <- app_assoc, Hsplit.
Qed.
Lemma enlarge_loop_spec direct A n : forall cap left d w E,
  winv direct A w -> pending_sync_ w = true -> ab_capacity (buf_ w) <= cap -> max_buffer_size_ w <= cap * 2 ^ Z.of_nat n ->
  outcome (enlarge_loop fresh n cap left d) w (fun _ w' => winv direct A w' /\ same_options w w') E.
Proof.
  induction n as [|n IH]; intros cap left d w E Hi Hp Hcap Hn; cbn [enlarge_loop];
    (eapply (outcome_bind get _ _ (fun x y => x = w /\ y = w)); [by split|]; intros ? ? [-> ->]);
    (destruct (Z.ltb_spec cap (max_buffer_size_ w)); [|by split]); [lia|].
  pose proof (wi_buf _ _ _ Hi) as Hb. destruct (wi_max _ _ _ Hi) as [Hm Hm']. pose proof Hb as [Ba Bc _ _ Bs].
  pose proof (alignment_range _ Ba). cbv zeta. rewrite (u64_small (cap * 2)) by lia.
  set (cap' := Z.min (cap * 2) (max_buffer_size_ w)). destruct (_ || _).
  - destruct (AllocateNewBuffer_ok fresh cap' _ Hb) as (Hb' & Hd & _ & _ & Hal); [lia|lia|lia|]. set (b' := AllocateNewBuffer _ _ _ _ _ _) in *.
    destruct (winv_fill direct A w b' (buffered_data_crc32c_checksum_ w) [] Hi (fun _ => Hp) Hb') as [Hi' Ho'].
    + by rewrite app_nil_r.
    + done.
    + intros Hck. rewrite Hd. by apply (wi_crc _ _ _ Hi).
    + rewrite app_nil_r. apply (wi_len _ _ _ Hi).
    + by rewrite app_nil_r in Hi'.
  - apply IH; [done|done|lia|]. rewrite Nat2Z.inj_succ, Z.pow_succ_r in Hn by lia. lia.
Qed.

(** Data too large for the buffer goes to the file at once. *)
Lemma write_through_spec A w data op (c : option Z) :
  winv false A w -> ab_data (buf_ w) = [] -> zlen data < 2 ^ 32 ->
  match c with Some v => v = crc32c_Value data | None => True end ->
  outcome (match c with
           | Some v => modify (set_buffered_crc v) ;; WriteBufferedWithChecksum data op
           | None => WriteBuffered data op
           end) w (fun _ w' => winv false (A ++ data) w' /\ same_options w w') (leaves false (A ++ data)).
Proof.
  intros Hi Hd Hlen Hc. destruct (winv_buffered _ _ Hi) as (D & Hf & HA). rewrite Hd, app_nil_r in HA. subst D.
  pose proof (wi_error _ _ _ Hi) as He. destruct c as [v|].
  - eapply (outcome_bind (modify _) _ _ (fun _ x => x = set_buffered_crc v w)); [done|]. intros [] ? ->.
    eapply outcome_conseq; [by apply (WriteBufferedWithChecksum_spec _ _ _ A (A ++ data))|..|done].
    intros [] w' [Hf' Hcl]. destruct (flushed_buffered A (A ++ data) w w') as (? & _ & ? & _); done.
  - eapply outcome_conseq; [by apply (WriteBuffered_spec _ _ _ A (A ++ data))|..|done].
    intros [] w' [Hf' Hcl]. destruct (flushed_buffered A (A ++ data) w w') as (? & _ & ? & _); done.
Qed.

Definition crc_given (crc : Z) (data : bytes) : Prop := crc = 0 \/ crc = crc32c_Value data.

Lemma append_data_spec direct A w data crc op :
  winv direct A w -> pending_sync_ w = true -> zlen data < 2 ^ 32 -> len_ok direct (A ++ data) -> crc_given crc data ->
  (direct = false -> ab_room (buf_ w) < zlen data -> ab_data (buf_ w) = []) ->
  outcome (append_data data crc op direct) w (fun _ w' => winv direct (A ++ data) w' /\ same_options w w') (leaves direct (A ++ data)).
Proof.
  intros Hi Hp Hlen Hl Hcrc Hroom. pose proof (wi_buf _ _ _ Hi) as Hb. pose proof (bo_size _ Hb). pose proof (bo_capacity _ Hb).
  eapply (outcome_bind get _ _ (fun x y => x = w /\ y = w)); [by split|]. intros ? ? [-> ->]. cbv zeta. fold (checks w).
  assert (forall wc, wc = checks w -> outcome (append_loop (S (length data)) data wc op) w
    (fun _ w' => winv direct (A ++ data) w' /\ same_options w w') (leaves direct (A ++ data))) as Hloop.
  { intros wc Hwc. eapply outcome_conseq; [apply append_loop_spec; (done || lia)|done|apply failed_leaves]. }
  destruct (checks w && negb (crc =? 0)) eqn:E.
  - apply andb_true_iff in E as [Hck E%negb_true_iff%Z.eqb_neq]. destruct Hcrc as [?|Hcrc]; [done|].
    destruct (Z.leb_spec (zlen data) (ab_room (buf_ w))) as [Hfit|Hfit].
    + rewrite orb_true_r. destruct (AlignedBuffer_Append_ok data _ Hb) as (k & b & -> & Hk & Hb' & Hd & _ & _ & Hal).
      rewrite ab_room_eq in Hfit by done. rewrite Z.min_l in Hk by lia. subst k. rewrite ztake_all in Hd by lia. unfold outcome. cbn.
      rewrite Z.eqb_refl. cbn. apply winv_fill; try done. intros _. rewrite Hd, (wi_crc _ _ _ Hi Hck), Hcrc.
      apply crc32c_Value_combine. lia.
    + rewrite orb_false_r. destruct direct; [by apply Hloop|]. apply (write_through_spec A w data op (Some crc)); auto.
  - destruct direct; [by apply Hloop|]. cbn [orb]. destruct (Z.leb_spec (zlen data) (ab_capacity (buf_ w))); [by apply Hloop|].
    assert (ab_data (buf_ w) = []) as Hd by (apply Hroom; [done|]; rewrite ab_room_eq by done; lia).
    destruct (checks w); [by apply (write_through_spec A w data op (Some _))|by apply (write_through_spec A w data op None)].
Qed.
(** ** The operations *)

Lemma u64_add_l x y : u64 (u64 x + y) = u64 (x + y).
Proof. unfold u64, wrap. by rewrite Zplus_mod_idemp_l. Qed.

Definition fw_inv (direct verify : bool) (A : bytes) w : Prop :=
  winv direct A w /\ filesize_ w = u64 (zlen A) /\ perform_data_verification_ w = verify.

Lemma winv_pending direct A w : winv direct A w -> winv direct A (set_pending true w).
Proof.
  intros [He Hb Hm Hl Hc (P & t & HA & Hf & Ht & Hn)]. split; try done. exists P, t. split_and!; try done.
  intros E. by destruct (Hn E).
Qed.

Lemma winv_prepare direct A w o n f :
  winv direct A w -> writable_file_ w = Held f -> winv direct A (set_file (Held (fs_PrepareWrite o n f)) w).
Proof.
  intros Hi Hf. eapply winv_keeps; [exact Hi|by repeat split|]. intros D (f0 & Hf0 & Hfi & <- & <-).
  assert (f0 = f) as -> by congruence. destruct (fs_prepare_ok o n f Hfi) as (? & ? & ?). eexists. by split_and!.
Qed.

Lemma winv_filesize direct A w n : winv direct A w -> winv direct A (set_filesize n w).
Proof. intros [He Hb Hm Hl Hc Hd]. by split. Qed.

Lemma make_room_spec direct A w left op :
  winv direct A w -> pending_sync_ w = true ->
  outcome (make_room fresh left op direct) w
    (fun _ x => winv direct A x /\ same_options w x /\ (direct = false -> ab_room (buf_ x) < left -> ab_data (buf_ x) = []))
    (failed direct A).
Proof.
  intros Hi Hp. eapply (outcome_bind get _ _ (fun x y => x = w /\ y = w)); [by split|]. intros ? ? [-> ->].
  eapply (outcome_bind (when _ _) _ _ (fun _ x => winv direct A x /\ same_options w x)).
  { destruct (_ <? _); cbn [when]; [|by split]. apply (enlarge_loop_spec direct A); [done|done|done|].
    destruct (wi_max _ _ _ Hi). pose proof (bo_capacity _ (wi_buf _ _ _ Hi)). pose proof (alignment_range _ (bo_align _ (wi_buf _ _ _ Hi))).
    change (2 ^ Z.of_nat 64) with (2 ^ 64). nia. }
  intros [] w2 [Hi2 Ho2]. eapply (outcome_bind get _ _ (fun x y => x = w2 /\ y = w2)); [by split|]. intros ? ? [-> ->].
  pose proof (zlen_ab_data _ (wi_buf _ _ _ Hi2)) as Hd2. pose proof (bo_size _ (wi_buf _ _ _ Hi2)).
  destruct (negb direct && _ && _) eqn:E; cbn [when].
  - eapply outcome_conseq; [apply or_error_failed; eapply outcome_conseq; [by apply Flush_spec|intros ? ? HQ; exact HQ|apply failed_leaves]|..|done].
    intros [] w3 (Hi3 & (P' & _ & _ & Hs) & Ho3 & _). split_and!; [done|by etrans|]. intros Hd _. by apply Hs.
  - split_and!; [done|done|]. intros -> Hr. apply zlen_nil_inv. cbn in E.
    destruct (Z.ltb_spec (ab_room (buf_ w2)) left); [|lia]. cbn in E. apply Z.ltb_ge in E. lia.
Qed.

Lemma Append_spec direct verify A w data crc op :
  fw_inv direct verify A w -> zlen data < 2 ^ 32 -> len_ok direct (A ++ data) -> crc_given crc data ->
  outcome (FileWriter_Append fresh data crc op) w
    (fun _ w' => fw_inv direct verify (A ++ data) w' /\ pending_sync_ w' = true) (failed direct (A ++ data)).
Proof.
  intros (Hi & Hsz & Hver) Hlen Hl Hcrc. apply outcome_unless; [apply (wi_error _ _ _ Hi)|]. cbv zeta.
  set (w0 := set_generator (gen_Update data <$> checksum_generator_ w) (checksum_finalized_ w) (set_pending true w)).
  eapply (outcome_bind (modify _) _ _ (fun _ x => x = set_pending true w)); [done|]. intros [] ? ->.
  eapply (outcome_bind (modify _) _ _ (fun _ x => x = w0)); [done|]. intros [] ? ->.
  eapply (outcome_bind get _ _ (fun x y => x = w0 /\ y = w0)); [by split|]. intros ? ? [-> ->].
  assert (winv direct A w0) as Hi0 by (eapply winv_keeps; [by apply winv_pending|by repeat split|done]).
  destruct (winv_file _ _ _ Hi0) as (f & Hf & _ & _). set (w1 := set_file (Held (fs_PrepareWrite (filesize_ w0) (zlen data) f)) w0).
  eapply (outcome_bind (on_fs _) _ _ (fun _ x => x = w1)); [by apply (outcome_fs _ _ f _ _ Hf)|]. intros [] ? ->.
  assert (winv direct A w1) as Hi1 by by apply winv_prepare. destruct (wi_data _ _ _ Hi1) as (P & t & _ & Hf1 & _).
  eapply (outcome_bind use_direct_io _ _ (fun d x => d = direct /\ x = w1)); [by eapply direct_spec|]. intros ? ? [-> ->].
  assert (same_options w0 w1) as Ho1 by by repeat split.
  eapply outcome_bind. { eapply outcome_conseq; [by apply make_room_spec|intros ? ? HQ; exact HQ|]. intros ?. apply failed_prefix. by apply prefix_app_r. }
  intros [] w3 (Hi3 & Ho3 & Hd3). assert (pending_sync_ w3 = true) as Hp3 by by destruct Ho3 as (_ & _ & -> & _).
  eapply outcome_bind; [by apply or_error_failed, (append_data_spec direct A)|]. intros [] w4 [Hi4 Ho4].
  assert (same_options w0 w4) as (_ & Hs4 & Hp4 & Hv4 & _) by (by repeat (etrans; [eassumption|])).
  unfold outcome, modify. split; [|done]. split_and!; [by apply winv_filesize| |by cbn; rewrite Hv4; exact Hver]. cbn. rewrite Hs4. cbn. by rewrite Hsz, u64_add_l, zlen_app.
Qed.

Definition in_file (A : bytes) w : Prop := exists f, writable_file_ w = Held f /\ fs_file f = A.

Lemma winv_synced direct A w : winv direct A w -> settled direct A w -> winv direct A (set_pending false w).
Proof.
  intros [He Hb Hm Hl Hc (P & t & HA & Hf & Ht & Hn)] (P' & HA' & Hf' & _). split; try done.
  assert (P' = P) as -> by (eapply (inj (.++ ab_data (buf_ w))); congruence).
  exists P, (ab_data (buf_ w)). split_and!; try done. intros E. by destruct (Hn E).
Qed.

Lemma settled_buffered A w : settled false A w -> has_file false A w.
Proof. intros (P & HA & Hf & Hd). rewrite (Hd eq_refl), app_nil_r in HA. subst A. unfold file_bytes in Hf. by rewrite app_nil_r in Hf. Qed.

Lemma Sync_spec direct verify A w use_fsync :
  fw_inv direct verify A w ->
  outcome (FileWriter_Sync use_fsync) w
    (fun _ w' => fw_inv direct verify A w' /\ settled direct A w' /\ (direct = false -> pending_sync_ w = true -> in_file A w'))
    (failed direct A).
Proof.
  intros (Hi & Hsz & Hver). apply outcome_unless; [apply (wi_error _ _ _ Hi)|].
  eapply outcome_bind; [apply or_error_failed; eapply outcome_conseq; [by apply Flush_spec|intros ? ? HQ; exact HQ|apply failed_leaves]|].
  intros [] w1 (Hi1 & Hs1 & (_ & Hz1 & Hp1 & Hv1 & _) & _). pose proof Hs1 as (P & _ & Hf1 & _).
  eapply (outcome_bind use_direct_io _ _ (fun d x => d = direct /\ x = w1)); [by eapply direct_spec|]. intros ? ? [-> ->].
  eapply (outcome_bind get _ _ (fun x y => x = w1 /\ y = w1)); [by split|]. intros ? ? [-> ->].
  eapply (outcome_bind (when _ _) _ _ (fun _ x => winv direct A x /\ settled direct A x /\ filesize_ x = u64 (zlen A) /\
    perform_data_verification_ x = verify /\ (direct = false -> pending_sync_ w = true -> in_file A x))).
  - rewrite Hp1. destruct (negb direct && pending_sync_ w) eqn:E; cbn [when].
    2: { split_and!; [done|done|congruence|congruence|]. intros -> Hp. by rewrite Hp in E. }
    destruct direct; [done|]. destruct (winv_file _ _ _ Hi1) as (f & Hf & Hfi & Hu).
    pose proof (fs_sync_ok use_fsync f Hfi) as Hok.
    eapply outcome_conseq; [apply or_error_failed, (quiet_call false A w1 _ f); [done|done|]|..|done].
    + destruct ((if use_fsync then fs_Fsync else fs_Sync) f) as [[] f'|e f'|]; naive_solver.
    + intros [] x (f' & Hsync & -> & Hk & Hfile). rewrite Hsync in Hok. destruct Hok as (_ & _ & Hff & _).
      split_and!; [by eapply winv_keeps|by eapply settled_keeps|cbn; congruence|cbn; congruence|]. intros _ _. exists f'. split; [done|].
      apply settled_buffered in Hs1 as (f0 & Hf0 & _ & _ & HA). congruence.
  - intros [] x (Hi' & Hs' & Hz' & Hv' & Hin). unfold outcome, modify. split_and!; [by split_and!; [apply winv_synced|..]|done|done].
Qed.

(** A call whose outcome does not matter. *)
Lemma outcome_any {A B} (m : M F A) (k : Status + A -> M FW B) w f Q E :
  writable_file_ w = Held f -> (forall s, m f = Stuck s -> fs_waits) ->
  (forall r f', outcome (k r) (set_file (Held f') w) Q E) -> outcome (bind (attempt (on_fs m)) k) w Q E.
Proof.
  intros Hf Hs Hk. unfold outcome, bind, attempt, on_fs in *. rewrite Hf. destruct (m f); [apply Hk|apply Hk|by eapply Hs].
Qed.

Lemma close_release_failed s w Q :
  ok s = false -> (exists f, writable_file_ w = Held f) -> outcome (close_release s) w Q (fun w' => seen_error_ w' = true).
Proof.
  intros Hs (f & Hf). unfold close_release. eapply outcome_any; [done|by apply fs_close_answers|].
  intros r f'. unfold outcome, first_error. rewrite Hs. cbn. by rewrite Hs.
Qed.

Lemma close_truncate_failed s w E :
  ok s = false -> (exists f, writable_file_ w = Held f) ->
  outcome (close_truncate s) w (fun s' w' => ok s' = false /\ exists f, writable_file_ w' = Held f) E.
Proof.
  intros Hs (f & Hf). unfold close_truncate.
  eapply (outcome_bind use_direct_io _ _ (fun _ x => exists f, writable_file_ x = Held f)).
  { apply (outcome_fs _ _ f _ _ Hf). cbn. eauto. }
  intros direct w1 (f1 & Hf1). destruct direct; [|unfold outcome, ret; eauto].
  eapply (outcome_bind get _ _ (fun x y => y = w1)); [done|]. intros x ? ->.
  eapply outcome_any; [done|by apply fs_truncate_answers|]. intros [e|[]] f2.
  - unfold outcome, first_error. cbn. rewrite Hs. eauto.
  - eapply outcome_any; [done|by apply fs_fsync_answers|]. intros r f3. unfold outcome, first_error. cbn. rewrite Hs. eauto.
Qed.

Definition released (A : bytes) w : Prop := exists f, writable_file_ w = Released f /\ fs_file f = A.

Lemma close_release_ok direct A w :
  has_file direct A w -> outcome (close_release OK) w (fun _ w' => released A w') (fun w' => seen_error_ w' = true).
Proof.
  intros (f & Hf & Hi & Hu & HA). unfold close_release.
  eapply outcome_attempt with (Q1 := fun _ x => in_file A x) (E1 := fun x => True).
  - apply (outcome_fs _ _ f _ _ Hf). pose proof (fs_close_ok f Hi) as Hc. destruct (fs_Close f) as [[] f'|e f'|]; [|naive_solver|done].
    exists f'. split; [done|congruence].
  - intros [] x (f' & Hf' & Hff). exists f'. unfold release_file. cbn.
    rewrite Hf'. by case_match.
  - intros e x He _. unfold outcome, bind, modify, first_error. cbn [status_of]. change (ok OK) with true. cbv iota. by rewrite He.
Qed.

Lemma close_truncate_ok direct A w :
  settled direct A w -> filesize_ w = u64 (zlen A) -> len_ok direct A ->
  outcome (close_truncate OK) w (fun s' w' => (exists f, writable_file_ w' = Held f) /\ (ok s' = true -> s' = OK /\ has_file direct A w')) (fun _ => False).
Proof.
  intros Hs Hz Hl. pose proof Hs as (P & HA & Hf & _). unfold close_truncate.
  eapply (outcome_bind use_direct_io _ _ (fun d x => d = direct /\ x = w)); [by eapply direct_spec|]. intros ? ? [-> ->].
  destruct direct.
  2: { apply settled_buffered in Hs. unfold outcome, ret. split; [|done]. destruct Hs as (f & ? & _). eauto. }
  eapply (outcome_bind get _ _ (fun x y => x = w /\ y = w)); [by split|]. intros ? ? [-> ->].
  destruct Hf as (f & Hf & Hi & Hu & HD). set (al := ab_alignment (buf_ w)) in *. set (d := ab_data (buf_ w)) in *.
  unfold file_bytes, pad_page in HD. rewrite app_assoc, <- HA in HD.
  eapply outcome_attempt with (Q1 := fun _ x => has_file true A x) (E1 := fun x => exists f, writable_file_ x = Held f).
  - apply (outcome_fs _ _ f _ _ Hf). specialize (Hl eq_refl). rewrite Hz, u64_small by (pose proof (zlen_nonneg A); lia). assert (0 <= zlen A <= zlen (fs_data f)) as Hr.
    { rewrite HD, zlen_app. pose proof (zlen_nonneg A). pose proof (zlen_nonneg (zeros (Roundup (zlen d) al - zlen d))). lia. }
    pose proof (fs_truncate_ok (zlen A) f Hi Hu Hr) as Ht. destruct (fs_Truncate _ f) as [[] f'|e f'|]; [|naive_solver|done].
    destruct Ht as (? & Hd' & ?). exists f'. rewrite HD, ztake_app in Hd'. by split_and!.
  - intros [] x (f1 & Hf1 & Hi1 & Hu1 & HD1).
    eapply outcome_attempt with (Q1 := fun _ x => has_file true A x) (E1 := fun x => exists f, writable_file_ x = Held f).
    + apply (outcome_fs _ _ f1 _ _ Hf1). pose proof (fs_sync_ok true f1 Hi1) as Ht. cbn in Ht.
      destruct (fs_Fsync f1) as [[] f'|e f'|]; [|naive_solver|done]. destruct Ht as (? & Hd' & _ & ?). exists f'. split_and!; try done; congruence.
    + intros [] y Hy. unfold outcome, first_error. cbn. split; [|done]. destruct Hy as (f' & ? & _). eauto.
    + intros e y He Hy. unfold outcome, bind, ret, first_error. change (ok OK) with true. split; [done|]. cbn [status_of]. cbv iota. by rewrite He.
  - intros e x He Hx. unfold outcome, bind, ret, first_error. change (ok OK) with true. split; [done|]. cbn [status_of]. cbv iota. by rewrite He.
Qed.

(** ** Closing *)

Lemma Close_spec direct verify A w :
  fw_inv direct verify A w -> outcome FileWriter_Close w (fun _ w' => released A w') (fun w' => seen_error_ w' = true).
Proof.
  intros (Hi & Hz & Hver). destruct (winv_file _ _ _ Hi) as (f & Hf & _). unfold FileWriter_Close.
  eapply (outcome_bind get _ _ (fun x y => x = w /\ y = w)); [by split|]. intros ? ? [-> ->].
  rewrite (wi_error _ _ _ Hi), Hf. eapply outcome_attempt; [by apply Flush_spec|..].
  - intros [] w1 (Hi1 & Hs1 & (_ & Hz1 & _) & _). cbn [status_of].
    eapply outcome_bind; [eapply outcome_conseq; [apply (close_truncate_ok direct A); [done|congruence|apply (wi_len _ _ _ Hi)]|intros ? ? HQ; exact HQ|done]|].
    intros s w2 [Hf2 Hs2]. destruct (ok s) eqn:E; [|by apply close_release_failed]. destruct (Hs2 eq_refl) as [-> ?]. by eapply close_release_ok.
  - intros e w1 He [(f1 & Hf1 & _) _]. cbn [status_of].
    eapply outcome_bind; [apply close_truncate_failed; eauto|]. intros s w2 [Hs Hf2]. by apply close_release_failed.
Qed.
(** ** Padding *)

Lemma Pad_loop_spec direct op n : forall left w A,
  winv direct A w -> (direct = true -> pending_sync_ w = true) -> perform_data_verification_ w = false ->
  0 <= left -> len_ok direct (A ++ zeros left) -> left <= Z.of_nat n ->
  (cursize_ (buf_ w) = ab_capacity (buf_ w) -> 0 < left -> left < Z.of_nat n) ->
  outcome (Pad_loop n left op) w (fun _ w' => winv direct (A ++ zeros left) w' /\ same_options w w') (failed direct (A ++ zeros left)).
Proof.
  induction n as [|n IH]; intros left w A Hi Hp Hv Hpos Hl Hn Hfull; cbn [Pad_loop];
    (destruct (Z.ltb_spec 0 left); [|assert (left = 0) as -> by lia; cbn; rewrite app_nil_r; by split]); [lia|].
  eapply (outcome_bind get _ _ (fun x y => x = w /\ y = w)); [by split|]. intros ? ? [-> ->]. cbv zeta.
  pose proof (wi_buf _ _ _ Hi) as Hb. pose proof (bo_size _ Hb). rewrite ab_room_eq by done. set (k := Z.min _ left).
  destruct (PadWith_ok k _ Hb) as (Hb' & Hd & Hcur); [lia|]. set (w1 := set_buf (PadWith k (buf_ w)) w).
  assert (zeros left = zeros k ++ zeros (left - k)) as Hsplit.
  { unfold zeros. rewrite <- replicate_add. f_equal. lia. }
  destruct (winv_fill direct A w (PadWith k (buf_ w)) (buffered_data_crc32c_checksum_ w) (zeros k) Hi Hp Hb' Hd eq_refl) as [Hi1 Ho1].
  { unfold checks. by rewrite Hv. }
  { eapply len_ok_prefix; [|exact Hl]. rewrite Hsplit, app_assoc. by apply prefix_app_r. }
  eapply (outcome_bind (modify _) _ _ (fun _ x => x = w1)); [done|]. intros [] ? ->.
  change (set_buffered_crc _ _) with w1 in Hi1, Ho1.
  eapply (outcome_bind (when _ _) _ _ (fun _ w2 => winv direct (A ++ zeros k) w2 /\ same_options w1 w2 /\
    (0 < left - k -> cursize_ (buf_ w2) < ab_capacity (buf_ w2)))).
  { destruct (Z.ltb_spec 0 (left - k)); cbn [when]; [|split_and!; [done|done|lia]].
    eapply outcome_conseq; [apply or_error_failed; eapply outcome_conseq; [by apply Flush_spec|intros ? ? HQ; exact HQ|apply failed_leaves]|..].
    - intros [] w2 (Hi2 & _ & Ho2 & Hdr1 & Hdr2). split_and!; [done|done|]. intros _. rewrite Hdr1, Hdr2.
      change (pending_sync_ w1) with (pending_sync_ w). cbn [buf_ w1 set_buf]. pose proof (bo_capacity _ Hb').
      destruct direct; [|lia]. rewrite (Hp eq_refl), Hcur. cbn in *. replace (cursize_ (buf_ w) + k) with (ab_capacity (buf_ w)) by lia.
      rewrite (bo_pages _ Hb). lia.
    - intros w2. apply failed_prefix. rewrite Hsplit, app_assoc. by apply prefix_app_r. }
  intros [] w2 (Hi2 & Ho2 & Hroom). assert (same_options w w2) as Ho by (by etrans). destruct Ho as (? & ? & Hp2 & Hv2 & ? & ?).
  eapply outcome_conseq; [eapply (IH (left - k) w2 (A ++ zeros k) Hi2)|..].
  - rewrite Hp2. done.
  - congruence.
  - lia.
  - by rewrite <- app_assoc, <- Hsplit.
  - destruct (decide (cursize_ (buf_ w) = ab_capacity (buf_ w))); lia.
  - intros E Hr. specialize (Hroom Hr). lia.
  - intros [] w' [Hi' Ho']. rewrite <- app_assoc, <- Hsplit in Hi'. split; [done|]. by repeat (etrans; [eassumption|]).
  - by rewrite <- app_assoc, <- Hsplit.
Qed.

(** Without verification of the data; see [pad_checksum_stale] for the checksum. *)
Lemma Pad_spec direct A w n op :
  fw_inv direct false A w -> (direct = true -> pending_sync_ w = true) -> 0 <= n -> len_ok direct (A ++ zeros n) ->
  outcome (FileWriter_Pad n op) w
    (fun _ w' => fw_inv direct false (A ++ zeros n) w' /\ pending_sync_ w' = true) (failed direct (A ++ zeros n)).
Proof.
  intros (Hi & Hz & Hver) Hp Hn Hl. apply outcome_unless; [apply (wi_error _ _ _ Hi)|].
  eapply (outcome_bind get _ _ (fun x y => x = w /\ y = w)); [by split|]. intros ? ? [-> ->]. cbv zeta.
  eapply outcome_bind; [apply (Pad_loop_spec direct op); (done || lia)|]. intros [] w1 [Hi1 (_ & Hs & _ & Hv1 & _)].
  unfold outcome. cbn. rewrite Hv1, Hver. pose proof (zlen_nonneg A). split; [split_and!|done].
  - by apply winv_filesize, winv_pending.
  - cbn. by rewrite Hs, Hz, u64_add_l, zlen_app, zlen_zeros by lia.
  - cbn. congruence.
Qed.
End writer.
