(* ===== verification/FileWriterOps.v ===== *)
(** * Using the file writer

    What a user of WritableFileWriter can rely on, for any sequence of appends, pads,
    flushes and syncs; and a file in memory, which checks the checksums it is handed. *)

From S2P Require Import Prelude Status Coding Crc32c CrcCombine MetaLog FileWriter FileWriterProps.

(** ** Sequences of calls *)

Inductive WriterOp :=
  | FwAppend (data : bytes) (crc32c_checksum : Z) (op : IOPriority)
  | FwPad (pad_bytes : Z) (op : IOPriority)
  | FwFlush (op : IOPriority)
  | FwSync (use_fsync : bool).

(** What a call adds to the file. *)
Definition op_bytes (o : WriterOp) : bytes :=
  match o with FwAppend data _ _ => data | FwPad n _ => zeros n | FwFlush _ | FwSync _ => [] end.
Definition ops_bytes (ops : list WriterOp) : bytes := concat (map op_bytes ops).

(** The checksum, if one is given, is that of the data.  Files that are padded are
    buffered, and their data is not verified. *)
Definition op_ok (direct verify : bool) (o : WriterOp) : Prop :=
  match o with
  | FwAppend data crc _ => zlen data < 2 ^ 32 /\ crc_given crc data
  | FwPad n _ => 0 <= n /\ direct = false /\ verify = false
  | FwFlush _ | FwSync _ => True
  end.

Section calls.
Context {F R G : Type} `{FSWritableFile F} `{RateLimiter R} `{FileChecksumGenerator G} (fresh : Z -> byte).

Definition writer_step (o : WriterOp) : M (FileWriter F R G) unit :=
  match o with
  | FwAppend data crc op => FileWriter_Append fresh data crc op
  | FwPad n op => FileWriter_Pad n op
  | FwFlush op => FileWriter_Flush op
  | FwSync use_fsync => FileWriter_Sync use_fsync
  end.
End calls.

Section writer.
Context {F R G : Type} `{fspec : FSWritableFileSpec F} `{lspec : RateLimiterSpec R} `{gen : FileChecksumGenerator G}.
Context (fresh : Z -> byte).
Abbreviation FW := (FileWriter F R G).
Implicit Types w : FW.

Lemma FileWriter_new_inv f max_buffer bytes_per_sync limiter g verify with_checksum :
  fs_inv f -> fs_data f = [] -> (exists k, 0 <= k <= 30 /\ fs_GetRequiredBufferAlignment f = 2 ^ k) ->
  0 < max_buffer -> max_buffer + fs_GetRequiredBufferAlignment f < 2 ^ 32 ->
  fw_inv (fs_use_direct_io f) verify []
    (FileWriter_new fresh f max_buffer bytes_per_sync limiter g verify with_checksum : FW).
Proof.
  intros Hi Hd Hal Hpos Hmax. unfold FileWriter_new.
  destruct (AlignedBuffer_new_ok fresh (fs_GetRequiredBufferAlignment f) (Z.min 65536 max_buffer) Hal) as (Hb & Hbd & Hba); [lia|lia|].
  set (b := AllocateNewBuffer _ _ _ _ _ _) in *. split_and!; [|done|done].
  split; cbn; rewrite ?Hba, ?Hbd; try done. exists [], []. split_and!; try done.
  exists f. split_and!; try done. unfold file_bytes, pad_page. rewrite Hd. destruct (fs_use_direct_io f); [|done].
  change (zlen []) with 0. pose proof (Roundup_spec 0 _ ltac:(lia) Hal) as [Hr Hm]. rewrite Z.mod_small in Hm by lia. by rewrite Hm.
Qed.

Lemma writer_step_spec direct verify A w o :
  fw_inv direct verify A w -> op_ok direct verify o -> len_ok direct (A ++ op_bytes o) ->
  outcome (writer_step fresh o) w (fun _ w' => fw_inv direct verify (A ++ op_bytes o) w') (failed direct (A ++ op_bytes o)).
Proof.
  intros Hi Ho Hl. destruct o as [data crc op|n op|op|b]; cbn [writer_step op_bytes op_ok] in *; rewrite ?app_nil_r.
  - destruct Ho as [Hlen Hcrc]. eapply outcome_conseq; [by apply Append_spec|by intros ? ? [? _]|done].
  - destruct Ho as (Hn & -> & ->). eapply outcome_conseq; [by apply Pad_spec|by intros ? ? [? _]|done].
  - destruct Hi as (Hi & Hz & Hv). eapply outcome_conseq; [by apply Flush_spec|..|done].
    intros [] w' (Hi' & _ & (_ & ? & _ & ? & _) & _). split_and!; [done|congruence..].
  - eapply outcome_conseq; [by eapply Sync_spec|by intros ? ? [? _]|done].
Qed.

Lemma writer_steps_spec direct verify ops : forall A w,
  fw_inv direct verify A w -> Forall (op_ok direct verify) ops -> len_ok direct (A ++ ops_bytes ops) ->
  outcome (forM ops (writer_step fresh)) w (fun _ w' => fw_inv direct verify (A ++ ops_bytes ops) w')
    (failed direct (A ++ ops_bytes ops)).
Proof.
  induction ops as [|o ops IH]; intros A w Hi Ho Hl; [by rewrite app_nil_r|]. apply Forall_cons in Ho as [Ho Hos].
  change (ops_bytes (o :: ops)) with (op_bytes o ++ ops_bytes ops) in *. rewrite app_assoc in *. set (g := (A ++ _) ++ _) in *.
  assert (A ++ op_bytes o `prefix_of` g) as Hg by (by apply prefix_app_r). pose proof (len_ok_prefix _ _ _ Hg Hl).
  eapply outcome_bind; [eapply outcome_conseq; [by apply (writer_step_spec direct verify A)|intros ? ? HQ; exact HQ|intros ?; by apply failed_prefix]|].
  intros [] w1 Hi1. by apply IH.
Qed.
End writer.

(** ** Properties *)


(** *** A file in memory *)

(** It refuses data whose checksum is not the one handed over. *)
Record MemFile := mkMemFile { mf_data : bytes; mf_direct : bool; mf_align : Z }.
Definition mf_set (b : bytes) (f : MemFile) : MemFile := mkMemFile b (mf_direct f) (mf_align f).
Definition handoff_matches (b : bytes) (ck : option bytes) : bool :=
  match ck with None => true | Some c => bool_decide (c = Crc32cHandoffChecksumCalculation b) end.
Definition mf_write (b : bytes) (ck : option bytes) (g : bytes -> bytes) : M MemFile unit :=
  if handoff_matches b ck then modify (fun f => mf_set (g (mf_data f)) f) else fail (Corruption "Data verification failed").

#[export] Instance mem_file : FSWritableFile MemFile := {
  fs_PrepareWrite _ _ f := f;
  fs_Append b ck := mf_write b ck (fun d => d ++ b);
  fs_PositionedAppend b off ck := mf_write b ck (splice off b);
  fs_Truncate n := modify (fun f => mf_set (ztake n (mf_data f)) f);
  fs_Flush := ret tt;
  fs_Sync := ret tt;
  fs_Fsync := ret tt;
  fs_RangeSync _ _ := ret tt;
  fs_Close := ret tt;
  fs_use_direct_io := mf_direct;
  fs_IsSyncThreadSafe _ := true;
  fs_GetRequiredBufferAlignment := mf_align;
  fs_GetIOPriority _ := IO_TOTAL
}.

Lemma handoff_ok_matches b ck : handoff_ok b ck -> handoff_matches b ck = true.
Proof. intros [->| ->]; [done|]. by apply bool_decide_eq_true. Qed.

#[export] Instance mem_file_spec : FSWritableFileSpec MemFile.
Proof.
  refine {| fs_inv _ := True; fs_waits := False; fs_file := mf_data; fs_data := mf_data |}; try done.
  - intros b ck f _ Hd _ Hc. cbn. unfold mf_write. by rewrite handoff_ok_matches.
  - intros b off ck f _ Hd _ _ Hc. cbn. unfold mf_write. by rewrite handoff_ok_matches.
  - by intros [] f.
Defined.

(** A rate limiter that allows 100 bytes at a time, and no file checksum. *)
#[export] Instance limit_100 : RateLimiter unit := {| RequestToken n _ _ r := (Z.min n 100, r) |}.
#[export] Instance limit_100_spec : RateLimiterSpec unit.
Proof. split. intros n al p r Hn. cbn. lia. Qed.
#[export] Instance no_file_checksum : FileChecksumGenerator unit := {| gen_Update _ g := g; gen_Finalize g := g |}.

Definition demo_writer (direct verify : bool) (align max_buffer : Z) : FileWriter MemFile unit unit :=
  FileWriter_new (fun _ => Byte.x00) (mkMemFile [] direct align) max_buffer 0 (Some tt) None verify true.
Definition demo_ops : list WriterOp :=
  [FwAppend (replicate 10 Byte.x61) 0 IO_TOTAL; FwAppend (replicate 40 Byte.x62) (crc32c_Value (replicate 40 Byte.x62)) IO_HIGH;
   FwSync false; FwAppend (replicate 300 Byte.x63) 0 IO_LOW; FwFlush IO_TOTAL; FwAppend [Byte.x64] 0 IO_TOTAL].


