(* ===== verification/ZonedFile.v ===== *)
(** * Files of ZenFS below RocksDB's file writer

    ZonedWritableFile as the file below WritableFileWriter: its methods, and that a
    buffered file that is neither sparse nor a log fulfils what the writer relies on. *)

From S2P Require Import Prelude Status Coding Device MemDevice Zone Zbd ZbdProps ZbdFrame ZoneFile ZoneFileProps FileWrite FileRead FileReadProps FileWriteProps WritableProps.
From S2P Require Import Crc32c MetaLog FileWriter FileWriterProps.

Section zoned.
Context {D L X : Type} `{be : ZonedBlockDeviceBackend D L} {szd : SZDOnceLog D L} {cfg : BuildConfig} {mw : MetadataWriter D L X}.

(** The status a call returns; only one that is not OK is an error. *)
Definition returned {S A} (m : M S A) : M S A := fun s =>
  match m s with Err e s' => Err (if ok e then IOError "" else e) s' | r => r end.

(** The methods of ZonedWritableFile; it leaves [PrepareWrite] as it is, which without
    [Allocate] does nothing, and takes no notice of checksums. *)
Definition zoned_file : FSWritableFile (FSt D L X * WFile) := {|
  fs_PrepareWrite _ _ p := p;
  fs_Append b _ := returned (WFile_Append b);
  fs_PositionedAppend b offset _ := returned (PositionedAppend b offset);
  fs_Truncate size := returned (Truncate size);
  fs_Flush := ret tt;
  fs_Sync := returned WFile_Sync;
  fs_Fsync := returned Fsync;
  fs_RangeSync offset nbytes := returned (RangeSync offset nbytes);
  fs_Close := returned CloseInternal;
  fs_use_direct_io p := negb (wf_buffered p.2);
  fs_IsSyncThreadSafe _ := true;
  fs_GetRequiredBufferAlignment _ := block_sz_;
  fs_GetIOPriority _ := IO_TOTAL
|}.
#[export] Existing Instance zoned_file.
End zoned.

Section zoned_spec.
Context {D L X : Type} `{spec : BackendSpec D L} {szd : SZDOnceLog D L} {cfg : BuildConfig}
  {mw : MetadataWriter D L X} {mws : MetadataWriterSpec D L X}.
Implicit Types s : FSt D L X.
Implicit Types p : FSt D L X * WFile.

(** ** Closing *)

Definition is_open p : Prop := wf_open p.2 = true.

Lemma open_on_file {A} (m : M (FSt D L X) A) : preserves is_open (on_file m).
Proof. intros p Hp. unfold on_file, zoom. by destruct (m p.1). Qed.

Lemma open_FlushBuffer : preserves is_open FlushBuffer.
Proof.
  unfold FlushBuffer. apply preserves_bind; [apply preserves_gets|]. intros w. destruct (_ =? _); [apply preserves_ret|].
  apply preserves_bind; [apply open_on_file|]. intros f. apply preserves_bind; [destruct (is_sparse_ f); apply open_on_file|].
  intros _. by apply preserves_modify.
Qed.

Lemma open_BufferedWrite_loop n : forall data, preserves is_open (BufferedWrite_loop n data).
Proof.
  induction n as [|n IH]; intros data; cbn [BufferedWrite_loop]; (destruct (_ =? _); [apply preserves_ret|]); [apply preserves_stuckM|].
  apply preserves_bind; [apply preserves_gets|]. intros w. cbv zeta.
  apply preserves_bind; [destruct (_ =? _); [apply open_FlushBuffer|apply preserves_ret]|]. intros _.
  apply preserves_bind; [apply preserves_gets|]. intros w'. apply preserves_bind; [apply open_on_file|]. intros _.
  apply preserves_bind; [by apply preserves_modify|]. intros _. apply IH.
Qed.

Lemma open_Append b : preserves is_open (WFile_Append b).
Proof.
  unfold WFile_Append. apply preserves_bind; [apply preserves_gets|]. intros w.
  destruct (wf_buffered w); [apply open_BufferedWrite_loop|]. apply preserves_bind; [apply open_on_file|]. intros _. by apply preserves_modify.
Qed.

Lemma open_DataSync : preserves is_open DataSync.
Proof.
  unfold DataSync. apply preserves_bind; [apply open_on_file|]. intros f. apply preserves_bind.
  { destruct (is_wal_ f); [|apply preserves_ret]. apply preserves_bind; [apply preserves_attempt, open_on_file|]. intros _. apply preserves_ret. }
  intros _. apply preserves_bind; [apply preserves_gets|]. intros w. destruct (wf_buffered w); [|apply open_on_file].
  apply preserves_bind; [apply open_FlushBuffer|]. intros _. apply preserves_bind; [apply open_on_file|]. intros f'.
  destruct (negb _); [apply open_on_file|apply preserves_ret].
Qed.

(** Closing keeps the contents. *)
Lemma CloseWR_contents s :
  file_inv s -> Forall (stored_extent (f_zbd s)) (extents_ (f_file s)) ->
  match CloseWR s with Ok _ s' | Err _ s' => file_contents s' = file_contents s | Stuck _ => True end.
Proof.
  intros Hi Hes. unfold CloseWR. unfold bind at 1, mod_file, modify. set (s1 := mkFSt _ _ _ _).
  pose proof (persist_step s1 (fi_dev _ Hi) (fi_writer _ Hi)) as Hp. unfold PersistMetadata. unfold bind at 1.
  assert (forall s2, meta_step (f_zbd s1) (f_zbd s2) -> (exists n t, f_file s2 = set_nr_synced_extents n (set_m_time t (f_file s1))) ->
    stored none (f_zbd s) (f_zbd s2) /\ dev_ok (f_zbd s2) /\ file_contents s2 = file_contents s) as Hkeep.
  { intros s2 Hms (n & t & Hf). destruct (meta_step_stored (f_zbd s) (f_zbd s2) (fi_dev _ Hi) Hms) as [Hst Hok]. split_and!; [done|done|].
    unfold file_contents. rewrite Hf. by apply (contents_step none). }
  destruct (Persist s1) as [[] s2|e s2|]; [| |done]; destruct Hp as (Hms & _ & _ & Hf);
    destruct (Hkeep s2 Hms Hf) as (Hst & Hok & Hc); [|done].
  unfold ReleaseWRLock. unfold bind at 1. unfold bind at 1, get_file, gets. destruct (open_for_wr_ (f_file s2)); [|done].
  unfold mod_file, modify. set (s3 := mkFSt (f_zbd s2) (set_open_for_wr false (f_file s2)) (f_buf s2) (f_ctx s2)).
  assert (file_contents s3 = file_contents s) as Hc3 by done. destruct Hf as (n & t & Hf).
  assert (is_wal_ (f_file s3) = false) as Hwal by (cbn; rewrite Hf; apply Hi).
  destruct (active_zone_ (f_file s3)) as [z|] eqn:Hz.
  - assert (active_zone_ (f_file s) = Some z) as Hz0 by (cbn in Hz; by rewrite Hf in Hz).
    destruct (fi_active _ Hi z Hz0) as (Hin & zn & Hzn & _). pose proof Hms as (_ & _ & _ & _ & _ & Hh & _).
    assert (zone_heap (f_zbd s3) !! z = Some zn) as Hzn3 by (cbn; rewrite Hh; [done|by apply (fi_dev _ Hi)]).
    pose proof (CloseActiveZone_frame s3 z zn Hok Hwal Hz Hzn3) as Hca.
    assert (forall d, frame (f_zbd s3) d -> contents (zbd_be_ d) (extents_ (f_file s3)) = file_contents s) as Hend.
    { intros d Hfr. rewrite <- Hc3. apply (contents_step none).
      - apply kept_stored; [apply Hok|apply Hfr].
      - cbn. rewrite Hf. eapply Forall_impl; [exact Hes|]. intros e. by apply (stored_extent_step none). }
    destruct (CloseActiveZone s3); [| |done]; destruct Hca as [Hfr ->]; by apply Hend.
  - unfold CloseActiveZone. unfold bind at 1, get_file, gets. rewrite Hwal, Hz. done.
Qed.

(** ** The promises *)

Definition zoned_inv p : Prop := writer_inv p /\ is_open p.

(** Outcomes of a call that ends with [goal] accepted. *)
Lemma returned_step (m : M (FSt D L X * WFile) unit) op p :
  zoned_inv p -> zlen (op_data op) < 2 ^ 32 -> m p = exec_op op p -> preserves is_open m ->
  match returned m p with
  | Ok _ p' => zoned_inv p' /\ written p' = written p ++ op_data op /\ wf_buffered p'.2 = true /\
      (op = OpSync -> file_contents p'.1 = written p)
  | Err e p' => ok e = false /\ file_contents p'.1 `prefix_of` written p ++ op_data op
  | Stuck _ => True
  end.
Proof.
  intros [Hi Ho] Hu Hm Hopen. unfold returned. specialize (Hopen p Ho).
  pose proof (w_step (WritableFile := ZonedWritableFile_impl) op p Hi Hu) as Hstep. rewrite <- Hm in Hstep.
  destruct (m p) as [[] p'|e p'|]; [| |done].
  - destruct Hstep as (Hi' & Hs & _ & _). split_and!; [by split| |apply (wi_buffered _ Hi')|].
    + unfold written. inversion Hs as [? ? ? ? ? _ E|c q E1 E2 E3]; cbn [op_data]; [by rewrite <- app_assoc|].
      by rewrite !app_nil_r.
    + intros ->. inversion Hs. done.
  - destruct Hstep as [[_ Hp] _]. split; [by destruct (ok e) eqn:E|]. unfold written. by rewrite <- app_assoc.
Qed.

Lemma Fsync_eq p : zoned_inv p -> Fsync p = match DataSync p with Ok _ p' => Ok tt p' | Err e p' => Err e p' | Stuck k => Stuck k end.
Proof.
  intros [Hi Ho]. unfold Fsync. unfold bind at 1. pose proof (DataSync_post p Hi) as Hpost.
  destruct (DataSync p) as [[] p'|e p'|]; [|done..]. destruct Hpost as (Hi' & _).
  unfold bind at 1, wfile, gets. unfold bind at 1, on_file at 1, zoom, get_file, gets. rewrite (wi_buffered _ Hi'), (wi_sparse _ Hi').
  by destruct p'.
Qed.

Lemma DataSync_unit p : match DataSync p with Ok _ p' => Ok tt p' | Err e p' => Err e p' | Stuck k => Stuck k end = DataSync p.
Proof. by destruct (DataSync p) as [[]| |]. Qed.

(** A sync, by any of its names. *)
Lemma sync_call (m : M (FSt D L X * WFile) unit) p :
  zoned_inv p -> m p = DataSync p ->
  match returned m p with
  | Ok _ p' => zoned_inv p' /\ written p' = written p /\ file_contents p'.1 = written p /\ wf_buffered p'.2 = true
  | Err e p' => ok e = false /\ file_contents p'.1 `prefix_of` written p
  | Stuck _ => True
  end.
Proof.
  intros Hi Hm. pose proof (returned_step DataSync OpSync p Hi ltac:(done) eq_refl open_DataSync) as Hs. cbn [op_data] in Hs.
  rewrite app_nil_r in Hs. unfold returned in *. rewrite Hm. destruct (DataSync p) as [[] p'|e p'|]; [|done|done].
  destruct Hs as (? & ? & ? & Hc). split_and!; try done. by apply Hc.
Qed.

Lemma CloseInternal_call p :
  zoned_inv p ->
  match returned CloseInternal p with
  | Ok _ p' => file_contents p'.1 = written p
  | Err e p' => ok e = false /\ file_contents p'.1 `prefix_of` written p
  | Stuck _ => True
  end.
Proof.
  intros Hi. unfold returned, CloseInternal. unfold bind at 1, wfile, gets. destruct Hi as [Hi Ho]. rewrite Ho. cbn [negb].
  pose proof (sync_call DataSync p (conj Hi Ho) eq_refl) as Hs. unfold returned in Hs. unfold bind at 1.
  destruct (DataSync p) as [[] p1|e p1|]; [|done|done]. destruct Hs as ([Hi1 _] & _ & Hc & _).
  pose proof (CloseWR_contents p1.1 (wi_file _ Hi1) (wi_stored _ Hi1)) as Hcl. unfold bind at 1, on_file, zoom.
  destruct (CloseWR p1.1) as [[] s2|e s2|]; [by cbn; rewrite Hcl|split; [by destruct (ok e) eqn:E|by cbn; rewrite Hcl, Hc]|done].
Qed.

#[export] Instance zoned_file_spec : FSWritableFileSpec (FSt D L X * WFile).
Proof.
  refine {| fs_inv := zoned_inv; fs_waits := True; fs_file p := file_contents p.1; fs_data := written |}; try done.
  - intros b ck p Hi _ Hb _. cbn [fs_Append zoned_file fs_use_direct_io].
    pose proof (returned_step (WFile_Append b) (OpAppend b) p Hi Hb eq_refl (open_Append b)) as Hs.
    destruct (returned _ p) as [[] p'|e p'|]; [|done|done]. destruct Hs as (? & ? & -> & _). done.
  - intros b off ck p [Hi _] Hd. cbn in Hd. by rewrite (wi_buffered _ Hi) in Hd.
  - intros o n p Hi Hd. cbn [fs_RangeSync zoned_file fs_use_direct_io]. unfold RangeSync, returned at 1. unfold bind at 1, wfile, gets.
    destruct (_ <? _); [|by split_and!]. pose proof (sync_call DataSync p Hi eq_refl) as Hs. unfold returned in Hs.
    destruct (DataSync p) as [[] p'|e p'|]; [|done|done]. destruct Hs as (? & ? & _ & ->). done.
  - intros use_fsync p Hi. cbn [fs_Fsync fs_Sync zoned_file fs_use_direct_io]. rewrite (wi_buffered _ (proj1 Hi)).
    assert (forall m, m p = DataSync p -> match returned m p with
      | Ok _ p' => zoned_inv p' /\ written p' = written p /\ file_contents p'.1 = written p /\ negb (wf_buffered p'.2) = negb true
      | Err e p' => ok e = false /\ (negb true = false -> file_contents p'.1 `prefix_of` written p)
      | Stuck _ => True end) as Hs.
    { intros m Hm. pose proof (sync_call m p Hi Hm) as Hs. destruct (returned m p) as [[] p'|e p'|]; [|naive_solver|done].
      destruct Hs as (? & ? & ? & ->). done. }
    destruct use_fsync; apply Hs; [|done]. rewrite Fsync_eq by done. apply DataSync_unit.
  - intros n p [Hi _] Hd. cbn in Hd. by rewrite (wi_buffered _ Hi) in Hd.
  - intros p Hi. cbn [fs_Close zoned_file]. pose proof (CloseInternal_call p Hi) as Hs.
    destruct (returned CloseInternal p) as [[] p'|e p'|]; [done|naive_solver|done].
Defined.
End zoned_spec.
