(* ===== verification/LogFormat.v ===== *)
(** * The format of RocksDB's write-ahead log

    log::Writer and log::Reader (rocksdb-raw/db/log_format.h, log_writer.cc,
    log_reader.cc), which write and read the records in the log files of ZenFS.  A
    log is a sequence of blocks; a record is cut into fragments so that none crosses a
    block boundary, and each has a header with a checksum, its length and a type.
    The file below a writer, the file below a reader and the streaming compressors are
    type classes.  The caller asks for no checksum of whole records
    ([record_checksum] is null). *)

From stdpp Require Import pretty.
From S2P Require Import Prelude Status Coding Crc32c CrcCombine MetaLog.

(** ** log_format.h *)

Definition kZeroType : Z := 0.
Definition kFullType : Z := 1.
Definition kFirstType : Z := 2.
Definition kMiddleType : Z := 3.
Definition kLastType : Z := 4.
Definition kRecyclableFullType : Z := 5.
Definition kRecyclableFirstType : Z := 6.
Definition kRecyclableMiddleType : Z := 7.
Definition kRecyclableLastType : Z := 8.
Definition kSetCompressionType : Z := 9.
Definition kUserDefinedTimestampSizeType : Z := 10.
Definition kRecyclableUserDefinedTimestampSizeType : Z := 11.
Definition kMaxRecordType : Z := kRecyclableUserDefinedTimestampSizeType.

Definition kBlockSize : Z := 32768.
Definition kHeaderSize : Z := 4 + 2 + 1.
Definition kRecyclableHeaderSize : Z := 4 + 2 + 1 + 4.

(** The results of [ReadPhysicalRecord] that are not types. *)
Definition kEof : Z := kMaxRecordType + 1.
Definition kBadRecord : Z := kMaxRecordType + 2.
Definition kBadHeader : Z := kMaxRecordType + 3.
Definition kOldRecord : Z := kMaxRecordType + 4.
Definition kBadRecordLen : Z := kMaxRecordType + 5.
Definition kBadRecordChecksum : Z := kMaxRecordType + 6.

Inductive WALRecoveryMode :=
  | kTolerateCorruptedTailRecords | kAbsoluteConsistency | kPointInTimeRecovery
  | kSkipAnyCorruptedRecords.
#[export] Instance WALRecoveryMode_eq_dec : EqDecision WALRecoveryMode.
Proof. solve_decision. Defined.

(** ** What the log is written to and read from *)

(** [WritableFileWriter], with the rate limiter priority that the caller passes on;
    an append comes with the checksum of the data, or 0. *)
Class LogDest (D : Type) := {
  dest_Append : bytes -> Z -> M D unit;
  dest_Flush : M D unit;
  dest_Close : M D unit;
  dest_seen_error : D -> bool
}.

(** [SequentialFileReader] *)
Class LogSource (F : Type) := {
  src_Read : Z -> F -> Status * bytes * F
}.

(** [StreamingCompress] and [StreamingUncompress]: what is left to process, or a
    negative number, and the output of the call. *)
Class StreamingCompression (C U : Type) := {
  StreamingCompressionTypeSupported : Z -> bool;
  cmp_Create : Z -> C;
  cmp_Reset : C -> C;
  cmp_Compress : bytes -> C -> Z * bytes * C;
  unc_Create : Z -> U;
  unc_Reset : U -> U;
  (** [None] is a null input: go on with the one before *)
  unc_Uncompress : option bytes -> U -> Z * bytes * U
}.

Definition kNoCompression : Z := 0.

(** ** log::Writer *)

Record LogWriter (D C : Type) := mkLogWriter {
  dest_ : D;
  block_offset_ : Z;
  w_log_number_ : Z;
  recycle_log_files_ : bool;
  manual_flush_ : bool;
  w_compression_type_ : Z;
  compress_ : option C;
  w_recorded_ : list (Z * Z)
}.
Arguments mkLogWriter {D C} _ _ _ _ _ _ _ _.
Arguments dest_ {D C} _.
Arguments block_offset_ {D C} _.
Arguments w_log_number_ {D C} _.
Arguments recycle_log_files_ {D C} _.
Arguments manual_flush_ {D C} _.
Arguments w_compression_type_ {D C} _.
Arguments compress_ {D C} _.
Arguments w_recorded_ {D C} _.

Definition LogWriter_new {D C} (dest : D) (log_number : Z) (recycle manual_flush : bool) (compression : Z) :
  LogWriter D C := mkLogWriter dest 0 log_number recycle manual_flush compression None [].

(** [type_crc_[t]], precomputed by the constructor. *)
Definition type_crc_ (t : Z) : Z := crc32c_Value [byte.of_Z t].

(** Whether a type has the log number in its header. *)
Definition legacy_type (t : Z) : bool :=
  (t <? kRecyclableFullType) || (t =? kSetCompressionType) || (t =? kUserDefinedTimestampSizeType).

Section writer.
Context {D C U : Type} `{LogDest D} `{StreamingCompression C U}.
Abbreviation WM := (M (LogWriter D C)).

Definition set_dest (d : D) (w : LogWriter D C) : LogWriter D C :=
  mkLogWriter d (block_offset_ w) (w_log_number_ w) (recycle_log_files_ w) (manual_flush_ w)
    (w_compression_type_ w) (compress_ w) (w_recorded_ w).
Definition set_block_offset (o : Z) (w : LogWriter D C) : LogWriter D C :=
  mkLogWriter (dest_ w) o (w_log_number_ w) (recycle_log_files_ w) (manual_flush_ w)
    (w_compression_type_ w) (compress_ w) (w_recorded_ w).
Definition set_compress (t : Z) (c : option C) (w : LogWriter D C) : LogWriter D C :=
  mkLogWriter (dest_ w) (block_offset_ w) (w_log_number_ w) (recycle_log_files_ w) (manual_flush_ w)
    t c (w_recorded_ w).
Definition add_recorded (l : list (Z * Z)) (w : LogWriter D C) : LogWriter D C :=
  mkLogWriter (dest_ w) (block_offset_ w) (w_log_number_ w) (recycle_log_files_ w) (manual_flush_ w)
    (w_compression_type_ w) (compress_ w) (w_recorded_ w ++ l).

(** A call of the file below. *)
Definition on_dest (m : M D unit) : WM unit := zoom dest_ set_dest m.

(** The header of a fragment. *)
Definition fragment_header (log_number t : Z) (data : bytes) : bytes :=
  let n := zlen data in
  let num := if legacy_type t then [] else EncodeFixed32 kLittleEndian (u32 log_number) in
  let crc := if legacy_type t then type_crc_ t else crc32c_Extend (type_crc_ t) num in
  let crc := Crc32cCombine 0 crc (crc32c_Value data) n in
  EncodeFixed32 kLittleEndian (Mask crc) ++
  [byte.of_Z (Z.land n 255); byte.of_Z (Z.shiftr n 8); byte.of_Z t] ++ num.

Definition EmitPhysicalRecord (t : Z) (data : bytes) : WM unit :=
  w <- get ;;
  let buf := fragment_header (w_log_number_ w) t data in
  s <- attempt (on_dest (dest_Append buf 0)) ;;
  s <- (if ok (status_of s) then attempt (on_dest (dest_Append data (crc32c_Value data))) else ret s) ;;
  modify (fun w => set_block_offset (block_offset_ w + zlen buf + zlen data) w) ;;
  returnS (status_of s).

(** The type of a fragment. *)
Definition fragment_type (recycle begin last : bool) : Z :=
  if begin && last then if recycle then kRecyclableFullType else kFullType
  else if begin then if recycle then kRecyclableFirstType else kFirstType
  else if last then if recycle then kRecyclableLastType else kLastType
  else if recycle then kRecyclableMiddleType else kMiddleType.

(** Fills the rest of a block that has no room for a header. *)
Definition switch_block (header_size : Z) : WM unit :=
  w <- get ;;
  let leftover := kBlockSize - block_offset_ w in
  if leftover <? header_size then
    when (0 <? leftover) (on_dest (dest_Append (zeros leftover) 0)) ;;
    modify (set_block_offset 0)
  else ret tt.

(** [do ... while (s.ok() && (left > 0 || compress_remaining > 0))]; [slice] is the
    record and [ptr] what is left of it, or of its compressed form. *)
Fixpoint AddRecord_loop (fuel : nat) (slice ptr : bytes) (begin compress_start : bool)
  (compress_remaining : Z) : WM unit :=
  match fuel with
  | O => stuckM OutOfFuel
  | S fuel' =>
      w <- get ;;
      let header_size := if recycle_log_files_ w then kRecyclableHeaderSize else kHeaderSize in
      switch_block header_size ;;
      w <- get ;;
      let avail := kBlockSize - block_offset_ w - header_size in
      let emit ptr compress_remaining compress_start :=
        let fragment_length := if zlen ptr <? avail then zlen ptr else avail in
        let last := (zlen ptr =? fragment_length) && (compress_remaining =? 0) in
        EmitPhysicalRecord (fragment_type (recycle_log_files_ w) begin last) (ztake fragment_length ptr) ;;
        let ptr := zdrop fragment_length ptr in
        if (0 <? zlen ptr) || (0 <? compress_remaining)
        then AddRecord_loop fuel' slice ptr false compress_start compress_remaining
        else ret tt in
      match compress_ w with
      | Some c =>
          if compress_start || (zlen ptr =? 0) then
            let '(compress_remaining, out, c') := cmp_Compress slice c in
            modify (set_compress (w_compression_type_ w) (Some c')) ;;
            if compress_remaining <? 0 then fail (IOError "Unexpected WAL compression error")
            else if (zlen out =? 0) && negb compress_start then ret tt
            else emit out compress_remaining false
          else emit ptr compress_remaining compress_start
      | None => emit ptr compress_remaining compress_start
      end
  end.

Definition LogWriter_AddRecord (fuel : nat) (slice : bytes) : WM unit :=
  w <- get ;;
  modify (set_compress (w_compression_type_ w) (cmp_Reset <$> compress_ w)) ;;
  AddRecord_loop fuel slice slice true (bool_decide (is_Some (compress_ w))) 0 ;;
  when (negb (manual_flush_ w)) (on_dest dest_Flush).

Definition LogWriter_WriteBuffer : WM unit :=
  w <- get ;;
  if dest_seen_error (dest_ w) then fail (IOError "Seen error. Skip writing buffer.")
  else on_dest dest_Flush.

(** The file is released with it: a writer that was closed is not used again. *)
Definition LogWriter_Close : WM unit := on_dest dest_Close.

Definition AddCompressionTypeRecord : WM unit :=
  w <- get ;;
  if w_compression_type_ w =? kNoCompression then ret tt
  else
    r <- attempt (EmitPhysicalRecord kSetCompressionType (PutFixed32 [] (w_compression_type_ w))) ;;
    match r with
    | inr _ =>
        s <- attempt (when (negb (manual_flush_ w)) (on_dest dest_Flush)) ;;
        modify (set_compress (w_compression_type_ w) (Some (cmp_Create (w_compression_type_ w)))) ;;
        returnS (status_of s)
    | inl e => modify (set_compress kNoCompression (compress_ w)) ;; fail e
    end.

(** [UserDefinedTimestampSizeRecord::EncodeTo] *)
Definition TimestampSizeRecord_EncodeTo (l : list (Z * Z)) : bytes :=
  foldl (fun dst p => PutFixed16 (PutFixed32 dst p.1) (u16 p.2)) [] l.

(** The sizes not recorded yet that are not 0. *)
Definition ts_sz_to_record (recorded l : list (Z * Z)) : list (Z * Z) :=
  filter (fun p => (p.1 ∉ recorded.*1) /\ p.2 <> 0) l.

Definition MaybeAddUserDefinedTimestampSizeRecord (cf_to_ts_sz : list (Z * Z)) : WM unit :=
  w <- get ;;
  let l := ts_sz_to_record (w_recorded_ w) cf_to_ts_sz in
  modify (add_recorded l) ;;
  if bool_decide (l = []) then ret tt
  else
    EmitPhysicalRecord
      (if recycle_log_files_ w then kRecyclableUserDefinedTimestampSizeType
       else kUserDefinedTimestampSizeType) (TimestampSizeRecord_EncodeTo l).
End writer.

(** ** log::Reader *)

Record LogReader (F U : Type) := mkLogReader {
  file_ : F;
  checksum_ : bool;
  buffer_ : bytes;
  eof_ : bool;
  read_error_ : bool;
  eof_offset_ : Z;
  last_record_offset_ : Z;
  end_of_buffer_offset_ : Z;
  r_log_number_ : Z;
  recycled_ : bool;
  first_record_read_ : bool;
  compression_type_record_read_ : bool;
  uncompress_ : option U;
  r_recorded_ : list (Z * Z);
  (** what the reporter was told: the bytes dropped and the reason *)
  reported : list (Z * Status)
}.
Arguments mkLogReader {F U} _ _ _ _ _ _ _ _ _ _ _ _ _ _ _.
Arguments file_ {F U} _.
Arguments checksum_ {F U} _.
Arguments buffer_ {F U} _.
Arguments eof_ {F U} _.
Arguments read_error_ {F U} _.
Arguments eof_offset_ {F U} _.
Arguments last_record_offset_ {F U} _.
Arguments end_of_buffer_offset_ {F U} _.
Arguments r_log_number_ {F U} _.
Arguments recycled_ {F U} _.
Arguments first_record_read_ {F U} _.
Arguments compression_type_record_read_ {F U} _.
Arguments uncompress_ {F U} _.
Arguments r_recorded_ {F U} _.
Arguments reported {F U} _.

Definition LogReader_new {F U} (file : F) (checksum : bool) (log_num : Z) : LogReader F U :=
  mkLogReader file checksum [] false false 0 0 0 log_num false false false None [] [].

Section reader.
Context {F C U : Type} `{LogSource F} `{StreamingCompression C U}.
Abbreviation RM := (M (LogReader F U)).
Implicit Types r : LogReader F U.

(** The file and the buffer. *)
Definition set_buffered (f : F) (buf : bytes) (eof err : bool) (eo end_off : Z) r : LogReader F U :=
  mkLogReader f (checksum_ r) buf eof err eo (last_record_offset_ r) end_off (r_log_number_ r) (recycled_ r)
    (first_record_read_ r) (compression_type_record_read_ r) (uncompress_ r) (r_recorded_ r) (reported r).
Definition set_rbuffer (buf : bytes) r : LogReader F U :=
  set_buffered (file_ r) buf (eof_ r) (read_error_ r) (eof_offset_ r) (end_of_buffer_offset_ r) r.
Definition set_recycled (b : bool) r : LogReader F U :=
  mkLogReader (file_ r) (checksum_ r) (buffer_ r) (eof_ r) (read_error_ r) (eof_offset_ r)
    (last_record_offset_ r) (end_of_buffer_offset_ r) (r_log_number_ r) b
    (first_record_read_ r) (compression_type_record_read_ r) (uncompress_ r) (r_recorded_ r) (reported r).
Definition set_last_record (off : Z) (first : bool) r : LogReader F U :=
  mkLogReader (file_ r) (checksum_ r) (buffer_ r) (eof_ r) (read_error_ r) (eof_offset_ r)
    off (end_of_buffer_offset_ r) (r_log_number_ r) (recycled_ r)
    first (compression_type_record_read_ r) (uncompress_ r) (r_recorded_ r) (reported r).
Definition set_uncompress (read : bool) (u : option U) r : LogReader F U :=
  mkLogReader (file_ r) (checksum_ r) (buffer_ r) (eof_ r) (read_error_ r) (eof_offset_ r)
    (last_record_offset_ r) (end_of_buffer_offset_ r) (r_log_number_ r) (recycled_ r)
    (first_record_read_ r) read u (r_recorded_ r) (reported r).
Definition set_recorded (l : list (Z * Z)) r : LogReader F U :=
  mkLogReader (file_ r) (checksum_ r) (buffer_ r) (eof_ r) (read_error_ r) (eof_offset_ r)
    (last_record_offset_ r) (end_of_buffer_offset_ r) (r_log_number_ r) (recycled_ r)
    (first_record_read_ r) (compression_type_record_read_ r) (uncompress_ r) l (reported r).
Definition report (bytes : Z) (reason : Status) r : LogReader F U :=
  mkLogReader (file_ r) (checksum_ r) (buffer_ r) (eof_ r) (read_error_ r) (eof_offset_ r)
    (last_record_offset_ r) (end_of_buffer_offset_ r) (r_log_number_ r) (recycled_ r)
    (first_record_read_ r) (compression_type_record_read_ r) (uncompress_ r) (r_recorded_ r)
    (reported r ++ [(bytes, reason)]).

Definition ReportDrop (bytes : Z) (reason : Status) : RM unit := modify (report bytes reason).
Definition ReportCorruption (bytes : Z) (reason : string) : RM unit := ReportDrop bytes (Corruption reason).

(** [true] when there is more to look at; otherwise the error and the bytes dropped. *)
Definition ReadMore : RM (option (Z * Z)) :=
  r <- get ;;
  if negb (eof_ r) && negb (read_error_ r) then
    let '(status, buf, f) := src_Read kBlockSize (file_ r) in
    let end_off := end_of_buffer_offset_ r +64 zlen buf in
    if negb (ok status) then
      modify (set_buffered f [] (eof_ r) true (eof_offset_ r) end_off) ;;
      ReportDrop kBlockSize status ;;
      ret (Some (kEof, 0))
    else if zlen buf <? kBlockSize then
      modify (set_buffered f buf true (read_error_ r) (zlen buf) end_off) ;; ret None
    else modify (set_buffered f buf (eof_ r) (read_error_ r) (eof_offset_ r) end_off) ;; ret None
  else if negb (zlen (buffer_ r) =? 0) then
    modify (set_rbuffer []) ;; ret (Some (kBadHeader, zlen (buffer_ r)))
  else ret (Some (kEof, 0)).

(** [do ... while (remaining > 0 || uncompressed_size == kBlockSize)] *)
Fixpoint Uncompress_loop (fuel : nat) (input : option bytes) (acc : bytes) : RM (option bytes) :=
  match fuel with
  | O => stuckM OutOfFuel
  | S fuel' =>
      r <- get ;;
      u <- deref (uncompress_ r) ;;
      let '(remaining, out, u') := unc_Uncompress input u in
      modify (set_uncompress (compression_type_record_read_ r) (Some u')) ;;
      if remaining <? 0 then ret None
      else
        let acc := acc ++ out in
        if (0 <? remaining) || (zlen out =? kBlockSize) then Uncompress_loop fuel' None acc
        else ret (Some acc)
  end.

(** A [char] of the buffer, widened to [unsigned int]. *)
Definition type_of (b : byte) : Z :=
  let n := byte.unsigned b in if n <? 128 then n else u32 (n - 256).

(** Checks the checksum of the record at the start of the buffer and takes it out. *)
Definition take_record (fuel : nat) (t header_size length : Z) : RM (Z * bytes * Z) :=
  r <- get ;;
  let header := buffer_ r in
  let expected_crc := Unmask (DecodeFixed32 kLittleEndian header) in
  let actual_crc := crc32c_Value (ztake (length + header_size - 6) (zdrop 6 header)) in
  if checksum_ r && negb (actual_crc =? expected_crc) then
    modify (set_rbuffer []) ;; ret (kBadRecordChecksum, [], zlen header)
  else
    modify (set_rbuffer (zdrop (header_size + length) header)) ;;
    let payload := ztake length (zdrop header_size header) in
    match uncompress_ r with
    | Some _ =>
        if (t =? kSetCompressionType) || (t =? kUserDefinedTimestampSizeType) ||
           (t =? kRecyclableUserDefinedTimestampSizeType)
        then ret (t, payload, 0)
        else
          out <- Uncompress_loop fuel (Some payload) [] ;;
          match out with
          | None => modify (set_rbuffer []) ;; ret (kBadRecord, [], 0)
          | Some data => ret (t, data, 0)
          end
    | None => ret (t, payload, 0)
    end.

Definition recyclable_type (t : Z) : bool :=
  (kRecyclableFullType <=? t) && (t <=? kRecyclableLastType) || (t =? kRecyclableUserDefinedTimestampSizeType).

(** The type or error, the fragment and the bytes dropped. *)
Fixpoint ReadPhysicalRecord (fuel : nat) : RM (Z * bytes * Z) :=
  match fuel with
  | O => stuckM OutOfFuel
  | S fuel' =>
      r <- get ;;
      let more : RM (Z * bytes * Z) :=
        e <- ReadMore ;;
        match e with
        | Some (err, drop_size) => ret (err, [], drop_size)
        | None => ReadPhysicalRecord fuel'
        end in
      if zlen (buffer_ r) <? kHeaderSize then more
      else
        let header := buffer_ r in
        let a := byte.unsigned (nth 4 header Byte.x00) in
        let b := byte.unsigned (nth 5 header Byte.x00) in
        let t := type_of (nth 6 header Byte.x00) in
        let length := Z.lor a (Z.shiftl b 8) in
        let check header_size : RM (Z * bytes * Z) :=
          if zlen header <? header_size + length then
            modify (set_rbuffer []) ;; ret (kBadRecordLen, [], zlen header)
          else if (t =? kZeroType) && (length =? 0) then
            modify (set_rbuffer []) ;; ret (kBadRecord, [], 0)
          else take_record fuel' t header_size length in
        if recyclable_type t then
          when (end_of_buffer_offset_ r -64 zlen header =? 0) (modify (set_recycled true)) ;;
          if zlen header <? kRecyclableHeaderSize then more
          else if negb (DecodeFixed32 kLittleEndian (zdrop 7 header) =? r_log_number_ r) then
            ret (kOldRecord, [], 0)
          else check kRecyclableHeaderSize
        else check kHeaderSize
  end.

(** [UserDefinedTimestampSizeRecord::DecodeFrom] *)
Fixpoint decode_ts_entries (n : nat) (src : bytes) : option (list (Z * Z)) :=
  match n with
  | O => Some []
  | S n' =>
      match GetFixed32 src with
      | None => None
      | Some (cf_id, src) =>
          match GetFixed16 src with
          | None => None
          | Some (ts_sz, src) => (fun l => (cf_id, ts_sz) :: l) <$> decode_ts_entries n' src
          end
      end
  end.
Definition TimestampSizeRecord_DecodeFrom (src : bytes) : option (list (Z * Z)) :=
  if negb (zlen src mod 6 =? 0) then None else decode_ts_entries (Z.to_nat (zlen src / 6)) src.

Fixpoint UpdateRecordedTimestampSize (l : list (Z * Z)) : RM Status :=
  match l with
  | [] => ret OK
  | (cf, ts_sz) :: l' =>
      r <- get ;;
      if ts_sz =? 0 then
        ret (Corruption "User-defined timestamp size record contains zero timestamp size.")
      else if bool_decide (cf ∈ (r_recorded_ r).*1) then
        ret (Corruption "User-defined timestamp size record contains update to recorded column family.")
      else
        modify (fun r => set_recorded (r_recorded_ r ++ [(cf, ts_sz)]) r) ;;
        UpdateRecordedTimestampSize l'
  end.

(** A [kSetCompressionType] record. *)
Definition read_compression_record (fragment : bytes) (offset : Z) : RM unit :=
  r <- get ;;
  when (compression_type_record_read_ r)
    (ReportCorruption (zlen fragment) "read multiple SetCompressionType records") ;;
  when (first_record_read_ r)
    (ReportCorruption (zlen fragment) "SetCompressionType not the first record") ;;
  modify (fun r => set_last_record offset (first_record_read_ r) r) ;;
  match GetFixed32 fragment with
  | Some (val, _) =>
      let t := val mod 256 in
      if StreamingCompressionTypeSupported t then modify (set_uncompress true (Some (unc_Create t)))
      else ReportCorruption (zlen fragment - 4) "could not decode SetCompressionType record"
  | None => ReportCorruption (zlen fragment) "could not decode SetCompressionType record"
  end.

(** A record of timestamp sizes. *)
Definition read_timestamp_record (fragment : bytes) (offset : Z) : RM unit :=
  modify (fun r => set_last_record offset (first_record_read_ r) r) ;;
  match TimestampSizeRecord_DecodeFrom fragment with
  | None => ReportCorruption (zlen fragment) "could not decode user-defined timestamp size record"
  | Some l =>
      s <- UpdateRecordedTimestampSize l ;;
      if ok s then ret tt else ReportCorruption 0 (msg s)
  end.

(** Modes that expect no incomplete record at the end of a log. *)
Definition strict_mode (mode : WALRecoveryMode) : bool :=
  bool_decide (mode = kAbsoluteConsistency) || bool_decide (mode = kPointInTimeRecovery).

(** [while (true)]; the record, or [None] where the code returns false. *)
Fixpoint ReadRecord_loop (fuel : nat) (mode : WALRecoveryMode) (in_fragmented_record : bool)
  (prospective_record_offset : Z) (scratch : bytes) : RM (option bytes) :=
  match fuel with
  | O => stuckM OutOfFuel
  | S fuel' =>
      r <- get ;;
      let physical_record_offset := end_of_buffer_offset_ r -64 zlen (buffer_ r) in
      let partial := in_fragmented_record && negb (zlen scratch =? 0) in
      (* a record that was not completed *)
      let trailing : RM (option bytes) :=
        when (in_fragmented_record && strict_mode mode)
          (ReportCorruption (zlen scratch) "error reading trailing data") ;;
        ret None in
      let restart : RM (option bytes) :=
        when in_fragmented_record (ReportCorruption (zlen scratch) "error in middle of record") ;;
        ReadRecord_loop fuel' mode false prospective_record_offset
          (if in_fragmented_record then [] else scratch) in
      let* (t, fragment, drop_size) := ReadPhysicalRecord fuel' in
      if (t =? kFullType) || (t =? kRecyclableFullType) then
        when partial (ReportCorruption (zlen scratch) "partial record without end(1)") ;;
        modify (set_last_record physical_record_offset true) ;;
        ret (Some fragment)
      else if (t =? kFirstType) || (t =? kRecyclableFirstType) then
        when partial (ReportCorruption (zlen scratch) "partial record without end(2)") ;;
        ReadRecord_loop fuel' mode true physical_record_offset fragment
      else if (t =? kMiddleType) || (t =? kRecyclableMiddleType) then
        if negb in_fragmented_record then
          ReportCorruption (zlen fragment) "missing start of fragmented record(1)" ;;
          ReadRecord_loop fuel' mode in_fragmented_record prospective_record_offset scratch
        else ReadRecord_loop fuel' mode in_fragmented_record prospective_record_offset (scratch ++ fragment)
      else if (t =? kLastType) || (t =? kRecyclableLastType) then
        if negb in_fragmented_record then
          ReportCorruption (zlen fragment) "missing start of fragmented record(2)" ;;
          ReadRecord_loop fuel' mode in_fragmented_record prospective_record_offset scratch
        else
          modify (set_last_record prospective_record_offset true) ;;
          ret (Some (scratch ++ fragment))
      else if t =? kSetCompressionType then
        read_compression_record fragment physical_record_offset ;;
        ReadRecord_loop fuel' mode in_fragmented_record physical_record_offset []
      else if (t =? kUserDefinedTimestampSizeType) || (t =? kRecyclableUserDefinedTimestampSizeType) then
        when partial (ReportCorruption (zlen scratch)
          "user-defined timestamp size record interspersed partial record") ;;
        read_timestamp_record fragment physical_record_offset ;;
        ReadRecord_loop fuel' mode in_fragmented_record physical_record_offset []
      else if t =? kBadHeader then
        when (strict_mode mode) (ReportCorruption drop_size "truncated header") ;;
        trailing
      else if t =? kEof then trailing
      else if t =? kOldRecord then
        if bool_decide (mode <> kSkipAnyCorruptedRecords) then trailing else restart
      else if t =? kBadRecord then restart
      else if (t =? kBadRecordLen) || (t =? kBadRecordChecksum) then
        r <- get ;;
        if (t =? kBadRecordLen) && eof_ r then
          when (strict_mode mode) (ReportCorruption drop_size "truncated record body") ;;
          ret None
        else if recycled_ r && bool_decide (mode = kTolerateCorruptedTailRecords) then ret None
        else
          ReportCorruption drop_size
            (if t =? kBadRecordLen then "bad record length" else "checksum mismatch") ;;
          restart
      else
        ReportCorruption (zlen fragment + (if in_fragmented_record then zlen scratch else 0))
          ("unknown record type " +:+ pretty t) ;;
        ReadRecord_loop fuel' mode false prospective_record_offset []
  end.

Definition LogReader_ReadRecord (fuel : nat) (mode : WALRecoveryMode) : RM (option bytes) :=
  r <- get ;;
  modify (set_uncompress (compression_type_record_read_ r) (unc_Reset <$> uncompress_ r)) ;;
  ReadRecord_loop fuel mode false 0 [].

Definition LogReader_LastRecordEnd : RM Z :=
  gets (fun r => end_of_buffer_offset_ r -64 zlen (buffer_ r)).

Definition UnmarkEOFInternal : RM unit :=
  r <- get ;;
  let remaining := kBlockSize - eof_offset_ r in
  let '(status, added, f) := src_Read remaining (file_ r) in
  let end_off := end_of_buffer_offset_ r +64 zlen added in
  if negb (ok status) then
    when (0 <? zlen added) (ReportDrop (zlen added) status) ;;
    modify (fun r => set_buffered f (buffer_ r) (eof_ r) true (eof_offset_ r) end_off r)
  else if zlen added <? remaining then
    modify (set_buffered f (buffer_ r ++ added) true (read_error_ r) (eof_offset_ r + zlen added) end_off)
  else modify (set_buffered f (buffer_ r ++ added) (eof_ r) (read_error_ r) 0 end_off).

Definition LogReader_UnmarkEOF : RM unit :=
  r <- get ;;
  if read_error_ r then ret tt
  else
    modify (fun r => set_buffered (file_ r) (buffer_ r) false (read_error_ r) (eof_offset_ r)
      (end_of_buffer_offset_ r) r) ;;
    if eof_offset_ r =? 0 then ret tt else UnmarkEOFInternal.
End reader.
