(* ===== verification/LogProps.v ===== *)
(** * Reading a log back

    The layout of a record over the blocks of a log, as a relation, and what
    log::Reader makes of it: records are read whole, of a log that is cut off
    anywhere the complete records are read, and a record of the log that used the file
    before is taken for the end of the log. *)

From S2P Require Import Prelude Status Coding Crc32c CrcCombine MetaLog LogFormat.

(** ** A fragment *)

Definition fragment (log_number t : Z) (data : bytes) : bytes := fragment_header log_number t data ++ data.
Definition fragment_num (log_number t : Z) : bytes :=
  if legacy_type t then [] else le_split 4 (u32 log_number).
Definition header_size_of (t : Z) : Z := if legacy_type t then kHeaderSize else kRecyclableHeaderSize.

Lemma zlen_fragment_num num t : zlen (fragment_num num t) = header_size_of t - 7.
Proof. unfold fragment_num, header_size_of. by destruct (legacy_type t). Qed.

(** The checksum covers the type, the log number and the data. *)
Lemma fragment_crc num t data :
  zlen data < 2 ^ 64 ->
  Crc32cCombine 0 (if legacy_type t then type_crc_ t else crc32c_Extend (type_crc_ t) (fragment_num num t))
    (crc32c_Value data) (zlen data) = crc32c_Value ((byte.of_Z t :: fragment_num num t) ++ data).
Proof.
  intros Hlen. rewrite crc32c_Value_app.
  assert ((if legacy_type t then type_crc_ t else crc32c_Extend (type_crc_ t) (fragment_num num t)) =
    crc32c_Value (byte.of_Z t :: fragment_num num t)) as ->.
  { change (byte.of_Z t :: fragment_num num t) with ([byte.of_Z t] ++ fragment_num num t).
    rewrite crc32c_Value_app. unfold fragment_num, type_crc_. destruct (legacy_type t); [|done].
    rewrite <- crc32c_Value_app. by rewrite app_nil_r. }
  unfold crc32c_Extend. rewrite ExtendImpl_spec; [|lia|apply ExtendImpl_range].
  apply Crc32cCombine_spec; [lia|lia|apply ExtendImpl_range|done].
Qed.

Lemma fragment_shape num t data :
  zlen data < 2 ^ 64 ->
  fragment num t data =
    le_split 4 (Mask (crc32c_Value ((byte.of_Z t :: fragment_num num t) ++ data))) ++
    [byte.of_Z (Z.land (zlen data) 255); byte.of_Z (Z.shiftr (zlen data) 8); byte.of_Z t] ++
    fragment_num num t ++ data.
Proof.
  intros Hlen. rewrite <- (fragment_crc num t data) by done. unfold fragment, fragment_header, fragment_num.
  cbv zeta. unfold EncodeFixed32, kLittleEndian, memcpy_from. by rewrite <- !(assoc_L (++)).
Qed.

Lemma zlen_fragment num t data :
  zlen data < 2 ^ 64 -> zlen (fragment num t data) = header_size_of t + zlen data.
Proof.
  intros Hlen. rewrite fragment_shape by done. rewrite !zlen_app, zlen_le_split, zlen_fragment_num.
  unfold zlen at 1. simpl length. lia.
Qed.

Lemma zlen_fragment_header num t data : zlen (fragment_header num t data) = header_size_of t.
Proof.
  unfold fragment_header, header_size_of. cbv zeta. rewrite !zlen_app.
  unfold EncodeFixed32, kLittleEndian, memcpy_from. rewrite zlen_le_split. by destruct (legacy_type t).
Qed.

(** ** The types a writer uses *)

Definition writer_type (recycle : bool) (t : Z) : Prop :=
  1 <= t <= 11 /\ legacy_type t = negb recycle.

Lemma fragment_type_writer recycle begin last : writer_type recycle (fragment_type recycle begin last).
Proof. by destruct recycle, begin, last. Qed.

Lemma writer_type_byte recycle t : writer_type recycle t -> type_of (byte.of_Z t) = t /\ recyclable_type t = recycle.
Proof.
  intros [Ht Hl]. assert (t = 1 \/ t = 2 \/ t = 3 \/ t = 4 \/ t = 5 \/ t = 6 \/ t = 7 \/ t = 8 \/ t = 9 \/ t = 10 \/ t = 11)
    as Hcases by lia.
  destruct recycle; repeat destruct Hcases as [->|Hcases]; try subst t; done.
Qed.

Lemma writer_type_header recycle t :
  writer_type recycle t -> header_size_of t = if recycle then kRecyclableHeaderSize else kHeaderSize.
Proof. intros [_ H]. unfold header_size_of. rewrite H. by destruct recycle. Qed.

(** The bytes of the length. *)
Lemma length_bytes n : 0 <= n < 65536 ->
  Z.lor (byte.unsigned (byte.of_Z (Z.land n 255))) (Z.shiftl (byte.unsigned (byte.of_Z (Z.shiftr n 8))) 8) = n.
Proof.
  intros Hn. change 255 with (Z.ones 8). rewrite Z.land_ones by lia.
  pose proof (Z.mod_pos_bound n (2 ^ 8)). rewrite Z.shiftr_div_pow2 by lia.
  rewrite !byte_unsigned_small; [|split; [apply Z.div_pos|apply Z.div_lt_upper_bound]; lia|lia].
  rewrite lor_shiftl_add by lia. pose proof (Z.div_mod n (2 ^ 8)). lia.
Qed.

(** ** The layout of a log *)

Section layout.
Context (recycle : bool) (log_number : Z).

Definition log_header_size : Z := if recycle then kRecyclableHeaderSize else kHeaderSize.

Lemma log_header_size_bound : 7 <= log_header_size <= 11.
Proof. unfold log_header_size. by destruct recycle. Qed.

(** A block that has no room for a header is filled up. *)
Definition pad (o : Z) : bytes := if kBlockSize - o <? log_header_size then zeros (kBlockSize - o) else [].
Definition start (o : Z) : Z := if kBlockSize - o <? log_header_size then 0 else o.

(** [frags o begin data s o']: from offset [o] of a block on, [s] is what is written of
    a record whose data left is [data]; the next record starts at [o']. *)
Inductive frags : Z -> bool -> bytes -> bytes -> Z -> Prop :=
  | frags_last o begin data :
      0 <= o <= kBlockSize -> (begin = true \/ o = kBlockSize) ->
      start o + log_header_size + zlen data <= kBlockSize ->
      frags o begin data (pad o ++ fragment log_number (fragment_type recycle begin true) data)
        (start o + log_header_size + zlen data)
  | frags_more o begin data1 data2 s o' :
      0 <= o <= kBlockSize -> (begin = true \/ o = kBlockSize) ->
      start o + log_header_size + zlen data1 = kBlockSize -> data2 <> [] ->
      frags kBlockSize false data2 s o' ->
      frags o begin (data1 ++ data2)
        (pad o ++ fragment log_number (fragment_type recycle begin false) data1 ++ s) o'.

(** The records of a log, one after the other. *)
Inductive log_stream : Z -> list bytes -> bytes -> Z -> Prop :=
  | stream_nil o : log_stream o [] [] o
  | stream_cons o r rs s s' o1 o2 :
      frags o true r s o1 -> log_stream o1 rs s' o2 -> log_stream o (r :: rs) (s ++ s') o2.

Lemma zlen_frag begin last data :
  zlen data <= kBlockSize -> zlen (fragment log_number (fragment_type recycle begin last) data) = log_header_size + zlen data.
Proof.
  intros Hlen. rewrite zlen_fragment by (unfold kBlockSize in *; lia).
  by rewrite (writer_type_header recycle) by apply fragment_type_writer.
Qed.

Lemma start_range o : 0 <= o <= kBlockSize -> 0 <= start o /\ start o + log_header_size <= kBlockSize.
Proof.
  intros Ho. pose proof log_header_size_bound. unfold start.
  destruct (Z.ltb_spec (kBlockSize - o) log_header_size); unfold kBlockSize in *; lia.
Qed.

Lemma pad_end : pad kBlockSize = [].
Proof. unfold pad. rewrite Z.sub_diag. by destruct (0 <? log_header_size). Qed.
Lemma start_end : start kBlockSize = 0.
Proof. unfold start. rewrite Z.sub_diag. pose proof log_header_size_bound. by destruct (Z.ltb_spec 0 log_header_size); [|lia]. Qed.

Lemma frags_offset o begin data s o' : frags o begin data s o' -> 0 <= o' <= kBlockSize.
Proof.
  pose proof log_header_size_bound. induction 1 as [o begin data Ho Hb He|]; [|done].
  pose proof (zlen_nonneg data). pose proof (start_range o Ho). lia.
Qed.

Lemma log_stream_offset o rs s o' : log_stream o rs s o' -> 0 <= o <= kBlockSize -> 0 <= o' <= kBlockSize.
Proof. induction 1 as [|o d rs s s' o1 o2 Hf Hs IH]; [done|]. intros _. by eapply IH, frags_offset. Qed.

Lemma frags_nonempty o begin data s o' : frags o begin data s o' -> 0 < zlen s.
Proof.
  pose proof log_header_size_bound as Hh.
  destruct 1 as [o begin data Ho Hb He|o begin data1 data2 s o' Ho Hb He Hne Hf]; pose proof (start_range o Ho).
  - pose proof (zlen_nonneg data). pose proof (zlen_nonneg (pad o)). rewrite zlen_app, zlen_frag by lia. lia.
  - pose proof (zlen_nonneg data1). pose proof (zlen_nonneg s). pose proof (zlen_nonneg (pad o)).
    rewrite !zlen_app, zlen_frag by lia. lia.
Qed.

(** Where a record starts only matters through the trailer before it. *)
Lemma frags_same_start o o2 begin data s o' :
  frags o begin data s o' -> begin = true -> 0 <= o2 <= kBlockSize -> pad o = pad o2 -> start o = start o2 ->
  frags o2 begin data s o'.
Proof.
  intros Hf Hb Ho2 Hp Hs. destruct Hf; rewrite Hp; rewrite Hs in *; [apply frags_last|apply frags_more]; auto.
Qed.

Lemma log_stream_same_start o o2 rs s o' :
  log_stream o rs s o' -> 0 <= o2 <= kBlockSize -> pad o = pad o2 -> start o = start o2 ->
  exists o3, log_stream o2 rs s o3.
Proof.
  intros Hst Ho2 Hp Hs. destruct Hst as [o|o d rs s s' o1 o3 Hf Hst]; [eexists; constructor|].
  exists o3. econstructor; [|done]. by eapply frags_same_start.
Qed.

(** Without room for a header the record is as at the end of the block. *)
Lemma frags_at_end o data s o' :
  frags o true data s o' -> kBlockSize - o < log_header_size ->
  exists s2, s = zeros (kBlockSize - o) ++ s2 /\ frags kBlockSize true data s2 o'.
Proof.
  intros Hf Hr. assert (0 <= kBlockSize <= kBlockSize) as HB by done.
  assert (pad o = zeros (kBlockSize - o) /\ start o = 0) as [Hp Hs].
  { unfold pad, start. by destruct (Z.ltb_spec (kBlockSize - o) log_header_size); [|lia]. }
  inversion Hf as [o0 b0 d0 Ho Hb He|o0 b0 d1 d2 s0 o1 Ho Hb He Hne Hf2]; subst; rewrite Hp; rewrite ?Hs in *.
  - eexists. split; [done|]. rewrite <- start_end. rewrite <- (app_nil_l (fragment _ _ _)), <- pad_end.
    apply frags_last; [done|by left|by rewrite start_end].
  - eexists. split; [done|]. rewrite <- (app_nil_l (fragment _ _ _ ++ _)), <- pad_end.
    apply frags_more; [done|by left|by rewrite start_end|done|done].
Qed.
End layout.

(** ** The reader *)

Lemma fragment_number num t data rest :
  writer_type true t -> zlen data < 65536 ->
  DecodeFixed32 kLittleEndian (zdrop 7 (fragment num t data ++ rest)) = u32 num.
Proof.
  intros [_ Hl] Hlen. rewrite fragment_shape by lia. rewrite <- !(assoc_L (++)).
  rewrite (assoc_L (++) (le_split 4 _)), zdrop_app' by (rewrite zlen_app, zlen_le_split; done).
  unfold fragment_num. rewrite Hl. unfold DecodeFixed32, kLittleEndian. cbn [negb]. rewrite memcpy_to_from.
  change (Z.of_nat 4 * 8) with 32. apply Z.mod_small, u32_range.
Qed.

(** A file that is read from front to back: [src_rest f r], what is left is [r]. *)
Class LogSourceSpec (F : Type) `{src : LogSource F} := {
  src_rest : F -> bytes -> Prop;
  src_read_ok : forall f r n, src_rest f r -> 0 <= n <= kBlockSize ->
    exists s f', src_Read n f = (s, ztake n r, f') /\ ok s = true /\ src_rest f' (zdrop n r)
}.

Section reader.
Context {F C U : Type} `{sspec : LogSourceSpec F} `{comp : StreamingCompression C U}.
Context (recycle : bool) (log_number : Z) (Hnum : recycle = true -> 0 <= log_number < 2 ^ 32).
Abbreviation RM := (M (LogReader F U)).
Implicit Types r : LogReader F U.

(** The reader is at offset [o] of a block, and [R] is what is left of the log. *)
Definition reader_pos (o : Z) (R : bytes) r : Prop :=
  0 <= o <= kBlockSize /\ buffer_ r = ztake (kBlockSize - o) R /\
  src_rest (file_ r) (zdrop (kBlockSize - o) R) /\
  eof_ r = (o + zlen R <? kBlockSize) /\ read_error_ r = false /\ uncompress_ r = None /\
  r_log_number_ r = log_number.

Lemma reader_pos_new f R checksum :
  src_rest f R -> reader_pos kBlockSize R (LogReader_new f checksum log_number).
Proof.
  intros Hf. unfold reader_pos, LogReader_new. cbn [buffer_ file_ eof_ read_error_ uncompress_ r_log_number_].
  rewrite Z.sub_diag, ztake_0, zdrop_0. pose proof (zlen_nonneg R).
  split_and!; try done; unfold kBlockSize; lia.
Qed.

(** The next block is read. *)
Lemma ReadMore_block o R r :
  reader_pos o R r -> kBlockSize <= o + zlen R ->
  exists r', ReadMore r = Ok None r' /\ reader_pos 0 (zdrop (kBlockSize - o) R) r' /\ reported r' = reported r.
Proof.
  intros (Ho & Hb & Hs & He & Herr & Hu & Hn) Hlen. unfold ReadMore, bind, get.
  rewrite He, Herr. destruct (Z.ltb_spec (o + zlen R) kBlockSize); [lia|]. cbn [negb andb].
  set (R' := zdrop (kBlockSize - o) R) in *.
  destruct (src_read_ok _ _ kBlockSize Hs) as (s & f' & -> & -> & Hs'); [by unfold kBlockSize|]. cbn [negb].
  assert (zlen (ztake kBlockSize R') = Z.min kBlockSize (zlen R')) as Hz by (apply zlen_ztake; by unfold kBlockSize).
  rewrite Hz. destruct (Z.ltb_spec (Z.min kBlockSize (zlen R')) kBlockSize) as [Hlt|Hge];
    (eexists; split; [done|]; split; [|done]);
    unfold reader_pos, set_buffered; cbn [buffer_ file_ eof_ read_error_ uncompress_ r_log_number_];
    rewrite Z.sub_0_r; (split_and!; try done); rewrite ?He;
    destruct (Z.ltb_spec (o + zlen R) kBlockSize); destruct (Z.ltb_spec (0 + zlen R') kBlockSize); lia || done.
Qed.

(** At the end of the log. *)
Lemma ReadMore_end o R r :
  reader_pos o R r -> o + zlen R < kBlockSize ->
  ReadMore r = if zlen R =? 0 then Ok (Some (kEof, 0)) r
               else Ok (Some (kBadHeader, zlen R)) (set_rbuffer [] r).
Proof.
  intros (Ho & Hb & Hs & He & Herr & _) Hlen. unfold ReadMore, bind, get.
  rewrite He. destruct (Z.ltb_spec (o + zlen R) kBlockSize); [|lia]. cbn [negb andb].
  rewrite Hb, ztake_all by lia. by destruct (zlen R =? 0).
Qed.

(** The start of a buffer that holds a fragment. *)
Lemma fragment_byte t data rest i b :
  zlen data < 65536 ->
  [byte.of_Z (Z.land (zlen data) 255); byte.of_Z (Z.shiftr (zlen data) 8); byte.of_Z t] !! i = Some b ->
  nth (4 + i) (fragment log_number t data ++ rest) Byte.x00 = b.
Proof.
  intros Hlen Hb. apply nth_lookup_Some. rewrite fragment_shape by lia. rewrite <- (assoc_L (++)).
  rewrite lookup_app_r by (rewrite length_le_split; lia). rewrite length_le_split.
  replace (4 + i - 4)%nat with i by lia. rewrite <- (assoc_L (++)). by apply lookup_app_l_Some.
Qed.

Lemma fragment_header_fields t data rest :
  writer_type recycle t -> zlen data < 65536 ->
  let h := fragment log_number t data ++ rest in
  Z.lor (byte.unsigned (nth 4 h Byte.x00)) (Z.shiftl (byte.unsigned (nth 5 h Byte.x00)) 8) = zlen data /\
  type_of (nth 6 h Byte.x00) = t.
Proof.
  intros Ht Hlen. pose proof (zlen_nonneg data). cbv zeta.
  rewrite (fragment_byte t data rest 0 _ Hlen eq_refl : nth 4 _ _ = _).
  rewrite (fragment_byte t data rest 1 _ Hlen eq_refl : nth 5 _ _ = _).
  rewrite (fragment_byte t data rest 2 _ Hlen eq_refl : nth 6 _ _ = _).
  split; [apply length_bytes; lia|by apply (writer_type_byte recycle)].
Qed.

(** What the checks of a whole fragment find. *)
Lemma fragment_checks t data rest :
  writer_type recycle t -> zlen data < 65536 ->
  let h := fragment log_number t data ++ rest in
  Unmask (DecodeFixed32 kLittleEndian h) =
    crc32c_Value (ztake (zlen data + header_size_of t - 6) (zdrop 6 h)) /\
  ztake (zlen data) (zdrop (header_size_of t) h) = data /\
  zdrop (header_size_of t + zlen data) h = rest /\
  (recycle = true -> DecodeFixed32 kLittleEndian (zdrop 7 h) = log_number).
Proof.
  intros Ht Hlen. pose proof (zlen_nonneg data). cbv zeta.
  pose proof (zlen_fragment log_number t data ltac:(lia)) as Hz.
  pose proof (zlen_fragment_num log_number t) as Hnl. rewrite fragment_shape in * by lia.
  set (crc := crc32c_Value _). assert (0 <= crc < 2 ^ 32) as Hcrc by apply ExtendImpl_range.
  set (c4 := le_split 4 (Mask crc)). set (lo := byte.of_Z (Z.land (zlen data) 255)).
  set (hi := byte.of_Z (Z.shiftr (zlen data) 8)). set (nb := fragment_num log_number t) in *.
  assert (zlen c4 = 4) as Hc4 by apply zlen_le_split.
  split_and!.
  - unfold DecodeFixed32, kLittleEndian. rewrite <- (assoc_L (++)) at 1. unfold c4 at 1. rewrite memcpy_to_from.
    change (Z.of_nat 4 * 8) with 32. rewrite Z.mod_small by apply Mask_range. rewrite Unmask_Mask by done.
    assert ((c4 ++ [lo; hi; byte.of_Z t] ++ nb ++ data) ++ rest =
      (c4 ++ [lo; hi]) ++ ((byte.of_Z t :: nb) ++ data) ++ rest) as -> by by rewrite <- !(assoc_L (++)).
    rewrite (zdrop_app' 6) by (rewrite zlen_app, Hc4; done). unfold crc. f_equal. symmetry. apply ztake_app'.
    rewrite zlen_app, zlen_cons, Hnl. lia.
  - assert ((c4 ++ [lo; hi; byte.of_Z t] ++ nb ++ data) ++ rest =
      (c4 ++ [lo; hi; byte.of_Z t] ++ nb) ++ data ++ rest) as -> by by rewrite <- !(assoc_L (++)).
    rewrite zdrop_app'; [by apply ztake_app'|]. rewrite !zlen_app, Hc4, Hnl. unfold zlen at 1. simpl length. lia.
  - apply zdrop_app'. symmetry. exact Hz.
  - intros Hrec. pose proof Ht as Ht'. rewrite Hrec in Ht'. pose proof (fragment_number log_number t data rest Ht' Hlen) as Hfn.
    rewrite fragment_shape in Hfn by lia. rewrite (u32_small log_number) in Hfn by (by apply Hnum). exact Hfn.
Qed.

Lemma zdrop_app_ge {A} n (l k : list A) : zlen l <= n -> zdrop n (l ++ k) = zdrop (n - zlen l) k.
Proof.
  intros H. unfold zdrop, zlen in *. rewrite drop_app_ge by lia. f_equal. lia.
Qed.

(** The buffer of a reader that is before [P]. *)
Lemma reader_pos_buffer o P R r :
  reader_pos o (P ++ R) r -> o + zlen P <= kBlockSize ->
  buffer_ r = P ++ ztake (kBlockSize - o - zlen P) R.
Proof. intros (Ho & -> & _) Hend. by apply ztake_app_ge; lia. Qed.

Lemma reader_pos_advance o P R r :
  reader_pos o (P ++ R) r -> o + zlen P <= kBlockSize ->
  reader_pos (o + zlen P) R (set_rbuffer (zdrop (zlen P) (buffer_ r)) r).
Proof.
  intros Hr Hend. pose proof (reader_pos_buffer o P R r Hr Hend) as Hb.
  destruct Hr as (Ho & _ & Hs & He & Herr & Hu & Hn). pose proof (zlen_nonneg P).
  unfold reader_pos, set_rbuffer, set_buffered. cbn [buffer_ file_ eof_ read_error_ uncompress_ r_log_number_].
  rewrite Hb, zdrop_app. rewrite zdrop_app_ge in Hs by lia.
  replace (kBlockSize - (o + zlen P)) with (kBlockSize - o - zlen P) by lia.
  split_and!; try done; try lia. rewrite He, zlen_app. by rewrite Z.add_assoc.
Qed.

Lemma reader_pos_recycled o R b r : reader_pos o R r -> reader_pos o R (set_recycled b r).
Proof. done. Qed.

Lemma header_size_of_bound t : 7 <= header_size_of t <= 11.
Proof. unfold header_size_of. by destruct (legacy_type t). Qed.

Lemma take_record_fragment fuel t data rest r :
  writer_type recycle t -> zlen data < 65536 -> buffer_ r = fragment log_number t data ++ rest ->
  uncompress_ r = None ->
  take_record fuel t (header_size_of t) (zlen data) r =
    Ok (t, data, 0) (set_rbuffer (zdrop (zlen (fragment log_number t data)) (buffer_ r)) r).
Proof.
  intros Ht Hlen Hb Hu. destruct (fragment_checks t data rest Ht Hlen) as (Hcrc & Hpay & Hrest & _).
  unfold take_record, bind at 1, get. rewrite Hb. cbv zeta. rewrite Hcrc, Z.eqb_refl. cbn [negb].
  rewrite andb_false_r. unfold bind, modify, ret. rewrite Hu, Hpay. rewrite zlen_fragment by lia. done.
Qed.

(** A whole fragment is read. *)
Lemma ReadPhysicalRecord_fragment fuel o t data R r :
  writer_type recycle t -> reader_pos o (fragment log_number t data ++ R) r ->
  o + header_size_of t + zlen data <= kBlockSize ->
  exists r', ReadPhysicalRecord (S fuel) r = Ok (t, data, 0) r' /\
    reader_pos (o + header_size_of t + zlen data) R r' /\ reported r' = reported r.
Proof.
  intros Ht Hr Hend. pose proof (zlen_nonneg data) as Hd0. pose proof Hr as (Ho & _ & _ & _ & _ & Hu & Hn).
  pose proof (header_size_of_bound t) as Hh.
  assert (zlen data < 65536) as Hlen by (unfold kBlockSize in *; lia).
  assert (zlen (fragment log_number t data) = header_size_of t + zlen data) as Hzf by (apply zlen_fragment; lia).
  pose proof (reader_pos_buffer _ _ _ _ Hr ltac:(lia)) as Hb.
  pose proof (fun b => reader_pos_advance _ _ _ _ (reader_pos_recycled _ _ b _ Hr) ltac:(lia)) as Hadv'.
  pose proof (reader_pos_advance _ _ _ _ Hr ltac:(lia)) as Hadv. rewrite Hzf, Z.add_assoc in Hadv.
  set (rest := ztake _ R) in Hb. pose proof (zlen_nonneg rest).
  destruct (fragment_header_fields t data rest Ht Hlen) as [Hfl Hft].
  destruct (fragment_checks t data rest Ht Hlen) as (_ & _ & _ & Hlog).
  destruct (writer_type_byte recycle t Ht) as [_ Hrt].
  assert ((t =? kZeroType) = false) as Hz by (destruct Ht as [Ht _]; apply Z.eqb_neq; unfold kZeroType; lia).
  cbn [ReadPhysicalRecord]. unfold bind at 1, get. rewrite Hb, Hfl, Hft, zlen_app, Hzf.
  destruct (Z.ltb_spec (header_size_of t + zlen data + zlen rest) kHeaderSize); [unfold kHeaderSize in *; lia|].
  cbv zeta. rewrite Hrt, Hz. cbn [andb].
  pose proof (writer_type_header recycle t Ht) as Hhs.
  destruct (decide (recycle = true)) as [Erec|Erec%not_true_is_false]; rewrite Erec in Hhs |- *.
  - rewrite <- Hhs. destruct (Z.ltb_spec (header_size_of t + zlen data + zlen rest) (header_size_of t)); [lia|].
    rewrite (Hlog Erec), Hn, Z.eqb_refl. cbn [negb].
    destruct (Z.ltb_spec (header_size_of t + zlen data + zlen rest) (header_size_of t + zlen data)); [lia|].
    destruct (end_of_buffer_offset_ r -64 _ =? 0); cbn [when].
    + unfold bind at 1, modify at 1. rewrite (take_record_fragment _ _ _ rest (set_recycled true r) Ht Hlen Hb Hu). eexists. split; [done|].
      split; [|done]. rewrite <- Z.add_assoc, <- Hzf. apply Hadv'.
    + unfold bind at 1, ret at 1. rewrite (take_record_fragment _ _ _ _ _ Ht Hlen Hb Hu). eexists. split; [done|]. split; [|done].
      by rewrite Hzf.
  - rewrite <- Hhs.
    destruct (Z.ltb_spec (header_size_of t + zlen data + zlen rest) (header_size_of t + zlen data)); [lia|].
    rewrite (take_record_fragment _ _ _ _ _ Ht Hlen Hb Hu). eexists. split; [done|]. split; [|done].
    by rewrite Hzf.
Qed.

(** A buffer too short for a header: the next block, or the end of the log. *)
Lemma ReadPhysicalRecord_short fuel r :
  zlen (buffer_ r) < kHeaderSize ->
  ReadPhysicalRecord (S fuel) r =
    (e <- ReadMore ;;
     match e with
     | Some (err, drop_size) => ret (err, [], drop_size)
     | None => ReadPhysicalRecord fuel
     end) r.
Proof.
  intros H. cbn [ReadPhysicalRecord]. unfold bind at 1, get. by destruct (Z.ltb_spec (zlen (buffer_ r)) kHeaderSize); [|lia].
Qed.

Lemma skip_trailer fuel o R r :
  reader_pos o (zeros (kBlockSize - o) ++ R) r -> kBlockSize - o < kHeaderSize ->
  exists r', ReadPhysicalRecord (S fuel) r = ReadPhysicalRecord fuel r' /\ reader_pos 0 R r' /\
    reported r' = reported r.
Proof.
  intros Hr Hs. pose proof Hr as (Ho & _). pose proof (zlen_nonneg R).
  assert (zlen (zeros (kBlockSize - o)) = kBlockSize - o) as Hz by (apply zlen_zeros; lia).
  pose proof (reader_pos_buffer _ _ _ _ Hr ltac:(lia)) as Hb.
  replace (kBlockSize - o - zlen (zeros (kBlockSize - o))) with 0 in Hb by lia. rewrite ztake_0, app_nil_r in Hb.
  rewrite ReadPhysicalRecord_short by (rewrite Hb; lia).
  destruct (ReadMore_block _ _ _ Hr) as (r' & Hrun & Hr' & Hrep); [rewrite zlen_app; lia|].
  rewrite (bind_ok _ _ _ _ _ Hrun). exists r'. split; [done|]. split; [|done].
  by rewrite zdrop_app' in Hr' by lia.
Qed.

Lemma nth_zeros i n : nth i (zeros n) Byte.x00 = Byte.x00.
Proof. unfold zeros. generalize (Z.to_nat n). intros k. revert i. induction k; intros [|i]; simpl; auto. Qed.

(** A trailer that is long enough for a header looks like a preallocated region. *)
Lemma ReadPhysicalRecord_zeros fuel n r :
  buffer_ r = zeros n -> 7 <= n ->
  ReadPhysicalRecord (S fuel) r = Ok (kBadRecord, [], 0) (set_rbuffer [] r).
Proof.
  intros Hb Hn. cbn [ReadPhysicalRecord]. unfold bind at 1, get. rewrite Hb, !nth_zeros, zlen_zeros by lia.
  destruct (Z.ltb_spec n kHeaderSize); [unfold kHeaderSize in *; lia|]. cbv zeta.
  change (type_of Byte.x00) with 0. change (byte.unsigned Byte.x00) with 0. change (recyclable_type 0) with false.
  change (Z.lor 0 (Z.shiftl 0 8)) with 0. cbn iota.
  destruct (Z.ltb_spec n (kHeaderSize + 0)); [unfold kHeaderSize in *; lia|]. done.
Qed.

(** The end of the log. *)
Lemma ReadPhysicalRecord_eof fuel o r :
  reader_pos o [] r ->
  exists r', ReadPhysicalRecord (S (S fuel)) r = Ok (kEof, [], 0) r' /\ reported r' = reported r.
Proof.
  intros Hr. pose proof Hr as (Ho & Hb & _).
  assert (buffer_ r = []) as Hnil by (rewrite Hb; unfold ztake; apply take_nil).
  assert (forall fuel o r, reader_pos o [] r -> buffer_ r = [] -> o < kBlockSize ->
    ReadPhysicalRecord (S fuel) r = Ok (kEof, [], 0) r) as Hend.
  { clear. intros fuel o r Hr Hnil Ho. rewrite ReadPhysicalRecord_short by (by rewrite Hnil).
    pose proof (ReadMore_end o [] r Hr) as Hm. rewrite zlen_nil in Hm. by rewrite (bind_ok _ _ _ _ _ (Hm ltac:(lia))). }
  destruct (decide (o < kBlockSize)).
  - exists r. split; [|done]. by apply (Hend _ o).
  - assert (o = kBlockSize) as -> by lia. rewrite ReadPhysicalRecord_short by (by rewrite Hnil).
    destruct (ReadMore_block _ _ _ Hr) as (r' & Hrun & Hr' & Hrep); [by rewrite zlen_nil|].
    rewrite (bind_ok _ _ _ _ _ Hrun). exists r'. split; [|done]. unfold zdrop in Hr'. rewrite drop_nil in Hr'.
    apply (Hend _ 0); [done| |done]. destruct Hr' as (_ & -> & _). unfold ztake. apply take_nil.
Qed.

(** The errors of a fragment that is cut off. *)
Definition cut_error (e : Z) : Prop := e = kBadHeader \/ e = kBadRecordLen.

(** Too short a buffer at the end of the log. *)
Lemma more_at_end (fuel : nat) o R r :
  reader_pos o R r -> R <> [] -> o + zlen R < kBlockSize ->
  (e <- ReadMore ;;
   match e with
   | Some (err, drop_size) => ret (err, [], drop_size)
   | None => ReadPhysicalRecord fuel
   end) r = Ok (kBadHeader, [], zlen R) (set_rbuffer [] r).
Proof.
  intros Hr Hne Hend. pose proof (ReadMore_end o R r Hr Hend) as Hm.
  destruct (Z.eqb_spec (zlen R) 0) as [H0|_]; [by apply zlen_nil_inv in H0|].
  by rewrite (bind_ok _ _ _ _ _ Hm).
Qed.

Lemma prefix_log_number t data R x :
  writer_type recycle t -> zlen data < 65536 -> fragment log_number t data = R ++ x -> recycle = true -> 11 <= zlen R ->
  DecodeFixed32 kLittleEndian (zdrop 7 R) = log_number.
Proof.
  intros Ht Hlen Hf Hrec HR. destruct (fragment_checks t data [] Ht Hlen) as (_ & _ & _ & Hlog).
  rewrite <- (Hlog Hrec), app_nil_r, Hf. unfold DecodeFixed32, kLittleEndian, memcpy_to, zdrop, zlen in *.
  rewrite drop_app_le by lia. rewrite take_app_le; [done|]. rewrite length_drop. lia.
Qed.

(** A fragment that is cut off. *)
Lemma ReadPhysicalRecord_cut fuel o t data R x r :
  writer_type recycle t -> fragment log_number t data = R ++ x -> x <> [] -> R <> [] ->
  o + header_size_of t + zlen data <= kBlockSize -> reader_pos o R r ->
  exists e n r', ReadPhysicalRecord (S fuel) r = Ok (e, [], n) r' /\ cut_error e /\ eof_ r' = true /\
    reported r' = reported r.
Proof.
  intros Ht Hf Hx HR Hend Hr. pose proof (zlen_nonneg data) as Hd0. pose proof (header_size_of_bound t) as Hh.
  pose proof Hr as (Ho & Hb & _ & He & _ & _ & Hn).
  assert (zlen data < 65536) as Hlen by (unfold kBlockSize in *; lia).
  assert (0 < zlen x) as Hxl by (destruct x; [done|]; rewrite zlen_cons; pose proof (zlen_nonneg x); lia).
  assert (header_size_of t + zlen data = zlen R + zlen x) as Hz by (rewrite <- zlen_app, <- Hf; symmetry; apply zlen_fragment; lia).
  rewrite ztake_all in Hb by lia. assert (eof_ r = true) as Heof by (rewrite He; apply Z.ltb_lt; lia).
  destruct (decide (zlen R < kHeaderSize)) as [Hs|Hs].
  { rewrite ReadPhysicalRecord_short by (by rewrite Hb). rewrite (more_at_end fuel o R r) by (done || lia).
    do 3 eexists. split; [done|]. split; [by left|]. done. }
  destruct (fragment_header_fields t data [] Ht Hlen) as [Hfl Hft]. rewrite app_nil_r, Hf in Hfl, Hft.
  unfold kHeaderSize in Hs.
  rewrite !app_nth1 in Hfl by (unfold zlen in Hs; lia). rewrite app_nth1 in Hft by (unfold zlen in Hs; lia).
  cbn [ReadPhysicalRecord]. unfold bind at 1, get. rewrite Hb, Hfl, Hft.
  destruct (Z.ltb_spec (zlen R) kHeaderSize); [unfold kHeaderSize in *; lia|]. cbv zeta.
  destruct (writer_type_byte recycle t Ht) as [_ Hrt]. rewrite Hrt.
  pose proof (writer_type_header recycle t Ht) as Hhs.
  destruct (decide (recycle = true)) as [Erec|Erec%not_true_is_false]; rewrite Erec in Hhs |- *.
  2: { rewrite <- Hhs. destruct (Z.ltb_spec (zlen R) (header_size_of t + zlen data)); [|lia].
       do 3 eexists. split; [done|]. split; [by right|]. done. }
  assert (forall r1, reader_pos o R r1 -> eof_ r1 = true -> reported r1 = reported r ->
    exists e n r', (if zlen R <? kRecyclableHeaderSize then
      (e <- ReadMore ;;
       match e with
       | Some (err, drop_size) => ret (err, [], drop_size)
       | None => ReadPhysicalRecord fuel
       end)
      else if negb (DecodeFixed32 kLittleEndian (zdrop 7 R) =? r_log_number_ r) then ret (kOldRecord, [], 0)
      else if zlen R <? kRecyclableHeaderSize + zlen data then
        (modify (set_rbuffer []) ;; ret (kBadRecordLen, [], zlen R))
      else if (t =? kZeroType) && (zlen data =? 0) then (modify (set_rbuffer []) ;; ret (kBadRecord, [], 0))
      else take_record fuel t kRecyclableHeaderSize (zlen data)) r1 = Ok (e, [], n) r' /\ cut_error e /\
      eof_ r' = true /\ reported r' = reported r) as Hrest.
  { intros r1 Hr1 Heof1 Hrep1. destruct (Z.ltb_spec (zlen R) kRecyclableHeaderSize).
    - rewrite (more_at_end fuel o R r1) by (done || lia). do 3 eexists. split; [done|]. split; [by left|]. done.
    - rewrite (prefix_log_number t data R x) by (done || (unfold kRecyclableHeaderSize in *; lia)).
      rewrite Hn, Z.eqb_refl. cbn [negb]. rewrite <- Hhs.
      destruct (Z.ltb_spec (zlen R) (header_size_of t + zlen data)); [|lia].
      do 3 eexists. split; [done|]. split; [by right|]. done. }
  destruct (end_of_buffer_offset_ r -64 zlen R =? 0); cbn [when].
  - unfold bind at 1, modify at 1. apply (Hrest (set_recycled true r)); [by apply reader_pos_recycled|done|done].
  - unfold bind at 1, ret at 1. by apply (Hrest r).
Qed.

(** ** One round of [ReadRecord] *)

Lemma round_full fuel mode off scratch frag n r r' :
  ReadPhysicalRecord fuel r = Ok (fragment_type recycle true true, frag, n) r' ->
  exists off', ReadRecord_loop (S fuel) mode false off scratch r = Ok (Some frag) (set_last_record off' true r').
Proof.
  intros H. cbn [ReadRecord_loop]. unfold bind at 1, get at 1. rewrite (bind_ok _ _ _ _ _ H).
  eexists. by destruct recycle.
Qed.

Lemma round_first fuel mode off scratch frag n r r' :
  ReadPhysicalRecord fuel r = Ok (fragment_type recycle true false, frag, n) r' ->
  exists off', ReadRecord_loop (S fuel) mode false off scratch r = ReadRecord_loop fuel mode true off' frag r'.
Proof.
  intros H. cbn [ReadRecord_loop]. unfold bind at 1, get at 1. rewrite (bind_ok _ _ _ _ _ H).
  eexists. by destruct recycle.
Qed.

Lemma round_middle fuel mode off scratch frag n r r' :
  ReadPhysicalRecord fuel r = Ok (fragment_type recycle false false, frag, n) r' ->
  ReadRecord_loop (S fuel) mode true off scratch r = ReadRecord_loop fuel mode true off (scratch ++ frag) r'.
Proof.
  intros H. cbn [ReadRecord_loop]. unfold bind at 1, get at 1. rewrite (bind_ok _ _ _ _ _ H). by destruct recycle.
Qed.

Lemma round_last fuel mode off scratch frag n r r' :
  ReadPhysicalRecord fuel r = Ok (fragment_type recycle false true, frag, n) r' ->
  ReadRecord_loop (S fuel) mode true off scratch r = Ok (Some (scratch ++ frag)) (set_last_record off true r').
Proof.
  intros H. cbn [ReadRecord_loop]. unfold bind at 1, get at 1. rewrite (bind_ok _ _ _ _ _ H). by destruct recycle.
Qed.

Lemma round_bad_record fuel mode off scratch frag n r r' :
  ReadPhysicalRecord fuel r = Ok (kBadRecord, frag, n) r' ->
  ReadRecord_loop (S fuel) mode false off scratch r = ReadRecord_loop fuel mode false off scratch r'.
Proof. intros H. cbn [ReadRecord_loop]. unfold bind at 1, get at 1. by rewrite (bind_ok _ _ _ _ _ H). Qed.

(** What the reporter hears of when the log ends inside a record. *)
Definition told r r' : Prop :=
  exists l, reported r' = reported r ++ l /\ Forall (fun e => exists m, e.2 = Corruption m) l.
Definition quiet_end (mode : WALRecoveryMode) (infrag : bool) (complete : bool) r r' : Prop :=
  told r r' /\ ((strict_mode mode = false \/ infrag = false /\ complete = true) -> reported r' = reported r).

Lemma told_same r r' : reported r' = reported r -> told r r'.
Proof. intros E. exists []. by rewrite app_nil_r. Qed.
Lemma told_more r l r' : reported r' = reported r ++ l -> Forall (fun e => exists m, e.2 = Corruption m) l -> told r r'.
Proof. intros. by exists l. Qed.
Lemma told_trans r r1 r' : reported r1 = reported r -> told r1 r' -> told r r'.
Proof. unfold told. by intros ->. Qed.

Lemma round_eof fuel mode infrag off scratch frag n r r' :
  ReadPhysicalRecord fuel r = Ok (kEof, frag, n) r' -> reported r' = reported r ->
  exists r'', ReadRecord_loop (S fuel) mode infrag off scratch r = Ok None r'' /\ quiet_end mode infrag true r r''.
Proof.
  intros H Hrep. cbn [ReadRecord_loop]. unfold bind at 1, get at 1. rewrite (bind_ok _ _ _ _ _ H).
  change (kEof =? kFullType) with false. unfold bind, when, ret, ReportCorruption, ReportDrop, modify. cbn [orb andb].
  destruct (infrag && strict_mode mode) eqn:E; (eexists; split; [reflexivity|]).
  - split; [eapply told_more; [cbn; by rewrite Hrep|repeat constructor; eauto]|].
    intros [Hs|[Hi _]]; [by rewrite Hs, andb_false_r in E|by rewrite Hi in E].
  - split; [by apply told_same|done].
Qed.

Lemma round_cut fuel mode infrag off scratch e frag n r r' :
  ReadPhysicalRecord fuel r = Ok (e, frag, n) r' -> cut_error e -> eof_ r' = true -> reported r' = reported r ->
  exists r'', ReadRecord_loop (S fuel) mode infrag off scratch r = Ok None r'' /\ quiet_end mode infrag false r r''.
Proof.
  intros H He Heof Hrep. cbn [ReadRecord_loop]. unfold bind at 1, get at 1. rewrite (bind_ok _ _ _ _ _ H).
  unfold quiet_end. destruct He as [-> | ->].
  - change (kBadHeader =? kFullType) with false. unfold bind, when, ret, ReportCorruption, ReportDrop, modify. cbn [orb andb].
    destruct (strict_mode mode) eqn:E; destruct infrag; (eexists; split; [reflexivity|]);
      (split; [first [by apply told_same | eapply told_more; [cbn; rewrite Hrep, <- ?app_assoc; reflexivity|repeat constructor; eauto]]|
        intros [?|[_ ?]]; done]).
  - destruct r' as [f0 c0 b0 e0 re0 eo0 l0 en0 n0 rc0 fi0 ct0 u0 rr0 rp0]. simpl in Heof, Hrep. subst e0.
    unfold bind, when, get, ret, ReportCorruption, ReportDrop, modify.
    destruct (strict_mode mode) eqn:E; (eexists; split; [reflexivity|]);
      (split; [first [by apply told_same | eapply told_more; [cbn; rewrite Hrep; reflexivity|repeat constructor; eauto]]|
        intros [?|[_ ?]]; done]).
Qed.

(** ** Reading a record *)

Lemma reader_pos_last off b o R r : reader_pos o R r -> reader_pos o R (set_last_record off b r).
Proof. done. Qed.

(** The next fragment, after a short trailer if there is one. *)
Lemma next_fragment fuel o t data R r :
  writer_type recycle t -> 0 <= o <= kBlockSize ->
  (log_header_size recycle <= kBlockSize - o \/ kBlockSize - o < 7) ->
  reader_pos o (pad recycle o ++ fragment log_number t data ++ R) r ->
  start recycle o + log_header_size recycle + zlen data <= kBlockSize ->
  exists r', ReadPhysicalRecord (S (S fuel)) r = Ok (t, data, 0) r' /\
    reader_pos (start recycle o + log_header_size recycle + zlen data) R r' /\ reported r' = reported r.
Proof.
  intros Ht Ho Hcase Hr Hend. pose proof (log_header_size_bound recycle) as Hh.
  pose proof (writer_type_header recycle t Ht) as Hhs. change (header_size_of t = log_header_size recycle) in Hhs.
  unfold pad, start in *. destruct (Z.ltb_spec (kBlockSize - o) (log_header_size recycle)).
  - destruct (skip_trailer (S fuel) o _ r Hr) as (r1 & -> & Hr1 & Hrep1); [unfold kHeaderSize; lia|].
    rewrite <- Hhs in *.
    destruct (ReadPhysicalRecord_fragment fuel 0 t data R r1 Ht Hr1 ltac:(lia)) as (r' & Hrun & Hr' & Hrep).
    exists r'. split; [done|]. split; [done|]. congruence.
  - rewrite <- Hhs in *. by apply ReadPhysicalRecord_fragment.
Qed.

(** A trailer that could hold a header costs a round. *)
Lemma long_trailer fuel mode off scratch o R r :
  7 <= kBlockSize - o -> 0 <= o -> reader_pos o (zeros (kBlockSize - o) ++ R) r ->
  exists r', ReadRecord_loop (S (S fuel)) mode false off scratch r =
      ReadRecord_loop (S fuel) mode false off scratch r' /\
    reader_pos kBlockSize R r' /\ reported r' = reported r.
Proof.
  intros Hl Ho Hr. assert (zlen (zeros (kBlockSize - o)) = kBlockSize - o) as Hz by (apply zlen_zeros; lia).
  pose proof (reader_pos_buffer _ _ _ _ Hr ltac:(lia)) as Hb.
  pose proof (reader_pos_advance _ _ _ _ Hr ltac:(lia)) as Hadv.
  replace (kBlockSize - o - zlen (zeros (kBlockSize - o))) with 0 in Hb by lia. rewrite ztake_0, app_nil_r in Hb.
  pose proof (ReadPhysicalRecord_zeros fuel _ r Hb Hl) as Hp.
  rewrite (round_bad_record _ _ _ _ _ _ _ _ Hp). eexists. split; [done|]. split; [|done].
  replace (o + zlen (zeros (kBlockSize - o))) with kBlockSize in Hadv by lia.
  pose proof (zdrop_app (zeros (kBlockSize - o)) []) as Hd. rewrite app_nil_r in Hd. by rewrite Hb, Hd in Hadv.
Qed.

(** A fragment that more fragments follow costs a round. *)
Lemma round_more fuel mode off scratch o begin data R r :
  0 <= o <= kBlockSize -> (log_header_size recycle <= kBlockSize - o \/ kBlockSize - o < 7) ->
  start recycle o + log_header_size recycle + zlen data = kBlockSize ->
  reader_pos o (pad recycle o ++ fragment log_number (fragment_type recycle begin false) data ++ R) r ->
  exists off' r', ReadRecord_loop (S (S (S fuel))) mode (negb begin) off scratch r =
      ReadRecord_loop (S (S fuel)) mode true off' (if begin then data else scratch ++ data) r' /\
    reader_pos kBlockSize R r' /\ reported r' = reported r.
Proof.
  intros Ho Hc He Hr.
  destruct (next_fragment fuel o _ data R r (fragment_type_writer recycle begin false) Ho Hc Hr)
    as (r1 & Hrun & Hr1 & Hrep); [lia|]. rewrite He in Hr1. destruct begin; cbn [negb].
  - destruct (round_first _ mode off scratch _ _ _ _ Hrun) as [off' Hl]. eauto.
  - pose proof (round_middle _ mode off scratch _ _ _ _ Hrun). eauto.
Qed.

Lemma length_frag o begin data :
  0 <= o <= kBlockSize -> start recycle o + log_header_size recycle + zlen data = kBlockSize ->
  (0 < length (fragment log_number (fragment_type recycle begin false) data))%nat.
Proof.
  intros Ho He. pose proof (log_header_size_bound recycle). pose proof (start_range recycle o Ho). pose proof (zlen_nonneg data).
  pose proof (zlen_frag recycle log_number begin false data ltac:(lia)) as Hzf. unfold zlen at 1 in Hzf. lia.
Qed.

(** A record is read whole, wherever its fragments lie. *)
Lemma read_frags_here o begin data s o' :
  frags recycle log_number o begin data s o' ->
  forall fuel mode off scratch R r,
  (log_header_size recycle <= kBlockSize - o \/ kBlockSize - o < 7) ->
  (length s + 3 <= fuel)%nat -> (begin = true -> scratch = []) -> reader_pos o (s ++ R) r ->
  exists r', ReadRecord_loop fuel mode (negb begin) off scratch r = Ok (Some (scratch ++ data)) r' /\
    reader_pos o' R r' /\ reported r' = reported r.
Proof.
  induction 1 as [o begin data Ho Hb He|o begin data1 data2 s o' Ho Hb He Hne Hf IH];
    intros fuel mode off scratch R r Hc Hfuel Hs Hr; (destruct fuel as [|[|[|fuel]]]; [lia..|]).
  - rewrite <- app_assoc in Hr.
    destruct (next_fragment fuel o _ data R r (fragment_type_writer recycle begin true) Ho Hc Hr He)
      as (r1 & Hrun & Hr1 & Hrep). destruct begin; cbn [negb].
    + rewrite (Hs eq_refl). destruct (round_full _ mode off [] _ _ _ _ Hrun) as [off' ->]. eexists. split_and!; done.
    + rewrite (round_last _ mode off scratch _ _ _ _ Hrun). eexists. split_and!; done.
  - rewrite <- !app_assoc in Hr. pose proof (length_frag o begin data1 Ho He). rewrite !length_app in Hfuel.
    destruct (round_more fuel mode off scratch o begin data1 (s ++ R) r Ho Hc He Hr) as (off' & r1 & -> & Hr1 & Hrep).
    destruct (IH (S (S fuel)) mode off' (if begin then data1 else scratch ++ data1) R r1) as (r' & Hrun' & Hr' & Hrep');
      [right; lia|lia|done|done|]. exists r'. split; [|split; [done|congruence]].
    rewrite app_assoc. destruct begin; [rewrite (Hs eq_refl)|]; exact Hrun'.
Qed.

Lemma read_frags o data s o' fuel mode off R r :
  frags recycle log_number o true data s o' -> 0 <= o -> (length s + 3 <= fuel)%nat -> reader_pos o (s ++ R) r ->
  exists r', ReadRecord_loop fuel mode false off [] r = Ok (Some data) r' /\
    reader_pos o' R r' /\ reported r' = reported r.
Proof.
  intros Hf Ho Hfuel Hr.
  destruct (decide (log_header_size recycle <= kBlockSize - o \/ kBlockSize - o < 7)) as [Hc|Hc].
  { by apply (read_frags_here o true data s o' Hf fuel mode off [] R r). }
  destruct (frags_at_end _ _ _ _ _ _ Hf ltac:(lia)) as (s2 & -> & Hf2). rewrite <- app_assoc in Hr.
  destruct fuel as [|[|fuel]]; [lia..|].
  destruct (long_trailer fuel mode off [] o (s2 ++ R) r ltac:(lia) Ho Hr) as (r1 & -> & Hr1 & Hrep1).
  rewrite length_app in Hfuel. unfold zeros in Hfuel. rewrite length_replicate in Hfuel.
  destruct (read_frags_here _ true _ _ _ Hf2 (S fuel) mode off [] R r1) as (r' & Hrun & Hr' & Hrep');
    [right; lia|lia|done|done|]. exists r'. split; [done|]. split; [done|congruence].
Qed.

(** ** A log that is cut off *)

Lemma zeros_prefix n R y : zeros n = R ++ y -> R = zeros (zlen R).
Proof.
  intros H. unfold zeros, zlen in *. rewrite Nat2Z.id.
  assert (length R <= Z.to_nat n)%nat.
  { rewrite <- (length_replicate (Z.to_nat n) Byte.x00), H, length_app. lia. }
  rewrite <- (take_app_length R y) at 1. rewrite <- H, take_replicate. f_equal. lia.
Qed.

(** What ends the reading. *)
Definition stop_error (e : Z) r' : Prop := e = kEof \/ cut_error e /\ eof_ r' = true.

Lemma round_stop fuel mode infrag off scratch e frag n r r' :
  ReadPhysicalRecord fuel r = Ok (e, frag, n) r' -> stop_error e r' -> reported r' = reported r ->
  exists r'', ReadRecord_loop (S fuel) mode infrag off scratch r = Ok None r'' /\ told r r'' /\
    (strict_mode mode = false \/ infrag = false /\ e = kEof -> reported r'' = reported r).
Proof.
  intros H [-> |[He Heof]] Hrep.
  - destruct (round_eof fuel mode infrag off scratch frag n r r' H Hrep) as (r'' & Hrun & Ht & Hq). exists r''.
    split; [done|]. split; [done|]. intros [?|[? _]]; apply Hq; [by left|by right].
  - destruct (round_cut fuel mode infrag off scratch e frag n r r' H He Heof Hrep) as (r'' & Hrun & Ht & Hq).
    exists r''. split; [done|]. split; [done|]. intros [?|[_ ->]]; [apply Hq; by left|]. by destruct He.
Qed.

(** Part of a trailer, or nothing. *)
Lemma trailer_stop fuel o R y r :
  reader_pos o R r -> zeros (kBlockSize - o) = R ++ y -> y <> [] -> zlen R < kHeaderSize ->
  exists e n r', ReadPhysicalRecord (S (S fuel)) r = Ok (e, [], n) r' /\ stop_error e r' /\
    reported r' = reported r /\ (R = [] -> e = kEof).
Proof.
  intros Hr Hz Hy Hs. destruct (decide (R = [])) as [-> |HR].
  { destruct (ReadPhysicalRecord_eof fuel o r Hr) as (r' & Hrun & Hrep). do 3 eexists. split_and!; try done. by left. }
  pose proof Hr as (Ho & Hb & _ & He & _).
  assert (0 < zlen y) by (destruct y; [done|]; rewrite zlen_cons; pose proof (zlen_nonneg y); lia).
  assert (zlen R + zlen y = kBlockSize - o) as Hl by (rewrite <- zlen_app, <- Hz; apply zlen_zeros; lia).
  rewrite ztake_all in Hb by lia. rewrite ReadPhysicalRecord_short by (by rewrite Hb).
  rewrite (more_at_end _ o R r) by (done || lia). do 3 eexists. split; [done|]. split_and!; try done.
  right. split; [by left|]. cbn. rewrite He. apply Z.ltb_lt. lia.
Qed.

(** The next fragment is not there, or not all of it. *)
Lemma next_cut fuel o t data R x r :
  writer_type recycle t -> 0 <= o <= kBlockSize ->
  (log_header_size recycle <= kBlockSize - o \/ kBlockSize - o < 7) ->
  pad recycle o ++ fragment log_number t data = R ++ x -> x <> [] -> reader_pos o R r ->
  start recycle o + log_header_size recycle + zlen data <= kBlockSize ->
  exists e n r', ReadPhysicalRecord (S (S (S fuel))) r = Ok (e, [], n) r' /\ stop_error e r' /\
    reported r' = reported r /\ (R = [] -> e = kEof).
Proof.
  intros Ht Ho Hc Hsplit Hx Hr Hend. pose proof (log_header_size_bound recycle) as Hh.
  pose proof (writer_type_header recycle t Ht) as Hhs. change (header_size_of t = log_header_size recycle) in Hhs.
  rewrite <- Hhs in Hend.
  assert (forall fuel o R r, reader_pos o R r -> fragment log_number t data = R ++ x ->
    o + header_size_of t + zlen data <= kBlockSize ->
    exists e n r', ReadPhysicalRecord (S (S fuel)) r = Ok (e, [], n) r' /\ stop_error e r' /\
    reported r' = reported r /\ (R = [] -> e = kEof)) as Hcut.
  { clear r R Hr Hsplit Hend. intros fuel0 o0 R r Hr Hf Hend. destruct (decide (R = [])) as [-> |HR].
    - destruct (ReadPhysicalRecord_eof fuel0 o0 r Hr) as (r' & Hrun & Hrep). do 3 eexists. split_and!; try done. by left.
    - destruct (ReadPhysicalRecord_cut (S fuel0) o0 t data R x r Ht Hf Hx HR Hend Hr) as (e & n & r' & ? & ? & ? & ?).
      exists e, n, r'. split_and!; try done. by right. }
  unfold pad, start in *. destruct (Z.ltb_spec (kBlockSize - o) (log_header_size recycle)); [|by apply Hcut with o].
  assert (zlen (zeros (kBlockSize - o)) = kBlockSize - o) as Hzz by (apply zlen_zeros; lia).
  assert (forall y, fragment log_number t data = y ++ x -> reader_pos o (zeros (kBlockSize - o) ++ y) r ->
    exists e n r', ReadPhysicalRecord (S (S (S fuel))) r = Ok (e, [], n) r' /\ stop_error e r' /\
    reported r' = reported r /\ (y = [] -> e = kEof)) as Hskip.
  { intros y Hf Hry. destruct (skip_trailer (S (S fuel)) o _ r Hry) as (r1 & -> & Hr1 & Hrep1); [unfold kHeaderSize; lia|].
    destruct (Hcut fuel 0 y r1 Hr1 Hf ltac:(lia)) as (e & n & r' & ? & ? & ? & ?). exists e, n, r'. split_and!; try done. congruence. }
  destruct (List.app_eq_app _ _ _ _ Hsplit) as [y [[Hz Hxy]|[-> Hf]]].
  - destruct (decide (y = [])) as [-> |Hy].
    + rewrite app_nil_r in Hz. subst R. destruct (Hskip []) as (e & n & r' & ? & ? & ? & ?); [done|by rewrite app_nil_r|].
      exists e, n, r'. split_and!; auto.
    + apply (trailer_stop (S fuel) o R y r); try done. apply (f_equal zlen) in Hz. rewrite zlen_app in Hz.
      pose proof (zlen_nonneg y). unfold kHeaderSize. lia.
  - destruct (Hskip y Hf Hr) as (e & n & r' & ? & ? & ? & Hq). exists e, n, r'. split_and!; try done.
    intros [_ ?]%app_nil. by apply Hq.
Qed.

(** A record of which only a part is there is not returned. *)
Lemma read_cut_here o begin data s o' :
  frags recycle log_number o begin data s o' ->
  forall fuel mode off scratch R x r,
  (log_header_size recycle <= kBlockSize - o \/ kBlockSize - o < 7) ->
  (length s + 4 <= fuel)%nat -> s = R ++ x -> x <> [] -> reader_pos o R r ->
  exists r', ReadRecord_loop fuel mode (negb begin) off scratch r = Ok None r' /\ told r r' /\
    (strict_mode mode = false \/ begin = true /\ R = [] -> reported r' = reported r).
Proof.
  induction 1 as [o begin data Ho Hb He|o begin data1 data2 s o' Ho Hb He Hne Hf IH];
    intros fuel mode off scratch R x r Hc Hfuel Hs Hx Hr; (destruct fuel as [|[|[|[|fuel]]]]; [lia..|]).
  - destruct (next_cut fuel o _ data R x r (fragment_type_writer recycle begin true) Ho Hc Hs Hx Hr He)
      as (e & n & r1 & Hrun & He1 & Hrep & Hq).
    destruct (round_stop _ mode (negb begin) off scratch _ _ _ _ _ Hrun He1 Hrep) as (r' & Hr' & Ht' & Hq').
    exists r'. split; [done|]. split; [done|]. intros [?|[-> ->]]; apply Hq'; auto.
  - rewrite app_assoc in Hs.
    pose proof (length_frag o begin data1 Ho He) as Hpos. rewrite !length_app in Hfuel.
    assert (forall y, R = (pad recycle o ++ fragment log_number (fragment_type recycle begin false) data1) ++ y -> s = y ++ x ->
      exists r', ReadRecord_loop (S (S (S (S fuel)))) mode (negb begin) off scratch r = Ok None r' /\ told r r' /\
        (strict_mode mode = false \/ begin = true /\ R = [] -> reported r' = reported r)) as Hgo.
    { intros y -> Hsx. rewrite <- app_assoc in Hr.
      destruct (round_more (S fuel) mode off scratch o begin data1 y r Ho Hc He Hr) as (off' & r1 & -> & Hr1 & Hrep).
      destruct (IH (S (S (S fuel))) mode off' (if begin then data1 else scratch ++ data1) y x r1) as (r' & Hrun & Ht & Hq);
        [right; lia|lia|done|done|done|]. exists r'. split; [exact Hrun|]. split; [by eapply told_trans|].
      intros [?|[_ [[_ HR]%app_nil _]%app_nil]]; [rewrite <- Hrep; auto|]. by rewrite HR in Hpos; cbn in Hpos; lia. }
    destruct (List.app_eq_app _ _ _ _ Hs) as [y [[Hz Hxy]|[HR Hsx]]]; [|by apply (Hgo y)].
    destruct (decide (y = [])) as [-> |Hy]; [apply (Hgo []); rewrite app_nil_r in *; done|].
    destruct (next_cut fuel o _ data1 R y r (fragment_type_writer recycle begin false) Ho Hc Hz Hy Hr ltac:(lia))
      as (e & n & r1 & Hrun & He1 & Hrep & Hq).
    destruct (round_stop _ mode (negb begin) off scratch _ _ _ _ _ Hrun He1 Hrep) as (r' & Hr' & Ht' & Hq').
    exists r'. split; [done|]. split; [done|]. intros [?|[-> ->]]; apply Hq'; auto.
Qed.

Lemma read_cut o data s o' fuel mode off R x r :
  frags recycle log_number o true data s o' -> (length s + 5 <= fuel)%nat -> s = R ++ x -> x <> [] -> reader_pos o R r ->
  exists r', ReadRecord_loop fuel mode false off [] r = Ok None r' /\ told r r' /\
    (strict_mode mode = false \/ R = [] -> reported r' = reported r).
Proof.
  intros Hf Hfuel Hs Hx Hr.
  destruct (decide (log_header_size recycle <= kBlockSize - o \/ kBlockSize - o < 7)) as [Hc|Hc].
  { destruct (read_cut_here o true data s o' Hf fuel mode off [] R x r Hc ltac:(lia) Hs Hx Hr) as (r' & Hrun & Ht & Hq).
    exists r'. split; [exact Hrun|]. split; [done|]. intros [?|?]; apply Hq; auto. }
  pose proof Hr as (Ho & _). destruct (frags_at_end _ _ _ _ _ _ Hf ltac:(lia)) as (s2 & -> & Hf2).
  destruct fuel as [|[|[|[|fuel]]]]; [lia..|].
  assert (zlen (zeros (kBlockSize - o)) = kBlockSize - o) as Hz by (apply zlen_zeros; lia).
  rewrite length_app in Hfuel.
  assert (forall y, R = zeros (kBlockSize - o) ++ y -> s2 = y ++ x ->
    exists r', ReadRecord_loop (S (S (S (S fuel)))) mode false off [] r = Ok None r' /\ told r r' /\
    (strict_mode mode = false \/ R = [] -> reported r' = reported r)) as Hgo.
  { intros y -> Hsx. destruct (long_trailer (S (S fuel)) mode off [] o y r ltac:(lia) ltac:(lia) Hr) as (r1 & -> & Hr1 & Hrep1).
    unfold zlen in Hz. destruct (read_cut_here _ true _ _ _ Hf2 (S (S (S fuel))) mode off [] y x r1) as (r' & Hrun & Ht & Hq);
      [right; lia|lia|done|done|done|]. exists r'. split; [exact Hrun|]. split; [by eapply told_trans|]. rewrite <- Hrep1.
    intros [?|[HR _]%app_nil]; [apply Hq; auto|]. rewrite HR in Hz. cbn in Hz. lia. }
  destruct (List.app_eq_app _ _ _ _ Hs) as [y [[Hzy Hxy]|[HR Hsx]]]; [|by apply (Hgo y)].
  destruct (decide (y = [])) as [-> |Hy]; [apply (Hgo []); rewrite app_nil_r in *; done|].
  assert (zlen R < kBlockSize - o) as HRlt.
  { destruct y; [done|]. apply (f_equal zlen) in Hzy. rewrite zlen_app, zlen_cons in Hzy. pose proof (zlen_nonneg y). lia. }
  destruct (decide (zlen R < kHeaderSize)) as [Hs7|Hs7].
  - destruct (trailer_stop (S fuel) o R y r Hr Hzy Hy Hs7) as (e & n & r1 & Hrun & He1 & Hrep & Hq).
    destruct (round_stop _ mode false off [] _ _ _ _ _ Hrun He1 Hrep) as (r' & Hr' & Ht' & Hq').
    exists r'. split; [done|]. split; [done|]. intros [?| ->]; apply Hq'; auto.
  - rewrite <- (app_nil_r R) in Hr. pose proof (reader_pos_buffer _ _ _ _ Hr ltac:(lia)) as Hb.
    pose proof (reader_pos_advance _ _ _ _ Hr ltac:(lia)) as Hadv.
    unfold ztake in Hb. rewrite take_nil, app_nil_r in Hb. rewrite Hb in Hadv.
    rewrite (zeros_prefix _ _ _ Hzy) in Hb.
    rewrite (round_bad_record _ mode off [] _ _ _ _ (ReadPhysicalRecord_zeros _ _ r Hb ltac:(unfold kHeaderSize in *; lia))).
    pose proof (zdrop_app R []) as Hd. rewrite app_nil_r in Hd. rewrite Hd in Hadv.
    destruct (ReadPhysicalRecord_eof fuel _ _ Hadv) as (r1 & Hrun & Hrep).
    destruct (round_stop _ mode false off [] _ _ _ _ _ Hrun ltac:(by left) Hrep) as (r' & Hr' & Ht' & Hq').
    exists r'. split; [done|]. split; [done|]. intros _. rewrite Hq'; auto.
Qed.

(** ** A whole log *)

Lemma ReadRecord_reset fuel mode o R r :
  reader_pos o R r ->
  exists r1, LogReader_ReadRecord fuel mode r = ReadRecord_loop fuel mode false 0 [] r1 /\ reader_pos o R r1 /\
    reported r1 = reported r.
Proof.
  intros Hr. eexists. split; [reflexivity|]. split; [|done].
  destruct Hr as (? & ? & ? & ? & ? & Hu & ?). unfold reader_pos. cbn. by rewrite Hu.
Qed.

(** A client that reads until there is no record any more. *)
Fixpoint read_log (n fuel : nat) (mode : WALRecoveryMode) : RM (list bytes) :=
  match n with
  | O => stuckM OutOfFuel
  | S n =>
      rec <- LogReader_ReadRecord fuel mode ;;
      match rec with
      | None => ret []
      | Some d => ds <- read_log n fuel mode ;; ret (d :: ds)
      end
  end.

(** The records are returned one by one, nothing is reported meanwhile, and then the
    reading ends. *)
Inductive reads (fuel : nat) (mode : WALRecoveryMode) : LogReader F U -> list bytes -> LogReader F U -> Prop :=
| reads_end r r' : LogReader_ReadRecord fuel mode r = Ok None r' -> told r r' -> reads fuel mode r [] r'
| reads_record r d r1 ds r' :
    LogReader_ReadRecord fuel mode r = Ok (Some d) r1 -> reported r1 = reported r -> reads fuel mode r1 ds r' ->
    reads fuel mode r (d :: ds) r'.

Lemma reads_log fuel mode r ds r' : reads fuel mode r ds r' -> forall n, (length ds < n)%nat -> read_log n fuel mode r = Ok ds r'.
Proof.
  induction 1 as [r r' Hr _|r d r1 ds r' Hr _ _ IH]; intros [|n] Hn; cbn [length read_log] in *; try lia; rewrite (bind_ok _ _ _ _ _ Hr); [done|].
  by rewrite (bind_ok _ _ _ _ _ (IH n ltac:(lia))).
Qed.

Lemma read_log_end fuel mode o r :
  reader_pos o [] r -> (3 <= fuel)%nat ->
  exists r', reads fuel mode r [] r' /\ reported r' = reported r.
Proof.
  intros Hr Hfuel. destruct (ReadRecord_reset fuel mode o [] r Hr) as (r1 & Hrun1 & Hr1 & Hrep1).
  destruct fuel as [|[|[|fuel]]]; [lia..|]. destruct (ReadPhysicalRecord_eof fuel o r1 Hr1) as (r2 & Hrun2 & Hrep2).
  destruct (round_stop _ mode false 0 [] _ _ _ _ _ Hrun2 ltac:(by left) Hrep2) as (r3 & Hrun3 & Ht3 & Hq3).
  exists r3. split; [|rewrite Hq3; [done|auto]]. apply reads_end; [exact (eq_trans Hrun1 Hrun3)|by eapply told_trans].
Qed.

(** Of a log cut off anywhere the records that are complete are read. *)
Lemma read_log_prefix o rs s o' :
  log_stream recycle log_number o rs s o' ->
  forall fuel mode R x r, (length s + 5 <= fuel)%nat -> s = R ++ x -> reader_pos o R r ->
  exists m sm om r', reads fuel mode r (take m rs) r' /\ (m <= length rs)%nat /\
    log_stream recycle log_number o (take m rs) sm om /\ zlen sm <= zlen R /\
    ((m < length rs)%nat -> exists s1 o1, log_stream recycle log_number o (take (S m) rs) s1 o1 /\ zlen R < zlen s1) /\
    (strict_mode mode = false \/ R = sm -> reported r' = reported r).
Proof.
  induction 1 as [o|o d rs s s' o1 o2 Hf Hs IH]; intros fuel mode R x r Hfuel Hsx Hr.
  { symmetry in Hsx. apply app_nil in Hsx as [-> ->].
    destruct (read_log_end fuel mode o r Hr ltac:(lia)) as (r' & Hrun & Hrep).
    exists 0%nat, [], o, r'. split_and!; try done; [constructor|cbn; lia]. }
  pose proof (zlen_nonneg R). rewrite length_app in Hfuel. pose proof Hr as (Ho & _).
  destruct (ReadRecord_reset fuel mode o R r Hr) as (r1 & Hrun1 & Hr1 & Hrep1).
  assert (forall y, R = s ++ y -> s' = y ++ x -> exists m sm om r',
    reads fuel mode r (take m (d :: rs)) r' /\ (m <= length (d :: rs))%nat /\
    log_stream recycle log_number o (take m (d :: rs)) sm om /\ zlen sm <= zlen R /\
    ((m < length (d :: rs))%nat -> exists s1 o1, log_stream recycle log_number o (take (S m) (d :: rs)) s1 o1 /\ zlen R < zlen s1) /\
    (strict_mode mode = false \/ R = sm -> reported r' = reported r)) as Hgo.
  { intros y -> Hsy. destruct (read_frags o d s o1 fuel mode 0 y r1 Hf ltac:(lia) ltac:(lia) Hr1) as (r2 & Hrun2 & Hr2 & Hrep2).
    destruct (IH fuel mode y x r2 ltac:(lia) Hsy Hr2) as (m & sm & om & r' & Hrun & Hm & Hst & Hle & Hnext & Hq).
    exists (S m), (s ++ sm), om, r'.
    split; [eapply reads_record; [exact (eq_trans Hrun1 Hrun2)|congruence|done]|]. split; [cbn; lia|]. split; [by econstructor|]. split; [rewrite !zlen_app; lia|]. split.
    - intros Hlt. destruct (Hnext ltac:(cbn in Hlt; lia)) as (s1 & o3 & Hst1 & Hlt1).
      exists (s ++ s1), o3. split; [by econstructor|]. rewrite !zlen_app. lia.
    - intros Hc. rewrite Hq; [congruence|]. destruct Hc as [?|?%app_inv_head]; auto. }
  destruct (List.app_eq_app _ _ _ _ Hsx) as [y [[Hz Hxy]|[HR Hsy]]]; [|by apply (Hgo y)].
  destruct (decide (y = [])) as [-> |Hy]; [apply (Hgo []); rewrite app_nil_r in *; done|].
  destruct (read_cut o d s o1 fuel mode 0 R y r1 Hf ltac:(lia) Hz Hy Hr1) as (r2 & Hrun2 & Ht2 & Hq2).
  exists 0%nat, [], o, r2. split; [apply reads_end; [exact (eq_trans Hrun1 Hrun2)|by eapply told_trans]|]. split; [lia|]. split; [constructor|]. split; [by rewrite zlen_nil|]. split.
  - intros _. exists s, o1. split; [|rewrite Hz, zlen_app; destruct y; [done|]; rewrite zlen_cons; pose proof (zlen_nonneg y); lia].
    rewrite <- (app_nil_r s). cbn. rewrite firstn_O. econstructor; [done|constructor].
  - rewrite <- Hrep1. auto.
Qed.

(** ** Records of an earlier log in a recycled file *)

(** Reads [n] records. *)
Fixpoint read_n (n fuel : nat) (mode : WALRecoveryMode) : RM (list (option bytes)) :=
  match n with
  | O => ret []
  | S n => rec <- LogReader_ReadRecord fuel mode ;; rs <- read_n n fuel mode ;; ret (rec :: rs)
  end.

Lemma read_n_stream o rs s o' :
  log_stream recycle log_number o rs s o' ->
  forall fuel mode R r, (length s + 3 <= fuel)%nat -> reader_pos o (s ++ R) r ->
  exists r', read_n (length rs) fuel mode r = Ok (Some <$> rs) r' /\ reader_pos o' R r' /\ reported r' = reported r.
Proof.
  induction 1 as [o|o d rs s s' o1 o2 Hf Hs IH]; intros fuel mode R r Hfuel Hr; [by exists r|].
  rewrite length_app in Hfuel. rewrite <- app_assoc in Hr. pose proof Hr as (Ho & _).
  destruct (ReadRecord_reset fuel mode o _ r Hr) as (r1 & Hrun1 & Hr1 & Hrep1).
  destruct (read_frags o d s o1 fuel mode 0 (s' ++ R) r1 Hf ltac:(lia) ltac:(lia) Hr1) as (r2 & Hrun2 & Hr2 & Hrep2).
  destruct (IH fuel mode R r2 ltac:(lia) Hr2) as (r' & Hrun & Hr' & Hrep). exists r'. cbn [length read_n].
  rewrite (bind_ok _ _ _ _ _ (eq_trans Hrun1 Hrun2)), (bind_ok _ _ _ _ _ Hrun). split; [done|]. split; [done|congruence].
Qed.

End reader.

Section old.
Context {F C U : Type} `{sspec : LogSourceSpec F} `{comp : StreamingCompression C U}.
Context (log_number : Z).
Implicit Types r : LogReader F U.

(** A fragment with another number stays in the buffer. *)
Lemma ReadPhysicalRecord_old fuel o old t data R r :
  writer_type true t -> u32 old <> log_number -> reader_pos log_number o (fragment old t data ++ R) r ->
  o + kRecyclableHeaderSize + zlen data <= kBlockSize ->
  exists r', ReadPhysicalRecord (S fuel) r = Ok (kOldRecord, [], 0) r' /\
    reader_pos log_number o (fragment old t data ++ R) r' /\ reported r' = reported r.
Proof.
  intros Ht Hold Hr Hend. pose proof (zlen_nonneg data) as Hd0. pose proof Hr as (Ho & _ & _ & _ & _ & _ & Hn).
  assert (header_size_of t = kRecyclableHeaderSize) as Hhs by (by apply (writer_type_header true)).
  change kRecyclableHeaderSize with 11 in Hend, Hhs. unfold kBlockSize in Hend.
  assert (zlen (fragment old t data) = 11 + zlen data) as Hzf by (rewrite <- Hhs; apply zlen_fragment; lia).
  pose proof (reader_pos_buffer _ _ _ _ _ Hr ltac:(unfold kBlockSize; lia)) as Hb.
  set (rest := ztake _ R) in Hb. pose proof (zlen_nonneg rest).
  destruct (fragment_header_fields true old t data rest Ht ltac:(lia)) as [Hfl Hft].
  assert (DecodeFixed32 kLittleEndian (zdrop 7 (fragment old t data ++ rest)) = u32 old) as Hfn by (by apply fragment_number; [|lia]).
  cbn [ReadPhysicalRecord]. unfold bind at 1, get. rewrite Hb, Hfl, Hft, Hfn, zlen_app, Hzf.
  destruct (Z.ltb_spec (11 + zlen data + zlen rest) kHeaderSize); [unfold kHeaderSize in *; lia|]. cbv zeta.
  destruct (writer_type_byte true t Ht) as [_ Hrt]. rewrite Hrt.
  destruct (Z.ltb_spec (11 + zlen data + zlen rest) kRecyclableHeaderSize); [unfold kRecyclableHeaderSize in *; lia|].
  rewrite Hn. destruct (Z.eqb_spec (u32 old) log_number); [done|]. cbn [negb].
  destruct (end_of_buffer_offset_ r -64 _ =? 0); cbn [when].
  - exists (set_recycled true r). split; [done|]. split; [by apply reader_pos_recycled|done].
  - by exists r.
Qed.

(** Such a fragment ends the log, except in the mode that skips what is corrupted:
    there the reader comes back to it in every round. *)
Lemma ReadRecord_loop_old fuel mode off o old t data R r :
  writer_type true t -> u32 old <> log_number -> o + kRecyclableHeaderSize + zlen data <= kBlockSize ->
  reader_pos log_number o (fragment old t data ++ R) r ->
  (mode = kSkipAnyCorruptedRecords -> ReadRecord_loop fuel mode false off [] r = Stuck OutOfFuel) /\
  (mode <> kSkipAnyCorruptedRecords -> (2 <= fuel)%nat ->
   exists r', ReadRecord_loop fuel mode false off [] r = Ok None r' /\ reported r' = reported r).
Proof.
  intros Ht Hold Hend. split.
  - intros ->. revert r H. induction fuel as [|fuel IH]; intros r Hr; [done|]. destruct fuel as [|fuel]; [done|].
    destruct (ReadPhysicalRecord_old fuel o old t data R r Ht Hold Hr Hend) as (r1 & Hrun & Hr1 & _).
    cbn [ReadRecord_loop]. unfold bind at 1, get at 1. rewrite (bind_ok _ _ _ _ _ Hrun). exact (IH r1 Hr1).
  - intros Hm Hf. destruct fuel as [|[|fuel]]; [lia..|].
    destruct (ReadPhysicalRecord_old fuel o old t data R r Ht Hold H Hend) as (r1 & Hrun & Hr1 & Hrep).
    exists r1. cbn [ReadRecord_loop]. unfold bind at 1, get at 1. rewrite (bind_ok _ _ _ _ _ Hrun).
    split; [|done]. by destruct mode.
Qed.
End old.
