(* ===== verification/LogCrash.v ===== *)
(** * A log after a crash

    log::Writer lays records out as the reader expects them, so of a log that was cut
    off anywhere exactly the complete records are read; and the same for a log whose
    bytes ZenFS keeps in a write-ahead log zone, in chunks it stored in any order. *)

From S2P Require Import Prelude Status Coding Crc32c CrcCombine MetaLog ZoneFile LogFormat LogProps.

(** ** Writing *)

(** A file that is only appended to: [dest_data] is what it has accepted, [dest_file]
    the part of it that is in the file for certain; a call that fails leaves a prefix of
    what was accepted.  [dest_waits]: whether a call may never return. *)
Class LogDestSpec (D : Type) `{dst : LogDest D} := {
  dest_inv : D -> Prop;
  dest_waits : Prop;
  dest_file : D -> bytes;
  dest_data : D -> bytes;
  dest_append_ok : forall b crc d, dest_inv d -> zlen b <= kBlockSize -> (crc = 0 \/ crc = crc32c_Value b) ->
    match dest_Append b crc d with
    | Ok _ d' => dest_inv d' /\ dest_data d' = dest_data d ++ b
    | Err e d' => ok e = false /\ dest_file d' `prefix_of` dest_data d ++ b
    | Stuck _ => dest_waits
    end;
  dest_flush_ok : forall d, dest_inv d ->
    match dest_Flush d with
    | Ok _ d' => dest_inv d' /\ dest_data d' = dest_data d
    | Err e d' => ok e = false /\ dest_file d' `prefix_of` dest_data d
    | Stuck _ => dest_waits
    end
}.

Section writer.
Context {D C U : Type} `{dspec : LogDestSpec D} `{comp : StreamingCompression C U}.
Context (recycle : bool) (log_number : Z).
Implicit Types w : LogWriter D C.

Definition writer_ok w : Prop :=
  recycle_log_files_ w = recycle /\ w_log_number_ w = log_number /\ compress_ w = None /\
  0 <= block_offset_ w <= kBlockSize /\ dest_inv (dest_ w).

(** A step that writes [s] and ends at offset [o] of a block, or fails. *)
Definition wrote w w' (s : bytes) (o : Z) : Prop :=
  dest_data (dest_ w') = dest_data (dest_ w) ++ s /\ block_offset_ w' = o /\ manual_flush_ w' = manual_flush_ w /\
  recycle_log_files_ w' = recycle_log_files_ w /\ w_log_number_ w' = w_log_number_ w /\ compress_ w' = compress_ w /\
  dest_inv (dest_ w').
Definition writes (m : M (LogWriter D C) unit) w (s : bytes) (o : Z) : Prop :=
  match m w with
  | Ok _ w' => wrote w w' s o
  | Err e w' => ok e = false /\ dest_file (dest_ w') `prefix_of` dest_data (dest_ w) ++ s
  | Stuck _ => dest_waits
  end.

Lemma wrote_ok w w' s o : writer_ok w -> wrote w w' s o -> 0 <= o <= kBlockSize -> writer_ok w'.
Proof. intros (? & ? & ? & ? & ?) (? & ? & ? & ? & ? & ? & ?) ?. unfold writer_ok. split_and!; congruence || lia. Qed.

Lemma wrote_app w w1 w2 s1 s2 o1 o2 : wrote w w1 s1 o1 -> wrote w1 w2 s2 o2 -> wrote w w2 (s1 ++ s2) o2.
Proof.
  intros (Hd1 & ? & ? & ? & ? & ? & ?) (Hd2 & ? & ? & ? & ? & ? & ?). unfold wrote. rewrite Hd2, Hd1, app_assoc.
  split_and!; congruence.
Qed.

Lemma on_dest_append b crc w :
  dest_inv (dest_ w) -> zlen b <= kBlockSize -> (crc = 0 \/ crc = crc32c_Value b) ->
  writes (on_dest (dest_Append b crc)) w b (block_offset_ w).
Proof.
  intros Hi Hb Hc. unfold writes, on_dest, zoom. pose proof (dest_append_ok b crc (dest_ w) Hi Hb Hc) as Hok.
  destruct (dest_Append b crc (dest_ w)) as [[] d|e d|]; [|done|done]. destruct Hok. by split_and!.
Qed.

Lemma on_dest_flush w : dest_inv (dest_ w) -> writes (on_dest dest_Flush) w [] (block_offset_ w).
Proof.
  intros Hi. unfold writes, on_dest, zoom. pose proof (dest_flush_ok (dest_ w) Hi) as Hok.
  destruct (dest_Flush (dest_ w)) as [[] d|e d|]; [|by rewrite app_nil_r|done]. destruct Hok.
  unfold wrote. rewrite app_nil_r. by split_and!.
Qed.

Lemma writes_get f w s o : writes (f w) w s o -> writes (bind get f) w s o.
Proof. done. Qed.

Lemma writes_nil w o : dest_inv (dest_ w) -> o = block_offset_ w -> writes (ret tt) w [] o.
Proof. intros Hi ->. unfold writes, wrote. cbn. by rewrite app_nil_r. Qed.

Lemma writes_block f w : dest_inv (dest_ w) -> writes (modify (fun w => set_block_offset (f w) w)) w [] (f w).
Proof. intros Hi. unfold writes, wrote. cbn. by rewrite app_nil_r. Qed.

Lemma writes_bind m k w s o s2 o2 :
  writes m w s o -> (forall w1, wrote w w1 s o -> writes k w1 s2 o2) -> writes (m ;; k) w (s ++ s2) o2.
Proof.
  unfold writes, bind. intros Hm Hk. destruct (m w) as [[] w1|e w1|]; [|split; [apply Hm|]|done].
  - specialize (Hk w1 Hm). destruct (k w1) as [[] w2|e w2|]; [by eapply wrote_app| |done].
    destruct Hk as [He Hk]. split; [done|]. destruct Hm as (Hd & _). by rewrite Hd, <- app_assoc in Hk.
  - rewrite app_assoc. by apply prefix_app_r, Hm.
Qed.

Lemma writes_bind_nil m k w s o o2 :
  writes m w s o -> (forall w1, wrote w w1 s o -> writes k w1 [] o2) -> writes (m ;; k) w s o2.
Proof. intros Hm Hk. pose proof (writes_bind m k w s o [] o2 Hm Hk) as H. by rewrite app_nil_r in H. Qed.

Lemma switch_block_writes w :
  writer_ok w -> writes (switch_block (log_header_size recycle)) w (pad recycle (block_offset_ w)) (start recycle (block_offset_ w)).
Proof.
  intros Hw. pose proof Hw as (_ & _ & _ & Ho & Hi). apply writes_get. unfold pad, start.
  destruct (Z.ltb_spec (kBlockSize - block_offset_ w) (log_header_size recycle)); [|by apply writes_nil].
  pose proof (log_header_size_bound recycle). destruct (Z.ltb_spec 0 (kBlockSize - block_offset_ w)).
  - eapply writes_bind_nil; [apply on_dest_append; [done|rewrite zlen_zeros; unfold kBlockSize in *; lia|by left]|].
    intros w1 Hw1. apply (writes_block (fun _ => 0)). by destruct Hw1 as (_ & _ & _ & _ & _ & _ & ?).
  - replace (kBlockSize - block_offset_ w) with 0 by lia.
    eapply writes_bind_nil; [by apply writes_nil|].
    intros w1 Hw1. apply (writes_block (fun _ => 0)). by destruct Hw1 as (_ & _ & _ & _ & _ & _ & ?).
Qed.

(** Attempts whose status decides the rest. *)
Lemma writes_attempt m k w s o s2 o2 :
  writes m w s o -> (forall w1, wrote w w1 s o -> writes (k (inr tt)) w1 s2 o2) ->
  (forall e w1, ok e = false -> exists w2, k (inl e) w1 = Err e w2 /\ dest_ w2 = dest_ w1) ->
  writes (bind (attempt m) k) w (s ++ s2) o2.
Proof.
  unfold writes, bind, attempt. intros Hm Hk Hf. destruct (m w) as [[] w1|e w1|]; [| |done].
  - specialize (Hk w1 Hm). destruct (k (inr ()) w1) as [[] w2|e w2|]; [by eapply wrote_app| |done].
    destruct Hk as [He Hk]. split; [done|]. destruct Hm as (Hd & _). by rewrite Hd, <- app_assoc in Hk.
  - destruct Hm as [He Hm]. destruct (Hf e w1 He) as (w2 & -> & ->). split; [done|]. rewrite app_assoc. by apply prefix_app_r.
Qed.

Lemma writes_attempt_nil m k w s o o2 :
  writes m w s o -> (forall w1, wrote w w1 s o -> writes (k (inr tt)) w1 [] o2) ->
  (forall e w1, ok e = false -> exists w2, k (inl e) w1 = Err e w2 /\ dest_ w2 = dest_ w1) ->
  writes (bind (attempt m) k) w s o2.
Proof. intros Hm Hk Hf. pose proof (writes_attempt m k w s o [] o2 Hm Hk Hf) as H. by rewrite app_nil_r in H. Qed.

Lemma EmitPhysicalRecord_writes t data w :
  w_log_number_ w = log_number -> dest_inv (dest_ w) -> zlen data <= kBlockSize ->
  writes (EmitPhysicalRecord t data) w (fragment log_number t data) (block_offset_ w + header_size_of t + zlen data).
Proof.
  intros Hnum Hi Hlen. apply writes_get. cbv zeta. rewrite Hnum. unfold fragment.
  pose proof (zlen_fragment_header log_number t data) as Hh. pose proof (header_size_of_bound t).
  eapply writes_attempt; [apply on_dest_append; [done|rewrite Hh; unfold kBlockSize; lia|by left]|..].
  2: { intros e w1 He. unfold bind, ret, modify. cbn [status_of]. rewrite He. unfold returnS. cbn [status_of]. rewrite He. by eexists. }
  intros w1 Hw1. pose proof Hw1 as (_ & Ho1 & _ & _ & _ & _ & Hi1). change (ok (status_of (inr tt))) with true. cbn iota.
  eapply writes_attempt_nil; [apply on_dest_append; [done|done|by right]|..].
  2: { intros e w2 He. unfold bind, modify, returnS. cbn [status_of]. rewrite He. by eexists. }
  intros w2 Hw2. pose proof Hw2 as (_ & Ho2 & _ & _ & _ & _ & Hi2). rewrite Hh.
  unfold returnS, bind, modify. cbn [status_of]. unfold writes, wrote. cbn. rewrite Ho2, Ho1, app_nil_r. by split_and!.
Qed.

(** The fragments of a record, one per round. *)
Definition fragment_length (o : Z) (data : bytes) : Z :=
  let avail := kBlockSize - start recycle o - log_header_size recycle in
  if zlen data <? avail then zlen data else avail.

Lemma AddRecord_round fuel slice data begin c w s2 o2 :
  writer_ok w ->
  let o := block_offset_ w in
  let n := fragment_length o data in
  let frag := pad recycle o ++
    fragment log_number (fragment_type recycle begin (zlen data =? n)) (ztake n data) in
  (forall w2, wrote w w2 frag (start recycle o + log_header_size recycle + n) ->
     writes (if 0 <? zlen (zdrop n data) then AddRecord_loop fuel slice (zdrop n data) false c 0 else ret tt) w2 s2 o2) ->
  writes (AddRecord_loop (S fuel) slice data begin c 0) w (frag ++ s2) o2.
Proof.
  intros Hw o n frag Hk. pose proof Hw as (Hrec & Hnum & Hcmp & Ho & Hi). unfold frag. rewrite <- app_assoc.
  cbn [AddRecord_loop]. apply writes_get. cbv zeta. rewrite Hrec.
  eapply writes_bind; [by apply switch_block_writes|]. intros w1 Hw1. pose proof Hw1 as (_ & Ho1 & _ & Hr1 & Hn1 & Hc1 & Hi1).
  pose proof (start_range recycle o Ho). pose proof (zlen_nonneg data). pose proof (log_header_size_bound recycle).
  assert (0 <= n <= zlen data /\ n <= kBlockSize) as [Hn HnB] by (unfold n, fragment_length; destruct (Z.ltb_spec (zlen data) (kBlockSize - start recycle o - log_header_size recycle)); lia).
  apply writes_get. rewrite Hc1, Hcmp, Hr1, Hrec, Ho1. fold (fragment_length o data). fold n.
  change (0 =? 0) with true. rewrite andb_true_r.
  eapply writes_bind; [apply EmitPhysicalRecord_writes; [congruence|done|rewrite zlen_ztake; lia]|]. intros w2 Hw2.
  change (0 <? 0) with false. rewrite orb_false_r. apply Hk.
  pose proof (wrote_app _ _ _ _ _ _ _ Hw1 Hw2) as Hw12. rewrite Ho1 in Hw12.
  rewrite (writer_type_header recycle), zlen_ztake in Hw12 by (apply fragment_type_writer || lia).
  by rewrite Z.min_l in Hw12 by lia.
Qed.

Lemma AddRecord_loop_writes o begin data s o' :
  frags recycle log_number o begin data s o' ->
  forall fuel slice c w, writer_ok w -> block_offset_ w = o ->
  (length data + (if begin then 2 else 1) <= fuel)%nat -> (begin = true \/ data <> []) ->
  writes (AddRecord_loop fuel slice data begin c 0) w s o'.
Proof.
  induction 1 as [o begin data Ho Hb He|o begin data1 data2 s o' Ho Hb He Hne Hf IH];
    intros fuel slice c w Hw <- Hfuel Hd; (destruct fuel as [|fuel]; [destruct begin; lia|]).
  - assert (fragment_length (block_offset_ w) data = zlen data) as Hn.
    { unfold fragment_length. destruct (Z.ltb_spec (zlen data) (kBlockSize - start recycle (block_offset_ w) - log_header_size recycle)); lia. }
    rewrite <- (app_nil_r (pad _ _ ++ _)).
    pose proof (AddRecord_round fuel slice data begin c w [] (start recycle (block_offset_ w) + log_header_size recycle + zlen data) Hw) as Hround.
    cbv zeta in Hround. rewrite Hn, Z.eqb_refl, ztake_all in Hround by lia. apply Hround. intros w2 Hw2.
    rewrite zlen_zdrop by apply zlen_nonneg. destruct (Z.ltb_spec 0 (Z.max 0 (zlen data - zlen data))); [lia|].
    destruct Hw2 as (_ & Ho2 & _ & _ & _ & _ & Hi2). by apply writes_nil.
  - assert (0 < zlen data2) as Hpos by (destruct data2; [done|]; rewrite zlen_cons; pose proof (zlen_nonneg data2); lia).
    assert (fragment_length (block_offset_ w) (data1 ++ data2) = zlen data1) as Hn.
    { unfold fragment_length. rewrite zlen_app.
      destruct (Z.ltb_spec (zlen data1 + zlen data2) (kBlockSize - start recycle (block_offset_ w) - log_header_size recycle)); lia. }
    rewrite app_assoc.
    pose proof (AddRecord_round fuel slice (data1 ++ data2) begin c w s o' Hw) as Hround. cbv zeta in Hround.
    rewrite Hn, ztake_app, zdrop_app, zlen_app in Hround.
    destruct (Z.eqb_spec (zlen data1 + zlen data2) (zlen data1)); [lia|]. apply Hround. intros w2 Hw2.
    destruct (Z.ltb_spec 0 (zlen data2)); [|lia]. rewrite He in Hw2. apply IH.
    + by eapply wrote_ok.
    + by destruct Hw2 as (_ & -> & _).
    + rewrite length_app in Hfuel. destruct begin; [lia|]. destruct Hb as [?|Hb]; [done|].
      rewrite Hb, start_end in He. pose proof (log_header_size_bound recycle). unfold zlen, kBlockSize in He. lia.
    + by right.
Qed.

Lemma AddRecord_writes fuel data w s o' :
  frags recycle log_number (block_offset_ w) true data s o' -> writer_ok w -> (length data + 2 <= fuel)%nat ->
  writes (LogWriter_AddRecord fuel data) w s o'.
Proof.
  intros Hf Hw Hfuel. pose proof Hw as (Hrec & Hnum & Hcmp & Ho & Hi). apply writes_get.
  assert (set_compress (w_compression_type_ w) (cmp_Reset <$> compress_ w) w = w) as Hid by (rewrite Hcmp; destruct w; cbn in *; by subst).
  assert (forall k, (modify (set_compress (w_compression_type_ w) (cmp_Reset <$> compress_ w)) ;; k) w = k w :> result _ unit) as Hm.
  { intros k. unfold bind, modify. by rewrite Hid. }
  unfold writes. rewrite Hm. apply writes_bind_nil with o'.
  - by eapply AddRecord_loop_writes; eauto.
  - intros w1 Hw1. destruct Hw1 as (_ & Ho1 & _ & _ & _ & _ & Hi1). destruct (manual_flush_ w); cbn [negb when]; [by apply writes_nil|].
    rewrite <- Ho1. by apply on_dest_flush.
Qed.

(** Every record has a layout. *)
Lemma frags_exist data : forall o begin,
  0 <= o <= kBlockSize -> (begin = true \/ o = kBlockSize) ->
  exists s o', frags recycle log_number o begin data s o'.
Proof.
  assert (forall (n : nat) (data : bytes) o (begin : bool), (length data + (if begin then 2 else 1) <= n)%nat -> 0 <= o <= kBlockSize ->
    (begin = true \/ o = kBlockSize) -> exists s o', frags recycle log_number o begin data s o') as Hgen;
    [|intros o begin; by eapply Hgen].
  induction n as [|n IH]; intros d o begin Hn Ho Hb; [destruct begin; lia|].
  pose proof (start_range recycle o Ho). pose proof (log_header_size_bound recycle).
  destruct (decide (start recycle o + log_header_size recycle + zlen d <= kBlockSize)) as [Hfit|Hfit].
  { do 2 eexists. by apply frags_last. }
  set (k := kBlockSize - start recycle o - log_header_size recycle).
  assert (zlen (ztake k d) = k) as Hk by (rewrite zlen_ztake by (unfold k; lia); unfold k; lia).
  assert (0 < zlen (zdrop k d)) as Hd2 by (rewrite zlen_zdrop by (unfold k; lia); unfold k; lia).
  destruct (IH (zdrop k d) kBlockSize false) as (s & o' & Hs); [|done|by right|].
  - pose proof (f_equal length (ztake_zdrop k d)) as Hl. rewrite length_app in Hl. destruct begin; [lia|].
    destruct Hb as [?| ->]; [done|]. assert (k = kBlockSize - log_header_size recycle) as Ek by (unfold k; rewrite start_end; lia).
    unfold zlen in Hk. clearbody k. unfold kBlockSize in Ek. lia.
  - rewrite <- (ztake_zdrop k d). do 2 eexists. apply frags_more; [done|done|unfold k in *; lia| |exact Hs].
    intros E. by rewrite E in Hd2.
Qed.

Lemma log_stream_exist rs : forall o, 0 <= o <= kBlockSize -> exists s o', log_stream recycle log_number o rs s o'.
Proof.
  induction rs as [|d rs IH]; intros o Ho; [do 2 eexists; constructor|].
  destruct (frags_exist d o true Ho ltac:(by left)) as (s & o1 & Hf).
  destruct (IH o1 (frags_offset _ _ _ _ _ _ _ Hf)) as (s' & o2 & Hs). do 2 eexists. by econstructor.
Qed.

(** A client that adds records one after the other. *)
Fixpoint write_log (fuel : nat) (rs : list bytes) : M (LogWriter D C) unit :=
  match rs with
  | [] => ret tt
  | d :: rs => LogWriter_AddRecord fuel d ;; write_log fuel rs
  end.

Lemma write_log_writes o rs s o' :
  log_stream recycle log_number o rs s o' ->
  forall fuel w, writer_ok w -> block_offset_ w = o -> Forall (fun d => (length d + 2 <= fuel)%nat) rs ->
  writes (write_log fuel rs) w s o'.
Proof.
  induction 1 as [o|o d rs s s' o1 o2 Hf Hs IH]; intros fuel w Hw Ho Hall; [apply writes_nil; [apply Hw|done]|].
  inversion Hall; subst. eapply writes_bind; [by apply AddRecord_writes|].
  intros w1 Hw1. apply IH; [|by destruct Hw1 as (_ & -> & _)|done].
  eapply wrote_ok; [done|done|]. by eapply frags_offset.
Qed.
End writer.

Section log.
Context {D F C U : Type} `{dspec : LogDestSpec D} `{sspec : LogSourceSpec F} `{comp : StreamingCompression C U}.
Context (recycle : bool) (log_number : Z) (Hnum : recycle = true -> 0 <= log_number < 2 ^ 32).

Lemma write_log_app fuel rs1 rs2 (w : LogWriter D C) :
  write_log fuel (rs1 ++ rs2) w = (write_log fuel rs1 ;; write_log fuel rs2) w.
Proof.
  revert w. induction rs1 as [|d rs1 IH]; intros w; [done|]. cbn [write_log app]. rewrite bind_assoc.
  apply bind_ext. intros [] w1. apply IH.
Qed.

Lemma new_writer_ok (d : D) manual compression :
  dest_inv d -> writer_ok recycle log_number (LogWriter_new (C := C) d log_number recycle manual compression).
Proof. intros Hi. by split_and!. Qed.

(** Whatever was added before the last record is in the file as its own layout. *)
Lemma write_log_prefix fuel rs (d : D) manual compression w m sm om :
  let w0 := LogWriter_new (C := C) d log_number recycle manual compression in
  write_log fuel rs w0 = Ok tt w -> dest_inv d -> dest_data d = [] -> Forall (fun d => (length d + 2 <= fuel)%nat) rs ->
  log_stream recycle log_number kBlockSize (take m rs) sm om ->
  exists wm, write_log fuel (take m rs) w0 = Ok tt wm /\ dest_data (dest_ wm) = sm /\ zlen sm <= zlen (dest_data (dest_ w)).
Proof.
  intros w0 Hrun Hi Hd Hall Hst.
  destruct (log_stream_same_start recycle log_number _ 0 _ _ _ Hst) as [o1 Hst1]; [by destruct recycle..|].
  rewrite <- (take_drop m rs) in Hrun. rewrite write_log_app in Hrun.
  rewrite <- (take_drop m rs), Forall_app in Hall. destruct Hall as [Hall1 Hall2].
  pose proof (write_log_writes recycle log_number _ _ _ _ Hst1 fuel w0 (new_writer_ok _ _ _ Hi) eq_refl Hall1) as Hw1.
  unfold writes in Hw1. unfold bind in Hrun. destruct (write_log fuel (take m rs) w0) as [[] wm| |]; [|done|done].
  exists wm. split; [done|]. pose proof Hw1 as (Hdata & Ho & _). cbn in Hdata. rewrite Hd in Hdata. split; [done|].
  assert (0 <= o1 <= kBlockSize) as Ho1 by (by apply (log_stream_offset _ _ _ _ _ _ Hst1)).
  destruct (log_stream_exist recycle log_number (drop m rs) o1 Ho1) as (s2 & o2 & Hst2).
  pose proof (write_log_writes recycle log_number _ _ _ _ Hst2 fuel wm) as Hw2. unfold writes in Hw2. rewrite Hrun in Hw2.
  destruct Hw2 as (Hdata2 & _); [by eapply wrote_ok; [apply new_writer_ok|done|]|done|done|].
  rewrite Hdata2, Hdata, zlen_app. pose proof (zlen_nonneg s2). cbn. lia.
Qed.

(** What a reader of a log gets: the first [m] records, those that are complete in
    the [len] bytes that are there. *)
Definition complete_records fuel rs (w0 : LogWriter D C) (len : Z) (m : nat) : Prop :=
  (m <= length rs)%nat /\
  (exists wm, write_log fuel (take m rs) w0 = Ok tt wm /\ zlen (dest_data (dest_ wm)) <= len) /\
  ((m < length rs)%nat ->
   exists wm, write_log fuel (take (S m) rs) w0 = Ok tt wm /\ len < zlen (dest_data (dest_ wm))).

Lemma read_written_steps fuel rs (d : D) manual compression w R x :
  let w0 := LogWriter_new (C := C) d log_number recycle manual compression in
  write_log fuel rs w0 = Ok tt w -> dest_inv d -> dest_data d = [] -> Forall (fun d => (length d + 2 <= fuel)%nat) rs ->
  dest_data (dest_ w) = R ++ x ->
  forall (f : F) rfuel mode checksum, src_rest f R -> (length (dest_data (dest_ w)) + 5 <= rfuel)%nat ->
  exists m r', reads rfuel mode (LogReader_new (U := U) f checksum log_number) (take m rs) r' /\
    complete_records fuel rs w0 (zlen R) m /\ (x = [] -> m = length rs) /\
    (strict_mode mode = false \/ x = [] -> reported r' = []).
Proof.
  intros w0 Hrun Hi Hd Hall HR f rfuel mode checksum Hf Hfuel.
  destruct (log_stream_exist recycle log_number rs kBlockSize ltac:(done)) as (s & o & Hst).
  pose proof (write_log_prefix fuel rs d manual compression w (length rs) s o Hrun Hi Hd Hall) as Hpre.
  rewrite firstn_all in Hpre. destruct (Hpre Hst) as (w' & Hrun' & Hs & _).
  pose proof (eq_trans (eq_sym Hrun) Hrun') as E. injection E as <-. rewrite Hs in HR, Hfuel.
  destruct (read_log_prefix recycle log_number Hnum _ _ _ _ Hst rfuel mode R x (LogReader_new f checksum log_number))
    as (m & sm & om & r' & Hread & Hm & Hstm & Hle & Hnext & Hq); [done|done|by apply reader_pos_new|].
  destruct (write_log_prefix fuel rs d manual compression w m sm om Hrun Hi Hd Hall Hstm) as (wm & Hwm & Hsm & _).
  assert ((m < length rs)%nat -> exists wm, write_log fuel (take (S m) rs) w0 = Ok tt wm /\ zlen R < zlen (dest_data (dest_ wm))
    /\ zlen (dest_data (dest_ wm)) <= zlen s) as Hnext'.
  { intros Hlt. destruct (Hnext Hlt) as (s1 & o1 & Hst1 & Hlt1).
    destruct (write_log_prefix fuel rs d manual compression w (S m) s1 o1 Hrun Hi Hd Hall Hst1) as (wm1 & ? & Hs1 & Hle1).
    exists wm1. rewrite Hs1. rewrite Hs in Hle1. done. }
  assert (x = [] -> m = length rs) as Hfull.
  { intros ->. rewrite app_nil_r in HR. subst s. destruct (decide (m < length rs)%nat) as [Hlt|]; [|lia].
    destruct (Hnext' Hlt) as (wm1 & _ & ? & ?). lia. }
  exists m, r'. split; [done|]. split; [|split; [done|]].
  - split; [done|]. split; [exists wm; by rewrite Hsm|]. intros Hlt. destruct (Hnext' Hlt) as (wm1 & ? & ? & _). eauto.
  - intros [?|Hx]; apply Hq; [by left|right]. pose proof (Hfull Hx) as Em. subst x. rewrite app_nil_r in HR. rewrite <- HR.
    rewrite Em, firstn_all in Hwm. pose proof (eq_trans (eq_sym Hrun) Hwm) as E2. injection E2 as <-. congruence.
Qed.

Lemma read_written_log fuel rs (d : D) manual compression w R x :
  let w0 := LogWriter_new (C := C) d log_number recycle manual compression in
  write_log fuel rs w0 = Ok tt w -> dest_inv d -> dest_data d = [] -> Forall (fun d => (length d + 2 <= fuel)%nat) rs ->
  dest_data (dest_ w) = R ++ x ->
  forall (f : F) n rfuel mode checksum, src_rest f R -> (length rs < n)%nat -> (length (dest_data (dest_ w)) + 5 <= rfuel)%nat ->
  exists m r', read_log n rfuel mode (LogReader_new (U := U) f checksum log_number) = Ok (take m rs) r' /\
    complete_records fuel rs w0 (zlen R) m /\ (x = [] -> m = length rs) /\
    (strict_mode mode = false \/ x = [] -> reported r' = []).
Proof.
  intros w0 Hrun Hi Hd Hall HR f n rfuel mode checksum Hf Hn Hfuel.
  destruct (read_written_steps fuel rs d manual compression w R x Hrun Hi Hd Hall HR f rfuel mode checksum Hf Hfuel)
    as (m & r' & Hread & Hc & Hrest). exists m, r'. split; [|done]. eapply reads_log; [done|]. rewrite length_take. lia.
Qed.

(** Any prefix of a log reads as its first records. *)
Lemma read_cut_log rs s o R :
  log_stream recycle log_number 0 rs s o -> R `prefix_of` s ->
  exists fuel0, forall (f : F) n rfuel mode checksum, src_rest f R -> (length rs < n)%nat -> (fuel0 <= rfuel)%nat ->
  exists m r', read_log n rfuel mode (LogReader_new (U := U) f checksum log_number) = Ok (take m rs) r'.
Proof.
  intros Hst [x ->]. exists (length (R ++ x) + 5)%nat. intros f n rfuel mode checksum Hf Hn Hfuel.
  destruct (log_stream_same_start recycle log_number _ kBlockSize _ _ _ Hst) as [o1 Hst1]; [by destruct recycle..|].
  destruct (read_log_prefix recycle log_number Hnum _ _ _ _ Hst1 rfuel mode R x (LogReader_new f checksum log_number))
    as (m & sm & om & r' & Hread & _); [done|done|by apply reader_pos_new|]. exists m, r'. eapply reads_log; [done|].
  rewrite length_take. lia.
Qed.
End log.

(** ** A log in memory *)

#[export] Instance mem_dest : LogDest bytes :=
  {| dest_Append b _ d := Ok tt (d ++ b); dest_Flush := ret tt; dest_Close := ret tt; dest_seen_error _ := false |}.
#[export] Instance mem_dest_spec : LogDestSpec bytes.
Proof. by refine {| dest_inv _ := True; dest_waits := False; dest_file d := d; dest_data d := d |}. Defined.
#[export] Instance mem_source : LogSource bytes := {| src_Read n f := (OK, ztake n f, zdrop n f) |}.
#[export] Instance mem_source_spec : LogSourceSpec bytes.
Proof. refine {| src_rest f r := f = r |}. intros f r n -> _. by do 2 eexists. Defined.
#[export] Instance no_compression : StreamingCompression unit unit :=
  {| StreamingCompressionTypeSupported _ := false; cmp_Create _ := tt; cmp_Reset c := c;
     cmp_Compress b c := (0, b, c); unc_Create _ := tt; unc_Reset u := u;
     unc_Uncompress b u := (0, default [] b, u) |}.

Definition ex_records : list bytes := [b_of "put a"; b_of "put b"].
Definition ex_writer (recycle : bool) : LogWriter bytes unit := LogWriter_new [] 7 recycle false 0.
Definition ex_log (recycle : bool) : bytes :=
  match write_log 10 ex_records (ex_writer recycle) with Ok _ w => dest_ w | _ => [] end.

(** C15: The write-ahead log of the database survives a crash at any byte: when
    records are added to a new log (of any sizes, in fragments over blocks, with or
    without the header of recycled logs), of the first [k] bytes of the log
    [ReadRecord] returns the records that are complete in them, in order, and then
    reports the end.  Without damage nothing is reported to the reporter, and of a whole
    log every record is returned.  When a call fails, what is in the file still reads as
    the first records; [AddRecord] returns unless a call of the file does not. *)
Theorem log_crash_prefix {D F C U : Type} `{dspec : LogDestSpec D} `{sspec : LogSourceSpec F}
    `{comp : StreamingCompression C U} (recycle manual : bool) (log_number compression : Z)
    (fuel : nat) (rs : list bytes) (d : D) :
  (recycle = true -> 0 <= log_number < 2 ^ 32) -> dest_inv d -> dest_data d = [] ->
  Forall (fun r => (length r + 2 <= fuel)%nat) rs ->
  let w0 := LogWriter_new (C := C) d log_number recycle manual compression in
  match write_log fuel rs w0 with
  | Ok _ w =>
      let log := dest_data (dest_ w) in
      forall (k : Z) (f : F) (n rfuel : nat) mode checksum,
      src_rest f (ztake k log) -> (length rs < n)%nat -> (length log + 5 <= rfuel)%nat ->
      exists m r', read_log n rfuel mode (LogReader_new (U := U) f checksum log_number) = Ok (take m rs) r' /\
        complete_records fuel rs w0 (zlen (ztake k log)) m /\ (zlen log <= k -> m = length rs) /\
        (strict_mode mode = false \/ zlen log <= k -> reported r' = [])
  | Err _ w =>
      exists fuel0, forall (f : F) (n rfuel : nat) mode checksum,
      src_rest f (dest_file (dest_ w)) -> (length rs < n)%nat -> (fuel0 <= rfuel)%nat ->
      exists m r', read_log n rfuel mode (LogReader_new (U := U) f checksum log_number) = Ok (take m rs) r'
  | Stuck _ => dest_waits
  end.
Proof.
  intros Hnum Hi Hd Hall w0. destruct (log_stream_exist recycle log_number rs 0 ltac:(done)) as (s & o & Hst).
  pose proof (write_log_writes recycle log_number _ _ _ _ Hst fuel w0 (new_writer_ok _ _ _ _ _ Hi) eq_refl Hall) as Hw.
  unfold writes in Hw. destruct (write_log fuel rs w0) as [[] w|e w|] eqn:Hrun; [| |done].
  - intros log k f n rfuel mode checksum Hf Hn Hrf.
    destruct (read_written_log recycle log_number Hnum fuel rs d manual compression w (ztake k log) (zdrop k log) Hrun Hi Hd Hall)
      with (f := f) (n := n) (rfuel := rfuel) (mode := mode) (checksum := checksum) as (m & r' & Hread & Hc & Hfull & Hq);
      [by rewrite ztake_zdrop|done|done|done|].
    assert (zlen log <= k -> zdrop k log = []) as Hx.
    { intros Hk. unfold zdrop. apply drop_ge. unfold zlen in Hk. lia. }
    exists m, r'. split; [done|]. split; [done|]. split; [auto|]. intros [?|?]; auto.
  - destruct Hw as [_ Hpre]. cbn [dest_ w0 LogWriter_new] in Hpre. rewrite Hd in Hpre.
    destruct (read_cut_log recycle log_number Hnum rs s o (dest_file (dest_ w)) Hst Hpre) as [fuel0 Hread]. eauto.
Qed.

(** Of two records the first is read when a byte is missing at the end. *)
Lemma log_crash_prefix_witness :
  exists m r, read_log 3 40 kPointInTimeRecovery (LogReader_new (U := unit) (ztake 23 (ex_log false)) true 7)
      = Ok (take m ex_records) r /\ complete_records 10 ex_records (ex_writer false) 23 m.
Proof.
  pose proof (log_crash_prefix (F := bytes) (U := unit) false false 7 0 10 ex_records ([] : bytes) ltac:(done) I ltac:(done)
    ltac:(repeat constructor)) as H. cbv zeta in H. fold (ex_writer false) in H. unfold ex_log.
  destruct (write_log 10 ex_records (ex_writer false)) as [[] w|e w|e] eqn:E; [|vm_compute in E; discriminate..].
  assert (zlen (dest_ w) = 24) as Hl by (vm_compute in E; injection E as <-; reflexivity).
  destruct (H 23 (ztake 23 (dest_ w)) 3%nat 40%nat kPointInTimeRecovery true) as (m & r & Hread & Hc & _);
    [done|cbn; lia|cbn; unfold zlen in Hl; lia|].
  exists m, r. split; [done|]. cbn [dest_data mem_dest_spec] in Hc. by rewrite zlen_ztake, Hl in Hc.
Defined.

(** C24: Recycling a log file loses the end of the log in one recovery mode: after
    the records of the new log, in a file whose next bytes are a fragment of the log
    that used the file before, [ReadRecord] reports the end of the log, unless the
    mode is [kSkipAnyCorruptedRecords]; in that mode it never returns. *)
Theorem recycled_log_end {D F C U : Type} `{dspec : LogDestSpec D} `{sspec : LogSourceSpec F}
    `{comp : StreamingCompression C U} (manual checksum : bool) (log_number compression old t : Z)
    (fuel rfuel : nat) (rs : list bytes) (d : D) (w : LogWriter D C) (f : F) (data R : bytes) mode :
  0 <= log_number < 2 ^ 32 -> dest_inv d -> dest_data d = [] -> Forall (fun r => (length r + 2 <= fuel)%nat) rs -> rs <> [] ->
  write_log fuel rs (LogWriter_new d log_number true manual compression) = Ok tt w ->
  writer_type true t -> u32 old <> log_number ->
  block_offset_ w + kRecyclableHeaderSize + zlen data <= kBlockSize ->
  src_rest f (dest_data (dest_ w) ++ fragment old t data ++ R) -> (length (dest_data (dest_ w)) + 3 <= rfuel)%nat ->
  exists r, read_n (length rs) rfuel mode (LogReader_new (U := U) f checksum log_number) = Ok (Some <$> rs) r /\
    reported r = [] /\
    forall k, if decide (mode = kSkipAnyCorruptedRecords)
      then LogReader_ReadRecord k mode r = Stuck OutOfFuel
      else (2 <= k)%nat -> exists r', LogReader_ReadRecord k mode r = Ok None r' /\ reported r' = [].
Proof.
  intros Hnum Hi Hd Hall Hne Hrun Ht Hold Hend Hf Hfuel.
  destruct (log_stream_exist true log_number rs 0 ltac:(done)) as (s & o & Hst).
  pose proof (write_log_writes true log_number _ _ _ _ Hst fuel _ (new_writer_ok true log_number d manual compression Hi) eq_refl Hall) as Hw.
  unfold writes in Hw. rewrite Hrun in Hw.
  destruct Hw as (Hdata & Ho & _). cbn in Hdata. rewrite Hd in Hdata. cbn in Hdata. rewrite Hdata, Ho in *.
  assert (log_stream true log_number kBlockSize rs s o) as Hst'.
  { inversion Hst; subst; [done|]. econstructor; [|done]. by apply (frags_same_start true log_number 0). }
  destruct (read_n_stream true log_number (fun _ => Hnum) _ _ _ _ Hst' rfuel mode (fragment old t data ++ R)
    (LogReader_new f checksum log_number) Hfuel) as (r & Hread & Hr & Hrep); [by apply reader_pos_new|].
  exists r. split; [done|]. split; [done|]. intros k.
  destruct (ReadRecord_reset log_number k mode o _ r Hr) as (r1 & -> & Hr1 & Hrep1).
  destruct (ReadRecord_loop_old log_number k mode 0 o old t data R r1 Ht Hold Hend Hr1) as [Hskip Hother].
  destruct (decide (mode = kSkipAnyCorruptedRecords)) as [Hm|Hm]; [auto|]. intros Hk.
  destruct (Hother Hm Hk) as (r' & Hrun' & Hrep'). exists r'. split; [done|]. by rewrite Hrep', Hrep1, Hrep.
Qed.

(** A record of log 6 after the two records of log 7. *)
Lemma recycled_log_end_witness :
  exists r, read_n 2 40 kSkipAnyCorruptedRecords
      (LogReader_new (U := unit) (ex_log true ++ fragment 6 kRecyclableFullType (b_of "old")) true 7)
      = Ok (Some <$> ex_records) r /\
    forall k, LogReader_ReadRecord k kSkipAnyCorruptedRecords r = Stuck OutOfFuel.
Proof.
  unfold ex_log. destruct (write_log 10 ex_records (ex_writer true)) as [[] w|e w|e] eqn:E; [|vm_compute in E; discriminate..].
  assert (zlen (dest_ w) = 32 /\ block_offset_ w = 32) as [Hl Ho] by (vm_compute in E; injection E as <-; done).
  destruct (recycled_log_end (F := bytes) (U := unit) false true 7 0 6 kRecyclableFullType 10 40 ex_records [] w
    (dest_ w ++ fragment 6 kRecyclableFullType (b_of "old") ++ []) (b_of "old") [] kSkipAnyCorruptedRecords)
    as (r & Hread & _ & Hk).
  - done.
  - exact I.
  - done.
  - repeat constructor.
  - done.
  - exact E.
  - by repeat split.
  - done.
  - rewrite Ho. done.
  - done.
  - cbn. unfold zlen in Hl. lia.
  - exists r. rewrite app_nil_r in Hread. split; [exact Hread|]. exact Hk.
Defined.
