(* ===== verification/LogFile.v ===== *)
(** * Logs in files

    log::Writer on top of WritableFileWriter: what is appended to the writer of a
    buffered file fulfils what the log relies on, so the records of a log that was
    synced or closed are all read back, and after a failure the first ones. *)

From S2P Require Import Prelude Status Coding Crc32c CrcCombine MetaLog FileWriter FileWriterProps FileWriterOps.
From S2P Require Import LogFormat LogProps LogCrash.

Section dest.
Context {F R G : Type} `{fspec : FSWritableFileSpec F} `{lspec : RateLimiterSpec R} `{gen : FileChecksumGenerator G}.
Context (fresh : Z -> byte) (op : IOPriority).
Abbreviation FW := (FileWriter F R G).
Implicit Types w : FW.

(** [op] is the priority that the caller of [AddRecord] passes on. *)
#[export] Instance file_dest : LogDest FW := {|
  dest_Append b crc := FileWriter_Append fresh b crc op;
  dest_Flush := FileWriter_Flush IO_TOTAL;
  dest_Close := FileWriter_Close;
  dest_seen_error := seen_error_
|}.

Definition file_of w : F := match writable_file_ w with Held f | Released f => f end.

(** Data that was appended waits for a sync. *)
Definition unsynced (verify : bool) (A : bytes) w : Prop := fw_inv false verify A w /\ (pending_sync_ w = true \/ A = []).

Lemma fw_inv_data verify A w : fw_inv false verify A w -> A = fs_data (file_of w) ++ ab_data (buf_ w).
Proof.
  intros [Hi _]. destruct (winv_buffered _ _ Hi) as (D & (f & Hf & _ & _ & <-) & ->). unfold file_of. by rewrite Hf.
Qed.

#[export] Instance file_dest_spec : LogDestSpec FW.
Proof.
  refine {| dest_inv w := exists verify A, unsynced verify A w; dest_waits := fs_waits;
            dest_file w := fs_file (file_of w); dest_data w := fs_data (file_of w) ++ ab_data (buf_ w) |}.
  - intros b crc w (v & A & Hi & _) Hb Hc. cbn [dest_Append file_dest]. rewrite <- (fw_inv_data v A w Hi).
    pose proof (Append_spec fresh false v A w b crc op Hi ltac:(unfold kBlockSize in Hb; lia) ltac:(done) Hc) as Hs.
    unfold outcome in Hs. destruct (FileWriter_Append fresh b crc op w) as [[] w'|e w'|]; [| |done].
    + destruct Hs as [Hi' Hp]. split; [exists v, (A ++ b); by split; [|left]|]. symmetry. by eapply fw_inv_data.
    + destruct Hs as (He & (f & Hf & Hp) & _). split; [done|]. unfold file_of. rewrite Hf. by apply Hp.
  - intros w (v & A & Hi & Hpend). cbn [dest_Flush file_dest]. rewrite <- (fw_inv_data v A w Hi). pose proof Hi as (Hw & Hz & Hv).
    pose proof (Flush_spec fresh false A w IO_TOTAL Hw) as Hs. unfold outcome in Hs.
    destruct (FileWriter_Flush IO_TOTAL w) as [[] w'|e w'|]; [| |done].
    + destruct Hs as (Hw' & _ & (_ & Hz' & Hp' & Hv' & _) & _).
      assert (fw_inv false v A w') as Hi' by (split_and!; [done|congruence..]).
      split; [exists v, A; split; [done|by rewrite Hp']|]. symmetry. by eapply fw_inv_data.
    + destruct Hs as (He & (f & Hf & Hp) & _). split; [done|]. unfold file_of. rewrite Hf. by apply Hp.
Defined.
End dest.

Lemma log_stream_nonempty recycle num o rs s o' : log_stream recycle num o rs s o' -> rs <> [] -> s <> [].
Proof. intros Hs Hne. inversion Hs as [|? ? ? s1 ? ? ? Hf]; subst; [done|]. apply frags_nonempty in Hf. by destruct s1. Qed.

(** The records that a reader of the bytes [b] returns. *)
Definition reads_back {F U C : Type} `{sspec : LogSourceSpec F} `{comp : StreamingCompression C U}
    (log_number : Z) (rs : list bytes) (all : bool) (b : bytes) : Prop :=
  exists fuel0, forall (f : F) (n rfuel : nat) mode checksum,
  src_rest f b -> (length rs < n)%nat -> (fuel0 <= rfuel)%nat ->
  exists m r, read_log n rfuel mode (LogReader_new (U := U) f checksum log_number) = Ok (take m rs) r /\
    (all = true -> m = length rs /\ reported r = []).

Section recovery.
Context {F R G S C U : Type} `{fspec : FSWritableFileSpec F} `{lspec : RateLimiterSpec R} `{gen : FileChecksumGenerator G}.
Context `{sspec : LogSourceSpec S} `{comp : StreamingCompression C U} (fresh : Z -> byte) (op : IOPriority).
Context (recycle : bool) (log_number : Z) (Hnum : recycle = true -> 0 <= log_number < 2 ^ 32).

Lemma reads_prefix rs s o b :
  log_stream recycle log_number 0 rs s o -> b `prefix_of` s -> reads_back (F := S) (U := U) log_number rs false b.
Proof.
  intros Hst Hp. destruct (read_cut_log (F := S) (U := U) recycle log_number Hnum rs s o b Hst Hp) as [fuel0 Hr].
  exists fuel0. intros f n rfuel mode checksum Hf Hn Hrf. destruct (Hr f n rfuel mode checksum Hf Hn Hrf) as (m & r & Hread).
  exists m, r. by split.
Qed.

(** The log that was written is read back. *)
Lemma reads_written fuel rs (d : FileWriter F R G) manual compression w :
  write_log (dst := file_dest fresh op) fuel rs (LogWriter_new (C := C) d log_number recycle manual compression) = Ok tt w ->
  dest_inv (dst := file_dest fresh op) d -> dest_data (dst := file_dest fresh op) d = [] ->
  Forall (fun r => (length r + 2 <= fuel)%nat) rs ->
  reads_back (F := S) (U := U) log_number rs true (dest_data (dst := file_dest fresh op) (dest_ w)).
Proof.
  intros Hrun Hi Hd Hall. exists (length (dest_data (dst := file_dest fresh op) (dest_ w)) + 5)%nat.
  intros f n rfuel mode checksum Hf Hn Hrf.
  destruct (read_written_log (dst := file_dest fresh op) (F := S) (U := U) recycle log_number Hnum fuel rs d manual compression w
    _ [] Hrun Hi Hd Hall (eq_sym (app_nil_r _)) f n rfuel mode checksum Hf Hn Hrf) as (m & r & Hread & _ & Hm & Hq).
  exists m, r. split; [done|]. intros _. auto.
Qed.
(** Adding the records to a new file. *)
Lemma write_log_file fuel rs (f : F) max_buffer bytes_per_sync (limiter : option R) (g : option G) verify with_checksum manual compression :
  fs_inv f -> fs_use_direct_io f = false -> fs_data f = [] ->
  (exists k, 0 <= k <= 30 /\ fs_GetRequiredBufferAlignment f = 2 ^ k) ->
  0 < max_buffer -> max_buffer + fs_GetRequiredBufferAlignment f < 2 ^ 32 ->
  Forall (fun r => (length r + 2 <= fuel)%nat) rs -> rs <> [] ->
  let d0 := FileWriter_new fresh f max_buffer bytes_per_sync limiter g verify with_checksum in
  exists s o, log_stream recycle log_number 0 rs s o /\
  match write_log (dst := file_dest fresh op) fuel rs (LogWriter_new (C := C) d0 log_number recycle manual compression) with
  | Ok _ w => (exists v, fw_inv false v s (dest_ w)) /\ pending_sync_ (dest_ w) = true /\
      reads_back (F := S) (U := U) log_number rs true s
  | Err _ w => fs_file (file_of (dest_ w)) `prefix_of` s
  | Stuck _ => fs_waits
  end.
Proof.
  intros Hfi Hdir Hfd Hal Hpos Hmax Hall Hne d0.
  assert (fw_inv false verify [] d0) as Hd0 by (rewrite <- Hdir; by apply FileWriter_new_inv).
  assert (dest_inv (dst := file_dest fresh op) d0) as Hi0 by (exists verify, []; split; [done|by right]).
  assert (dest_data (dst := file_dest fresh op) d0 = []) as Hdata0 by (symmetry; by eapply fw_inv_data).
  destruct (log_stream_exist recycle log_number rs 0 ltac:(done)) as (s & o & Hst). exists s, o. split; [done|].
  set (w0 := LogWriter_new d0 _ _ _ _).
  pose proof (write_log_writes (dspec := file_dest_spec fresh op) recycle log_number _ _ _ _ Hst fuel w0 (new_writer_ok _ _ _ _ _ Hi0) eq_refl Hall) as Hw.
  unfold writes in Hw. change (dest_data (dst := file_dest fresh op) (dest_ w0)) with (dest_data (dst := file_dest fresh op) d0) in Hw.
  destruct (write_log (dst := file_dest fresh op) fuel rs w0) as [[] w|e w|] eqn:Hrun; [| |done].
  - pose proof (reads_written fuel rs d0 manual compression w Hrun Hi0 Hdata0 Hall) as Hall'.
    destruct Hw as (Hdata & _ & _ & _ & _ & _ & (v & A & Hi & Hpend)). pose proof (fw_inv_data _ _ _ Hi) as HA.
    change (dest_data (dst := file_dest fresh op) (dest_ w)) with (fs_data (file_of (dest_ w)) ++ ab_data (buf_ (dest_ w))) in Hdata, Hall'.
    rewrite <- HA in Hdata, Hall'. change (dest_data (dst := file_dest fresh op) (dest_ w0)) with (dest_data (dst := file_dest fresh op) d0) in Hdata.
    rewrite Hdata0 in Hdata. cbn [app] in Hdata. subst A. split_and!; [by exists v| |done].
    destruct Hpend as [?|E]; [done|]. by eapply log_stream_nonempty in E.
  - destruct Hw as [_ Hpre]. by rewrite Hdata0 in Hpre.
Qed.

(** A sync puts all of it into the file. *)
Lemma sync_log_file v s (d : FileWriter F R G) use_fsync :
  fw_inv false v s d -> pending_sync_ d = true ->
  match FileWriter_Sync use_fsync d with
  | Ok _ d' => fs_file (file_of d') = s
  | Err _ d' => fs_file (file_of d') `prefix_of` s
  | Stuck _ => fs_waits
  end.
Proof.
  intros Hi Hp. pose proof (Sync_spec fresh _ _ _ _ use_fsync Hi) as Hs. unfold outcome in Hs.
  destruct (FileWriter_Sync use_fsync d) as [[] d'|e d'|]; [| |done]; unfold file_of.
  - destruct Hs as (_ & _ & Hin). by destruct (Hin eq_refl Hp) as (f' & -> & Hff).
  - destruct Hs as (_ & (f' & -> & Hpre) & _). by apply Hpre.
Qed.
End recovery.


