(* ===== verification/LogZenFS.v ===== *)
(** * RocksDB's log in a write-ahead log of ZenFS

    log::Reader reads through SequentialFileReader (rocksdb-raw/file/
    sequence_file_reader.cc) from a ZonedSequentialFile; its promises to the reader
    hold for a write-ahead log of ZenFS whose chunks reached the device in any order. *)

From S2P Require Import Prelude Status Coding Device MemDevice Zone Zbd ZoneFile FileRead WalRecovery.
From S2P Require Import LogFormat LogProps LogCrash.

Section zenfs.
Context {D L X : Type} `{be : ZonedBlockDeviceBackend D L} {szd : SZDOnceLog D L} {cfg : BuildConfig}.
Implicit Types s : FSt D L X.

(** [SequentialFileReader::Read] without direct I/O and without a rate limiter: one
    read of all [n] bytes. (A read that hangs is shown as an error.) *)
Definition SequentialFileReader_Read (n : Z) (f : FSt D L X * SeqFile) : Status * bytes * (FSt D L X * SeqFile) :=
  if 0 <? n then
    match SeqFile_Read f.2 n f.1 with
    | Ok (s, result, sf) st => (s, result, (st, sf))
    | Err e st => (e, [], (st, f.2))
    | Stuck _ => (IOError "no answer", [], f)
    end
  else (OK, [], f).

#[export] Instance zenfs_source : LogSource (FSt D L X * SeqFile) := {| src_Read := SequentialFileReader_Read |}.

(** The file is a write-ahead log with the chunks [cs], of which a reader has read the
    first bytes. *)
Definition wal_reader (w : L) (d : D) (cs : list (list (Z * bytes))) s (sf : SeqFile) : Prop :=
  log_holds w d cs /\ zlen (all_entries cs) < 2 ^ 32 /\ (length (all_entries cs) < loop_bound)%nat /\
  zlen (stream cs) + kBlockSize < 2 ^ 64 /\ sf_direct sf = false /\ reader_at w d cs (rp sf) s.

Lemma wal_reader_read w d cs s sf n :
  wal_reader w d cs s sf -> 0 < n <= kBlockSize ->
  exists s' sf', SeqFile_Read sf n s = Ok (OK, ztake n (zdrop (rp sf) (stream cs)), sf') s' /\
    wal_reader w d cs s' sf' /\ rp sf' = Z.min (rp sf + n) (zlen (stream cs)).
Proof.
  intros (Hlog & Hents & Hbound & Hlen & Hdir & Hr) Hn. pose proof Hr as (_ & _ & Hp & _).
  destruct (WALPositionedRead_run w d cs Hlog ltac:(lia) Hents Hbound (rp sf) n s Hr) as (s' & Hrun & Hr'); [lia..|].
  unfold SeqFile_Read, PositionedRead. rewrite Hdir, (bind_ok _ _ _ _ _ Hrun). cbv beta iota.
  assert (zlen (ztake n (zdrop (rp sf) (stream cs))) = Z.min n (zlen (stream cs) - rp sf)) as Hz
    by (rewrite zlen_ztake, zlen_zdrop; lia).
  assert (rp sf +64 zlen (ztake n (zdrop (rp sf) (stream cs))) = Z.min (rp sf + n) (zlen (stream cs))) as Hrp
    by (rewrite Hz, u64_small; lia).
  do 2 eexists. split; [reflexivity|]. cbn. rewrite Hrp. split; [|done]. by split_and!.
Qed.

#[export] Instance zenfs_source_spec : LogSourceSpec (FSt D L X * SeqFile).
Proof.
  refine {| src_rest f r := exists w d cs, wal_reader w d cs f.1 f.2 /\ r = zdrop (rp f.2) (stream cs) |}.
  intros [s sf] r n (w & d & cs & Hw & ->) Hn. cbn [fst snd] in *. cbn [src_Read zenfs_source]. unfold SequentialFileReader_Read.
  pose proof Hw as (_ & _ & _ & _ & _ & (_ & _ & Hp & _)). cbn [fst snd].
  destruct (Z.ltb_spec 0 n).
  - destruct (wal_reader_read w d cs s sf n Hw ltac:(lia)) as (s' & sf' & -> & Hw' & Hrp).
    do 2 eexists. split; [reflexivity|]. split; [done|]. exists w, d, cs. split; [done|]. cbn [snd].
    rewrite Hrp. unfold zdrop. rewrite drop_drop. destruct (Z.le_gt_cases (rp sf + n) (zlen (stream cs))).
    + rewrite Z.min_l by lia. f_equal. lia.
    + rewrite Z.min_r, !drop_ge by (unfold zlen in *; lia). done.
  - replace n with 0 by lia. rewrite ztake_0, zdrop_0. do 2 eexists. split; [reflexivity|]. split; [done|]. by exists w, d, cs.
Defined.
End zenfs.


(** The log of two records, as one chunk whose two appends came in the wrong order. *)
Definition ex_chunk : list (Z * bytes) := [(0, ztake 12 (ex_log false)); (1, zdrop 12 (ex_log false))].
Definition ex_phys : list (Z * bytes) := [(1, zdrop 12 (ex_log false)); (0, ztake 12 (ex_log false))].
Definition ex_wal : MemLog := mkMemLog 4 7 0 17.
Definition ex_wal_file : FSt MemDev MemLog unit :=
  mkFSt (mkZbd (mkMemDev [(4 * 16384, chunk_bytes ex_phys)] ∅) ∅ [] [] [] 0 0 0 0 0 OK false 2 2 0)
    (set_linkfiles [b_of "/db/000007.log"] (set_file_size 24
      (set_extents [mkExtent 65552 12 4; mkExtent 65580 12 4] (set_wal (Some ex_wal) (ZoneFile_new 1))))) [] tt.

Lemma ex_wal_holds :
  log_holds (be := be1) (szd := szd1) (cfg := cfg1) ex_wal (zbd_be_ (f_zbd ex_wal_file)) [ex_chunk].
Proof.
  split; [|vm_compute; congruence|done|done|vm_compute; congruence].
  intros [|k] es Hk; [|done]. injection Hk as <-.
  assert (chunk_end (be := be1) (szd := szd1) (cfg := cfg1) ex_wal 0 = 69632) as -> by done.
  assert (wal_tail (be := be1) (szd := szd1) ex_wal = 65536) as -> by done.
  split; [done|]. split; [|split; [done|split]].
  - split; [done|]. exists ex_phys, (zeros 16 ++ zeros 4024). split; [apply Permutation_swap|].
    split; [right; by eexists|]. split; [vm_compute; reflexivity|]. vm_compute. reflexivity.
  - repeat constructor; simpl; lia.
  - repeat (apply Forall_cons; split; [repeat split; (done || (vm_compute; congruence))|]).
    by apply Forall_nil.
Qed.

