(* ===== verification/LogManifest.v ===== *)
(** * Logs in files of ZenFS

    The stack below a log that is not a write-ahead log, such as the MANIFEST:
    log::Writer over WritableFileWriter over ZonedWritableFile, and log::Reader over
    SequentialFileReader over ZonedSequentialFile. *)

From S2P Require Import Prelude Status Coding Device MemDevice Zone Zbd ZbdProps ZbdFrame ZoneFile ZoneFileProps FileWrite FileRead FileReadProps FileWriteProps WritableProps.
From S2P Require Import Crc32c MetaLog FileWriter FileWriterProps FileWriterOps ZonedFile.
From S2P Require Import LogFormat LogProps LogCrash LogFile LogZenFS.

(** ** Reading a file *)

Section plain.
Context {D L X : Type} `{spec : BackendSpec D L} {rel : ReliableReads D L} {szd : SZDOnceLog D L} {cfg : BuildConfig}.
Implicit Types s : FSt D L X.

(** A sequential file that has read the first [rp] bytes. *)
Definition plain_reader s (sf : SeqFile) : Prop :=
  file_readable s /\ zlen (file_contents s) + kBlockSize < 2 ^ 64 /\ 0 <= rp sf <= zlen (file_contents s).

Lemma file_readable_step s s' last :
  file_readable s -> read_step s s' ->
  file_readable (mkFSt (f_zbd s') (set_last_read last (f_file s')) (f_buf s') (f_ctx s')) /\
  file_contents (mkFSt (f_zbd s') (set_last_read last (f_file s')) (f_buf s') (f_ctx s')) = file_contents s.
Proof.
  intros Hr (z & (d & -> & Hd) & ->). cbn [f_zbd f_file f_buf f_ctx].
  assert (contents d (extents_ (f_file s)) = contents (zbd_be_ (f_zbd s)) (extents_ (f_file s))) as Hc
    by (by apply contents_same).
  split; [|done]. destruct Hr as (Hn & He & Hsz & Hu & Hl). unfold file_readable.
  cbn [f_zbd f_file set_be set_last_read zbd_be_ extents_ file_size_ linkfiles_]. rewrite Hc. by split_and!.
Qed.

Lemma plain_reader_read s sf n :
  plain_reader s sf -> 0 < n <= kBlockSize ->
  exists s' sf', SeqFile_Read sf n s = Ok (OK, ztake n (zdrop (rp sf) (file_contents s)), sf') s' /\
    plain_reader s' sf' /\ file_contents s' = file_contents s /\ rp sf' = Z.min (rp sf + n) (zlen (file_contents s)).
Proof.
  intros (Hr & Hlen & Hp) Hn.
  destruct (PositionedRead_file (rp sf) n (sf_direct sf) s Hr) as (s1 & last & Hrun & Hst); [lia..|].
  destruct (file_readable_step s s1 last Hr Hst) as [Hr' Hc']. fold (file_contents s) in Hrun.
  unfold SeqFile_Read. rewrite (bind_ok _ _ _ _ _ Hrun). cbv beta iota. change (ok OK) with true. cbv iota.
  assert (rp sf +64 zlen (ztake n (zdrop (rp sf) (file_contents s))) = Z.min (rp sf + n) (zlen (file_contents s))) as Hrp.
  { rewrite zlen_ztake, zlen_zdrop by lia. rewrite u64_small; lia. }
  rewrite Hrp. do 2 eexists. split; [reflexivity|]. split_and!; [|done|done]. split_and!; [done|by rewrite Hc'|cbn; lia|rewrite Hc'; cbn; lia].
Qed.

Definition plain_source_spec : LogSourceSpec (FSt D L X * SeqFile).
Proof.
  refine {| src_rest f r := plain_reader f.1 f.2 /\ r = zdrop (rp f.2) (file_contents f.1) |}.
  intros [s sf] r n [Hr ->] Hn. cbn [fst snd] in *. cbn [src_Read zenfs_source]. unfold SequentialFileReader_Read. cbn [fst snd].
  pose proof Hr as (_ & _ & Hp). destruct (Z.ltb_spec 0 n).
  - destruct (plain_reader_read s sf n Hr ltac:(lia)) as (s' & sf' & -> & Hr' & Hc & Hrp).
    do 2 eexists. split; [reflexivity|]. split; [done|]. cbn [fst snd]. split; [done|]. rewrite Hc, Hrp. unfold zdrop. rewrite drop_drop.
    destruct (Z.le_gt_cases (rp sf + n) (zlen (file_contents s))).
    + rewrite Z.min_l by lia. f_equal. lia.
    + rewrite Z.min_r, !drop_ge by (unfold zlen in *; lia). done.
  - replace n with 0 by lia. rewrite ztake_0, zdrop_0. do 2 eexists. by split.
Defined.

(** What a reader of the file gets: all of the records, or the first ones. *)
Definition recovers {C U : Type} `{comp : StreamingCompression C U} (log_number : Z) (rs : list bytes) (all : bool) s : Prop :=
  file_readable s -> zlen (file_contents s) + kBlockSize < 2 ^ 64 ->
  exists fuel0, forall (n rfuel : nat) mode checksum, (length rs < n)%nat -> (fuel0 <= rfuel)%nat ->
  exists m r, read_log n rfuel mode (LogReader_new (U := U) (s, SeqFile_new false (f_file s)) checksum log_number) = Ok (take m rs) r /\
    (all = true -> m = length rs /\ reported r = []).

Lemma reads_back_recovers {C U : Type} `{comp : StreamingCompression C U} log_number rs all s :
  reads_back (sspec := plain_source_spec) (U := U) log_number rs all (file_contents s) ->
  recovers (U := U) log_number rs all s.
Proof.
  intros [fuel0 Hr] Hread Hlen. exists fuel0. intros n rfuel mode checksum Hn Hrf. apply Hr; [|done|done].
  cbn [src_rest plain_source_spec fst snd rp SeqFile_new]. rewrite zdrop_0. split; [|done].
  split_and!; [done|done|done|apply zlen_nonneg].
Qed.
End plain.


(** A new file in the first zone of the small device, with a buffer of 16 bytes. *)
#[local] Existing Instance be0.
#[local] Existing Instance spec0.
#[local] Existing Instance rel0.
#[local] Existing Instance szd0.
#[local] Existing Instance cfg0.
#[local] Existing Instance no_writer.
#[local] Existing Instance no_writer_spec.
Definition manifest0 : FSt MemDev MemLog unit * WFile :=
  (mkFSt (f_zbd (append_state 8)) (set_linkfiles [b_of "/db/MANIFEST-000001"] (set_active_zone (Some 1%nat)
     (set_extent_start 80 (ZoneFile_new 1)))) (zeros 16) tt, mkWFile true 0 16 0 0 true).

Lemma manifest0_inv : writer_inv manifest0.
Proof.
  split; try done; try (simpl; lia).
  pose proof (append_state_inv 8) as [Hd Hw _ _ Ha]. split; try done.
Qed.

