(* ===== verification/WideColumns.v ===== *)
(** * Wide columns

    WideColumnSerialization (rocksdb-raw/db/wide/wide_column_serialization.cc): the
    serialized form of an entity, a sorted index of the columns followed by their values. *)

From S2P Require Import Prelude Status Coding.

(** ** Slice::compare *)

(** [memcmp] over the common length, then the lengths. *)
Fixpoint Slice_compare (a b : bytes) : Z :=
  match a, b with
  | [], [] => 0
  | [], _ :: _ => -1
  | _ :: _, [] => 1
  | x :: a, y :: b =>
      if byte.unsigned x <? byte.unsigned y then -1
      else if byte.unsigned y <? byte.unsigned x then 1 else Slice_compare a b
  end.

(** ** Serialization *)

Abbreviation WideColumn := (bytes * bytes)%type.
Definition kCurrentVersion : Z := 1.
Definition kDefaultWideColumnName : bytes := [].
Definition too_long (b : bytes) : bool := 2 ^ 32 - 1 <? zlen b.

(** The loop over the columns, which writes the index. *)
Fixpoint serialize_index (prev_name : option bytes) (columns : list WideColumn) (output : bytes) : Status + bytes :=
  match columns with
  | [] => inr output
  | (name, value) :: columns =>
      if too_long name then inl (InvalidArgument "Wide column name too long")
      else if match prev_name with Some p => 0 <=? Slice_compare p name | None => false end
      then inl (Corruption "Wide columns out of order")
      else if too_long value then inl (InvalidArgument "Wide column value too long")
      else serialize_index (Some name) columns (PutVarint32 (PutLengthPrefixedSlice output name) (u32 (zlen value)))
  end.

Definition SerializeImpl (value_of_default : option bytes) (columns : list WideColumn) (output : bytes) : Status + bytes :=
  let num_columns := match value_of_default with Some _ => zlen columns +64 1 | None => zlen columns end in
  if 2 ^ 32 - 1 <? num_columns then inl (InvalidArgument "Too many wide columns")
  else
    let output := PutVarint32 (PutVarint32 output kCurrentVersion) (u32 num_columns) in
    match value_of_default with
    | Some v =>
        if too_long v then inl (InvalidArgument "Wide column value too long")
        else
          match serialize_index (Some kDefaultWideColumnName) columns
            (PutVarint32 (PutLengthPrefixedSlice output kDefaultWideColumnName) (u32 (zlen v))) with
          | inl s => inl s
          | inr output => inr (fold_left (fun o c => o ++ c.2) columns (output ++ v))
          end
    | None =>
        match serialize_index None columns output with
        | inl s => inl s
        | inr output => inr (fold_left (fun o c => o ++ c.2) columns output)
        end
    end.
Definition Serialize (columns : list WideColumn) (output : bytes) : Status + bytes := SerializeImpl None columns output.
Definition Serialize_default (value_of_default : bytes) (other_columns : list WideColumn) (output : bytes) : Status + bytes :=
  SerializeImpl (Some value_of_default) other_columns output.

(** [for (i = 0; i < num_columns; ++i)]: the names and the sizes of the values. *)
Fixpoint read_index (n : nat) (last : option bytes) (input : bytes) : Status + (list (bytes * Z) * bytes) :=
  match n with
  | O => inr ([], input)
  | S n' =>
      match GetLengthPrefixedSlice input with
      | (None, _) => inl (Corruption "Error decoding wide column name")
      | (Some name, input) =>
          if match last with Some l => 0 <=? Slice_compare l name | None => false end
          then inl (Corruption "Wide columns out of order")
          else
            match GetVarint32 input with
            | None => inl (Corruption "Error decoding wide column value size")
            | Some (value_size, input) =>
                match read_index n' (Some name) input with
                | inl s => inl s
                | inr (cs, rest) => inr ((name, value_size) :: cs, rest)
                end
            end
      end
  end.

(** The loop over the values in [data]. *)
Fixpoint read_values (index : list (bytes * Z)) (data : bytes) (pos : Z) : Status + list WideColumn :=
  match index with
  | [] => inr []
  | (name, value_size) :: index =>
      if zlen data <? pos +64 value_size then inl (Corruption "Error decoding wide column value payload")
      else
        match read_values index data (pos +64 value_size) with
        | inl s => inl s
        | inr cs => inr ((name, ztake value_size (zdrop pos data)) :: cs)
        end
  end.

(** The columns, and what is left of the input: the values are not consumed. *)
Definition Deserialize (input : bytes) : Status + (list WideColumn * bytes) :=
  match GetVarint32 input with
  | None => inl (Corruption "Error decoding wide column version")
  | Some (version, input) =>
      if kCurrentVersion <? version then inl (NotSupported "Unsupported wide column version")
      else
        match GetVarint32 input with
        | None => inl (Corruption "Error decoding number of wide columns")
        | Some (num_columns, input) =>
            match read_index (Z.to_nat num_columns) None input with
            | inl s => inl s
            | inr (index, data) =>
                match read_values index data 0 with inl s => inl s | inr cs => inr (cs, data) end
            end
        end
  end.

(** [std::lower_bound], whose result is the first column that is not less. *)
Fixpoint Find (columns : list WideColumn) (column_name : bytes) : option WideColumn :=
  match columns with
  | [] => None
  | c :: columns =>
      if Slice_compare c.1 column_name <? 0 then Find columns column_name
      else if bool_decide (c.1 = column_name) then Some c else None
  end.

Definition GetValueOfDefaultColumn (input : bytes) : Status + bytes :=
  match Deserialize input with
  | inl s => inl s
  | inr ((name, value) :: _, _) => inr (if bool_decide (name = kDefaultWideColumnName) then value else [])
  | inr ([], _) => inr []
  end.

(** ** Ordering *)

Lemma Slice_compare_refl a : Slice_compare a a = 0.
Proof. induction a as [|x a IH]; [done|]. cbn. by rewrite Z.ltb_irrefl. Qed.

Lemma Slice_compare_eq a : forall b, Slice_compare a b = 0 -> a = b.
Proof.
  induction a as [|x a IH]; intros [|y b]; cbn; try done.
  destruct (Z.ltb_spec (byte.unsigned x) (byte.unsigned y)); [done|]. destruct (Z.ltb_spec (byte.unsigned y) (byte.unsigned x)); [done|].
  intros H1. f_equal; [|by apply IH]. apply byte.unsigned_inj. lia.
Qed.

Lemma Slice_compare_flip a : forall b, Slice_compare b a = - Slice_compare a b.
Proof.
  induction a as [|x a IH]; intros [|y b]; cbn; try done.
  destruct (Z.ltb_spec (byte.unsigned x) (byte.unsigned y)), (Z.ltb_spec (byte.unsigned y) (byte.unsigned x)); try done; lia.
Qed.

Lemma Slice_compare_trans a : forall b c, Slice_compare a b < 0 -> Slice_compare b c < 0 -> Slice_compare a c < 0.
Proof.
  induction a as [|x a IH]; intros [|y b] [|z c]; cbn; try lia.
  destruct (Z.ltb_spec (byte.unsigned x) (byte.unsigned y)), (Z.ltb_spec (byte.unsigned y) (byte.unsigned x)),
    (Z.ltb_spec (byte.unsigned y) (byte.unsigned z)), (Z.ltb_spec (byte.unsigned z) (byte.unsigned y)),
    (Z.ltb_spec (byte.unsigned x) (byte.unsigned z)), (Z.ltb_spec (byte.unsigned z) (byte.unsigned x)); try lia. apply IH.
Qed.

(** ** Lemmas *)

(** Names in order, and everything within 32 bits. *)
Fixpoint columns_ok (prev : option bytes) (columns : list WideColumn) : Prop :=
  match columns with
  | [] => True
  | (name, value) :: columns =>
      zlen name < 2 ^ 32 /\ zlen value < 2 ^ 32 /\
      match prev with Some p => Slice_compare p name < 0 | None => True end /\ columns_ok (Some name) columns
  end.

Definition index_bytes (columns : list WideColumn) : bytes :=
  concat (map (fun c => EncodeVarint32 (u32 (zlen c.1)) ++ c.1 ++ EncodeVarint32 (u32 (zlen c.2))) columns).
Definition values_bytes (columns : list WideColumn) : bytes := concat (map snd columns).

Lemma too_long_spec b : too_long b = false <-> zlen b < 2 ^ 32.
Proof. unfold too_long. rewrite Z.ltb_ge. lia. Qed.

(** The index is written exactly when the columns are in order and not too long. *)
Lemma serialize_index_spec columns : forall prev output,
  match serialize_index prev columns output with
  | inr o => columns_ok prev columns /\ o = output ++ index_bytes columns
  | inl e => ok e = false /\ ~ columns_ok prev columns
  end.
Proof.
  induction columns as [|[name value] columns IH]; intros prev output; cbn [serialize_index columns_ok].
  { split; [done|]. by rewrite app_nil_r. }
  destruct (too_long name) eqn:E1.
  { split; [done|]. intros (Hn & _). apply too_long_spec in Hn. congruence. }
  destruct (match prev with Some p => _ | None => _ end) eqn:E2.
  { split; [done|]. intros (_ & _ & Ho & _). destruct prev as [p|]; [|done]. apply Z.leb_le in E2. lia. }
  destruct (too_long value) eqn:E3.
  { split; [done|]. intros (_ & Hv & _). apply too_long_spec in Hv. congruence. }
  specialize (IH (Some name) (PutVarint32 (PutLengthPrefixedSlice output name) (u32 (zlen value)))).
  apply too_long_spec in E1, E3. destruct (serialize_index _ _ _) as [e|o].
  - split; [apply IH|]. intros (_ & _ & _ & Hc). by apply IH.
  - destruct IH as [Hc ->]. split.
    + split_and!; try done. destruct prev as [p|]; [|done]. apply Z.leb_gt in E2. lia.
    + unfold PutVarint32. rewrite PutLengthPrefixedSlice_eq. unfold index_bytes. cbn [map concat fst snd]. by rewrite <- !app_assoc.
Qed.

Lemma fold_values columns : forall o, fold_left (fun o (c : WideColumn) => o ++ c.2) columns o = o ++ values_bytes columns.
Proof.
  induction columns as [|c columns IH]; intros o; cbn; [by rewrite app_nil_r|]. rewrite IH. unfold values_bytes. cbn. by rewrite app_assoc.
Qed.

Lemma read_index_spec columns : forall prev data,
  columns_ok prev columns ->
  read_index (length columns) prev (index_bytes columns ++ data) = inr (map (fun c => (c.1, zlen c.2)) columns, data).
Proof.
  induction columns as [|[name value] columns IH]; intros prev data; [done|].
  intros (Hn & Hv & Ho & Hc). unfold index_bytes. cbn [map concat fst snd length read_index]. fold (index_bytes columns).
  rewrite <- !app_assoc, GetLengthPrefixedSlice_encode by done.
  assert (match prev with Some l => 0 <=? Slice_compare l name | None => false end = false) as ->.
  { destruct prev; [|done]. apply Z.leb_gt. lia. }
  pose proof (zlen_nonneg value). rewrite (u32_small (zlen value)) by lia. rewrite GetVarint32_encode by lia. by rewrite IH.
Qed.

Lemma read_values_spec columns : forall pre rest,
  zlen (pre ++ values_bytes columns ++ rest) < 2 ^ 64 ->
  read_values (map (fun c : WideColumn => (c.1, zlen c.2)) columns) (pre ++ values_bytes columns ++ rest) (zlen pre) = inr columns.
Proof.
  induction columns as [|[name value] columns IH]; intros pre rest Hl; [done|]. cbn [map read_values fst snd].
  unfold values_bytes in *. cbn [map concat snd] in *. fold (values_bytes columns) in *. rewrite <- app_assoc in *.
  pose proof (zlen_nonneg pre). pose proof (zlen_nonneg value). pose proof (zlen_nonneg (values_bytes columns ++ rest)).
  rewrite !zlen_app in Hl. rewrite (u64_small (zlen pre + zlen value)) by (rewrite zlen_app in *; lia).
  destruct (Z.ltb_spec (zlen (pre ++ value ++ values_bytes columns ++ rest)) (zlen pre + zlen value)) as [Hlt|_].
  { rewrite !zlen_app in Hlt. rewrite zlen_app in *. lia. }
  specialize (IH (pre ++ value) rest). rewrite <- app_assoc in IH. rewrite <- (zlen_app pre value), IH by (rewrite !zlen_app; lia).
  by rewrite zdrop_app, ztake_app.
Qed.

(** Whatever is accepted is in order. *)
Fixpoint names_sorted (prev : option bytes) (names : list bytes) : Prop :=
  match names with
  | [] => True
  | name :: names => match prev with Some p => Slice_compare p name < 0 | None => True end /\ names_sorted (Some name) names
  end.

Lemma read_index_sorted n : forall last input index rest,
  read_index n last input = inr (index, rest) -> names_sorted last (map fst index).
Proof.
  induction n as [|n IH]; intros last input index rest; cbn [read_index]; [by intros [= <- <-]|].
  destruct (GetLengthPrefixedSlice input) as [[name|] i1]; [|done].
  destruct (match last with Some _ => _ | None => _ end) eqn:Eo; [done|].
  destruct (GetVarint32 i1) as [[v i2]|]; [|done]. destruct (read_index n (Some name) i2) as [?|[cs r]] eqn:E; [done|].
  intros [= <- <-]. split; [|by eapply IH]. destruct last; [|done]. apply Z.leb_gt in Eo. cbn. lia.
Qed.

Lemma read_values_names index : forall data pos cs, read_values index data pos = inr cs -> map fst cs = map fst index.
Proof.
  induction index as [|[name v] index IH]; intros data pos cs; cbn [read_values]; [by intros [= <-]|].
  destruct (_ <? _); [done|]. destruct (read_values index data _) as [?|cs'] eqn:E; [done|]. intros [= <-]. cbn. f_equal. by eapply IH.
Qed.

Lemma Deserialize_sorted input cs data : Deserialize input = inr (cs, data) -> names_sorted None (map fst cs).
Proof.
  unfold Deserialize. destruct (GetVarint32 input) as [[v i1]|]; [|done]. destruct (_ <? _); [done|].
  destruct (GetVarint32 i1) as [[n i2]|]; [|done]. destruct (read_index _ None i2) as [?|[index d]] eqn:E; [done|].
  destruct (read_values index d 0) as [?|cs'] eqn:E2; [done|]. intros [= <- <-].
  rewrite (read_values_names _ _ _ _ E2). by eapply read_index_sorted.
Qed.

(** In an ordered list the search finds the column with the name, if there is one. *)
Lemma names_sorted_lt names : forall p, names_sorted (Some p) names -> Forall (fun name => Slice_compare p name < 0) names.
Proof.
  induction names as [|n names IH]; intros p; [done|]. intros [Hn Hs]. constructor; [done|].
  eapply Forall_impl; [by apply IH|]. intros x Hx. by eapply Slice_compare_trans.
Qed.

Lemma Find_spec cs : forall prev name,
  names_sorted prev (map fst cs) ->
  match Find cs name with Some c => c ∈ cs /\ c.1 = name | None => name ∉ map fst cs end.
Proof.
  induction cs as [|[n v] cs IH]; intros prev name; cbn [Find map names_sorted fst]; [intros _; apply not_elem_of_nil|].
  intros [_ Hs]. destruct (Z.ltb_spec (Slice_compare n name) 0) as [Hlt|Hge].
  - specialize (IH (Some n) name Hs). destruct (Find cs name) as [c|].
    + destruct IH as [Hin Hc]. split; [by right|done].
    + intros [->|Hin]%elem_of_cons; [rewrite Slice_compare_refl in Hlt; lia|done].
  - case_bool_decide as Hn; [split; [by left|done]|]. intros [->|Hin]%elem_of_cons; [done|].
    apply names_sorted_lt in Hs. rewrite Forall_forall in Hs. specialize (Hs name Hin). lia.
Qed.

(** The value of the default column goes in front. *)
Lemma Serialize_default_eq v columns output :
  zlen columns < 2 ^ 32 -> Serialize_default v columns output = Serialize ((kDefaultWideColumnName, v) :: columns) output.
Proof.
  intros Hn. pose proof (zlen_nonneg columns). unfold Serialize_default, Serialize, SerializeImpl. rewrite u64_small, zlen_cons by lia.
  replace (1 + zlen columns) with (zlen columns + 1) by lia. destruct (_ <? _); [done|]. cbn [serialize_index fold_left snd].
  destruct (too_long v); [done|]. by destruct (serialize_index _ columns _).
Qed.

(** ** Properties *)

(** C37: A wide-column entity: columns are serialized exactly when their names are in
    strictly increasing order and nothing exceeds 32 bits, and deserializing what was
    written, with whatever follows it, gives back the columns.  Every input that
    [Deserialize] accepts has its columns in order, so that [Find] returns the column of
    a name, and none when there is none.  An entity that is given by the value of its
    default column and its other columns is serialized with the default column first. *)
Theorem wide_columns_roundtrip (columns : list WideColumn) (output rest : bytes) :
  zlen columns < 2 ^ 32 -> zlen (values_bytes columns ++ rest) < 2 ^ 64 ->
  match Serialize columns output with
  | inr o => columns_ok None columns /\
      exists enc, o = output ++ enc /\ Deserialize (enc ++ rest) = inr (columns, values_bytes columns ++ rest)
  | inl e => ok e = false /\ ~ columns_ok None columns
  end /\
  (forall input cs data name, Deserialize input = inr (cs, data) ->
    match Find cs name with Some c => c ∈ cs /\ c.1 = name | None => name ∉ map fst cs end) /\
  forall v, Serialize_default v columns output = Serialize ((kDefaultWideColumnName, v) :: columns) output.
Proof.
  intros Hn Hl. split; [|split].
  2: { intros input cs data name Hd. eapply Find_spec. by eapply Deserialize_sorted. }
  2: { intros v. by apply Serialize_default_eq. }
  unfold Serialize, SerializeImpl. destruct (Z.ltb_spec (2 ^ 32 - 1) (zlen columns)); [lia|].
  pose proof (zlen_nonneg columns). rewrite (u32_small (zlen columns)) by lia. set (out1 := PutVarint32 _ (zlen columns)).
  pose proof (serialize_index_spec columns None out1) as Hs. destruct (serialize_index None columns out1) as [e|o]; [done|].
  destruct Hs as [Hc ->]. split; [done|]. rewrite fold_values. unfold out1, PutVarint32.
  exists (EncodeVarint32 kCurrentVersion ++ EncodeVarint32 (zlen columns) ++ index_bytes columns ++ values_bytes columns).
  split; [by rewrite <- !app_assoc|]. unfold Deserialize. rewrite <- !app_assoc, GetVarint32_encode by done. cbn [Z.ltb].
  change (kCurrentVersion <? kCurrentVersion) with false. cbv iota. rewrite GetVarint32_encode by lia.
  assert (Z.to_nat (zlen columns) = length columns) as -> by (unfold zlen; lia). rewrite read_index_spec by done.
  pose proof (read_values_spec columns [] rest Hl) as Hv. cbn [app] in Hv. change (zlen []) with 0 in Hv. by rewrite Hv.
Qed.

Lemma wide_columns_roundtrip_witness :
  let cs := [([], [Byte.x30]); ([Byte.x61], [Byte.x31; Byte.x32]); ([Byte.x61; Byte.x62], [])] in
  exists o, Serialize cs [] = inr o /\ Deserialize o = inr (cs, [Byte.x30; Byte.x31; Byte.x32]) /\
    Find cs [Byte.x61] = Some ([Byte.x61], [Byte.x31; Byte.x32]).
Proof.
  intros cs. destruct (wide_columns_roundtrip cs [] []) as [Hs _]; [vm_compute; reflexivity..|].
  destruct (Serialize cs []) as [e|o] eqn:E; [vm_compute in E; discriminate E|]. destruct Hs as (_ & enc & Ho & Hd).
  exists o. split; [done|]. split; [|vm_compute; reflexivity]. rewrite app_nil_r in Hd. by rewrite Ho.
Defined.
