(* ===== verification/WriteBatch.v ===== *)
(** * Write batches

    WriteBatch (rocksdb-raw/db/write_batch.cc, write_batch_internal.h,
    include/rocksdb/write_batch.h): the updates of a write in their serialized form,
    which is also the record of the write-ahead log, and the iteration over it.
    Batches have no per-key checksums ([prot_info_] is null). *)

From stdpp Require Import sorting.
From S2P Require Import Prelude Status Coding WideColumns.

(** ** Tags and flags *)

(** [enum ValueType] (dbformat.h) *)
Definition kTypeDeletion : Z := 0x0.
Definition kTypeValue : Z := 0x1.
Definition kTypeMerge : Z := 0x2.
Definition kTypeLogData : Z := 0x3.
Definition kTypeColumnFamilyDeletion : Z := 0x4.
Definition kTypeColumnFamilyValue : Z := 0x5.
Definition kTypeColumnFamilyMerge : Z := 0x6.
Definition kTypeSingleDeletion : Z := 0x7.
Definition kTypeColumnFamilySingleDeletion : Z := 0x8.
Definition kTypeBeginPrepareXID : Z := 0x9.
Definition kTypeEndPrepareXID : Z := 0xA.
Definition kTypeCommitXID : Z := 0xB.
Definition kTypeRollbackXID : Z := 0xC.
Definition kTypeNoop : Z := 0xD.
Definition kTypeColumnFamilyRangeDeletion : Z := 0xE.
Definition kTypeRangeDeletion : Z := 0xF.
Definition kTypeColumnFamilyBlobIndex : Z := 0x10.
Definition kTypeBlobIndex : Z := 0x11.
Definition kTypeBeginPersistedPrepareXID : Z := 0x12.
Definition kTypeBeginUnprepareXID : Z := 0x13.
Definition kTypeDeletionWithTimestamp : Z := 0x14.
Definition kTypeCommitXIDAndTimestamp : Z := 0x15.
Definition kTypeWideColumnEntity : Z := 0x16.
Definition kTypeColumnFamilyWideColumnEntity : Z := 0x17.

(** [enum ContentFlags] *)
Definition DEFERRED : Z := 2 ^ 0.
Definition HAS_PUT : Z := 2 ^ 1.
Definition HAS_DELETE : Z := 2 ^ 2.
Definition HAS_SINGLE_DELETE : Z := 2 ^ 3.
Definition HAS_MERGE : Z := 2 ^ 4.
Definition HAS_BEGIN_PREPARE : Z := 2 ^ 5.
Definition HAS_END_PREPARE : Z := 2 ^ 6.
Definition HAS_COMMIT : Z := 2 ^ 7.
Definition HAS_ROLLBACK : Z := 2 ^ 8.
Definition HAS_DELETE_RANGE : Z := 2 ^ 9.
Definition HAS_BLOB_INDEX : Z := 2 ^ 10.
Definition HAS_BEGIN_UNPREPARE : Z := 2 ^ 11.
Definition HAS_PUT_ENTITY : Z := 2 ^ 12.

(** [Status::MemoryLimit()], [Status::TryAgain()] *)
Definition MemoryLimit : Status := mkStatus kAborted kMemoryLimit "".
Definition IsTryAgain (s : Status) : bool := bool_decide (code s = kTryAgain).

(** ** The batch *)

(** [struct SavePoint]; the count is kept as the 32-bit number it is set from. *)
Record SavePoint := mkSavePoint { sp_size : Z; sp_count : Z; sp_content_flags : Z }.
Definition SavePoint_clear : SavePoint := mkSavePoint 0 0 0.
Definition is_cleared (p : SavePoint) : bool := Z.lor (Z.lor (sp_size p) (sp_count p)) (sp_content_flags p) =? 0.

(** [save_points_] is the stack, empty when there is none. *)
Record WriteBatch := mkWriteBatch {
  save_points_ : list SavePoint;
  wal_term_point_ : SavePoint;
  is_latest_persistent_state_ : bool;
  needs_in_place_update_ts_ : bool;
  has_key_with_ts_ : bool;
  content_flags_ : Z;
  max_bytes_ : Z;
  default_cf_ts_sz_ : Z;
  rep_ : bytes
}.

Definition kHeader : Z := 12.

Definition set_save_points l b := mkWriteBatch l (wal_term_point_ b) (is_latest_persistent_state_ b)
  (needs_in_place_update_ts_ b) (has_key_with_ts_ b) (content_flags_ b) (max_bytes_ b) (default_cf_ts_sz_ b) (rep_ b).
Definition set_wal_term_point p b := mkWriteBatch (save_points_ b) p (is_latest_persistent_state_ b)
  (needs_in_place_update_ts_ b) (has_key_with_ts_ b) (content_flags_ b) (max_bytes_ b) (default_cf_ts_sz_ b) (rep_ b).
Definition set_ts_flags needs has b := mkWriteBatch (save_points_ b) (wal_term_point_ b) (is_latest_persistent_state_ b)
  needs has (content_flags_ b) (max_bytes_ b) (default_cf_ts_sz_ b) (rep_ b).
Definition set_content_flags c b := mkWriteBatch (save_points_ b) (wal_term_point_ b) (is_latest_persistent_state_ b)
  (needs_in_place_update_ts_ b) (has_key_with_ts_ b) c (max_bytes_ b) (default_cf_ts_sz_ b) (rep_ b).
Definition set_default_cf_ts_sz n b := mkWriteBatch (save_points_ b) (wal_term_point_ b) (is_latest_persistent_state_ b)
  (needs_in_place_update_ts_ b) (has_key_with_ts_ b) (content_flags_ b) (max_bytes_ b) n (rep_ b).
Definition set_rep r b := mkWriteBatch (save_points_ b) (wal_term_point_ b) (is_latest_persistent_state_ b)
  (needs_in_place_update_ts_ b) (has_key_with_ts_ b) (content_flags_ b) (max_bytes_ b) (default_cf_ts_sz_ b) r.
Definition SetMaxBytes n b := mkWriteBatch (save_points_ b) (wal_term_point_ b) (is_latest_persistent_state_ b)
  (needs_in_place_update_ts_ b) (has_key_with_ts_ b) (content_flags_ b) n (default_cf_ts_sz_ b) (rep_ b).
Definition SetAsLatestPersistentState b := mkWriteBatch (save_points_ b) (wal_term_point_ b) true
  (needs_in_place_update_ts_ b) (has_key_with_ts_ b) (content_flags_ b) (max_bytes_ b) (default_cf_ts_sz_ b) (rep_ b).

(** [std::string::resize] *)
Definition resize (n : Z) (r : bytes) : bytes := ztake n r ++ zeros (n - zlen r).

Definition WriteBatch_new (max_bytes default_cf_ts_sz : Z) : WriteBatch :=
  mkWriteBatch [] SavePoint_clear false false false 0 max_bytes default_cf_ts_sz (zeros kHeader).
Definition WriteBatch_of_rep (rep : bytes) : WriteBatch :=
  mkWriteBatch [] SavePoint_clear false false false DEFERRED 0 0 rep.

Definition WriteBatch_Clear (b : WriteBatch) : WriteBatch :=
  mkWriteBatch [] SavePoint_clear (is_latest_persistent_state_ b) (needs_in_place_update_ts_ b) (has_key_with_ts_ b)
    0 (max_bytes_ b) 0 (zeros kHeader).

Definition Count (b : WriteBatch) : Z := DecodeFixed32 kLittleEndian (zdrop 8 (rep_ b)).
Definition SetCount (n : Z) (b : WriteBatch) : WriteBatch := set_rep (splice 8 (EncodeFixed32 kLittleEndian n) (rep_ b)) b.
Definition Sequence (b : WriteBatch) : Z := DecodeFixed64 kLittleEndian (rep_ b).
Definition SetSequence (seq : Z) (b : WriteBatch) : WriteBatch := set_rep (splice 0 (EncodeFixed64 kLittleEndian seq) (rep_ b)) b.
Definition GetDataSize (b : WriteBatch) : Z := zlen (rep_ b).
Definition MarkWalTerminationPoint (b : WriteBatch) : WriteBatch :=
  set_wal_term_point (mkSavePoint (GetDataSize b) (Count b) (content_flags_ b)) b.

(** ** Adding updates *)

Abbreviation BM := (M WriteBatch).

Definition add_flags (c : Z) : BM unit := modify (fun b => set_content_flags (Z.lor (content_flags_ b) c) b).
Definition on_rep (f : bytes -> bytes) : BM unit := modify (fun b => set_rep (f (rep_ b)) b).

Definition LocalSavePoint : BM SavePoint := gets (fun b => mkSavePoint (GetDataSize b) (Count b) (content_flags_ b)).
Definition LocalSavePoint_commit (savepoint_ : SavePoint) : BM unit :=
  b <- get ;;
  if negb (max_bytes_ b =? 0) && (max_bytes_ b <? zlen (rep_ b)) then
    modify (fun b => set_content_flags (sp_content_flags savepoint_)
      (SetCount (sp_count savepoint_) (set_rep (resize (sp_size savepoint_) (rep_ b)) b))) ;;
    fail MemoryLimit
  else ret tt.

(** The tag, with the column family if it is not the default one. *)
Definition put_tag (column_family_id tag cf_tag : Z) (rep : bytes) : bytes :=
  if column_family_id =? 0 then rep ++ [byte.of_Z tag]
  else PutVarint32 (rep ++ [byte.of_Z cf_tag]) column_family_id.

(** What every update of a key does; [put] writes the strings behind the tag. *)
Definition add_update (column_family_id tag cf_tag flag : Z) (put : bytes -> bytes) : BM unit :=
  save <- LocalSavePoint ;;
  modify (fun b => SetCount (Count b +32 1) b) ;;
  on_rep (put_tag column_family_id tag cf_tag) ;;
  on_rep put ;;
  add_flags flag ;;
  LocalSavePoint_commit save.

Definition uint32_max : Z := 2 ^ 32 - 1.
Definition check_sizes (key value : bytes) : BM unit :=
  if uint32_max <? zlen key then fail (InvalidArgument "key is too large")
  else if uint32_max <? zlen value then fail (InvalidArgument "value is too large") else ret tt.

(** The total of the sizes is a [size_t]. *)
Definition parts_size (parts : list bytes) : Z := fold_left (fun t p => t +64 zlen p) parts 0.
Definition CheckSlicePartsLength (key value : list bytes) : BM unit :=
  if uint32_max <=? parts_size key then fail (InvalidArgument "key is too large")
  else if uint32_max <=? parts_size value then fail (InvalidArgument "value is too large") else ret tt.

Definition two_slices (k v : bytes) (rep : bytes) : bytes := PutLengthPrefixedSlice (PutLengthPrefixedSlice rep k) v.
Definition two_parts (k v : list bytes) (rep : bytes) : bytes :=
  PutLengthPrefixedSliceParts (PutLengthPrefixedSliceParts rep k) v.

Definition WBI_Put (cf : Z) (key value : bytes) : BM unit :=
  check_sizes key value ;;
  add_update cf kTypeValue kTypeColumnFamilyValue HAS_PUT (two_slices key value).
Definition WBI_PutParts (cf : Z) (key value : list bytes) : BM unit :=
  CheckSlicePartsLength key value ;;
  add_update cf kTypeValue kTypeColumnFamilyValue HAS_PUT (two_parts key value).
Definition WBI_Delete (cf : Z) (key : bytes) : BM unit :=
  add_update cf kTypeDeletion kTypeColumnFamilyDeletion HAS_DELETE (fun rep => PutLengthPrefixedSlice rep key).
Definition WBI_DeleteParts (cf : Z) (key : list bytes) : BM unit :=
  add_update cf kTypeDeletion kTypeColumnFamilyDeletion HAS_DELETE (fun rep => PutLengthPrefixedSliceParts rep key).
Definition WBI_SingleDelete (cf : Z) (key : bytes) : BM unit :=
  add_update cf kTypeSingleDeletion kTypeColumnFamilySingleDeletion HAS_SINGLE_DELETE (fun rep => PutLengthPrefixedSlice rep key).
Definition WBI_SingleDeleteParts (cf : Z) (key : list bytes) : BM unit :=
  add_update cf kTypeSingleDeletion kTypeColumnFamilySingleDeletion HAS_SINGLE_DELETE (fun rep => PutLengthPrefixedSliceParts rep key).
Definition WBI_DeleteRange (cf : Z) (begin_key end_key : bytes) : BM unit :=
  add_update cf kTypeRangeDeletion kTypeColumnFamilyRangeDeletion HAS_DELETE_RANGE (two_slices begin_key end_key).
Definition WBI_DeleteRangeParts (cf : Z) (begin_key end_key : list bytes) : BM unit :=
  add_update cf kTypeRangeDeletion kTypeColumnFamilyRangeDeletion HAS_DELETE_RANGE (two_parts begin_key end_key).
Definition WBI_Merge (cf : Z) (key value : bytes) : BM unit :=
  check_sizes key value ;;
  add_update cf kTypeMerge kTypeColumnFamilyMerge HAS_MERGE (two_slices key value).
Definition WBI_MergeParts (cf : Z) (key value : list bytes) : BM unit :=
  CheckSlicePartsLength key value ;;
  add_update cf kTypeMerge kTypeColumnFamilyMerge HAS_MERGE (two_parts key value).
Definition WBI_PutBlobIndex (cf : Z) (key value : bytes) : BM unit :=
  add_update cf kTypeBlobIndex kTypeColumnFamilyBlobIndex HAS_BLOB_INDEX (two_slices key value).

(** [std::sort] by name; columns with equal names, whose order is left open, are refused
    by [Serialize]. *)
Definition name_less (a b : WideColumn) : Prop := Slice_compare a.1 b.1 <= 0.
#[export] Instance name_less_dec : RelDecision name_less.
Proof. intros a b. unfold name_less. apply _. Defined.
Definition sort_columns (columns : list WideColumn) : list WideColumn := merge_sort name_less columns.

Definition WBI_PutEntity (cf : Z) (key : bytes) (columns : list WideColumn) : BM unit :=
  if uint32_max <? zlen key then fail (InvalidArgument "key is too large")
  else
    match Serialize (sort_columns columns) [] with
    | inl s => fail s
    | inr entity =>
        if uint32_max <? zlen entity then fail (InvalidArgument "wide column entity is too large")
        else add_update cf kTypeWideColumnEntity kTypeColumnFamilyWideColumnEntity HAS_PUT_ENTITY (two_slices key entity)
    end.

(** ** Markers and log data *)

Definition WBI_InsertNoop : BM unit := on_rep (fun rep => rep ++ [byte.of_Z kTypeNoop]).

(** The noop at the front is rewritten; writing behind the end of [rep_] is undefined. *)
Definition WBI_MarkEndPrepare (xid : bytes) (write_after_commit unprepared_batch : bool) : BM unit :=
  modify (set_save_points []) ;;
  n <- gets GetDataSize ;;
  if n <=? 12 then stuckM Undefined
  else
    on_rep (splice 12 [byte.of_Z (if write_after_commit then kTypeBeginPrepareXID
      else if unprepared_batch then kTypeBeginUnprepareXID else kTypeBeginPersistedPrepareXID)]) ;;
    on_rep (fun rep => PutLengthPrefixedSlice (rep ++ [byte.of_Z kTypeEndPrepareXID]) xid) ;;
    add_flags (Z.lor HAS_END_PREPARE HAS_BEGIN_PREPARE) ;;
    when unprepared_batch (add_flags HAS_BEGIN_UNPREPARE).
Definition WBI_MarkCommit (xid : bytes) : BM unit :=
  on_rep (fun rep => PutLengthPrefixedSlice (rep ++ [byte.of_Z kTypeCommitXID]) xid) ;;
  add_flags HAS_COMMIT.
Definition WBI_MarkCommitWithTimestamp (xid commit_ts : bytes) : BM unit :=
  on_rep (fun rep => two_slices commit_ts xid (rep ++ [byte.of_Z kTypeCommitXIDAndTimestamp])) ;;
  add_flags HAS_COMMIT.
Definition WBI_MarkRollback (xid : bytes) : BM unit :=
  on_rep (fun rep => PutLengthPrefixedSlice (rep ++ [byte.of_Z kTypeRollbackXID]) xid) ;;
  add_flags HAS_ROLLBACK.
Definition PutLogData (blob : bytes) : BM unit :=
  save <- LocalSavePoint ;;
  on_rep (fun rep => PutLengthPrefixedSlice (rep ++ [byte.of_Z kTypeLogData]) blob) ;;
  LocalSavePoint_commit save.

(** ** Save points *)

Definition SetSavePoint : BM unit :=
  save <- LocalSavePoint ;;
  modify (fun b => set_save_points (save :: save_points_ b) b).

Definition RollbackToSavePoint : BM unit :=
  b <- get ;;
  match save_points_ b with
  | [] => fail (NotFound "")
  | savepoint :: stack =>
      modify (set_save_points stack) ;;
      if sp_size savepoint =? zlen (rep_ b) then ret tt
      else if sp_size savepoint =? 0 then modify WriteBatch_Clear
      else
        modify (fun b => set_content_flags (sp_content_flags savepoint)
          (SetCount (sp_count savepoint) (set_rep (resize (sp_size savepoint) (rep_ b)) b)))
  end.

Definition PopSavePoint : BM unit :=
  b <- get ;;
  match save_points_ b with
  | [] => fail (NotFound "")
  | _ :: stack => modify (set_save_points stack)
  end.

(** ** Whole batches *)

Definition WBI_SetContents (contents : bytes) : BM unit :=
  modify (fun b => set_content_flags DEFERRED (set_rep contents b)).

(** Reading behind the end of the source is undefined. *)
Definition WBI_Append (src : WriteBatch) (wal_only : bool) : BM unit :=
  let batch_end := wal_term_point_ src in
  let '(src_len, src_count, src_flags) :=
    if wal_only && negb (is_cleared batch_end) then (sp_size batch_end -64 kHeader, sp_count batch_end, sp_content_flags batch_end)
    else (zlen (rep_ src) -64 kHeader, Count src, content_flags_ src) in
  modify (fun b => SetCount (Count b +32 src_count) b) ;;
  if kHeader + src_len <=? zlen (rep_ src) then
    on_rep (fun rep => rep ++ ztake src_len (zdrop kHeader (rep_ src))) ;;
    add_flags src_flags
  else stuckM Undefined.

Definition AppendedByteSize (leftByteSize rightByteSize : Z) : Z :=
  if (leftByteSize =? 0) || (rightByteSize =? 0) then leftByteSize +64 rightByteSize
  else (leftByteSize +64 rightByteSize) -64 kHeader.

(** ** Column families *)

(** [ColumnFamilyHandle]: its id, and the size of timestamps of its comparator, if there
    is one. *)
Record ColumnFamilyHandle := mkCFH { cfh_id : Z; cfh_timestamp_size : option Z }.

Definition GetColumnFamilyID (column_family : option ColumnFamilyHandle) : Z :=
  match column_family with Some h => cfh_id h | None => 0 end.

Definition GetColumnFamilyIdAndTimestampSize (column_family : option ColumnFamilyHandle) : BM (Z * Z) :=
  b <- get ;;
  let cf_id := GetColumnFamilyID column_family in
  match column_family with
  | Some h =>
      match cfh_timestamp_size h with
      | Some ts_sz =>
          if (cf_id =? 0) && negb (default_cf_ts_sz_ b =? ts_sz) then fail (InvalidArgument "Default cf timestamp size mismatch")
          else ret (cf_id, ts_sz)
      | None => ret (cf_id, 0)
      end
  | None => ret (cf_id, if 0 <? default_cf_ts_sz_ b then default_cf_ts_sz_ b else 0)
  end.

Definition CheckColumnFamilyTimestampSize (column_family : option ColumnFamilyHandle) (ts : bytes) : BM ColumnFamilyHandle :=
  match column_family with
  | None => fail (InvalidArgument "column family handle cannot be null")
  | Some h =>
      cf_ts_sz <- deref (cfh_timestamp_size h) ;;
      if cf_ts_sz =? 0 then fail (InvalidArgument "timestamp disabled")
      else if negb (cf_ts_sz =? zlen ts) then fail (InvalidArgument "timestamp size mismatch")
      else ret h
  end.

(** A key with room for its timestamp, which is filled in later. *)
Definition with_dummy_ts (plain : Z -> BM unit) (with_ts : Z -> bytes -> BM unit) (column_family : option ColumnFamilyHandle) : BM unit :=
  let* (cf_id, ts_sz) := GetColumnFamilyIdAndTimestampSize column_family in
  if ts_sz =? 0 then plain cf_id
  else modify (set_ts_flags true true) ;; with_ts cf_id (zeros ts_sz).
(** A key with its timestamp. *)
Definition with_given_ts (with_ts : Z -> bytes -> BM unit) (column_family : option ColumnFamilyHandle) (ts : bytes) : BM unit :=
  h <- CheckColumnFamilyTimestampSize column_family ts ;;
  modify (fun b => set_ts_flags (needs_in_place_update_ts_ b) true b) ;;
  with_ts (cfh_id h) ts.
(** Keys in parts have no timestamp. *)
Definition without_ts (m : Z -> BM unit) (column_family : option ColumnFamilyHandle) : BM unit :=
  let* (cf_id, ts_sz) := GetColumnFamilyIdAndTimestampSize column_family in
  if ts_sz =? 0 then m cf_id
  else fail (InvalidArgument "Cannot call this method on column family enabling timestamp").

Definition WB_Put column_family (key value : bytes) : BM unit :=
  with_dummy_ts (fun cf => WBI_Put cf key value) (fun cf ts => WBI_PutParts cf [key; ts] [value]) column_family.
Definition WB_PutTs column_family (key ts value : bytes) : BM unit :=
  with_given_ts (fun cf ts => WBI_PutParts cf [key; ts] [value]) column_family ts.
Definition WB_PutParts column_family (key value : list bytes) : BM unit :=
  without_ts (fun cf => WBI_PutParts cf key value) column_family.
Definition WB_PutEntity (column_family : option ColumnFamilyHandle) (key : bytes) (columns : list WideColumn) : BM unit :=
  match column_family with
  | None => fail (InvalidArgument "Cannot call this method without a column family handle")
  | Some _ => without_ts (fun cf => WBI_PutEntity cf key columns) column_family
  end.
Definition WB_Delete column_family (key : bytes) : BM unit :=
  with_dummy_ts (fun cf => WBI_Delete cf key) (fun cf ts => WBI_DeleteParts cf [key; ts]) column_family.
Definition WB_DeleteTs column_family (key ts : bytes) : BM unit :=
  with_given_ts (fun cf ts => WBI_DeleteParts cf [key; ts]) column_family ts.
Definition WB_DeleteParts column_family (key : list bytes) : BM unit := without_ts (fun cf => WBI_DeleteParts cf key) column_family.
Definition WB_SingleDelete column_family (key : bytes) : BM unit :=
  with_dummy_ts (fun cf => WBI_SingleDelete cf key) (fun cf ts => WBI_SingleDeleteParts cf [key; ts]) column_family.
Definition WB_SingleDeleteTs column_family (key ts : bytes) : BM unit :=
  with_given_ts (fun cf ts => WBI_SingleDeleteParts cf [key; ts]) column_family ts.
Definition WB_SingleDeleteParts column_family (key : list bytes) : BM unit :=
  without_ts (fun cf => WBI_SingleDeleteParts cf key) column_family.
Definition WB_DeleteRange column_family (begin_key end_key : bytes) : BM unit :=
  with_dummy_ts (fun cf => WBI_DeleteRange cf begin_key end_key)
    (fun cf ts => WBI_DeleteRangeParts cf [begin_key; ts] [end_key; ts]) column_family.
Definition WB_DeleteRangeTs column_family (begin_key end_key ts : bytes) : BM unit :=
  with_given_ts (fun cf ts => WBI_DeleteRangeParts cf [begin_key; ts] [end_key; ts]) column_family ts.
Definition WB_DeleteRangeParts column_family (begin_key end_key : list bytes) : BM unit :=
  without_ts (fun cf => WBI_DeleteRangeParts cf begin_key end_key) column_family.
Definition WB_Merge column_family (key value : bytes) : BM unit :=
  with_dummy_ts (fun cf => WBI_Merge cf key value) (fun cf ts => WBI_MergeParts cf [key; ts] [value]) column_family.
Definition WB_MergeTs column_family (key ts value : bytes) : BM unit :=
  with_given_ts (fun cf ts => WBI_MergeParts cf [key; ts] [value]) column_family ts.
Definition WB_MergeParts column_family (key value : list bytes) : BM unit :=
  without_ts (fun cf => WBI_MergeParts cf key value) column_family.

(** ** Handlers *)

Inductive OptionState := kUnknown | kDisabled | kEnabled.
#[export] Instance OptionState_eq_dec : EqDecision OptionState.
Proof. solve_decision. Defined.

(** [WriteBatch::Handler], an object with state of type [H]; the methods answer with a
    status, or with nothing where they are [void]. *)
Class Handler (H : Type) := {
  PutCF : Z -> bytes -> bytes -> M H Status;
  PutEntityCF : Z -> bytes -> bytes -> M H Status;
  DeleteCF : Z -> bytes -> M H Status;
  SingleDeleteCF : Z -> bytes -> M H Status;
  DeleteRangeCF : Z -> bytes -> bytes -> M H Status;
  MergeCF : Z -> bytes -> bytes -> M H Status;
  PutBlobIndexCF : Z -> bytes -> bytes -> M H Status;
  LogData : bytes -> M H unit;
  MarkBeginPrepare : bool -> M H Status;
  MarkEndPrepare : bytes -> M H Status;
  MarkNoop : bool -> M H Status;
  MarkRollback : bytes -> M H Status;
  MarkCommit : bytes -> M H Status;
  MarkCommitWithTimestamp : bytes -> bytes -> M H Status;
  Continue : M H bool;
  WriteAfterCommit : H -> OptionState;
  WriteBeforePrepare : H -> OptionState
}.

(** The methods of the base class, for a handler that defines [Put], [Delete],
    [SingleDelete] and [Merge] of the default column family. *)
Definition default_family {H} (method : M H unit) (m : string) (column_family_id : Z) : M H Status :=
  if column_family_id =? 0 then method ;; ret OK else ret (InvalidArgument m).
Definition base_handler {H} (Put : bytes -> bytes -> M H unit) (Delete SingleDelete : bytes -> M H unit)
    (Merge : bytes -> bytes -> M H unit) : Handler H := {|
  PutCF cf k v := default_family (Put k v) "non-default column family and PutCF not implemented" cf;
  PutEntityCF _ _ _ := ret (NotSupported "PutEntityCF not implemented");
  DeleteCF cf k := default_family (Delete k) "non-default column family and DeleteCF not implemented" cf;
  SingleDeleteCF cf k := default_family (SingleDelete k) "non-default column family and SingleDeleteCF not implemented" cf;
  DeleteRangeCF _ _ _ := ret (InvalidArgument "DeleteRangeCF not implemented");
  MergeCF cf k v := default_family (Merge k v) "non-default column family and MergeCF not implemented" cf;
  PutBlobIndexCF _ _ _ := ret (InvalidArgument "PutBlobIndexCF not implemented");
  LogData _ := ret tt;
  MarkBeginPrepare _ := ret (InvalidArgument "MarkBeginPrepare() handler not defined.");
  MarkEndPrepare _ := ret (InvalidArgument "MarkEndPrepare() handler not defined.");
  MarkNoop _ := ret (InvalidArgument "MarkNoop() handler not defined.");
  MarkRollback _ := ret (InvalidArgument "MarkRollbackPrepare() handler not defined.");
  MarkCommit _ := ret (InvalidArgument "MarkCommit() handler not defined.");
  MarkCommitWithTimestamp _ _ := ret (InvalidArgument "MarkCommitWithTimestamp() handler not defined.");
  Continue := ret true;
  WriteAfterCommit _ := kUnknown;
  WriteBeforePrepare _ := kUnknown
|}.
(** A handler that defines none of them. *)
Definition default_handler {H} : Handler H :=
  base_handler (fun _ _ => ret tt) (fun _ => ret tt) (fun _ => ret tt) (fun _ _ => ret tt).

(** ** Reading records *)

(** The outputs of [ReadRecordFromWriteBatch]; those a tag does not set are not used. *)
Record BatchRecord := mkBatchRecord {
  r_tag : Z; r_column_family : Z; r_key : bytes; r_value : bytes; r_blob : bytes; r_xid : bytes }.

Abbreviation Parsed := (Status + (BatchRecord * bytes))%type.

Definition read_slice (e : string) (input : bytes) (k : bytes -> bytes -> Parsed) : Parsed :=
  match GetLengthPrefixedSlice input with
  | (Some b, input) => k b input
  | (None, _) => inl (Corruption e)
  end.
Definition read_family (e : string) (input : bytes) (k : Z -> bytes -> Parsed) : Parsed :=
  match GetVarint32 input with
  | Some (cf, input) => k cf input
  | None => inl (Corruption e)
  end.
Definition read_key (e : string) (tag cf : Z) (input : bytes) : Parsed :=
  read_slice e input (fun key input => inr (mkBatchRecord tag cf key [] [] [], input)).
Definition read_key_value (e : string) (tag cf : Z) (input : bytes) : Parsed :=
  read_slice e input (fun key input => read_slice e input (fun value input => inr (mkBatchRecord tag cf key value [] [], input))).
Definition read_xid (e : string) (tag : Z) (key input : bytes) : Parsed :=
  read_slice e input (fun xid input => inr (mkBatchRecord tag 0 key [] [] xid, input)).

(** The callers have checked that the input is not empty. *)
Definition ReadRecordFromWriteBatch (input : bytes) : Parsed :=
  match input with
  | [] => inl (Corruption "unknown WriteBatch tag")
  | c :: input =>
      let tag := byte.unsigned c in
      if tag =? kTypeColumnFamilyValue then read_family "bad WriteBatch Put" input (read_key_value "bad WriteBatch Put" tag)
      else if tag =? kTypeValue then read_key_value "bad WriteBatch Put" tag 0 input
      else if (tag =? kTypeColumnFamilyDeletion) || (tag =? kTypeColumnFamilySingleDeletion)
      then read_family "bad WriteBatch Delete" input (read_key "bad WriteBatch Delete" tag)
      else if (tag =? kTypeDeletion) || (tag =? kTypeSingleDeletion) then read_key "bad WriteBatch Delete" tag 0 input
      else if tag =? kTypeColumnFamilyRangeDeletion
      then read_family "bad WriteBatch DeleteRange" input (read_key_value "bad WriteBatch DeleteRange" tag)
      else if tag =? kTypeRangeDeletion then read_key_value "bad WriteBatch DeleteRange" tag 0 input
      else if tag =? kTypeColumnFamilyMerge then read_family "bad WriteBatch Merge" input (read_key_value "bad WriteBatch Merge" tag)
      else if tag =? kTypeMerge then read_key_value "bad WriteBatch Merge" tag 0 input
      else if tag =? kTypeColumnFamilyBlobIndex
      then read_family "bad WriteBatch BlobIndex" input (read_key_value "bad WriteBatch BlobIndex" tag)
      else if tag =? kTypeBlobIndex then read_key_value "bad WriteBatch BlobIndex" tag 0 input
      else if tag =? kTypeLogData
      then read_slice "bad WriteBatch Blob" input (fun blob input => inr (mkBatchRecord tag 0 [] [] blob [], input))
      else if (tag =? kTypeNoop) || (tag =? kTypeBeginPrepareXID) || (tag =? kTypeBeginPersistedPrepareXID)
        || (tag =? kTypeBeginUnprepareXID)
      then inr (mkBatchRecord tag 0 [] [] [] [], input)
      else if tag =? kTypeEndPrepareXID then read_xid "bad EndPrepare XID" tag [] input
      else if tag =? kTypeCommitXIDAndTimestamp
      then read_slice "bad commit timestamp" input (fun key input => read_xid "bad Commit XID" tag key input)
      else if tag =? kTypeCommitXID then read_xid "bad Commit XID" tag [] input
      else if tag =? kTypeRollbackXID then read_xid "bad Rollback XID" tag [] input
      else if tag =? kTypeColumnFamilyWideColumnEntity
      then read_family "bad WriteBatch PutEntity" input (read_key_value "bad WriteBatch PutEntity" tag)
      else if tag =? kTypeWideColumnEntity then read_key_value "bad WriteBatch PutEntity" tag 0 input
      else inl (Corruption "unknown WriteBatch tag")
  end.

(** The key of an entry, and what follows it. *)
Definition ReadKeyFromWriteBatchEntry (input : bytes) (cf_record : bool) : option bytes * bytes :=
  let input := zdrop 1 input in
  if cf_record then
    match GetVarint32 input with
    | Some (_, input) => GetLengthPrefixedSlice input
    | None => (None, input)
    end
  else GetLengthPrefixedSlice input.

(** ** Iteration *)

Section Iterate.
Context {H : Type} `{Handler H}.

(** An update is counted once the handler has taken it. *)
Definition counted (f : M H Status) (empty_batch : bool) (found : Z) : M H (Status * bool * Z) :=
  s <- f ;;
  ret (if ok s then (s, false, found +32 1) else (s, empty_batch, found)).

(** The later of the checks of the write policy decides. *)
Definition policy (conflict : H -> bool) (e : string) (s : Status) : M H Status :=
  h <- get ;; ret (if conflict h then NotSupported e else s).

(** The cases of the markers of a prepared section. *)
Definition begin_prepare : M H Status :=
  s <- MarkBeginPrepare false ;;
  s <- policy (fun h => bool_decide (WriteAfterCommit h = kDisabled)) "WriteCommitted txn tag when write_after_commit_ is disabled (in WritePrepared/WriteUnprepared mode). If it is not due to corruption, the WAL must be emptied before changing the WritePolicy." s ;;
  policy (fun h => bool_decide (WriteBeforePrepare h = kEnabled)) "WriteCommitted txn tag when write_before_prepare_ is enabled (in WriteUnprepared mode). If it is not due to corruption, the WAL must be emptied before changing the WritePolicy." s.
Definition begin_persisted_prepare : M H Status :=
  s <- MarkBeginPrepare false ;;
  policy (fun h => bool_decide (WriteAfterCommit h = kEnabled)) "WritePrepared/WriteUnprepared txn tag when write_after_commit_ is enabled (in default WriteCommitted mode). If it is not due to corruption, the WAL must be emptied before changing the WritePolicy." s.
Definition begin_unprepare : M H Status :=
  s <- MarkBeginPrepare true ;;
  s <- policy (fun h => bool_decide (WriteAfterCommit h = kEnabled)) "WriteUnprepared txn tag when write_after_commit_ is enabled (in default WriteCommitted mode). If it is not due to corruption, the WAL must be emptied before changing the WritePolicy." s ;;
  policy (fun h => bool_decide (WriteBeforePrepare h = kDisabled)) "WriteUnprepared txn tag when write_before_prepare_ is disabled (in WriteCommitted/WritePrepared mode). If it is not due to corruption, the WAL must be emptied before changing the WritePolicy." s.

Definition call_handler (r : BatchRecord) (empty_batch : bool) (found : Z) : M H (Status * bool * Z) :=
  let tag := r_tag r in
  if (tag =? kTypeColumnFamilyValue) || (tag =? kTypeValue) then counted (PutCF (r_column_family r) (r_key r) (r_value r)) empty_batch found
  else if (tag =? kTypeColumnFamilyDeletion) || (tag =? kTypeDeletion) then counted (DeleteCF (r_column_family r) (r_key r)) empty_batch found
  else if (tag =? kTypeColumnFamilySingleDeletion) || (tag =? kTypeSingleDeletion)
  then counted (SingleDeleteCF (r_column_family r) (r_key r)) empty_batch found
  else if (tag =? kTypeColumnFamilyRangeDeletion) || (tag =? kTypeRangeDeletion)
  then counted (DeleteRangeCF (r_column_family r) (r_key r) (r_value r)) empty_batch found
  else if (tag =? kTypeColumnFamilyMerge) || (tag =? kTypeMerge)
  then counted (MergeCF (r_column_family r) (r_key r) (r_value r)) empty_batch found
  else if (tag =? kTypeColumnFamilyBlobIndex) || (tag =? kTypeBlobIndex) then
    s <- PutBlobIndexCF (r_column_family r) (r_key r) (r_value r) ;;
    ret (s, empty_batch, if ok s then found +32 1 else found)
  else if tag =? kTypeLogData then LogData (r_blob r) ;; ret (OK, false, found)
  else if tag =? kTypeBeginPrepareXID then s <- begin_prepare ;; ret (s, false, found)
  else if tag =? kTypeBeginPersistedPrepareXID then s <- begin_persisted_prepare ;; ret (s, false, found)
  else if tag =? kTypeBeginUnprepareXID then s <- begin_unprepare ;; ret (s, false, found)
  else if tag =? kTypeEndPrepareXID then s <- MarkEndPrepare (r_xid r) ;; ret (s, true, found)
  else if tag =? kTypeCommitXID then s <- MarkCommit (r_xid r) ;; ret (s, true, found)
  else if tag =? kTypeCommitXIDAndTimestamp then
    s <- MarkCommitWithTimestamp (r_xid r) (r_key r) ;;
    ret (s, if ok s then true else empty_batch, found)
  else if tag =? kTypeRollbackXID then s <- MarkRollback (r_xid r) ;; ret (s, true, found)
  else if tag =? kTypeNoop then s <- MarkNoop empty_batch ;; ret (s, true, found)
  else if (tag =? kTypeWideColumnEntity) || (tag =? kTypeColumnFamilyWideColumnEntity)
  then counted (PutEntityCF (r_column_family r) (r_key r) (r_value r)) empty_batch found
  else fail (Corruption "unknown WriteBatch tag").

(** The loop: [found] and [handler_continue] at its end; a status that is not OK is
    returned to the caller wherever it arises. *)
Fixpoint Iterate_loop (fuel : nat) (s : Status) (input : bytes) (r : BatchRecord) (last_was_try_again empty_batch : bool)
    (found : Z) : M H (Z * bool) :=
  if (ok s && negb (bool_decide (input = []))) || IsTryAgain s then
    match fuel with
    | O => stuckM OutOfFuel
    | S fuel =>
        handler_continue <- Continue ;;
        if negb handler_continue then if ok s then ret (found, false) else fail s
        else
          let* (r, input, last_was_try_again) :=
            if negb (IsTryAgain s) then
              match ReadRecordFromWriteBatch input with
              | inl e => fail e
              | inr (r, input) => ret (r, input, false)
              end
            else if last_was_try_again then
              fail (Corruption "two consecutive TryAgain in WriteBatch handler; this is either a software bug or data corruption.")
            else ret (r, input, true) in
          let* (s, empty_batch, found) := call_handler r empty_batch found in
          Iterate_loop fuel s input r last_was_try_again empty_batch found
    end
  else if ok s then ret (found, true) else fail s.

Definition WBI_Iterate (wb : WriteBatch) (b e : Z) : M H unit :=
  if (zlen (rep_ wb) <? b) || (zlen (rep_ wb) <? e) || (e <? b) then fail (Corruption "Invalid start/end bounds for Iterate")
  else
    let input := ztake (e - b) (zdrop b (rep_ wb)) in
    let whole_batch := (b =? kHeader) && (e =? zlen (rep_ wb)) in
    let* (found, handler_continue) :=
      Iterate_loop (2 * length input + 2) OK input (mkBatchRecord 0 0 [] [] [] []) false true 0 in
    if handler_continue && whole_batch && negb (found =? Count wb) then fail (Corruption "WriteBatch has wrong count")
    else ret tt.

Definition Iterate (wb : WriteBatch) : M H unit :=
  if zlen (rep_ wb) <? kHeader then fail (Corruption "malformed WriteBatch (too small)")
  else WBI_Iterate wb kHeader (zlen (rep_ wb)).

End Iterate.

(** ** What a batch contains *)

Definition note (c : Z) : M Z Status := modify (fun content_flags => Z.lor content_flags c) ;; ret OK.

(** [BatchContentClassifier]: its state is [content_flags]. *)
Definition BatchContentClassifier : Handler Z := {|
  PutCF _ _ _ := note HAS_PUT;
  PutEntityCF _ _ _ := note HAS_PUT_ENTITY;
  DeleteCF _ _ := note HAS_DELETE;
  SingleDeleteCF _ _ := note HAS_SINGLE_DELETE;
  DeleteRangeCF _ _ _ := note HAS_DELETE_RANGE;
  MergeCF _ _ _ := note HAS_MERGE;
  PutBlobIndexCF _ _ _ := note HAS_BLOB_INDEX;
  LogData := @LogData Z default_handler;
  MarkBeginPrepare unprepare := note HAS_BEGIN_PREPARE ;; if unprepare then note HAS_BEGIN_UNPREPARE else ret OK;
  MarkEndPrepare _ := note HAS_END_PREPARE;
  MarkNoop := @MarkNoop Z default_handler;
  MarkRollback _ := note HAS_ROLLBACK;
  MarkCommit _ := note HAS_COMMIT;
  MarkCommitWithTimestamp _ _ := note HAS_COMMIT;
  Continue := @Continue Z default_handler;
  WriteAfterCommit := @WriteAfterCommit Z default_handler;
  WriteBeforePrepare := @WriteBeforePrepare Z default_handler
|}.
#[export] Existing Instance BatchContentClassifier.

(** The flags, computed on demand; the status of the iteration is dropped. *)
Definition ComputeContentFlags : BM Z :=
  b <- get ;;
  if negb (Z.land (content_flags_ b) DEFERRED =? 0) then
    match Iterate b 0 with
    | Ok _ c | Err _ c => put (set_content_flags c b) ;; ret c
    | Stuck w => stuckM w
    end
  else ret (content_flags_ b).

Definition has_flag (c : Z) : BM bool := rv <- ComputeContentFlags ;; ret (negb (Z.land rv c =? 0)).
Definition HasPut : BM bool := has_flag HAS_PUT.
Definition HasPutEntity : BM bool := has_flag HAS_PUT_ENTITY.
Definition HasDelete : BM bool := has_flag HAS_DELETE.
Definition HasSingleDelete : BM bool := has_flag HAS_SINGLE_DELETE.
Definition HasDeleteRange : BM bool := has_flag HAS_DELETE_RANGE.
Definition HasMerge : BM bool := has_flag HAS_MERGE.
Definition HasBeginPrepare : BM bool := has_flag HAS_BEGIN_PREPARE.
Definition HasEndPrepare : BM bool := has_flag HAS_END_PREPARE.
Definition HasCommit : BM bool := has_flag HAS_COMMIT.
Definition HasRollback : BM bool := has_flag HAS_ROLLBACK.
