(* ===== verification/WriteBatchProps.v ===== *)
(** * Write batches: correctness

    A batch represents a list of operations. The calls of the interface act on that list,
    and the iteration over the serialized form calls the handler for its elements. *)

From S2P Require Import Prelude Status Coding WideColumns WriteBatch.

(** ** Operations and their serialized form *)

Inductive BatchOp :=
| BPut (cf : Z) (key value : bytes)
| BPutEntity (cf : Z) (key entity : bytes)
| BDelete (cf : Z) (key : bytes)
| BSingleDelete (cf : Z) (key : bytes)
| BDeleteRange (cf : Z) (begin_key end_key : bytes)
| BMerge (cf : Z) (key value : bytes)
| BBlobIndex (cf : Z) (key value : bytes)
| BLogData (blob : bytes)
| BNoop
| BBeginPrepare
| BBeginPersistedPrepare
| BBeginUnprepare
| BEndPrepare (xid : bytes)
| BCommit (xid : bytes)
| BCommitWithTimestamp (xid commit_ts : bytes)
| BRollback (xid : bytes).

#[export] Instance BatchOp_eq_dec : EqDecision BatchOp.
Proof. solve_decision. Defined.

Definition slice_bytes (b : bytes) : bytes := EncodeVarint32 (u32 (zlen b)) ++ b.

Definition encode_op (o : BatchOp) : bytes :=
  match o with
  | BPut cf k v => put_tag cf kTypeValue kTypeColumnFamilyValue [] ++ slice_bytes k ++ slice_bytes v
  | BPutEntity cf k v => put_tag cf kTypeWideColumnEntity kTypeColumnFamilyWideColumnEntity [] ++ slice_bytes k ++ slice_bytes v
  | BDelete cf k => put_tag cf kTypeDeletion kTypeColumnFamilyDeletion [] ++ slice_bytes k
  | BSingleDelete cf k => put_tag cf kTypeSingleDeletion kTypeColumnFamilySingleDeletion [] ++ slice_bytes k
  | BDeleteRange cf k v => put_tag cf kTypeRangeDeletion kTypeColumnFamilyRangeDeletion [] ++ slice_bytes k ++ slice_bytes v
  | BMerge cf k v => put_tag cf kTypeMerge kTypeColumnFamilyMerge [] ++ slice_bytes k ++ slice_bytes v
  | BBlobIndex cf k v => put_tag cf kTypeBlobIndex kTypeColumnFamilyBlobIndex [] ++ slice_bytes k ++ slice_bytes v
  | BLogData b => byte.of_Z kTypeLogData :: slice_bytes b
  | BNoop => [byte.of_Z kTypeNoop]
  | BBeginPrepare => [byte.of_Z kTypeBeginPrepareXID]
  | BBeginPersistedPrepare => [byte.of_Z kTypeBeginPersistedPrepareXID]
  | BBeginUnprepare => [byte.of_Z kTypeBeginUnprepareXID]
  | BEndPrepare xid => byte.of_Z kTypeEndPrepareXID :: slice_bytes xid
  | BCommit xid => byte.of_Z kTypeCommitXID :: slice_bytes xid
  | BCommitWithTimestamp xid ts => byte.of_Z kTypeCommitXIDAndTimestamp :: slice_bytes ts ++ slice_bytes xid
  | BRollback xid => byte.of_Z kTypeRollbackXID :: slice_bytes xid
  end.
Definition encode_ops (ops : list BatchOp) : bytes := concat (map encode_op ops).

(** Families and lengths are within 32 bits. *)
Definition fits (cf : Z) (k v : bytes) : Prop := 0 <= cf < 2 ^ 32 /\ zlen k < 2 ^ 32 /\ zlen v < 2 ^ 32.
Definition op_fits (o : BatchOp) : Prop :=
  match o with
  | BPut cf k v | BPutEntity cf k v | BDeleteRange cf k v | BMerge cf k v | BBlobIndex cf k v => fits cf k v
  | BDelete cf k | BSingleDelete cf k => fits cf k []
  | BLogData b | BEndPrepare b | BCommit b | BRollback b => fits 0 b []
  | BCommitWithTimestamp b ts => fits 0 b ts
  | BNoop | BBeginPrepare | BBeginPersistedPrepare | BBeginUnprepare => True
  end.

(** The operations that are counted. *)
Definition op_counts (o : BatchOp) : bool :=
  match o with
  | BPut _ _ _ | BPutEntity _ _ _ | BDelete _ _ | BSingleDelete _ _ | BDeleteRange _ _ _ | BMerge _ _ _ | BBlobIndex _ _ _ => true
  | _ => false
  end.
Definition updates (ops : list BatchOp) : Z := zlen (List.filter op_counts ops).

(** The flags of an operation: what the batch contains. *)
Definition op_flags (o : BatchOp) : Z :=
  match o with
  | BPut _ _ _ => HAS_PUT
  | BPutEntity _ _ _ => HAS_PUT_ENTITY
  | BDelete _ _ => HAS_DELETE
  | BSingleDelete _ _ => HAS_SINGLE_DELETE
  | BDeleteRange _ _ _ => HAS_DELETE_RANGE
  | BMerge _ _ _ => HAS_MERGE
  | BBlobIndex _ _ _ => HAS_BLOB_INDEX
  | BLogData _ | BNoop => 0
  | BBeginPrepare | BBeginPersistedPrepare => HAS_BEGIN_PREPARE
  | BBeginUnprepare => Z.lor HAS_BEGIN_PREPARE HAS_BEGIN_UNPREPARE
  | BEndPrepare _ => HAS_END_PREPARE
  | BCommit _ | BCommitWithTimestamp _ _ => HAS_COMMIT
  | BRollback _ => HAS_ROLLBACK
  end.
Definition ops_flags (ops : list BatchOp) : Z := fold_right Z.lor 0 (map op_flags ops).

(** The string of a batch: sequence number, count and operations. *)
Definition batch_bytes (seq : Z) (ops : list BatchOp) : bytes := le_split 8 seq ++ le_split 4 (updates ops) ++ encode_ops ops.

Lemma encode_ops_app a b : encode_ops (a ++ b) = encode_ops a ++ encode_ops b.
Proof. unfold encode_ops. by rewrite map_app, concat_app. Qed.
Lemma encode_ops_one o : encode_ops [o] = encode_op o.
Proof. unfold encode_ops. cbn. by rewrite app_nil_r. Qed.
Lemma updates_app a b : updates (a ++ b) = updates a + updates b.
Proof. unfold updates. by rewrite List.filter_app, zlen_app. Qed.
Lemma ops_flags_app a b : ops_flags (a ++ b) = Z.lor (ops_flags a) (ops_flags b).
Proof.
  unfold ops_flags. induction a as [|o a IH]; [done|]. cbn [app map fold_right]. by rewrite IH, Z.lor_assoc.
Qed.

(** ** Parsing *)

(** What the parser makes of an operation. *)
Definition family_tag (cf tag cf_tag : Z) : Z := if cf =? 0 then tag else cf_tag.
Definition record_of (o : BatchOp) : BatchRecord :=
  match o with
  | BPut cf k v => mkBatchRecord (family_tag cf kTypeValue kTypeColumnFamilyValue) cf k v [] []
  | BPutEntity cf k v => mkBatchRecord (family_tag cf kTypeWideColumnEntity kTypeColumnFamilyWideColumnEntity) cf k v [] []
  | BDelete cf k => mkBatchRecord (family_tag cf kTypeDeletion kTypeColumnFamilyDeletion) cf k [] [] []
  | BSingleDelete cf k => mkBatchRecord (family_tag cf kTypeSingleDeletion kTypeColumnFamilySingleDeletion) cf k [] [] []
  | BDeleteRange cf k v => mkBatchRecord (family_tag cf kTypeRangeDeletion kTypeColumnFamilyRangeDeletion) cf k v [] []
  | BMerge cf k v => mkBatchRecord (family_tag cf kTypeMerge kTypeColumnFamilyMerge) cf k v [] []
  | BBlobIndex cf k v => mkBatchRecord (family_tag cf kTypeBlobIndex kTypeColumnFamilyBlobIndex) cf k v [] []
  | BLogData b => mkBatchRecord kTypeLogData 0 [] [] b []
  | BNoop => mkBatchRecord kTypeNoop 0 [] [] [] []
  | BBeginPrepare => mkBatchRecord kTypeBeginPrepareXID 0 [] [] [] []
  | BBeginPersistedPrepare => mkBatchRecord kTypeBeginPersistedPrepareXID 0 [] [] [] []
  | BBeginUnprepare => mkBatchRecord kTypeBeginUnprepareXID 0 [] [] [] []
  | BEndPrepare xid => mkBatchRecord kTypeEndPrepareXID 0 [] [] [] xid
  | BCommit xid => mkBatchRecord kTypeCommitXID 0 [] [] [] xid
  | BCommitWithTimestamp xid ts => mkBatchRecord kTypeCommitXIDAndTimestamp 0 ts [] [] xid
  | BRollback xid => mkBatchRecord kTypeRollbackXID 0 [] [] [] xid
  end.

Lemma read_slice_ok e b rest k : zlen b < 2 ^ 32 -> read_slice e (slice_bytes b ++ rest) k = k b rest.
Proof. intros Hb. unfold read_slice, slice_bytes. by rewrite <- app_assoc, GetLengthPrefixedSlice_encode. Qed.
Lemma read_family_ok e cf rest k : 0 <= cf < 2 ^ 32 -> read_family e (EncodeVarint32 cf ++ rest) k = k cf rest.
Proof. intros Hcf. unfold read_family. by rewrite GetVarint32_encode. Qed.

Lemma put_tag_cases cf tag cf_tag rest :
  (cf = 0 /\ put_tag cf tag cf_tag [] ++ rest = byte.of_Z tag :: rest) \/
  (cf <> 0 /\ put_tag cf tag cf_tag [] ++ rest = byte.of_Z cf_tag :: EncodeVarint32 cf ++ rest).
Proof.
  unfold put_tag, PutVarint32. destruct (Z.eqb_spec cf 0); [left|right]; split; try done; by rewrite <- ?app_assoc.
Qed.

(** Parsing an encoded operation gives the operation back, and the rest of the input. *)
Lemma ReadRecord_encode o rest :
  op_fits o -> ReadRecordFromWriteBatch (encode_op o ++ rest) = inr (record_of o, rest).
Proof.
  unfold op_fits, fits. intros Hf.
  destruct o; cbn [encode_op record_of]; repeat match goal with H : _ /\ _ |- _ => destruct H end;
    rewrite <- ?app_assoc; cbn [app]; rewrite <- ?app_assoc;
    try match goal with |- ReadRecordFromWriteBatch (put_tag ?cf ?t ?ct [] ++ ?r) = _ =>
      destruct (put_tag_cases cf t ct r) as [[-> ->]|[Hcf ->]]; unfold family_tag;
      [change (0 =? 0) with true|rewrite (proj2 (Z.eqb_neq _ 0) Hcf)]; cbv iota end;
    cbv [ReadRecordFromWriteBatch]; cbn -[read_family read_key read_key_value read_slice read_xid slice_bytes EncodeVarint32 app];
    rewrite ?read_family_ok by done; unfold read_key_value, read_key, read_xid; by rewrite ?read_slice_ok by done.
Qed.

(** ** Iteration *)

Section Replay.
Context {H : Type} `{Handler H}.

(** The method an operation calls. *)
Definition op_call (o : BatchOp) (empty_batch : bool) : M H Status :=
  match o with
  | BPut cf k v => PutCF cf k v
  | BPutEntity cf k v => PutEntityCF cf k v
  | BDelete cf k => DeleteCF cf k
  | BSingleDelete cf k => SingleDeleteCF cf k
  | BDeleteRange cf k v => DeleteRangeCF cf k v
  | BMerge cf k v => MergeCF cf k v
  | BBlobIndex cf k v => PutBlobIndexCF cf k v
  | BLogData b => LogData b ;; ret OK
  | BNoop => MarkNoop empty_batch
  | BBeginPrepare => begin_prepare
  | BBeginPersistedPrepare => begin_persisted_prepare
  | BBeginUnprepare => begin_unprepare
  | BEndPrepare xid => MarkEndPrepare xid
  | BCommit xid => MarkCommit xid
  | BCommitWithTimestamp xid ts => MarkCommitWithTimestamp xid ts
  | BRollback xid => MarkRollback xid
  end.

(** Whether the section of the batch is empty behind the operation. *)
Definition op_empty (o : BatchOp) (taken empty_batch : bool) : bool :=
  match o with
  | BLogData _ | BBeginPrepare | BBeginPersistedPrepare | BBeginUnprepare => false
  | BNoop | BEndPrepare _ | BCommit _ | BRollback _ => true
  | BBlobIndex _ _ _ => empty_batch
  | BCommitWithTimestamp _ _ => if taken then true else empty_batch
  | _ => if taken then false else empty_batch
  end.

Definition op_step (o : BatchOp) (empty_batch : bool) (found : Z) : M H (Status * bool * Z) :=
  s <- op_call o empty_batch ;;
  ret (s, op_empty o (ok s) empty_batch, if ok s && op_counts o then found +32 1 else found).

Definition try_again_twice : Status :=
  Corruption "two consecutive TryAgain in WriteBatch handler; this is either a software bug or data corruption.".

(** The handler is called for the operations in order; before each call it may end the
    iteration, and an operation it asks for again is given to it once more. *)
Fixpoint replay (ops : list BatchOp) (empty_batch : bool) (found : Z) : M H (Z * bool) :=
  match ops with
  | [] => ret (found, true)
  | o :: ops =>
      go <- Continue ;;
      if negb go then ret (found, false)
      else
        let* (s, empty_batch, found) := op_step o empty_batch found in
        if ok s then replay ops empty_batch found
        else if negb (IsTryAgain s) then fail s
        else
          go <- Continue ;;
          if negb go then fail s
          else
            let* (s, empty_batch, found) := op_step o empty_batch found in
            if ok s then replay ops empty_batch found
            else if negb (IsTryAgain s) then fail s
            else go <- Continue ;; fail (if negb go then s else try_again_twice)
  end.

Lemma call_handler_op o empty_batch found h :
  call_handler (record_of o) empty_batch found h = op_step o empty_batch found h.
Proof.
  unfold op_step.
  destruct o; cbn [record_of]; unfold family_tag; repeat case_match; unfold call_handler; cbn -[ok]; try done;
    unfold counted, bind, ret; repeat case_match; simplify_eq/=; try done;
    by rewrite andb_false_r in *.
Qed.

Lemma bind_cong {A B} (m m' : M H A) (k k' : A -> M H B) h :
  m h = m' h -> (forall a h', k a h' = k' a h') -> bind m k h = bind m' k' h.
Proof. intros Hm Hk. unfold bind. rewrite Hm. by destruct (m' h). Qed.

Lemma IsTryAgain_ok s : ok s = true -> IsTryAgain s = false.
Proof. unfold ok, IsTryAgain. rewrite bool_decide_eq_true. intros ->. done. Qed.

Lemma encode_op_cons o : exists t r, encode_op o = t :: r.
Proof. destruct o; cbn [encode_op]; unfold put_tag, PutVarint32; repeat case_match; cbn [app]; eauto. Qed.

(** The loop does what [replay] does; two rounds for each operation and two more are
    enough. *)
Lemma Iterate_loop_replay ops : Forall op_fits ops -> forall fuel s r last empty_batch found h,
  ok s = true -> (2 * length (encode_ops ops) + 2 <= fuel)%nat ->
  Iterate_loop fuel s (encode_ops ops) r last empty_batch found h = replay ops empty_batch found h.
Proof.
  induction 1 as [|o ops Ho _ IH]; intros fuel s r last empty_batch found h Hs Hfuel.
  { destruct fuel; cbn -[ok]; by rewrite Hs, IsTryAgain_ok. }
  change (o :: ops) with ([o] ++ ops) in *. rewrite encode_ops_app, encode_ops_one in *.
  destruct (encode_op_cons o) as (t & rest & Et). rewrite length_app, Et in Hfuel. cbn [length] in Hfuel.
  destruct fuel as [|fuel]; [lia|].
  assert (Hrun : forall n s1 l1 e1 f1 h1, (2 * length (encode_ops ops) + 2 <= n)%nat -> ok s1 = true ->
    Iterate_loop n s1 (encode_ops ops) (record_of o) l1 e1 f1 h1 = replay ops e1 f1 h1) by (intros; by apply IH).
  clear IH. cbn [app replay].
  cbn [Iterate_loop]. rewrite Hs, (IsTryAgain_ok _ Hs). rewrite bool_decide_eq_false_2 by (by rewrite Et). cbn [andb negb orb].
  apply bind_ext. intros go h1. destruct go; cbn [negb]; [|done].
  rewrite ReadRecord_encode, bind_ret_l by done.
  apply bind_cong; [apply call_handler_op|]. intros [[s2 e2] f2] h2.
  destruct (ok s2) eqn:Hs2; [apply Hrun; [lia|done]|].
  destruct fuel as [|fuel]; [lia|]. cbn [Iterate_loop]. rewrite Hs2. cbn [andb orb]. destruct (IsTryAgain s2) eqn:Ht2; cbn [negb]; [|done].
  apply bind_ext. intros go h3. destruct go; cbn [negb]; [|done].
  rewrite bind_ret_l. apply bind_cong; [apply call_handler_op|]. intros [[s4 e4] f4] h4.
  destruct (ok s4) eqn:Hs4; [apply Hrun; [lia|done]|].
  destruct fuel as [|fuel]; [lia|]. cbn [Iterate_loop]. rewrite Hs4. cbn [andb orb]. destruct (IsTryAgain s4) eqn:Ht4; cbn [negb]; [|done].
  apply bind_ext. intros go h5. by destruct go.
Qed.

Lemma u32_mod z : u32 z = z mod 2 ^ 32.
Proof. done. Qed.

Lemma op_step_found o empty_batch found h s e f h' :
  op_step o empty_batch found h = Ok (s, e, f) h' ->
  f = if ok s && op_counts o then found +32 1 else found.
Proof. unfold op_step. intros Hr. apply bind_inv_ok in Hr as (s1 & h1 & _ & Hr). by injection Hr as -> <- <- _. Qed.

(** An iteration that reaches the end has counted every update. *)
Lemma replay_found ops : forall empty_batch found h n h',
  found = u32 found -> replay ops empty_batch found h = Ok (n, true) h' -> n = u32 (found + updates ops).
Proof.
  induction ops as [|o ops IH]; intros empty_batch found h n h' Hf Hr.
  { injection Hr as <- _. change (updates []) with 0. by rewrite Z.add_0_r. }
  assert (Hstep : forall e1 f1 h1 s2 e2 f2 h2, op_step o e1 f1 h1 = Ok (s2, e2, f2) h2 -> f1 = u32 f1 -> f1 = u32 found ->
    if ok s2 then forall h3, replay ops e2 f2 h2 = Ok (n, true) h3 -> n = u32 (found + updates (o :: ops)) else f2 = f1).
  { intros e1 f1 h1 s2 e2 f2 h2 Hs Hf1 Hff. apply op_step_found in Hs as ->. destruct (ok s2); [|done].
    change (o :: ops) with ([o] ++ ops). rewrite updates_app. cbn [andb]. rewrite Hff. unfold updates at 1. cbn [List.filter].
    intros h3 Hr3. destruct (op_counts o); apply IH in Hr3 as ->; unfold zlen; cbn [length]; rewrite ?u32_mod.
    all: change (2 ^ 32) with 4294967296; change (Z.of_nat 1) with 1; change (Z.of_nat 0) with 0; Z.div_mod_to_equations; lia. }
  cbn [replay] in Hr. apply bind_inv_ok in Hr as (go & h1 & _ & Hr). destruct go; cbn [negb] in Hr; [|done].
  apply bind_inv_ok in Hr as ([[s2 e2] f2] & h2 & Hs2 & Hr). pose proof (Hstep _ _ _ _ _ _ _ Hs2 Hf Hf) as H2.
  destruct (ok s2); [by eapply H2|]. destruct (negb _); [done|]. subst f2.
  apply bind_inv_ok in Hr as (go & h3 & _ & Hr). destruct go; cbn [negb] in Hr; [|done].
  apply bind_inv_ok in Hr as ([[s4 e4] f4] & h4 & Hs4 & Hr). pose proof (Hstep _ _ _ _ _ _ _ Hs4 Hf Hf) as H4.
  destruct (ok s4); [by eapply H4|]. destruct (negb _); [done|].
  apply bind_inv_ok in Hr as (go & h5 & _ & Hr). done.
Qed.

End Replay.

Lemma zlen_batch_bytes seq ops : zlen (batch_bytes seq ops) = kHeader + zlen (encode_ops ops).
Proof. unfold batch_bytes. rewrite !zlen_app. unfold zlen. rewrite !length_le_split. unfold kHeader. lia. Qed.

Lemma zdrop_batch_bytes seq ops : zdrop kHeader (batch_bytes seq ops) = encode_ops ops.
Proof.
  unfold batch_bytes, zdrop. rewrite app_assoc. change (Z.to_nat kHeader) with 12%nat.
  apply drop_app_length'. by rewrite length_app, !length_le_split.
Qed.

Lemma Count_bytes b seq ops : rep_ b = batch_bytes seq ops -> Count b = u32 (updates ops).
Proof.
  intros Hr. unfold Count. rewrite Hr. unfold batch_bytes, zdrop. change (Z.to_nat 8) with 8%nat.
  rewrite drop_app_length' by (by rewrite length_le_split). unfold DecodeFixed32, kLittleEndian. apply (memcpy_to_from 4).
Qed.

(** The iteration over a batch is the replay of its operations: all of them are parsed,
    and the count is right. *)
Lemma Iterate_replay {H} `{Handler H} b seq ops (h : H) :
  rep_ b = batch_bytes seq ops -> Forall op_fits ops ->
  Iterate b h = (replay ops true 0 ;; ret tt) h.
Proof.
  intros Hr Hops. pose proof (zlen_nonneg (encode_ops ops)). unfold Iterate. rewrite Hr, zlen_batch_bytes.
  rewrite (proj2 (Z.ltb_ge _ _)) by lia. unfold WBI_Iterate. rewrite Hr, zlen_batch_bytes, !(proj2 (Z.ltb_ge _ _)) by lia.
  cbn [orb]. rewrite zdrop_batch_bytes. replace (kHeader + zlen (encode_ops ops) - kHeader) with (zlen (encode_ops ops)) by lia.
  rewrite ztake_all, !Z.eqb_refl by lia. cbn [andb]. rewrite (Count_bytes _ _ _ Hr).
  unfold bind at 1. rewrite Iterate_loop_replay by done. unfold bind at 1.
  destruct (replay ops true 0 h) as [[found go] h'|e h'|w] eqn:E; try done.
  destruct go; [|done]. apply replay_found in E as ->; [|done]. rewrite Z.add_0_l, Z.eqb_refl. done.
Qed.

(** ** Content flags *)

Fixpoint before_noop (ops : list BatchOp) : list BatchOp :=
  match ops with
  | [] => []
  | BNoop :: _ => []
  | o :: ops => o :: before_noop ops
  end.

Lemma classifier_step o empty_batch found c : o <> BNoop ->
  exists e f, op_step o empty_batch found c = Ok (OK, e, f) (Z.lor c (op_flags o)).
Proof.
  intros Ho. destruct o; try done; try (cbn [op_flags]; rewrite Z.lor_0_r); try (eexists _, _; reflexivity).
  all: eexists _, _; cbn; by rewrite ?Z.lor_0_r, <- ?Z.lor_assoc.
Qed.

Lemma replay_classifier ops : forall empty_batch found c,
  match replay ops empty_batch found c with
  | Ok _ c' | Err _ c' => c' = Z.lor c (ops_flags (before_noop ops))
  | Stuck _ => False
  end.
Proof.
  induction ops as [|o ops IH]; intros empty_batch found c; [by cbn; rewrite Z.lor_0_r|].
  cbn [replay]. rewrite (bind_ok _ _ _ true c) by done. cbn [negb].
  destruct (decide (o = BNoop)) as [->|Ho]; [by cbn; rewrite Z.lor_0_r|].
  destruct (classifier_step o empty_batch found c Ho) as (e & f & Hs). rewrite (bind_ok _ _ _ _ _ Hs). change (ok OK) with true. cbv iota.
  specialize (IH e f (Z.lor c (op_flags o))).
  replace (ops_flags (before_noop (o :: ops))) with (Z.lor (op_flags o) (ops_flags (before_noop ops))) by (by destruct o).
  rewrite Z.lor_assoc. done.
Qed.

Lemma ComputeContentFlags_deferred b seq ops :
  rep_ b = batch_bytes seq ops -> Forall op_fits ops -> Z.land (content_flags_ b) DEFERRED <> 0 ->
  ComputeContentFlags b = Ok (ops_flags (before_noop ops)) (set_content_flags (ops_flags (before_noop ops)) b).
Proof.
  intros Hr Hops Hd. unfold ComputeContentFlags, bind, get. rewrite (proj2 (Z.eqb_neq _ 0) Hd). cbn [negb].
  rewrite (Iterate_replay b seq ops) by done. pose proof (replay_classifier ops true 0 0) as Hc. unfold bind.
  destruct (replay ops true 0 0) as [a c|e c|w]; [| |done]; cbn [ret] in *; by subst c.
Qed.

Lemma has_flag_deferred c b seq ops :
  rep_ b = batch_bytes seq ops -> Forall op_fits ops -> Z.land (content_flags_ b) DEFERRED <> 0 ->
  exists b', has_flag c b = Ok (negb (Z.land (ops_flags (before_noop ops)) c =? 0)) b' /\ rep_ b' = rep_ b.
Proof.
  intros Hr Hops Hd. eexists. unfold has_flag. rewrite (bind_ok _ _ _ _ _ (ComputeContentFlags_deferred _ _ _ Hr Hops Hd)).
  split; [reflexivity|done].
Qed.

Lemma before_noop_id ops : BNoop ∉ ops -> before_noop ops = ops.
Proof.
  induction ops as [|o ops IH]; [done|]. intros Hn. apply not_elem_of_cons in Hn as [Ho Hn]. cbn [before_noop]. rewrite IH by done.
  by destruct o.
Qed.

Lemma land_flag_In c ops : Z.land (ops_flags ops) c <> 0 <-> exists o, o ∈ ops /\ Z.land (op_flags o) c <> 0.
Proof.
  unfold ops_flags. induction ops as [|o ops IH]; cbn [map fold_right].
  - split; [done|]. intros (o & Ho & _). by apply elem_of_nil in Ho.
  - rewrite Z.land_lor_distr_l, Z.lor_eq_0_iff. setoid_rewrite elem_of_cons. destruct (decide (Z.land (op_flags o) c = 0)); naive_solver.
Qed.

(** C39: what a batch read back from the log says of its contents is computed by iterating
    over it with a handler that does not know the noop marker, and the status of the
    iteration is dropped. So the flags of a batch without that marker are exactly right:
    [HasPut] and the like hold if and only if such an operation is in the batch. Of a batch
    with the marker only the operations before it are seen: a batch that starts with it
    says that it contains nothing, whatever follows, although the iteration with a handler
    that knows the marker calls it for all of its operations. *)
Theorem deferred_content_flags b seq ops :
  rep_ b = batch_bytes seq ops -> Forall op_fits ops -> Z.land (content_flags_ b) DEFERRED <> 0 ->
  (forall c, BNoop ∉ ops -> exists found b', has_flag c b = Ok found b' /\
     (found = true <-> exists o, o ∈ ops /\ Z.land (op_flags o) c <> 0)) /\
  (forall c, head ops = Some BNoop -> exists b', has_flag c b = Ok false b').
Proof.
  intros Hr Hops Hd. split.
  - intros c Hn. destruct (has_flag_deferred c b seq ops Hr Hops Hd) as (b' & Hb & _). eexists _, b'. split; [done|].
    rewrite before_noop_id, negb_true_iff, Z.eqb_neq by done. apply land_flag_In.
  - intros c Hh. destruct (has_flag_deferred c b seq ops Hr Hops Hd) as (b' & Hb & _). exists b'. rewrite Hb.
    destruct ops as [|o ops]; [done|]. injection Hh as ->. done.
Qed.

Lemma deferred_content_flags_witness :
  let put := BPut 0 [Byte.x01] [Byte.x02] in
  (exists found b', HasPut (WriteBatch_of_rep (batch_bytes 7 [put])) = Ok found b' /\ found = true) /\
  (exists b', HasPut (WriteBatch_of_rep (batch_bytes 7 [BNoop; put])) = Ok false b').
Proof.
  split.
  - destruct (deferred_content_flags (WriteBatch_of_rep (batch_bytes 7 [BPut 0 [Byte.x01] [Byte.x02]])) 7 [BPut 0 [Byte.x01] [Byte.x02]])
      as [Hf _]; [done| |done|]. { repeat constructor; done. }
    destruct (Hf HAS_PUT) as (found & b' & Hb & Hi).
    { intros Hi. apply list_elem_of_singleton in Hi. done. }
    exists found, b'. split; [exact Hb|]. apply Hi. exists (BPut 0 [Byte.x01] [Byte.x02]). split; [by apply list_elem_of_singleton|done].
  - apply (deferred_content_flags (WriteBatch_of_rep (batch_bytes 7 [BNoop; BPut 0 [Byte.x01] [Byte.x02]])) 7
      [BNoop; BPut 0 [Byte.x01] [Byte.x02]]); try done. repeat constructor; done.
Defined.

(** ** Batches that are cut *)

Lemma GetVarintPtr_loop_app w n : forall shift result p q v rest,
  GetVarintPtr_loop w n shift result p = Some (v, rest) -> GetVarintPtr_loop w n shift result (p ++ q) = Some (v, rest ++ q).
Proof.
  induction n as [|n IH]; intros shift result [|c p] q v rest; cbn [GetVarintPtr_loop app]; try done.
  destruct (negb _); [apply IH|]. by intros [= <- <-].
Qed.
Lemma GetVarint32_app p q v rest : GetVarint32 p = Some (v, rest) -> GetVarint32 (p ++ q) = Some (v, rest ++ q).
Proof. unfold GetVarint32. rewrite !GetVarint32Ptr_fallback. apply GetVarintPtr_loop_app. Qed.
Lemma GetVarint32_nonneg p v rest : GetVarint32 p = Some (v, rest) -> 0 <= v.
Proof.
  unfold GetVarint32. rewrite GetVarint32Ptr_fallback. intros Hv. by apply GetVarintPtr_loop_bounds in Hv as ([? ?] & _).
Qed.
Lemma GetLengthPrefixedSlice_app p q b rest :
  GetLengthPrefixedSlice p = (Some b, rest) -> GetLengthPrefixedSlice (p ++ q) = (Some b, rest ++ q).
Proof.
  unfold GetLengthPrefixedSlice. destruct (GetVarint32 p) as [[len r]|] eqn:E; [|done].
  rewrite (GetVarint32_app _ q _ _ E). pose proof (GetVarint32_nonneg _ _ _ E). case_decide as Hl; [|done]. intros [= <- <-].
  pose proof (zlen_nonneg q). rewrite decide_True by (rewrite zlen_app; lia).
  rewrite ztake_app_le by lia. f_equal. unfold zdrop. rewrite drop_app_le; [done|]. unfold zlen in *. lia.
Qed.

(** A parser that does not look behind what it consumes, and whose errors are corruptions. *)
Definition local_parser (f : bytes -> Parsed) : Prop :=
  forall p, match f p with
            | inr (r, rest) => forall q, f (p ++ q) = inr (r, rest ++ q)
            | inl e => exists m, e = Corruption m
            end.

Lemma local_done r : local_parser (fun p => inr (r, p)).
Proof. done. Qed.
Lemma local_fail m : local_parser (fun _ => inl (Corruption m)).
Proof. intros p. by exists m. Qed.
Lemma local_slice e k : (forall b, local_parser (k b)) -> local_parser (fun p => read_slice e p k).
Proof.
  intros Hk p. unfold read_slice. destruct (GetLengthPrefixedSlice p) as [[b|] rest] eqn:E; [|by exists e].
  specialize (Hk b rest). destruct (k b rest) as [s|[r rest']]; [done|]. intros q. by rewrite (GetLengthPrefixedSlice_app _ _ _ _ E).
Qed.
Lemma local_family e k : (forall cf, local_parser (k cf)) -> local_parser (fun p => read_family e p k).
Proof.
  intros Hk p. unfold read_family. destruct (GetVarint32 p) as [[cf rest]|] eqn:E; [|by exists e].
  specialize (Hk cf rest). destruct (k cf rest) as [s|[r rest']]; [done|]. intros q. by rewrite (GetVarint32_app _ _ _ _ E).
Qed.
Lemma local_key e tag cf : local_parser (read_key e tag cf).
Proof. apply local_slice. intros b. apply local_done. Qed.
Lemma local_key_value e tag cf : local_parser (read_key_value e tag cf).
Proof. apply local_slice. intros k. apply local_slice. intros v. apply local_done. Qed.
Lemma local_xid e tag key : local_parser (read_xid e tag key).
Proof. apply local_slice. intros b. apply local_done. Qed.

Create HintDb local_parser.
#[export] Hint Resolve local_done local_fail local_slice local_family local_key local_key_value local_xid : local_parser.

Lemma local_if (c : bool) f g : local_parser f -> local_parser g -> local_parser (fun p => if c then f p else g p).
Proof. by destruct c. Qed.

Lemma local_tail c : local_parser (fun p => ReadRecordFromWriteBatch (c :: p)).
Proof.
  unfold ReadRecordFromWriteBatch. cbv zeta. generalize (byte.unsigned c). intros tag.
  repeat (apply local_if; [auto with local_parser|]). auto with local_parser.
Qed.

(** A part of an operation is not taken for one. *)
Lemma ReadRecord_cut o c d : op_fits o -> encode_op o = c ++ d -> c <> [] -> d <> [] ->
  exists m, ReadRecordFromWriteBatch c = inl (Corruption m).
Proof.
  intros Ho He Hc Hd. destruct c as [|t c]; [done|]. pose proof (local_tail t c) as Hl. cbv beta in Hl.
  destruct (ReadRecordFromWriteBatch (t :: c)) as [e|[r rest]] eqn:E; [destruct Hl as [m ->]; by exists m|].
  specialize (Hl d). change (t :: c ++ d) with ((t :: c) ++ d) in Hl. pose proof (ReadRecord_encode o [] Ho) as Hr.
  rewrite app_nil_r, He, Hl in Hr. injection Hr as _ Hr. by apply app_eq_nil in Hr as [_ ?].
Qed.

Lemma cut_ops ops : forall n, 0 <= n < zlen (encode_ops ops) ->
  exists ops1 o ops2 c d, ops = ops1 ++ o :: ops2 /\ ztake n (encode_ops ops) = encode_ops ops1 ++ c /\
    encode_op o = c ++ d /\ d <> [] /\ n = zlen (encode_ops ops1) + zlen c.
Proof.
  induction ops as [|o ops IH]; intros n Hn; [change (zlen (encode_ops [])) with 0 in Hn; lia|].
  change (o :: ops) with ([o] ++ ops) in *. rewrite encode_ops_app, encode_ops_one in *. rewrite zlen_app in Hn.
  destruct (Z.lt_ge_cases n (zlen (encode_op o))) as [Hlt|Hge].
  - exists [], o, ops, (ztake n (encode_op o)), (zdrop n (encode_op o)). split_and!; try done.
    + by rewrite ztake_app_le by lia.
    + by rewrite ztake_zdrop.
    + intros Hd. apply (f_equal zlen) in Hd. rewrite zlen_zdrop in Hd by lia. change (zlen []) with 0 in Hd. lia.
    + rewrite zlen_ztake by lia. change (zlen (encode_ops [])) with 0. lia.
  - destruct (IH (n - zlen (encode_op o))) as (ops1 & o' & ops2 & c & d & -> & Ht & He & Hd & Hl); [lia|].
    exists (o :: ops1), o', ops2, c, d. split_and!; try done.
    + rewrite ztake_app_ge by lia. rewrite Ht. change (o :: ops1) with ([o] ++ ops1). by rewrite encode_ops_app, encode_ops_one, app_assoc.
    + change (o :: ops1) with ([o] ++ ops1). rewrite encode_ops_app, encode_ops_one, zlen_app. lia.
Qed.

(** A handler that takes every operation. *)
Class Accepts H `{Handler H} : Prop := {
  accepts_continue (h : H) : exists h', Continue h = Ok true h';
  accepts_op o empty_batch (h : H) : exists s h', op_call o empty_batch h = Ok s h' /\ ok s = true
}.

Section Cut.
Context {H : Type} {handler : Handler H} {accepts : Accepts H}.

Lemma accept_step o empty_batch found (h : H) :
  exists s e f h', op_step o empty_batch found h = Ok (s, e, f) h' /\ ok s = true.
Proof.
  destruct (accepts_op o empty_batch h) as (s & h' & Hs & Ho). exists s. unfold op_step.
  rewrite (bind_ok _ _ _ _ _ Hs). by eexists _, _, _.
Qed.

Lemma accept_replay ops : forall empty_batch found (h : H), exists n h', replay ops empty_batch found h = Ok (n, true) h'.
Proof.
  induction ops as [|o ops IH]; intros empty_batch found h; [by eexists _, _|]. cbn [replay].
  destruct (accepts_continue h) as (h1 & H1). rewrite (bind_ok _ _ _ _ _ H1). cbn [negb].
  destruct (accept_step o empty_batch found h1) as (s & e & f & h2 & H2 & Hs). rewrite (bind_ok _ _ _ _ _ H2), Hs. apply IH.
Qed.

Lemma Iterate_loop_cut ops o c d : Forall op_fits ops -> op_fits o -> encode_op o = c ++ d -> c <> [] -> d <> [] ->
  forall fuel s r last empty_batch found (h : H), ok s = true -> (length (encode_ops ops) + 1 <= fuel)%nat ->
  exists m h', Iterate_loop fuel s (encode_ops ops ++ c) r last empty_batch found h = Err (Corruption m) h'.
Proof.
  intros Hops Ho He Hc Hd. induction Hops as [|o' ops Ho' _ IH]; intros fuel s r last empty_batch found h Hs Hfuel.
  - destruct fuel as [|fuel]; [lia|]. cbn [Iterate_loop]. change (encode_ops []) with (@nil byte). cbn [app].
    rewrite Hs, (IsTryAgain_ok _ Hs), bool_decide_eq_false_2 by done. cbn [andb negb orb].
    destruct (accepts_continue h) as (h1 & H1). rewrite (bind_ok _ _ _ _ _ H1). cbn [negb].
    destruct (ReadRecord_cut o c d Ho He Hc Hd) as [m Hm]. rewrite Hm. by exists m, h1.
  - change (o' :: ops) with ([o'] ++ ops) in *. rewrite encode_ops_app, encode_ops_one, <- app_assoc in *.
    destruct (encode_op_cons o') as (t & rest & Et). rewrite length_app, Et in Hfuel. cbn [length] in Hfuel.
    destruct fuel as [|fuel]; [lia|]. cbn [Iterate_loop].
    rewrite Hs, (IsTryAgain_ok _ Hs), bool_decide_eq_false_2 by (by rewrite Et). cbn [andb negb orb].
    destruct (accepts_continue h) as (h1 & H1). rewrite (bind_ok _ _ _ _ _ H1). cbn [negb].
    rewrite ReadRecord_encode, bind_ret_l by done.
    destruct (accept_step o' empty_batch found h1) as (s2 & e & f & h2 & H2 & Hs2). rewrite <- call_handler_op in H2.
    rewrite (bind_ok _ _ _ _ _ H2). apply IH; [done|lia].
Qed.

End Cut.

(** A handler that collects what it is called for. *)
Definition collect (o : BatchOp) : M (list BatchOp) Status := modify (fun l => l ++ [o]) ;; ret OK.
#[export] Instance collector : Handler (list BatchOp) := {|
  PutCF cf k v := collect (BPut cf k v);
  PutEntityCF cf k v := collect (BPutEntity cf k v);
  DeleteCF cf k := collect (BDelete cf k);
  SingleDeleteCF cf k := collect (BSingleDelete cf k);
  DeleteRangeCF cf k v := collect (BDeleteRange cf k v);
  MergeCF cf k v := collect (BMerge cf k v);
  PutBlobIndexCF cf k v := collect (BBlobIndex cf k v);
  LogData b := modify (fun l => l ++ [BLogData b]);
  MarkBeginPrepare unprepared := collect (if unprepared then BBeginUnprepare else BBeginPrepare);
  MarkEndPrepare xid := collect (BEndPrepare xid);
  MarkNoop _ := collect BNoop;
  MarkRollback xid := collect (BRollback xid);
  MarkCommit xid := collect (BCommit xid);
  MarkCommitWithTimestamp xid ts := collect (BCommitWithTimestamp xid ts);
  Continue := ret true;
  WriteAfterCommit _ := kUnknown;
  WriteBeforePrepare _ := kUnknown
|}.
#[export] Instance collector_accepts : Accepts (list BatchOp).
Proof. split; [by eexists|]. intros o empty_batch l. destruct o; by eexists _, _. Qed.


