(* ===== verification/BatchCalls.v ===== *)
(** * Write batches: the interface

    The calls of the interface of WriteBatch as operations on an abstract batch, a list of
    operations with the lists its save points go back to, and the refinement. *)

From S2P Require Import Prelude Status Coding WideColumns WriteBatch WriteBatchProps.

(** ** The abstract batch *)

Record Batch := mkBatch {
  a_seq : Z;
  a_ops : list BatchOp;
  a_saves : list (list BatchOp);
  a_max : Z;
  a_ts : Z
}.
Definition set_ops ops a := mkBatch (a_seq a) ops (a_saves a) (a_max a) (a_ts a).
Definition set_saves ps a := mkBatch (a_seq a) (a_ops a) ps (a_max a) (a_ts a).

Definition batch_size (ops : list BatchOp) : Z := kHeader + zlen (encode_ops ops).

(** Adding an operation, with and without the limit of the size. *)
Definition add (o : BatchOp) (a : Batch) : Status * Batch := (OK, set_ops (a_ops a ++ [o]) a).
Definition add_limited (o : BatchOp) (a : Batch) : Status * Batch :=
  if negb (a_max a =? 0) && (a_max a <? batch_size (a_ops a ++ [o])) then (MemoryLimit, a) else add o a.

(** ** The calls *)

Inductive UpdateKind := KPut | KDelete | KSingleDelete | KDeleteRange | KMerge.

Definition kind_op (kind : UpdateKind) (cf : Z) (key value : bytes) : BatchOp :=
  match kind with
  | KPut => BPut cf key value
  | KDelete => BDelete cf key
  | KSingleDelete => BSingleDelete cf key
  | KDeleteRange => BDeleteRange cf key value
  | KMerge => BMerge cf key value
  end.
(** The end of a range carries the timestamp, too. *)
Definition kind_value (kind : UpdateKind) (value ts : bytes) : bytes :=
  match kind with KDeleteRange => value ++ ts | _ => value end.
(** Only these calls look at the sizes. *)
Definition kind_checks (kind : UpdateKind) : bool := match kind with KPut | KMerge => true | _ => false end.

Inductive BatchCall :=
| CallUpdate (kind : UpdateKind) (column_family : option ColumnFamilyHandle) (key value : bytes)
| CallUpdateTs (kind : UpdateKind) (column_family : option ColumnFamilyHandle) (key ts value : bytes)
| CallUpdateParts (kind : UpdateKind) (column_family : option ColumnFamilyHandle) (key value : list bytes)
| CallPutEntity (column_family : option ColumnFamilyHandle) (key : bytes) (columns : list WideColumn)
| CallPutBlobIndex (cf : Z) (key value : bytes)
| CallPutLogData (blob : bytes)
| CallInsertNoop
| CallMarkEndPrepare (xid : bytes) (write_after_commit unprepared_batch : bool)
| CallMarkCommit (xid : bytes)
| CallMarkCommitWithTimestamp (xid commit_ts : bytes)
| CallMarkRollback (xid : bytes)
| CallSetSavePoint
| CallRollbackToSavePoint
| CallPopSavePoint
| CallClear
| CallSetSequence (seq : Z)
| CallAppend (src : WriteBatch) (wal_only : bool) (appended : list BatchOp).

Definition run_call (c : BatchCall) : BM unit :=
  match c with
  | CallUpdate kind cf k v =>
      match kind with
      | KPut => WB_Put cf k v | KDelete => WB_Delete cf k | KSingleDelete => WB_SingleDelete cf k
      | KDeleteRange => WB_DeleteRange cf k v | KMerge => WB_Merge cf k v
      end
  | CallUpdateTs kind cf k ts v =>
      match kind with
      | KPut => WB_PutTs cf k ts v | KDelete => WB_DeleteTs cf k ts | KSingleDelete => WB_SingleDeleteTs cf k ts
      | KDeleteRange => WB_DeleteRangeTs cf k v ts | KMerge => WB_MergeTs cf k ts v
      end
  | CallUpdateParts kind cf k v =>
      match kind with
      | KPut => WB_PutParts cf k v | KDelete => WB_DeleteParts cf k | KSingleDelete => WB_SingleDeleteParts cf k
      | KDeleteRange => WB_DeleteRangeParts cf k v | KMerge => WB_MergeParts cf k v
      end
  | CallPutEntity cf k columns => WB_PutEntity cf k columns
  | CallPutBlobIndex cf k v => WBI_PutBlobIndex cf k v
  | CallPutLogData b => PutLogData b
  | CallInsertNoop => WBI_InsertNoop
  | CallMarkEndPrepare xid wac unp => WBI_MarkEndPrepare xid wac unp
  | CallMarkCommit xid => WBI_MarkCommit xid
  | CallMarkCommitWithTimestamp xid ts => WBI_MarkCommitWithTimestamp xid ts
  | CallMarkRollback xid => WBI_MarkRollback xid
  | CallSetSavePoint => SetSavePoint
  | CallRollbackToSavePoint => RollbackToSavePoint
  | CallPopSavePoint => PopSavePoint
  | CallClear => modify WriteBatch_Clear
  | CallSetSequence seq => modify (SetSequence seq)
  | CallAppend src wal_only _ => WBI_Append src wal_only
  end.

(** ** What the calls promise *)

(** The family of a handle and the size of its timestamps, or why the call is refused. *)
Definition family (a : Batch) (column_family : option ColumnFamilyHandle) : Status + (Z * Z) :=
  match column_family with
  | None => inr (0, Z.max 0 (a_ts a))
  | Some (mkCFH id None) => inr (id, 0)
  | Some (mkCFH id (Some ts)) =>
      if bool_decide (id = 0 /\ ts <> a_ts a) then inl (InvalidArgument "Default cf timestamp size mismatch") else inr (id, ts)
  end.
Definition family_with_ts (column_family : option ColumnFamilyHandle) (ts : bytes) : Status + Z :=
  match column_family with
  | None => inl (InvalidArgument "column family handle cannot be null")
  | Some (mkCFH id sz) =>
      if bool_decide (sz = Some 0) then inl (InvalidArgument "timestamp disabled")
      else if bool_decide (sz = Some (zlen ts)) then inr id else inl (InvalidArgument "timestamp size mismatch")
  end.

(** [Put] and [Merge] refuse what does not fit; a key or value in parts may be one byte
    less long. *)
Definition too_large (kind : UpdateKind) (parts : bool) (key value : bytes) : option Status :=
  let limit := 2 ^ 32 - (if parts then 1 else 0) in
  if negb (kind_checks kind) then None
  else if limit <=? zlen key then Some (InvalidArgument "key is too large")
  else if limit <=? zlen value then Some (InvalidArgument "value is too large")
  else None.

Definition update (kind : UpdateKind) (parts : bool) (cf : Z) (key value : bytes) (a : Batch) : Status * Batch :=
  match too_large kind parts key value with
  | Some e => (e, a)
  | None => add_limited (kind_op kind cf key value) a
  end.

Definition put_entity (cf : Z) (key : bytes) (columns : list WideColumn) (a : Batch) : Status * Batch :=
  if 2 ^ 32 <=? zlen key then (InvalidArgument "key is too large", a)
  else
    match Serialize (sort_columns columns) [] with
    | inl e => (e, a)
    | inr entity =>
        if 2 ^ 32 <=? zlen entity then (InvalidArgument "wide column entity is too large", a)
        else add_limited (BPutEntity cf key entity) a
    end.

Definition no_timestamps : Status := InvalidArgument "Cannot call this method on column family enabling timestamp".

Definition begin_op (write_after_commit unprepared_batch : bool) : BatchOp :=
  if write_after_commit then BBeginPrepare else if unprepared_batch then BBeginUnprepare else BBeginPersistedPrepare.

Definition spec_call (c : BatchCall) (a : Batch) : Status * Batch :=
  match c with
  | CallUpdate kind cf k v =>
      match family a cf with
      | inl e => (e, a)
      | inr (id, ts_sz) => update kind (negb (ts_sz =? 0)) id (k ++ zeros ts_sz) (kind_value kind v (zeros ts_sz)) a
      end
  | CallUpdateTs kind cf k ts v =>
      match family_with_ts cf ts with
      | inl e => (e, a)
      | inr id => update kind true id (k ++ ts) (kind_value kind v ts) a
      end
  | CallUpdateParts kind cf k v =>
      match family a cf with
      | inl e => (e, a)
      | inr (id, ts_sz) => if ts_sz =? 0 then update kind true id (concat k) (concat v) a else (no_timestamps, a)
      end
  | CallPutEntity None k columns => (InvalidArgument "Cannot call this method without a column family handle", a)
  | CallPutEntity cf k columns =>
      match family a cf with
      | inl e => (e, a)
      | inr (id, ts_sz) => if ts_sz =? 0 then put_entity id k columns a else (no_timestamps, a)
      end
  | CallPutBlobIndex cf k v => add_limited (BBlobIndex cf k v) a
  | CallPutLogData b => add_limited (BLogData b) a
  | CallInsertNoop => add BNoop a
  | CallMarkEndPrepare xid wac unp => (OK, set_ops (begin_op wac unp :: tail (a_ops a) ++ [BEndPrepare xid]) (set_saves [] a))
  | CallMarkCommit xid => add (BCommit xid) a
  | CallMarkCommitWithTimestamp xid ts => add (BCommitWithTimestamp xid ts) a
  | CallMarkRollback xid => add (BRollback xid) a
  | CallSetSavePoint => (OK, set_saves (a_ops a :: a_saves a) a)
  | CallRollbackToSavePoint =>
      match a_saves a with [] => (NotFound "", a) | p :: ps => (OK, set_ops p (set_saves ps a)) end
  | CallPopSavePoint => match a_saves a with [] => (NotFound "", a) | _ :: ps => (OK, set_saves ps a) end
  | CallClear => (OK, mkBatch 0 [] [] (a_max a) 0)
  | CallSetSequence seq => (OK, mkBatch seq (a_ops a) (a_saves a) (a_max a) (a_ts a))
  | CallAppend _ _ ops => (OK, set_ops (a_ops a ++ ops) a)
  end.

(** ** The refinement *)

Definition point_of (ops : list BatchOp) : SavePoint := mkSavePoint (batch_size ops) (u32 (updates ops)) (ops_flags ops).

(** Each save point goes back to a prefix of what the next later one goes back to. *)
Fixpoint nested (ops : list BatchOp) (saves : list (list BatchOp)) : Prop :=
  match saves with
  | [] => True
  | p :: ps => p `prefix_of` ops /\ nested p ps
  end.

Record refines (b : WriteBatch) (a : Batch) : Prop := {
  ref_rep : rep_ b = batch_bytes (a_seq a) (a_ops a);
  ref_fits : Forall op_fits (a_ops a);
  ref_flags : content_flags_ b = ops_flags (a_ops a);
  ref_saves : save_points_ b = map point_of (a_saves a);
  ref_nested : nested (a_ops a) (a_saves a);
  ref_max : max_bytes_ b = a_max a;
  ref_ts : default_cf_ts_sz_ b = a_ts a
}.

(** The batch a call appends: all of it, or what is before its termination point. *)
Definition appends (src : WriteBatch) (wal_only : bool) (ops : list BatchOp) : Prop :=
  exists seq rest, rep_ src = batch_bytes seq (ops ++ rest) /\ Forall op_fits ops /\ zlen (rep_ src) < 2 ^ 64 /\
    if wal_only && negb (is_cleared (wal_term_point_ src)) then wal_term_point_ src = point_of ops
    else rest = [] /\ content_flags_ src = ops_flags ops.

Definition handle_ok (column_family : option ColumnFamilyHandle) : Prop :=
  match column_family with
  | Some (mkCFH id sz) => 0 <= id < 2 ^ 32 /\ match sz with Some n => 0 <= n | None => True end
  | None => True
  end.

(** Keys of operations that do not look at the sizes fit. *)
Definition update_ok (kind : UpdateKind) (key value : bytes) : Prop :=
  zlen key < 2 ^ 64 /\ zlen value < 2 ^ 64 /\ (kind_checks kind = false -> op_fits (kind_op kind 0 key value)).

(** What a call expects. *)
Definition call_ok (a : Batch) (c : BatchCall) : Prop :=
  match c with
  | CallUpdate kind cf k v =>
      handle_ok cf /\ forall id ts, family a cf = inr (id, ts) -> update_ok kind (k ++ zeros ts) (kind_value kind v (zeros ts))
  | CallUpdateTs kind cf k ts v =>
      handle_ok cf /\ (forall h, cf = Some h -> cfh_timestamp_size h <> None) /\ update_ok kind (k ++ ts) (kind_value kind v ts)
  | CallUpdateParts kind cf k v => handle_ok cf /\ update_ok kind (concat k) (concat v)
  | CallPutEntity cf _ _ => handle_ok cf
  | CallPutBlobIndex cf k v => fits cf k v
  | CallPutLogData b | CallMarkCommit b | CallMarkRollback b => zlen b < 2 ^ 32
  | CallMarkCommitWithTimestamp b ts => zlen b < 2 ^ 32 /\ zlen ts < 2 ^ 32
  | CallMarkEndPrepare xid wac unp => zlen xid < 2 ^ 32 /\ wac && unp = false /\ head (a_ops a) = Some BNoop
  | CallAppend src wal_only ops => appends src wal_only ops
  | _ => True
  end.

(** A call answers as promised, and leaves a batch that represents the promised one. *)
Definition does (m : BM unit) (b : WriteBatch) (r : Status * Batch) : Prop :=
  exists b', refines b' r.2 /\ ((m b = Ok tt b' /\ r.1 = OK) \/ (m b = Err r.1 b' /\ ok r.1 = false)).

Lemma does_ok m b b' a : m b = Ok tt b' -> refines b' a -> does m b (OK, a).
Proof. intros Hm Hr. exists b'. auto. Qed.
Lemma does_err m b b' e a : m b = Err e b' -> ok e = false -> refines b' a -> does m b (e, a).
Proof. intros Hm He Hr. exists b'. auto. Qed.
Lemma does_eq m m' b b' r : m b = m' b' -> does m' b' r -> does m b r.
Proof. intros Hm (b2 & Hr & Hd). exists b2. by rewrite Hm. Qed.

(** ** The header *)

Lemma batch_bytes_app seq ops o : batch_bytes seq (ops ++ o) = le_split 8 seq ++ le_split 4 (updates (ops ++ o)) ++ encode_ops ops ++ encode_ops o.
Proof. unfold batch_bytes. by rewrite encode_ops_app. Qed.

Lemma splice_count seq n m x : splice 8 (le_split 4 n) (le_split 8 seq ++ le_split 4 m ++ x) = le_split 8 seq ++ le_split 4 n ++ x.
Proof.
  unfold splice. rewrite ztake_app' by done. rewrite (app_assoc (le_split 8 seq) (le_split 4 m) x).
  by rewrite (zdrop_app' _ (le_split 8 seq ++ le_split 4 m)) by done.
Qed.
Lemma splice_sequence seq seq' x : splice 0 (le_split 8 seq) (le_split 8 seq' ++ x) = le_split 8 seq ++ x.
Proof. unfold splice. rewrite ztake_0, (zdrop_app' _ (le_split 8 seq')) by done. done. Qed.

Lemma le_split_u32 n : le_split 4 (u32 n) = le_split 4 n.
Proof. symmetry. apply (le_split_mod n 4). Qed.

Lemma le_split_add32 n k : le_split 4 (u32 n +32 k) = le_split 4 (n + k).
Proof.
  rewrite le_split_u32, (le_split_mod (u32 n + k) 4), (le_split_mod (n + k) 4). change (2 ^ (Z.of_nat 4 * 8)) with (2 ^ 32).
  change (u32 n) with (n mod 2 ^ 32). by rewrite Zplus_mod_idemp_l.
Qed.

Lemma SetCount_rep n b seq m x :
  rep_ b = le_split 8 seq ++ le_split 4 m ++ x -> SetCount n b = set_rep (le_split 8 seq ++ le_split 4 n ++ x) b.
Proof. intros Hr. unfold SetCount. rewrite Hr. change (EncodeFixed32 kLittleEndian n) with (le_split 4 n). by rewrite splice_count. Qed.

Lemma resize_prefix n l k : n = zlen l -> resize n (l ++ k) = l.
Proof.
  intros ->. pose proof (zlen_nonneg k). unfold resize. rewrite ztake_app', zlen_app by done.
  replace (zlen l - (zlen l + zlen k)) with (- zlen k) by lia. unfold zeros.
  rewrite (Z2Nat.nonpos (- zlen k)) by lia. cbn. apply app_nil_r.
Qed.

(** Going back to a prefix of the operations, as [commit] and [RollbackToSavePoint] do. *)
Lemma rollback_rep b seq n ops x :
  rep_ b = le_split 8 seq ++ le_split 4 n ++ encode_ops ops ++ x ->
  set_content_flags (sp_content_flags (point_of ops))
    (SetCount (sp_count (point_of ops)) (set_rep (resize (sp_size (point_of ops)) (rep_ b)) b))
  = set_content_flags (ops_flags ops) (set_rep (batch_bytes seq ops) b).
Proof.
  intros Hr. assert (Hs : resize (batch_size ops) (rep_ b) = le_split 8 seq ++ le_split 4 n ++ encode_ops ops).
  { rewrite Hr, !(app_assoc _ _ x). apply resize_prefix. unfold batch_size. rewrite !zlen_app, !zlen_le_split. unfold kHeader. lia. }
  cbn [point_of sp_size sp_count sp_content_flags]. rewrite Hs.
  erewrite SetCount_rep by (cbn [rep_ set_rep]; reflexivity). rewrite le_split_u32. done.
Qed.

Lemma batch_size_eq seq ops : zlen (batch_bytes seq ops) = batch_size ops.
Proof. apply zlen_batch_bytes. Qed.

(** The fields of an updated batch. *)
Ltac fields := cbn [rep_ content_flags_ save_points_ max_bytes_ default_cf_ts_sz_ set_content_flags set_rep set_save_points
  set_ts_flags set_ops set_saves a_seq a_ops a_saves a_max a_ts fst snd].

(** ** Adding operations *)

Lemma nested_mono ops ops' saves : ops `prefix_of` ops' -> nested ops saves -> nested ops' saves.
Proof. destruct saves as [|p ps]; [done|]. intros Hp [H1 H2]. split; [by etrans|done]. Qed.

Lemma LocalSavePoint_spec b a : refines b a -> LocalSavePoint b = Ok (point_of (a_ops a)) b.
Proof.
  intros Hr. unfold LocalSavePoint, gets, GetDataSize. rewrite (Count_bytes _ _ _ (ref_rep _ _ Hr)).
  by rewrite (ref_rep _ _ Hr), batch_size_eq, (ref_flags _ _ Hr).
Qed.

(** The batch with one more operation. *)
Definition next (b : WriteBatch) (a : Batch) (o : BatchOp) : WriteBatch :=
  set_content_flags (Z.lor (content_flags_ b) (op_flags o)) (set_rep (batch_bytes (a_seq a) (a_ops a ++ [o])) b).

Lemma next_refines b a ops : refines b a -> Forall op_fits ops ->
  refines (set_content_flags (Z.lor (content_flags_ b) (ops_flags ops)) (set_rep (batch_bytes (a_seq a) (a_ops a ++ ops)) b))
    (set_ops (a_ops a ++ ops) a).
Proof.
  intros [H1 H2 H3 H4 H5 H6 H7] Ho. split; fields; try done.
  - apply Forall_app_2; done.
  - rewrite H3. by rewrite ops_flags_app.
  - eapply nested_mono; [|done]. by apply prefix_app_r.
Qed.

Lemma next_one b a o : refines b a -> op_fits o -> refines (next b a o) (set_ops (a_ops a ++ [o]) a).
Proof.
  intros Hr Ho. pose proof (next_refines b a [o] Hr) as Hn. unfold next. cbn in Hn. rewrite Z.lor_0_r in Hn.
  apply Hn. by constructor.
Qed.

Lemma restore_refines b b' a : refines b a -> save_points_ b' = save_points_ b -> max_bytes_ b' = max_bytes_ b ->
  default_cf_ts_sz_ b' = default_cf_ts_sz_ b ->
  refines (set_content_flags (ops_flags (a_ops a)) (set_rep (batch_bytes (a_seq a) (a_ops a)) b')) a.
Proof. intros [H1 H2 H3 H4 H5 H6 H7] E1 E2 E3. by split; fields; rewrite ?E1, ?E2, ?E3. Qed.

(** An operation added under a local save point is kept if the batch stays within its
    limit; otherwise the batch is what it was. *)
Lemma limited_spec (m : BM unit) b a o :
  refines b a -> op_fits o -> m b = Ok tt (next b a o) ->
  does (save <- LocalSavePoint ;; m ;; LocalSavePoint_commit save) b (add_limited o a).
Proof.
  intros Hr Ho Hm. eapply does_eq.
  { rewrite (bind_ok _ _ _ _ _ (LocalSavePoint_spec _ _ Hr)). rewrite (bind_ok _ _ _ _ _ Hm). reflexivity. }
  pose proof (next_one _ _ _ Hr Ho) as Hn. unfold LocalSavePoint_commit, add_limited.
  destruct (negb (a_max a =? 0) && (a_max a <? batch_size (a_ops a ++ [o]))) eqn:E.
  - eapply does_err; [|done|by apply (restore_refines b (next b a o) a)].
    unfold bind, get, modify. rewrite (ref_max _ _ Hn), (ref_rep _ _ Hn), batch_size_eq. fields. rewrite E.
    unfold fail. f_equal. eapply (rollback_rep (next b a o) (a_seq a)). unfold next. fields.
    by rewrite batch_bytes_app.
  - eapply does_ok; [|done]. unfold bind, get.
    rewrite (ref_max _ _ Hn), (ref_rep _ _ Hn), batch_size_eq. fields. by rewrite E.
Qed.

Lemma add_update_spec cf tag cf_tag flag put o b a :
  refines b a -> op_fits o -> op_counts o = true -> op_flags o = flag ->
  (forall rep, put (put_tag cf tag cf_tag rep) = rep ++ encode_op o) ->
  does (add_update cf tag cf_tag flag put) b (add_limited o a).
Proof.
  intros Hr Ho Hc Hf Hp. unfold add_update.
  eapply (does_eq _ (save <- LocalSavePoint ;; (modify (fun b => SetCount (Count b +32 1) b) ;;
    on_rep (put_tag cf tag cf_tag) ;; on_rep put ;; add_flags flag) ;; LocalSavePoint_commit save)); [reflexivity|].
  apply limited_spec; [done..|]. unfold on_rep, add_flags, bind, modify. f_equal.
  rewrite (Count_bytes _ _ _ (ref_rep _ _ Hr)), (SetCount_rep _ _ _ _ _ (ref_rep _ _ Hr)).
  unfold next. fields. rewrite Hp, Hf, batch_bytes_app, encode_ops_one.
  assert (H1 : updates [o] = 1) by (unfold updates; cbn [List.filter]; by rewrite Hc).
  rewrite updates_app, H1, le_split_add32. by rewrite <- !app_assoc.
Qed.

(** ** Updates of keys *)

Definition wbi_plain (kind : UpdateKind) (cf : Z) (k v : bytes) : BM unit :=
  match kind with
  | KPut => WBI_Put cf k v | KDelete => WBI_Delete cf k | KSingleDelete => WBI_SingleDelete cf k
  | KDeleteRange => WBI_DeleteRange cf k v | KMerge => WBI_Merge cf k v
  end.
Definition wbi_parts (kind : UpdateKind) (cf : Z) (k v : list bytes) : BM unit :=
  match kind with
  | KPut => WBI_PutParts cf k v | KDelete => WBI_DeleteParts cf k | KSingleDelete => WBI_SingleDeleteParts cf k
  | KDeleteRange => WBI_DeleteRangeParts cf k v | KMerge => WBI_MergeParts cf k v
  end.

Lemma put_tag_app cf tag cf_tag rep : put_tag cf tag cf_tag rep = rep ++ put_tag cf tag cf_tag [].
Proof. unfold put_tag, PutVarint32. case_match; [done|]. by rewrite <- app_assoc. Qed.
Lemma PutSlice_eq rep b : PutLengthPrefixedSlice rep b = rep ++ slice_bytes b.
Proof. apply PutLengthPrefixedSlice_eq. Qed.
Lemma PutSliceParts_eq rep parts : zlen (concat parts) < 2 ^ 32 -> PutLengthPrefixedSliceParts rep parts = rep ++ slice_bytes (concat parts).
Proof.
  intros Hl. rewrite <- PutSlice_eq.
  apply (length_prefixed_roundtrip rep (concat parts) [] parts 0); [|done..]. change (zeros 0) with (@nil byte). apply app_nil_r.
Qed.

Lemma parts_size_eq parts : zlen (concat parts) < 2 ^ 64 -> parts_size parts = zlen (concat parts).
Proof.
  unfold parts_size. intros Hl.
  assert (Hg : forall t, 0 <= t -> t + zlen (concat parts) < 2 ^ 64 ->
    fold_left (fun t p => t +64 zlen p) parts t = t + zlen (concat parts)); [|by apply (Hg 0)].
  clear Hl. induction parts as [|p parts IH]; intros t Ht Hl; cbn [fold_left concat].
  { change (zlen []) with 0. lia. }
  cbn [concat] in Hl. rewrite zlen_app in *. pose proof (zlen_nonneg p). pose proof (zlen_nonneg (concat parts)).
  rewrite u64_small by lia. rewrite IH; lia.
Qed.

Lemma two_slices_eq k v rep : two_slices k v rep = rep ++ slice_bytes k ++ slice_bytes v.
Proof. unfold two_slices. by rewrite !PutSlice_eq, app_assoc. Qed.
Lemma two_parts_eq k v rep : zlen (concat k) < 2 ^ 32 -> zlen (concat v) < 2 ^ 32 ->
  two_parts k v rep = rep ++ slice_bytes (concat k) ++ slice_bytes (concat v).
Proof. intros Hk Hv. unfold two_parts. by rewrite !PutSliceParts_eq, app_assoc. Qed.

(** What a refused or a checked update looks like. *)
Lemma update_checked (check m : BM unit) kind parts cf k v b a :
  refines b a -> kind_checks kind = true ->
  check b = match too_large kind parts k v with Some e => Err e b | None => Ok tt b end ->
  (zlen k < 2 ^ 32 -> zlen v < 2 ^ 32 -> does m b (add_limited (kind_op kind cf k v) a)) ->
  does (check ;; m) b (update kind parts cf k v a).
Proof.
  intros Hr Hk Hc Hm. unfold update. unfold too_large in *. rewrite Hk in *. cbn [negb] in *.
  destruct (Z.leb_spec (2 ^ 32 - (if parts then 1 else 0)) (zlen k)).
  { eapply does_err; [by apply bind_err|done..]. }
  destruct (Z.leb_spec (2 ^ 32 - (if parts then 1 else 0)) (zlen v)).
  { eapply does_err; [by apply bind_err|done..]. }
  eapply does_eq; [by apply bind_ok|]. destruct parts; apply Hm; lia.
Qed.

Lemma check_sizes_eq kind k v b : kind_checks kind = true ->
  check_sizes k v b = match too_large kind false k v with Some e => Err e b | None => Ok tt b end.
Proof.
  intros Hk. unfold check_sizes, too_large. rewrite Hk. cbn [negb]. unfold uint32_max.
  destruct (Z.ltb_spec (2 ^ 32 - 1) (zlen k)), (Z.leb_spec (2 ^ 32 - 0) (zlen k)); try lia; [done|].
  by destruct (Z.ltb_spec (2 ^ 32 - 1) (zlen v)), (Z.leb_spec (2 ^ 32 - 0) (zlen v)); try lia.
Qed.
Lemma CheckSlicePartsLength_eq kind k v b : kind_checks kind = true -> zlen (concat k) < 2 ^ 64 -> zlen (concat v) < 2 ^ 64 ->
  CheckSlicePartsLength k v b = match too_large kind true (concat k) (concat v) with Some e => Err e b | None => Ok tt b end.
Proof.
  intros Hk H1 H2. unfold CheckSlicePartsLength, too_large. rewrite Hk, !parts_size_eq by done. cbn [negb]. unfold uint32_max.
  by repeat case_match.
Qed.

Lemma wbi_plain_spec kind cf k v b a :
  refines b a -> 0 <= cf < 2 ^ 32 -> update_ok kind k v -> does (wbi_plain kind cf k v) b (update kind false cf k v a).
Proof.
  intros Hr Hcf (Hk & Hv & Hu). destruct kind; cbn [wbi_plain]; try (specialize (Hu eq_refl); destruct Hu as (_ & Hk' & Hv')).
  - eapply update_checked; [done..|by apply check_sizes_eq|]. intros Hk' Hv'. apply add_update_spec; [done..|].
    intros rep. by rewrite two_slices_eq, put_tag_app, <- app_assoc.
  - change (update _ _ _ _ _ _) with (add_limited (kind_op KDelete cf k v) a). unfold WBI_Delete. apply add_update_spec; [done..|]. intros rep. by rewrite PutSlice_eq, put_tag_app, <- app_assoc.
  - change (update _ _ _ _ _ _) with (add_limited (kind_op KSingleDelete cf k v) a). unfold WBI_SingleDelete. apply add_update_spec; [done..|]. intros rep. by rewrite PutSlice_eq, put_tag_app, <- app_assoc.
  - change (update _ _ _ _ _ _) with (add_limited (kind_op KDeleteRange cf k v) a). unfold WBI_DeleteRange. apply add_update_spec; [done..|]. intros rep. by rewrite two_slices_eq, put_tag_app, <- app_assoc.
  - eapply update_checked; [done..|by apply check_sizes_eq|]. intros Hk' Hv'. apply add_update_spec; [done..|].
    intros rep. by rewrite two_slices_eq, put_tag_app, <- app_assoc.
Qed.

Lemma wbi_parts_spec kind cf k v b a :
  refines b a -> 0 <= cf < 2 ^ 32 -> update_ok kind (concat k) (concat v) ->
  does (wbi_parts kind cf k v) b (update kind true cf (concat k) (concat v) a).
Proof.
  intros Hr Hcf (Hk & Hv & Hu). destruct kind; cbn [wbi_parts]; try (specialize (Hu eq_refl); destruct Hu as (_ & Hk' & Hv')).
  - eapply update_checked; [done..|by apply CheckSlicePartsLength_eq|]. intros Hk' Hv'. apply add_update_spec; [done..|].
    intros rep. by rewrite two_parts_eq, put_tag_app, <- app_assoc.
  - change (update _ _ _ _ _ _) with (add_limited (kind_op KDelete cf (concat k) (concat v)) a). unfold WBI_DeleteParts. apply add_update_spec; [done..|]. intros rep. by rewrite PutSliceParts_eq, put_tag_app, <- app_assoc.
  - change (update _ _ _ _ _ _) with (add_limited (kind_op KSingleDelete cf (concat k) (concat v)) a). unfold WBI_SingleDeleteParts. apply add_update_spec; [done..|]. intros rep. by rewrite PutSliceParts_eq, put_tag_app, <- app_assoc.
  - change (update _ _ _ _ _ _) with (add_limited (kind_op KDeleteRange cf (concat k) (concat v)) a). unfold WBI_DeleteRangeParts. apply add_update_spec; [done..|]. intros rep. by rewrite two_parts_eq, put_tag_app, <- app_assoc.
  - eapply update_checked; [done..|by apply CheckSlicePartsLength_eq|]. intros Hk' Hv'. apply add_update_spec; [done..|].
    intros rep. by rewrite two_parts_eq, put_tag_app, <- app_assoc.
Qed.

(** ** Column families and timestamps *)

Definition value_parts (kind : UpdateKind) (v ts : bytes) : list bytes := match kind with KDeleteRange => [v; ts] | _ => [v] end.

Lemma run_update_eq kind cf k v :
  run_call (CallUpdate kind cf k v)
  = with_dummy_ts (fun cf => wbi_plain kind cf k v) (fun cf ts => wbi_parts kind cf [k; ts] (value_parts kind v ts)) cf.
Proof. by destruct kind. Qed.
Lemma run_update_ts_eq kind cf k ts v :
  run_call (CallUpdateTs kind cf k ts v) = with_given_ts (fun cf ts => wbi_parts kind cf [k; ts] (value_parts kind v ts)) cf ts.
Proof. by destruct kind. Qed.
Lemma run_update_parts_eq kind cf k v :
  run_call (CallUpdateParts kind cf k v) = without_ts (fun cf => wbi_parts kind cf k v) cf.
Proof. by destruct kind. Qed.

Lemma concat_value_parts kind v ts : concat (value_parts kind v ts) = kind_value kind v ts.
Proof. destruct kind; cbn; by rewrite ?app_nil_r. Qed.
Lemma concat_two (k ts : bytes) : concat [k; ts] = k ++ ts.
Proof. cbn. by rewrite app_nil_r. Qed.

Lemma family_spec cf b a : refines b a ->
  GetColumnFamilyIdAndTimestampSize cf b = match family a cf with inl e => Err e b | inr r => Ok r b end.
Proof.
  intros Hr. unfold GetColumnFamilyIdAndTimestampSize, family, bind, get. rewrite (ref_ts _ _ Hr).
  destruct cf as [[id [sz|]]|]; cbn [GetColumnFamilyID cfh_id cfh_timestamp_size]; [|done|].
  - destruct (Z.eqb_spec id 0), (Z.eqb_spec (a_ts a) sz); cbn [andb negb];
      (rewrite bool_decide_eq_true_2 by naive_solver) || (rewrite bool_decide_eq_false_2 by naive_solver); done.
  - destruct (Z.ltb_spec 0 (a_ts a)); unfold ret; f_equal; f_equal; lia.
Qed.

Lemma family_err a cf e : family a cf = inl e -> ok e = false.
Proof. unfold family. by repeat case_match; intros; simplify_eq. Qed.
Lemma family_range a cf id ts : handle_ok cf -> family a cf = inr (id, ts) -> 0 <= id < 2 ^ 32 /\ 0 <= ts.
Proof. unfold family, handle_ok. repeat case_match; intros; destruct_and?; simplify_eq; split; lia. Qed.

Lemma refines_ts_flags x y b a : refines b a -> refines (set_ts_flags x y b) a.
Proof. intros [H1 H2 H3 H4 H5 H6 H7]. by split. Qed.

Lemma update_spec kind cf k v b a :
  refines b a -> call_ok a (CallUpdate kind cf k v) -> does (run_call (CallUpdate kind cf k v)) b (spec_call (CallUpdate kind cf k v) a).
Proof.
  intros Hr [Hh Hok]. rewrite run_update_eq. cbn [spec_call]. unfold with_dummy_ts. pose proof (family_spec cf b a Hr) as Hf.
  destruct (family a cf) as [e|[id ts]] eqn:Ef.
  { eapply does_err; [by apply bind_err|by eapply family_err|done]. }
  destruct (family_range _ _ _ _ Hh Ef) as [Hid Hts]. specialize (Hok id ts eq_refl).
  eapply does_eq; [by apply bind_ok|]. cbv beta iota. destruct (Z.eqb_spec ts 0) as [->|Hn]; cbn [negb].
  - change (zeros 0) with (@nil byte) in *. replace (kind_value kind v []) with v in * by (destruct kind; cbn; by rewrite ?app_nil_r).
    rewrite app_nil_r in *. by apply wbi_plain_spec.
  - rewrite <- concat_two, <- concat_value_parts in *.
    eapply does_eq; [by apply bind_ok|]. apply wbi_parts_spec; [by apply refines_ts_flags|done|done].
Qed.

Lemma update_ts_spec kind cf k ts v b a :
  refines b a -> call_ok a (CallUpdateTs kind cf k ts v) ->
  does (run_call (CallUpdateTs kind cf k ts v)) b (spec_call (CallUpdateTs kind cf k ts v) a).
Proof.
  intros Hr (Hh & Hc & Hok). rewrite run_update_ts_eq. cbn [spec_call]. unfold with_given_ts, CheckColumnFamilyTimestampSize, family_with_ts.
  destruct cf as [[id sz]|]; [|by eapply does_err].
  destruct sz as [sz|]; [|by specialize (Hc _ eq_refl)]. cbn [cfh_id cfh_timestamp_size deref].
  eapply does_eq; [rewrite bind_assoc; apply bind_ret_l|].
  destruct (Z.eqb_spec sz 0) as [->|H0].
  { rewrite bool_decide_eq_true_2 by done. by eapply does_err. }
  rewrite bool_decide_eq_false_2 by congruence. destruct (Z.eqb_spec sz (zlen ts)) as [->|H1]; cbn [negb].
  - rewrite bool_decide_eq_true_2 by done. rewrite <- concat_two, <- concat_value_parts in *.
    eapply does_eq; [etransitivity; [apply bind_ret_l|]; by apply bind_ok|].
    apply wbi_parts_spec; [by apply refines_ts_flags|apply Hh|done].
  - rewrite bool_decide_eq_false_2 by congruence. by eapply does_err.
Qed.

(** Calls that refuse families with timestamps. *)
Lemma without_ts_spec m cf b a (r : Z -> Status * Batch) :
  refines b a -> handle_ok cf -> (forall id, 0 <= id < 2 ^ 32 -> does (m id) b (r id)) ->
  does (without_ts m cf) b match family a cf with
    | inl e => (e, a)
    | inr (id, ts_sz) => if ts_sz =? 0 then r id else (no_timestamps, a)
    end.
Proof.
  intros Hr Hh Hm. unfold without_ts. pose proof (family_spec cf b a Hr) as Hf. destruct (family a cf) as [e|[id ts]] eqn:Ef.
  { eapply does_err; [by apply bind_err|by eapply family_err|done]. }
  destruct (family_range _ _ _ _ Hh Ef) as [Hid Hts]. eapply does_eq; [by apply bind_ok|].  cbv beta iota.
  destruct (ts =? 0); [by apply Hm|]. by eapply does_err.
Qed.

(** ** Markers, log data and entities *)

Lemma next_uncounted b a o : refines b a -> op_counts o = false ->
  next b a o = set_content_flags (Z.lor (content_flags_ b) (op_flags o)) (set_rep (rep_ b ++ encode_op o) b).
Proof.
  intros Hr Hc. unfold next. rewrite (ref_rep _ _ Hr), batch_bytes_app, updates_app, encode_ops_one.
  assert (H0 : updates [o] = 0) by (unfold updates; cbn [List.filter]; by rewrite Hc).
  rewrite H0, Z.add_0_r. unfold batch_bytes. by rewrite <- !app_assoc.
Qed.

Lemma marker_spec m b a o : refines b a -> op_fits o -> op_counts o = false ->
  m b = Ok tt (set_content_flags (Z.lor (content_flags_ b) (op_flags o)) (set_rep (rep_ b ++ encode_op o) b)) ->
  does m b (add o a).
Proof. intros Hr Ho Hc Hm. eapply does_ok; [exact Hm|]. rewrite <- (next_uncounted _ a) by done. by apply next_one. Qed.

(** A tag and a string, with a flag. *)
Lemma tagged_eq rep t x : PutLengthPrefixedSlice (rep ++ [byte.of_Z t]) x = rep ++ byte.of_Z t :: slice_bytes x.
Proof. by rewrite PutSlice_eq, <- app_assoc. Qed.

Lemma fits_string b : zlen b < 2 ^ 32 -> fits 0 b [].
Proof. intros Hb. split; [done|]. split; [done|]. done. Qed.

Lemma PutLogData_spec blob b a : refines b a -> zlen blob < 2 ^ 32 -> does (PutLogData blob) b (add_limited (BLogData blob) a).
Proof.
  intros Hr Hb. unfold PutLogData. apply limited_spec; [done|by apply fits_string|].
  rewrite next_uncounted by done. unfold on_rep, modify. rewrite tagged_eq. cbn [op_flags]. by rewrite Z.lor_0_r.
Qed.
Lemma InsertNoop_spec b a : refines b a -> does WBI_InsertNoop b (add BNoop a).
Proof. intros Hr. apply marker_spec; try done. cbn [op_flags]. by rewrite Z.lor_0_r. Qed.
Lemma MarkCommit_spec xid b a : refines b a -> zlen xid < 2 ^ 32 -> does (WBI_MarkCommit xid) b (add (BCommit xid) a).
Proof.
  intros Hr Hb. apply marker_spec; [done|by apply fits_string|done|]. unfold WBI_MarkCommit, on_rep, add_flags, bind, modify. by rewrite tagged_eq.
Qed.
Lemma MarkRollback_spec xid b a : refines b a -> zlen xid < 2 ^ 32 -> does (WBI_MarkRollback xid) b (add (BRollback xid) a).
Proof.
  intros Hr Hb. apply marker_spec; [done|by apply fits_string|done|]. unfold WBI_MarkRollback, on_rep, add_flags, bind, modify. by rewrite tagged_eq.
Qed.
Lemma MarkCommitWithTimestamp_spec xid ts b a : refines b a -> zlen xid < 2 ^ 32 -> zlen ts < 2 ^ 32 ->
  does (WBI_MarkCommitWithTimestamp xid ts) b (add (BCommitWithTimestamp xid ts) a).
Proof.
  intros Hr Hb Hts. apply marker_spec; [done|by split|done|].
  unfold WBI_MarkCommitWithTimestamp, on_rep, add_flags, bind, modify. by rewrite two_slices_eq, <- app_assoc.
Qed.

Lemma PutBlobIndex_spec cf k v b a : refines b a -> fits cf k v -> does (WBI_PutBlobIndex cf k v) b (add_limited (BBlobIndex cf k v) a).
Proof.
  intros Hr Hf. unfold WBI_PutBlobIndex. apply add_update_spec; [done..|]. intros rep. by rewrite two_slices_eq, put_tag_app, <- app_assoc.
Qed.

Lemma Serialize_err columns out e : Serialize columns out = inl e -> ok e = false.
Proof.
  unfold Serialize, SerializeImpl. destruct (_ <? _); [by intros [= <-]|].
  pose proof (serialize_index_spec columns None (PutVarint32 (PutVarint32 out kCurrentVersion) (u32 (zlen columns)))) as Hi.
  destruct (serialize_index _ _ _); intros He; [|done]. injection He as <-. apply Hi.
Qed.

Lemma PutEntity_spec cf k columns b a : refines b a -> handle_ok cf ->
  does (WB_PutEntity cf k columns) b (spec_call (CallPutEntity cf k columns) a).
Proof.
  intros Hr Hh. unfold WB_PutEntity. cbn [spec_call]. destruct cf as [h|]; [|by eapply does_err].
  apply (without_ts_spec (fun cf => WBI_PutEntity cf k columns) (Some h) b a (fun id => put_entity id k columns a)); [done..|].
  intros id Hid. unfold WBI_PutEntity, put_entity, uint32_max.
  destruct (Z.ltb_spec (2 ^ 32 - 1) (zlen k)), (Z.leb_spec (2 ^ 32) (zlen k)); try lia; [by eapply does_err|].
  destruct (Serialize _ _) as [e|entity] eqn:Es; [eapply does_err; [done|by eapply Serialize_err|done]|].
  destruct (Z.ltb_spec (2 ^ 32 - 1) (zlen entity)), (Z.leb_spec (2 ^ 32) (zlen entity)); try lia; [by eapply does_err|].
  apply add_update_spec; [done|by split|done..|]. intros rep. by rewrite two_slices_eq, put_tag_app, <- app_assoc.
Qed.

(** ** Save points and whole batches *)

Lemma encode_ops_inj_length ops p : p `prefix_of` ops -> zlen (encode_ops p) = zlen (encode_ops ops) -> p = ops.
Proof.
  intros [k ->]. rewrite encode_ops_app, zlen_app. intros Hl. destruct k as [|o k]; [by rewrite app_nil_r|].
  change (o :: k) with ([o] ++ k) in Hl. rewrite encode_ops_app, zlen_app, encode_ops_one in Hl.
  destruct (encode_op_cons o) as (t & r & Et). rewrite Et in Hl. pose proof (zlen_nonneg r). pose proof (zlen_nonneg (encode_ops k)).
  change (t :: r) with ([t] ++ r) in Hl. rewrite zlen_app in Hl. change (zlen [t]) with 1 in Hl. lia.
Qed.

Lemma SetSavePoint_spec b a : refines b a -> does SetSavePoint b (OK, set_saves (a_ops a :: a_saves a) a).
Proof.
  intros Hr. eapply does_ok; [unfold SetSavePoint; rewrite (bind_ok _ _ _ _ _ (LocalSavePoint_spec _ _ Hr)); reflexivity|].
  destruct Hr as [H1 H2 H3 H4 H5 H6 H7]. split; fields; try done. cbn [map]. by rewrite H4.
Qed.

Lemma PopSavePoint_spec b a : refines b a -> does PopSavePoint b (spec_call CallPopSavePoint a).
Proof.
  intros Hr. unfold PopSavePoint. cbn [spec_call]. pose proof (ref_saves _ _ Hr) as Hs. destruct (a_saves a) as [|p ps] eqn:Ea.
  { eapply does_err; [|done|done]. unfold bind, get. by rewrite Hs. }
  eapply does_ok; [unfold bind, get; rewrite Hs; reflexivity|].
  destruct Hr as [H1 H2 H3 H4 H5 H6 H7]. split; fields; try done. rewrite Ea in H5. destruct H5 as [Hp Hn]. by eapply nested_mono.
Qed.

Lemma RollbackToSavePoint_spec b a : refines b a -> does RollbackToSavePoint b (spec_call CallRollbackToSavePoint a).
Proof.
  intros Hr. unfold RollbackToSavePoint. cbn [spec_call]. pose proof (ref_saves _ _ Hr) as Hs. pose proof (ref_nested _ _ Hr) as Hn.
  destruct (a_saves a) as [|p ps] eqn:Ea.
  { eapply does_err; [|done|done]. unfold bind, get. by rewrite Hs. }
  destruct Hn as [Hp Hn]. destruct Hr as [H1 H2 H3 H4 H5 H6 H7]. pose proof (zlen_nonneg (encode_ops p)).
  assert (Hfits : Forall op_fits p) by (destruct Hp as [k Hk]; rewrite Hk in H2; by apply Forall_app in H2 as [? _]).
  destruct (decide (batch_size p = batch_size (a_ops a))) as [He|He].
  - assert (p = a_ops a) as -> by (apply encode_ops_inj_length; [done|unfold batch_size in He; lia]).
    eapply does_ok.
    + unfold bind, get, modify. rewrite Hs, H1, batch_size_eq. cbn [map point_of sp_size]. rewrite Z.eqb_refl. reflexivity.
    + by split; fields.
  - apply (does_ok _ _ (set_content_flags (ops_flags p) (set_rep (batch_bytes (a_seq a) p) (set_save_points (map point_of ps) b)))).
    + unfold bind, get, modify. rewrite Hs, H1, batch_size_eq. cbn [map point_of sp_size].
      rewrite (proj2 (Z.eqb_neq _ _) He), (proj2 (Z.eqb_neq (batch_size p) 0)) by (unfold batch_size, kHeader; lia).
      f_equal. destruct Hp as [k Hk]. apply (rollback_rep _ (a_seq a) (updates (a_ops a)) p (encode_ops k)). fields.
      rewrite H1, Hk at 1. by rewrite batch_bytes_app, <- Hk.
    + by split; fields.
Qed.

(** The operations of a prepared section. *)
Lemma prepared_bytes seq ops wac unp xid :
  batch_bytes seq (begin_op wac unp :: ops ++ [BEndPrepare xid])
  = (le_split 8 seq ++ le_split 4 (updates ops) ++
     byte.of_Z (if wac then kTypeBeginPrepareXID else if unp then kTypeBeginUnprepareXID else kTypeBeginPersistedPrepareXID)
     :: encode_ops ops) ++ byte.of_Z kTypeEndPrepareXID :: slice_bytes xid.
Proof.
  change (begin_op wac unp :: ops ++ [BEndPrepare xid]) with ([begin_op wac unp] ++ ops ++ [BEndPrepare xid]). unfold batch_bytes.
  rewrite !updates_app, !encode_ops_app, !encode_ops_one. replace (updates [begin_op wac unp]) with 0 by (by destruct wac, unp).
  change (updates [BEndPrepare xid]) with 0. rewrite Z.add_0_l, Z.add_0_r, <- !app_assoc. by destruct wac, unp.
Qed.
Lemma prepared_flags ops wac unp xid : wac && unp = false ->
  Z.lor (Z.lor (ops_flags (BNoop :: ops)) (Z.lor HAS_END_PREPARE HAS_BEGIN_PREPARE)) (if unp then HAS_BEGIN_UNPREPARE else 0)
  = ops_flags (begin_op wac unp :: ops ++ [BEndPrepare xid]).
Proof.
  intros Hwu. change (BNoop :: ops) with ([BNoop] ++ ops).
  change (begin_op wac unp :: ops ++ [BEndPrepare xid]) with ([begin_op wac unp] ++ ops ++ [BEndPrepare xid]).
  rewrite !ops_flags_app. change (ops_flags [BNoop]) with 0. generalize (ops_flags ops). intros f.
  change (ops_flags [BEndPrepare xid]) with HAS_END_PREPARE.
  apply Z.bits_inj. intros n. destruct wac, unp; try done; unfold begin_op, ops_flags; cbn [map fold_right op_flags];
    rewrite !Z.lor_spec, ?Z.testbit_0_l; repeat match goal with |- context [Z.testbit ?x n] => destruct (Z.testbit x n) end; done.
Qed.

Lemma MarkEndPrepare_spec xid wac unp b a : refines b a -> call_ok a (CallMarkEndPrepare xid wac unp) ->
  does (WBI_MarkEndPrepare xid wac unp) b (spec_call (CallMarkEndPrepare xid wac unp) a).
Proof.
  intros [H1 H2 H3 H4 H5 H6 H7] (Hx & Hwu & Hh). cbn [spec_call]. destruct (a_ops a) as [|o ops] eqn:Ea; [done|]. injection Hh as ->.
  cbn [tail]. unfold WBI_MarkEndPrepare.
  assert (Hsize : zlen (rep_ b) = 13 + zlen (encode_ops ops)).
  { rewrite H1, batch_size_eq. unfold batch_size. change (BNoop :: ops) with ([BNoop] ++ ops).
    rewrite encode_ops_app, zlen_app, encode_ops_one. unfold kHeader. cbn [encode_op]. change (zlen [_]) with 1. lia. }
  pose proof (zlen_nonneg (encode_ops ops)). inversion_clear H2 as [|? ? _ Hops].
  assert (Hsp : forall t, splice 12 [t] (rep_ b) = le_split 8 (a_seq a) ++ le_split 4 (updates ops) ++ t :: encode_ops ops).
  { intros t. rewrite H1. unfold batch_bytes. change (BNoop :: ops) with ([BNoop] ++ ops). rewrite encode_ops_app, encode_ops_one.
    unfold splice. rewrite (app_assoc (le_split 8 (a_seq a))). rewrite ztake_app' by done.
    change (updates ([BNoop] ++ ops)) with (updates ops). cbn [encode_op].
    rewrite (app_assoc (le_split 8 _ ++ le_split 4 _) [byte.of_Z kTypeNoop] (encode_ops ops)).
    rewrite (zdrop_app' _ ((le_split 8 (a_seq a) ++ le_split 4 (updates ops)) ++ [byte.of_Z kTypeNoop])) by done.
    by rewrite <- !app_assoc. }
  apply (does_ok _ _ (set_content_flags (Z.lor (Z.lor (content_flags_ b) (Z.lor HAS_END_PREPARE HAS_BEGIN_PREPARE)) (if unp then HAS_BEGIN_UNPREPARE else 0))
    (set_rep (batch_bytes (a_seq a) (begin_op wac unp :: ops ++ [BEndPrepare xid])) (set_save_points [] b)))).
  - unfold on_rep, add_flags, GetDataSize, bind, gets, modify. fields. rewrite Hsize, (proj2 (Z.leb_gt _ _)) by lia.
    rewrite Hsp, tagged_eq, prepared_bytes. destruct unp; cbn [when]; [reflexivity|]. rewrite Z.lor_0_r. reflexivity.
  - split; fields; try done.
    + constructor; [unfold begin_op; by repeat case_match|]. apply Forall_app_2; [done|]. constructor; [by apply fits_string|done].
    + rewrite H3. by apply prepared_flags.
Qed.

Lemma le_split_sum n m : le_split 4 (u32 n +32 u32 m) = le_split 4 (n + m).
Proof.
  rewrite le_split_add32, (le_split_mod (n + u32 m) 4), (le_split_mod (n + m) 4). change (2 ^ (Z.of_nat 4 * 8)) with (2 ^ 32).
  change (u32 m) with (m mod 2 ^ 32). by rewrite Zplus_mod_idemp_r.
Qed.

Lemma WBI_Append_spec src wal_only ops b a : refines b a -> appends src wal_only ops ->
  does (WBI_Append src wal_only) b (OK, set_ops (a_ops a ++ ops) a).
Proof.
  intros Hr (seq & rest & Hsrc & Hfits & Hlen & Hw). unfold WBI_Append.
  pose proof (zlen_nonneg (encode_ops ops)). pose proof (zlen_nonneg (encode_ops rest)).
  assert (Hl : zlen (rep_ src) = kHeader + (zlen (encode_ops ops) + zlen (encode_ops rest))).
  { by rewrite Hsrc, batch_size_eq; unfold batch_size; rewrite encode_ops_app, zlen_app. }
  match goal with |- does (let '(_, _) := ?t in _) _ _ => assert (Ht : t = (zlen (encode_ops ops), u32 (updates ops), ops_flags ops)) end.
  { destruct (wal_only && _).
    - rewrite Hw. cbn [point_of sp_size sp_count sp_content_flags]. unfold batch_size. f_equal. f_equal. rewrite u64_small; unfold kHeader in *; lia.
    - destruct Hw as [-> Hf]. change (encode_ops []) with (@nil byte) in Hl. change (zlen []) with 0 in Hl.
      rewrite Hf, (Count_bytes _ _ _ Hsrc), app_nil_r. f_equal. f_equal. rewrite Hl, u64_small; unfold kHeader in *; lia. }
  rewrite Ht. clear Ht Hw. rewrite Hl, (proj2 (Z.leb_le _ _)) by lia.
  assert (Hd : ztake (zlen (encode_ops ops)) (zdrop kHeader (rep_ src)) = encode_ops ops).
  { rewrite Hsrc, zdrop_batch_bytes, encode_ops_app. by apply ztake_app'. }
  eapply does_ok; [|by apply (next_refines b a ops)].
  unfold on_rep, add_flags, bind, modify. f_equal. rewrite (Count_bytes _ _ _ (ref_rep _ _ Hr)), (SetCount_rep _ _ _ _ _ (ref_rep _ _ Hr)).
  fields. rewrite Hd, le_split_sum, batch_bytes_app, updates_app, <- !app_assoc. done.
Qed.

(** ** Sequences of calls *)

Lemma call_spec c b a : refines b a -> call_ok a c -> does (run_call c) b (spec_call c a).
Proof.
  intros Hr Hc. destruct c.
  - by apply update_spec.
  - by apply update_ts_spec.
  - destruct Hc as [Hh Hu]. rewrite run_update_parts_eq.
    by apply (without_ts_spec (fun cf => wbi_parts kind cf key value) _ b a (fun id => update kind true id (concat key) (concat value) a));
      [..|intros; apply wbi_parts_spec].
  - by apply PutEntity_spec.
  - by apply PutBlobIndex_spec.
  - by apply PutLogData_spec.
  - by apply InsertNoop_spec.
  - by apply MarkEndPrepare_spec.
  - by apply MarkCommit_spec.
  - destruct Hc. by apply MarkCommitWithTimestamp_spec.
  - by apply MarkRollback_spec.
  - by apply SetSavePoint_spec.
  - by apply RollbackToSavePoint_spec.
  - by apply PopSavePoint_spec.
  - eapply does_ok; [reflexivity|]. destruct Hr as [H1 H2 H3 H4 H5 H6 H7]. by split.
  - eapply does_ok; [reflexivity|]. destruct Hr as [H1 H2 H3 H4 H5 H6 H7]. split; try done. unfold SetSequence. fields. rewrite H1.
    apply splice_sequence.
  - by apply WBI_Append_spec.
Qed.

(** The answers of a sequence of calls, and the batch they leave. *)
Fixpoint run_calls (cs : list BatchCall) : BM (list Status) :=
  match cs with
  | [] => ret []
  | c :: cs => r <- attempt (run_call c) ;; rs <- run_calls cs ;; ret (status_of r :: rs)
  end.
Fixpoint spec_calls (cs : list BatchCall) (a : Batch) : list Status * Batch :=
  match cs with
  | [] => ([], a)
  | c :: cs => let '(s, a) := spec_call c a in let '(rs, a) := spec_calls cs a in (s :: rs, a)
  end.
Fixpoint calls_ok (a : Batch) (cs : list BatchCall) : Prop :=
  match cs with
  | [] => True
  | c :: cs => call_ok a c /\ calls_ok (spec_call c a).2 cs
  end.

Lemma run_calls_spec cs : forall b a, refines b a -> calls_ok a cs ->
  exists b', run_calls cs b = Ok (spec_calls cs a).1 b' /\ refines b' (spec_calls cs a).2.
Proof.
  induction cs as [|c cs IH]; intros b a Hr Hc; cbn [run_calls spec_calls]; [by exists b|].
  destruct Hc as [Hc Hcs]. destruct (call_spec c b a Hr Hc) as (b1 & Hr1 & Hd).
  destruct (spec_call c a) as [s a1] eqn:Es. cbn [fst snd] in *.
  destruct (IH b1 a1 Hr1 Hcs) as (b2 & Hb2 & Hr2). destruct (spec_calls cs a1) as [rs a2]. cbn [fst snd] in *. exists b2. split; [|done].
  destruct Hd as [[Hm ->]|[Hm He]].
  - rewrite (bind_ok _ _ _ _ _ (attempt_ok _ _ _ _ Hm)), (bind_ok _ _ _ _ _ Hb2). done.
  - rewrite (bind_ok _ _ _ _ _ (attempt_err _ _ _ _ Hm)), (bind_ok _ _ _ _ _ Hb2). done.
Qed.

Definition new_batch (max_bytes default_cf_ts_sz : Z) : Batch := mkBatch 0 [] [] max_bytes default_cf_ts_sz.

Lemma new_refines max_bytes ts : refines (WriteBatch_new max_bytes ts) (new_batch max_bytes ts).
Proof. by split. Qed.

(** C5: a write batch is what its interface promises. Any sequence of calls on a new batch
    (updates with and without timestamps and in parts, entities, log data, the markers of
    two-phase commit, save points, rollbacks, appending another batch) answers each call as
    the abstract batch does, a list of operations with a stack of earlier lists: an update
    that exceeds the limit of the size, or is refused for another reason, leaves no trace,
    and a rollback restores the operations of the save point. The batch left behind has the
    count and the content flags of its operations, and iterating over its serialized form,
    or over a batch made of a copy of it, calls any handler for exactly these operations in
    order, with its answers and its state. *)
Theorem write_batch_correct {H} `{Handler H} max_bytes default_cf_ts_sz calls (h : H) :
  calls_ok (new_batch max_bytes default_cf_ts_sz) calls ->
  let '(answers, a) := spec_calls calls (new_batch max_bytes default_cf_ts_sz) in
  exists b, run_calls calls (WriteBatch_new max_bytes default_cf_ts_sz) = Ok answers b /\
    rep_ b = batch_bytes (a_seq a) (a_ops a) /\
    Count b = u32 (updates (a_ops a)) /\ ComputeContentFlags b = Ok (ops_flags (a_ops a)) b /\
    Iterate b h = (replay (a_ops a) true 0 ;; ret tt) h /\
    Iterate (WriteBatch_of_rep (rep_ b)) h = Iterate b h.
Proof.
  intros Hc. destruct (run_calls_spec calls _ _ (new_refines max_bytes default_cf_ts_sz) Hc) as (b & Hb & Hr).
  destruct (spec_calls calls _) as [answers a]. cbn [fst snd] in *. destruct Hr as [H1 H2 H3 H4 H5 H6 H7]. exists b.
  split; [done|]. split; [done|]. split; [by eapply Count_bytes|]. split; [|split].
  - unfold ComputeContentFlags, bind, get. rewrite H3.
    assert (Hd : Z.land (ops_flags (a_ops a)) DEFERRED = 0); [|by rewrite Hd].
    clear. induction (a_ops a) as [|o ops IH]; [done|]. unfold ops_flags in *. cbn [map fold_right]. rewrite Z.land_lor_distr_l, IH.
    by destruct o.
  - by eapply Iterate_replay.
  - rewrite !(Iterate_replay _ (a_seq a) (a_ops a)); done.
Qed.

(** A limit of 44 bytes; a deletion is rolled back, a value is too long for the limit. *)
Definition demo_calls : list BatchCall :=
  [CallInsertNoop;
   CallUpdate KPut None [Byte.x01] [Byte.x61; Byte.x62];
   CallSetSavePoint;
   CallUpdate KDelete None [Byte.x01] [];
   CallRollbackToSavePoint;
   CallUpdateTs KMerge (Some (mkCFH 3 (Some 2))) [Byte.x02] (zeros 2) [Byte.x63];
   CallUpdate KPut None [Byte.x04] (zeros 20);
   CallMarkEndPrepare [Byte.x78] true false].
Definition demo_ops : list BatchOp :=
  [BBeginPrepare; BPut 0 [Byte.x01] [Byte.x61; Byte.x62]; BMerge 3 ([Byte.x02] ++ zeros 2) [Byte.x63]; BEndPrepare [Byte.x78]].

Lemma write_batch_correct_witness :
  calls_ok (new_batch 44 0) demo_calls /\
  exists b, run_calls demo_calls (WriteBatch_new 44 0) = Ok [OK; OK; OK; OK; OK; OK; MemoryLimit; OK] b /\
    rep_ b = batch_bytes 0 demo_ops /\ Iterate b [] = Ok tt demo_ops.
Proof.
  assert (Hc : calls_ok (new_batch 44 0) demo_calls).
  { repeat split; cbn; try done; try lia; intros; simplify_eq; repeat split; cbn; try done; try lia.
    all: match goal with H : family _ _ = _ |- _ => vm_compute in H; injection H as <- <- end; done. }
  split; [exact Hc|].
  destruct (write_batch_correct (H := list BatchOp) 44 0 demo_calls [] Hc) as (b & H1 & H2 & _ & _ & H3 & _).
  exists b. split; [exact H1|]. split; [exact H2|]. rewrite H3. vm_compute. reflexivity.
Defined.
