(* ===== verification/MemTableInserter.v ===== *)
(** * Applying write batches

    The handler that applies a batch to the memtables (MemTableInserter, InsertInto in
    rocksdb-raw/db/write_batch.cc), the prepared transactions it rebuilds during recovery
    (db_impl.h, logs_with_prep_tracker.cc), and the write path of a group of writers
    (MergeBatch, WriteToWAL and the leader of WriteImpl in db_impl_write.cc).
    The write policy is the default one, WriteCommitted: one sequence number for each key,
    written to the memtables after the commit. *)

From S2P Require Import Prelude Status Coding WideColumns WriteBatch LogFormat.

(** ** Memtables *)

(** What the inserter uses of [ColumnFamilyMemTables] and of the memtable of a family, with
    all memtables as the state: [Seek] and the log number of the family found, its
    comparator and options, [MemTable::Add], [CheckMemtableFull] and
    [RefLogContainingPrepSection]. The memtables do not update in place. *)
Class MemTables (T : Type) := {
  mt_Seek : Z -> T -> bool;
  mt_GetLogNumber : Z -> T -> Z;
  mt_timestamp_size : Z -> T -> Z;
  mt_merge_operator : Z -> T -> bool;
  mt_is_delete_range_supported : Z -> T -> bool;
  mt_table_name : Z -> T -> string;
  mt_CompareWithoutTimestamp : Z -> T -> bytes -> bytes -> Z;
  mt_Add : Z -> Z -> Z -> bytes -> bytes -> T -> Status * T;
  mt_CheckMemtableFull : Z -> T -> T;
  mt_RefLogContainingPrepSection : Z -> Z -> T -> T
}.

(** ** Recovered transactions *)

(** The batch of a transaction may be null. *)
Record BatchInfo := mkBatchInfo { bi_log_number : Z; bi_batch : option WriteBatch; bi_batch_cnt : Z }.
(** [batches_] is in the order of the sequence numbers. *)
Record RecoveredTransaction := mkRecoveredTransaction { unprepared_ : bool; batches_ : list (Z * BatchInfo) }.

Section find.
Context {K A : Type} `{EqDecision K}.
Fixpoint assoc_find (k : K) (l : list (K * A)) : option A :=
  match l with
  | [] => None
  | (k', a) :: l => if decide (k = k') then Some a else assoc_find k l
  end.
Definition assoc_erase (k : K) (l : list (K * A)) : list (K * A) := List.filter (fun e => negb (bool_decide (k = e.1))) l.
(** [m[k] = a] *)
Definition assoc_set (k : K) (a : A) (l : list (K * A)) : list (K * A) := assoc_erase k l ++ [(k, a)].
End find.

(** [m[k] = a] of a [std::map] *)
Fixpoint map_set {A} (k : Z) (a : A) (l : list (Z * A)) : list (Z * A) :=
  match l with
  | [] => [(k, a)]
  | (k', a') :: l => if k <? k' then (k, a) :: (k', a') :: l else if k =? k' then (k, a) :: l else (k', a') :: map_set k a l
  end.

(** The parts of the database that the inserter changes. *)
Record Db (T : Type) := mkDb {
  db_mem : T;
  recovered_transactions_ : list (bytes * RecoveredTransaction);
  logs_with_prep_ : list (Z * Z);
  prepared_section_completed_ : list (Z * Z)
}.
Arguments mkDb {T} _ _ _ _.
Arguments db_mem {T} _.
Arguments recovered_transactions_ {T} _.
Arguments logs_with_prep_ {T} _.
Arguments prepared_section_completed_ {T} _.

(** [LogsWithPrepTracker] *)
Definition MarkLogAsHavingPrepSectionFlushed (log : Z) (completed : list (Z * Z)) : list (Z * Z) :=
  match assoc_find log completed with
  | None => assoc_set log 1 completed
  | Some n => assoc_set log (n +64 1) completed
  end.
(** The search from the end, over the reversed vector; the counts are [uint64_t]. *)
Fixpoint mark_prep (log : Z) (rev_logs : list (Z * Z)) : list (Z * Z) :=
  match rev_logs with
  | (l, cnt) :: rest =>
      if l <? log then (log, 1) :: rev_logs else if l =? log then (l, cnt +64 1) :: rest else (l, cnt) :: mark_prep log rest
  | [] => [(log, 1)]
  end.
Definition MarkLogAsContainingPrepSection (log : Z) (logs : list (Z * Z)) : list (Z * Z) := rev (mark_prep log (rev logs)).
Fixpoint FindMinLogContainingOutstandingPrep (logs completed : list (Z * Z)) : Z * list (Z * Z) * list (Z * Z) :=
  match logs with
  | [] => (0, [], completed)
  | (min_log, cnt) :: rest =>
      match assoc_find min_log completed with
      | None => (min_log, logs, completed)
      | Some n => if n <? cnt then (min_log, logs, completed) else FindMinLogContainingOutstandingPrep rest (assoc_erase min_log completed)
      end
  end.

Section db.
Context {T : Type}.
Implicit Types d : Db T.

Definition set_mem (t : T) d := mkDb t (recovered_transactions_ d) (logs_with_prep_ d) (prepared_section_completed_ d).

Definition GetRecoveredTransaction (name : bytes) d : option RecoveredTransaction := assoc_find name (recovered_transactions_ d).

Definition InsertRecoveredTransaction (log : Z) (name : bytes) (batch : option WriteBatch) (seq batch_cnt : Z) (unprepared_batch : bool) d : Db T :=
  let info := mkBatchInfo log batch batch_cnt in
  let trx :=
    match GetRecoveredTransaction name d with
    | None => mkRecoveredTransaction unprepared_batch [(seq, info)]
    | Some trx => mkRecoveredTransaction unprepared_batch (map_set seq info (batches_ trx))
    end in
  mkDb (db_mem d) (assoc_set name trx (recovered_transactions_ d)) (MarkLogAsContainingPrepSection log (logs_with_prep_ d))
    (prepared_section_completed_ d).

Definition DeleteRecoveredTransaction (name : bytes) d : Db T :=
  match GetRecoveredTransaction name d with
  | None => d
  | Some trx =>
      mkDb (db_mem d) (assoc_erase name (recovered_transactions_ d)) (logs_with_prep_ d)
        (fold_left (fun c info => MarkLogAsHavingPrepSectionFlushed (bi_log_number info.2) c) (batches_ trx) (prepared_section_completed_ d))
  end.

End db.

(** ** The inserter *)

(** What it is constructed with. *)
Record InserterOptions := mkInserterOptions {
  ignore_missing_column_families_ : bool;
  recovering_log_number_ : Z;
  allow_2pc : bool
}.

(** The write policy. *)
Definition seq_per_batch_ : bool := false.
Definition batch_per_txn_ : bool := true.
Definition write_after_commit_ : bool := negb seq_per_batch_.
Definition write_before_prepare_ : bool := negb batch_per_txn_.

Record Inserter (T : Type) := mkInserter {
  ins_sequence : Z;
  ins_db : Db T;
  has_valid_writes_ : bool;
  log_number_ref_ : Z;
  rebuilding_trx_ : option WriteBatch;
  rebuilding_trx_seq_ : Z;
  unprepared_batch_ : bool
}.
Arguments mkInserter {T} _ _ _ _ _ _ _.
Arguments ins_sequence {T} _.
Arguments ins_db {T} _.
Arguments has_valid_writes_ {T} _.
Arguments log_number_ref_ {T} _.
Arguments rebuilding_trx_ {T} _.
Arguments rebuilding_trx_seq_ {T} _.
Arguments unprepared_batch_ {T} _.

Section inserter.
Context {T : Type} `{MemTables T}.
(** [WriteBatch::UpdateTimestamps], with the sizes of the timestamps of the families. *)
Context (UpdateTimestamps : (Z -> Z) -> bytes -> WriteBatch -> Status * WriteBatch).
Context (o : InserterOptions).

Abbreviation IM := (M (Inserter T)).
Implicit Types h : Inserter T.

Definition set_sequence n h := mkInserter n (ins_db h) (has_valid_writes_ h) (log_number_ref_ h) (rebuilding_trx_ h) (rebuilding_trx_seq_ h) (unprepared_batch_ h).
Definition set_ins_db (d : Db T) h := mkInserter (ins_sequence h) d (has_valid_writes_ h) (log_number_ref_ h) (rebuilding_trx_ h) (rebuilding_trx_seq_ h) (unprepared_batch_ h).
Definition set_valid h := mkInserter (ins_sequence h) (ins_db h) true (log_number_ref_ h) (rebuilding_trx_ h) (rebuilding_trx_seq_ h) (unprepared_batch_ h).
Definition set_log_number_ref n h := mkInserter (ins_sequence h) (ins_db h) (has_valid_writes_ h) n (rebuilding_trx_ h) (rebuilding_trx_seq_ h) (unprepared_batch_ h).
Definition set_rebuilding b seq u h := mkInserter (ins_sequence h) (ins_db h) (has_valid_writes_ h) (log_number_ref_ h) b seq u.
Definition on_mem (f : T -> T) h := set_ins_db (set_mem (f (db_mem (ins_db h))) (ins_db h)) h.
Definition mem_of h : T := db_mem (ins_db h).

Definition MaybeAdvanceSeq (batch_boundry : bool) : IM unit :=
  when (Bool.eqb batch_boundry seq_per_batch_) (modify (fun h => set_sequence (ins_sequence h +64 1) h)).

(** Whether the family takes the update, and the status otherwise. *)
Definition SeekToColumnFamily (column_family_id : Z) : IM (bool * Status) :=
  h <- get ;;
  if negb (mt_Seek column_family_id (mem_of h)) then
    ret (false, if ignore_missing_column_families_ o then OK else InvalidArgument "Invalid column family specified in write batch")
  else if negb (recovering_log_number_ o =? 0) && (recovering_log_number_ o <? mt_GetLogNumber column_family_id (mem_of h))
  then ret (false, OK)
  else
    modify set_valid ;;
    when (0 <? log_number_ref_ h) (modify (on_mem (mt_RefLogContainingPrepSection column_family_id (log_number_ref_ h)))) ;;
    ret (true, OK).

Definition mem_Add (column_family_id type : Z) (key value : bytes) : IM Status := fun h =>
  let '(s, t) := mt_Add column_family_id (ins_sequence h) type key value (mem_of h) in
  Ok s (set_ins_db (set_mem t (ins_db h)) h).

(** The end of every update of a memtable. *)
Definition added (column_family_id : Z) (s : Status) : IM unit :=
  if IsTryAgain s then MaybeAdvanceSeq true
  else when (ok s) (MaybeAdvanceSeq false ;; modify (on_mem (mt_CheckMemtableFull column_family_id))).

Definition DeleteImpl (column_family_id : Z) (key value : bytes) (delete_type : Z) : IM Status :=
  s <- mem_Add column_family_id delete_type key value ;; added column_family_id s ;; ret s.

(** An update of the transaction that is rebuilt. *)
Definition on_trx (b : WriteBatch) (m : BM unit) : IM Status := fun h =>
  match m b with
  | Ok _ b => Ok OK (set_rebuilding (Some b) (rebuilding_trx_seq_ h) (unprepared_batch_ h) h)
  | Err s b => Ok s (set_rebuilding (Some b) (rebuilding_trx_seq_ h) (unprepared_batch_ h) h)
  | Stuck w => Stuck w
  end.

(** What every update does before it turns to the memtable: during the recovery of a
    prepared section it goes to the transaction, and a family that does not take it only
    advances the sequence number. The transaction is never rebuilt behind this point. *)
Definition in_family (column_family_id : Z) (to_trx : BM unit) (to_mem : IM Status) : IM Status :=
  h <- get ;;
  match (if write_after_commit_ then rebuilding_trx_ h else None) with
  | Some b => on_trx b to_trx
  | None =>
      let* (found, s) := SeekToColumnFamily column_family_id in
      if found then to_mem else when (ok s) (MaybeAdvanceSeq false) ;; ret s
  end.

Definition PutCFImpl (column_family_id : Z) (key value : bytes) (value_type : Z) : IM Status :=
  in_family column_family_id (WBI_Put column_family_id key value)
    (s <- mem_Add column_family_id value_type key value ;; added column_family_id s ;; ret s).

Definition ins_DeleteCF (column_family_id : Z) (key : bytes) : IM Status :=
  in_family column_family_id (WBI_Delete column_family_id key)
    (h <- get ;;
     DeleteImpl column_family_id key []
       (if mt_timestamp_size column_family_id (mem_of h) =? 0 then kTypeDeletion else kTypeDeletionWithTimestamp)).

Definition ins_SingleDeleteCF (column_family_id : Z) (key : bytes) : IM Status :=
  in_family column_family_id (WBI_SingleDelete column_family_id key) (DeleteImpl column_family_id key [] kTypeSingleDeletion).

Definition ins_DeleteRangeCF (column_family_id : Z) (begin_key end_key : bytes) : IM Status :=
  in_family column_family_id (WBI_DeleteRange column_family_id begin_key end_key)
    (h <- get ;;
     if negb (mt_is_delete_range_supported column_family_id (mem_of h)) then
       ret (NotSupported ("DeleteRange not supported for table type " ++ mt_table_name column_family_id (mem_of h)))
     else
       let cmp := mt_CompareWithoutTimestamp column_family_id (mem_of h) begin_key end_key in
       if 0 <? cmp then ret (InvalidArgument "end key comes before start key")
       else if cmp =? 0 then ret OK
       else DeleteImpl column_family_id begin_key end_key kTypeRangeDeletion).

(** [max_successive_merges] is 0, its default: the operand is stored. *)
Definition ins_MergeCF (column_family_id : Z) (key value : bytes) : IM Status :=
  in_family column_family_id (WBI_Merge column_family_id key value)
    (h <- get ;;
     if negb (mt_merge_operator column_family_id (mem_of h)) then
       ret (InvalidArgument "Merge requires `ColumnFamilyOptions::merge_operator != nullptr`")
     else
       s <- mem_Add column_family_id kTypeMerge key value ;; added column_family_id s ;; ret s).

(** ** Two-phase commit *)

Definition recovering : bool := negb (recovering_log_number_ o =? 0).

Definition ins_MarkBeginPrepare (unprepare : bool) : IM Status :=
  if recovering then
    if negb (allow_2pc o) then
      ret (NotSupported "WAL contains prepared transactions. Open with TransactionDB::Open().")
    else
      modify (fun h => set_valid (set_rebuilding (Some (WriteBatch_new 0 0)) (ins_sequence h) unprepare h)) ;; ret OK
  else ret OK.

Definition ins_MarkEndPrepare (name : bytes) : IM Status :=
  when recovering (modify (fun h =>
    set_rebuilding None (rebuilding_trx_seq_ h) false
      (set_ins_db (InsertRecoveredTransaction (recovering_log_number_ o) name (rebuilding_trx_ h) (rebuilding_trx_seq_ h)
        (if write_after_commit_ then 0 else (ins_sequence h -64 rebuilding_trx_seq_ h) +64 1) (unprepared_batch_ h) (ins_db h)) h))) ;;
  MaybeAdvanceSeq true ;; ret OK.

Definition ins_MarkNoop (empty_batch : bool) : IM Status := when (negb empty_batch) (MaybeAdvanceSeq true) ;; ret OK.

(** [iterate] is the iteration over a batch with this handler. *)
Definition commit_batch (iterate : WriteBatch -> IM unit) (name : bytes) (prepare : WriteBatch -> IM (Status * WriteBatch)) : IM Status :=
  h <- get ;;
  s <- (if recovering then
    match GetRecoveredTransaction name (ins_db h) with
    | None => ret OK
    | Some trx =>
        s <- (if write_after_commit_ then
          info <- deref (snd <$> head (batches_ trx)) ;;
          modify (set_log_number_ref (bi_log_number info)) ;;
          b <- deref (bi_batch info) ;;
          let* (s, b) := prepare b in
          if ok s then
            r <- attempt (iterate b) ;;
            modify (set_log_number_ref 0) ;;
            ret (status_of r)
          else ret s
        else ret OK) ;;
        when (ok s) (modify (fun h => set_ins_db (DeleteRecoveredTransaction name (ins_db h)) h)) ;;
        modify set_valid ;;
        ret s
    end
  else ret OK) ;;
  MaybeAdvanceSeq true ;; ret s.

Definition ins_MarkCommit (iterate : WriteBatch -> IM unit) (name : bytes) : IM Status :=
  commit_batch iterate name (fun b => ret (OK, b)).

(** The timestamps are written to the batch of the transaction. *)
Definition set_trx_batch (name : bytes) (b : WriteBatch) (d : Db T) : Db T :=
  match GetRecoveredTransaction name d with
  | Some (mkRecoveredTransaction u ((seq, info) :: rest)) =>
      mkDb (db_mem d) (assoc_set name (mkRecoveredTransaction u ((seq, mkBatchInfo (bi_log_number info) (Some b) (bi_batch_cnt info)) :: rest))
        (recovered_transactions_ d)) (logs_with_prep_ d) (prepared_section_completed_ d)
  | _ => d
  end.
Definition ins_MarkCommitWithTimestamp (iterate : WriteBatch -> IM unit) (name commit_ts : bytes) : IM Status :=
  commit_batch iterate name (fun b => fun h =>
    let '(s, b) := UpdateTimestamps (fun cf => mt_timestamp_size cf (mem_of h)) commit_ts b in
    Ok (s, b) (set_ins_db (set_trx_batch name b (ins_db h)) h)).

Definition ins_MarkRollback (name : bytes) : IM Status :=
  h <- get ;;
  when (recovering && bool_decide (is_Some (GetRecoveredTransaction name (ins_db h))))
    (modify (fun h => set_ins_db (DeleteRecoveredTransaction name (ins_db h)) h)) ;;
  MaybeAdvanceSeq true ;; ret OK.

(** The handler; a commit iterates over another batch, [depth] bounds the nesting. *)
Fixpoint MemTableInserter (depth : nat) : Handler (Inserter T) :=
  let iterate b := match depth with O => stuckM OutOfFuel | S depth => @Iterate _ (MemTableInserter depth) b end in {|
  PutCF cf k v := PutCFImpl cf k v kTypeValue;
  PutEntityCF cf k v := PutCFImpl cf k v kTypeWideColumnEntity;
  DeleteCF := ins_DeleteCF;
  SingleDeleteCF := ins_SingleDeleteCF;
  DeleteRangeCF := ins_DeleteRangeCF;
  MergeCF := ins_MergeCF;
  PutBlobIndexCF cf k v := PutCFImpl cf k v kTypeBlobIndex;
  LogData := @LogData _ default_handler;
  MarkBeginPrepare := ins_MarkBeginPrepare;
  MarkEndPrepare := ins_MarkEndPrepare;
  MarkNoop := ins_MarkNoop;
  MarkRollback := ins_MarkRollback;
  MarkCommit := ins_MarkCommit iterate;
  MarkCommitWithTimestamp := ins_MarkCommitWithTimestamp iterate;
  Continue := @Continue _ default_handler;
  WriteAfterCommit _ := if write_after_commit_ then kEnabled else kDisabled;
  WriteBeforePrepare _ := if write_before_prepare_ then kEnabled else kDisabled
|}.

End inserter.

(** ** Inserting batches *)

(** [WriteThread::Writer]; the callback has been called. *)
Record Writer := mkWriter {
  w_batch : WriteBatch;
  w_CallbackFailed : bool;
  w_disable_memtable : bool;
  w_log_ref : Z;
  w_sequence : Z;
  w_status : Status
}.
Definition ShouldWriteToMemtable (w : Writer) : bool := ok (w_status w) && negb (w_CallbackFailed w) && negb (w_disable_memtable w).
Definition set_w_batch b w := mkWriter b (w_CallbackFailed w) (w_disable_memtable w) (w_log_ref w) (w_sequence w) (w_status w).
Definition set_w_sequence n w := mkWriter (w_batch w) (w_CallbackFailed w) (w_disable_memtable w) (w_log_ref w) n (w_status w).
Definition set_w_status s w := mkWriter (w_batch w) (w_CallbackFailed w) (w_disable_memtable w) (w_log_ref w) (w_sequence w) s.

Section insert.
Context {T : Type} `{MemTables T}.
Context (UpdateTimestamps : (Z -> Z) -> bytes -> WriteBatch -> Status * WriteBatch).
Context (depth : nat).

Definition new_inserter (sequence : Z) (d : Db T) : Inserter T := mkInserter sequence d false 0 None 0 false.

(** [InsertInto(const WriteBatch*, ...)]: the status, the next sequence number and whether
    there were valid writes. *)
Definition InsertInto (o : InserterOptions) (batch : WriteBatch) : M (Db T) (Status * Z * bool) := fun d =>
  match @Iterate _ (MemTableInserter UpdateTimestamps o depth) batch (new_inserter (Sequence batch) d) with
  | Ok _ h => Ok (OK, ins_sequence h, has_valid_writes_ h) (ins_db h)
  | Err s h => Ok (s, ins_sequence h, has_valid_writes_ h) (ins_db h)
  | Stuck w => Stuck w
  end.

(** [InsertInto(WriteGroup&, ...)]: the loop over the writers. *)
Fixpoint insert_group (o : InserterOptions) (ws : list Writer) : M (Inserter T) (Status * list Writer) :=
  match ws with
  | [] => ret (OK, [])
  | w :: ws =>
      if w_CallbackFailed w then let* (s, ws) := insert_group o ws in ret (s, w :: ws)
      else
        n <- gets ins_sequence ;;
        let w := set_w_sequence n w in
        if negb (ShouldWriteToMemtable w) then
          MaybeAdvanceSeq true ;;
          let* (s, ws) := insert_group o ws in ret (s, w :: ws)
        else
          let batch := SetSequence n (w_batch w) in
          modify (set_log_number_ref (w_log_ref w)) ;;
          r <- attempt (@Iterate _ (MemTableInserter UpdateTimestamps o depth) batch) ;;
          let s := status_of r in
          let w := set_w_status s (set_w_batch batch w) in
          if negb (ok s) then ret (s, w :: ws)
          else let* (s, ws) := insert_group o ws in ret (s, w :: ws)
  end.
Definition InsertInto_group (o : InserterOptions) (ws : list Writer) (sequence : Z) : M (Db T) (Status * list Writer) := fun d =>
  match insert_group o ws (new_inserter sequence d) with
  | Ok r h => Ok r (ins_db h)
  | Err s h => Err s (ins_db h)
  | Stuck w => Stuck w
  end.

End insert.

(** ** Writing a group *)

(** [MergeBatch], on [tmp_batch]: the batch of the leader if that is the merged one, how
    many batches are written to the log, and the state to be cached. *)
Definition latest_state (b : WriteBatch) (cached : option WriteBatch) : option WriteBatch :=
  if is_latest_persistent_state_ b then Some b else cached.
Definition merge_writers (ws : list Writer) : BM (Z * option WriteBatch) :=
  foldM (fun '(n, cached) w =>
    if w_CallbackFailed w then ret (n, cached)
    else
      r <- attempt (WBI_Append (w_batch w) true) ;;
      match r with
      | inl s => modify WriteBatch_Clear ;; fail s
      | inr _ => ret (n + 1, latest_state (w_batch w) cached)
      end) (0, None) ws.
Definition MergeBatch (ws : list Writer) : BM (option WriteBatch * Z * option WriteBatch) :=
  match ws with
  | [leader] =>
      if negb (w_CallbackFailed leader) && is_cleared (wal_term_point_ (w_batch leader))
      then ret (Some (w_batch leader), 1, latest_state (w_batch leader) None)
      else let* (n, cached) := merge_writers ws in ret (None, n, cached)
  | _ => let* (n, cached) := merge_writers ws in ret (None, n, cached)
  end.

(** What the leader of a group changes. *)
Record WriteState (T D C : Type) := mkWriteState {
  wr_db : Db T;
  wr_log : LogWriter D C;
  wr_tmp_batch : WriteBatch;
  wr_last_sequence : Z;
  wr_total_log_size : Z;
  wr_log_empty : bool;
  wr_cached_recoverable_state : option WriteBatch
}.
Arguments mkWriteState {T D C} _ _ _ _ _ _ _.
Arguments wr_db {T D C} _.
Arguments wr_log {T D C} _.
Arguments wr_tmp_batch {T D C} _.
Arguments wr_last_sequence {T D C} _.
Arguments wr_total_log_size {T D C} _.
Arguments wr_log_empty {T D C} _.
Arguments wr_cached_recoverable_state {T D C} _.

Section write.
Context {T D C U : Type} `{MemTables T} `{LogDest D} `{StreamingCompression C U}.
Context (UpdateTimestamps : (Z -> Z) -> bytes -> WriteBatch -> Status * WriteBatch).
Context (depth fuel : nat).
Abbreviation SM := (M (WriteState T D C)).
Implicit Types s : WriteState T D C.

Definition set_wr_db d s : WriteState T D C := mkWriteState d (wr_log s) (wr_tmp_batch s) (wr_last_sequence s) (wr_total_log_size s) (wr_log_empty s) (wr_cached_recoverable_state s).
Definition set_wr_log l s : WriteState T D C := mkWriteState (wr_db s) l (wr_tmp_batch s) (wr_last_sequence s) (wr_total_log_size s) (wr_log_empty s) (wr_cached_recoverable_state s).
Definition set_wr_tmp b s : WriteState T D C := mkWriteState (wr_db s) (wr_log s) b (wr_last_sequence s) (wr_total_log_size s) (wr_log_empty s) (wr_cached_recoverable_state s).
Definition set_wr_last_sequence n s : WriteState T D C := mkWriteState (wr_db s) (wr_log s) (wr_tmp_batch s) n (wr_total_log_size s) (wr_log_empty s) (wr_cached_recoverable_state s).
Definition logged n s : WriteState T D C := mkWriteState (wr_db s) (wr_log s) (wr_tmp_batch s) (wr_last_sequence s) (wr_total_log_size s +64 n) false (wr_cached_recoverable_state s).
Definition set_wr_cached c s : WriteState T D C := mkWriteState (wr_db s) (wr_log s) (wr_tmp_batch s) (wr_last_sequence s) (wr_total_log_size s) (wr_log_empty s) c.

(** The status of an earlier call is returned. *)
Definition raise (r : Status + unit) : SM unit := match r with inl e => fail e | inr _ => ret tt end.

(** [WriteToWAL(const WriteBatch&, ...)] *)
Definition WriteToWAL_batch (merged_batch : WriteBatch) : SM unit :=
  let log_entry := rep_ merged_batch in
  r <- attempt (zoom wr_log set_wr_log (LogWriter_AddRecord fuel log_entry)) ;;
  modify (logged (zlen log_entry)) ;;
  raise r.

(** [WriteToWAL(const WriteGroup&, ...)] without a sync; the writers, whose leader has the
    sequence number if its batch is the record. *)
Definition WriteToWAL (ws : list Writer) (sequence : Z) : SM (list Writer) :=
  let* (leaders, n, cached) := zoom wr_tmp_batch set_wr_tmp (MergeBatch ws) in
  match leaders with
  | Some b =>
      let b := SetSequence sequence b in
      r <- attempt (WriteToWAL_batch b) ;;
      when (bool_decide (is_Some cached)) (modify (set_wr_cached (Some b))) ;;
      raise r ;;
      ret (match ws with w :: ws => set_w_batch b w :: ws | [] => [] end)
  | None =>
      modify (fun s => set_wr_tmp (SetSequence sequence (wr_tmp_batch s)) s) ;;
      s <- get ;;
      r <- attempt (WriteToWAL_batch (wr_tmp_batch s)) ;;
      when (bool_decide (is_Some cached)) (modify (set_wr_cached cached)) ;;
      modify (fun s => set_wr_tmp (WriteBatch_Clear (wr_tmp_batch s)) s) ;;
      raise r ;;
      ret ws
  end.

(** [total_count]: the updates that go to the memtables. *)
Definition group_count (ws : list Writer) : Z :=
  fold_left (fun n w => if ShouldWriteToMemtable w then n +64 Count (w_batch w) else n) ws 0.

(** The leader of a group in [WriteImpl]: one queue, the log enabled, no callbacks before
    the release, and the memtables written by the leader. The answer is the status of
    [InsertInto] and the writers; an error of the log ends the write. *)
Definition WriteImpl (ignore_missing_column_families : bool) (ws : list Writer) : SM (Status * list Writer) :=
  last_sequence <- gets wr_last_sequence ;;
  let seq_inc := group_count ws in
  ws <- WriteToWAL ws (last_sequence +64 1) ;;
  r <- zoom wr_db set_wr_db (InsertInto_group UpdateTimestamps depth (mkInserterOptions ignore_missing_column_families 0 false) ws (last_sequence +64 1)) ;;
  modify (set_wr_last_sequence (last_sequence +64 seq_inc)) ;;
  ret r.

End write.
