(* ===== verification/DbRecovery.v ===== *)
(** * Recovering the database from its logs

    DBImpl::RecoverLogFiles (rocksdb-raw/db/db_impl/db_impl_open.cc): the records of the
    write-ahead logs are read, checked and inserted into the memtables, with the treatment
    of damaged logs in the recovery modes. There is no filter of the log. *)

From S2P Require Import Prelude Status Coding WideColumns WriteBatch LogFormat MemTableInserter.

(** ** Protection information *)

(** What an entry of [ProtectionInfo] protects: key, value, type and family. *)
Abbreviation ProtectionEntry := (bytes * bytes * Z * Z)%type.
Definition UpdateProtInfo (cf : Z) (key val : bytes) (op_type : Z) : M (list ProtectionEntry) Status :=
  modify (fun l => l ++ [(key, val, op_type, cf)]) ;; ret OK.

Definition ProtectionInfoUpdater : Handler (list ProtectionEntry) := {|
  PutCF cf k v := UpdateProtInfo cf k v kTypeValue;
  PutEntityCF cf k v := UpdateProtInfo cf k v kTypeWideColumnEntity;
  DeleteCF cf k := UpdateProtInfo cf k [] kTypeDeletion;
  SingleDeleteCF cf k := UpdateProtInfo cf k [] kTypeSingleDeletion;
  DeleteRangeCF cf k v := UpdateProtInfo cf k v kTypeRangeDeletion;
  MergeCF cf k v := UpdateProtInfo cf k v kTypeMerge;
  PutBlobIndexCF cf k v := UpdateProtInfo cf k v kTypeBlobIndex;
  LogData := @LogData _ default_handler;
  MarkBeginPrepare _ := ret OK;
  MarkEndPrepare _ := ret OK;
  MarkNoop _ := ret OK;
  MarkRollback _ := ret OK;
  MarkCommit _ := ret OK;
  MarkCommitWithTimestamp _ _ := ret OK;
  Continue := @Continue _ default_handler;
  WriteAfterCommit := @WriteAfterCommit _ default_handler;
  WriteBeforePrepare := @WriteBeforePrepare _ default_handler
|}.

(** ** Options and state *)

Definition kMaxSequenceNumber : Z := 2 ^ 56 - 1.

Record RecoverOptions := mkRecoverOptions {
  wal_recovery_mode : WALRecoveryMode;
  paranoid_checks : bool;
  ro_allow_2pc : bool;
  read_only : bool
}.

(** The local variables of [RecoverLogFiles] and [versions_->LastSequence()]. *)
Record RecoverState (T : Type) := mkRecoverState {
  rc_db : Db T;
  rc_next_sequence : Z;
  rc_status : Status;
  rc_stop_replay_for_corruption : bool;
  rc_corrupted_wal_number : Z;
  rc_last_sequence : Z
}.
Arguments mkRecoverState {T} _ _ _ _ _ _.
Arguments rc_db {T} _.
Arguments rc_next_sequence {T} _.
Arguments rc_status {T} _.
Arguments rc_stop_replay_for_corruption {T} _.
Arguments rc_corrupted_wal_number {T} _.
Arguments rc_last_sequence {T} _.

(** What the recovery does with memtables besides inserting: the loop that writes the
    families scheduled for a flush to level 0, and the families for the check at the end:
    whether one has tables and its log number is greater. *)
Class RecoverTables (T : Type) := {
  rt_FlushScheduled : Z -> T -> Status * T;
  rt_families_ahead : Z -> T -> option string
}.

Definition IsNotSupported (s : Status) : bool := bool_decide (code s = kNotSupported).
Definition IsIOError (s : Status) : bool := bool_decide (code s = kIOError).

Section recover.
Context {T F C U : Type} `{MemTables T} `{RecoverTables T} `{LogSource F} `{StreamingCompression C U}.
Context (UpdateTimestamps : (Z -> Z) -> bytes -> WriteBatch -> Status * WriteBatch).
(** The hash of a whole record, which the reader computes, too. *)
Context (XXH3_64bits : bytes -> Z).
Context (o : RecoverOptions).
Context (depth rfuel : nat).

Implicit Types s : RecoverState T.
Abbreviation CM := (M (RecoverState T)).

Definition set_rc_db (d : Db T) s := mkRecoverState d (rc_next_sequence s) (rc_status s) (rc_stop_replay_for_corruption s) (rc_corrupted_wal_number s) (rc_last_sequence s).
Definition set_rc_next n s := mkRecoverState (rc_db s) n (rc_status s) (rc_stop_replay_for_corruption s) (rc_corrupted_wal_number s) (rc_last_sequence s).
Definition set_rc_status e s := mkRecoverState (rc_db s) (rc_next_sequence s) e (rc_stop_replay_for_corruption s) (rc_corrupted_wal_number s) (rc_last_sequence s).
Definition set_rc_stop b s := mkRecoverState (rc_db s) (rc_next_sequence s) (rc_status s) b (rc_corrupted_wal_number s) (rc_last_sequence s).
Definition set_rc_corrupted n s := mkRecoverState (rc_db s) (rc_next_sequence s) (rc_status s) (rc_stop_replay_for_corruption s) n (rc_last_sequence s).
Definition set_rc_last n s := mkRecoverState (rc_db s) (rc_next_sequence s) (rc_status s) (rc_stop_replay_for_corruption s) (rc_corrupted_wal_number s) n.

(** [UpdateProtectionInfo] of a batch that is not protected. *)
Definition UpdateProtectionInfo (wb : WriteBatch) (bytes_per_key checksum : Z) : CM Status :=
  if bytes_per_key =? 0 then ret OK
  else if bytes_per_key =? 8 then
    match @Iterate _ ProtectionInfoUpdater wb [] with
    | Ok _ _ =>
        ret (if negb (XXH3_64bits (rep_ wb) =? checksum) then Corruption "Write batch content corrupted." else OK)
    | Err s _ => ret s
    | Stuck w => stuckM w
    end
  else ret (NotSupported "WriteBatch protection info must be zero or eight bytes/key").

Definition MaybeIgnoreError (s : Status) : Status := if ok s || paranoid_checks o then s else OK.

(** [LogReporter]: the status is null when errors are ignored. *)
Definition reporter_has_status : bool :=
  paranoid_checks o && negb (bool_decide (wal_recovery_mode o = kSkipAnyCorruptedRecords)).
Definition LogReporter_Corruption (e : Status) s : RecoverState T :=
  if reporter_has_status && ok (rc_status s) then set_rc_status e s else s.

(** [reader.ReadRecord]: the reporter is told what the reader reports meanwhile. *)
Definition read_record : M (RecoverState T * LogReader F U) (option bytes) := fun '(s, r) =>
  match LogReader_ReadRecord rfuel (wal_recovery_mode o) r with
  | Ok rec r' => Ok rec (fold_left (fun s rep => LogReporter_Corruption rep.2 s) (drop (length (reported r)) (reported r')) s, r')
  | Err e r' => Err e (s, r')
  | Stuck w => Stuck w
  end.

(** What is done with a record: true if the loop goes on. *)
Definition recover_record (wal_number : Z) (record : bytes) : CM bool :=
  if zlen record <? kHeader then modify (LogReporter_Corruption (Corruption "log record too small")) ;; ret true
  else
    let batch := WriteBatch_new 0 0 in
    let batch := set_content_flags DEFERRED (set_rep record batch) in
    s <- UpdateProtectionInfo batch 8 (XXH3_64bits record) ;;
    modify (set_rc_status s) ;;
    returnS s ;;
    let sequence := Sequence batch in
    st <- get ;;
    let pit := bool_decide (wal_recovery_mode o = kPointInTimeRecovery) in
    when (pit && (sequence =? rc_next_sequence st)) (modify (set_rc_stop false)) ;;
    stop <- gets rc_stop_replay_for_corruption ;;
    if pit && stop then ret false
    else
      let* (s, next_sequence, has_valid_writes) :=
        zoom rc_db set_rc_db (InsertInto UpdateTimestamps depth (mkInserterOptions true wal_number (ro_allow_2pc o)) batch) in
      modify (set_rc_next next_sequence) ;;
      let s := MaybeIgnoreError s in
      modify (set_rc_status s) ;;
      if negb (ok s) then modify (LogReporter_Corruption s) ;; ret true
      else if has_valid_writes && negb (read_only o) then
        st <- get ;;
        let '(s, t) := rt_FlushScheduled (rc_next_sequence st) (db_mem (rc_db st)) in
        modify (fun st => set_rc_db (set_mem t (rc_db st)) st) ;;
        modify (set_rc_status s) ;;
        returnS s ;;
        ret true
      else ret true.

(** The loop over the records of a log. *)
Fixpoint recover_loop (n : nat) (wal_number : Z) : M (RecoverState T * LogReader F U) unit :=
  match n with
  | O => stuckM OutOfFuel
  | S n =>
      rec <- read_record ;;
      st <- get ;;
      match rec with
      | None => ret tt
      | Some record =>
          if negb (ok (rc_status st.1)) then ret tt
          else
            go <- zoom fst (fun s st => (s, st.2)) (recover_record wal_number record) ;;
            if go then recover_loop n wal_number else ret tt
      end
  end.

(** What becomes of the status of a log in the recovery modes. *)
Definition end_of_log (wal_number : Z) : CM unit :=
  s <- gets rc_status ;;
  if ok s then ret tt
  else if IsNotSupported s then fail s
  else
    match wal_recovery_mode o with
    | kSkipAnyCorruptedRecords => modify (set_rc_status OK)
    | kPointInTimeRecovery =>
        if IsIOError s then fail s
        else modify (fun st => set_rc_corrupted wal_number (set_rc_stop true (set_rc_status OK st)))
    | _ => fail s
    end.

Definition publish_sequence : CM unit :=
  modify (fun s =>
    let last_sequence := rc_next_sequence s -64 1 in
    if negb (rc_next_sequence s =? kMaxSequenceNumber) && (rc_last_sequence s <=? last_sequence) then set_rc_last last_sequence s else s).

(** One log; [open] is [NewSequentialFile] of its file. *)
Definition recover_wal (n : nat) (open : Z -> Status + F) (wal_number : Z) : CM unit :=
  match open wal_number with
  | inl s => modify (set_rc_status (MaybeIgnoreError s)) ;; returnS (MaybeIgnoreError s)
  | inr f =>
      modify (set_rc_status OK) ;;
      (fun s => match recover_loop n wal_number (s, LogReader_new (U := U) f true wal_number) with
                | Ok _ (s, _) => Ok tt s
                | Err e (s, _) => Err e s
                | Stuck w => Stuck w
                end) ;;
      end_of_log wal_number ;;
      publish_sequence
  end.

(** The loop over the logs, and the check that no family is ahead of a damaged log. *)
Definition RecoverLogFiles (n : nat) (open : Z -> Status + F) (min_wal_number : Z) (wal_numbers : list Z) : CM unit :=
  forM wal_numbers (fun wal_number => if wal_number <? min_wal_number then ret tt else recover_wal n open wal_number) ;;
  s <- get ;;
  match wal_recovery_mode o with
  | kPointInTimeRecovery | kTolerateCorruptedTailRecords =>
      if rc_stop_replay_for_corruption s then
        match rt_families_ahead (rc_corrupted_wal_number s) (db_mem (rc_db s)) with
        | Some name => fail (Corruption ("SST file is ahead of WALs in CF " ++ name))
        | None => ret tt
        end
      else ret tt
  | _ => ret tt
  end.

(** The variables at the start. *)
Definition RecoverState_new (d : Db T) (last_sequence : Z) : RecoverState T :=
  mkRecoverState d kMaxSequenceNumber OK false kMaxSequenceNumber last_sequence.

End recover.
