(* ===== verification/DbProps.v ===== *)
(** * The write path and the recovery of the database: correctness

    What the leader of a group of writers writes to the log replays as what it inserted
    into the memtables. *)

From S2P Require Import Prelude Status Coding WideColumns WriteBatch WriteBatchProps BatchCalls LogFormat LogProps LogCrash MemTableInserter DbRecovery.

(** ** Operations outside of transactions *)

Definition plain (op : BatchOp) : bool := op_counts op || match op with BLogData _ | BNoop => true | _ => false end.

(** The handler is called again when it asks for it. *)
Definition insert_step {H} (m : M H Status) : M H unit :=
  s <- m ;;
  if ok s then ret tt
  else if negb (IsTryAgain s) then fail s
  else s <- m ;; if ok s then ret tt else fail (if negb (IsTryAgain s) then s else try_again_twice).

Lemma replay_steps {H} `{Handler H} (call : BatchOp -> M H Status) ops :
  (forall h, Continue h = Ok true h) -> (forall op e h, op ∈ ops -> op_call op e h = call op h) ->
  forall e f h, (replay ops e f ;; ret tt) h = forM ops (fun op => insert_step (call op)) h.
Proof.
  intros Hc. induction ops as [|op ops IH]; intros Hcall e f h; [done|].
  assert (Hops : forall e f h, (replay ops e f ;; ret tt) h = forM ops (fun op => insert_step (call op)) h).
  { apply IH. intros op' e' h' Hin. apply Hcall. by right. }
  assert (Hop : forall e h, op_call op e h = call op h) by (intros; apply Hcall; by left). clear IH Hcall.
  cbn [replay forM]. unfold insert_step, op_step, bind, ret, fail in *. rewrite Hc. cbn [negb]. rewrite Hop.
  destruct (call op h) as [s h1|s h1|w]; try done. destruct (ok s) eqn:Es; [apply Hops|]. destruct (negb (IsTryAgain s)); [done|].
  rewrite Hc. cbn [negb]. rewrite Hop. destruct (call op h1) as [s1 h2|s1 h2|w]; try done.
  destruct (ok s1) eqn:Es1; [apply Hops|]. destruct (IsTryAgain s1) eqn:Et; cbn [negb]; [|done]. by rewrite Hc.
Qed.

(** Inserting does not change the logs that families start from. *)
Class MemTablesSpec T `{MemTables T} : Prop := {
  Add_log_number cf cf' seq type k v (t : T) : mt_GetLogNumber cf (mt_Add cf' seq type k v t).2 = mt_GetLogNumber cf t;
  CheckMemtableFull_log_number cf cf' (t : T) : mt_GetLogNumber cf (mt_CheckMemtableFull cf' t) = mt_GetLogNumber cf t;
  RefLog_log_number cf cf' n (t : T) : mt_GetLogNumber cf (mt_RefLogContainingPrepSection cf' n t) = mt_GetLogNumber cf t
}.

Section inserter.
Context {T : Type} `{MemTables T} {mt_spec : MemTablesSpec T}.
Context (UpdateTimestamps : (Z -> Z) -> bytes -> WriteBatch -> Status * WriteBatch).
Implicit Types h : Inserter T.
Abbreviation IM := (M (Inserter T)).

(** What the inserter does for them; it does not depend on the nesting. *)
Definition plain_call (o : InserterOptions) (op : BatchOp) : IM Status :=
  match op with
  | BPut cf k v => PutCFImpl o cf k v kTypeValue
  | BPutEntity cf k v => PutCFImpl o cf k v kTypeWideColumnEntity
  | BDelete cf k => ins_DeleteCF o cf k
  | BSingleDelete cf k => ins_SingleDeleteCF o cf k
  | BDeleteRange cf k v => ins_DeleteRangeCF o cf k v
  | BMerge cf k v => ins_MergeCF o cf k v
  | BBlobIndex cf k v => PutCFImpl o cf k v kTypeBlobIndex
  | _ => ret OK
  end.
Definition insert_ops (o : InserterOptions) (ops : list BatchOp) : IM unit := forM ops (fun op => insert_step (plain_call o op)).

Lemma plain_call_eq o depth op e h : plain op = true ->
  @op_call _ (MemTableInserter UpdateTimestamps o depth) op e h = plain_call o op h.
Proof. intros Hp. destruct depth, op; try done; by destruct e. Qed.

Lemma Iterate_plain o depth b seq ops h : rep_ b = batch_bytes seq ops -> Forall op_fits ops -> Forall (fun op => plain op = true) ops ->
  @Iterate _ (MemTableInserter UpdateTimestamps o depth) b h = insert_ops o ops h.
Proof.
  intros Hr Hf Hp. rewrite (Iterate_replay b seq ops) by done. apply replay_steps.
  - intros h'. by destruct depth.
  - intros op e h' Hin. apply plain_call_eq. by eapply Forall_forall in Hp.
Qed.

Lemma insert_ops_app o a b h : insert_ops o (a ++ b) h = (insert_ops o a ;; insert_ops o b) h.
Proof. apply forM_app. Qed.

(** ** Live writes and recovery *)

Definition same_logs h h' : Prop := forall cf, mt_GetLogNumber cf (mem_of h') = mt_GetLogNumber cf (mem_of h).

Lemma mem_Add_logs cf type k v h s h' : (s <- mem_Add cf type k v ;; added cf s ;; ret s) h = Ok s h' -> same_logs h h'.
Proof.
  unfold mem_Add, added, MaybeAdvanceSeq, when, bind, modify, ret. intros Hr cf'.
  rewrite <- (Add_log_number cf' cf (ins_sequence h) type k v (mem_of h)).
  repeat case_match; simplify_eq/=; unfold mem_of; cbn; rewrite ?CheckMemtableFull_log_number; done.
Qed.

Lemma in_family_logs o cf to_trx to_mem h s h' : in_family o cf to_trx to_mem h = Ok s h' ->
  (forall h s h', to_mem h = Ok s h' -> same_logs h h') -> same_logs h h'.
Proof.
  unfold in_family. intros Hr Hm. apply bind_inv_ok in Hr as (h0 & h1 & E & Hr). injection E as <- <-.
  destruct (if write_after_commit_ then _ else _).
  { unfold on_trx in Hr. by repeat case_match; simplify_eq. }
  apply bind_inv_ok in Hr as ([found s1] & h1 & Hseek & Hr).
  assert (Hs : same_logs h h1).
  { revert Hseek. unfold SeekToColumnFamily, when, bind, get, modify, ret. intros Hseek cf'.
    repeat case_match; simplify_eq/=; unfold mem_of; cbn; rewrite ?RefLog_log_number; done. }
  intros cf'. rewrite <- Hs. revert cf'. destruct found; [by eapply Hm|].
  revert Hr. unfold MaybeAdvanceSeq, when, bind, modify, ret. intros Hr. by repeat case_match; simplify_eq/=.
Qed.

Lemma plain_call_logs o op h s h' : plain_call o op h = Ok s h' -> same_logs h h'.
Proof.
  destruct op; cbn [plain_call]; intros Hr; try (by injection Hr as _ <-); apply in_family_logs in Hr; try done; clear Hr;
    intros h1 s1 h2; try apply mem_Add_logs; unfold bind at 1, get; repeat case_match; try (by intros [= _ <-]); apply mem_Add_logs.
Qed.

Section sim.
Context (live recover : InserterOptions).
Context (Hlive : recovering_log_number_ live = 0) (Hign : ignore_missing_column_families_ recover = true).

(** No family starts from a later log. *)
Definition logs_below h : Prop := forall cf, mt_GetLogNumber cf (mem_of h) <= recovering_log_number_ recover.

Lemma seek_sim cf h found s h' : logs_below h ->
  SeekToColumnFamily live cf h = Ok (found, s) h' -> ok s = true -> SeekToColumnFamily recover cf h = Ok (found, s) h'.
Proof.
  intros Hlog. unfold SeekToColumnFamily, bind, get. destruct (mt_Seek cf (mem_of h)); cbn [negb].
  - rewrite Hlive. change (negb (0 =? 0) && _) with false. cbv iota.
    rewrite (proj2 (Z.ltb_ge (recovering_log_number_ recover) _)) by apply Hlog. by rewrite andb_false_r.
  - rewrite Hign. by destruct (ignore_missing_column_families_ live); intros [= <- <- <-].
Qed.

Lemma in_family_sim cf to_trx to_mem h s h' : logs_below h ->
  in_family live cf to_trx to_mem h = Ok s h' -> ok s = true \/ IsTryAgain s = true ->
  in_family recover cf to_trx to_mem h = Ok s h'.
Proof.
  unfold in_family. intros Hlog Hr Hs. apply bind_inv_ok in Hr as (h0 & h1 & E & Hr). injection E as <- <-.
  unfold bind at 1, get. cbn [write_after_commit_ negb seq_per_batch_] in *. destruct (rebuilding_trx_ h); [done|].
  apply bind_inv_ok in Hr as ([found s1] & h1 & Hseek & Hr).
  assert (Hs1 : ok s1 = true).
  { revert Hseek Hr. unfold SeekToColumnFamily, bind, get. destruct (negb (mt_Seek cf (mem_of h))).
    - destruct (ignore_missing_column_families_ live); intros [= <- <- <-]; [done|]. cbn. intros [= <- <-]. by destruct Hs.
    - destruct (_ && _); [by intros [= <- <- <-]|]. unfold modify. destruct (when _ _ _); by intros [= <- <- <-]. }
  by rewrite (bind_ok _ _ _ _ _ (seek_sim _ _ _ _ _ Hlog Hseek Hs1)).
Qed.

Lemma plain_sim op h s h' : logs_below h ->
  plain_call live op h = Ok s h' -> ok s = true \/ IsTryAgain s = true -> plain_call recover op h = Ok s h'.
Proof. intros Hlog. destruct op; cbn [plain_call]; try done; by apply in_family_sim. Qed.

Lemma logs_below_call op h s h' : logs_below h -> plain_call live op h = Ok s h' -> logs_below h'.
Proof. intros Hlog Hc cf. rewrite (plain_call_logs _ _ _ _ _ Hc). apply Hlog. Qed.

(** What a live write inserts is inserted by the recovery. *)
Lemma insert_ops_sim ops : forall h h', logs_below h -> insert_ops live ops h = Ok tt h' ->
  insert_ops recover ops h = Ok tt h' /\ logs_below h'.
Proof.
  induction ops as [|op ops IH]; intros h h' Hlog Hr; [by injection Hr as <-|]. unfold insert_ops in *. cbn [forM] in *.
  apply bind_inv_ok in Hr as ([] & h1 & Hop & Hr).
  enough (insert_step (plain_call recover op) h = Ok tt h1 /\ logs_below h1) as [Hs Hlog1].
  { rewrite (bind_ok _ _ _ _ _ Hs). by apply IH. }
  clear IH Hr. unfold insert_step in *. apply bind_inv_ok in Hop as (s & h2 & Hc & Hop). pose proof (logs_below_call _ _ _ _ Hlog Hc) as Hlog2.
  destruct (ok s) eqn:Es.
  { rewrite (bind_ok _ _ _ _ _ (plain_sim _ _ _ _ Hlog Hc (or_introl Es))), Es. by injection Hop as <-. }
  destruct (IsTryAgain s) eqn:Et; cbn [negb] in Hop; [|done].
  rewrite (bind_ok _ _ _ _ _ (plain_sim _ _ _ _ Hlog Hc (or_intror Et))), Es, Et. cbn [negb].
  apply bind_inv_ok in Hop as (s1 & h3 & Hc1 & Hop). destruct (ok s1) eqn:Es1; [|done]. injection Hop as <-.
  rewrite (bind_ok _ _ _ _ _ (plain_sim _ _ _ _ Hlog2 Hc1 (or_introl Es1))), Es1. split; [done|]. by eapply logs_below_call.
Qed.
End sim.

(** ** What an insertion leaves alone, and sequence numbers *)

(** Only memtables and sequence numbers change. *)
Definition kept h h' : Prop :=
  rebuilding_trx_ h' = rebuilding_trx_ h /\ log_number_ref_ h' = log_number_ref_ h.

Lemma ins_kept_trans h1 h2 h3 : kept h1 h2 -> kept h2 h3 -> kept h1 h3.
Proof. intros [E1 E2] [E3 E4]. split; congruence. Qed.

(** One sequence number for an update that is taken. *)
Definition advanced (s : Status) h h' : Prop := kept h h' /\ ins_sequence h' = if ok s then ins_sequence h +64 1 else ins_sequence h.

Lemma mem_Add_advanced cf type k v h s h' :
  (s <- mem_Add cf type k v ;; added cf s ;; ret s) h = Ok s h' -> advanced s h h'.
Proof.
  unfold mem_Add, bind. destruct (mt_Add _ _ _ _ _ _) as [s1 t]. unfold added, ret, when, MaybeAdvanceSeq, bind, modify, advanced.
  change (Bool.eqb true seq_per_batch_) with false. change (Bool.eqb false seq_per_batch_) with true. cbv iota.
  destruct (IsTryAgain s1) eqn:Et.
  - intros [= <- <-]. split; [done|]. destruct (ok s1) eqn:Eo; [|done]. by rewrite (IsTryAgain_ok _ Eo) in Et.
  - destruct (ok s1) eqn:Eo; intros [= <- <-]; rewrite Eo; done.
Qed.

Lemma SeekToColumnFamily_kept o cf h r h' :
  SeekToColumnFamily o cf h = Ok r h' -> kept h h' /\ ins_sequence h' = ins_sequence h.
Proof.
  unfold SeekToColumnFamily, when, bind, get, modify, ret. intros Hr.
  repeat case_match; simplify_eq/=; done.
Qed.

Lemma in_family_advanced o cf to_trx to_mem h s h' :
  rebuilding_trx_ h = None -> in_family o cf to_trx to_mem h = Ok s h' ->
  advanced s h h' \/ exists h1, kept h h1 /\ ins_sequence h1 = ins_sequence h /\ to_mem h1 = Ok s h'.
Proof.
  intros Hn Hr. unfold in_family in Hr. apply bind_inv_ok in Hr as (h0 & h1 & E & Hr). injection E as <- <-.
  rewrite Hn in Hr. cbn [write_after_commit_ negb seq_per_batch_] in Hr.
  apply bind_inv_ok in Hr as ([found s1] & h1 & Hseek & Hr). apply SeekToColumnFamily_kept in Hseek as [Hk Hseq].
  destruct found; [right; by exists h1|left]. revert Hr. unfold bind, when, ret, MaybeAdvanceSeq, modify, advanced.
  change (Bool.eqb false seq_per_batch_) with true. cbn [when]. destruct (ok s1) eqn:Es; intros [= <- <-]; rewrite Es, <- ?Hseq; done.
Qed.

(** Only the deletion of an empty range takes no number. *)
Definition is_range (op : BatchOp) : bool := match op with BDeleteRange _ _ _ => true | _ => false end.

Lemma plain_call_advanced o op h s h' :
  rebuilding_trx_ h = None -> plain_call o op h = Ok s h' ->
  op_counts op = true /\ advanced s h h' \/
  (op_counts op = false \/ is_range op = true) /\ kept h h' /\ ins_sequence h' = ins_sequence h.
Proof.
  intros Hn. assert (Hadv : forall h1, kept h h1 -> ins_sequence h1 = ins_sequence h -> advanced s h1 h' -> advanced s h h').
  { intros h1 Hk Hs [Hk1 Hs1]. split; [by eapply ins_kept_trans|]. by rewrite Hs1, Hs. }
  assert (Hfam : forall cf to_trx to_mem, in_family o cf to_trx to_mem h = Ok s h' ->
    (forall h1, to_mem h1 = Ok s h' -> advanced s h1 h' \/ is_range op = true /\ kept h1 h' /\ ins_sequence h' = ins_sequence h1) ->
    advanced s h h' \/ is_range op = true /\ kept h h' /\ ins_sequence h' = ins_sequence h).
  { intros cf to_trx to_mem Hr Hm. destruct (in_family_advanced _ _ _ _ _ _ _ Hn Hr) as [?|(h1 & Hk & Hs & Hr1)]; [by left|].
    destruct (Hm h1 Hr1) as [Ha|(Hra & Hk1 & Hs1)]; [left; by eapply Hadv|right]. split; [done|]. split; [by eapply ins_kept_trans|congruence]. }
  assert (Hup : op_counts op = true -> advanced s h h' \/ is_range op = true /\ kept h h' /\ ins_sequence h' = ins_sequence h ->
    op_counts op = true /\ advanced s h h' \/ (op_counts op = false \/ is_range op = true) /\ kept h h' /\ ins_sequence h' = ins_sequence h)
    by naive_solver.
  destruct op; cbn [plain_call];
    try (intros Hr; apply Hup; [done|]; apply (Hfam _ _ _ Hr); intros h1 Hr1; left; by apply mem_Add_advanced in Hr1);
    try (intros [= <- <-]; right; split; [by left|done]).
  - intros Hr. apply Hup; [done|]. apply (Hfam _ _ _ Hr). intros h1. unfold bind, get.
    destruct (negb (mt_is_delete_range_supported _ _)); [intros [= <- <-]; by right|]. destruct (0 <? _); [intros [= <- <-]; by right|].
    destruct (_ =? 0); [intros [= <- <-]; by right|]. intros Hr1. left. by apply mem_Add_advanced in Hr1.
  - intros Hr. apply Hup; [done|]. apply (Hfam _ _ _ Hr). intros h1. unfold bind at 1, get.
    destruct (negb (mt_merge_operator _ _)); [intros [= <- <-]; by left|]. intros Hr1. left. by apply mem_Add_advanced in Hr1.
Qed.

Lemma insert_step_advanced o op h h' :
  rebuilding_trx_ h = None -> insert_step (plain_call o op) h = Ok tt h' ->
  kept h h' /\ (op_counts op = true /\ ins_sequence h' = ins_sequence h +64 1 \/
    (op_counts op = false \/ is_range op = true) /\ ins_sequence h' = ins_sequence h).
Proof.
  intros Hn Hr. unfold insert_step in Hr. apply bind_inv_ok in Hr as (s & h1 & Hc & Hr).
  pose proof (plain_call_advanced _ _ _ _ _ Hn Hc) as H1. unfold advanced in H1. destruct (ok s) eqn:Es.
  { injection Hr as <-. naive_solver. }
  assert (Hk1 : kept h h1 /\ ins_sequence h1 = ins_sequence h) by naive_solver. clear H1. destruct Hk1 as [Hk1 Hs1].
  destruct (negb (IsTryAgain s)); [done|]. apply bind_inv_ok in Hr as (s2 & h2 & Hc2 & Hr).
  pose proof (plain_call_advanced o op h1 s2 h2 (eq_trans (proj1 Hk1) Hn) Hc2) as H2. unfold advanced in H2.
  destruct (ok s2); [|done]. injection Hr as <-. rewrite Hs1 in H2.
  destruct H2 as [(? & Hk2 & ?)|(? & Hk2 & ?)]; (split; [by eapply ins_kept_trans|]); auto.
Qed.

(** The inserter advances once for each update, but for deletions of ranges. *)
Lemma insert_ops_sequence o ops : forall h h', rebuilding_trx_ h = None -> ins_sequence h = u64 (ins_sequence h) ->
  insert_ops o ops h = Ok tt h' ->
  kept h h' /\ exists n, 0 <= n <= updates ops /\ ins_sequence h' = u64 (ins_sequence h + n) /\
    (Forall (fun op => is_range op = false) ops -> n = updates ops).
Proof.
  induction ops as [|op ops IH]; intros h h' Hn Hu Hr.
  { injection Hr as <-. split; [done|]. exists 0. rewrite Z.add_0_r. by split_and!. }
  unfold insert_ops in Hr. cbn [forM] in Hr. apply bind_inv_ok in Hr as ([] & h1 & Hop & Hr).
  apply insert_step_advanced in Hop as [Hk Hop]; [|done].
  assert (Hu1 : ins_sequence h1 = u64 (ins_sequence h1)).
  { destruct Hop as [[_ ->]|[_ ->]]; [|done]. unfold u64, wrap. by rewrite Zmod_mod. }
  destruct (IH h1 h' (eq_trans (proj1 Hk) Hn) Hu1 Hr) as (Hk1 & n & Hb & Hs & Hall).
  split; [by eapply ins_kept_trans|]. change (op :: ops) with ([op] ++ ops). rewrite updates_app.
  assert (Hc1 : updates [op] = if op_counts op then 1 else 0) by (unfold updates; cbn [List.filter]; by destruct (op_counts op)).
  rewrite Hc1. destruct Hop as [[Hc Hseq]|[Hc Hseq]].
  - rewrite Hc. exists (1 + n). split; [lia|]. split.
    + rewrite Hs, Hseq. unfold u64, wrap. rewrite Zplus_mod_idemp_l. f_equal. lia.
    + intros Hf. inversion_clear Hf. rewrite Hall by done. lia.
  - exists n. split; [destruct (op_counts op); lia|]. split; [by rewrite Hs, Hseq|].
    intros Hf. inversion_clear Hf as [|? ? Hop Hf']. destruct Hc as [->|Hc]; [|congruence]. rewrite Hall by done. lia.
Qed.

Lemma plain_call_no_err o op h e h' : plain_call o op h <> Err e h'.
Proof.
  assert (Hfam : forall cf to_trx to_mem, (forall h1, to_mem h1 <> Err e h') -> in_family o cf to_trx to_mem h <> Err e h').
  { intros cf to_trx to_mem Hm. unfold in_family, bind at 1, get. destruct (if write_after_commit_ then _ else _).
    - unfold on_trx. by case_match.
    - intros Hr. apply bind_inv_err in Hr as [Hr|([found s] & h1 & _ & Hr)].
      + revert Hr. unfold SeekToColumnFamily, when, bind, get, modify, ret. by repeat case_match.
      + destruct found; [by apply Hm in Hr|]. revert Hr. unfold MaybeAdvanceSeq, when, bind, modify, ret. by repeat case_match. }
  assert (Hadd : forall cf type k v h1, (s <- mem_Add cf type k v ;; added cf s ;; ret s) h1 <> Err e h').
  { intros cf type k v h1. unfold mem_Add, added, MaybeAdvanceSeq, when, bind, modify, ret. by repeat case_match. }
  destruct op; cbn [plain_call]; try done; apply Hfam; intros h1; try apply Hadd; unfold bind at 1, get; repeat case_match; try done;
    apply Hadd.
Qed.

Lemma insert_ops_err o ops : forall h e h', insert_ops o ops h = Err e h' -> ok e = false.
Proof.
  induction ops as [|op ops IH]; intros h e h' Hr; [done|]. unfold insert_ops in Hr. cbn [forM] in Hr.
  apply bind_inv_err in Hr as [Hr|([] & h1 & _ & Hr)]; [|by eapply IH].
  unfold insert_step in Hr. apply bind_inv_err in Hr as [Hr|(s & h1 & _ & Hr)]; [by apply plain_call_no_err in Hr|].
  destruct (ok s) eqn:Es; [done|]. destruct (negb _); [injection Hr as <- _; done|].
  apply bind_inv_err in Hr as [Hr|(s2 & h2 & _ & Hr)]; [by apply plain_call_no_err in Hr|].
  destruct (ok s2) eqn:Es2; [done|]. destruct (negb _); by injection Hr as <- _.
Qed.

(** ** Groups of writers *)

(** The writer has a batch of these operations that is written to the log and to the
    memtables, unless its callback failed. *)
Definition writer_has (w : Writer) (ops : list BatchOp) : Prop :=
  if w_CallbackFailed w then ops = []
  else (exists seq, rep_ (w_batch w) = batch_bytes seq ops) /\ content_flags_ (w_batch w) = ops_flags ops /\
    is_cleared (wal_term_point_ (w_batch w)) = true /\ zlen (rep_ (w_batch w)) < 2 ^ 64 /\
    Forall op_fits ops /\ Forall (fun op => plain op = true) ops /\ updates ops < 2 ^ 32 /\
    ShouldWriteToMemtable w = true /\ w_log_ref w = 0.
Definition group_has (ws : list Writer) (ops : list BatchOp) : Prop := exists opss, Forall2 writer_has ws opss /\ ops = concat opss.

Lemma SetSequence_bytes b seq ops n : rep_ b = batch_bytes seq ops -> rep_ (SetSequence n b) = batch_bytes n ops.
Proof. intros Hr. unfold SetSequence. cbn [rep_ set_rep]. rewrite Hr. apply splice_sequence. Qed.

Lemma Sequence_bytes b seq ops : rep_ b = batch_bytes seq ops -> Sequence b = u64 seq.
Proof. intros Hr. unfold Sequence. rewrite Hr. apply (memcpy_to_from 8). Qed.

Lemma insert_writer o depth w seq ops n h :
  rep_ (w_batch w) = batch_bytes seq ops -> Forall op_fits ops -> Forall (fun op => plain op = true) ops ->
  attempt (@Iterate _ (MemTableInserter UpdateTimestamps o depth) (SetSequence n (w_batch w))) h = attempt (insert_ops o ops) h.
Proof. intros Hb Hf Hp. unfold attempt. by rewrite (Iterate_plain o depth _ n ops) by (try done; by eapply SetSequence_bytes). Qed.

(** A group inserts the operations of its writers, one after the other. *)
Lemma insert_group_ops o depth ws opss : Forall2 writer_has ws opss -> forall h s ws' h',
  rebuilding_trx_ h = None -> ins_sequence h = u64 (ins_sequence h) -> log_number_ref_ h = 0 ->
  insert_group UpdateTimestamps depth o ws h = Ok (s, ws') h' -> ok s = true -> insert_ops o (concat opss) h = Ok tt h'.
Proof.
  induction 1 as [|w ops ws opss Hw Hws IH]; intros h s ws' h' Hn Hu Hl Hr Hs; [by injection Hr as _ _ <-|].
  cbn [insert_group concat] in *. unfold writer_has in Hw. destruct (w_CallbackFailed w) eqn:Ec.
  { subst ops. apply bind_inv_ok in Hr as ([s1 ws1] & h1 & Hr & E). injection E as <- _ <-. by eapply IH. }
  destruct Hw as ((seq & Hb) & _ & _ & _ & Hf & Hp & _ & Hm & Hlr). rewrite insert_ops_app.
  apply bind_inv_ok in Hr as (n & h1 & E & Hr). injection E as <- <-.
  change (ShouldWriteToMemtable (set_w_sequence (ins_sequence h) w)) with (ShouldWriteToMemtable w) in Hr. rewrite Hm in Hr. cbn [negb] in Hr.
  apply bind_inv_ok in Hr as ([] & h1 & E & Hr). injection E as <-. cbn [w_log_ref set_w_sequence] in Hr.
  replace (set_log_number_ref (w_log_ref w) h) with h in Hr by (rewrite Hlr, <- Hl; by destruct h).
  apply bind_inv_ok in Hr as (r & h1 & Hit & Hr). cbn [w_batch set_w_sequence] in Hit. rewrite (insert_writer o depth w seq ops) in Hit by done.
  unfold attempt in Hit. destruct (insert_ops o ops h) as [[] h2|e h2|] eqn:Hops; simplify_eq/=.
  - destruct (insert_ops_sequence o ops h h1 Hn Hu Hops) as ([Hk1 Hk2] & k & _ & Hk & _). rewrite (bind_ok _ _ _ _ _ Hops).
    apply bind_inv_ok in Hr as ([s1 ws1] & h2 & Hr & E). injection E as <- _ <-.
    eapply IH; [congruence|rewrite Hk; unfold u64, wrap; by rewrite Zmod_mod|congruence|done|done].
  - pose proof (insert_ops_err _ _ _ _ _ Hops) as He. rewrite He in Hr. injection Hr as <- _ _. congruence.
Qed.

End inserter.

(** ** The log of a group *)

Lemma writer_appends w ops : w_CallbackFailed w = false -> writer_has w ops -> appends (w_batch w) true ops.
Proof.
  unfold writer_has. intros ->. intros ((seq & Hb) & Hfl & Hc & Hlen & Hf & _). exists seq, []. rewrite app_nil_r, Hc. done.
Qed.

Lemma merge_writers_spec ws opss : Forall2 writer_has ws opss -> forall n c b a, refines b a ->
  exists r b', foldM (fun '(n, cached) w =>
    if w_CallbackFailed w then ret (n, cached)
    else
      r <- attempt (WBI_Append (w_batch w) true) ;;
      match r with
      | inl s => modify WriteBatch_Clear ;; fail s
      | inr _ => ret (n + 1, latest_state (w_batch w) cached)
      end) (n, c) ws b = Ok r b' /\ refines b' (set_ops (a_ops a ++ concat opss) a).
Proof.
  induction 1 as [|w ops ws opss Hw Hws IH]; intros n c b a Hr.
  { eexists _, b. split; [done|]. cbn [concat]. rewrite app_nil_r. by destruct a. }
  cbn [foldM concat]. destruct (w_CallbackFailed w) eqn:Ec.
  - rewrite (bind_ok _ _ _ _ _ (eq_refl : ret (n, c) b = Ok (n, c) b)). unfold writer_has in Hw. rewrite Ec in Hw. subst ops. by apply IH.
  - destruct (WBI_Append_spec (w_batch w) true ops b a Hr (writer_appends _ _ Ec Hw)) as (b1 & Hr1 & [[Hm _]|[_ Hm]]); [|done].
    assert (Hstep : (r <- attempt (WBI_Append (w_batch w) true) ;;
      match r with inl s => modify WriteBatch_Clear ;; fail s | inr _ => ret (n + 1, latest_state (w_batch w) c) end) b =
      Ok (n + 1, latest_state (w_batch w) c) b1) by by rewrite (bind_ok _ _ _ _ _ (attempt_ok _ _ _ _ Hm)).
    rewrite (bind_ok _ _ _ _ _ Hstep). destruct (IH (n + 1) (latest_state (w_batch w) c) b1 _ Hr1) as (r & b2 & Hm2 & Hr2).
    exists r, b2. split; [done|]. cbn [a_ops set_ops fst snd] in Hr2. by rewrite <- app_assoc in Hr2.
Qed.

(** The merged batch is that of the leader, or the operations of all writers. *)
Lemma MergeBatch_spec ws opss b a : Forall2 writer_has ws opss -> refines b a -> a_ops a = [] ->
  exists l n c b', MergeBatch ws b = Ok (l, n, c) b' /\
    match l with
    | Some lb => exists w, ws = [w] /\ lb = w_batch w /\ w_CallbackFailed w = false /\ writer_has w (concat opss) /\ b' = b
    | None => refines b' (set_ops (concat opss) a)
    end.
Proof.
  intros Hws Hr Ha.
  assert (Hmerge : exists l n c b', (let* (n, cached) := merge_writers ws in ret (@None WriteBatch, n, cached)) b = Ok (l, n, c) b' /\
    match l with Some _ => False | None => refines b' (set_ops (concat opss) a) end).
  { destruct (merge_writers_spec ws opss Hws 0 None b a Hr) as ([n c] & b' & Hm & Hr'). rewrite Ha in Hr'.
    exists (@None WriteBatch), n, c, b'. by rewrite (bind_ok _ _ _ _ _ Hm). }
  destruct Hmerge as (l & n & c & b' & Hm & Hl). destruct l as [l|]; [done|].
  destruct ws as [|w [|w2 ws]]; cbn [MergeBatch]; try (by exists None, n, c, b').
  destruct (w_CallbackFailed w) eqn:Ec; cbn [negb andb]; [by exists None, n, c, b'|].
  inversion Hws as [|? ops ? ? Hw Hnil]; subst. inversion Hnil; subst. cbn [concat]. rewrite app_nil_r.
  assert (is_cleared (wal_term_point_ (w_batch w)) = true) as -> by (unfold writer_has in Hw; rewrite Ec in Hw; tauto).
  eexists _, _, _, b. split; [done|]. by exists w.
Qed.

Lemma group_count_updates ws opss : Forall2 writer_has ws opss -> group_count ws = u64 (updates (concat opss)).
Proof.
  intros Hws. unfold group_count.
  assert (Hg : forall n, n = u64 n -> fold_left (fun n w => if ShouldWriteToMemtable w then n +64 Count (w_batch w) else n) ws n = u64 (n + updates (concat opss))).
  { induction Hws as [|w ops ws opss Hw Hws IH]; intros n Hn; cbn [fold_left concat]; [change (updates []) with 0; by rewrite Z.add_0_r|].
    rewrite updates_app. unfold writer_has in Hw. destruct (w_CallbackFailed w) eqn:Ec.
    - subst ops. assert (ShouldWriteToMemtable w = false) as -> by (unfold ShouldWriteToMemtable; rewrite Ec; by rewrite andb_false_r).
      rewrite IH by done. done.
    - destruct Hw as ((seq & Hb) & _ & _ & _ & _ & _ & Hc & -> & _). rewrite (Count_bytes _ _ _ Hb).
      assert (0 <= updates ops) by apply zlen_nonneg. rewrite (u32_small (updates ops)) by lia.
      rewrite IH by (unfold u64, wrap; by rewrite Zmod_mod). unfold u64, wrap. rewrite Zplus_mod_idemp_l. f_equal. lia. }
  by rewrite Hg.
Qed.

Section write.
Context {T D C U : Type} `{MemTables T} {mt_spec : MemTablesSpec T} `{LogDest D} `{StreamingCompression C U}.
Context (UpdateTimestamps : (Z -> Z) -> bytes -> WriteBatch -> Status * WriteBatch).
Context (depth fuel : nat).
Implicit Types st : WriteState T D C.

(** The batch for merging is empty between the groups. *)
Definition tmp_clean st : Prop := exists max ts, refines (wr_tmp_batch st) (new_batch max ts).

Lemma WriteToWAL_batch_ok b st st' : WriteToWAL_batch fuel b st = Ok tt st' ->
  exists log', LogWriter_AddRecord fuel (rep_ b) (wr_log st) = Ok tt log' /\ st' = logged (zlen (rep_ b)) (set_wr_log log' st).
Proof.
  unfold WriteToWAL_batch, attempt, zoom, raise, bind, modify. intros Hr.
  destruct (LogWriter_AddRecord fuel (rep_ b) (wr_log st)) as [[] log'|e log'|]; [|done|done]. injection Hr as <-. eauto.
Qed.

Lemma attempt_inr {S A} (m : M S A) s a s' : attempt m s = Ok (inr a) s' -> m s = Ok a s'.
Proof. unfold attempt. destruct (m s); by intros [= -> ->]. Qed.
Lemma raise_ok r st st' : raise r st = Ok tt st' -> r = inr tt /\ st' = st.
Proof. destruct r as [e|[]]; by intros [= ->]. Qed.
Lemma when_modify_ok c f st st' : when c (modify f) st = Ok tt st' -> st' = if c then f st else st.
Proof. destruct c; by intros [= <-]. Qed.

(** The record of a group. *)
Lemma WriteToWAL_spec ws opss seq st ws' st' : Forall2 writer_has ws opss -> tmp_clean st -> WriteToWAL fuel ws seq st = Ok ws' st' ->
  LogWriter_AddRecord fuel (batch_bytes seq (concat opss)) (wr_log st) = Ok tt (wr_log st') /\
  wr_db st' = wr_db st /\ wr_last_sequence st' = wr_last_sequence st /\ tmp_clean st' /\ Forall2 writer_has ws' opss.
Proof.
  intros Hws (mx & ts & Ht) Hr. unfold WriteToWAL in Hr.
  destruct (MergeBatch_spec ws opss _ _ Hws Ht eq_refl) as (l & n & c & b' & Hm & Hl).
  apply bind_inv_ok in Hr as ([[l1 n1] c1] & st1 & Hz & Hr). unfold zoom in Hz. rewrite Hm in Hz. injection Hz as <- <- <- <-.
  destruct l as [lb|].
  - destruct Hl as (w & -> & -> & Hc & Hw & ->). apply bind_inv_ok in Hr as (r & st1 & Hwal & Hr).
    apply bind_inv_ok in Hr as ([] & st2 & Hwhen & Hr). apply when_modify_ok in Hwhen.
    apply bind_inv_ok in Hr as ([] & st3 & Hraise & Hr). apply raise_ok in Hraise as [-> ->]. injection Hr as <- <-.
    apply attempt_inr, WriteToWAL_batch_ok in Hwal as (log' & Hadd & ->).
    pose proof Hw as Hw0. unfold writer_has in Hw. rewrite Hc in Hw. destruct Hw as ((seq0 & Hb) & Hfl & Hterm & Hlen & Hrest).
    rewrite (SetSequence_bytes _ _ _ seq Hb) in *.
    assert (Hst : wr_log st2 = log' /\ wr_db st2 = wr_db st /\ wr_last_sequence st2 = wr_last_sequence st /\ wr_tmp_batch st2 = wr_tmp_batch st)
      by (rewrite Hwhen; by case_bool_decide).
    destruct Hst as (Hs1 & Hs2 & Hs3 & Hs4). rewrite Hs1. split; [done|]. split; [done|]. split; [done|].
    split; [exists mx, ts; by rewrite Hs4|].
    inversion Hws as [|? ops ? ? Hw1 Hnil]; subst. inversion Hnil; subst. cbn [concat] in *. rewrite app_nil_r in *.
    constructor; [|constructor]. unfold writer_has. cbn [w_CallbackFailed set_w_batch w_batch]. rewrite Hc.
    rewrite (SetSequence_bytes _ _ _ seq Hb). split; [by exists seq|]. rewrite Hb, !zlen_batch_bytes in *. done.
  - apply bind_inv_ok in Hr as ([] & st1 & E & Hr). injection E as <-. apply bind_inv_ok in Hr as (st1 & st2 & E & Hr). injection E as <- <-.
    apply bind_inv_ok in Hr as (r & st1 & Hwal & Hr). apply bind_inv_ok in Hr as ([] & st2 & Hwhen & Hr). apply when_modify_ok in Hwhen.
    apply bind_inv_ok in Hr as ([] & st3 & E & Hr). injection E as <-.
    apply bind_inv_ok in Hr as ([] & st3 & Hraise & Hr). apply raise_ok in Hraise as [-> ->]. injection Hr as <- <-.
    apply attempt_inr, WriteToWAL_batch_ok in Hwal as (log' & Hadd & ->).
    cbn [wr_tmp_batch set_wr_tmp wr_log] in Hadd. rewrite (SetSequence_bytes _ _ _ seq (ref_rep _ _ Hl)) in Hadd. cbn [a_ops set_ops] in Hadd.
    assert (Hst : wr_log st2 = log' /\ wr_db st2 = wr_db st /\ wr_last_sequence st2 = wr_last_sequence st)
      by (rewrite Hwhen; by case_bool_decide).
    destruct Hst as (Hs1 & Hs2 & Hs3). cbn [wr_log wr_db wr_last_sequence set_wr_tmp]. rewrite Hs1.
    split; [done|]. split; [done|]. split; [done|]. split; [|done]. eexists _, _. cbn [wr_tmp_batch set_wr_tmp]. by split.
Qed.

Definition live (ignore_missing : bool) : InserterOptions := mkInserterOptions ignore_missing 0 false.

(** A group that is written: its record is in the log, and its operations are in the
    memtables. *)
Lemma WriteImpl_spec ign ws ops st s ws' st' : group_has ws ops -> tmp_clean st -> WriteImpl UpdateTimestamps depth fuel ign ws st = Ok (s, ws') st' ->
  ok s = true ->
  let seq := wr_last_sequence st +64 1 in
  LogWriter_AddRecord fuel (batch_bytes seq ops) (wr_log st) = Ok tt (wr_log st') /\ tmp_clean st' /\
  wr_last_sequence st' = wr_last_sequence st +64 u64 (updates ops) /\
  exists h, insert_ops (live ign) ops (new_inserter seq (wr_db st)) = Ok tt h /\ wr_db st' = ins_db h.
Proof.
  intros (opss & Hws & ->) Hclean Hr Hs seq. unfold WriteImpl in Hr.
  apply bind_inv_ok in Hr as (ls & st1 & E & Hr). injection E as <- <-. rewrite (group_count_updates _ _ Hws) in Hr.
  apply bind_inv_ok in Hr as (ws1 & st1 & Hwal & Hr).
  destruct (WriteToWAL_spec _ _ _ _ _ _ Hws Hclean Hwal) as (Hadd & Hdb & Hls & (mx & ts & Ht) & Hws1).
  apply bind_inv_ok in Hr as ([s1 ws2] & st2 & Hz & Hr). apply bind_inv_ok in Hr as ([] & st3 & E & Hr). injection E as <-. injection Hr as <- <- <-.
  unfold zoom, InsertInto_group in Hz. fold seq in Hz.
  destruct (insert_group UpdateTimestamps depth (live ign) ws1 (new_inserter seq (wr_db st1))) as [[s2 ws3] h|? ?|] eqn:Hins;
    change (live ign) with (mkInserterOptions ign 0 false) in Hins; rewrite Hins in Hz; simplify_eq/=.
  split; [done|]. split; [by exists mx, ts|]. split; [done|]. exists h. rewrite <- Hdb. split; [|done].
  eapply insert_group_ops; [done|done| |done|done|done]. cbn [ins_sequence new_inserter]. unfold seq, u64, wrap. by rewrite Zmod_mod.
Qed.

(** Groups one after the other, all of them successful. *)
Definition write_groups (ign : bool) (gs : list (list Writer)) : M (WriteState T D C) unit :=
  forM gs (fun ws => let* (s, _) := WriteImpl UpdateTimestamps depth fuel ign ws in returnS s).

(** What the log holds of them, and what is in the memtables after each. *)
Inductive committed (ign : bool) : WriteState T D C -> list (list BatchOp) -> list bytes -> WriteState T D C -> Prop :=
| committed_nil st : committed ign st [] [] st
| committed_cons st ops st1 opss rs st2 h :
    let seq := wr_last_sequence st +64 1 in
    LogWriter_AddRecord fuel (batch_bytes seq ops) (wr_log st) = Ok tt (wr_log st1) ->
    insert_ops (live ign) ops (new_inserter seq (wr_db st)) = Ok tt h -> wr_db st1 = ins_db h ->
    wr_last_sequence st1 = wr_last_sequence st +64 u64 (updates ops) ->
    committed ign st1 opss rs st2 ->
    committed ign st (ops :: opss) (batch_bytes seq ops :: rs) st2.

Lemma write_groups_committed ign gs opss : Forall2 group_has gs opss -> forall st st', tmp_clean st ->
  write_groups ign gs st = Ok tt st' -> exists rs, length rs = length gs /\ committed ign st opss rs st' /\
    forall m, exists st_m, write_groups ign (take m gs) st = Ok tt st_m /\ committed ign st (take m opss) (take m rs) st_m.
Proof.
  induction 1 as [|ws ops gs opss Hw Hws IH]; intros st st' Hc Hr.
  { injection Hr as <-. exists []. split; [done|]. split; [constructor|]. intros m. exists st. rewrite !take_nil. by split; [|constructor]. }
  unfold write_groups in Hr. cbn [forM] in Hr. apply bind_inv_ok in Hr as ([] & st1 & Hr1 & Hr). pose proof Hr1 as Hr0.
  apply bind_inv_ok in Hr1 as ([s ws'] & st2 & Hi & Hs).
  assert (ok s = true /\ st2 = st1) as [Hok ->] by (unfold returnS in Hs; destruct (ok s); [by injection Hs as <-|done]).
  destruct (WriteImpl_spec _ _ _ _ _ _ _ Hw Hc Hi Hok) as (Hadd & Hc1 & Hls & h & Hh & Hdb).
  destruct (IH st1 st' Hc1 Hr) as (rs & Hlen & Hrs & Hpre). eexists (_ :: rs). split; [cbn; by rewrite Hlen|]. split; [by econstructor|].
  intros [|m]; [exists st; by split; [|constructor]|]. destruct (Hpre m) as (st_m & Hm & Hrm). exists st_m.
  split; [|by econstructor]. unfold write_groups. cbn [take forM]. by rewrite (bind_ok _ _ _ _ _ Hr0).
Qed.

Lemma committed_log ign st opss rs st' : committed ign st opss rs st' -> write_log fuel rs (wr_log st) = Ok tt (wr_log st').
Proof. induction 1 as [|st ops st1 opss rs st2 h seq Hadd _ _ _ _ IH]; [done|]. cbn [write_log]. by rewrite (bind_ok _ _ _ _ _ Hadd). Qed.

Lemma committed_sequence ign st opss rs st' : committed ign st opss rs st' ->
  0 <= wr_last_sequence st -> wr_last_sequence st + updates (concat opss) < 2 ^ 64 ->
  wr_last_sequence st' = wr_last_sequence st + updates (concat opss).
Proof.
  induction 1 as [|st ops st1 opss rs st2 h seq _ _ _ Hs _ IH]; intros Hpos Hb; [change (updates (concat [])) with 0; lia|].
  cbn [concat] in *. rewrite updates_app in *. assert (0 <= updates ops) by apply zlen_nonneg. assert (0 <= updates (concat opss)) by apply zlen_nonneg.
  rewrite (u64_small (updates ops)), u64_small in Hs by lia. rewrite IH; lia.
Qed.
End write.

(** ** Recovery *)

#[local] Existing Instance ProtectionInfoUpdater.
#[local] Instance ProtectionInfoUpdater_accepts : @Accepts _ ProtectionInfoUpdater.
Proof. split; [by eexists|]. intros o empty_batch l. destruct o; by eexists _, _. Qed.

Section recover.
Context {T D F C U : Type} `{MemTables T} {mt_spec : MemTablesSpec T} `{RecoverTables T} `{LogDest D} `{LogSource F} `{StreamingCompression C U}.
Context (UpdateTimestamps : (Z -> Z) -> bytes -> WriteBatch -> Status * WriteBatch).
Context (XXH3_64bits : bytes -> Z) (o : RecoverOptions) (depth rfuel : nat) (wal_number : Z).
(** No family is scheduled for a flush while the log is replayed. *)
Context (Hflush : read_only o = false -> forall n (t : T), rt_FlushScheduled n t = (OK, t)).
Implicit Types s : RecoverState T.

Definition replaying : InserterOptions := mkInserterOptions true wal_number (ro_allow_2pc o).

Lemma UpdateProtectionInfo_spec b seq ops s : rep_ b = batch_bytes seq ops -> Forall op_fits ops ->
  UpdateProtectionInfo XXH3_64bits b 8 (XXH3_64bits (rep_ b)) s = Ok OK s.
Proof.
  intros Hb Hf. unfold UpdateProtectionInfo. cbn [Z.eqb Pos.eqb]. rewrite (Iterate_replay b seq ops) by done.
  destruct (accept_replay ops true 0 []) as (n & l & Hr). unfold bind at 1. rewrite Hr. cbv beta iota. by rewrite Z.eqb_refl.
Qed.

(** The record of a group is inserted. *)
Lemma recover_record_spec seq ops h s :
  Forall op_fits ops -> Forall (fun op => plain op = true) ops -> rc_stop_replay_for_corruption s = false ->
  insert_ops replaying ops (new_inserter (u64 seq) (rc_db s)) = Ok tt h ->
  recover_record UpdateTimestamps XXH3_64bits o depth wal_number (batch_bytes seq ops) s =
  Ok true (mkRecoverState (ins_db h) (ins_sequence h) OK false (rc_corrupted_wal_number s) (rc_last_sequence s)).
Proof.
  intros Hf Hp Hstop Hins. unfold recover_record. pose proof (zlen_nonneg (encode_ops ops)).
  rewrite zlen_batch_bytes, (proj2 (Z.ltb_ge _ _)) by lia. cbv zeta.
  set (b := set_content_flags _ _). assert (Hb : rep_ b = batch_bytes seq ops) by done.
  rewrite <- Hb at 1. rewrite (bind_ok _ _ _ _ _ (UpdateProtectionInfo_spec b seq ops s Hb Hf)).
  set (s1 := set_rc_status OK s).
  assert (Hwhen : forall c, when c (modify (set_rc_stop false)) s1 = Ok tt s1).
  { intros [|]; [|done]. unfold when, modify, set_rc_stop. subst s1. destruct s. cbn in Hstop. by subst. }
  assert (Hi : zoom rc_db set_rc_db (InsertInto UpdateTimestamps depth (mkInserterOptions true wal_number (ro_allow_2pc o)) b) s1 =
    Ok (OK, ins_sequence h, has_valid_writes_ h) (set_rc_db (ins_db h) s1)).
  { unfold zoom, InsertInto. rewrite (Sequence_bytes _ _ _ Hb), (Iterate_plain _ _ depth b seq ops) by done.
    change (rc_db s1) with (rc_db s). change (mkInserterOptions true wal_number (ro_allow_2pc o)) with replaying. by rewrite Hins. }
  rewrite (bind_ok _ _ s tt s1) by done. rewrite (bind_ok _ _ s1 tt s1) by done. rewrite (bind_ok _ _ s1 s1 s1) by done.
  rewrite (bind_ok _ _ _ _ _ (Hwhen _)), (bind_ok _ _ s1 false s1) by (unfold gets; by rewrite <- Hstop).
  rewrite andb_false_r, (bind_ok _ _ _ _ _ Hi). cbv beta iota. unfold MaybeIgnoreError. change (ok OK) with true. cbn [orb negb].
  unfold bind, modify, get, returnS. change (ok OK) with true. cbv iota.
  assert (Hs1 : set_rc_status OK (set_rc_next (ins_sequence h) (set_rc_db (ins_db h) s1)) =
    mkRecoverState (ins_db h) (ins_sequence h) OK false (rc_corrupted_wal_number s) (rc_last_sequence s)) by (rewrite <- Hstop; done).
  rewrite Hs1. destruct (has_valid_writes_ h); [|done]. destruct (read_only o) eqn:Ero; cbn [andb negb]; [done|]. rewrite (Hflush eq_refl).
  cbn. by destruct (ins_db h).
Qed.

(** Reading at the end of the log: the status is what the reporter was told. *)
Lemma fold_reporter l s : Forall (fun e : Z * Status => exists m, e.2 = Corruption m) l ->
  exists e, fold_left (fun s rep => LogReporter_Corruption o rep.2 s) l s = set_rc_status e s /\
    (e = rc_status s \/ l <> [] /\ reporter_has_status o = true /\ exists m, e = Corruption m).
Proof.
  intros Hl. revert s. induction Hl as [|rep l (m & Hm) Hl IH]; intros s; cbn [fold_left]; [exists (rc_status s); split; [by destruct s|by left]|].
  destruct (IH (LogReporter_Corruption o rep.2 s)) as (e & -> & He).
  exists e. split; [unfold LogReporter_Corruption; by destruct (_ && _)|]. revert He. rewrite Hm. unfold LogReporter_Corruption.
  destruct (reporter_has_status o); cbn [andb]; [|intros [->|(_ & ? & _)]; [by left|done]].
  destruct (ok (rc_status s)); cbn [rc_status set_rc_status]; (intros [->|(_ & _ & ?)]; [|right; by split_and!]); [right; split_and!; eauto|by left].
Qed.

Abbreviation loop := (recover_loop (C := C) UpdateTimestamps XXH3_64bits o depth rfuel).

Lemma recover_loop_end n r r' s : LogReader_ReadRecord rfuel (wal_recovery_mode o) r = Ok None r' -> told r r' ->
  exists e, loop (S n) wal_number (s, r) = Ok tt (set_rc_status e s, r') /\
    (e = rc_status s \/ reported r' <> reported r /\ reporter_has_status o = true /\ exists m, e = Corruption m).
Proof.
  intros Hread (l & Hl & Hc). destruct (fold_reporter l s Hc) as (e & Hfold & He). exists e. split.
  - cbn [recover_loop]. unfold bind, read_record, get. rewrite Hread, Hl, drop_app_length, Hfold. done.
  - destruct He as [->|(Hne & He)]; [by left|right]. split; [|done]. rewrite Hl. intros E. apply Hne.
    apply (app_inv_head (reported r)). by rewrite app_nil_r.
Qed.

Lemma recover_loop_record n r d r1 s s1 :
  LogReader_ReadRecord rfuel (wal_recovery_mode o) r = Ok (Some d) r1 -> reported r1 = reported r -> ok (rc_status s) = true ->
  recover_record UpdateTimestamps XXH3_64bits o depth wal_number d s = Ok true s1 ->
  loop (S n) wal_number (s, r) = loop n wal_number (s1, r1).
Proof.
  intros Hread Hrep Hok Hrec. cbn [recover_loop]. unfold bind, read_record, get, zoom. rewrite Hread, Hrep, drop_all. cbn [fold_left fst snd].
  rewrite Hok. cbn [negb fst snd]. by rewrite Hrec.
Qed.

(** The sequence numbers after the replay of some groups. *)
Definition numbered (next next' last last' : Z) (opss : list (list BatchOp)) : Prop :=
  opss = [] /\ next' = next \/
  last + 1 <= next' <= last' + 1 /\ (Forall (fun op => is_range op = false) (concat opss) -> next' = last' + 1).

Lemma numbered_cons next next1 next2 last last1 last2 ops opss :
  numbered next next1 last last1 [ops] -> numbered next1 next2 last1 last2 opss -> last <= last1 -> (opss = [] -> last2 = last1) ->
  numbered next next2 last last2 (ops :: opss).
Proof.
  intros [[? _]|[H11 H12]] [[-> ->]|[H21 H22]] Hle Hnil; [done..| |]; right.
  - rewrite (Hnil eq_refl). done.
  - split; [lia|]. cbn [concat]. intros Hf. apply Forall_app in Hf as [_ Hf]. auto.
Qed.

(** The replay of a log inserts what the groups inserted. *)
Lemma recover_loop_spec fuel ign (st : WriteState T D C) opss rs st' : committed fuel ign st opss rs st' ->
  Forall (Forall op_fits) opss -> Forall (Forall (fun op => plain op = true)) opss ->
  (forall cf, mt_GetLogNumber cf (db_mem (wr_db st)) <= wal_number) ->
  0 <= wr_last_sequence st -> wr_last_sequence st + updates (concat opss) + 1 < kMaxSequenceNumber ->
  forall r r', reads rfuel (wal_recovery_mode o) r rs r' -> forall n s, (length rs < n)%nat ->
  rc_db s = wr_db st -> rc_stop_replay_for_corruption s = false -> ok (rc_status s) = true ->
  exists e next, loop n wal_number (s, r) =
      Ok tt (mkRecoverState (wr_db st') next e false (rc_corrupted_wal_number s) (rc_last_sequence s), r') /\
    (ok e = true \/ reported r' <> reported r /\ reporter_has_status o = true /\ exists m, e = Corruption m) /\
    numbered (rc_next_sequence s) next (wr_last_sequence st) (wr_last_sequence st') opss.
Proof.
  induction 1 as [st|st ops st1 opss rs st2 h seq Hadd Hins Hdb Hls Hc IH]; intros Hf Hp Hlog Hpos Hmax r r' Hreads n s Hn Hd Hstop Hok.
  - inversion Hreads as [? ? Hread Htold|]; subst. destruct n as [|n]; [cbn in Hn; lia|].
    destruct (recover_loop_end n r r' s Hread Htold) as (e & Hl & He). exists e, (rc_next_sequence s). rewrite Hl, <- Hd, <- Hstop.
    split; [done|]. split; [|by left]. destruct He as [->|?]; [by left|by right].
  - inversion Hreads as [|? ? r1 ? ? Hread Hrep Hreads1]; subst. destruct n as [|n]; [cbn in Hn; lia|].
    inversion_clear Hf as [|? ? Hf1 Hf2]. inversion_clear Hp as [|? ? Hp1 Hp2]. cbn [concat] in Hmax. rewrite updates_app in Hmax.
    assert (0 <= updates ops) by apply zlen_nonneg. assert (0 <= updates (concat opss)) by apply zlen_nonneg. unfold kMaxSequenceNumber in Hmax.
    assert (Hseq : seq = wr_last_sequence st + 1) by (unfold seq; rewrite u64_small; lia).
    rewrite (u64_small (updates ops)), u64_small in Hls by lia.
    destruct (insert_ops_sim (live ign) replaying eq_refl eq_refl ops (new_inserter seq (wr_db st)) h Hlog Hins) as [Hrec Hlog1].
    assert (Hu : seq = u64 seq) by (rewrite u64_small; lia).
    destruct (insert_ops_sequence (live ign) ops (new_inserter seq (wr_db st)) h eq_refl Hu Hins) as (_ & k & Hk & Hnext & Hall). cbn [ins_sequence new_inserter] in Hnext. rewrite u64_small in Hnext by lia.
    rewrite <- (u64_small seq), <- Hd in Hrec by lia. pose proof (recover_record_spec seq ops h s Hf1 Hp1 Hstop Hrec) as Hrr.
    rewrite (recover_loop_record n r _ r1 s _ Hread Hrep Hok Hrr).
    assert (Hlog2 : forall cf, mt_GetLogNumber cf (db_mem (wr_db st1)) <= wal_number) by (rewrite Hdb; exact Hlog1).
    destruct (IH Hf2 Hp2 Hlog2 ltac:(lia) ltac:(unfold kMaxSequenceNumber; lia) r1 r' Hreads1 n _ ltac:(cbn in Hn; lia) (eq_sym Hdb : rc_db (mkRecoverState _ (ins_sequence h) OK false (rc_corrupted_wal_number s) (rc_last_sequence s)) = _) eq_refl eq_refl)
      as (e & next & Hl & He & Hnum). exists e, next. split; [exact Hl|]. rewrite Hrep in He. split; [exact He|].
    eapply (numbered_cons _ (ins_sequence h)); [|exact Hnum|lia|].
    + right. cbn [concat]. rewrite app_nil_r. split; [lia|]. intros Hr. rewrite Hall in Hnext by done. lia.
    + intros ->. by inversion Hc.
Qed.

(** What becomes of the status when the log ends. *)
Lemma RecoverLogFiles_spec n (f : F) min_wal d last d' next e r' : min_wal <= wal_number -> (forall t : T, rt_families_ahead wal_number t = None) ->
  loop n wal_number (RecoverState_new d last, LogReader_new (U := U) f true wal_number) =
    Ok tt (mkRecoverState d' next e false kMaxSequenceNumber last, r') ->
  let quiet := reported r' = [] in
  (strict_mode (wal_recovery_mode o) = false -> quiet) ->
  (ok e = true \/ ~ quiet /\ reporter_has_status o = true /\ exists m, e = Corruption m) ->
  match RecoverLogFiles (C := C) UpdateTimestamps XXH3_64bits o depth rfuel n (fun _ => inr f) min_wal [wal_number] (RecoverState_new d last) with
  | Ok _ s => rc_db s = d' /\ rc_last_sequence s = if negb (next =? kMaxSequenceNumber) && (last <=? next -64 1) then next -64 1 else last
  | Err e _ => ~ quiet /\ wal_recovery_mode o = kAbsoluteConsistency /\ paranoid_checks o = true /\ exists m, e = Corruption m
  | Stuck _ => False
  end.
Proof.
  intros Hmin Hahead Hloop quiet Hstrict He. unfold RecoverLogFiles. cbn [forM]. rewrite (proj2 (Z.ltb_ge _ _)) by done.
  unfold recover_wal, publish_sequence, end_of_log, reporter_has_status in *. unfold bind, modify, gets, get.
  change (set_rc_status OK (RecoverState_new d last)) with (RecoverState_new d last). rewrite Hloop. cbn [rc_status].
  destruct (ok e) eqn:Ee.
  - unfold ret. cbn. destruct (negb (next =? kMaxSequenceNumber) && (last <=? next -64 1)); cbn; by destruct (wal_recovery_mode o).
  - destruct He as [?|(Hq & Hp & m & ->)]; [done|]. apply andb_true_iff in Hp as [Hpar Hskip].
    destruct (wal_recovery_mode o); [by destruct Hq; apply Hstrict| | |done].
    + split_and!; [done..|by exists m].
    + change (IsNotSupported (Corruption m)) with false. change (IsIOError (Corruption m)) with false. unfold ret. cbn.
      destruct (negb (next =? kMaxSequenceNumber) && (last <=? next -64 1)); cbn; by rewrite Hahead.
Qed.
End recover.

(** ** The database after a crash *)

Lemma committed_lengths {T D C U} `{MemTables T} `{LogDest D} `{StreamingCompression C U} fuel ign (st : WriteState T D C) opss rs st' :
  committed fuel ign st opss rs st' -> Forall (fun ops => (length (batch_bytes 0 ops) + 2 <= fuel)%nat) opss ->
  Forall (fun r => (length r + 2 <= fuel)%nat) rs.
Proof.
  induction 1 as [|st ops st1 opss rs st2 h seq _ _ _ _ _ IH]; intros Hl; [done|]. inversion_clear Hl as [|? ? Hl1 Hl2].
  constructor; [|by apply IH]. revert Hl1. unfold batch_bytes. by rewrite !length_app, !length_le_split.
Qed.

Lemma group_has_fits ws ops : group_has ws ops -> Forall op_fits ops /\ Forall (fun op => plain op = true) ops.
Proof.
  intros (opss & Hws & ->). induction Hws as [|w ops ws opss Hw Hws [IH1 IH2]]; [done|]. cbn [concat]. unfold writer_has in Hw.
  destruct (w_CallbackFailed w); [by subst|]. split; apply Forall_app_2; tauto.
Qed.
Lemma groups_fit gs opss : Forall2 group_has gs opss -> Forall (Forall op_fits) opss /\ Forall (Forall (fun op => plain op = true)) opss.
Proof.
  induction 1 as [|ws ops gs opss Hg Hgs [IH1 IH2]]; [done|]. destruct (group_has_fits _ _ Hg). by split; constructor.
Qed.

(** The sequence number that the recovery publishes. *)
Lemma published next last last' opss : 0 <= last <= last' -> last' + 1 < kMaxSequenceNumber -> (opss = [] -> last' = last) ->
  numbered kMaxSequenceNumber next last last' opss ->
  let seq := if negb (next =? kMaxSequenceNumber) && (last <=? next -64 1) then next -64 1 else last in
  last <= seq <= last' /\ (Forall (fun op => is_range op = false) (concat opss) -> seq = last').
Proof.
  unfold kMaxSequenceNumber. intros Hl Hmax Hnil [[He ->]|[Hn Hall]].
  - rewrite Z.eqb_refl. cbn [negb andb]. rewrite (Hnil He). split; [lia|done].
  - rewrite (proj2 (Z.eqb_neq _ _)) by lia. cbn [negb andb]. rewrite u64_small by lia. rewrite (proj2 (Z.leb_le _ _)) by lia.
    split; [lia|]. intros Hr. rewrite Hall by done. lia.
Qed.


(** ** A small database *)

(** One family; the memtable is the list of what was added. *)
#[export] Instance list_tables : MemTables (list (Z * Z * bytes * bytes)) := {|
  mt_Seek cf _ := cf =? 0; mt_GetLogNumber _ _ := 5; mt_timestamp_size _ _ := 0; mt_merge_operator _ _ := false;
  mt_is_delete_range_supported _ _ := true; mt_table_name _ _ := "BlockBasedTable";
  mt_CompareWithoutTimestamp _ _ a b := zlen a - zlen b;
  mt_Add _ seq type k v t := (OK, t ++ [(seq, type, k, v)]); mt_CheckMemtableFull _ t := t; mt_RefLogContainingPrepSection _ _ t := t |}.
#[export] Instance list_tables_spec : MemTablesSpec (list (Z * Z * bytes * bytes)).
Proof. by split. Qed.
#[export] Instance list_recover : RecoverTables (list (Z * Z * bytes * bytes)) := {|
  rt_FlushScheduled _ t := (OK, t); rt_families_ahead _ _ := None |}.

Definition demo_writer (ops : list BatchOp) : Writer :=
  mkWriter (set_content_flags (ops_flags ops) (set_rep (batch_bytes 0 ops) (WriteBatch_new 0 0))) false false 0 0 OK.
Definition demo_groups : list (list (list BatchOp)) := [[[BPut 0 [Byte.x61] [Byte.x31]]; [BDelete 0 [Byte.x62]]]; [[BPut 0 [Byte.x63] []]]].
Definition demo_start : WriteState (list (Z * Z * bytes * bytes)) bytes unit :=
  mkWriteState (mkDb [] [] [] []) (LogWriter_new [] 7 false false 0) (WriteBatch_new 0 0) 4 0 true None.
Definition demo_write (gs : list (list (list BatchOp))) : result (WriteState (list (Z * Z * bytes * bytes)) bytes unit) unit :=
  write_groups (fun _ _ b => (OK, b)) 1 60 false (map (map demo_writer) gs) demo_start.
Definition demo_log : bytes := match demo_write demo_groups with Ok _ st => dest_ (wr_log st) | _ => [] end.

Lemma demo_groups_have : Forall2 group_has (map (map demo_writer) demo_groups) (map (@concat _) demo_groups).
Proof.
  repeat constructor; (eexists; split; [|reflexivity]); repeat constructor; cbn; try done; try (by exists 0); by repeat constructor.
Qed.

Lemma demo_runs : match demo_write demo_groups with Ok _ st => zlen (dest_ (wr_log st)) = 50 | _ => False end.
Proof. vm_compute. reflexivity. Qed.

Lemma demo_written : exists st,
  write_groups (fun _ _ b => (OK, b)) 1 60 false (map (map demo_writer) demo_groups) demo_start = Ok tt st /\
  demo_log = dest_ (wr_log st) /\ zlen (dest_ (wr_log st)) = 50.
Proof.
  unfold demo_log. generalize demo_runs. unfold demo_write. generalize (write_groups (fun _ _ b => (OK, b)) 1 60 false (map (map demo_writer) demo_groups) demo_start).
  intros [[] st| |] Hr; [|done..]. by exists st.
Qed.
Lemma demo_sizes : Forall (fun ops => (length (batch_bytes 0 ops) + 2 <= 60)%nat) (map (@concat _) demo_groups).
Proof. repeat constructor; vm_compute; lia. Qed.
Lemma demo_updates : 4 + updates (concat (map (@concat _) demo_groups)) + 1 < kMaxSequenceNumber.
Proof. vm_compute. reflexivity. Qed.



