(* ===== verification/ZenFS.v ===== *)
(** * The file system: state and journal

    [class ZenFS] (fs_zenfs.h, fs_zenfs.cc): the table of files, the references
    that keep file objects alive, and the journal: the records that describe
    changes of the files, rolling to a new metadata zone, and the recovery of
    the table from the records of a zone.  The operations on names and the
    mounting are in ZenFSOps.v. *)

From stdpp Require Import sorting.
From S2P Require Import Prelude Status Coding Device MemDevice Zone Zbd Superblock MetaLog ZoneFile Paths.

(** ** State *)

#[export] Instance byte_countable : Countable byte.
Proof.
  refine (inj_countable Byte.to_N Byte.of_N _). intros b. apply Byte.of_to_N.
Defined.

(** The interface of the auxiliary file system, [target()]. *)
Class AuxFileSystem (A : Type) := {
  aux_DeleteFile : bytes -> A -> IOStatus * A;
  aux_RenameFile : bytes -> bytes -> A -> IOStatus * A;
  aux_LinkFile : bytes -> bytes -> A -> IOStatus * A;
  aux_CreateDirIfMissing : bytes -> A -> IOStatus * A;
  aux_CreateDir : bytes -> A -> IOStatus * A;
  aux_DeleteDir : bytes -> A -> IOStatus * A;
  aux_FileExists : bytes -> A -> IOStatus;
  aux_GetChildren : bytes -> A -> IOStatus * list bytes;
  aux_IsDirectory : bytes -> A -> IOStatus * bool;
  aux_GetFileSize : bytes -> A -> IOStatus * Z;
  aux_GetFileModificationTime : bytes -> A -> IOStatus * Z;
  aux_NumFileLinks : bytes -> A -> IOStatus * Z;
  aux_AreFilesSame : bytes -> bytes -> A -> IOStatus * bool
}.

(** File objects live in [objs] at the address their [shared_ptr]s hold.  The
    references are the values of [files_] and, for readers, writers and local
    variables, the addresses in [refs].  The clock gives what each call of
    [time(0)] returns. *)
Record ZenFS (D L A : Type) := mkZenFS {
  zbd_ : Zbd D;
  files_ : gmap bytes nat;
  next_file_id_ : Z;
  meta_log_ : option ZenMetaLog;
  superblock_ : option Superblock;
  run_gc_worker_ : bool;
  aux_fs : A;
  objs : gmap nat (ZoneFile L);
  refs : list nat;
  next_obj : nat;
  clock : nat -> Z;
  ticks : nat
}.
Arguments mkZenFS {D L A}.
Arguments zbd_ {D L A}. Arguments files_ {D L A}. Arguments next_file_id_ {D L A}.
Arguments meta_log_ {D L A}. Arguments superblock_ {D L A}. Arguments run_gc_worker_ {D L A}.
Arguments aux_fs {D L A}. Arguments objs {D L A}. Arguments refs {D L A}.
Arguments next_obj {D L A}. Arguments clock {D L A}. Arguments ticks {D L A}.

Section zenfs_setters.
Context {D L A : Type}.
Implicit Types s : ZenFS D L A.

Definition set_zbd x s : ZenFS D L A := mkZenFS x (files_ s) (next_file_id_ s) (meta_log_ s) (superblock_ s)
  (run_gc_worker_ s) (aux_fs s) (objs s) (refs s) (next_obj s) (clock s) (ticks s).
Definition set_files x s : ZenFS D L A := mkZenFS (zbd_ s) x (next_file_id_ s) (meta_log_ s) (superblock_ s)
  (run_gc_worker_ s) (aux_fs s) (objs s) (refs s) (next_obj s) (clock s) (ticks s).
Definition set_next_file_id x s : ZenFS D L A := mkZenFS (zbd_ s) (files_ s) x (meta_log_ s) (superblock_ s)
  (run_gc_worker_ s) (aux_fs s) (objs s) (refs s) (next_obj s) (clock s) (ticks s).
Definition set_meta_log x s : ZenFS D L A := mkZenFS (zbd_ s) (files_ s) (next_file_id_ s) x (superblock_ s)
  (run_gc_worker_ s) (aux_fs s) (objs s) (refs s) (next_obj s) (clock s) (ticks s).
Definition set_superblock x s : ZenFS D L A := mkZenFS (zbd_ s) (files_ s) (next_file_id_ s) (meta_log_ s) x
  (run_gc_worker_ s) (aux_fs s) (objs s) (refs s) (next_obj s) (clock s) (ticks s).
Definition set_run_gc_worker x s : ZenFS D L A := mkZenFS (zbd_ s) (files_ s) (next_file_id_ s) (meta_log_ s)
  (superblock_ s) x (aux_fs s) (objs s) (refs s) (next_obj s) (clock s) (ticks s).
Definition set_aux_fs x s : ZenFS D L A := mkZenFS (zbd_ s) (files_ s) (next_file_id_ s) (meta_log_ s)
  (superblock_ s) (run_gc_worker_ s) x (objs s) (refs s) (next_obj s) (clock s) (ticks s).
Definition set_objs x s : ZenFS D L A := mkZenFS (zbd_ s) (files_ s) (next_file_id_ s) (meta_log_ s)
  (superblock_ s) (run_gc_worker_ s) (aux_fs s) x (refs s) (next_obj s) (clock s) (ticks s).
Definition set_refs x s : ZenFS D L A := mkZenFS (zbd_ s) (files_ s) (next_file_id_ s) (meta_log_ s)
  (superblock_ s) (run_gc_worker_ s) (aux_fs s) (objs s) x (next_obj s) (clock s) (ticks s).
Definition set_next_obj x s : ZenFS D L A := mkZenFS (zbd_ s) (files_ s) (next_file_id_ s) (meta_log_ s)
  (superblock_ s) (run_gc_worker_ s) (aux_fs s) (objs s) (refs s) x (clock s) (ticks s).
Definition set_ticks x s : ZenFS D L A := mkZenFS (zbd_ s) (files_ s) (next_file_id_ s) (meta_log_ s)
  (superblock_ s) (run_gc_worker_ s) (aux_fs s) (objs s) (refs s) (next_obj s) (clock s) x.
End zenfs_setters.

(** The order of [std::map<std::string, ...>]. *)
Fixpoint bytes_leb (a b : bytes) : bool :=
  match a, b with
  | [], _ => true
  | _ :: _, [] => false
  | x :: a', y :: b' =>
      let x := byte.unsigned x in
      let y := byte.unsigned y in
      (x <? y) || ((x =? y) && bytes_leb a' b')
  end.
Definition name_le (p q : bytes * nat) : Prop := bytes_leb p.1 q.1 = true.
#[export] Instance name_le_dec : RelDecision name_le.
Proof. intros p q. unfold name_le. apply _. Defined.

(** The entries in the order of an iteration. *)
Definition entries (m : gmap bytes nat) : list (bytes * nat) := merge_sort name_le (map_to_list m).

(** [ZenFSTag] *)
Definition kCompleteFilesSnapshot : Z := 1.
Definition kFileUpdate : Z := 2.
Definition kFileDeletion : Z := 3.
Definition kEndRecord : Z := 4.
Definition kFileReplace : Z := 5.

Section zenfs.
Context {D L A : Type} `{be : ZonedBlockDeviceBackend D L} {szd : SZDOnceLog D L}
  {cfg : BuildConfig} {aux : AuxFileSystem A}.
Abbreviation FS := (ZenFS D L A).
Abbreviation ZM := (M (ZenFS D L A)).

(** [ZenFS(zbd, aux_fs, logger)] *)
Definition ZenFS_new (zbd : Zbd D) (fs : A) (clock : nat -> Z) : FS :=
  mkZenFS zbd ∅ 1 None None false fs ∅ [] 0 clock 0.

(** ** Components of the state *)

Definition on_device {B} (m : M (Zbd D) B) : ZM B := zoom zbd_ set_zbd m.
Definition on_aux (f : A -> IOStatus * A) : ZM unit :=
  s <- get ;;
  let '(st, a) := f (aux_fs s) in
  modify (set_aux_fs a) ;; returnS st.
(** A query of the auxiliary file system. *)
Definition ask_aux {B} (f : A -> IOStatus * B) : ZM B :=
  s <- get ;;
  let '(st, b) := f (aux_fs s) in
  returnS st ;; ret b.

(** [time(0)] *)
Definition time0 : ZM Z :=
  s <- get ;; modify (set_ticks (S (ticks s))) ;; ret (clock s (ticks s)).

Definition file_of (o : nat) : ZM (ZoneFile L) := s <- get ;; deref (objs s !! o).
Definition mod_obj (o : nat) (g : ZoneFile L -> ZoneFile L) : ZM unit :=
  f <- file_of o ;; modify (fun s => set_objs (<[o := g f]> (objs s)) s).

(** A method of the file [o] runs on the file and the device; through the
    metadata writer it reaches the rest, which is its context. *)
Definition unpack (t : FSt D L (nat * FS)) : FS :=
  let '(o, s) := f_ctx t in set_zbd (f_zbd t) (set_objs (<[o := f_file t]> (objs s)) s).
Definition on_obj {B} (o : nat) (m : M (FSt D L (nat * FS)) B) : ZM B := fun s =>
  match objs s !! o with
  | None => Stuck Undefined
  | Some f =>
      match m (mkFSt (zbd_ s) f [] (o, s)) with
      | Ok a t => Ok a (unpack t)
      | Err e t => Err e (unpack t)
      | Stuck w => Stuck w
      end
  end.

(** [files_.insert]: keeps an entry that is there. *)
Definition files_insert (name : bytes) (o : nat) : ZM unit :=
  modify (fun s => match files_ s !! name with
                   | Some _ => s
                   | None => set_files (<[name := o]> (files_ s)) s
                   end).
Definition files_erase (name : bytes) : ZM unit :=
  modify (fun s => set_files (base.delete name (files_ s)) s).

(** ** References *)

Definition add_ref (o : nat) : ZM unit := modify (fun s => set_refs (o :: refs s) s).

Fixpoint remove_first (o : nat) (l : list nat) : list nat :=
  match l with
  | [] => []
  | x :: l' => if decide (x = o) then l' else x :: remove_first o l'
  end.

Definition referenced (o : nat) (s : FS) : bool :=
  bool_decide (o ∈ refs s) || existsb (fun p => bool_decide (p.2 = o)) (map_to_list (files_ s)).

(** The destructor runs when the last reference is gone. *)
Definition collect (o : nat) : ZM unit :=
  s <- get ;;
  if referenced o s then ret tt
  else on_obj o ZoneFile_delete ;; modify (fun s => set_objs (base.delete o (objs s)) s).
Definition drop_ref (o : nat) : ZM unit :=
  modify (fun s => set_refs (remove_first o (refs s)) s) ;; collect o.

(** Runs [m] while a local [shared_ptr] refers to [o]. *)
Definition with_ref {B} (o : nat) (m : ZM B) : ZM B :=
  add_ref o ;;
  r <- attempt m ;;
  drop_ref o ;;
  match r with inl e => fail e | inr b => ret b end.

(** [new ZoneFile(zbd_, id, &metadata_writer_)] *)
Definition new_file (id : Z) : ZM nat :=
  s <- get ;;
  let o := next_obj s in
  modify (fun s => set_next_obj (S o) (set_objs (<[o := ZoneFile_new id]> (objs s)) s)) ;;
  ret o.

Definition ClearFiles : ZM unit :=
  s <- get ;;
  forM (entries (files_ s)) (fun p => files_erase p.1 ;; collect p.2).

(** ** Writing the journal *)

Definition ZenFS_EncodeSnapshotTo : ZM bytes :=
  s <- get ;;
  files_string <- foldM (fun acc p =>
    f <- file_of p.2 ;; ret (PutLengthPrefixedSlice acc (EncodeSnapshotTo [] f))) []
    (entries (files_ s)) ;;
  ret (PutLengthPrefixedSlice (PutFixed32 [] kCompleteFilesSnapshot) files_string).

Definition WriteSnapshotLocked (meta_log : ZenMetaLog) : ZM unit :=
  snapshot <- ZenFS_EncodeSnapshotTo ;;
  on_device (AddRecord (ml_zone_ meta_log) snapshot) ;;
  s <- get ;;
  forM (entries (files_ s)) (fun p => mod_obj p.2 MetadataSynced).

Definition WriteEndRecord (meta_log : ZenMetaLog) : ZM unit :=
  on_device (AddRecord (ml_zone_ meta_log) (PutFixed32 [] kEndRecord)).

(** The destructor of a [ZenMetaLog]. *)
Definition close_log (log : ZenMetaLog) : ZM unit := on_device (Release (ml_zone_ log)) ;; ret tt.

Definition RollMetaZoneLocked : ZM unit :=
  new_meta_zone <- on_device AllocateMetaZone ;;
  new_meta_log <- on_device (ZenMetaLog_new new_meta_zone) ;;
  s <- get ;;
  let old := meta_log_ s in
  modify (set_meta_log (Some new_meta_log)) ;;
  old_meta_log <- deref old ;;
  zn <- on_device (get_zone (ml_zone_ old_meta_log)) ;;
  when (negb (GetCapacityLeft zn =? 0)) (attempt (WriteEndRecord old_meta_log) ;; ret tt) ;;
  zn <- on_device (get_zone (ml_zone_ old_meta_log)) ;;
  when (negb (GetCapacityLeft zn =? 0))
    (attempt (on_device (Zone_Finish (ml_zone_ old_meta_log))) ;; ret tt) ;;
  s <- get ;;
  sb <- deref (superblock_ s) ;;
  let '(super_string, sb) := Superblock_EncodeTo sb in
  modify (set_superblock (Some sb)) ;;
  r <- attempt (on_device (AddRecord (ml_zone_ new_meta_log) super_string)) ;;
  match r with
  | inl _ => close_log old_meta_log ;; fail (IOError "Failed writing a new superblock")
  | inr _ =>
      r <- attempt (WriteSnapshotLocked new_meta_log) ;;
      when (ok (status_of r)) (attempt (on_device (Zone_Reset (ml_zone_ old_meta_log))) ;; ret tt) ;;
      close_log old_meta_log ;;
      returnS (status_of r)
  end.

(** [s == IOStatus::NoSpace()] holds of every I/O error. *)
Definition or_roll (m : ZM unit) : ZM unit :=
  r <- attempt m ;;
  match r with
  | inl s => if Status_eqb s (NoSpace "") then RollMetaZoneLocked else fail s
  | inr _ => ret tt
  end.

Definition PersistSnapshot (meta_writer : ZenMetaLog) : ZM unit :=
  or_roll (WriteSnapshotLocked meta_writer).

Definition PersistRecord (record : bytes) : ZM unit :=
  s <- get ;;
  log <- deref (meta_log_ s) ;;
  or_roll (on_device (AddRecord (ml_zone_ log) record)).

Definition SyncFileMetadataNoLock (o : nat) (replace : bool) : ZM unit :=
  f <- file_of o ;;
  if is_deleted_ f then deref (head (linkfiles_ f)) ;; ret tt else
  (if replace then ret tt else t <- time0 ;; mod_obj o (set_m_time t)) ;;
  f <- file_of o ;;
  let output := PutFixed32 [] (if replace then kFileReplace else kFileUpdate) in
  PersistRecord (PutLengthPrefixedSlice output (EncodeUpdateTo [] f)) ;;
  mod_obj o MetadataSynced.

Definition SyncFileMetadata := SyncFileMetadataNoLock.

(** [ZenFSMetadataWriter::Persist]; it looks at the first link for its message. *)
#[export] Instance ZenFSMetadataWriter : MetadataWriter D L (nat * FS) := {|
  Persist := GetFilename ;; fun t =>
    let o := (f_ctx t).1 in
    let repack s :=
      match objs s !! o with
      | Some f => Some (mkFSt (zbd_ s) f (f_buf t) (o, s))
      | None => None
      end in
    match SyncFileMetadata o false (unpack t) with
    | Ok _ s => match repack s with Some t' => Ok tt t' | None => Stuck Undefined end
    | Err e s => match repack s with Some t' => Err e t' | None => Stuck Undefined end
    | Stuck w => Stuck w
    end
|}.

Definition SyncFileExtents (o : nat) (new_extents : list ZoneExtent) : ZM unit :=
  f <- file_of o ;;
  let old_extents := extents_ f in
  mod_obj o (fun f => MetadataUnsynced (set_extents new_extents f)) ;;
  SyncFileMetadata o true ;;
  forM (imap pair new_extents) (fun p =>
    old_ext <- deref (old_extents !! p.1) ;;
    when (negb (e_start_ old_ext =? e_start_ p.2))
      (on_device (sub_used (e_zone_ old_ext) (e_length_ old_ext)))).

Definition EncodeFileDeletionTo (id : Z) (linkf : bytes) : bytes :=
  PutLengthPrefixedSlice (PutFixed32 [] kFileDeletion)
    (PutLengthPrefixedSlice (PutFixed64 [] id) linkf).

(** ** Reading the journal *)

(** [if (id >= next_file_id_) next_file_id_ = id + 1;] *)
Definition bump_file_id (id : Z) : ZM unit :=
  modify (fun s => if next_file_id_ s <=? id then set_next_file_id (id +64 1) s else s).

(** The first file of the iteration with this id. *)
Fixpoint find_by_id (id : Z) (l : list (bytes * nat)) : ZM (option nat) :=
  match l with
  | [] => ret None
  | p :: l' =>
      f <- file_of p.2 ;;
      if id =? file_id_ f then ret (Some p.2) else find_by_id id l'
  end.

(** The update object is destroyed with its last reference, here at the end. *)
Definition DecodeFileUpdateFrom (slice : bytes) (replace : bool) : ZM unit :=
  o <- new_file 0 ;;
  with_ref o (
    on_obj o (DecodeFrom slice) ;;
    update <- file_of o ;;
    bump_file_id (file_id_ update) ;;
    s <- get ;;
    found <- find_by_id (file_id_ update) (entries (files_ s)) ;;
    match found with
    | Some z =>
        with_ref z (
          f <- file_of z ;;
          forM (linkfiles_ f) (fun name =>
            s <- get ;;
            match files_ s !! name with
            | Some _ => files_erase name
            | None => fail (Corruption "DecodeFileUpdateFrom: missing link file")
            end) ;;
          on_obj z (MergeUpdate update replace) ;;
          f <- file_of z ;;
          forM (linkfiles_ f) (fun name => files_insert name z))
    | None =>
        name <- deref (head (linkfiles_ update)) ;;
        files_insert name o
    end).

(** [while (GetLengthPrefixedSlice(input, &slice))]; a slice takes at least the
    byte of its length. *)
Fixpoint DecodeSnapshotFrom_loop (n : nat) (input : bytes) : ZM unit :=
  match GetLengthPrefixedSlice input with
  | (None, _) => ret tt
  | (Some slice, input) =>
      match n with
      | O => stuckM OutOfFuel
      | S n' =>
          o <- new_file 0 ;;
          with_ref o (
            on_obj o (DecodeFrom slice) ;;
            f <- file_of o ;;
            bump_file_id (file_id_ f) ;;
            forM (linkfiles_ f) (fun name => files_insert name o)) ;;
          DecodeSnapshotFrom_loop n' input
      end
  end.
Definition DecodeSnapshotFrom (input : bytes) : ZM unit :=
  DecodeSnapshotFrom_loop (length input) input.

Definition DecodeFileDeletionFrom (input : bytes) : ZM unit :=
  match GetFixed64 input with
  | None => fail (Corruption "Zone file deletion: file id missing")
  | Some (fileID, input) =>
      match GetLengthPrefixedSlice input with
      | (None, _) => fail (Corruption "Zone file deletion: file name missing")
      | (Some fileName, _) =>
          s <- get ;;
          match files_ s !! fileName with
          | None => fail (Corruption "Zone file deletion: no such file")
          | Some o =>
              with_ref o (
                f <- file_of o ;;
                if negb (file_id_ f =? fileID)
                then fail (Corruption "Zone file deletion: file ID missmatch") else
                files_erase fileName ;;
                r <- attempt (on_obj o (RemoveLinkName fileName)) ;;
                match r with
                | inl _ => fail (Corruption "Zone file deletion: file links missmatch")
                | inr _ => ret tt
                end)
          end
      end
  end.

(** [log->ReadRecord(&record, &scratch)]: the status or the record, and the log. *)
Definition read_record (log : ZenMetaLog) : ZM ((Status + bytes) * ZenMetaLog) := fun s =>
  match ReadRecord (zbd_ s, log) with
  | Ok r (z, log') => Ok (inr r, log') (set_zbd z s)
  | Err e (z, log') => Ok (inl e, log') (set_zbd z s)
  | Stuck w => Stuck w
  end.

(** The body of the [switch]; tells whether the record was a snapshot. *)
Definition apply_record (tag : Z) (data : bytes) : ZM bool :=
  if tag =? kCompleteFilesSnapshot then ClearFiles ;; DecodeSnapshotFrom data ;; ret true
  else if tag =? kFileUpdate then DecodeFileUpdateFrom data false ;; ret false
  else if tag =? kFileReplace then DecodeFileUpdateFrom data true ;; ret false
  else if tag =? kFileDeletion then DecodeFileDeletionFrom data ;; ret false
  else fail (Corruption "ZenFS: Unexpected tag").

(** [while (!done)] *)
Fixpoint RecoverFrom_loop (n : nat) (log : ZenMetaLog) (at_least_one_snapshot : bool) : ZM bool :=
  match n with
  | O => stuckM OutOfFuel
  | S n' =>
      let* (rs, log) := read_record log in
      match rs with
      | inl _ => fail (Corruption "ZenFS: Metadata corruption")
      | inr record =>
          match GetFixed32 record with
          | None => ret at_least_one_snapshot
          | Some (tag, record) =>
              if tag =? kEndRecord then ret at_least_one_snapshot else
              match GetLengthPrefixedSlice record with
              | (None, _) => fail (Corruption "ZenFS: No recovery record data")
              | (Some data, _) =>
                  snap <- apply_record tag data ;;
                  RecoverFrom_loop n' log (at_least_one_snapshot || snap)
              end
          end
      end
  end.
Definition RecoverFrom (log : ZenMetaLog) : ZM unit :=
  snap <- RecoverFrom_loop loop_bound log false ;;
  if (snap : bool) then ret tt else fail (NotFound "ZenFS: No snapshot found").
End zenfs.
