(* ===== verification/ZenFSTerm.v ===== *)
(** * Recovery terminates

    The loops of mounting run over untrusted data: the records of a metadata zone
    and the fields inside them.  Whatever the zone holds, they end: every round
    consumes a tag, a slice or a record, and a record leads to a position of the
    zone behind it. *)

From S2P Require Import Prelude Status Coding Device MemDevice Zone Zbd Superblock MetaLog ZoneFile ZoneFileProps Paths ZenFS.

(** ** Slices get shorter *)

Lemma GetLengthPrefixedSlice_shorter input value rest :
  GetLengthPrefixedSlice input = (value, rest) ->
  (length rest <= length input)%nat /\ (is_Some value -> (length rest < length input)%nat).
Proof.
  unfold GetLengthPrefixedSlice, GetVarint32. rewrite GetVarint32Ptr_fallback.
  destruct (GetVarint32PtrFallback input) as [[len r]|] eqn:E.
  - apply GetVarintPtr_loop_bounds in E as (_ & c & pre & -> & _); [|lia..].
    cbn [length]. rewrite length_app. case_decide; intros [= <- <-].
    + unfold zdrop. rewrite length_drop. split; [lia|]. intros _. lia.
    + split; [lia|]. by intros [? ?].
  - intros [= <- <-]. split; [lia|]. by intros [? ?].
Qed.

Lemma GetFixed32_shorter input v rest : GetFixed32 input = Some (v, rest) -> (length rest < length input)%nat.
Proof. unfold GetFixed32. case_decide; intros [= <- <-]. rewrite length_drop. unfold zlen in *. lia. Qed.
Lemma GetFixed64_shorter input v rest : GetFixed64 input = Some (v, rest) -> (length rest < length input)%nat.
Proof. unfold GetFixed64. case_decide; intros [= <- <-]. rewrite length_drop. unfold zlen in *. lia. Qed.

(** ** The device *)

(** Where a zone is and how far it is written. *)
Definition zone_key (zn : Zone) : Z * Z * Z := (start_ zn, wp_ zn, max_capacity_ zn).

Section dev.
Context {D L : Type} `{be : ZonedBlockDeviceBackend D L} {szd : SZDOnceLog D L}.
Context (z : nat) (c : option (Z * Z * Z)).
Definition keyed (s : Zbd D) : Prop := zone_key <$> zone_heap s !! z = c.
Abbreviation K := keyed.

Lemma stops_get_zone y : stops K (get_zone y).
Proof. unfold get_zone. stops_solve. Qed.
Lemma stops_mod_zone y f : (forall zn, zone_key (f zn) = zone_key zn) -> stops K (mod_zone y f).
Proof.
  intros Hf s Hs. unfold mod_zone, bind, get_zone, get, deref, bind.
  destruct (zone_heap s !! y) as [zn|] eqn:Hy; [|done]. cbn. split; [|done]. unfold keyed in *. cbn.
  destruct (decide (y = z)) as [->|Hne].
  - rewrite lookup_insert_eq. rewrite Hy in Hs. cbn in *. by rewrite Hf.
  - by rewrite lookup_insert_ne.
Qed.
Lemma stops_with_be {A} (f : D -> A * D) : stops K (with_be (call f)).
Proof. intros s Hs. unfold with_be, zoom, call. by destruct (f (zbd_be_ s)). Qed.
Hint Resolve stops_get_zone stops_with_be : stops.

Lemma stops_add_used y n : stops K (add_used y n).
Proof. by apply stops_mod_zone. Qed.
Lemma stops_sub_used y n : stops K (sub_used y n).
Proof. by apply stops_mod_zone. Qed.
Lemma stops_find_zone zs off : stops K (find_zone zs off).
Proof. induction zs as [|y zs IH]; cbn [find_zone]; stops_solve. Qed.
Hint Resolve stops_find_zone : stops.
Lemma stops_GetIOZone off : stops K (GetIOZone off).
Proof. unfold GetIOZone. stops_solve. Qed.
Lemma stops_next_channel : stops K next_channel.
Proof. unfold next_channel. stops_solve. by apply stops_modify. Qed.
Hint Resolve stops_next_channel : stops.
Lemma stops_GetWAL off : stops K (GetWAL off).
Proof.
  assert (forall idxs, stops K (GetWAL_loop idxs off)) as H.
  { induction idxs as [|i idxs IH]; cbn [GetWAL_loop]; unfold new_wal; stops_solve. }
  unfold GetWAL. stops_solve.
Qed.
End dev.
#[export] Hint Resolve stops_get_zone stops_with_be stops_add_used stops_sub_used stops_GetIOZone stops_GetWAL : stops.

(** ** Files *)

Section files.
Context {D L X : Type} `{be : ZonedBlockDeviceBackend D L} {szd : SZDOnceLog D L} {cfg : BuildConfig}.
Context (z : nat) (c : option (Z * Z * Z)).
Definition fkeyed (t : FSt D L X) : Prop := keyed z c (f_zbd t).
Abbreviation K := fkeyed.

Lemma stops_on_dev {A} (m : M (Zbd D) A) : stops (keyed z c) m -> stops K (on_dev m).
Proof. intros Hm t Ht. unfold on_dev, zoom. specialize (Hm (f_zbd t) Ht). by destruct (m (f_zbd t)). Qed.
Lemma stops_get_file : stops K get_file.
Proof. apply stops_gets. Qed.
Lemma stops_mod_file g : stops K (mod_file g).
Proof. by apply stops_modify. Qed.
Lemma stops_push_extent e : stops K (push_extent e).
Proof. apply stops_mod_file. Qed.
Hint Resolve stops_on_dev stops_get_file stops_mod_file stops_push_extent : stops.

Lemma stops_wal_call g : stops K (wal_call g).
Proof. unfold wal_call. stops_solve. Qed.
Hint Resolve stops_wal_call : stops.
Lemma stops_ClearExtents : stops K ClearExtents.
Proof. unfold ClearExtents. stops_solve. Qed.
Hint Resolve stops_ClearExtents : stops.
Lemma stops_ZoneFile_delete : stops K ZoneFile_delete.
Proof. unfold ZoneFile_delete, AppendSync. stops_solve. Qed.
Lemma stops_MergeUpdate u r : stops K (MergeUpdate u r).
Proof. unfold MergeUpdate. stops_solve. Qed.
Lemma stops_RemoveLinkName n : stops K (RemoveLinkName n).
Proof. unfold RemoveLinkName. stops_solve. Qed.

(** What a field leaves of the input. *)
Definition within (input rest : bytes) : Prop := (length rest <= length input)%nat.

Lemma stops_get64 input err : stops_with K (get64 input err) (fun p => within input p.2).
Proof.
  unfold get64. destruct (GetFixed64 input) as [[v rest]|] eqn:E; [|apply stops_fail]. apply stops_with_ret.
  apply GetFixed64_shorter in E. unfold within. cbn. lia.
Qed.
Lemma stops_get32 input err : stops_with K (get32 input err) (fun p => within input p.2).
Proof.
  unfold get32. destruct (GetFixed32 input) as [[v rest]|] eqn:E; [|apply stops_fail]. apply stops_with_ret.
  apply GetFixed32_shorter in E. unfold within. cbn. lia.
Qed.

Lemma stops_decode_extent pad input : stops_with K (decode_extent pad input) (fun p => within input p.2).
Proof.
  unfold decode_extent. destruct (GetLengthPrefixedSlice input) as [slice rest] eqn:E.
  apply GetLengthPrefixedSlice_shorter in E as [E _].
  repeat stops_step; eauto with stops; try (by apply stops_with_ret); stops_solve.
Qed.

Lemma stops_decode_field tag w pad input :
  stops_with K (decode_field tag w pad input) (fun p => within input p.2).
Proof.
  unfold decode_field.
  repeat match goal with |- stops_with _ (if ?b then _ else _) _ => destruct b end;
    try (eapply stops_with_bind; [apply stops_get64 || apply stops_get32 || apply stops_decode_extent|];
         intros [v rest] Hr; try (apply stops_then; [apply stops_mod_file|intros []]); by apply stops_with_ret);
    try (apply stops_then; [apply stops_mod_file|intros []]; apply stops_with_ret; unfold within; cbn; lia);
    try apply stops_fail.
  all: destruct (GetLengthPrefixedSlice input) as [[slice|] rest] eqn:E; [|apply stops_fail].
  all: apply GetLengthPrefixedSlice_shorter in E as [E _]; destruct (_ =? 0); [apply stops_fail|].
  all: apply stops_then; [apply stops_mod_file|intros []]; by apply stops_with_ret.
Qed.

Lemma stops_DecodeFrom_loop n w pad input : (length input <= n)%nat -> stops K (DecodeFrom_loop n w pad input).
Proof.
  revert w pad input. induction n as [|n IH]; intros w pad input Hn; cbn [DecodeFrom_loop];
    destruct (GetFixed32 input) as [[tag rest]|] eqn:E; try apply stops_ret;
    apply GetFixed32_shorter in E; [lia|].
  apply (stops_with_bind _ _ _ _ _ (stops_decode_field tag w pad rest)). intros [[w' pad'] input'] Hr.
  apply IH. unfold within in Hr. cbn in Hr. lia.
Qed.

Lemma stops_DecodeFrom input : stops K (DecodeFrom input).
Proof.
  unfold DecodeFrom. destruct (GetFixed32 input) as [[tag rest]|] eqn:E; [|apply stops_fail].
  destruct (tag =? kFileID); [|apply stops_fail].
  apply (stops_with_bind _ _ _ _ _ (stops_get64 rest _)). intros [id rest'] _.
  apply stops_then; [apply stops_mod_file|intros []].
  apply stops_then; [by apply stops_DecodeFrom_loop|]. intros [w pad]. stops_solve.
Qed.
End files.
#[export] Hint Resolve stops_on_dev stops_get_file stops_mod_file stops_ZoneFile_delete stops_MergeUpdate
  stops_RemoveLinkName stops_DecodeFrom : stops.

(** ** Records *)

Section records.
Context {D L A : Type} `{be : ZonedBlockDeviceBackend D L} {szd : SZDOnceLog D L} {cfg : BuildConfig}.
Context (z : nat) (c : option (Z * Z * Z)).
Abbreviation FS := (ZenFS D L A).
Definition skeyed (s : FS) : Prop := keyed z c (zbd_ s).
Abbreviation K := skeyed.

Lemma stops_on_obj {B} o (m : M (FSt D L (nat * FS)) B) : stops (fkeyed z c) m -> stops K (on_obj o m).
Proof.
  intros Hm s Hs. unfold on_obj. destruct (objs s !! o) as [f|]; [|done].
  specialize (Hm (mkFSt (zbd_ s) f [] (o, s)) Hs).
  destruct (m _) as [b t|e t|]; [destruct Hm as [Hm _]| |done]; (try split; try done);
    unfold unpack; destruct (f_ctx t); done.
Qed.
Lemma stops_file_of o : stops K (file_of o).
Proof. unfold file_of. stops_solve. Qed.
Lemma stops_add_ref o : stops K (add_ref o).
Proof. by apply stops_modify. Qed.
Hint Resolve stops_on_obj stops_file_of stops_add_ref : stops.

Lemma stops_collect o : stops K (collect o).
Proof. unfold collect. stops_solve. by apply stops_modify. Qed.
Hint Resolve stops_collect : stops.
Lemma stops_drop_ref o : stops K (drop_ref o).
Proof. unfold drop_ref. stops_solve. by apply stops_modify. Qed.
Hint Resolve stops_drop_ref : stops.
Lemma stops_with_ref {B} o (m : M FS B) : stops K m -> stops K (with_ref o m).
Proof. intros Hm. unfold with_ref. stops_solve. Qed.
Lemma stops_new_file id : stops K (new_file id).
Proof. unfold new_file. stops_solve. by apply stops_modify. Qed.
Lemma stops_insert n o : stops K (files_insert n o).
Proof. apply stops_modify. intros s Hs. by destruct (files_ s !! n). Qed.
Lemma stops_erase n : stops K (files_erase n).
Proof. by apply stops_modify. Qed.
Lemma stops_bump id : stops K (bump_file_id id).
Proof. apply stops_modify. intros s Hs. by destruct (next_file_id_ s <=? id). Qed.
Lemma stops_find id l : stops K (find_by_id id l).
Proof. induction l as [|p l IH]; cbn [find_by_id]; stops_solve. Qed.
Hint Resolve stops_with_ref stops_new_file stops_insert stops_erase stops_bump stops_find : stops.

Lemma stops_ClearFiles : stops K ClearFiles.
Proof. unfold ClearFiles. stops_solve. Qed.
Lemma stops_DecodeFileUpdateFrom slice r : stops K (DecodeFileUpdateFrom slice r).
Proof.
  unfold DecodeFileUpdateFrom. repeat (solve [eauto with stops] || apply stops_with_ref || stops_step).
Qed.
Lemma stops_DecodeFileDeletionFrom input : stops K (DecodeFileDeletionFrom input).
Proof.
  unfold DecodeFileDeletionFrom. destruct (GetFixed64 input) as [[id rest]|]; [|apply stops_fail].
  destruct (GetLengthPrefixedSlice rest) as [[name|] rest']; [|apply stops_fail]. stops_step; [stops_solve|].
  destruct (files_ a !! name); [|apply stops_fail]. apply stops_with_ref. stops_solve.
Qed.
Lemma stops_DecodeSnapshotFrom input : stops K (DecodeSnapshotFrom input).
Proof.
  unfold DecodeSnapshotFrom. assert (length input <= length input)%nat as Hn by done. revert Hn.
  generalize (length input) at 2 3. intros n. revert input.
  induction n as [|n IH]; intros input Hn; cbn [DecodeSnapshotFrom_loop];
    destruct (GetLengthPrefixedSlice input) as [[slice|] rest] eqn:E; try apply stops_ret;
    apply GetLengthPrefixedSlice_shorter in E as [_ E]; specialize (E ltac:(by eexists)); [lia|].
  stops_step; [auto with stops|]. apply stops_then; [|intros; apply IH; lia].
  apply stops_with_ref. stops_solve.
Qed.
Hint Resolve stops_ClearFiles stops_DecodeFileUpdateFrom stops_DecodeFileDeletionFrom
  stops_DecodeSnapshotFrom : stops.

Lemma stops_apply_record tag data : stops K (apply_record tag data).
Proof. unfold apply_record. stops_solve. Qed.
End records.

(** ** Reading the zone *)

Section reading.
Context {D L A : Type} `{spec : BackendSpec D L} {rel : ReliableReads D L} {szd : SZDOnceLog D L}
  {cfg : BuildConfig}.
Context (zn0 : Zone).
Abbreviation FS := (ZenFS D L A).

(** The zone lies on the device, which is not larger than the positions can tell. *)
Definition zone_fits : Prop :=
  zone_wf zn0 /\ start_ zn0 + zone_sz_ <= nr_zones_ * zone_sz_ /\
  nr_zones_ * zone_sz_ + 2 ^ 33 < 2 ^ 64 /\ zone_sz_ < Z.of_nat loop_bound.

(** A log on that zone. *)
Definition log_on (s : Zbd D) (log : ZenMetaLog) : Prop :=
  keyed (ml_zone_ log) (Some (zone_key zn0)) s /\ start_ zn0 <= read_pos_ log.

Lemma log_on_zone s log :
  log_on s log -> exists zn, zone_heap s !! ml_zone_ log = Some zn /\
    start_ zn = start_ zn0 /\ wp_ zn = wp_ zn0 /\ max_capacity_ zn = max_capacity_ zn0.
Proof.
  intros [Hk _]. unfold keyed in Hk. destruct (zone_heap s !! ml_zone_ log) as [zn|]; [|done].
  exists zn. split; [done|]. unfold zone_key in Hk. cbn in Hk. by simplify_eq.
Qed.

(** What a read does to the position: nothing at the end, otherwise it moves on. *)
Definition moved_by (n : Z) (log log' : ZenMetaLog) (data : bytes) : Prop :=
  (data = [] /\ log' = log /\ wp_ zn0 <= read_pos_ log) \/
  (zlen data = n /\ read_pos_ log' = read_pos_ log + n /\ read_pos_ log < wp_ zn0 /\
   read_pos_ log' <= nr_zones_ * zone_sz_).

Lemma MetaLog_Read_stops n s log :
  zone_fits -> log_on s log -> 0 <= n < 2 ^ 32 ->
  match MetaLog_Read n (s, log) with
  | Ok data (s', log') => log_on s' log' /\ ml_zone_ log' = ml_zone_ log /\ moved_by n log log' data
  | Err _ _ => True
  | Stuck w => w <> OutOfFuel
  end.
Proof.
  intros (Hwf & Hdev & H64 & Hlb) Hlog Hn. pose proof (log_on_zone s log Hlog) as (zn & Hz & Hst & Hwp & Hmc).
  pose proof Hlog as [Hk Hpos]. destruct Hwf as ((?&_)&?&?&?&_).
  destruct (Z.le_gt_cases (wp_ zn) (read_pos_ log)) as [Hend|Hlt].
  { unfold MetaLog_Read. unfold bind at 1, get. erewrite bind_ok by by apply on_zbd_ok, get_zone_ok. cbn [snd].
    destruct (Z.leb_spec (wp_ zn) (read_pos_ log)); [|lia]. cbn. split; [done|]. split; [done|]. left. split_and!; try done. lia. }
  destruct (Z.le_gt_cases (read_pos_ log + n) (start_ zn + max_capacity_ zn)) as [Hin|Hout].
  - destruct (MetaLog_Read_ok n s log zn Hz) as (s' & -> & Har).
    { unfold readable. split_and!; lia. }
    split; [|split; [done|]].
    + split; [|cbn; lia]. unfold keyed in *. cbn. by rewrite (after_read_heap _ _ Har).
    + right. cbn. rewrite zlen_range by lia. split_and!; try done; lia.
  - unfold MetaLog_Read. unfold bind at 1, get. erewrite bind_ok by by apply on_zbd_ok, get_zone_ok. cbn [snd].
    destruct (Z.leb_spec (wp_ zn) (read_pos_ log)); [lia|].
    rewrite (u64_small (start_ zn + max_capacity_ zn)), (u64_small (read_pos_ log + n)) by lia.
    destruct (Z.ltb_spec (start_ zn + max_capacity_ zn) (read_pos_ log + n)); [done|lia].
Qed.

(** A record that is not the end of the log moves the position on. *)
Lemma ReadRecord_stops s log :
  zone_fits -> log_on s log ->
  match ReadRecord (s, log) with
  | Ok record (s', log') => log_on s' log' /\ ml_zone_ log' = ml_zone_ log /\
      (record = [] \/ (read_pos_ log < wp_ zn0 /\ read_pos_ log + 8 <= read_pos_ log'))
  | Err _ _ => True
  | Stuck w => w <> OutOfFuel
  end.
Proof.
  intros Hfit Hlog. pose proof Hfit as (Hwf & Hdev & H64 & Hlb). pose proof block_sz_pos as Hbp.
  pose proof block_sz_u32 as Hb32. pose proof (proj2 Hlog) as Hpos. destruct Hwf as ((?&_)&?&?&?&_).
  pose proof (MetaLog_Read_stops zMetaHeaderSize s log Hfit Hlog ltac:(unfold zMetaHeaderSize; lia)) as Hh1.
  unfold ReadRecord. unfold bind at 1. destruct (MetaLog_Read zMetaHeaderSize (s, log)) as [header [s1 log1]| |]; [|done..].
  destruct Hh1 as (Hlog1 & Hz1 & Hm1). destruct (Z.eqb_spec (zlen header) 0) as [Hh|Hh].
  { cbn. split; [done|]. split; [done|by left]. }
  destruct Hm1 as [(-> & _)|(Hlen & Hp1 & Hlt & Hle1)]; [done|].
  unfold bind at 1. destruct (GetFixed32 header) as [[crc rest]|]; [|done]. cbn [deref ret].
  unfold bind at 1. destruct (GetFixed32 rest) as [[sz rest2]|] eqn:Esz; [|done]. cbn [deref ret].
  assert (0 <= sz < 2 ^ 32) as Hsz.
  { unfold GetFixed32 in Esz. case_decide; [done|]. injection Esz as <- <-. unfold DecodeFixed32, memcpy_to. cbn [kLittleEndian].
    pose proof (le_combine_bound (take 4 rest)) as Hb. rewrite length_take in Hb.
    assert (2 ^ (8 * Z.of_nat (4 `min` length rest)) <= 2 ^ 32) by (apply Z.pow_le_mono_r; lia). lia. }
  pose proof (MetaLog_Read_stops sz s1 log1 Hfit Hlog1 Hsz) as Hh2. unfold bind at 1.
  destruct (MetaLog_Read sz (s1, log1)) as [record [s2 log2]| |]; [|done..].
  destruct Hh2 as (Hlog2 & Hz2 & Hm2). destruct (negb _); [done|].
  assert (read_pos_ log + 8 <= read_pos_ log2 <= nr_zones_ * zone_sz_) as Hp2.
  { unfold zMetaHeaderSize in Hp1. destruct Hm2 as [(_ & -> & _)|(_ & ? & _ & ?)]; lia. }
  unfold bind at 1, get. cbn [snd]. destruct (negb _); cbn.
  - pose proof (Z.mod_pos_bound (read_pos_ log2) block_sz_ Hbp). rewrite u64_small by lia.
    split; [|split; [congruence|right; lia]]. split; [apply Hlog2|cbn; lia].
  - split; [done|]. split; [congruence|right; lia].
Qed.

Lemma RecoverFrom_loop_stops n log snap (s : FS) :
  zone_fits -> log_on (zbd_ s) log -> (0 < n)%nat -> wp_ zn0 <= read_pos_ log + 8 * (Z.of_nat n - 1) ->
  RecoverFrom_loop n log snap s <> Stuck OutOfFuel.
Proof.
  intros Hfit. revert log snap s. induction n as [|n IH]; intros log snap s Hlog Hn Hw; [lia|].
  cbn [RecoverFrom_loop]. unfold bind at 1, read_record. pose proof (ReadRecord_stops (zbd_ s) log Hfit Hlog) as Hr.
  destruct (ReadRecord (zbd_ s, log)) as [record [z1 log1]|e [z1 log1]|w]; [|done|by intros [= ->]].
  destruct Hr as (Hlog1 & Hz1 & Hrec). destruct (GetFixed32 record) as [[tag rest]|] eqn:Et; [|done].
  destruct (tag =? kEndRecord); [done|]. destruct (GetLengthPrefixedSlice rest) as [[data|] rest2]; [|done].
  destruct Hrec as [->|[Hlt Hmove]]; [done|].
  destruct Hlog1 as [Hk1 Hp1].
  pose proof (stops_apply_record (ml_zone_ log1) (Some (zone_key zn0)) tag data (set_zbd z1 s) Hk1) as Ha.
  unfold bind at 1. destruct (apply_record tag data (set_zbd z1 s)) as [b s2|e s2|w]; [|done|intros [= ->]; done].
  destruct Ha as [Hk2 _]. apply IH; [by split|lia|lia].
Qed.
End reading.



(** A metadata zone full of bytes that are no record. *)
Definition g3 : geom := mkGeom 8 64 8 16 100.
Definition be3 : ZonedBlockDeviceBackend MemDev MemLog := mem_backend g3.
Definition spec3 : BackendSpec MemDev MemLog (be := be3).
Proof. by apply mem_backend_spec; simpl; lia || reflexivity. Defined.
Definition rel3 : ReliableReads MemDev MemLog (be := be3).
Proof. apply mem_reliable; simpl; lia. Defined.
Definition junk_zone : Zone := mkZone 0 0 64 64 WLTH_NOT_SET 0 true.
Definition fs_junk : ZenFS MemDev MemLog unit :=
  ZenFS_new (mkZbd (mkMemDev [(0, replicate 64 Corelib.Init.Byte.x41)] {[ 0 := 64 ]})
    {[ 0%nat := junk_zone ]} [] [] [0%nat] 0 24 0 2 0 OK false 2 2 0) tt (fun _ => 7).

