(* ===== verification/ZenFSFrame.v ===== *)
(** * What the journal leaves alone

    Writing the journal, rolling to another metadata zone included, touches the
    metadata zones only, and of the files their modification time and what is
    synced.  With this the file system implements the interface
    [MetadataWriterSpec] the write path of the files is proved against. *)

From S2P Require Import Prelude Status Coding Device MemDevice Zone Zbd ZbdProps ZbdFrame Superblock MetaLog ZoneFile ZoneFileProps FileWrite FileRead FileReadProps FileWriteProps Paths ZenFS.

(** ** The device *)

Section meta_zones.
Context {D L : Type} `{spec : BackendSpec D L}.
Implicit Types s : Zbd D.

Lemma meta_step_refl s : zones_wf s -> is_u 64 (bytes_written_ s) -> meta_step s s.
Proof. intros Hwf Hb. by split_and!. Qed.

(** A change of one metadata zone. *)
Lemma meta_step_zone s0 s z zn zn' d b :
  meta_step s0 s -> z ∈ meta_zones s0 -> zone_heap s !! z = Some zn ->
  zone_wf zn' -> start_ zn' = start_ zn -> is_u 64 b ->
  (forall a, ~ (start_ zn <= a < start_ zn + zone_sz_) -> disk d a = disk (zbd_be_ s) a) ->
  meta_step s0 (set_bytes_written b (set_heap (<[z := zn']> (zone_heap s)) (set_be d s))).
Proof.
  intros (Hl & Hm & Hd & _ & Hwf & Hh & Ha) Hin Hz Hwf' Hst Hb Hdisk.
  pose proof (same_layout_insert s z zn zn' d b Hz Hst) as Hl'.
  split_and!; try done.
  - by eapply same_layout_trans.
  - by apply (zones_wf_insert (set_be d s)).
  - intros y Hy. simpl. rewrite lookup_insert_ne by (by intros ->). by apply Hh.
  - intros a Hout. simpl. rewrite Hdisk; [by apply Ha|].
    destruct (zone_heap s0 !! z) as [zn0|] eqn:Hz0.
    + rewrite (same_layout_start _ _ _ _ _ Hl Hz0 Hz). by apply (Hout z).
    + destruct Hl as (_ & _ & Hl). specialize (Hl z). by rewrite Hz, Hz0 in Hl.
Qed.

(** A change of neither zones nor contents. *)
Lemma meta_step_set s0 s z zn zn' :
  meta_step s0 s -> z ∈ meta_zones s0 -> zone_heap s !! z = Some zn ->
  zone_wf zn' -> start_ zn' = start_ zn -> meta_step s0 (set_heap (<[z := zn']> (zone_heap s)) s).
Proof.
  intros Hs Hin Hz Hwf Hst. pose proof Hs as (_ & _ & _ & Hb & _).
  pose proof (meta_step_zone s0 s z zn zn' (zbd_be_ s) (bytes_written_ s) Hs Hin Hz Hwf Hst Hb ltac:(done)) as H.
  by destruct s.
Qed.

Lemma meta_mod_zone s0 z f :
  z ∈ meta_zones s0 -> (forall zn, zone_wf zn -> zone_wf (f zn) /\ start_ (f zn) = start_ zn) ->
  preserves (meta_step s0) (mod_zone z f).
Proof.
  intros Hin Hf s Hs. unfold mod_zone, bind, get_zone, get, deref, bind.
  destruct (zone_heap s !! z) as [zn|] eqn:Hz; [|done]. simpl. pose proof Hs as (_ & _ & _ & _ & Hwf & _).
  destruct (Hf zn) as [Hwf' Hst]; [by eapply zones_wf_lookup|]. by eapply meta_step_set.
Qed.

Lemma meta_busy s0 z b : z ∈ meta_zones s0 -> preserves (meta_step s0) (mod_zone z (set_busy b)).
Proof. intros Hin. by apply meta_mod_zone. Qed.
Hint Resolve preserves_get_zone meta_busy : preserves.

Lemma meta_Acquire s0 z : z ∈ meta_zones s0 -> preserves (meta_step s0) (Acquire z).
Proof. intros Hin. unfold Acquire. preserves_solve. Qed.
Lemma meta_Release s0 z : z ∈ meta_zones s0 -> preserves (meta_step s0) (Release z).
Proof. intros Hin. unfold Release. preserves_solve. Qed.
Hint Resolve meta_Acquire meta_Release : preserves.
Lemma meta_CheckRelease s0 z : z ∈ meta_zones s0 -> preserves (meta_step s0) (CheckRelease z).
Proof. intros Hin. unfold CheckRelease, GetZoneNr. preserves_solve. Qed.
Hint Resolve meta_CheckRelease : preserves.

(** A call of the device about one metadata zone. *)
Lemma meta_zone_call {A} s0 s z zn (r : (Status + A) * D) (f : A -> Zone) :
  meta_step s0 s -> z ∈ meta_zones s0 -> zone_heap s !! z = Some zn ->
  (forall a, ~ (start_ zn <= a < start_ zn + zone_sz_) -> disk r.2 a = disk (zbd_be_ s) a) ->
  (forall a, r.1 = inr a -> zone_wf (f a) /\ start_ (f a) = start_ zn) ->
  match zone_call z r f s with Ok _ s' | Err _ s' => meta_step s0 s' | Stuck _ => True end.
Proof.
  intros Hs Hin Hz Hd Hf. pose proof Hs as (_ & _ & _ & Hb & Hwf & _).
  unfold zone_call. destruct r as [[e|a] d]; simpl in *.
  - pose proof (meta_step_zone s0 s z zn zn d (bytes_written_ s) Hs Hin Hz) as H.
    rewrite insert_id in H by done. destruct s. apply H; try done. by eapply zones_wf_lookup.
  - destruct (Hf a eq_refl) as [Hwf' Hst].
    pose proof (meta_step_zone s0 s z zn (f a) d (bytes_written_ s) Hs Hin Hz Hwf' Hst Hb Hd) as H.
    by destruct s.
Qed.

(** A method that starts by reading its zone. *)
Lemma meta_zone_method {A} s0 z (k : Zone -> M (Zbd D) A) :
  (forall s zn, meta_step s0 s -> zone_heap s !! z = Some zn -> zone_wf zn ->
     match bind (get_zone z) k s with Ok _ s' | Err _ s' => meta_step s0 s' | Stuck _ => True end) ->
  preserves (meta_step s0) (bind (get_zone z) k).
Proof.
  intros Hk s Hs. destruct (zone_heap s !! z) as [zn|] eqn:Hz; [|by rewrite get_zone_none].
  apply (Hk s zn); try done. pose proof Hs as (_ & _ & _ & _ & Hwf & _). by eapply zones_wf_lookup.
Qed.

Lemma meta_Reset s0 z : z ∈ meta_zones s0 -> preserves (meta_step s0) (Zone_Reset z).
Proof.
  intros Hin. apply meta_zone_method. intros s zn Hs Hz Hwf. fold (Zone_Reset z).
  rewrite (Zone_Reset_run _ zn) by done. apply (meta_zone_call s0 s z zn); [done..| |];
    destruct (be_Reset _ _) as [[e|[off mc]] d] eqn:E; try done.
  - eapply reset_fails; [done|apply Hwf].
  - eapply reset_ok; [done|apply Hwf].
  - intros [off' mc'] [= -> ->]. split; [|done]. apply reset_ok in E as [[Hmc _] _]; [|apply Hwf]. pose proof zone_sz_pos.
    revert Hwf. unfold zone_wf, is_u. simpl. destruct off'; lia.
Qed.

Lemma meta_Finish s0 z : z ∈ meta_zones s0 -> preserves (meta_step s0) (Zone_Finish z).
Proof.
  intros Hin. apply meta_zone_method. intros s zn Hs Hz Hwf. fold (Zone_Finish z).
  rewrite (Zone_Finish_run _ zn) by done. apply (meta_zone_call s0 s z zn); [done..| |].
  - intros a _. destruct (be_Finish _ _) as [r d] eqn:E. by eapply finish_ok.
  - intros ? _. split; [|done]. pose proof zone_sz_pos. revert Hwf. unfold zone_wf, is_u. simpl.
    intros (?&?&?&?&?&?&?). rewrite u64_small by lia. lia.
Qed.

Lemma meta_Append_loop s0 z n ptr s zn :
  z ∈ meta_zones s0 -> meta_step s0 s -> zone_heap s !! z = Some zn -> zlen ptr <= capacity_ zn ->
  match Append_loop n z ptr s with Ok _ s' | Err _ s' => meta_step s0 s' | Stuck _ => True end.
Proof.
  intros Hin. revert ptr s zn. induction n as [|n IH]; intros ptr s zn Hs Hz Hcap; cbn [Append_loop];
    (destruct (decide (ptr = [])) as [|Hne]; [done|]); [done|].
  pose proof Hs as (_ & _ & _ & Hb & Hwfs & _). pose proof (zones_wf_lookup _ _ _ Hwfs Hz) as Hwf.
  pose proof Hwf as (?&?&?&?&?&?&?). mstep. unfold with_be, zoom, call. unfold bind at 1.
  destruct (be_Write ptr (wp_ zn) (zbd_be_ s)) as [[r err] d] eqn:Ew.
  destruct (Z.ltb_spec r 0) as [Hr|Hr].
  - apply (meta_zone_call s0 s z zn (inl (IOError err), d) (fun _ : unit => zn)); try done.
    intros a Ha. eapply write_err; [done|done|]. simpl. lia.
  - destruct (write_ok _ _ _ _ _ _ Ew Hr) as (Hle & Hpos & Hdisk).
    erewrite bind_ok by (by apply (mod_zone_ok z (advance r) zn)). unfold AddBytesWritten.
    unfold bind at 1, modify. cbn [bytes_written_].
    apply (IH _ _ (advance r zn)); [|simpl; by rewrite lookup_insert_eq|].
    + apply (meta_step_zone s0 s z zn (advance r zn)); try done; [apply zone_wf_advance; [done|lia]|apply u64_range|].
      intros a Ha. rewrite Hdisk. apply store_outside. rewrite zlen_ztake by lia. lia.
    + rewrite zlen_zdrop by lia. simpl. rewrite u64_small by lia. lia.
Qed.

Lemma meta_Append s0 z data : z ∈ meta_zones s0 -> preserves (meta_step s0) (Append z data).
Proof.
  intros Hin. apply meta_zone_method. intros s zn Hs Hz Hwf. mstep.
  destruct (Z.ltb_spec (capacity_ zn) (zlen data)); [done|]. by apply (meta_Append_loop s0 z _ _ s zn).
Qed.
Lemma meta_AddRecord s0 z data : z ∈ meta_zones s0 -> preserves (meta_step s0) (AddRecord z data).
Proof. intros Hin. by apply meta_Append. Qed.
Hint Resolve meta_Reset meta_Finish meta_AddRecord : preserves.

Lemma meta_AllocateMetaZone s0 : gives (meta_step s0) AllocateMetaZone (fun z => z ∈ meta_zones s0).
Proof.
  assert (forall zs, zs ⊆ meta_zones s0 ->
    gives (meta_step s0) (AllocateMetaZone_loop zs) (fun z => z ∈ meta_zones s0)) as Hloop.
  { induction zs as [|z zs IH]; intros Hsub; cbn [AllocateMetaZone_loop]; [apply gives_fail|].
    assert (z ∈ meta_zones s0) as Hz by (apply Hsub; left).
    specialize (IH ltac:(intros y Hy; apply Hsub; by right)).
    apply gives_then; [by apply meta_Acquire|]. intros [|]; [|done].
    apply gives_then; [apply preserves_get_zone|]. intros zn. destruct (negb (IsUsed zn)); [|done].
    apply gives_then; [preserves_solve|]. intros e. destruct (negb (ok e)); [|by apply gives_ret].
    apply gives_then; [by apply meta_CheckRelease|]. by intros []. }
  intros s Hs. unfold AllocateMetaZone. unfold bind at 1, get. pose proof Hs as (_ & -> & _).
  by apply Hloop.
Qed.
End meta_zones.
#[export] Hint Resolve preserves_get_zone meta_Acquire meta_Release meta_CheckRelease meta_Reset meta_Finish
  meta_AddRecord : preserves.

(** ** The journal *)

Section journal.
Context {D L A : Type} `{spec : BackendSpec D L} {szd : SZDOnceLog D L} {cfg : BuildConfig}.
Implicit Types s : ZenFS D L A.

(** Every log of the file system is in a metadata zone. *)
Definition log_ok (ms : list nat) s : Prop :=
  forall log, meta_log_ s = Some log -> ml_zone_ log ∈ ms.

(** A file as it was except for its modification time and what is synced. *)
Definition marked (f f' : ZoneFile L) : Prop :=
  exists n t, f' = set_nr_synced_extents n (set_m_time t f).

Lemma marked_refl f : marked f f.
Proof. exists (nr_synced_extents_ f), (m_time_ f). by destruct f. Qed.
Lemma marked_trans f g h : marked f g -> marked g h -> marked f h.
Proof. intros (n & t & ->) (n' & t' & ->). by exists n', t'. Qed.

(** The files of [s0] are the files of [s], except for their marks. *)
Definition same_files s0 s : Prop :=
  files_ s = files_ s0 /\ next_file_id_ s = next_file_id_ s0 /\
  forall o f, objs s0 !! o = Some f -> exists f', objs s !! o = Some f' /\ marked f f'.

(** Since [s0] only metadata zones and the marks of the files changed. *)
Definition journal s0 s : Prop :=
  meta_step (zbd_ s0) (zbd_ s) /\ log_ok (meta_zones (zbd_ s0)) s /\ same_files s0 s /\
  dom (objs s) = dom (objs s0) /\ refs s = refs s0.

Section keeps.
Context (s0 : ZenFS D L A).
Abbreviation J := (journal s0).
Abbreviation z0 := (zbd_ s0).

Lemma journal_on_device {B} (m : M (Zbd D) B) : preserves (meta_step z0) m -> preserves J (on_device m).
Proof.
  intros Hm s (Hz & Hl & Ho). unfold on_device, zoom. specialize (Hm _ Hz). by destruct (m (zbd_ s)).
Qed.

Lemma journal_gives {B} (m : M (Zbd D) B) R : gives (meta_step z0) m R -> gives J (on_device m) R.
Proof.
  intros Hm s (Hz & Hl & Ho). unfold on_device, zoom. specialize (Hm _ Hz).
  destruct (m (zbd_ s)); [by destruct Hm|done..].
Qed.

Lemma journal_file_of p : preserves J (file_of p).
Proof. unfold file_of. preserves_solve. Qed.

(** A change of the marks of any file. *)
Lemma journal_mod_obj p g : (forall f, marked f (g f)) -> preserves J (mod_obj p g).
Proof.
  intros Hg s (Hz & Hl & (Hf & Hn & Ho) & Hdom & Hr). unfold mod_obj, file_of, bind, get.
  destruct (objs s !! p) as [f|] eqn:Hp; cbn [deref]; unfold ret, stuckM, modify; [|done].
  split; [done|]. split; [done|]. split; [|split; [|done]].
  2:{ cbn. rewrite dom_insert_L, Hdom. apply elem_of_dom_2 in Hp. set_solver. }
  split; [done|]. split; [done|]. cbn. intros o f0 H0. destruct (Ho o f0 H0) as (f' & Hf' & Hm). destruct (decide (p = o)) as [->|Hne].
  - rewrite lookup_insert_eq. simplify_eq. eexists. split; [done|]. by eapply marked_trans.
  - rewrite lookup_insert_ne by done. eauto.
Qed.
Hint Resolve journal_on_device journal_file_of : preserves.

Lemma journal_synced p : preserves J (mod_obj p MetadataSynced).
Proof.
  apply journal_mod_obj. intros f. exists (u32 (zlen (extents_ f))), (m_time_ f). by destruct f.
Qed.
Lemma journal_m_time p t : preserves J (mod_obj p (set_m_time t)).
Proof. apply journal_mod_obj. intros f. exists (nr_synced_extents_ f), t. by destruct f. Qed.
Hint Resolve journal_synced journal_m_time : preserves.

Lemma journal_WriteSnapshot log : ml_zone_ log ∈ meta_zones z0 -> preserves J (WriteSnapshotLocked log).
Proof.
  intros Hin. unfold WriteSnapshotLocked, ZenFS_EncodeSnapshotTo. preserves_solve.
Qed.
Hint Resolve journal_WriteSnapshot : preserves.

Lemma journal_WriteEndRecord log : ml_zone_ log ∈ meta_zones z0 -> preserves J (WriteEndRecord log).
Proof. intros Hin. unfold WriteEndRecord. preserves_solve. Qed.
Lemma journal_close_log log : ml_zone_ log ∈ meta_zones z0 -> preserves J (close_log log).
Proof. intros Hin. unfold close_log. preserves_solve. Qed.
Hint Resolve journal_WriteEndRecord journal_close_log : preserves.

Lemma journal_set_log log : ml_zone_ log ∈ meta_zones z0 -> preserves J (modify (set_meta_log (Some log))).
Proof. intros Hin s (Hz & Hl & Ho). split; [done|]. split; [|done]. by intros log' [= <-]. Qed.
Lemma journal_set_superblock sb : preserves J (modify (set_superblock sb)).
Proof. by intros s (Hz & Hl & Ho). Qed.
Lemma journal_new_log z : gives J (on_device (ZenMetaLog_new z)) (fun log => ml_zone_ log = z).
Proof.
  apply journal_gives. intros s Hs. unfold ZenMetaLog_new, get_zone, bind, get.
  by destruct (zone_heap s !! z).
Qed.
Hint Resolve journal_set_log journal_set_superblock : preserves.

Lemma journal_Roll : preserves J RollMetaZoneLocked.
Proof.
  unfold RollMetaZoneLocked. apply (gives_bind _ _ _ _ (journal_gives _ _ (meta_AllocateMetaZone z0))).
  intros z Hz. apply (gives_bind _ _ _ _ (journal_new_log z)). intros log <-.
  apply (gives_bind _ _ _ _ (gives_get J)). intros s1 (_ & Hlog & _).
  apply preserves_bind; [auto with preserves|]. intros [].
  apply (gives_bind _ _ _ _ (gives_deref J _)). intros old Hold. specialize (Hlog _ Hold).
  preserves_solve.
Qed.
Hint Resolve journal_Roll : preserves.

Lemma journal_PersistRecord record : preserves J (PersistRecord record).
Proof.
  unfold PersistRecord, or_roll. apply (gives_bind _ _ _ _ (gives_get J)). intros s1 (_ & Hlog & _).
  apply (gives_bind _ _ _ _ (gives_deref J _)). intros log Hl. specialize (Hlog _ Hl).
  preserves_solve.
Qed.
Hint Resolve journal_PersistRecord : preserves.

Lemma journal_Sync p replace : preserves J (SyncFileMetadataNoLock p replace).
Proof.
  unfold SyncFileMetadataNoLock, time0. preserves_solve. by intros s (Hz & Hl & Ho).
Qed.
End keeps.

Lemma same_files_refl s : same_files s s.
Proof. split_and!; try done. intros o f Ho. exists f. split; [done|apply marked_refl]. Qed.

Lemma journal_start s : dev_ok (zbd_ s) -> log_ok (meta_zones (zbd_ s)) s -> journal s s.
Proof. intros Hd Hl. split; [apply meta_step_refl; apply Hd|]. split; [done|by split; [apply same_files_refl|]]. Qed.

(** The file system behind a file [o] that is being written: the other files are
    those of [s0]. *)
Definition ctx_ok (o : nat) s0 (ms : list nat) (x : nat * ZenFS D L A) : Prop :=
  x.1 = o /\ log_ok ms x.2 /\ same_files (set_objs (base.delete o (objs s0)) s0) x.2.

(** The file system is a metadata writer as the write path expects it. *)
Definition ZenFSMetadataWriterSpec (o : nat) s0 :
  MetadataWriterSpec D L (nat * ZenFS D L A) (mw := ZenFSMetadataWriter).
Proof.
  refine {| writer_ok := ctx_ok o s0 |}. intros t Hd (Ho & Hl & Hfs). cbn [Persist ZenFSMetadataWriter].
  unfold GetFilename, bind, get_file, gets.
  destruct (head (linkfiles_ (f_file t))) as [name|]; [|done]. cbn [deref]. unfold ret.
  destruct t as [z f b [o' s]]. cbn [f_zbd f_file f_buf f_ctx fst snd unpack] in *. subst o'.
  set (s1 := set_zbd z (set_objs (<[o := f]> (objs s)) s)).
  pose proof (journal_Sync s1 o false s1 (journal_start s1 Hd Hl)) as Hs. unfold SyncFileMetadata.
  assert (forall s2, journal s1 s2 -> ctx_ok o s0 (meta_zones z) (o, s2)) as Hctx.
  { intros s2 (_ & Hl2 & (Hf2 & Hn2 & Ho2) & _). split; [done|]. split; [done|]. destruct Hfs as (Hf & Hn & Hos).
    cbn [snd]. split; [by rewrite Hf2|]. split; [by rewrite Hn2|]. intros p g Hp. destruct (Hos p g Hp) as (g1 & Hg1 & Hm1).
    cbn in Hp. apply lookup_delete_Some in Hp as [Hne Hp].
    destruct (Ho2 p g1) as (g2 & Hg2 & Hm2); [cbn; by rewrite lookup_insert_ne|].
    exists g2. split; [done|]. by eapply marked_trans. }
  destruct (SyncFileMetadataNoLock o false s1) as [[] s2|e s2|]; [| |done];
    pose proof (Hctx s2 Hs); destruct Hs as (Hm & _ & (_ & _ & Ho2) & _);
    destruct (Ho2 o f) as (f' & Hf' & Hmf); [cbn; by rewrite lookup_insert_eq| |cbn; by rewrite lookup_insert_eq|];
    rewrite Hf'; by split_and!.
Defined.
End journal.

(** The device is as before except for its metadata zones, and every file is as
    before except for its marks. *)
Definition only_metadata `{spec : BackendSpec D L} {A : Type} (s s' : ZenFS D L A) : Prop :=
  dev_ok (zbd_ s') /\ log_ok (meta_zones (zbd_ s')) s' /\
  (forall z, z ∈ io_zones (zbd_ s) -> zone_heap (zbd_ s') !! z = zone_heap (zbd_ s) !! z) /\
  (forall es, Forall (stored_extent (zbd_ s)) es ->
     contents (zbd_be_ (zbd_ s')) es = contents (zbd_be_ (zbd_ s)) es) /\
  same_files s s'.

Lemma journal_only_metadata `{spec : BackendSpec D L} {A : Type} (s s' : ZenFS D L A) :
  dev_ok (zbd_ s) -> journal s s' -> only_metadata s s'.
Proof.
  intros Hd (Hms & Hl' & Ho' & _). destruct (meta_step_stored _ _ Hd Hms) as [Hst Hd'].
  pose proof Hms as (_ & Hm & _ & _ & _ & Hh & _). unfold only_metadata. rewrite Hm. split_and!; try done.
  - intros z Hz. by apply Hh, Hd.
  - intros es Hes. by eapply contents_step.
Qed.

(** Persisting the metadata of a file, as an update or as a replacement and with
    a roll to a new metadata zone where the log is full, changes nothing on the
    device but metadata zones: the data of every extent and the usage and write
    pointers of the I/O zones stay, also when it fails, and so do all files
    except for their modification time and the count of synced extents. *)
Theorem sync_metadata_keeps_data `{spec : BackendSpec D L} {A : Type} (o : nat) (replace : bool)
    (s : ZenFS D L A) :
  dev_ok (zbd_ s) -> log_ok (meta_zones (zbd_ s)) s ->
  match SyncFileMetadataNoLock o replace s with
  | Ok _ s' | Err _ s' => only_metadata s s'
  | Stuck _ => True
  end.
Proof.
  intros Hd Hl. pose proof (journal_Sync _ o replace s (journal_start s Hd Hl)) as Hj.
  destruct (SyncFileMetadataNoLock o replace s); [by apply journal_only_metadata..|done].
Qed.

(** A file system with one file, whose log is in the first zone. *)
Definition fs0 : ZenFS MemDev MemLog unit :=
  mkZenFS (f_zbd (append_state 8)) {[ b_of "/db/1.sst" := 0%nat ]} 2 (Some (mkMetaLog 0 0)) None false tt
    {[ 0%nat := f_file (append_state 8) ]} [] 1 (fun _ => 7) 0.

Lemma sync_metadata_keeps_data_witness :
  match SyncFileMetadataNoLock (be := be0) 0 false fs0 with
  | Ok _ s' | Err _ s' => only_metadata (spec := spec0) fs0 s'
  | Stuck _ => True
  end.
Proof.
  apply (sync_metadata_keeps_data (spec := spec0) 0 false fs0); [apply (append_state_inv 8)|].
  intros log [= <-]. left.
Defined.
