(* ===== verification/ZenFSOps.v ===== *)
(** * The file system: operations

    The operations of [class ZenFS] on names, its mounting and formatting, and
    the garbage collection (fs_zenfs.h, fs_zenfs.cc).  The locks [files_mtx_]
    and [metadata_sync_mtx_] make each of them one step. *)

From stdpp Require Import sorting.
From S2P Require Import Prelude Status Coding Device MemDevice Zone Zbd Superblock MetaLog ZoneFile FileWrite FileRead Paths ZenFS.

(** A [ZonedWritableFile] in use: its file, its members and its buffer. *)
Record Writer := mkWriter { w_obj : nat; w_file : WFile; w_buf : bytes }.

(** A [ZonedSequentialFile] or [ZonedRandomAccessFile] in use. *)
Record Reader := mkReader { r_obj : nat; r_file : SeqFile }.

(** [class ZoneExtentSnapshot], [class ZoneFileSnapshot] *)
Record ZoneExtentSnapshot := mkExtentSnapshot {
  es_start : Z; es_length : Z; es_zone_start : Z; es_filename : bytes }.
Record ZoneFileSnapshot := mkFileSnapshot {
  fs_file_id : Z; fs_filename : bytes; fs_extents : list ZoneExtentSnapshot }.

Section ops.
Context {D L A : Type} `{be : ZonedBlockDeviceBackend D L} {szd : SZDOnceLog D L}
  {cfg : BuildConfig} {aux : AuxFileSystem A}.
Abbreviation FS := (ZenFS D L A).
Abbreviation ZM := (M (ZenFS D L A)).

Definition log_name : bytes := b_of ".log".
Definition sst_name : bytes := b_of ".sst".

(** ** Looking up names *)

Definition ToAuxPath (path : bytes) : ZM bytes :=
  s <- get ;; sb <- deref (superblock_ s) ;; ret (GetAuxFsPath sb ++ path).

Definition ToZenFSPath (aux_path : bytes) : ZM bytes :=
  s <- get ;; sb <- deref (superblock_ s) ;; ret (zdrop (zlen (GetAuxFsPath sb)) aux_path).

Definition GetFileNoLock (fname : bytes) : ZM (option nat) :=
  s <- get ;; ret (files_ s !! FormatPathLexically fname).
Definition GetFile := GetFileNoLock.

(** A reader or writer object refers to its file. *)
Definition new_reader (o : nat) (use_direct_reads : bool) : ZM Reader :=
  f <- file_of o ;; add_ref o ;; ret (mkReader o (SeqFile_new use_direct_reads f)).

(** [None]: the reader of the auxiliary file system. *)
Definition NewSequentialFile (filename : bytes) (use_direct_reads : bool) : ZM (option Reader) :=
  zoneFile <- GetFile (FormatPathLexically filename) ;;
  match zoneFile with
  | None => ret None
  | Some o => r <- new_reader o use_direct_reads ;; ret (Some r)
  end.

(** The file is looked up a second time, with [files_[fname]]. *)
Definition NewRandomAccessFile (filename : bytes) (use_direct_reads : bool) : ZM (option Reader) :=
  let fname := FormatPathLexically filename in
  zoneFile <- GetFile fname ;;
  match zoneFile with
  | None => ret None
  | Some _ =>
      s <- get ;;
      o <- deref (files_ s !! fname) ;;
      r <- new_reader o use_direct_reads ;; ret (Some r)
  end.

Definition FileExists (filename : bytes) : ZM unit :=
  let fname := FormatPathLexically filename in
  zoneFile <- GetFile fname ;;
  match zoneFile with
  | None => path <- ToAuxPath fname ;; s <- get ;; returnS (aux_FileExists path (aux_fs s))
  | Some _ => ret tt
  end.

Definition GetFileModificationTime (filename : bytes) : ZM Z :=
  let f := FormatPathLexically filename in
  s <- get ;;
  match files_ s !! f with
  | Some o => zf <- file_of o ;; ret (u64 (m_time_ zf))
  | None => path <- ToAuxPath f ;; ask_aux (aux_GetFileModificationTime path)
  end.

Definition GetFileSize (filename : bytes) : ZM Z :=
  let f := FormatPathLexically filename in
  s <- get ;;
  match files_ s !! f with
  | Some o => zf <- file_of o ;; ret (file_size_ zf)
  | None => path <- ToAuxPath f ;; ask_aux (aux_GetFileSize path)
  end.

Definition NumFileLinks (file : bytes) : ZM Z :=
  let fname := FormatPathLexically file in
  src_file <- GetFileNoLock fname ;;
  match src_file with
  | Some o => f <- file_of o ;; ret (u32 (zlen (linkfiles_ f)))
  | None => path <- ToAuxPath fname ;; ask_aux (aux_NumFileLinks path)
  end.

(** The auxiliary file system gets the names as they are. *)
Definition AreFilesSame (file linkf : bytes) : ZM bool :=
  let fname := FormatPathLexically file in
  let link := FormatPathLexically linkf in
  src_file <- GetFileNoLock fname ;;
  dst_file <- GetFileNoLock link ;;
  match src_file, dst_file with
  | Some o, Some o' => f <- file_of o ;; f' <- file_of o' ;; ret (file_id_ f =? file_id_ f')
  | _, _ => ask_aux (aux_AreFilesSame fname link)
  end.

(** ** Deleting, creating and linking *)

Definition DeleteFileNoLock (fname : bytes) : ZM unit :=
  let fname := FormatPathLexically fname in
  zoneFile <- GetFileNoLock fname ;;
  match zoneFile with
  | Some o =>
      with_ref o (
        files_erase fname ;;
        on_obj o (RemoveLinkName fname) ;;
        f <- file_of o ;;
        r <- attempt (PersistRecord (EncodeFileDeletionTo (file_id_ f) fname)) ;;
        match r with
        | inl s => files_insert fname o ;; mod_obj o (AddLinkName fname) ;; fail s
        | inr _ =>
            f <- file_of o ;;
            match linkfiles_ f with
            | _ :: _ => ret tt
            | [] =>
                mod_obj o (set_is_deleted true) ;;
                when (ends_with fname log_name) (attempt (on_obj o ResetWALZones) ;; ret tt)
            end
        end)
  | None => path <- ToAuxPath fname ;; on_aux (aux_DeleteFile path)
  end.

Definition DeleteFile (fname : bytes) : ZM unit :=
  DeleteFileNoLock fname ;; on_device ResetUnusedIOZones.

(** [new ZonedWritableFile(zbd_, !use_direct_writes, zoneFile)]; [mem] is what the
    memory it allocates holds. *)
Definition new_writer (o : nat) (use_direct_writes : bool) (mem : Z -> byte) : ZM Writer :=
  f <- file_of o ;;
  s <- get ;;
  let '(t, w) := ZonedWritableFile_new (negb use_direct_writes) mem (mkFSt (zbd_ s) f [] tt) in
  add_ref o ;;
  ret (mkWriter o w (f_buf t)).

(** The writer and the status; the writer is there even when resetting the zones
    of the old file failed. *)
Definition OpenWritableFile (filename : bytes) (use_direct_writes reopen : bool) (mem : Z -> byte) :
  ZM (Writer * IOStatus) :=
  let fname := FormatPathLexically filename in
  let is_wal := ends_with fname log_name in
  zoneFile <- GetFileNoLock fname ;;
  match zoneFile, reopen with
  | Some o, true =>
      on_obj o AcquireWRLock ;;
      w <- new_writer o use_direct_writes mem ;;
      ret (w, OK)
  | _, _ =>
      resetIOZones <- match zoneFile with
                      | Some o => with_ref o (DeleteFileNoLock fname) ;; ret true
                      | None => ret false
                      end ;;
      s <- get ;;
      modify (set_next_file_id (next_file_id_ s +64 1)) ;;
      o <- new_file (next_file_id_ s) ;;
      w <- with_ref o (
        t <- time0 ;;
        mod_obj o (set_m_time t) ;;
        mod_obj o (AddLinkName fname) ;;
        (if is_wal then
           on_obj o (SetIOType kWAL) ;; mod_obj o (set_is_sparse (negb use_direct_writes))
         else on_obj o (SetIOType kUnknown)) ;;
        SyncFileMetadataNoLock o false ;;
        on_obj o AcquireWRLock ;;
        files_insert fname o ;;
        new_writer o use_direct_writes mem) ;;
      r <- (if (resetIOZones : bool) then attempt (on_device ResetUnusedIOZones) else ret (inr tt)) ;;
      ret (w, status_of r)
  end.

Definition NewWritableFile (filename : bytes) (use_direct_writes : bool) (mem : Z -> byte) :=
  OpenWritableFile (FormatPathLexically filename) use_direct_writes false mem.

Definition ReopenWritableFile (filename : bytes) (use_direct_writes : bool) (mem : Z -> byte) :=
  OpenWritableFile (FormatPathLexically filename) use_direct_writes true mem.

Definition ReuseWritableFile (filename old_filename : bytes) (use_direct_writes : bool)
  (mem : Z -> byte) : ZM (Writer * IOStatus) :=
  let fname := FormatPathLexically filename in
  let old_fname := FormatPathLexically old_filename in
  old <- GetFile old_fname ;;
  match old with
  | None => fail (NotFound "Old file does not exist")
  | Some _ => DeleteFile old_fname ;; OpenWritableFile fname use_direct_writes false mem
  end.

Definition LinkFile (file link : bytes) : ZM unit :=
  let fname := FormatPathLexically file in
  let lname := FormatPathLexically link in
  target <- GetFileNoLock lname ;;
  match target with
  | Some _ => fail (InvalidArgument "Failed to create link, target exists")
  | None =>
      src_file <- GetFileNoLock fname ;;
      match src_file with
      | Some o =>
          with_ref o (
            mod_obj o (AddLinkName lname) ;;
            files_insert lname o ;;
            r <- attempt (SyncFileMetadataNoLock o false) ;;
            match r with
            | inl _ => on_obj o (RemoveLinkName lname) ;; files_erase lname
            | inr _ => ret tt
            end)
      | None =>
          fpath <- ToAuxPath fname ;;
          lpath <- ToAuxPath lname ;;
          on_aux (aux_LinkFile fpath lpath)
      end
  end.

(** ** Directories *)

(** The names of the files below [dir], relative to it. *)
Definition GetZenFSChildrenNoLock (dir : bytes) (include_grandchildren : bool) : ZM (list bytes) :=
  s <- get ;;
  let d := with_separator_at_end dir in
  ret (omap (fun p : bytes * nat =>
    let file_dir := with_separator_at_end (parent_path p.1) in
    if starts_with file_dir d && (include_grandchildren || (zlen file_dir =? zlen d))
    then Some (zdrop (zlen d) p.1) else None) (entries (files_ s))).

Definition GetChildrenNoLock (dir_path : bytes) : ZM (list bytes) :=
  let dir := FormatPathLexically dir_path in
  path <- ToAuxPath dir ;;
  s <- get ;;
  let '(st, auxfiles) := aux_GetChildren path (aux_fs s) in
  if negb (ok st) then (if IsNotFound st then ret [] else fail st) else
  children <- GetZenFSChildrenNoLock dir false ;;
  ret (filter (fun f => f <> dot /\ f <> dotdot) auxfiles ++ children).
Definition GetChildren := GetChildrenNoLock.

Definition IsDirectoryNoLock (path : bytes) : ZM bool :=
  zoneFile <- GetFileNoLock path ;;
  match zoneFile with
  | Some _ => ret false
  | None => p <- ToAuxPath path ;; ask_aux (aux_IsDirectory p)
  end.
Definition IsDirectory := IsDirectoryNoLock.

(** The depth of the directories bounds the recursion. *)
Fixpoint DeleteDirRecursiveNoLock (n : nat) (dir : bytes) : ZM unit :=
  match n with
  | O => stuckM OutOfFuel
  | S n' =>
      let d := FormatPathLexically dir in
      children <- GetChildrenNoLock d ;;
      forM children (fun child =>
        let file_to_delete := path_append d child in
        is_dir <- IsDirectoryNoLock file_to_delete ;;
        if (is_dir : bool) then DeleteDirRecursiveNoLock n' file_to_delete
        else DeleteFileNoLock file_to_delete) ;;
      path <- ToAuxPath d ;;
      on_aux (aux_DeleteDir path)
  end.

Definition DeleteDirRecursive (d : bytes) : ZM unit :=
  DeleteDirRecursiveNoLock loop_bound d ;; on_device ResetUnusedIOZones.

Definition CreateDir (d : bytes) : ZM unit := path <- ToAuxPath d ;; on_aux (aux_CreateDir path).
Definition CreateDirIfMissing (d : bytes) : ZM unit :=
  path <- ToAuxPath d ;; on_aux (aux_CreateDirIfMissing path).

(** The status of [GetChildren] is not looked at. *)
Definition DeleteDir (d : bytes) : ZM unit :=
  r <- attempt (GetChildren d) ;;
  match r with
  | inr (_ :: _) => fail (IOError "Directory has children")
  | _ => path <- ToAuxPath d ;; on_aux (aux_DeleteDir path)
  end.

(** ** Renaming *)

Section rename.
Variable rename : bytes -> bytes -> ZM unit.

Definition RenameChildNoLock (source_dir dest_dir child : bytes) : ZM unit :=
  rename (path_append source_dir child) (path_append dest_dir child).

Definition RollbackAuxDirRenameNoLock (source_path dest_path : bytes)
  (renamed_children : list bytes) : ZM unit :=
  forM renamed_children (fun child =>
    r <- attempt (RenameChildNoLock dest_path source_path child) ;;
    match r with
    | inl _ => fail (Corruption "RollbackAuxDirRenameNoLock: Failed to roll back directory rename")
    | inr _ => ret tt
    end) ;;
  dp <- ToAuxPath dest_path ;;
  sp <- ToAuxPath source_path ;;
  r <- attempt (on_aux (aux_RenameFile dp sp)) ;;
  match r with
  | inl _ => fail (Corruption "RollbackAuxDirRenameNoLock: Failed to roll back auxiliary path renaming")
  | inr _ => ret tt
  end.

Fixpoint rename_children (source_path dest_path : bytes) (renamed children : list bytes) : ZM unit :=
  match children with
  | [] => ret tt
  | child :: children' =>
      r <- attempt (RenameChildNoLock source_path dest_path child) ;;
      match r with
      | inl failed_rename =>
          RollbackAuxDirRenameNoLock source_path dest_path renamed ;; fail failed_rename
      | inr _ => rename_children source_path dest_path (renamed ++ [child]) children'
      end
  end.

Definition RenameAuxPathNoLock (source_path dest_path : bytes) : ZM unit :=
  sp <- ToAuxPath source_path ;;
  dp <- ToAuxPath dest_path ;;
  on_aux (aux_RenameFile sp dp) ;;
  children <- GetZenFSChildrenNoLock source_path true ;;
  rename_children source_path dest_path [] children.
End rename.

(** The file [o] gets the new name, or keeps the old one when that cannot be
    persisted. *)
Definition move_file (o : nat) (source_path dest_path : bytes) : ZM unit :=
  on_obj o (RenameLink source_path dest_path) ;;
  files_erase source_path ;;
  files_insert dest_path o ;;
  r <- attempt (SyncFileMetadataNoLock o false) ;;
  match r with
  | inl _ =>
      files_erase dest_path ;;
      on_obj o (RenameLink dest_path source_path) ;;
      files_insert source_path o
  | inr _ => ret tt
  end.

(** A directory renames its files, which are no directories. *)
Fixpoint RenameFileNoLock (n : nat) (src_path dst_path : bytes) : ZM unit :=
  match n with
  | O => stuckM OutOfFuel
  | S n' =>
      let source_path := FormatPathLexically src_path in
      let dest_path := FormatPathLexically dst_path in
      source_file <- GetFileNoLock source_path ;;
      match source_file with
      | Some o =>
          with_ref o (
            existing_dest_file <- GetFileNoLock dest_path ;;
            match existing_dest_file with
            | Some d =>
                with_ref d (DeleteFileNoLock dest_path ;; move_file o source_path dest_path)
            | None => move_file o source_path dest_path
            end)
      | None => RenameAuxPathNoLock (RenameFileNoLock n') source_path dest_path
      end
  end.

Definition RenameFile (source_path dest_path : bytes) : ZM unit :=
  RenameFileNoLock loop_bound source_path dest_path ;; on_device ResetUnusedIOZones.

(** ** Formatting and mounting *)

Definition Repair : ZM unit :=
  s <- get ;;
  forM (entries (files_ s)) (fun p =>
    f <- file_of p.2 ;; when (HasActiveExtent f) (on_obj p.2 Recover)).

(** [uuid] and [version] are [Env::GenerateUniqueId()] and [ZENFS_VERSION]. *)
Definition MkFS (aux_fs_p : bytes) (finish_threshold : Z) (enable_gc : bool) (uuid version : bytes) :
  ZM unit :=
  let aux_fs_path := FormatPathLexically aux_fs_p in
  if 255 <? zlen aux_fs_path
  then fail (InvalidArgument "Aux filesystem path must be less than 256 bytes\n") else
  ClearFiles ;;
  on_device ResetUnusedIOZones ;;
  s <- get ;;
  meta_zone <- foldM (fun meta_zone mz =>
    acq <- on_device (Acquire mz) ;;
    if negb acq then fail (Aborted "Could not aquire busy flag of zone ") else
    r <- attempt (on_device (Zone_Reset mz)) ;;
    let meta_zone :=
      match r, meta_zone with inr _, None => Some mz | _, _ => meta_zone end in
    (if bool_decide (meta_zone = Some mz) then ret tt else
     rel <- on_device (Release mz) ;;
     if negb rel then fail (Aborted "Could not unset busy flag of zone ") else ret tt) ;;
    ret meta_zone) None (meta_zones (zbd_ s)) ;;
  match meta_zone with
  | None => fail (IOError "Not available meta zones\n")
  | Some meta_zone =>
      log <- on_device (ZenMetaLog_new meta_zone) ;;
      let super_string :=
        (Superblock_EncodeTo (Superblock_new uuid version aux_fs_path finish_threshold enable_gc)).1 in
      r <- attempt (on_device (AddRecord meta_zone super_string)) ;;
      match r with
      | inl s => close_log log ;; fail s
      | inr _ =>
          r <- attempt (PersistSnapshot log) ;;
          close_log log ;;
          match r with
          | inl _ => fail (IOError "Failed persist snapshot")
          | inr _ => ret tt
          end
      end
  end.

(** A metadata zone with a valid superblock. *)
Record Candidate := mkCandidate { c_super : Superblock; c_log : ZenMetaLog }.

Definition close_logs (l : list ZenMetaLog) : ZM unit := forM l close_log.

(** [for (const auto z : metazones)]: the candidates found.  The logs that are
    still open are closed on the way out. *)
Fixpoint find_superblocks (zs : list nat) (found : list Candidate) : ZM (list Candidate) :=
  match zs with
  | [] => ret found
  | z :: zs' =>
      acq <- on_device (Acquire z) ;;
      if negb acq then
        close_logs (c_log <$> found) ;; fail (Aborted "Could not aquire busy flag of zone")
      else
        log <- on_device (ZenMetaLog_new z) ;;
        let* (r, log) := read_record log in
        match r with
        | inl _ => close_log log ;; find_superblocks zs' found
        | inr super_record =>
            if zlen super_record =? 0 then close_log log ;; find_superblocks zs' found else
            let '(s, sb) := Superblock_DecodeFrom Superblock_default super_record in
            let s := if ok s then CompatibleWith sb else s in
            if negb (ok s) then close_log log ;; close_logs (c_log <$> found) ;; fail s
            else find_superblocks zs' (found ++ [mkCandidate sb log])
        end
  end.

(** Descending by sequence number, then by index. *)
Definition seq_ge (p q : nat * Candidate) : Prop :=
  GetSeq (c_super q.2) < GetSeq (c_super p.2) \/
  (GetSeq (c_super p.2) = GetSeq (c_super q.2) /\ (q.1 <= p.1)%nat).
#[export] Instance seq_ge_dec : RelDecision seq_ge.
Proof. intros p q. unfold seq_ge. apply _. Defined.
Definition by_sequence (l : list Candidate) : list Candidate :=
  snd <$> merge_sort seq_ge (imap pair l).

(** [for (const auto& sm : seq_map)]: the candidate that was recovered from and
    the ones that were not tried. *)
Fixpoint recover_first (l : list Candidate) : ZM (Candidate * list Candidate) :=
  match l with
  | [] => fail (IOError "Failed to mount filesystem")
  | c :: l' =>
      r <- attempt (RecoverFrom (c_log c)) ;;
      match r with
      | inr _ => ret (c, l')
      | inl s =>
          close_log (c_log c) ;;
          if IsNotFound s then recover_first l'
          else close_logs (c_log <$> l') ;; fail s
      end
  end.

Definition Mount (readonly : bool) : ZM unit :=
  s <- get ;;
  let metazones := meta_zones (zbd_ s) in
  if (length metazones <? 2)%nat then fail (NotSupported "") else
  found <- find_superblocks metazones [] ;;
  match found with
  | [] => fail (NotFound "No valid superblock found")
  | _ =>
      let* (c, rest) := recover_first (by_sequence found) in
      modify (set_meta_log (Some (c_log c))) ;;
      modify (set_superblock (Some (c_super c))) ;;
      on_device (modify (set_finish_threshold (GetFinishTreshold (c_super c)))) ;;
      r <- attempt (on_aux (aux_CreateDirIfMissing (GetAuxFsPath (c_super c)))) ;;
      close_logs (c_log <$> rest) ;;
      returnS (status_of r) ;;
      when (negb readonly) (
        Repair ;;
        RollMetaZoneLocked ;;
        on_device ResetUnusedIOZones ;;
        when (IsGCEnabled (c_super c)) (modify (set_run_gc_worker true)))
  end.

(** [~ZenFS()] *)
Definition ZenFS_delete : ZM unit :=
  modify (set_run_gc_worker false) ;;
  s <- get ;;
  match meta_log_ s with Some log => close_log log | None => ret tt end ;;
  modify (set_meta_log None) ;;
  ClearFiles.

(** ** Garbage collection *)

Definition extent_snapshot (fname : bytes) (e : ZoneExtent) : ZM ZoneExtentSnapshot :=
  zn <- on_device (get_zone (e_zone_ e)) ;;
  ret (mkExtentSnapshot (e_start_ e) (e_length_ e) (start_ zn) fname).

Definition extent_snapshots (fname : bytes) (es : list ZoneExtent) : ZM (list ZoneExtentSnapshot) :=
  foldM (fun acc e => x <- extent_snapshot fname e ;; ret (acc ++ [x])) [] es.

(** [GetZenFSSnapshot] with [zone_] and [zone_file_]: the zones, and for the files
    that are not open for writing the file and its extents. *)
Definition GetZenFSSnapshot :
  ZM (list ZoneSnapshot * list ZoneFileSnapshot * list ZoneExtentSnapshot) :=
  zones <- on_device GetZoneSnapshot ;;
  s <- get ;;
  let* (fs, es) := foldM (fun acc p =>
    got <- on_obj p.2 TryAcquireWRLock ;;
    if negb got then ret acc else
    f <- file_of p.2 ;;
    fname <- on_obj p.2 GetFilename ;;
    x <- extent_snapshots fname (extents_ f) ;;
    on_obj p.2 ReleaseWRLock ;;
    ret (acc.1 ++ [mkFileSnapshot (file_id_ f) fname x], acc.2 ++ x)) ([], []) (entries (files_ s)) in
  ret (zones, fs, es).

(** One extent of the new list: moved when it is among [migrate_exts] and a zone
    is found for it.  [None]: the file has gone. *)
Definition migrate_extent (fname : bytes) (o : nat) (migrate_exts : list ZoneExtentSnapshot)
  (ext : ZoneExtent) : ZM (option ZoneExtent) :=
  if negb (existsb (fun x => (es_start x =? e_start_ ext) && (es_length x =? e_length_ ext)) migrate_exts)
  then ret (Some ext) else
  zfile <- file_of o ;;
  r <- attempt (on_device (TakeMigrateZone (zf_lifetime_ zfile) (e_length_ ext))) ;;
  match r with
  | inl _ => ret (Some ext)
  | inr None => on_device (ReleaseMigrateZone None) ;; ret (Some ext)
  | inr (Some target_zone) =>
      zn <- on_device (get_zone target_zone) ;;
      target_start <- (
        if is_sparse_ zfile then
          let header_size := header_size (is_wal_ zfile) in
          attempt (on_obj o (MigrateData (e_start_ ext -64 header_size)
                     (u32 (e_length_ ext +64 header_size)) target_zone)) ;;
          on_device (AddGCBytesWritten (e_length_ ext +64 header_size)) ;;
          ret (wp_ zn +64 header_size)
        else
          attempt (on_obj o (MigrateData (e_start_ ext) (u32 (e_length_ ext)) target_zone)) ;;
          on_device (AddGCBytesWritten (e_length_ ext)) ;;
          ret (wp_ zn)) ;;
      still <- GetFileNoLock fname ;;
      match still with
      | None => on_device (ReleaseMigrateZone (Some target_zone)) ;; ret None
      | Some _ =>
          on_device (add_used target_zone (e_length_ ext)) ;;
          on_device (ReleaseMigrateZone (Some target_zone)) ;;
          ret (Some (mkExtent target_start (e_length_ ext) target_zone))
      end
  end.

Fixpoint migrate_extents (fname : bytes) (o : nat) (migrate_exts : list ZoneExtentSnapshot)
  (exts : list ZoneExtent) : ZM (list ZoneExtent) :=
  match exts with
  | [] => ret []
  | ext :: exts' =>
      r <- migrate_extent fname o migrate_exts ext ;;
      match r with
      | None => ret exts
      | Some ext' => l <- migrate_extents fname o migrate_exts exts' ;; ret (ext' :: l)
      end
  end.

Definition MigrateFileExtents (fname : bytes) (migrate_exts : list ZoneExtentSnapshot) : ZM unit :=
  zfile <- GetFile fname ;;
  match zfile with
  | None => ret tt
  | Some o =>
      with_ref o (
        got <- on_obj o TryAcquireWRLock ;;
        if negb got then ret tt else
        f <- file_of o ;;
        new_extent_list <- migrate_extents fname o migrate_exts (extents_ f) ;;
        attempt (SyncFileExtents o new_extent_list) ;;
        on_obj o ReleaseWRLock)
  end.

(** The names of the files to migrate in the order of the map, each with its
    extents. *)
Definition group_by_file (exts : list ZoneExtentSnapshot) : list (bytes * list ZoneExtentSnapshot) :=
  let ssts := filter (fun x => ends_with (es_filename x) sst_name = true) exts in
  let fnames := entries (list_to_map ((fun x => (es_filename x, O)) <$> ssts)) in
  (fun p => (p.1, filter (fun x => es_filename x = p.1) ssts)) <$> fnames.

Definition MigrateExtents (extents : list ZoneExtentSnapshot) : ZM unit :=
  forM (group_by_file extents) (fun p =>
    MigrateFileExtents p.1 p.2 ;; on_device ResetUnusedIOZones).

Definition GC_START_LEVEL : Z := 20.
Definition GC_SLOPE : Z := 3.

Definition garbage_percent (z : ZoneSnapshot) : Z :=
  100 -64 (100 *64 zs_used_capacity z / zs_max_capacity z).

(** The zones to collect: full ones with more garbage than the threshold, which
    are not all garbage. *)
Definition gc_candidate (threshold : Z) (z : ZoneSnapshot) : bool :=
  (zs_capacity z =? 0) && (threshold <? garbage_percent z) && (garbage_percent z <? 100).

(** One round of [GCWorker]. *)
Definition gc_round : ZM unit :=
  used <- on_device GetUsedSpace ;;
  reclaimable <- on_device GetReclaimableSpace ;;
  free <- on_device GetFreeSpace ;;
  let non_free := used +64 reclaimable in
  if free +64 non_free =? 0 then stuckM Undefined else   (* division by zero *)
  let free_percent := (100 *64 free) / (free +64 non_free) in
  if GC_START_LEVEL <? free_percent then ret tt else
  let* (zones, _, extents) := GetZenFSSnapshot in
  if existsb (fun z => (zs_capacity z =? 0) && (zs_max_capacity z =? 0)) zones
  then stuckM Undefined else   (* division by zero *)
  let threshold := 100 -64 (GC_SLOPE *64 (GC_START_LEVEL -64 free_percent)) in
  let migrate_zones_start := zs_start <$> filter (fun z => gc_candidate threshold z = true) zones in
  let migrate_exts := filter (fun e => es_zone_start e ∈ migrate_zones_start) extents in
  match migrate_exts with
  | [] => ret tt
  | _ => attempt (MigrateExtents migrate_exts) ;; ret tt
  end.

(** ** Files in use *)

(** A method of a writable file runs on its file, through [metadata_writer_] on
    the whole file system, and on its own members. *)
Definition on_writer {B} (m : M (FSt D L (nat * FS) * WFile) B) : M (FS * Writer) B := fun sw =>
  let '(s, w) := sw in
  match objs s !! w_obj w with
  | None => Stuck Undefined
  | Some f =>
      let repack t wf := (unpack t, mkWriter (w_obj w) wf (f_buf t)) in
      match m (mkFSt (zbd_ s) f (w_buf w) (w_obj w, s), w_file w) with
      | Ok a (t, wf) => Ok a (repack t wf)
      | Err e (t, wf) => Err e (repack t wf)
      | Stuck x => Stuck x
      end
  end.

Definition Writer_Append (data : bytes) : M (FS * Writer) unit := on_writer (WFile_Append data).
Definition Writer_Sync : M (FS * Writer) unit := on_writer WFile_Sync.
Definition Writer_Fsync : M (FS * Writer) unit := on_writer Fsync.
Definition Writer_Close : M (FS * Writer) unit := on_writer CloseInternal.

(** The destructor of the writer and of the last reference to its file. *)
Definition delete_writer (w : Writer) : ZM unit := fun s =>
  match on_writer ZonedWritableFile_delete (s, w) with
  | Ok _ (s', _) | Err _ (s', _) => drop_ref (w_obj w) s'
  | Stuck x => Stuck x
  end.

Definition Reader_Read (r : Reader) (n : Z) : ZM (IOStatus * bytes * Reader) :=
  let* (st, data, sf) := on_obj (r_obj r) (SeqFile_Read (r_file r) n) in
  ret (st, data, mkReader (r_obj r) sf).
Definition delete_reader (r : Reader) : ZM unit := drop_ref (r_obj r).
End ops.
