(* ===== verification/ZenFSWriter.v ===== *)
(** * Writers of the file system

    The composition of the write path, the metadata writer and the journal: a
    writer that [ZenFS] handed out fulfils the contract of writable files, and
    what it does leaves all other files of the file system as they are. *)

From S2P Require Import Prelude Status Coding Device MemDevice Zone Zbd ZbdProps ZbdFrame MetaLog ZoneFile ZoneFileProps FileWrite FileRead FileReadProps FileWriteProps WritableProps Paths ZenFS ZenFSFrame ZenFSOps.

Section fs_writer.
Context {D L A : Type} `{spec : BackendSpec D L} {szd : SZDOnceLog D L} {cfg : BuildConfig}.
Abbreviation FS := (ZenFS D L A).
Implicit Types s : ZenFS D L A.

(** What a method of the writer runs on. *)
Definition view s (w : Writer) (f : ZoneFile L) : FSt D L (nat * FS) * WFile :=
  (mkFSt (zbd_ s) f (w_buf w) (w_obj w, s), w_file w).

Definition fs_writer_inv (p : FS * Writer) : Prop :=
  exists f, objs p.1 !! w_obj p.2 = Some f /\
    writer_inv (mws := ZenFSMetadataWriterSpec (w_obj p.2) p.1) (view p.1 p.2 f).

Definition fs_abs (p : FS * Writer) : spec_state :=
  match objs p.1 !! w_obj p.2 with Some f => abs (view p.1 p.2 f) | None => ([], []) end.

(** The names, the other files and the data of all extents stay. *)
Definition fs_kept (p p' : FS * Writer) : Prop :=
  w_obj p'.2 = w_obj p.2 /\ files_ p'.1 = files_ p.1 /\ next_file_id_ p'.1 = next_file_id_ p.1 /\
  (forall o f, o <> w_obj p.2 -> objs p.1 !! o = Some f -> exists f', objs p'.1 !! o = Some f' /\ marked f f') /\
  forall es, Forall (stored_extent (zbd_ p.1)) es ->
    contents (zbd_be_ (zbd_ p'.1)) es = contents (zbd_be_ (zbd_ p.1)) es /\
    Forall (stored_extent (zbd_ p'.1)) es.

Lemma fs_kept_preorder : PreOrder fs_kept.
Proof.
  split.
  - intros [s w]. split_and!; try done. intros o f _ Hf. exists f. split; [done|apply marked_refl].
  - intros p1 p2 p3 (W1 & F1 & N1 & O1 & E1) (W2 & F2 & N2 & O2 & E2). split_and!; try congruence.
    + intros o f Ho Hf. destruct (O1 o f Ho Hf) as (g & Hg & M1).
      destruct (O2 o g ltac:(congruence) Hg) as (h & Hh & M2). exists h. split; [done|]. by eapply marked_trans.
    + intros es Hes. destruct (E1 es Hes) as [C1 S1]. destruct (E2 es S1) as [C2 S2]. by rewrite C2, C1.
Qed.

(** What an operation on the view does to the file system. *)
Lemma view_kept s w f (t : FSt D L (nat * FS)) wf :
  objs s !! w_obj w = Some f ->
  ctx_ok (w_obj w) s (meta_zones (zbd_ s)) (w_obj w, s) ->
  others_kept (mws := ZenFSMetadataWriterSpec (w_obj w) s) (view s w f).1 t ->
  let p' := (unpack t, mkWriter (w_obj w) wf (f_buf t)) in
  fs_kept (s, w) p' /\ objs p'.1 !! w_obj w = Some (f_file t) /\
  log_ok (meta_zones (zbd_ s)) p'.1 /\ meta_zones (f_zbd t) = meta_zones (zbd_ s) /\ zbd_ p'.1 = f_zbd t.
Proof.
  intros Hf Hctx (He & Hm & Hk). specialize (Hk Hctx). cbn [view f_zbd fst f_ctx] in *.
  destruct t as [z g b [o s1]]. destruct Hk as (Ho1 & Hl & Hfi & Hn & Ho). cbn in *. subst o.
  split; [|split; [by rewrite lookup_insert_eq|done]].
  split_and!; try done. cbn. intros p h Hne Hp. destruct (Ho p h) as (h' & Hh' & M).
  - by rewrite lookup_delete_ne.
  - exists h'. by rewrite lookup_insert_ne.
Qed.

Lemma ctx_ok_start o s : log_ok (meta_zones (zbd_ s)) s -> ctx_ok o s (meta_zones (zbd_ s)) (o, s).
Proof.
  intros Hl. split; [done|]. split; [done|]. split; [done|]. split; [done|]. cbn. intros p f Hp.
  apply lookup_delete_Some in Hp as [_ Hp]. exists f. split; [done|apply marked_refl].
Qed.

(** The invariant is about the file, the device and the buffer. *)
Lemma writer_inv_ctx o s s' (t : FSt D L (nat * FS)) wf :
  writer_inv (mws := ZenFSMetadataWriterSpec o s) (t, wf) -> log_ok (meta_zones (f_zbd t)) s' ->
  zbd_ s' = f_zbd t ->
  writer_inv (mws := ZenFSMetadataWriterSpec o s') (mkFSt (zbd_ s') (f_file t) (f_buf t) (o, s'), wf).
Proof.
  intros [[Hd _ Hw Hsz Hact] ? ? ? ? ? ? ? ? ?] Hl Hz. rewrite <- Hz in *. split; cbn in *; try done; try congruence.
  split; cbn in *; try done; try congruence; [by apply ctx_ok_start|by rewrite Hz].
Qed.

Definition fs_exec (op : wop) : M (FS * Writer) unit :=
  match op with OpAppend d => Writer_Append d | OpSync => Writer_Sync end.

Lemma fs_exec_eq op : fs_exec op = on_writer (exec_op op).
Proof. by destruct op. Qed.

#[export] Instance fs_writer_impl : WritableFile (FS * Writer) fs_exec.
Proof.
  refine {| w_inv := fs_writer_inv; w_abs := fs_abs; w_kept := fs_kept;
            w_room := fun p => wf_buffer_sz (w_file p.2) - wf_buffer_pos (w_file p.2);
            w_preorder := fs_kept_preorder |}.
  intros op [s w] (f & Hf & Hi) Hu. rewrite fs_exec_eq. unfold on_writer. cbn [fst snd] in *.
  set (mws := ZenFSMetadataWriterSpec (w_obj w) s) in *.
  pose proof (w_step (WritableFile := ZonedWritableFile_impl) op (view s w f) Hi Hu) as Hstep.
  pose proof (fi_writer _ (wi_file _ Hi)) as Hctx. cbn in Hctx.
  unfold fs_abs at 1 3. cbn [fst snd]. rewrite Hf. fold (view s w f).
  destruct (exec_op op (view s w f)) as [[] [t wf]|e [t wf]|]; [| |done]; cbn [w_inv w_abs w_kept w_room ZonedWritableFile_impl] in Hstep.
  - destruct Hstep as (Hi' & Hs & Ho & Hr). cbn [fst] in Ho.
    destruct (view_kept s w f t wf Hf Hctx Ho) as (Hk & Hf' & Hl & Hm & Hz). cbn [fst snd] in Hf', Hl, Hz.
    split; [|split; [|by split]].
    + exists (f_file t). split; [done|]. unfold view. cbn [fst snd w_obj w_buf w_file].
      apply (writer_inv_ctx (w_obj w) s (unpack t) t wf); [done|by rewrite Hm|done].
    + unfold fs_abs. cbn [fst snd w_obj]. rewrite Hf'. revert Hs. unfold abs, file_contents, pending, view.
      cbn [fst snd f_zbd f_file f_buf w_file w_buf]. by rewrite Hz.
  - destruct Hstep as [Hs Ho]. cbn [fst] in Ho.
    destruct (view_kept s w f t wf Hf Hctx Ho) as (Hk & Hf' & Hl & Hm & Hz). cbn [fst snd] in Hf', Hl, Hz.
    split; [|done]. unfold fs_abs. cbn [fst snd w_obj]. rewrite Hf'. revert Hs.
    unfold abs, file_contents, pending, view. cbn [fst snd f_zbd f_file f_buf w_file w_buf]. by rewrite Hz.
Defined.
End fs_writer.


Definition fs_writer0 : ZenFS MemDev MemLog unit * Writer :=
  (fs0, mkWriter 0 (mkWFile true 0 16 0 3 true) (zeros 16)).

