(* ===== verification/ZenFSTable.v ===== *)
(** * The table of files

    What the operations of the file system on names do to the table of files:
    every name in the table leads to a file that has it as a link and the other
    way round, and the ids of the files are distinct.  The theorems look at the
    part of the state that matters for names, a [Table]; everything else,
    writing the journal included, leaves it alone. *)

From S2P Require Import Prelude Status Coding Device MemDevice Zone Zbd Superblock MetaLog ZoneFile FileWrite FileRead Paths ZenFS ZenFSOps.

(** ** The view of the names *)

(** The names, for every file object its links and its id, and the counters. *)
Record Table := mkTable {
  t_files : gmap bytes nat;
  t_links : gmap nat (list bytes * Z);
  t_next_id : Z;
  t_next_obj : nat
}.

Definition t_erase (n : bytes) (t : Table) : Table :=
  mkTable (base.delete n (t_files t)) (t_links t) (t_next_id t) (t_next_obj t).
Definition t_insert (n : bytes) (o : nat) (t : Table) : Table :=
  match t_files t !! n with
  | Some _ => t
  | None => mkTable (<[n := o]> (t_files t)) (t_links t) (t_next_id t) (t_next_obj t)
  end.
Definition t_relink (o : nat) (x : list bytes * Z) (t : Table) : Table :=
  mkTable (t_files t) (<[o := x]> (t_links t)) (t_next_id t) (t_next_obj t).
Definition t_drop (o : nat) (t : Table) : Table :=
  mkTable (t_files t) (base.delete o (t_links t)) (t_next_id t) (t_next_obj t).

Definition in_table (t : Table) (o : nat) : Prop := exists n, t_files t !! n = Some o.

(** Names and links agree, and ids are distinct and below the next one. *)
Record table_ok (t : Table) : Prop := {
  tb_link : forall n o, t_files t !! n = Some o ->
    exists ls id, t_links t !! o = Some (ls, id) /\ n ∈ ls;
  tb_name : forall o ls id n, in_table t o -> t_links t !! o = Some (ls, id) -> n ∈ ls ->
    t_files t !! n = Some o;
  tb_nodup : forall o ls id, in_table t o -> t_links t !! o = Some (ls, id) -> NoDup ls;
  tb_id : forall o ls id, in_table t o -> t_links t !! o = Some (ls, id) -> id < t_next_id t;
  tb_inj : forall o o' ls ls' id, in_table t o -> in_table t o' ->
    t_links t !! o = Some (ls, id) -> t_links t !! o' = Some (ls', id) -> o = o';
  tb_obj : forall o x, t_links t !! o = Some x -> (o < t_next_obj t)%nat
}.

(** ** Steps on the view *)

(** The links of one file and the names that lead to it change. *)
Lemma table_ok_update t o l id files nid nobj :
  table_ok t ->
  (forall n p, p <> o -> files !! n = Some p <-> t_files t !! n = Some p) ->
  (forall n, files !! n = Some o <-> n ∈ l) -> NoDup l -> id < nid -> t_next_id t <= nid ->
  (forall p lp ip, p <> o -> in_table t p -> t_links t !! p = Some (lp, ip) -> ip <> id) ->
  (o < nobj)%nat -> (t_next_obj t <= nobj)%nat ->
  table_ok (mkTable files (<[o := (l, id)]> (t_links t)) nid nobj).
Proof.
  intros Hok Hother Hself Hnd Hid Hnid Hdist Ho Hnobj. set (t' := mkTable _ _ _ _).
  assert (forall p lp ip, in_table t' p -> t_links t' !! p = Some (lp, ip) ->
    (p = o /\ lp = l /\ ip = id) \/ (p <> o /\ in_table t p /\ t_links t !! p = Some (lp, ip))) as Hcase.
  { intros p lp ip [n Hn] Hp. cbn in *. destruct (decide (p = o)) as [->|Hne].
    - rewrite lookup_insert_eq in Hp. left. by simplify_eq.
    - rewrite lookup_insert_ne in Hp by done. right. split_and!; try done. exists n. by apply Hother. }
  split.
  - intros n p Hn. cbn in *. destruct (decide (p = o)) as [->|Hne].
    + rewrite lookup_insert_eq. exists l, id. split; [done|]. by apply Hself.
    + rewrite lookup_insert_ne by done. apply Hother in Hn; [|done]. by eapply tb_link.
  - intros p lp ip n Hin Hp Hn. cbn. destruct (Hcase p lp ip Hin Hp) as [(-> & -> & ->)|(Hne & Hin' & Hp')].
    + by apply Hself.
    + apply Hother; [done|]. by eapply tb_name.
  - intros p lp ip Hin Hp. destruct (Hcase p lp ip Hin Hp) as [(-> & -> & ->)|(Hne & Hin' & Hp')]; [done|].
    by eapply tb_nodup.
  - intros p lp ip Hin Hp. cbn. destruct (Hcase p lp ip Hin Hp) as [(-> & -> & ->)|(Hne & Hin' & Hp')]; [done|].
    pose proof (tb_id _ Hok _ _ _ Hin' Hp'). lia.
  - intros p q lp lq i Hp Hq Hlp Hlq. destruct (Hcase p lp i Hp Hlp) as [(E1 & _ & E2)|(Hne & Hp' & Hlp')],
      (Hcase q lq i Hq Hlq) as [(E3 & _ & E4)|(Hne' & Hq' & Hlq')]; [congruence| | |].
    + subst. by destruct (Hdist q lq id Hne' Hq' Hlq').
    + subst. by destruct (Hdist p lp id Hne Hp' Hlp').
    + by apply (tb_inj _ Hok p q lp lq i).
  - intros p x Hp. cbn in *. destruct (decide (p = o)) as [->|Hne]; [done|].
    rewrite lookup_insert_ne in Hp by done. pose proof (tb_obj _ Hok _ _ Hp). lia.
Qed.

(** An object that no name leads to may go. *)
Lemma table_ok_drop t o : table_ok t -> ~ in_table t o -> table_ok (t_drop o t).
Proof.
  intros Hok Hout. assert (forall p x, t_links (t_drop o t) !! p = Some x -> t_links t !! p = Some x) as Hsub.
  { intros p x Hp. cbn in Hp. by apply lookup_delete_Some in Hp as [_ Hp]. }
  split.
  - intros n p Hn. destruct (tb_link _ Hok n p Hn) as (ls & id & Hp & Hin). exists ls, id. split; [|done].
    cbn. rewrite lookup_delete_ne; [done|]. intros ->. apply Hout. by exists n.
  - intros p ls id n Hin Hp Hn. by apply (tb_name _ Hok p ls id n Hin (Hsub _ _ Hp)).
  - intros p ls id Hin Hp. by apply (tb_nodup _ Hok p ls id Hin (Hsub _ _ Hp)).
  - intros p ls id Hin Hp. by apply (tb_id _ Hok p ls id Hin (Hsub _ _ Hp)).
  - intros p q lp lq i Hp Hq Hlp Hlq. by apply (tb_inj _ Hok p q lp lq i Hp Hq (Hsub _ _ Hlp) (Hsub _ _ Hlq)).
  - intros p x Hp. by apply (tb_obj _ Hok p x (Hsub _ _ Hp)).
Qed.

Lemma erase_first_spec n l l' :
  erase_first n l = Some l' -> NoDup l -> (n ∉ l') /\ NoDup l' /\ (forall m, (m ∈ l) <-> m = n \/ m ∈ l').
Proof.
  revert l'. induction l as [|y l IH]; intros l' H Hnd; [done|]. simpl in H.
  apply NoDup_cons in Hnd as [Hy Hnd]. destruct (decide (y = n)) as [->|Hne].
  - simplify_eq. split_and!; [done..|]. intros m. apply elem_of_cons.
  - destruct (erase_first n l) as [l1|]; [|done]. simplify_eq/=. destruct (IH l1 eq_refl Hnd) as (H1 & H2 & H3).
    split_and!.
    + rewrite elem_of_cons. intros [->|?]; done.
    + apply NoDup_cons. split; [|done]. intros Hin. apply Hy, H3. by right.
    + intros m. rewrite !elem_of_cons, H3. tauto.
Qed.

Lemma erase_first_in n l : n ∈ l -> exists l', erase_first n l = Some l'.
Proof.
  induction l as [|y l IH]; intros H; [by apply elem_of_nil in H|]. simpl. destruct (decide (y = n)) as [|Hne]; [eauto|].
  apply elem_of_cons in H as [->|H]; [done|]. destruct (IH H) as [l' ->]. by eexists.
Qed.

(** A file of the table with its links, seen as a whole. *)
Lemma table_file t n o :
  table_ok t -> t_files t !! n = Some o ->
  exists ls id, t_links t !! o = Some (ls, id) /\ NoDup ls /\ n ∈ ls /\ id < t_next_id t /\
    (forall m, t_files t !! m = Some o <-> m ∈ ls) /\ (o < t_next_obj t)%nat /\
    forall p lp ip, p <> o -> in_table t p -> t_links t !! p = Some (lp, ip) -> ip <> id.
Proof.
  intros Hok Hn. assert (in_table t o) as Hin by (by exists n).
  destruct (tb_link _ Hok n o Hn) as (ls & id & Ho & Hmem). exists ls, id. split_and!; try done.
  - by eapply tb_nodup.
  - by eapply tb_id.
  - intros m. split.
    + intros Hm. destruct (tb_link _ Hok m o Hm) as (ls' & id' & Ho' & Hm'). by simplify_eq.
    + by eapply tb_name.
  - by eapply tb_obj.
  - intros p lp ip Hne Hp Hlp ->. apply Hne. by apply (tb_inj _ Hok p o lp ls id).
Qed.

(** Taking a name and the link of its file away. *)
Lemma table_ok_unlink t n o ls id l :
  table_ok t -> t_files t !! n = Some o -> t_links t !! o = Some (ls, id) -> erase_first n ls = Some l ->
  table_ok (t_relink o (l, id) (t_erase n t)).
Proof.
  intros Hok Hn Ho Hl. destruct (table_file t n o Hok Hn) as (ls' & id' & Ho' & Hnd & _ & Hid & Hself & Hobj & Hdist).
  rewrite Ho in Ho'. injection Ho' as <- <-. destruct (erase_first_spec n ls l Hl Hnd) as (Hnl & Hnd' & Hiff).
  apply (table_ok_update t); try done.
  - intros m p Hne. cbn. rewrite lookup_delete_Some. split; [by intros [_ ?]|]. intros Hm. split; [|done].
    intros ->. by simplify_eq.
  - intros m. cbn. rewrite lookup_delete_Some, Hself, Hiff. split; [by intros [? [->|?]]|].
    intros Hm. split; [by intros ->|by right].
Qed.

(** Giving a file of the table a new name, at the end of its links. *)
Lemma table_ok_link t n m o ls id :
  table_ok t -> t_files t !! n = Some o -> t_links t !! o = Some (ls, id) -> t_files t !! m = None ->
  table_ok (t_insert m o (t_relink o (ls ++ [m], id) t)).
Proof.
  intros Hok Hn Ho Hm. destruct (table_file t n o Hok Hn) as (ls' & id' & Ho' & Hnd & _ & Hid & Hself & Hobj & Hdist).
  rewrite Ho in Ho'. injection Ho' as <- <-. unfold t_insert. cbn. rewrite Hm.
  apply (table_ok_update t); try done.
  - intros k p Hne. destruct (decide (k = m)) as [->|Hkm].
    + rewrite lookup_insert_eq, Hm. split; [intros [= ?]|]; done.
    + by rewrite lookup_insert_ne.
  - intros k. rewrite elem_of_app, list_elem_of_singleton, <-Hself. destruct (decide (k = m)) as [->|Hkm].
    + rewrite lookup_insert_eq. split; [by right|done].
    + rewrite lookup_insert_ne by done. split; [by left|by intros [?|?]].
  - apply NoDup_app. split_and!; [done| |apply NoDup_singleton].
    intros k Hk Hkm. apply list_elem_of_singleton in Hkm as ->. apply Hself in Hk. by simplify_eq.
Qed.

(** ** Methods of files *)

Section file_methods.
Context {D L X : Type} `{be : ZonedBlockDeviceBackend D L} {szd : SZDOnceLog D L} {cfg : BuildConfig}.

(** The context, the links and the id stay. *)
Definition named (x : X) (ls : list bytes) (id : Z) (t : FSt D L X) : Prop :=
  f_ctx t = x /\ linkfiles_ (f_file t) = ls /\ file_id_ (f_file t) = id.

Context (x : X) (ls : list bytes) (id : Z).
Abbreviation N := (named x ls id).

Lemma named_on_dev {A} (m : M (Zbd D) A) : preserves N (on_dev m).
Proof. intros t Ht. unfold on_dev, zoom. by destruct (m (f_zbd t)). Qed.

Lemma named_mod_file g :
  (forall f : ZoneFile L, linkfiles_ (g f) = linkfiles_ f /\ file_id_ (g f) = file_id_ f) -> preserves N (mod_file g).
Proof. intros Hg t (Hx & Hl & Hi). destruct (Hg (f_file t)) as [E1 E2]. by split_and!; cbn; rewrite ?E1, ?E2. Qed.
Hint Resolve named_on_dev : preserves.
Hint Extern 1 (preserves _ (mod_file _)) => apply named_mod_file; done : preserves.

Lemma named_wal_call g : preserves N (wal_call g).
Proof. unfold wal_call, get_file. preserves_solve. Qed.
Hint Resolve named_wal_call : preserves.

Lemma named_ResetWALZones : preserves N ResetWALZones.
Proof. unfold ResetWALZones, open_wal, get_file. preserves_solve. Qed.
Lemma named_delete : preserves N ZoneFile_delete.
Proof. unfold ZoneFile_delete, AppendSync, ClearExtents, get_file. preserves_solve. Qed.
Lemma named_SetIOType t : preserves N (SetIOType t).
Proof. unfold SetIOType, GetFilename, get_file. preserves_solve. Qed.
Lemma named_AcquireWRLock : preserves N AcquireWRLock.
Proof. unfold AcquireWRLock, get_file. preserves_solve. Qed.
End file_methods.
#[export] Hint Resolve named_ResetWALZones named_delete named_SetIOType named_AcquireWRLock : preserves.

(** ** The file system *)

Section tables.
Context {D L A : Type} `{be : ZonedBlockDeviceBackend D L} {szd : SZDOnceLog D L}
  {cfg : BuildConfig} {aux : AuxFileSystem A}.
Abbreviation FS := (ZenFS D L A).
Abbreviation ZM := (M (ZenFS D L A)).
Implicit Types s : ZenFS D L A.
Implicit Types t : Table.

Definition names_of (f : ZoneFile L) : list bytes * Z := (linkfiles_ f, file_id_ f).
Definition table s : Table :=
  mkTable (files_ s) (names_of <$> objs s) (next_file_id_ s) (next_obj s).
Definition at_table t s : Prop := table s = t.

Lemma table_set_obj s o f f0 :
  objs s !! o = Some f0 -> names_of f = names_of f0 -> table (set_objs (<[o := f]> (objs s)) s) = table s.
Proof.
  intros Ho Hn. unfold table. cbn. f_equal. rewrite fmap_insert, Hn, insert_id; [done|].
  by rewrite lookup_fmap, Ho.
Qed.

Section keep.
Context (t : Table).

Lemma at_on_device {B} (m : M (Zbd D) B) : preserves (at_table t) (on_device m).
Proof. intros s Hs. unfold on_device, zoom. by destruct (m (zbd_ s)). Qed.

Lemma at_modify f : (forall s, table (f s) = table s) -> preserves (at_table t) (modify f).
Proof. intros Hf s Hs. unfold at_table in *. cbn. by rewrite Hf. Qed.

Lemma at_mod_obj o g : (forall f, names_of (g f) = names_of f) -> preserves (at_table t) (mod_obj o g).
Proof.
  intros Hg s Hs. unfold mod_obj, file_of, bind, get. destruct (objs s !! o) as [f|] eqn:Ho; [|done].
  cbn. unfold at_table in *. by rewrite (table_set_obj s o (g f) f).
Qed.

Lemma at_on_obj {B} o (m : M (FSt D L (nat * FS)) B) :
  (forall x ls id, preserves (named x ls id) m) -> preserves (at_table t) (on_obj o m).
Proof.
  intros Hm s Hs. unfold on_obj. destruct (objs s !! o) as [f|] eqn:Ho; [|done].
  specialize (Hm (o, s) (linkfiles_ f) (file_id_ f) (mkFSt (zbd_ s) f [] (o, s)) ltac:(done)).
  assert (forall u, named (o, s) (linkfiles_ f) (file_id_ f) u -> at_table t (unpack u)) as Hu.
  { intros u (Hx & Hl & Hi). unfold unpack. rewrite Hx. unfold at_table in *. rewrite <-Hs.
    apply (table_set_obj s o _ f Ho). unfold names_of. by rewrite Hl, Hi. }
  destruct (m _); [by apply Hu..|done].
Qed.
Hint Resolve at_on_device : preserves.
Hint Extern 1 (preserves _ (modify _)) => apply at_modify; done : preserves.
Hint Extern 1 (preserves _ (mod_obj _ _)) => apply at_mod_obj; done : preserves.

Lemma at_file_of o : preserves (at_table t) (file_of o).
Proof. unfold file_of. preserves_solve. Qed.
Hint Resolve at_file_of : preserves.

Lemma at_WriteSnapshot log : preserves (at_table t) (WriteSnapshotLocked log).
Proof. unfold WriteSnapshotLocked, ZenFS_EncodeSnapshotTo. preserves_solve. Qed.
Hint Resolve at_WriteSnapshot : preserves.
Lemma at_Roll : preserves (at_table t) RollMetaZoneLocked.
Proof. unfold RollMetaZoneLocked, WriteEndRecord, close_log. preserves_solve. Qed.
Hint Resolve at_Roll : preserves.
Lemma at_PersistRecord r : preserves (at_table t) (PersistRecord r).
Proof. unfold PersistRecord, or_roll. preserves_solve. Qed.
Hint Resolve at_PersistRecord : preserves.
Lemma at_Sync o r : preserves (at_table t) (SyncFileMetadataNoLock o r).
Proof. unfold SyncFileMetadataNoLock, time0. preserves_solve. Qed.
End keep.
Hint Resolve at_on_device at_file_of at_PersistRecord at_Sync : preserves.
Hint Extern 1 (preserves _ (modify _)) => apply at_modify; done : preserves.
Hint Extern 1 (preserves _ (mod_obj _ _)) => apply at_mod_obj; done : preserves.

(** A state of the table as before or, after the step, another one. *)
Definition tok s : Prop := table_ok (table s).

Lemma at_erase t (E : FS -> Prop) n : hoare (at_table t) (files_erase n) (fun _ => at_table (t_erase n t)) E.
Proof. intros s <-. done. Qed.

Lemma at_insert t (E : FS -> Prop) n o : hoare (at_table t) (files_insert n o) (fun _ => at_table (t_insert n o t)) E.
Proof. intros s <-. unfold files_insert, modify, at_table, t_insert. cbn. by destruct (files_ s !! n). Qed.

Lemma at_add_link t (E : FS -> Prop) n o ls id :
  t_links t !! o = Some (ls, id) ->
  hoare (at_table t) (mod_obj o (AddLinkName n)) (fun _ => at_table (t_relink o (ls ++ [n], id) t)) E.
Proof.
  intros Ho s Hs. unfold at_table in Hs. subst t. cbn in Ho. rewrite lookup_fmap in Ho. unfold mod_obj, file_of, bind, get.
  destruct (objs s !! o) as [f|] eqn:Hf; [|done]. injection Ho as <- <-.
  cbn. unfold at_table, table, t_relink. cbn. by rewrite fmap_insert.
Qed.

Lemma at_remove_link t (E : FS -> Prop) n o ls id l :
  t_links t !! o = Some (ls, id) -> erase_first n ls = Some l ->
  hoare (at_table t) (on_obj o (RemoveLinkName n)) (fun _ => at_table (t_relink o (l, id) t)) E.
Proof.
  intros Ho Hl s Hs. unfold at_table in Hs. subst t. cbn in Ho. rewrite lookup_fmap in Ho. unfold on_obj.
  destruct (objs s !! o) as [f|] eqn:Hf; [|done]. injection Ho as <- <-.
  unfold RemoveLinkName, bind, get_file, gets. cbn [f_file]. rewrite Hl. cbn.
  unfold at_table, table, t_relink. cbn. by rewrite fmap_insert.
Qed.

Lemma at_rename_link t (E : FS -> Prop) n m o ls id l :
  t_links t !! o = Some (ls, id) -> erase_first n ls = Some l ->
  hoare (at_table t) (on_obj o (RenameLink n m)) (fun _ => at_table (t_relink o (l ++ [m], id) t)) E.
Proof.
  intros Ho Hl s Hs. unfold at_table in Hs. subst t. cbn in Ho. rewrite lookup_fmap in Ho. unfold on_obj.
  destruct (objs s !! o) as [f|] eqn:Hf; [|done]. injection Ho as <- <-.
  unfold RenameLink, bind, get_file, gets. cbn [f_file]. rewrite Hl. cbn.
  unfold at_table, table, t_relink. cbn. by rewrite fmap_insert.
Qed.
(** The names and counters are those of [t1], and no file has other links than there. *)
Definition sub_table t1 t : Prop :=
  t_files t = t_files t1 /\ t_links t ⊆ t_links t1 /\ t_next_id t = t_next_id t1 /\ t_next_obj t = t_next_obj t1.

(** Properties that survive the end of objects no name leads to. *)
Definition closed (Q : Table -> Prop) : Prop := forall t o, Q t -> Q (t_drop o t).
Definition tq (Q : Table -> Prop) s : Prop := table_ok (table s) /\ Q (table s).

Lemma closed_sub t1 : closed (sub_table t1).
Proof. intros t o (H1 & H2 & H3 & H4). split_and!; try done. cbn. etrans; [apply delete_subseteq|done]. Qed.
Lemma closed_files (P : gmap bytes nat -> Prop) : closed (fun t => P (t_files t)).
Proof. by intros t o H. Qed.
Lemma closed_or Q1 Q2 : closed Q1 -> closed Q2 -> closed (fun t => Q1 t \/ Q2 t).
Proof. intros H1 H2 t o [H|H]; [left; by apply H1|right; by apply H2]. Qed.

Lemma tq_at (Q : Table -> Prop) t s : table_ok t -> Q t -> at_table t s -> tq Q s.
Proof. intros Hok HQ Hs. unfold tq. by rewrite Hs. Qed.
Lemma tq_weaken (Q Q' : Table -> Prop) s : (forall t, Q t -> Q' t) -> tq Q s -> tq Q' s.
Proof. intros HQ [H1 H2]. split; [done|]. by apply HQ. Qed.
Lemma sub_table_refl t : sub_table t t.
Proof. done. Qed.

Lemma drop_ref_tq Q o : closed Q -> preserves (tq Q) (drop_ref o).
Proof.
  intros HQ s Hs. unfold drop_ref. unfold bind at 1, modify. set (s1 := set_refs _ s).
  assert (tq Q s1) as [Hok HQ1] by exact Hs. clearbody s1. clear Hs s.
  unfold collect. unfold bind at 1, get. destruct (referenced o s1) eqn:Hr; [done|]. unfold bind at 1.
  pose proof (at_on_obj (table s1) o ZoneFile_delete ltac:(intros; auto with preserves) s1 eq_refl) as Hk.
  destruct (on_obj o ZoneFile_delete s1) as [[] s2|e s2|]; [|unfold tq; by rewrite Hk|done].
  unfold modify, tq. assert (table (set_objs (base.delete o (objs s2)) s2) = t_drop o (table s1)) as ->.
  { rewrite <-Hk. unfold t_drop, table. cbn. by rewrite fmap_delete. }
  split; [|by apply HQ]. apply table_ok_drop; [done|]. intros [n Hn]. apply orb_false_iff in Hr as [_ Hr].
  apply not_true_iff_false in Hr. apply Hr, existsb_exists. exists (n, o).
  split; [by apply list_elem_of_In, elem_of_map_to_list|by apply bool_decide_eq_true].
Qed.

(** A local reference is dropped at the end. *)
Lemma with_ref_hoare {B} t Q E o (m : ZM B) :
  closed Q -> closed E -> (forall t, Q t -> E t) -> hoare (at_table t) m (fun _ => tq Q) (tq E) ->
  hoare (at_table t) (with_ref o m) (fun _ => tq Q) (tq E).
Proof.
  intros HQ HE Hsub Hm. unfold with_ref. eapply (hoare_bind _ _ (fun _ => at_table t)); [by intros s <-|]. intros [].
  eapply hoare_bind.
  { eapply hoare_conseq; [by apply hoare_attempt|done| |done]. intros r s Hs. exact Hs. }
  intros [e|b]; cbv beta iota.
  - eapply (hoare_bind _ _ (fun _ => tq E)); [by apply preserves_hoare, drop_ref_tq|]. intros []. by apply hoare_fail.
  - eapply (hoare_bind _ _ (fun _ => tq Q)).
    + eapply hoare_conseq; [apply preserves_hoare, (drop_ref_tq Q o HQ)|done|done|].
      intros s. by apply tq_weaken.
    + intros []. by apply hoare_ret.
Qed.

Lemma with_ref_tok {B} t Q o (m : ZM B) :
  closed Q -> hoare (at_table t) m (fun _ => tq Q) tok -> hoare (at_table t) (with_ref o m) (fun _ => tq Q) tok.
Proof.
  intros HQ Hm. eapply hoare_conseq; [apply (with_ref_hoare t Q (fun _ => True) o m); [done..|]|done|done|by intros s [? _]].
  eapply hoare_conseq; [exact Hm|done|done|]. by intros s Hs.
Qed.

(** Steps that keep the table, inside of a triple. *)
Lemma at_keep {B} t (m : ZM B) (E : FS -> Prop) :
  preserves (at_table t) m -> (forall s, at_table t s -> E s) -> hoare (at_table t) m (fun _ => at_table t) E.
Proof. intros Hm HE s Hs. specialize (Hm s Hs). destruct (m s); auto. Qed.

Lemma at_attempt {B} t (m : ZM B) (E : FS -> Prop) :
  preserves (at_table t) m -> hoare (at_table t) (attempt m) (fun _ => at_table t) E.
Proof. intros Hm s Hs. unfold attempt. specialize (Hm s Hs). by destruct (m s). Qed.

Definition stable (p : bytes) : Prop := FormatPathLexically (FormatPathLexically p) = FormatPathLexically p.

(** Taking a link of a file of the table, or putting it back at the end. *)
Lemma table_ok_relast t n o ls id l :
  table_ok t -> t_files t !! n = Some o -> t_links t !! o = Some (ls, id) -> erase_first n ls = Some l ->
  table_ok (t_relink o (l ++ [n], id) (t_insert n o (t_relink o (l, id) (t_erase n t)))).
Proof.
  intros Hok Hn Ho Hl. destruct (table_file t n o Hok Hn) as (ls' & id' & Ho' & Hnd & _ & Hid & Hself & Hobj & Hdist).
  rewrite Ho in Ho'. injection Ho' as <- <-. destruct (erase_first_spec n ls l Hl Hnd) as (Hnl & Hnd' & Hiff).
  unfold t_insert, t_relink, t_erase. cbn. rewrite lookup_delete_eq. cbn.
  rewrite insert_delete_eq, insert_insert_eq.
  apply (table_ok_update t); try done.
  - intros m p Hne. destruct (decide (m = n)) as [->|Hmn].
    + rewrite lookup_insert_eq, Hn. split; intros [= ?]; done.
    + by rewrite lookup_insert_ne.
  - intros m. rewrite elem_of_app, list_elem_of_singleton. destruct (decide (m = n)) as [->|Hmn].
    + rewrite lookup_insert_eq. split; [by right|done].
    + rewrite lookup_insert_ne, Hself, Hiff by done. naive_solver.
  - apply NoDup_app. split_and!; [done| |apply NoDup_singleton].
    intros m Hm Hmn. by apply list_elem_of_singleton in Hmn as ->.
Qed.

(** The table without the name and the link. *)
Definition unlinked (n : bytes) (o : nat) t : Table :=
  match t_links t !! o with
  | Some (ls, id) =>
      match erase_first n ls with Some l => t_relink o (l, id) (t_erase n t) | None => t end
  | None => t
  end.

(** [DeleteFileNoLock] of a name in the table. *)
Lemma delete_named t n o :
  table_ok t -> t_files t !! n = Some o ->
  hoare (at_table t) (with_ref o (
    files_erase n ;;
    on_obj o (RemoveLinkName n) ;;
    f <- file_of o ;;
    r <- attempt (PersistRecord (EncodeFileDeletionTo (file_id_ f) n)) ;;
    match r with
    | inl s => files_insert n o ;; mod_obj o (AddLinkName n) ;; fail s
    | inr _ =>
        f <- file_of o ;;
        match linkfiles_ f with
        | _ :: _ => ret tt
        | [] =>
            mod_obj o (set_is_deleted true) ;;
            when (ends_with n log_name) (attempt (on_obj o ResetWALZones) ;; ret tt)
        end
    end)) (fun _ => tq (sub_table (unlinked n o t)))
    (tq (fun t' => t_files t' = t_files t \/ t_files t' = base.delete n (t_files t))).
Proof.
  intros Hok Hn. destruct (table_file t n o Hok Hn) as (ls & id & Ho & _ & Hin & _).
  destruct (erase_first_in n ls Hin) as [l Hl]. unfold unlinked. rewrite Ho, Hl.
  set (t1 := t_relink o (l, id) (t_erase n t)).
  assert (table_ok t1) as Hok1 by (by apply (table_ok_unlink t n o ls id l)).
  apply with_ref_hoare.
  { apply closed_sub. }
  { apply (closed_files (fun m => m = t_files t \/ m = base.delete n (t_files t))). }
  { intros t' (-> & _). by right. }
  eapply hoare_bind; [apply at_erase|]. intros [].
  eapply hoare_bind; [by apply (at_remove_link (t_erase n t) _ n o ls id l)|]. intros []. fold t1.
  eapply (hoare_bind _ _ (fun _ => at_table t1)).
  { apply at_keep; [auto with preserves|]. intros s Hs. apply (tq_at _ t1); [done|by right|done]. }
  intros f. eapply (hoare_bind _ _ (fun _ => at_table t1)); [apply at_attempt; auto with preserves|].
  intros [e|u].
  - eapply hoare_bind; [apply at_insert|]. intros [].
    set (t2 := t_relink o (l ++ [n], id) (t_insert n o t1)).
    eapply (hoare_bind _ _ (fun _ => at_table t2)).
    { apply (at_add_link (t_insert n o t1) _ n o l id). unfold t_insert, t1. cbn.
      rewrite lookup_delete_eq. cbn. by rewrite lookup_insert_eq. }
    intros []. apply hoare_fail. intros s Hs. apply (tq_at _ t2); [by apply (table_ok_relast t n o ls id l)| |done].
    left. unfold t2, t_insert, t1. cbn. rewrite lookup_delete_eq. cbn. by rewrite insert_delete_eq, insert_id.
  - eapply hoare_conseq; [apply preserves_hoare with (P := at_table t1)|done| |].
    + preserves_solve. apply at_on_obj. auto with preserves.
    + intros a s Hs. by apply (tq_at _ t1).
    + intros s Hs. apply (tq_at _ t1); [done|by right|done].
Qed.

Lemma at_on_aux t f : preserves (at_table t) (on_aux f).
Proof. intros s Hs. unfold on_aux, bind, get. destruct (f (aux_fs s)) as [st a]. unfold modify, returnS. by destruct (ok st). Qed.
Lemma at_ToAuxPath t p : preserves (at_table t) (ToAuxPath p).
Proof. unfold ToAuxPath. preserves_solve. Qed.
Hint Resolve at_on_aux at_ToAuxPath : preserves.

(** A name that is looked up. *)
Lemma lookup_stable {B} p (k : option nat -> ZM B) s :
  stable p -> bind (GetFileNoLock (FormatPathLexically p)) k s = k (files_ s !! FormatPathLexically p) s.
Proof. intros Hp. unfold GetFileNoLock, bind, get, ret. by rewrite Hp. Qed.

(** What an operation on the auxiliary file system leaves. *)
Lemma at_result {B} (m : ZM B) (Q : B -> FS -> Prop) (E : FS -> Prop) s :
  preserves (at_table (table s)) m -> (forall a s', at_table (table s) s' -> Q a s') ->
  (forall s', at_table (table s) s' -> E s') ->
  match m s with Ok a s' => Q a s' | Err _ s' => E s' | Stuck _ => True end.
Proof. intros Hm HQ HE. specialize (Hm s eq_refl). destruct (m s); auto. Qed.

Lemma delete_step p s :
  stable p -> tok s -> let n := FormatPathLexically p in
  match DeleteFileNoLock p s with
  | Ok _ s' => match files_ s !! n with
               | Some o => tq (sub_table (unlinked n o (table s))) s'
               | None => table s' = table s
               end
  | Err _ s' => tq (fun t => t_files t = files_ s \/ t_files t = base.delete n (files_ s)) s'
  | Stuck _ => True
  end.
Proof.
  intros Hp Hs n. unfold DeleteFileNoLock. rewrite lookup_stable by done. fold n.
  destruct (files_ s !! n) as [o|] eqn:Ho.
  - apply (delete_named (table s) n o Hs Ho s eq_refl).
  - apply at_result; [preserves_solve|done|]. intros s' Hs'. apply (tq_at _ (table s)); [done|by left|done].
Qed.

(** ** Links *)

Lemma erase_first_snoc n l : n ∉ l -> erase_first n (l ++ [n]) = Some l.
Proof.
  induction l as [|y l IH]; intros H; simpl; [by rewrite decide_True|].
  apply not_elem_of_cons in H as [Hne H]. rewrite decide_False by done. by rewrite IH.
Qed.

Lemma table_link_undo t n m o ls id :
  table_ok t -> t_files t !! n = Some o -> t_links t !! o = Some (ls, id) -> t_files t !! m = None ->
  t_erase m (t_relink o (ls, id) (t_insert m o (t_relink o (ls ++ [m], id) t))) = t.
Proof.
  intros Hok Hn Ho Hm. unfold t_insert, t_relink, t_erase. cbn. rewrite Hm. cbn.
  rewrite insert_insert_eq, (insert_id (t_links t)), delete_insert_id by done. by destruct t.
Qed.

Definition linked (m : bytes) (o : nat) t : Table :=
  match t_links t !! o with
  | Some (ls, id) => t_insert m o (t_relink o (ls ++ [m], id) t)
  | None => t
  end.

Lemma link_named t n m o :
  table_ok t -> t_files t !! n = Some o -> t_files t !! m = None ->
  hoare (at_table t) (with_ref o (
    mod_obj o (AddLinkName m) ;;
    files_insert m o ;;
    r <- attempt (SyncFileMetadataNoLock o false) ;;
    match r with
    | inl _ => on_obj o (RemoveLinkName m) ;; files_erase m
    | inr _ => ret tt
    end)) (fun _ => tq (fun t' => sub_table t t' \/ sub_table (linked m o t) t')) tok.
Proof.
  intros Hok Hn Hm. destruct (table_file t n o Hok Hn) as (ls & id & Ho & _ & Hin & _ & Hself & _).
  assert (m ∉ ls) as Hml by (intros H%Hself; by simplify_eq).
  pose proof (table_ok_link t n m o ls id Hok Hn Ho Hm) as Hok1.
  unfold linked. rewrite Ho. set (t1 := t_insert m o (t_relink o (ls ++ [m], id) t)) in *.
  assert (t_links t1 !! o = Some (ls ++ [m], id)) as Ho1.
  { unfold t1, t_insert. cbn. rewrite Hm. cbn. by rewrite lookup_insert_eq. }
  apply with_ref_tok; [apply closed_or; apply closed_sub|].
  eapply hoare_bind; [by apply (at_add_link t _ m o ls id)|]. intros [].
  eapply hoare_bind; [apply at_insert|]. intros []. fold t1.
  eapply (hoare_bind _ _ (fun _ => at_table t1)); [apply at_attempt; auto with preserves|]. intros [e|u].
  - eapply hoare_bind; [apply (at_remove_link t1 _ m o _ id ls Ho1), erase_first_snoc, Hml|]. intros [].
    eapply hoare_conseq; [apply (at_erase (t_relink o (ls, id) t1) (fun _ => False) m)|done| |done].
    intros [] s Hs. apply (tq_at _ t); [done|by left|].
    rewrite <-(table_link_undo t n m o ls id Hok Hn Ho Hm). exact Hs.
  - apply hoare_ret. intros s Hs. apply (tq_at _ t1); [done|by right|done].
Qed.

Lemma link_step p q s :
  stable q -> tok s ->
  match LinkFile p q s with
  | Ok _ s' =>
      match files_ s !! FormatPathLexically (FormatPathLexically p) with
      | Some o => files_ s !! FormatPathLexically q = None /\
          tq (fun t => sub_table (table s) t \/ sub_table (linked (FormatPathLexically q) o (table s)) t) s'
      | None => table s' = table s
      end
  | Err _ s' => tok s'
  | Stuck _ => True
  end.
Proof.
  intros Hq Hs. unfold LinkFile. rewrite lookup_stable by done.
  destruct (files_ s !! FormatPathLexically q) as [x|] eqn:Hx; [done|].
  unfold bind at 1, GetFileNoLock, bind at 1, get, ret.
  destruct (files_ s !! FormatPathLexically (FormatPathLexically p)) as [o|] eqn:Ho.
  - pose proof (link_named (table s) _ _ o Hs Ho Hx s eq_refl) as H. by destruct (with_ref o _ s).
  - apply at_result; [preserves_solve|done|]. intros s' Hs'. unfold tok. by rewrite Hs'.
Qed.

(** ** Renaming *)

(** The links of a file without one of them and with another one. *)
Lemma table_ok_rename t n m o ls id l :
  table_ok t -> t_files t !! n = Some o -> t_links t !! o = Some (ls, id) -> erase_first n ls = Some l ->
  t_files t !! m = None ->
  table_ok (mkTable (<[m := o]> (base.delete n (t_files t))) (<[o := (l ++ [m], id)]> (t_links t))
              (t_next_id t) (t_next_obj t)).
Proof.
  intros Hok Hn Ho Hl Hm. destruct (table_file t n o Hok Hn) as (ls' & id' & Ho' & Hnd & _ & Hid & Hself & Hobj & Hdist).
  rewrite Ho in Ho'. injection Ho' as <- <-. destruct (erase_first_spec n ls l Hl Hnd) as (Hnl & Hnd' & Hiff).
  apply (table_ok_update t); try done.
  - intros k p Hne. destruct (decide (k = m)) as [->|Hkm].
    + rewrite lookup_insert_eq, Hm. split; [intros [= ?]|]; done.
    + rewrite lookup_insert_ne, lookup_delete_Some by done. split; [by intros [_ ?]|].
      intros Hk. split; [|done]. intros ->. by simplify_eq.
  - intros k. rewrite elem_of_app, list_elem_of_singleton. destruct (decide (k = m)) as [->|Hkm].
    + rewrite lookup_insert_eq. split; [by right|done].
    + rewrite lookup_insert_ne, lookup_delete_Some, Hself, Hiff by done. naive_solver.
  - apply NoDup_app. split_and!; [done| |apply NoDup_singleton]. intros k Hk Hkm.
    apply list_elem_of_singleton in Hkm as ->. assert (m ∈ ls) as Hmls by (apply Hiff; by right).
    apply Hself in Hmls. by simplify_eq.
Qed.

(** A file that has the name moves, or stays where it was. *)
Lemma move_named t n m o :
  table_ok t -> t_files t !! n = Some o -> t_files t !! m = None ->
  hoare (at_table t) (move_file o n m)
    (fun _ => tq (fun t' => t_files t' = <[m := o]> (base.delete n (t_files t)) \/ t_files t' = t_files t)) tok.
Proof.
  intros Hok Hn Hm. destruct (table_file t n o Hok Hn) as (ls & id & Ho & Hnd & Hin & _ & Hself & _).
  destruct (erase_first_in n ls Hin) as [l Hl]. destruct (erase_first_spec n ls l Hl Hnd) as (Hnl & _ & Hiff).
  assert (m ∉ l) as Hml by (intros H; assert (m ∈ ls) as H'%Hself by (apply Hiff; by right); by simplify_eq).
  assert (n <> m) as Hnm by (intros ->; by simplify_eq).
  pose proof (table_ok_rename t n m o ls id l Hok Hn Ho Hl Hm) as Hok1.
  pose proof (table_ok_relast t n o ls id l Hok Hn Ho Hl) as Hok2.
  unfold move_file. eapply hoare_bind; [by apply (at_rename_link t _ n m o ls id l)|]. intros [].
  eapply hoare_bind; [apply at_erase|]. intros []. eapply hoare_bind; [apply at_insert|]. intros [].
  set (t1 := t_insert m o _).
  assert (t1 = mkTable (<[m := o]> (base.delete n (t_files t))) (<[o := (l ++ [m], id)]> (t_links t))
              (t_next_id t) (t_next_obj t)) as E1.
  { unfold t1, t_insert, t_erase, t_relink. cbn. by rewrite lookup_delete_ne, Hm by done. }
  clearbody t1. subst t1. set (t1 := mkTable _ _ _ _) in *.
  eapply (hoare_bind _ _ (fun _ => at_table t1)); [apply at_attempt; auto with preserves|]. intros [e|u].
  - eapply hoare_bind; [apply at_erase|]. intros [].
    eapply hoare_bind.
    { apply (at_rename_link (t_erase m t1) _ m n o (l ++ [m]) id l); [cbn; by rewrite lookup_insert_eq|by apply erase_first_snoc]. }
    intros []. set (t3 := t_relink o (l ++ [n], id) (t_erase m t1)).
    eapply hoare_conseq; [apply (at_insert t3 (fun _ => False) n o)|done| |done]. intros [] s Hs.
    assert (t_insert n o t3 = t_relink o (l ++ [n], id) (t_insert n o (t_relink o (l, id) (t_erase n t)))) as E3.
    { unfold t_insert, t3, t_relink, t_erase, t1. cbn.
      rewrite delete_insert_id by (by rewrite lookup_delete_ne by done). rewrite lookup_delete_eq. cbn.
      by rewrite !insert_insert_eq. }
    rewrite E3 in Hs. eapply tq_at; [exact Hok2| |exact Hs]. right.
    unfold t_insert. cbn. rewrite lookup_delete_eq. cbn. by rewrite insert_delete_eq, insert_id.
  - apply hoare_ret. intros s Hs. apply (tq_at _ t1); [done|by left|done].
Qed.

Lemma stable_format p : stable p -> stable (FormatPathLexically p).
Proof. unfold stable. intros H. by rewrite !H. Qed.

(** What deleting a name in the table leaves of the names. *)
Lemma unlinked_files t n o : table_ok t -> t_files t !! n = Some o ->
  exists l id, t_files (unlinked n o t) = base.delete n (t_files t) /\ (n ∉ l) /\
    t_links (unlinked n o t) !! o = Some (l, id).
Proof.
  intros Hok Hn. destruct (table_file t n o Hok Hn) as (ls & id & Ho & Hnd & Hin & _).
  destruct (erase_first_in n ls Hin) as [l Hl]. destruct (erase_first_spec n ls l Hl Hnd) as (Hnl & _).
  exists l, id. unfold unlinked. rewrite Ho, Hl. cbn. by rewrite lookup_insert_eq.
Qed.

(** The names after a rename that returned [OK]: as asked for, or, when the new name
    could not be persisted, without the file that had the new name before. *)
Definition renamed (src dst : bytes) (o : nat) (files : gmap bytes nat) (t : Table) : Prop :=
  t_files t = <[dst := o]> (base.delete src files) \/ t_files t = base.delete dst files.

Lemma rename_over t src dst o d :
  table_ok t -> stable dst -> FormatPathLexically dst = dst -> src <> dst ->
  t_files t !! src = Some o -> t_files t !! dst = Some d ->
  hoare (at_table t) (DeleteFileNoLock dst ;; move_file o src dst) (fun _ => tq (renamed src dst o (t_files t))) tok.
Proof.
  intros Hok Hst Hfix Hne Hsrc Hdst s Hs. pose proof (delete_step dst s Hst) as Hdel.
  unfold tok in Hdel. rewrite Hs in Hdel. specialize (Hdel Hok). cbv zeta in Hdel. rewrite Hfix in Hdel.
  assert (files_ s = t_files t) as Hfs by (by rewrite <-Hs). rewrite Hfs, Hdst in Hdel.
  unfold bind. destruct (DeleteFileNoLock dst s) as [[] s1|e s1|]; [|by destruct Hdel|done].
  destruct Hdel as [Hok1 (Hf1 & _)]. destruct (unlinked_files t dst d Hok Hdst) as (l & id & Hf & _).
  rewrite Hs, Hf in Hf1. pose proof (move_named (table s1) src dst o Hok1) as Hmove. rewrite Hf1 in Hmove.
  rewrite lookup_delete_ne, lookup_delete_eq in Hmove by done. specialize (Hmove Hsrc eq_refl s1 eq_refl).
  destruct (move_file o src dst s1) as [[] s2|e s2|]; [|done..]. eapply tq_weaken; [|exact Hmove].
  unfold renamed. intros t' [->| ->]; [left|by right]. by rewrite delete_delete, insert_delete_eq.
Qed.

Lemma rename_step n p q o s :
  stable p -> stable q -> tok s -> files_ s !! FormatPathLexically p = Some o ->
  FormatPathLexically p <> FormatPathLexically q ->
  match RenameFileNoLock (S n) p q s with
  | Ok _ s' => tq (renamed (FormatPathLexically p) (FormatPathLexically q) o (files_ s)) s'
  | Err _ s' => tok s'
  | Stuck _ => True
  end.
Proof.
  intros Hp Hq Hs Ho Hne. cbn [RenameFileNoLock]. rewrite lookup_stable by done. rewrite Ho.
  set (src := FormatPathLexically p) in *. set (dst := FormatPathLexically q) in *.
  assert (hoare (at_table (table s)) (with_ref o (
    existing_dest_file <- GetFileNoLock dst ;;
    match existing_dest_file with
    | Some d => with_ref d (DeleteFileNoLock dst ;; move_file o src dst)
    | None => move_file o src dst
    end)) (fun _ => tq (renamed src dst o (files_ s))) tok) as H; [|by apply (H s eq_refl)].
  assert (closed (renamed src dst o (files_ s))) as Hcl.
  { apply (closed_files (fun m => m = _ \/ m = _)). }
  apply with_ref_tok; [done|]. intros s1 Hs1.
  assert (files_ s1 = files_ s) as Hfs by (by apply (f_equal t_files) in Hs1).
  change (GetFileNoLock dst) with (GetFileNoLock (D := D) (L := L) (A := A) (FormatPathLexically q)).
  rewrite lookup_stable by done. fold dst. rewrite Hfs.
  destruct (files_ s !! dst) as [d|] eqn:Hd.
  - apply (with_ref_tok (table s) (renamed src dst o (files_ s)) d (DeleteFileNoLock dst ;; move_file o src dst)); [done| |done].
    apply (rename_over (table s) src dst o d); try done. by apply stable_format.
  - pose proof (move_named (table s) src dst o Hs Ho Hd s1 Hs1) as Hm.
    destruct (move_file o src dst s1) as [[] s2|e s2|]; [|done..]. eapply tq_weaken; [|exact Hm].
    unfold renamed. intros t' [->| ->]; [by left|right]. cbn. by rewrite delete_id.
Qed.

Lemma erase_first_none n l : n ∉ l -> erase_first n l = None.
Proof.
  induction l as [|y l IH]; intros H; [done|]. apply not_elem_of_cons in H as [Hne H].
  simpl. rewrite decide_False by done. by rewrite IH.
Qed.

(** A file does not get a link it has lost. *)
Lemma move_lost o n m s l id :
  (forall x, t_links (table s) !! o = Some x -> x = (l, id)) -> n ∉ l ->
  match move_file o n m s with Ok _ _ => False | Err _ s' => table s' = table s | Stuck _ => True end.
Proof.
  intros Hsub Hn. unfold move_file. unfold bind at 1, on_obj. destruct (objs s !! o) as [f|] eqn:Ho; [|done].
  assert (linkfiles_ f = l) as Hl.
  { assert (t_links (table s) !! o = Some (names_of f)) as Hf by (cbn; by rewrite lookup_fmap, Ho).
    apply Hsub in Hf. by injection Hf. }
  unfold RenameLink, bind, get_file, gets. cbn [f_file]. rewrite Hl, erase_first_none by done. cbn.
  by apply (table_set_obj s o f f).
Qed.

Lemma rename_self n p q o s :
  stable p -> FormatPathLexically p = FormatPathLexically q -> tok s -> files_ s !! FormatPathLexically p = Some o ->
  match RenameFileNoLock (S n) p q s with
  | Ok _ _ => False
  | Err _ s' => tq (fun t => t_files t = files_ s \/ t_files t = base.delete (FormatPathLexically p) (files_ s)) s'
  | Stuck _ => True
  end.
Proof.
  intros Hp Heq Hs Ho. cbn [RenameFileNoLock]. rewrite lookup_stable by done. rewrite Ho, <-Heq.
  set (src := FormatPathLexically p) in *. set (E := fun t => t_files t = files_ s \/ t_files t = base.delete src (files_ s)).
  assert (closed E) as HE by apply (closed_files (fun m => m = files_ s \/ m = base.delete src (files_ s))).
  assert (closed (fun _ => False)) as HF by (by intros ? ? []).
  assert (hoare (at_table (table s)) (DeleteFileNoLock src ;; move_file o src src) (fun _ => tq (fun _ => False)) (tq E)) as Hin.
  { intros s1 Hs1. assert (files_ s1 = files_ s) as Hfs by (by apply (f_equal t_files) in Hs1).
    pose proof (delete_step src s1 (stable_format p Hp)) as Hdel. unfold tok in Hdel. rewrite Hs1 in Hdel.
    specialize (Hdel Hs). cbv zeta in Hdel. change (FormatPathLexically src) with (FormatPathLexically (FormatPathLexically p)) in Hdel.
    rewrite Hp in Hdel. fold src in Hdel. rewrite Hfs, Ho in Hdel. unfold bind.
    destruct (DeleteFileNoLock src s1) as [[] s2|e s2|]; [|done..]. destruct Hdel as [Hok2 (Hf2 & Hl2 & _)].
    destruct (unlinked_files (table s) src o Hs Ho) as (l & id & Hf & Hnl & Hl). rewrite Hs1 in Hf2, Hl2.
    assert (forall x, t_links (table s2) !! o = Some x -> x = (l, id)) as Hx.
    { intros x Hx. eapply lookup_weaken in Hx; [|exact Hl2]. by simplify_eq. }
    pose proof (move_lost o src src s2 l id Hx Hnl) as Hm.
    destruct (move_file o src src s2) as [[] s3|e s3|]; [done| |done].
    unfold tq. rewrite Hm. split; [done|]. right. by rewrite Hf2, Hf. }
  assert (hoare (at_table (table s)) (with_ref o (
    existing_dest_file <- GetFileNoLock src ;;
    match existing_dest_file with
    | Some d => with_ref d (DeleteFileNoLock src ;; move_file o src src)
    | None => move_file o src src
    end)) (fun _ => tq (fun _ => False)) (tq E)) as H.
  { apply with_ref_hoare; [done..|]. intros s1 Hs1.
    assert (files_ s1 = files_ s) as Hfs by (by apply (f_equal t_files) in Hs1).
    change (GetFileNoLock src) with (GetFileNoLock (D := D) (L := L) (A := A) (FormatPathLexically p)).
    rewrite lookup_stable by done. fold src. rewrite Hfs, Ho.
    by apply (with_ref_hoare (table s) (fun _ => False) E o (DeleteFileNoLock src ;; move_file o src src)). }
  specialize (H s eq_refl). destruct (with_ref o _ s) as [[] s'|e s'|]; [by destruct H|done..].
Qed.
End tables.
#[export] Hint Resolve at_on_device at_file_of at_PersistRecord at_Sync at_on_aux at_ToAuxPath : preserves.
