(* ===== verification/ZenFSNames.v ===== *)
(** * Operations on names

    Every sequence of operations on names keeps the table of files consistent,
    and what renaming and linking do to the names, with the cases in which a
    file is lost. *)

From S2P Require Import Prelude Status Coding Device MemDevice Zone Zbd Superblock MetaLog ZoneFile FileWrite FileRead Paths ZenFS ZenFSOps ZenFSTable.

Section names.
Context {D L A : Type} `{be : ZonedBlockDeviceBackend D L} {szd : SZDOnceLog D L}
  {cfg : BuildConfig} {aux : AuxFileSystem A}.
Abbreviation FS := (ZenFS D L A).
Abbreviation ZM := (M (ZenFS D L A)).
Implicit Types s : ZenFS D L A.

(** ** Steps that keep the table *)

Lemma tok_keep {B} (m : ZM B) : (forall t, preserves (at_table t) m) -> preserves tok m.
Proof. intros Hm s Hs. specialize (Hm (table s) s eq_refl). unfold tok. destruct (m s); [by rewrite Hm..|done]. Qed.

Lemma tok_on_device {B} (m : M (Zbd D) B) : preserves tok (on_device m : ZM B).
Proof. apply tok_keep. intros t. apply at_on_device. Qed.
Lemma tok_on_aux f : preserves tok (on_aux f : ZM unit).
Proof. apply tok_keep. intros t. apply at_on_aux. Qed.
Lemma tok_ToAuxPath p : preserves tok (ToAuxPath p : ZM bytes).
Proof. apply tok_keep. intros t. apply at_ToAuxPath. Qed.
Lemma tok_ask_aux {B} (f : A -> IOStatus * B) : preserves tok (ask_aux f : ZM B).
Proof. unfold ask_aux. apply preserves_bind; [preserves_solve|]. intros s. destruct (f (aux_fs s)). preserves_solve. Qed.
Hint Resolve tok_on_device tok_on_aux tok_ToAuxPath tok_ask_aux : preserves.

(** ** Deleting *)

Lemma DeleteFileNoLock_ok p : stable p -> preserves tok (DeleteFileNoLock p).
Proof.
  intros Hp s Hs. pose proof (delete_step p s Hp Hs) as H. cbv zeta in H.
  destruct (DeleteFileNoLock p s) as [[] s'|e s'|]; [|by destruct H|done].
  destruct (files_ s !! FormatPathLexically p); [by destruct H|]. unfold tok. by rewrite H.
Qed.
Hint Resolve DeleteFileNoLock_ok : preserves.

Lemma LinkFile_ok p q : stable q -> preserves tok (LinkFile p q).
Proof.
  intros Hq s Hs. pose proof (link_step p q s Hq Hs) as H. destruct (LinkFile p q s) as [[] s'|e s'|]; [|done..].
  destruct (files_ s !! _) as [o|]; [by destruct H as [_ [H _]]|]. unfold tok. by rewrite H.
Qed.

(** ** Absolute paths *)

Lemma stable_absolute p : is_absolute p = true -> stable p.
Proof. intros Hp. apply Format_fixpoint, Format_normal. by left. Qed.

Lemma format_absolute p : is_absolute (FormatPathLexically p) = true.
Proof. unfold FormatPathLexically, path_append. by destruct (is_absolute (lexically_normal p)) eqn:E. Qed.

Lemma append_absolute a b : is_absolute a = true -> is_absolute (path_append a b) = true.
Proof.
  intros Ha. unfold path_append. destruct (is_absolute b) eqn:E; [done|].
  unfold is_absolute in *. apply bool_decide_eq_true in Ha. apply bool_decide_eq_true.
  destruct a as [|c a]; [done|]. destruct (last (c :: a)) eqn:E2; [destruct (decide (_ = slash)); exact Ha|]. by apply last_None in E2.
Qed.

Lemma stable_child p c : stable (path_append (FormatPathLexically p) c).
Proof. apply stable_absolute, append_absolute, format_absolute. Qed.

(** ** Directories *)

Lemma tok_GetFileNoLock p : preserves tok (GetFileNoLock p : ZM (option nat)).
Proof. unfold GetFileNoLock. preserves_solve. Qed.
Lemma tok_IsDirectory p : preserves tok (IsDirectoryNoLock p : ZM bool).
Proof. unfold IsDirectoryNoLock. preserves_step; [apply tok_GetFileNoLock|]. preserves_solve. Qed.
Lemma tok_GetZenFSChildren d b : preserves tok (GetZenFSChildrenNoLock d b : ZM (list bytes)).
Proof. unfold GetZenFSChildrenNoLock. preserves_solve. Qed.
Hint Resolve tok_GetFileNoLock tok_IsDirectory tok_GetZenFSChildren : preserves.
Lemma tok_GetChildren d : preserves tok (GetChildrenNoLock d : ZM (list bytes)).
Proof.
  unfold GetChildrenNoLock. preserves_step; [auto with preserves|]. preserves_step; [preserves_solve|].
  destruct (aux_GetChildren _ _). preserves_solve.
Qed.
Hint Resolve tok_GetChildren : preserves.

Lemma DeleteDirRecursiveNoLock_ok n d : preserves tok (DeleteDirRecursiveNoLock n d : ZM unit).
Proof.
  revert d. induction n as [|n IH]; intros d; cbn [DeleteDirRecursiveNoLock]; [preserves_solve|].
  preserves_solve. apply DeleteFileNoLock_ok, stable_child.
Qed.

(** ** Renaming *)

Section rename.
Context (rename : bytes -> bytes -> ZM unit).
Hypothesis Hrename : forall p q, stable p -> stable q -> preserves tok (rename p q).

Lemma RenameChild_ok a b c :
  preserves tok (RenameChildNoLock rename (FormatPathLexically a) (FormatPathLexically b) c).
Proof. apply Hrename; apply stable_child. Qed.
Hint Resolve RenameChild_ok : preserves.

Lemma Rollback_ok a b l :
  preserves tok (RollbackAuxDirRenameNoLock rename (FormatPathLexically a) (FormatPathLexically b) l).
Proof. unfold RollbackAuxDirRenameNoLock. preserves_solve. Qed.

Lemma rename_children_ok a b done l :
  preserves tok (rename_children rename (FormatPathLexically a) (FormatPathLexically b) done l).
Proof.
  revert done. induction l as [|c l IH]; intros done; cbn [rename_children]; preserves_solve.
  apply Rollback_ok.
Qed.

Lemma RenameAuxPath_ok a b :
  preserves tok (RenameAuxPathNoLock rename (FormatPathLexically a) (FormatPathLexically b)).
Proof. unfold RenameAuxPathNoLock. preserves_solve. apply rename_children_ok. Qed.
End rename.

Lemma RenameFileNoLock_ok n p q : stable p -> stable q -> preserves tok (RenameFileNoLock n p q).
Proof.
  revert p q. induction n as [|n IH]; intros p q Hp Hq s Hs; [done|].
  destruct (files_ s !! FormatPathLexically p) as [o|] eqn:Ho.
  - destruct (decide (FormatPathLexically p = FormatPathLexically q)) as [E|E].
    + pose proof (rename_self n p q o s Hp E Hs Ho) as H. destruct (RenameFileNoLock (S n) p q s); [done|apply H|done].
    + pose proof (rename_step n p q o s Hp Hq Hs Ho E) as H. destruct (RenameFileNoLock (S n) p q s); [apply H|done..].
  - cbn [RenameFileNoLock]. rewrite lookup_stable by done. rewrite Ho.
    by apply (RenameAuxPath_ok (RenameFileNoLock n) IH p q s Hs).
Qed.

(** ** Creating *)

Lemma table_ok_outside t o x nid nobj :
  table_ok t -> ~ in_table t o -> t_next_id t <= nid -> (o < nobj)%nat -> (t_next_obj t <= nobj)%nat ->
  table_ok (mkTable (t_files t) (<[o := x]> (t_links t)) nid nobj).
Proof.
  intros Hok Hout Hnid Ho Hnobj. set (t' := mkTable _ _ _ _).
  assert (forall p y, in_table t' p -> t_links t' !! p = Some y -> in_table t p /\ t_links t !! p = Some y) as Hsub.
  { intros p y Hin Hp. split; [done|]. cbn in Hp. rewrite lookup_insert_ne in Hp; [done|]. by intros ->. }
  split.
  - intros n p Hn. destruct (tb_link _ Hok n p Hn) as (ls & id & Hp & Hin). exists ls, id. split; [|done].
    cbn. rewrite lookup_insert_ne; [done|]. intros ->. apply Hout. by exists n.
  - intros p ls id n Hin [_ Hp]%Hsub Hn; [|done]. by apply (tb_name _ Hok p ls id n).
  - intros p ls id Hin [_ Hp]%Hsub; [|done]. by apply (tb_nodup _ Hok p ls id).
  - intros p ls id Hin [_ Hp]%Hsub; [|done]. pose proof (tb_id _ Hok p ls id Hin Hp). cbn. lia.
  - intros p q lp lq i Hp Hq [_ Hlp]%Hsub [_ Hlq]%Hsub; [|done..]. by apply (tb_inj _ Hok p q lp lq i).
  - intros p y Hp. cbn in *. destruct (decide (p = o)) as [->|Hne]; [done|].
    rewrite lookup_insert_ne in Hp by done. pose proof (tb_obj _ Hok p y Hp). lia.
Qed.

Lemma at_new_file t id (E : FS -> Prop) :
  hoare (at_table t) (new_file id) (fun o s => o = t_next_obj t /\
    at_table (mkTable (t_files t) (<[t_next_obj t := ([], id)]> (t_links t)) (t_next_id t) (S (t_next_obj t))) s) E.
Proof.
  intros s Hs. unfold at_table in Hs. subst t. unfold new_file, bind, get, modify, ret.
  split; [done|]. unfold at_table, table. cbn. by rewrite fmap_insert.
Qed.

Lemma new_writer_keeps o b mem t : preserves (at_table t) (new_writer o b mem : ZM Writer).
Proof.
  unfold new_writer. preserves_step; [auto with preserves|]. preserves_step; [preserves_solve|].
  destruct (ZonedWritableFile_new _ _ _). preserves_step; [by apply at_modify|preserves_solve].
Qed.

(** The new file under its name. *)
Lemma create_named t n o id (pre1 pre2 pre3 : ZM unit) (post : ZM Writer) :
  table_ok t -> t_files t !! n = None -> o = t_next_obj t -> id = t_next_id t ->
  (forall t, preserves (at_table t) pre1) -> (forall t, preserves (at_table t) pre2) ->
  (forall t, preserves (at_table t) pre3) -> (forall t, preserves (at_table t) post) ->
  let t1 := mkTable (t_files t) (<[o := ([], id)]> (t_links t)) (id + 1) (S o) in
  hoare (at_table t1) (with_ref o (
    t <- time0 ;; mod_obj o (set_m_time t) ;; mod_obj o (AddLinkName n) ;; pre1 ;; pre2 ;; pre3 ;;
    files_insert n o ;; post)) (fun _ => tok) tok.
Proof.
  intros Hok Hn -> -> Hpre1 Hpre2 Hpre3 Hpost t1. set (o := t_next_obj t) in *. set (id := t_next_id t) in *.
  assert (~ in_table t o) as Hout.
  { intros [m Hm]. destruct (tb_link _ Hok m o Hm) as (ls & i & Ho & _). pose proof (tb_obj _ Hok _ _ Ho). lia. }
  assert (table_ok t1) as Hok1 by (apply table_ok_outside; (done || lia)).
  set (t2 := t_relink o ([n], id) t1).
  assert (t2 = mkTable (t_files t) (<[o := ([n], id)]> (t_links t)) (id + 1) (S o)) as E2.
  { unfold t2, t_relink, t1. cbn. by rewrite insert_insert_eq. }
  assert (table_ok t2) as Hok2 by (rewrite E2; apply table_ok_outside; (done || lia)).
  assert (table_ok (t_insert n o t2)) as Hok3.
  { rewrite E2. unfold t_insert. cbn. rewrite Hn. apply (table_ok_update t); try done; try lia.
    - intros m p Hne. destruct (decide (m = n)) as [->|Hmn].
      + rewrite lookup_insert_eq, Hn. split; [intros [= ?]|]; done.
      + by rewrite lookup_insert_ne.
    - intros m. rewrite list_elem_of_singleton. destruct (decide (m = n)) as [->|Hmn].
      + by rewrite lookup_insert_eq.
      + rewrite lookup_insert_ne by done. split; [|done]. intros Hm. destruct Hout. by exists m.
    - apply NoDup_singleton.
    - intros p lp ip _ Hp Hlp. pose proof (tb_id _ Hok p lp ip Hp Hlp). lia. }
  assert (forall t s, table_ok t -> at_table t s -> tok s) as Hat by (intros ? ? ? E; unfold tok; by rewrite E).
  eapply hoare_conseq; [apply (with_ref_tok t1 (fun _ => True))|done|by intros ? ? [? _]|done]; [done|].
  eapply (hoare_bind _ _ (fun _ => at_table t1)).
  { apply at_keep; [unfold time0; preserves_solve; by apply at_modify|eauto]. }
  intros tm. eapply (hoare_bind _ _ (fun _ => at_table t1)); [apply at_keep; [by apply at_mod_obj|eauto]|]. intros [].
  eapply hoare_bind; [apply (at_add_link t1 _ n o [] id); cbn; by rewrite lookup_insert_eq|]. intros []. fold t2.
  do 3 (eapply (hoare_bind _ _ (fun _ => at_table t2)); [apply at_keep; [done|eauto]|]; intros []).
  eapply hoare_bind; [apply at_insert|]. intros [].
  eapply hoare_conseq; [apply preserves_hoare, (Hpost (t_insert n o t2))|done| |eauto].
  intros a s E. split; [unfold tok in *; by rewrite E|done].
Qed.

Lemma open_new p direct mem (reset : bool) s :
  tok s -> files_ s !! FormatPathLexically p = None -> 0 <= next_file_id_ s < 2 ^ 64 - 1 ->
  let fname := FormatPathLexically p in
  match (s <- get ;;
      modify (set_next_file_id (next_file_id_ s +64 1)) ;;
      o <- new_file (next_file_id_ s) ;;
      w <- with_ref o (
        t <- time0 ;;
        mod_obj o (set_m_time t) ;;
        mod_obj o (AddLinkName fname) ;;
        (if ends_with fname log_name then
           on_obj o (SetIOType kWAL) ;; mod_obj o (set_is_sparse (negb direct))
         else on_obj o (SetIOType kUnknown)) ;;
        SyncFileMetadataNoLock o false ;;
        on_obj o AcquireWRLock ;;
        files_insert fname o ;;
        new_writer o direct mem) ;;
      r <- (if reset then attempt (on_device ResetUnusedIOZones) else ret (inr tt)) ;;
      ret (w, status_of r)) s with
  | Ok _ s' | Err _ s' => tok s'
  | Stuck _ => True
  end.
Proof.
  intros Hs Hn Hid fname. unfold bind at 1, get. unfold bind at 1, modify. rewrite u64_small by lia.
  set (s1 := set_next_file_id _ s). set (id := next_file_id_ s).
  pose proof (at_new_file (table s1) id (fun _ => False) s1 eq_refl) as Hnew. unfold bind at 1.
  destruct (new_file id s1) as [o s2|e s2|]; [|done..]. destruct Hnew as [Ho Hs2].
  pose proof (create_named (table s) fname o id
    (if ends_with fname log_name then on_obj o (SetIOType kWAL) ;; mod_obj o (set_is_sparse (negb direct))
     else on_obj o (SetIOType kUnknown)) (SyncFileMetadataNoLock o false) (on_obj o AcquireWRLock)
    (new_writer o direct mem) Hs Hn Ho eq_refl) as Hc.
  cbv zeta in Hc. unfold bind at 1. rewrite Ho in *.
  specialize (Hc ltac:(intros t; destruct (ends_with _ _); preserves_solve; try (apply at_on_obj; auto with preserves); by apply at_mod_obj)).
  specialize (Hc ltac:(auto with preserves) ltac:(intros; apply at_on_obj; auto with preserves)
                 ltac:(intros; apply new_writer_keeps) s2 Hs2).
  destruct (with_ref _ _ s2) as [w s3|e s3|]; [|done..].
  assert (preserves tok (r <- (if reset then attempt (on_device ResetUnusedIOZones) else ret (inr tt)) ;;
      ret (w, status_of r) : ZM _)) as H by preserves_solve.
  specialize (H s3 Hc). by destruct (bind _ _ s3).
Qed.

(** Deleting a name of the table, with a reference to its file. *)
Lemma delete_gone p o s :
  stable p -> tok s -> files_ s !! FormatPathLexically p = Some o ->
  match with_ref o (DeleteFileNoLock (FormatPathLexically p)) s with
  | Ok _ s' => tok s' /\ files_ s' !! FormatPathLexically p = None /\ next_file_id_ s' = next_file_id_ s
  | Err _ s' => tok s'
  | Stuck _ => True
  end.
Proof.
  intros Hp Hs Ho. set (n := FormatPathLexically p) in *.
  set (Q := fun t => t_files t !! n = None /\ t_next_id t = next_file_id_ s).
  assert (hoare (at_table (table s)) (with_ref o (DeleteFileNoLock n)) (fun _ => tq Q) tok) as H.
  { apply with_ref_tok; [by intros t q Hq|]. intros s1 Hs1.
    assert (files_ s1 = files_ s) as Hfs by (by apply (f_equal t_files) in Hs1).
    pose proof (delete_step n s1 (stable_format p Hp)) as H. unfold tok in H. rewrite Hs1 in H. specialize (H Hs).
    cbv zeta in H. change (FormatPathLexically n) with (FormatPathLexically (FormatPathLexically p)) in H.
    rewrite Hp in H. fold n in H. rewrite Hfs, Ho, Hs1 in H.
    destruct (DeleteFileNoLock n s1) as [[] s2|e s2|]; [|by destruct H|done].
    destruct H as [H (Hf & _ & Hi & _)]. destruct (unlinked_files (table s) n o Hs Ho) as (l & id & Hu & _).
    split; [done|]. split; [by rewrite Hf, Hu, lookup_delete_eq|]. rewrite Hi.
    unfold unlinked. destruct (t_links (table s) !! o) as [[ls i]|]; [|done]. by destruct (erase_first n ls). }
  specialize (H s eq_refl). destruct (with_ref o _ s) as [[] s'|e s'|]; [|done..]. by destruct H as (? & ? & ?).
Qed.

Lemma OpenWritableFile_ok p direct reopen mem s :
  stable p -> tok s -> 0 <= next_file_id_ s < 2 ^ 64 - 1 ->
  match OpenWritableFile p direct reopen mem s with Ok _ s' | Err _ s' => tok s' | Stuck _ => True end.
Proof.
  intros Hp Hs Hid. unfold OpenWritableFile. rewrite lookup_stable by done.
  destruct (files_ s !! FormatPathLexically p) as [o|] eqn:Ho.
  2: { unfold bind at 1, ret at 1. by apply (open_new p direct mem false s). }
  destruct reopen.
  { assert (preserves tok (on_obj o AcquireWRLock ;; w <- new_writer o direct mem ;; ret (w, OK) : ZM _)) as H.
    { preserves_step; [apply tok_keep; intros; apply at_on_obj; auto with preserves|].
      preserves_step; [apply tok_keep; intros; apply new_writer_keeps|preserves_solve]. }
    by apply (H s Hs). }
  pose proof (delete_gone p o s Hp Hs Ho) as Hdel. unfold bind at 1. unfold bind at 1.
  destruct (with_ref o _ s) as [[] s1|e s1|]; [|done..]. destruct Hdel as (Hs1 & Hn1 & Hi1).
  unfold ret at 1. apply (open_new p direct mem true s1); [done..|lia].
Qed.

(** ** Sequences of operations *)

(** The operations on names; the memory a writer gets is whatever it is. *)
Inductive name_op :=
| OpDelete (p : bytes)
| OpLink (p q : bytes)
| OpRename (p q : bytes)
| OpNew (p : bytes) (direct : bool) (mem : Z -> byte)
| OpReopen (p : bytes) (direct : bool) (mem : Z -> byte)
| OpReuse (p old : bytes) (direct : bool) (mem : Z -> byte)
| OpDeleteDir (d : bytes)
| OpCreateDir (d : bytes).

Definition exec_name (op : name_op) : ZM unit :=
  match op with
  | OpDelete p => DeleteFile p
  | OpLink p q => LinkFile p q
  | OpRename p q => RenameFile p q
  | OpNew p direct mem => NewWritableFile p direct mem ;; ret tt
  | OpReopen p direct mem => ReopenWritableFile p direct mem ;; ret tt
  | OpReuse p old direct mem => ReuseWritableFile p old direct mem ;; ret tt
  | OpDeleteDir d => DeleteDirRecursive d
  | OpCreateDir d => CreateDir d
  end.

(** The names are stable, and there are ids left. *)
Definition name_op_ok (op : name_op) s : Prop :=
  match op with
  | OpDelete p => stable p
  | OpLink _ q => stable q
  | OpRename p q => stable p /\ stable q
  | OpNew p _ _ | OpReopen p _ _ => stable p /\ 0 <= next_file_id_ s < 2 ^ 64 - 1
  | OpReuse p old _ _ => stable p /\ stable old /\ 0 <= next_file_id_ s < 2 ^ 64 - 1
  | OpDeleteDir _ | OpCreateDir _ => True
  end.

(** One operation, successful or not. *)
Inductive name_step : FS -> FS -> Prop :=
| name_ok op s s' : name_op_ok op s -> exec_name op s = Ok tt s' -> name_step s s'
| name_err op s e s' : name_op_ok op s -> exec_name op s = Err e s' -> name_step s s'.

Lemma DeleteFile_next_id p s s' :
  stable p -> tok s -> DeleteFile p s = Ok tt s' -> next_file_id_ s' = next_file_id_ s.
Proof.
  intros Hp Hs. unfold DeleteFile. unfold bind. pose proof (delete_step p s Hp Hs) as H. cbv zeta in H.
  destruct (DeleteFileNoLock p s) as [[] s1|e s1|]; [|done..]. unfold on_device, zoom.
  assert (next_file_id_ s1 = next_file_id_ s) as Hi.
  { destruct (files_ s !! _) as [o|]; [|by apply (f_equal t_next_id) in H]. destruct H as [_ (_ & _ & Hi & _)].
    unfold unlinked in Hi. destruct (t_links (table s) !! o) as [[ls i]|]; [|done].
    by destruct (erase_first _ ls). }
  destruct (ResetUnusedIOZones (zbd_ s1)) as [[] z|e z|]; [|done..]. intros [= <-]. exact Hi.
Qed.

Lemma exec_name_ok op s :
  name_op_ok op s -> tok s -> match exec_name op s with Ok _ s' | Err _ s' => tok s' | Stuck _ => True end.
Proof.
  assert (forall (m : ZM (Writer * IOStatus)) s, match m s with Ok _ s' | Err _ s' => tok s' | Stuck _ => True end ->
    match (m ;; ret tt) s with Ok _ s' | Err _ s' => tok s' | Stuck _ => True end) as Hret.
  { intros m s1 H. unfold bind, ret. by destruct (m s1). }
  destruct op as [p|p q|p q|p d m|p d m|p old d m|d|d]; cbn [exec_name name_op_ok]; intros Hop Hs.
  - revert s Hs. change (preserves tok (DeleteFile p)). unfold DeleteFile. preserves_solve.
  - by apply LinkFile_ok.
  - destruct Hop. revert s Hs. change (preserves tok (RenameFile p q)). unfold RenameFile.
    preserves_step; [by apply RenameFileNoLock_ok|auto with preserves].
  - destruct Hop as [Hp Hid]. apply Hret, OpenWritableFile_ok; [by apply stable_format|done..].
  - destruct Hop as [Hp Hid]. apply Hret, OpenWritableFile_ok; [by apply stable_format|done..].
  - destruct Hop as (Hp & Hold & Hid). apply Hret. unfold ReuseWritableFile, GetFile.
    rewrite lookup_stable by done. destruct (files_ s !! FormatPathLexically old); [|done].
    assert (preserves tok (DeleteFile (FormatPathLexically old))) as Hdel.
    { unfold DeleteFile. preserves_step; [by apply DeleteFileNoLock_ok, stable_format|auto with preserves]. }
    pose proof (DeleteFile_next_id (FormatPathLexically old) s) as Hnext. specialize (Hdel s Hs). unfold bind.
    destruct (DeleteFile (FormatPathLexically old) s) as [[] s1|e s1|]; [|done..].
    apply OpenWritableFile_ok; [by apply stable_format|done|].
    rewrite (Hnext s1 (stable_format old Hold) Hs eq_refl). done.
  - revert s Hs. change (preserves tok (DeleteDirRecursive d)). unfold DeleteDirRecursive.
    preserves_step; [apply DeleteDirRecursiveNoLock_ok|auto with preserves].
  - revert s Hs. change (preserves tok (CreateDir d : ZM unit)). unfold CreateDir. preserves_solve.
Qed.
End names.



(** What [LinkFile] does to the names when the file and not the link exists:
    it returns [OK] also when the link could not be persisted, and then the
    names are as before. *)
Theorem link_outcomes {D L A : Type} `{be : ZonedBlockDeviceBackend D L} {szd : SZDOnceLog D L}
    {aux : AuxFileSystem A} (p q : bytes) (o : nat) (s : ZenFS D L A) :
  stable q -> table_ok (table s) -> files_ s !! FormatPathLexically (FormatPathLexically p) = Some o ->
  match LinkFile p q s with
  | Ok _ s' => files_ s !! FormatPathLexically q = None /\ table_ok (table s') /\
      (files_ s' = <[FormatPathLexically q := o]> (files_ s) \/ files_ s' = files_ s)
  | Err _ s' => table_ok (table s')
  | Stuck _ => True
  end.
Proof.
  intros Hq Hs Ho. pose proof (link_step p q s Hq Hs) as H. destruct (LinkFile p q s) as [[] s'|e s'|]; [|done..].
  rewrite Ho in H. destruct H as (Hn & Hs' & H). split_and!; [done..|]. destruct H as [(Hf & _)|(Hf & _)]; [by right|].
  left. cbn in Hf. rewrite Hf. unfold linked. destruct (tb_link _ Hs _ _ Ho) as (ls & id & -> & _).
  unfold t_insert. cbn. by rewrite Hn.
Qed.

(** A file system with one file on a small device, without an auxiliary file system. *)
Definition no_aux : AuxFileSystem unit := {|
  aux_DeleteFile := fun _ a => (NotFound "", a); aux_RenameFile := fun _ _ a => (NotFound "", a);
  aux_LinkFile := fun _ _ a => (NotFound "", a); aux_CreateDirIfMissing := fun _ a => (OK, a);
  aux_CreateDir := fun _ a => (OK, a); aux_DeleteDir := fun _ a => (OK, a);
  aux_FileExists := fun _ _ => NotFound ""; aux_GetChildren := fun _ _ => (OK, []);
  aux_IsDirectory := fun _ _ => (OK, false); aux_GetFileSize := fun _ _ => (NotFound "", 0);
  aux_GetFileModificationTime := fun _ _ => (NotFound "", 0); aux_NumFileLinks := fun _ _ => (NotFound "", 0);
  aux_AreFilesSame := fun _ _ _ => (NotFound "", false) |}.

Definition g2 : geom := mkGeom 8 512 8 512 64.
Definition be2 : ZonedBlockDeviceBackend MemDev MemLog := mem_backend g2.
Definition szd2 : SZDOnceLog MemDev MemLog := mem_log g2.

Definition one_name : bytes := b_of "/db/1.sst".
Definition two_name : bytes := b_of "/db/2.sst".
Definition fs1 : ZenFS MemDev MemLog unit :=
  mkZenFS (mkZbd mem_empty (list_to_map [(0%nat, mkZone 0 512 512 0 WLTH_NOT_SET 0 true);
                                         (1%nat, mkZone 512 512 512 512 WLTH_NOT_SET 0 false)])
             [1%nat] [] [0%nat] 0 24 0 2 0 OK false 2 2 0)
    {[ one_name := 0%nat ]} 2 (Some (mkMetaLog 0 0)) None false tt
    {[ 0%nat := set_linkfiles [one_name] (ZoneFile_new 1) ]} [] 1 (fun _ => 7) 0.

Lemma fs1_ok : table_ok (table fs1).
Proof.
  assert (forall n o, t_files (table fs1) !! n = Some o -> n = one_name /\ o = 0%nat) as H1.
  { intros n o Hn. cbn in Hn. by apply lookup_singleton_Some in Hn as [<- <-]. }
  assert (forall o x, t_links (table fs1) !! o = Some x -> o = 0%nat /\ x = ([one_name], 1)) as H2.
  { intros o x Ho. cbn in Ho. rewrite map_fmap_singleton in Ho. by apply lookup_singleton_Some in Ho as [<- <-]. }
  split.
  - intros n o [-> ->]%H1. exists [one_name], 1. split; [reflexivity|left].
  - intros o ls id n _ [-> [= -> ->]]%H2 Hn. apply list_elem_of_singleton in Hn as ->. reflexivity.
  - intros o ls id _ [-> [= -> ->]]%H2. apply NoDup_singleton.
  - intros o ls id _ [-> [= -> ->]]%H2. done.
  - intros o o' ls ls' id _ _ [-> _]%H2 [-> _]%H2. done.
  - intros o x [-> _]%H2. simpl. lia.
Qed.

Definition after_link : ZenFS MemDev MemLog unit :=
  match LinkFile (be := be2) (aux := no_aux) (szd := szd2) one_name two_name fs1 with
  | Ok _ s' | Err _ s' => s' | Stuck _ => fs1
  end.

Definition cfg2 : BuildConfig.
Proof. by refine {| SPARSE_BUFFER_SIZE_IN_KB := 4; WAL_BARRIER_SIZE_IN_KB := 4 |}. Defined.



Lemma link_outcomes_witness :
  match LinkFile (be := be2) (szd := szd2) (aux := no_aux) one_name two_name fs1 with
  | Ok _ s' => files_ fs1 !! two_name = None /\ table_ok (table s') /\
      (files_ s' = <[two_name := 0%nat]> (files_ fs1) \/ files_ s' = files_ fs1)
  | Err _ s' => table_ok (table s')
  | Stuck _ => True
  end.
Proof.
  apply (link_outcomes (be := be2) (szd := szd2) (aux := no_aux) one_name two_name 0 fs1);
    [reflexivity|apply fs1_ok|reflexivity].
Defined.
