(* ===== verification/ZenFSRecover.v ===== *)
(** * Recovering the table of files

    A snapshot of the file system, decoded into an empty file system, gives the
    table of files back: the same names, names of one file together, and under
    each name the file that was recorded. *)

From stdpp Require Import sorting.
From S2P Require Import Prelude Status Coding Device MemDevice Zone Zbd ZbdProps Superblock MetaLog ZoneFile ZoneFileProps Paths ZenFS ZenFSOps ZenFSTable.

Section recover.
Context {D L A : Type} `{be : ZonedBlockDeviceBackend D L} {szd : SZDOnceLog D L}
  {cfg : BuildConfig} {aux : AuxFileSystem A}.
Abbreviation FS := (ZenFS D L A).
Implicit Types s : ZenFS D L A.
Implicit Types f : ZoneFile L.

(** A file that can be recorded: it fits its record, its extents lie in the zones
    they name and in no group of log zones, and it has a name. *)
Record recordable (z : Zbd D) f : Prop := {
  rc_ok : file_ok f;
  rc_located : extents_located z (extents_ f);
  rc_plain : existsb (fun e => wal_group_at z (e_start_ e)) (extents_ f) = false;
  rc_link : linkfiles_ f <> [];
  rc_size : zlen (EncodeSnapshotTo [] f) < 2 ^ 32
}.

Lemma recordable_layout z z' f : same_layout z z' -> recordable z f -> recordable z' f.
Proof.
  intros Hl [H1 H2 H3 H4 H5]. split; try done.
  - by eapply extents_located_layout.
  - rewrite <- H3. apply existsb_ext. intros e. by apply wal_group_at_layout.
Qed.

(** ** Steps *)

(** [files_.insert] of several names *)
Definition insert_names (ns : list bytes) (o : nat) (m : gmap bytes nat) : gmap bytes nat :=
  foldl (fun m n => match m !! n with Some _ => m | None => <[n := o]> m end) m ns.

Lemma insert_names_run ns o s :
  forM ns (fun n => files_insert n o) s = Ok tt (set_files (insert_names ns o (files_ s)) s).
Proof.
  revert s. induction ns as [|n ns IH]; intros s; [by destruct s|].
  cbn [forM]. unfold bind, files_insert at 1, modify. rewrite IH. unfold insert_names. cbn [foldl].
  destruct (files_ s !! n); done.
Qed.

Lemma insert_names_present ns o m : (forall n, n ∈ ns -> is_Some (m !! n)) -> insert_names ns o m = m.
Proof.
  induction ns as [|n ns IH]; intros H; [done|]. unfold insert_names. cbn [foldl].
  destruct (H n ltac:(left)) as [p ->]. apply IH. intros k Hk. apply H. by right.
Qed.

Lemma insert_names_lookup ns o m k :
  insert_names ns o m !! k = match m !! k with Some p => Some p | None => if decide (k ∈ ns) then Some o else None end.
Proof.
  revert m. induction ns as [|n ns IH]; intros m.
  { cbn. rewrite decide_False by apply not_elem_of_nil. by destruct (m !! k). }
  change (insert_names (n :: ns) o m)
    with (insert_names ns o (match m !! n with Some _ => m | None => <[n := o]> m end)). rewrite IH.
  destruct (decide (k = n)) as [->|Hne].
  - destruct (m !! n) as [p|] eqn:Hp; [by rewrite Hp|]. rewrite lookup_insert_eq, decide_True by left. done.
  - replace ((match m !! n with Some _ => m | None => <[n := o]> m end) !! k) with (m !! k).
    + destruct (m !! k); [done|]. apply decide_ext. rewrite elem_of_cons. naive_solver.
    + destruct (m !! n); [done|]. by rewrite lookup_insert_ne.
Qed.

Lemma decode_new f o s :
  recordable (zbd_ s) f -> objs s !! o = Some (ZoneFile_new 0) ->
  on_obj o (DecodeFrom (EncodeSnapshotTo [] f)) s
  = Ok tt (set_zbd (set_heap (add_usage (extents_ f) (zone_heap (zbd_ s))) (zbd_ s))
             (set_objs (<[o := decoded 0 None f]> (objs s)) s)).
Proof.
  intros [Hok Hloc Hp _ _] Ho. unfold on_obj, EncodeSnapshotTo. rewrite Ho.
  destruct (DecodeFrom_encoded 0 f 0 (zbd_ s) [] (o, s) Hok Hloc) as (w & z & _ & Hn & ->).
  rewrite zdrop_0 in *. destruct (Hn Hp) as [-> ->]. done.
Qed.

(** Giving the usage of the zones back. *)
Lemma sub_usage_run {X} es (t : FSt D L X) :
  Forall (fun e => is_Some (zone_heap (f_zbd t) !! e_zone_ e)) es ->
  exists z, forM es (fun e => on_dev (sub_used (e_zone_ e) (e_length_ e))) t
      = Ok tt (mkFSt z (f_file t) (f_buf t) (f_ctx t)) /\ same_layout (f_zbd t) z.
Proof.
  revert t. induction es as [|e es IH]; intros t Hes; [exists (f_zbd t); by destruct t|].
  apply Forall_cons in Hes as [[zn Hz] Hes]. cbn [forM]. unfold bind at 1, on_dev at 1, zoom, sub_used.
  rewrite (mod_zone_ok _ _ _ _ Hz). cbn [f_zbd f_file f_buf f_ctx].
  set (g := fun zn => set_used_capacity (used_capacity_ zn -64 e_length_ e) zn).
  assert (same_layout (f_zbd t) (set_heap (<[e_zone_ e := g zn]> (zone_heap (f_zbd t))) (f_zbd t))) as Hl.
  { split_and!; [done..|]. intros y. cbn. destruct (decide (y = e_zone_ e)) as [->|Hne].
    - by rewrite lookup_insert_eq, Hz.
    - by rewrite lookup_insert_ne. }
  set (z1 := set_heap _ _) in *.
  destruct (IH (mkFSt z1 (f_file t) (f_buf t) (f_ctx t))) as (z & Hrun & Hlay).
  { eapply Forall_impl; [exact Hes|]. intros e' [zn' Hz']. cbn. destruct (decide (e_zone_ e' = e_zone_ e)) as [->|Hne].
    - rewrite lookup_insert_eq. by eexists.
    - rewrite lookup_insert_ne by done. by eexists. }
  exists z. split; [exact Hrun|]. by eapply same_layout_trans.
Qed.

(** The destructor of a file without a log. *)
Lemma delete_run f o s :
  objs s !! o = Some f -> wal_ f = None -> Forall (fun e => is_Some (zone_heap (zbd_ s) !! e_zone_ e)) (extents_ f) ->
  exists z f', on_obj o ZoneFile_delete s = Ok tt (set_zbd z (set_objs (<[o := f']> (objs s)) s)) /\
    same_layout (zbd_ s) z.
Proof.
  intros Ho Hw Hes. destruct (sub_usage_run (extents_ f) (mkFSt (zbd_ s) f [] (o, s)) Hes) as (z & Hrun & Hl).
  exists z. eexists. split; [|done]. unfold on_obj. rewrite Ho. unfold ZoneFile_delete, ClearExtents, get_file.
  unfold bind at 1, gets. cbn [f_file]. rewrite Hw. unfold bind at 1, ret at 1. unfold bind at 1. unfold bind at 1, gets.
  cbn [f_file]. unfold bind at 1. rewrite Hrun. done.
Qed.

(** ** One file of the snapshot *)

Definition decode_one (slice : bytes) : M FS unit :=
  o <- new_file 0 ;;
  with_ref o (
    on_obj o (DecodeFrom slice) ;;
    f <- file_of o ;;
    bump_file_id (file_id_ f) ;;
    forM (linkfiles_ f) (fun name => files_insert name o)).

(** The references and the names lead to objects there are. *)
Definition bounded s : Prop :=
  (forall r, r ∈ refs s -> (r < next_obj s)%nat) /\ (forall n o, files_ s !! n = Some o -> (o < next_obj s)%nat).

(** What decoding the record of [f] adds to [s]: the file under its names, or
    nothing when they are taken. *)
Definition added f s s' : Prop :=
  next_obj s' = S (next_obj s) /\ refs s' = refs s /\ same_layout (zbd_ s) (zbd_ s') /\
  files_ s' = insert_names (linkfiles_ f) (next_obj s) (files_ s) /\
  (forall o, o <> next_obj s -> objs s' !! o = objs s !! o) /\
  ((forall n, n ∈ linkfiles_ f -> files_ s !! n = None) -> objs s' !! next_obj s = Some (decoded 0 None f)).

Lemma decode_body_run f o s :
  recordable (zbd_ s) f -> objs s !! o = Some (ZoneFile_new 0) ->
  exists s', (on_obj o (DecodeFrom (EncodeSnapshotTo [] f)) ;;
    f <- file_of o ;;
    bump_file_id (file_id_ f) ;;
    forM (linkfiles_ f) (fun name => files_insert name o)) s = Ok tt s' /\
    next_obj s' = next_obj s /\ refs s' = refs s /\ same_layout (zbd_ s) (zbd_ s') /\
    files_ s' = insert_names (linkfiles_ f) o (files_ s) /\
    objs s' = <[o := decoded 0 None f]> (objs s).
Proof.
  intros Hrc Ho. eexists. rewrite (bind_ok _ _ _ _ _ (decode_new f o s Hrc Ho)).
  unfold file_of. unfold bind at 1. unfold bind at 1, get. cbn [objs set_zbd set_objs]. rewrite lookup_insert_eq.
  cbn [deref]. unfold ret. unfold bind at 1, bump_file_id, modify. rewrite insert_names_run.
  split; [reflexivity|]. cbn [linkfiles_ file_id_ decoded].
  destruct (_ <=? _); cbn; split_and!; try done; apply add_usage_layout.
Qed.

Lemma recordable_zones z z' f : recordable z f -> same_layout z z' ->
  Forall (fun e => is_Some (zone_heap z' !! e_zone_ e)) (extents_ f).
Proof.
  intros Hrc Hl. destruct (rc_located _ _ Hrc) as (_ & _ & Hes). eapply Forall_impl; [exact Hes|].
  intros e He. apply io_zone_at_Some in He as [zn Hz]. destruct Hl as (_ & _ & Hl). specialize (Hl (e_zone_ e)).
  rewrite Hz in Hl. by destruct (zone_heap z' !! e_zone_ e).
Qed.

Lemma decode_one_run f s :
  recordable (zbd_ s) f -> bounded s ->
  (forall n, n ∈ linkfiles_ f -> files_ s !! n = None) \/ (forall n, n ∈ linkfiles_ f -> is_Some (files_ s !! n)) ->
  exists s', decode_one (EncodeSnapshotTo [] f) s = Ok tt s' /\ added f s s'.
Proof.
  intros Hrc [Hrefs Hfiles] Hcase. unfold decode_one. set (o := next_obj s).
  unfold bind at 1, new_file. unfold bind at 1, get. unfold bind at 1, modify, ret at 1. fold o.
  set (s1 := set_next_obj (S o) _). unfold with_ref. unfold bind at 1, add_ref, modify. set (s2 := set_refs _ s1).
  destruct (decode_body_run f o s2) as (s3 & Hrun & Hn3 & Hr3 & Hl3 & Hf3 & Ho3);
    [exact Hrc|cbn; by rewrite lookup_insert_eq|].
  unfold bind at 1, attempt. rewrite Hrun. unfold drop_ref. unfold bind at 1. unfold bind at 1, modify. rewrite Hr3.
  replace (remove_first o (refs s2)) with (refs s) by (cbn; by rewrite decide_True).
  set (s4 := set_refs (refs s) s3). unfold collect. unfold bind at 1, get.
  destruct Hcase as [Hnew|Hold].
  - replace (referenced o s4) with true.
    { eexists. split; [reflexivity|]. cbn in *. split_and!; try done.
      - intros p Hp. cbn. rewrite Ho3, lookup_insert_ne by done. by rewrite lookup_insert_ne.
      - intros _. cbn. by rewrite Ho3, lookup_insert_eq. }
    symmetry. apply orb_true_iff. right. apply existsb_exists.
    destruct (linkfiles_ f) as [|n ns] eqn:El; [by destruct (rc_link _ _ Hrc)|].
    exists (n, o). split; [|by apply bool_decide_eq_true]. apply list_elem_of_In, elem_of_map_to_list. cbn.
    rewrite Hf3, insert_names_lookup. cbn [files_ s2 set_refs s1 set_next_obj set_objs].
    rewrite Hnew by left. by rewrite decide_True by left.
  - replace (referenced o s4) with false.
    2: { symmetry. apply orb_false_iff. split.
         - apply bool_decide_eq_false. cbn. intros Hin. pose proof (Hrefs _ Hin). lia.
         - apply not_true_iff_false. intros [[n p] [Hin Hp]]%existsb_exists. apply bool_decide_eq_true in Hp. cbn in Hp. subst p.
           apply list_elem_of_In, elem_of_map_to_list in Hin. cbn in Hin. rewrite Hf3, insert_names_present in Hin by done.
           pose proof (Hfiles _ _ Hin). lia. }
    destruct (delete_run (decoded 0 None f) o s4) as (z & f' & Hdel & Hlz).
    { cbn. by rewrite Ho3, lookup_insert_eq. }
    { done. }
    { cbn [decoded extents_]. rewrite zdrop_0. eapply recordable_zones; [exact Hrc|]. exact Hl3. }
    unfold bind at 1. rewrite Hdel. eexists. split; [reflexivity|]. cbn. split_and!; try done.
    + by eapply same_layout_trans.
    + intros p Hp. cbn. rewrite lookup_delete_ne, lookup_insert_ne, Ho3, lookup_insert_ne by done. cbn.
      by rewrite lookup_insert_ne.
    + intros Hnew. destruct (linkfiles_ f) as [|n ns] eqn:El; [by destruct (rc_link _ _ Hrc)|].
      destruct (Hold n ltac:(left)) as [p Hp]. rewrite Hnew in Hp by left. done.
Qed.

(** ** All files of the snapshot *)

Definition snapshot_bytes (fs : list (ZoneFile L)) : bytes :=
  mjoin ((fun f => PutLengthPrefixedSlice [] (EncodeSnapshotTo [] f)) <$> fs).

Lemma snapshot_bytes_cons f fs :
  snapshot_bytes (f :: fs) = EncodeVarint32 (u32 (zlen (EncodeSnapshotTo [] f))) ++ EncodeSnapshotTo [] f ++ snapshot_bytes fs.
Proof.
  unfold snapshot_bytes. rewrite fmap_cons. cbn [mjoin list_join].
  by rewrite PutLengthPrefixedSlice_eq, app_nil_l, <-app_assoc.
Qed.

(** Objects and their files, each object with one file, and files that share no link. *)
Definition separate (l : list (nat * ZoneFile L)) : Prop :=
  forall o f o' f', (o, f) ∈ l -> (o', f') ∈ l ->
    (o = o' -> f = f') /\ (o <> o' -> forall n, n ∈ linkfiles_ f -> n ∉ linkfiles_ f').

(** The files of [l] are there under their links, and no other name is. *)
Record recovered (l : list (nat * ZoneFile L)) s : Prop := {
  rv_file : forall o f n, (o, f) ∈ l -> n ∈ linkfiles_ f ->
    exists o', files_ s !! n = Some o' /\ objs s !! o' = Some (decoded 0 None f);
  rv_name : forall n o', files_ s !! n = Some o' ->
    exists o f, (o, f) ∈ l /\ n ∈ linkfiles_ f /\ forall m, files_ s !! m = Some o' <-> m ∈ linkfiles_ f
}.

Lemma recovered_case l o f s :
  recovered l s -> separate (l ++ [(o, f)]) ->
  ((o, f) ∈ l /\ (forall n, n ∈ linkfiles_ f -> is_Some (files_ s !! n))) \/
  (forall n, n ∈ linkfiles_ f -> files_ s !! n = None).
Proof.
  intros [Hfile Hname] Hsep.
  assert ((o, f) ∈ l ++ [(o, f)]) as Hlast by (apply elem_of_app; right; by left).
  destruct (decide (o ∈ l.*1)) as [Hin|Hout].
  - left. apply list_elem_of_fmap in Hin as ([o' g] & -> & Hg). cbn in *.
    destruct (Hsep o' g o' f) as [Hfg _]; [apply elem_of_app; by left|done|].
    rewrite Hfg in Hg by done. split; [done|]. intros n Hn. destruct (Hfile o' f n Hg Hn) as (p & -> & _). by eexists.
  - right. intros n Hn. destruct (files_ s !! n) as [p|] eqn:Hp; [|done].
    destruct (Hname n p Hp) as (o' & g & Hg & Hng & _).
    destruct (Hsep o f o' g) as [_ Hdis]; [done|apply elem_of_app; by left|].
    destruct (Hdis ltac:(intros ->; apply Hout, list_elem_of_fmap; by exists (o', g)) n Hn Hng).
Qed.

Lemma recovered_step l o f s s' :
  recovered l s -> separate (l ++ [(o, f)]) -> bounded s -> added f s s' ->
  recovered (l ++ [(o, f)]) s' /\ bounded s'.
Proof.
  intros Hrv Hsep [Hrefs Hfiles] (Hn & Hr & _ & Hf & Ho & Hnew). split.
  2: { split; [rewrite Hr, Hn; intros r Hin; pose proof (Hrefs r Hin); lia|].
       intros n o' Hno. rewrite Hf, insert_names_lookup in Hno. rewrite Hn.
       destruct (files_ s !! n) eqn:E; [simplify_eq; pose proof (Hfiles _ _ E); lia|].
       destruct (decide _); simplify_eq. lia. }
  assert (forall n p, files_ s !! n = Some p -> objs s' !! p = objs s !! p) as Hobj.
  { intros n p Hp. apply Ho. intros ->. pose proof (Hfiles _ _ Hp). lia. }
  destruct (recovered_case l o f s Hrv Hsep) as [[Hin Hold]|Habs]; destruct Hrv as [Hfile Hname].
  - rewrite insert_names_present in Hf by done. split.
    + intros o1 g n Hg Hng. assert ((o1, g) ∈ l) as Hg' by (apply elem_of_app in Hg as [?|[= -> ->]%list_elem_of_singleton]; done).
      destruct (Hfile o1 g n Hg' Hng) as (p & Hp & Hop). exists p. rewrite Hf, (Hobj n p Hp). done.
    + intros n p Hp. rewrite Hf in *. destruct (Hname n p Hp) as (o1 & g & Hg & H). exists o1, g.
      split; [apply elem_of_app; by left|done].
  - specialize (Hnew Habs).
    assert (forall n, files_ s' !! n = if decide (n ∈ linkfiles_ f) then Some (next_obj s) else files_ s !! n) as Hlook.
    { intros n. rewrite Hf, insert_names_lookup. destruct (decide (n ∈ linkfiles_ f)) as [Hl|Hl]; [by rewrite Habs|].
      by destruct (files_ s !! n). }
    split.
    + intros o1 g n Hg Hng. apply elem_of_app in Hg as [Hg|[= -> ->]%list_elem_of_singleton].
      * destruct (Hfile o1 g n Hg Hng) as (p & Hp & Hop). exists p.
        rewrite Hlook, decide_False by (intros Hl; by rewrite Habs in Hp). by rewrite (Hobj n p Hp).
      * exists (next_obj s). by rewrite Hlook, decide_True.
    + intros n p. rewrite Hlook. destruct (decide (n ∈ linkfiles_ f)) as [Hl|Hl].
      * intros [= <-]. exists o, f. split; [apply elem_of_app; right; by left|]. split; [done|].
        intros m. rewrite Hlook. destruct (decide (m ∈ linkfiles_ f)); [done|]. split; [|done].
        intros Hm. pose proof (Hfiles _ _ Hm). lia.
      * intros Hp. destruct (Hname n p Hp) as (o1 & g & Hg & Hng & Hiff). exists o1, g.
        split; [apply elem_of_app; by left|]. split; [done|]. intros m. rewrite Hlook, <-Hiff.
        destruct (decide (m ∈ linkfiles_ f)) as [Hm|Hm]; [|done]. rewrite Habs by done. split; [|done].
        intros [= <-]. pose proof (Hfiles _ _ Hp). lia.
Qed.

Lemma EncodeVarint32_pos v : (0 < length (EncodeVarint32 v))%nat.
Proof. unfold EncodeVarint32. repeat (destruct (_ <? _); [simpl; lia|]). simpl. lia. Qed.

Lemma DecodeSnapshot_loop_run l done n s :
  recovered done s -> separate (done ++ l) -> bounded s -> Forall (fun p => recordable (zbd_ s) p.2) l ->
  (length (snapshot_bytes l.*2) <= n)%nat ->
  exists s', DecodeSnapshotFrom_loop n (snapshot_bytes l.*2) s = Ok tt s' /\ recovered (done ++ l) s'.
Proof.
  revert done n s. induction l as [|[o f] l IH]; intros dn n s Hrv Hsep Hb Hrc Hlen.
  { exists s. rewrite app_nil_r. split; [by destruct n|done]. }
  apply Forall_cons in Hrc as [Hf Hrc]. cbn [snd] in Hf. rewrite fmap_cons in *. cbn [snd] in *.
  rewrite snapshot_bytes_cons in *. pose proof (rc_size _ _ Hf) as Hsz. pose proof (zlen_nonneg (EncodeSnapshotTo [] f)).
  assert (dn ++ (o, f) :: l = (dn ++ [(o, f)]) ++ l) as Happ by (by rewrite <-app_assoc).
  assert (separate (dn ++ [(o, f)])) as Hsep1.
  { intros o1 f1 o2 f2 H1 H2. apply Hsep; rewrite Happ; apply elem_of_app; by left. }
  destruct (decode_one_run f s Hf Hb) as (s1 & Hrun & Hadd).
  { destruct (recovered_case dn o f s Hrv Hsep1) as [[_ ?]|?]; auto. }
  destruct (recovered_step dn o f s s1 Hrv Hsep1 Hb Hadd) as [Hrv1 Hb1].
  destruct n as [|n].
  { exfalso. rewrite !length_app in Hlen. pose proof (EncodeVarint32_pos (u32 (zlen (EncodeSnapshotTo [] f)))). lia. }
  destruct (IH (dn ++ [(o, f)]) n s1) as (s' & Hloop & Hrv'); try done.
  { by rewrite <-Happ. }
  { eapply Forall_impl; [exact Hrc|]. intros p. apply recordable_layout, Hadd. }
  { rewrite !length_app in Hlen. pose proof (EncodeVarint32_pos (u32 (zlen (EncodeSnapshotTo [] f)))). lia. }
  exists s'. split; [|by rewrite Happ]. cbn [DecodeSnapshotFrom_loop].
  rewrite GetLengthPrefixedSlice_encode by lia. rewrite <-Hloop, <-bind_assoc.
  exact (bind_ok _ _ _ _ _ Hrun).
Qed.

(** ** Encoding *)

Lemma encode_files_run es s acc :
  Forall (fun p : bytes * nat => is_Some (objs s !! p.2)) es ->
  exists l, (fst <$> l) = (snd <$> es) /\ Forall (fun p => objs s !! p.1 = Some p.2) l /\
    foldM (fun acc p => f <- file_of p.2 ;; ret (PutLengthPrefixedSlice acc (EncodeSnapshotTo [] f))) acc es s
    = Ok (acc ++ snapshot_bytes l.*2) s.
Proof.
  revert acc. induction es as [|[n o] es IH]; intros acc Hes.
  { exists []. split_and!; [done|by apply Forall_nil|]. unfold snapshot_bytes. cbn. by rewrite app_nil_r. }
  apply Forall_cons in Hes as [[f Hf] Hes]. cbn [snd] in Hf.
  destruct (IH (PutLengthPrefixedSlice acc (EncodeSnapshotTo [] f)) Hes) as (l & Hl & Hobj & Hrun).
  exists ((o, f) :: l). split_and!; [cbn; by rewrite Hl|by apply Forall_cons|].
  cbn [foldM]. rewrite (bind_ok _ _ s (PutLengthPrefixedSlice acc (EncodeSnapshotTo [] f)) s).
  2: { unfold file_of, bind, get. cbn [snd]. by rewrite Hf. }
  rewrite Hrun, fmap_cons. cbn [snd]. rewrite snapshot_bytes_cons, PutLengthPrefixedSlice_eq.
  by rewrite <-!app_assoc.
Qed.
End recover.

(** The objects of a consistent table with their files. *)
Lemma table_files {D L A : Type} (s : ZenFS D L A) l :
  table_ok (table s) -> fst <$> l = snd <$> entries (files_ s) -> Forall (fun p => objs s !! p.1 = Some p.2) l ->
  (forall o f, (o, f) ∈ l <-> exists n, files_ s !! n = Some o /\ objs s !! o = Some f) /\
  (forall o f n, (o, f) ∈ l -> (files_ s !! n = Some o <-> n ∈ linkfiles_ f)).
Proof.
  intros Hok Hl Hobj. rewrite Forall_forall in Hobj.
  assert (forall n o, (n, o) ∈ entries (files_ s) <-> files_ s !! n = Some o) as Hent.
  { intros n o. unfold entries. rewrite merge_sort_Permutation. apply elem_of_map_to_list. }
  assert (forall o f, (o, f) ∈ l <-> exists n, files_ s !! n = Some o /\ objs s !! o = Some f) as Hiff.
  { intros o f. split.
    - intros Hin. assert (o ∈ snd <$> entries (files_ s)) as Ho.
      { rewrite <-Hl. apply list_elem_of_fmap. by exists (o, f). }
      apply list_elem_of_fmap in Ho as ([n p] & -> & Hp). exists n. split; [by apply Hent|]. by apply (Hobj (p, f)).
    - intros (n & Hn & Ho). assert (o ∈ fst <$> l) as Hin.
      { rewrite Hl. apply list_elem_of_fmap. exists (n, o). by rewrite Hent. }
      apply list_elem_of_fmap in Hin as ([p g] & -> & Hp). pose proof (Hobj _ Hp) as Hg. cbn in *. by simplify_eq. }
  split; [done|]. intros o f n [k [Hk Ho]]%Hiff.
  destruct (table_file (table s) k o Hok Hk) as (ls & id & Hlinks & _ & _ & _ & Hself & _).
  cbn in Hlinks. rewrite lookup_fmap, Ho in Hlinks. injection Hlinks as <- <-. apply Hself.
Qed.


(** A file with two names and two extents. *)
Definition fs2 : ZenFS MemDev MemLog unit :=
  mkZenFS zbd1 {[ b_of "/db/000001.sst" := 0%nat; b_of "/db/link" := 0%nat ]} 8 None None false tt
    {[ 0%nat := file1 ]} [] 1 (fun _ => 7) 0.

Lemma fs2_ok : table_ok (table fs2).
Proof.
  assert (table fs2 = mkTable (files_ fs2) (<[0%nat := (linkfiles_ file1, 7)]> ∅) 8 1) as ->.
  { unfold table. cbn. by rewrite map_fmap_singleton, insert_empty. }
  apply (table_ok_update (mkTable ∅ ∅ 0 0)); try (cbn; lia).
  - split; cbn; intros; (by rewrite lookup_empty in *) || (destruct H as [? H]; by rewrite lookup_empty in H).
  - intros n p Hp. cbn. rewrite !lookup_insert_Some, !lookup_empty. naive_solver.
  - intros n. cbn. rewrite !lookup_insert_Some, lookup_empty, !elem_of_cons, elem_of_nil.
    destruct (decide (n = b_of "/db/000001.sst")); naive_solver.
  - by apply (bool_decide_unpack (NoDup _)).
  - intros p lp ip _ [n Hn]. cbn in Hn. by rewrite lookup_empty in Hn.
Qed.

