(* ===== verification/ZenFSSpace.v ===== *)
(** * Space accounting

    [used_capacity_] of a zone decides whether [ResetUnusedIOZones] may reset it.
    The invariant of this file ties it to the extents of all file objects, and
    with it deleting files and resetting zones destroys no data of a file that is
    still there. *)

From S2P Require Import Prelude Status Coding Device MemDevice Zone Zbd ZbdProps ZbdFrame Superblock MetaLog ZoneFile ZoneFileProps FileWrite FileRead FileReadProps FileWriteProps Paths ZenFS ZenFSFrame ZenFSOps ZenFSTable ZenFSNames.

(** ** The device: giving space back, resetting *)

Section zones.
Context {D L : Type} `{spec : BackendSpec D L}.
Implicit Types s : Zbd D.

(** [s] keeps what is in use in [s0]: the data of the zones with live data and
    the usage of all of them. *)
Definition live_kept s0 s : Prop :=
  dev_ok s /\ same_layout s0 s /\ meta_zones s = meta_zones s0 /\
  forall z zn, z ∈ io_zones s0 -> zone_heap s0 !! z = Some zn ->
    exists zn', zone_heap s !! z = Some zn' /\ used_capacity_ zn' = used_capacity_ zn /\
      (used_capacity_ zn <> 0 -> wp_ zn' = wp_ zn /\
         forall a, start_ zn <= a < start_ zn + zone_sz_ -> disk (zbd_be_ s) a = disk (zbd_be_ s0) a).

Lemma live_kept_refl s : dev_ok s -> live_kept s s.
Proof. intros Hd. split_and!; try done. intros z zn _ Hz. by exists zn. Qed.

(** The reset of a zone without live data. *)
Lemma live_kept_reset s0 s z zn zn' k d :
  live_kept s0 s -> z ∈ io_zones s0 -> zone_heap s !! z = Some zn -> used_capacity_ zn = 0 ->
  zone_wf zn' -> start_ zn' = start_ zn -> used_capacity_ zn' = used_capacity_ zn ->
  capacity_ zn' mod block_sz_ = 0 ->
  (forall a, ~ (start_ zn <= a < start_ zn + zone_sz_) -> disk d a = disk (zbd_be_ s) a) ->
  live_kept s0 (zone_update z zn' k d s).
Proof.
  intros (Hd & Hl & Hm & Hk) Hin Hz Hu Hwf Hst Hu' Hc Ha.
  assert (same_layout s (zone_update z zn' k d s)) as Hl'.
  { split_and!; [done..|]. intros y. cbn. destruct (decide (y = z)) as [->|Hne].
    - rewrite lookup_insert_eq, Hz. cbn. by f_equal.
    - by rewrite lookup_insert_ne. }
  pose proof Hl as (Hio & _).
  split_and!; [|by eapply same_layout_trans|done|].
  - apply (dev_ok_step s); try done.
    + apply (zones_wf_insert (set_be d s)); [apply Hd|done].
    + apply Hd.
    + intros y yn Hy. cbn. destruct (decide (y = z)) as [->|Hne].
      * rewrite lookup_insert_eq. by intros [= <-].
      * rewrite lookup_insert_ne by done. by apply (dok_blocks _ Hd).
  - intros y yn Hy Hyn. destruct (Hk y yn Hy Hyn) as (yn' & Hyn' & Huy & Hkeep). cbn.
    destruct (decide (y = z)) as [->|Hne].
    + rewrite lookup_insert_eq. rewrite Hyn' in Hz. injection Hz as ->. exists zn'. split; [done|].
      split; [congruence|]. intros Hne. congruence.
    + rewrite lookup_insert_ne by done. exists yn'. split; [done|]. split; [done|]. intros Hnz.
      destruct (Hkeep Hnz) as [Hw Hdisk]. split; [done|]. intros a Hr. rewrite Ha; [by apply Hdisk|].
      pose proof (same_layout_start _ _ _ _ _ Hl Hyn Hyn') as Hsy. intros Hr'.
      destruct (dok_disjoint _ Hd _ _ _ _ Hz Hyn' ltac:(done)); lia.
Qed.

Lemma live_kept_round s0 z : z ∈ io_zones s0 -> runs (live_kept s0) (reset_round z) (live_kept s0).
Proof.
  intros Hin s Hs. pose proof Hs as (Hd & Hl & _). pose proof Hl as (Hio & _).
  destruct (dok_io _ Hd) as [Hall _]. rewrite Forall_forall in Hall.
  destruct (Hall z) as [zn Hz]; [by rewrite Hio|]. rewrite (reset_round_run _ _ zn) by done.
  destruct (busy_ zn); [done|]. destruct (reclaimable zn) eqn:Hr; [|done].
  pose proof (zones_wf_lookup _ _ _ (dok_wf _ Hd) Hz) as Hwf.
  assert (used_capacity_ zn = 0) as Hu.
  { unfold reclaimable, IsUsed in Hr. apply andb_true_iff in Hr as [_ Hr%negb_true_iff].
    destruct (Z.ltb_spec 0 (used_capacity_ zn)); [done|]. destruct Hwf as (_&_&_&_&_&_&[??]). lia. }
  destruct (be_Reset (start_ zn) (zbd_be_ s)) as [[e|[off mc]] d] eqn:E.
  - pose proof (live_kept_reset s0 s z zn zn 0 d Hs Hin Hz Hu Hwf ltac:(done) ltac:(done)
      (dok_blocks _ Hd _ _ ltac:(by rewrite Hio) Hz) (reset_fails _ _ _ _ E (proj2 (proj1 Hwf)))) as H.
    assert (zone_update z zn 0 d s = set_be d s) as Heq; [|by rewrite Heq in H].
    unfold zone_update. rewrite insert_id, Z.sub_0_r by done. by destruct s.
  - destruct (reset_ok _ _ _ _ _ E (proj2 (proj1 Hwf))) as [[Hmc Hmb] Ha].
    apply (live_kept_reset s0 s z zn); try done.
    + pose proof zone_sz_pos. destruct Hwf as (?&?&?&?&?&?&?). unfold zone_wf, is_u in *. cbn.
      destruct off; lia.
    + cbn. destruct off; [|done]. apply Z.mod_0_l. pose proof block_sz_pos. lia.
Qed.

Lemma ResetUnusedIOZones_live s : dev_ok s -> runs (fun s' => s' = s) ResetUnusedIOZones (live_kept s).
Proof.
  intros Hd s' ->. unfold ResetUnusedIOZones. unfold bind, get.
  apply (runs_forM (live_kept s)); [|by apply live_kept_refl]. intros z Hz. by apply live_kept_round.
Qed.

(** [used_capacity_ -= n] *)
Lemma sub_used_run z zn n s :
  dev_ok s -> z ∈ io_zones s -> zone_heap s !! z = Some zn ->
  exists s', sub_used z n s = Ok tt s' /\
    stored (fun y => if decide (y = z) then - n else 0) s s' /\ dev_ok s'.
Proof.
  intros Hd Hin Hz. destruct (add_used_heap z zn (- n) s Hd Hin Hz) as [Hs Hd'].
  eexists. split; [|by split]. unfold sub_used. by rewrite (mod_zone_ok _ _ _ _ Hz).
Qed.
End zones.

(** ** The file system *)

Section space.
Context {D L A : Type} `{spec : BackendSpec D L} {szd : SZDOnceLog D L} {aux : AuxFileSystem A}.
Implicit Types s : ZenFS D L A.

(** The bytes of a zone that belong to a file. *)
Definition live_in (m : gmap nat (ZoneFile L)) (z : nat) : Z :=
  map_fold (fun _ f n => usage (extents_ f) z + n) 0 m.

Lemma live_in_delete m o f z :
  m !! o = Some f -> live_in m z = usage (extents_ f) z + live_in (base.delete o m) z.
Proof.
  intros Ho. unfold live_in. rewrite (map_fold_delete_L _ _ o f m); [done| |done]. intros. lia.
Qed.

Lemma live_in_insert m o f f' z :
  m !! o = Some f -> live_in (<[o := f']> m) z = live_in m z - usage (extents_ f) z + usage (extents_ f') z.
Proof.
  intros Ho. rewrite (live_in_delete m o f z Ho), (live_in_delete (<[o := f']> m) o f' z).
  - rewrite delete_insert_eq. lia.
  - apply lookup_insert_eq.
Qed.

(** An extent that holds data. *)
Definition data_extent (s : Zbd D) (e : ZoneExtent) : Prop := stored_extent s e /\ 0 < e_length_ e.

Lemma data_stored (s : Zbd D) es : Forall (data_extent s) es -> Forall (stored_extent s) es.
Proof. intros H. eapply Forall_impl; [exact H|]. by intros e []. Qed.

Lemma usage_nonneg (s : Zbd D) es z : Forall (data_extent s) es -> 0 <= usage es z.
Proof.
  induction 1 as [|e es [_ He] _ IH]; [done|]. cbn. fold (usage es z). destruct (decide _); lia.
Qed.

Lemma usage_elem (s : Zbd D) es e : Forall (data_extent s) es -> e ∈ es -> 0 < usage es (e_zone_ e).
Proof.
  induction 1 as [|x es [_ Hx] Hes IH]; [by intros ?%elem_of_nil|]. cbn. fold (usage es (e_zone_ e)).
  pose proof (usage_nonneg s es (e_zone_ e) Hes). intros [->|Hin]%elem_of_cons.
  - rewrite decide_True by done. lia.
  - specialize (IH Hin). destruct (decide _); lia.
Qed.

(** The invariant: the data of every file object is below the write pointers, and
    no zone has more live data than it accounts for. *)
Record space_inv s : Prop := {
  si_dev : dev_ok (zbd_ s);
  si_log : log_ok (meta_zones (zbd_ s)) s;
  si_data : forall o f, objs s !! o = Some f -> Forall (data_extent (zbd_ s)) (extents_ f);
  si_used : forall z zn, z ∈ io_zones (zbd_ s) -> zone_heap (zbd_ s) !! z = Some zn ->
    live_in (objs s) z <= used_capacity_ zn
}.

Lemma live_in_nonneg (z : Zbd D) m y :
  map_Forall (fun (_ : nat) (f : ZoneFile L) => Forall (data_extent z) (extents_ f)) m -> 0 <= live_in m y.
Proof.
  induction m as [|o f m Ho IH] using map_ind; [done|]. intros Hm.
  apply map_Forall_insert in Hm as [Hf Hm]; [|done]. rewrite (live_in_delete _ o f) by apply lookup_insert_eq.
  rewrite delete_insert_id by done. pose proof (usage_nonneg z _ y Hf). specialize (IH Hm). lia.
Qed.

(** A zone with data of a file accounts for it. *)
Lemma space_inv_used s o f e zn :
  space_inv s -> objs s !! o = Some f -> e ∈ extents_ f ->
  zone_heap (zbd_ s) !! e_zone_ e = Some zn -> e_zone_ e ∈ io_zones (zbd_ s) -> 0 < used_capacity_ zn.
Proof.
  intros [Hd Hl Hdata Hu] Ho He Hz Hin. specialize (Hu _ _ Hin Hz).
  rewrite (live_in_delete _ o f _ Ho) in Hu. pose proof (usage_elem _ _ _ (Hdata o f Ho) He).
  enough (0 <= live_in (base.delete o (objs s)) (e_zone_ e)) by lia.
  apply (live_in_nonneg (zbd_ s)). intros p g [_ Hp]%lookup_delete_Some. by apply (Hdata p).
Qed.

(** *** Steps that lose nothing *)

(** Since [s0] zone [z] accounts for [u z] bytes more, the extents of all objects
    are the same and their data is still there. *)
Definition fs_step (u : nat -> Z) s0 s : Prop :=
  dev_ok (zbd_ s) /\ log_ok (meta_zones (zbd_ s0)) s /\ stored u (zbd_ s0) (zbd_ s) /\
  dom (objs s) = dom (objs s0) /\
  forall o f, objs s0 !! o = Some f ->
    exists f', objs s !! o = Some f' /\ extents_ f' = extents_ f /\ wal_ f' = wal_ f.

Lemma fs_step_refl s : dev_ok (zbd_ s) -> log_ok (meta_zones (zbd_ s)) s -> fs_step none s s.
Proof.
  intros Hd Hl. split_and!; try done; [apply stored_refl, Hd|]. intros o f Ho. by exists f.
Qed.

Lemma fs_step_trans u v s1 s2 s3 :
  fs_step u s1 s2 -> fs_step v s2 s3 -> fs_step (fun z => u z + v z) s1 s3.
Proof.
  intros (D1 & L1 & S1 & M1 & O1) (D2 & L2 & S2 & M2 & O2).
  pose proof S1 as (_ & Hm & _). rewrite Hm in L2. split_and!; try done; [by eapply stored_trans|congruence|].
  intros o f Ho. destruct (O1 o f Ho) as (g & Hg & E1 & W1). destruct (O2 o g Hg) as (h & Hh & E2 & W2).
  exists h. split_and!; congruence.
Qed.

Lemma fs_step_ext u v s s' : (forall z, u z = v z) -> fs_step u s s' -> fs_step v s s'.
Proof. intros Huv (?&?&?&?&?). split_and!; try done. by eapply stored_ext. Qed.

Lemma fs_step_none u s1 s2 s3 : fs_step u s1 s2 -> fs_step none s2 s3 -> fs_step u s1 s3.
Proof. intros H1 H2. eapply fs_step_ext; [|by eapply fs_step_trans]. intros z. unfold none. cbn. lia. Qed.

Lemma journal_fs_step s0 s : dev_ok (zbd_ s0) -> journal s0 s -> fs_step none s0 s.
Proof.
  intros Hd (Hm & Hl & (_ & _ & Ho) & Hdom & _). destruct (meta_step_stored _ _ Hd Hm) as [Hs Hd'].
  split_and!; try done. intros o f Hf. destruct (Ho o f Hf) as (f' & Hf' & n & t & ->). by eexists.
Qed.

(** What the operations do to the state is a step from any state before. *)
Section steps.
Context (u : nat -> Z) (s0 : ZenFS D L A).
Abbreviation K := (fs_step u s0).

Lemma step_from s : K s -> dev_ok (zbd_ s) /\ log_ok (meta_zones (zbd_ s)) s.
Proof. intros (Hd & Hl & (_ & Hm & _) & _). by rewrite Hm. Qed.

Lemma step_PersistRecord r : preserves K (PersistRecord r).
Proof.
  intros s Hs. destruct (step_from s Hs) as [Hd Hl].
  pose proof (journal_PersistRecord s r s (journal_start s Hd Hl)) as Hj.
  destruct (PersistRecord r s); [| |done]; (eapply fs_step_none; [done|by apply journal_fs_step]).
Qed.

Lemma step_Sync o r : preserves K (SyncFileMetadataNoLock o r).
Proof.
  intros s Hs. destruct (step_from s Hs) as [Hd Hl].
  pose proof (journal_Sync s o r s (journal_start s Hd Hl)) as Hj.
  destruct (SyncFileMetadataNoLock o r s); [| |done]; (eapply fs_step_none; [done|by apply journal_fs_step]).
Qed.

(** A change of anything but the device, the log and the objects. *)
Lemma step_set s s' :
  zbd_ s' = zbd_ s -> meta_log_ s' = meta_log_ s -> objs s' = objs s -> K s -> K s'.
Proof. unfold fs_step, log_ok. by intros -> -> ->. Qed.

Lemma step_erase name : preserves K (files_erase name).
Proof. apply preserves_modify. intros s. by apply step_set. Qed.
Lemma step_insert name o : preserves K (files_insert name o).
Proof. apply preserves_modify. intros s. destruct (files_ s !! name); [done|]. by apply step_set. Qed.
Lemma step_add_ref o : preserves K (add_ref o).
Proof. apply preserves_modify. intros s. by apply step_set. Qed.
Lemma step_refs g : preserves K (modify (fun s => set_refs (g s) s)).
Proof. apply preserves_modify. intros s. by apply step_set. Qed.
Lemma step_aux g : preserves K (on_aux g).
Proof.
  unfold on_aux. apply preserves_bind; [apply preserves_get|]. intros s1. destruct (g (aux_fs s1)).
  apply preserves_bind; [|intros; apply preserves_returnS]. apply preserves_modify. intros s2. by apply step_set.
Qed.
Lemma step_file_of o : preserves K (file_of o).
Proof. unfold file_of. preserves_solve. Qed.
Lemma step_path p : preserves K (ToAuxPath p).
Proof. unfold ToAuxPath. preserves_solve. Qed.

(** A change of an object that leaves its extents. *)
Lemma step_obj s o f f' :
  K s -> objs s !! o = Some f -> extents_ f' = extents_ f -> wal_ f' = wal_ f ->
  K (set_objs (<[o := f']> (objs s)) s).
Proof.
  intros (Hd & Hl & Hs & Hdom & Ho) Hf He Hw. split_and!; try done.
  - cbn. rewrite dom_insert_L, Hdom. apply elem_of_dom_2 in Hf. set_solver.
  - cbn. intros p g Hg. destruct (Ho p g Hg) as (g' & Hg' & E & W). destruct (decide (p = o)) as [->|Hne].
    + rewrite lookup_insert_eq. exists f'. split; [done|]. split; congruence.
    + rewrite lookup_insert_ne by done. eauto.
Qed.

Lemma step_mod_obj o g :
  (forall f, extents_ (g f) = extents_ f /\ wal_ (g f) = wal_ f) -> preserves K (mod_obj o g).
Proof.
  intros Hg s Hs. unfold mod_obj, file_of, bind, get. destruct (objs s !! o) as [f|] eqn:Ho; [|done].
  cbn. by apply (step_obj s o f); [..|apply Hg|apply Hg].
Qed.

(** A method that changes neither the device nor the extents. *)
Lemma step_on_obj {B} o (m : M (FSt D L (nat * ZenFS D L A)) B) :
  (forall t, match m t with
     | Ok _ t' | Err _ t' => f_zbd t' = f_zbd t /\ f_ctx t' = f_ctx t /\
         extents_ (f_file t') = extents_ (f_file t) /\ wal_ (f_file t') = wal_ (f_file t)
     | Stuck _ => True end) ->
  preserves K (on_obj o m).
Proof.
  intros Hm s Hs. unfold on_obj. destruct (objs s !! o) as [f|] eqn:Ho; [|done].
  specialize (Hm (mkFSt (zbd_ s) f [] (o, s))).
  destruct (m _) as [b t|e t|]; [| |done]; destruct Hm as (Hz & Hc & He & Hw); cbn in *;
    unfold unpack; rewrite Hc, Hz; apply (step_set (set_objs (<[o := f_file t]> (objs s)) s)); try done;
    by apply (step_obj s o f).
Qed.
End steps.

(** *** The invariant *)

Lemma live_in_same (m m' : gmap nat (ZoneFile L)) z :
  dom m' = dom m ->
  (forall o f, m !! o = Some f -> exists f', m' !! o = Some f' /\ extents_ f' = extents_ f) ->
  live_in m' z = live_in m z.
Proof.
  intros Hdom Ho. assert (extents_ <$> m' = extents_ <$> m) as Heq.
  { apply map_eq. intros o. rewrite !lookup_fmap. destruct (m !! o) as [f|] eqn:Hf.
    - destruct (Ho o f Hf) as (f' & -> & He). cbn. by f_equal.
    - apply not_elem_of_dom in Hf. rewrite <- Hdom in Hf. apply not_elem_of_dom in Hf. by rewrite Hf. }
  assert (forall k : gmap nat (ZoneFile L),
    live_in k z = map_fold (fun _ es n => usage es z + n) 0 (extents_ <$> k)) as Hf.
  { intros k. unfold live_in. by rewrite map_fold_fmap. }
  by rewrite !Hf, Heq.
Qed.

(** The extents and the data of the objects there are in [s']. *)
Definition kept_files s s' : Prop :=
  forall o f', objs s' !! o = Some f' -> exists f, objs s !! o = Some f /\ extents_ f' = extents_ f /\
    contents (zbd_be_ (zbd_ s')) (extents_ f) = contents (zbd_be_ (zbd_ s)) (extents_ f).

Lemma kept_files_trans s1 s2 s3 : kept_files s1 s2 -> kept_files s2 s3 -> kept_files s1 s3.
Proof.
  intros H1 H2 o h Hh. destruct (H2 o h Hh) as (g & Hg & E2 & C2). destruct (H1 o g Hg) as (f & Hf & E1 & C1).
  exists f. split; [done|]. split; [congruence|]. by rewrite <- C1, <- E1, C2.
Qed.

Lemma data_extent_step u (s s' : Zbd D) es :
  stored u s s' -> Forall (data_extent s) es -> Forall (data_extent s') es.
Proof.
  intros Hs Hes. eapply Forall_impl; [exact Hes|]. intros e [He ?]. split; [|done]. by eapply stored_extent_step.
Qed.

Lemma fs_step_kept u s s' : space_inv s -> fs_step u s s' -> kept_files s s'.
Proof.
  intros [_ _ Hdata _] (_ & _ & Hs & Hdom & Ho) o f' Hf'.
  assert (is_Some (objs s !! o)) as [f Hf].
  { apply elem_of_dom. rewrite <- Hdom. by apply elem_of_dom_2 in Hf'. }
  destruct (Ho o f Hf) as (g & Hg & He & _). exists f. split; [done|]. split; [congruence|].
  eapply contents_step; [done|]. by eapply data_stored, Hdata.
Qed.

Lemma fs_step_inv s s' : space_inv s -> fs_step none s s' -> space_inv s'.
Proof.
  intros [Hd Hl Hdata Hu] (Hd' & Hl' & Hs & Hdom & Ho). pose proof Hs as ((Hio & _) & Hm & _ & Hz).
  split; [done|by rewrite Hm| |].
  - intros o f' Hf'. assert (is_Some (objs s !! o)) as [f Hf].
    { apply elem_of_dom. rewrite <- Hdom. by apply elem_of_dom_2 in Hf'. }
    destruct (Ho o f Hf) as (g & Hg & He & _). rewrite Hf' in Hg. injection Hg as <-. rewrite He.
    eapply data_extent_step; [done|by eapply Hdata].
  - intros z zn' Hin Hzn'. rewrite Hio in Hin. destruct (dok_io _ Hd) as [Hall _]. rewrite Forall_forall in Hall.
    destruct (Hall z Hin) as [zn Hzn]. destruct (Hz z zn Hin Hzn) as (yn & Hyn & _ & Hused & _).
    rewrite Hzn' in Hyn. injection Hyn as <-. rewrite Hused. unfold none.
    destruct (zones_wf_lookup _ _ _ (dok_wf _ Hd) Hzn) as (_&_&_&_&_&_&Hr).
    rewrite Z.add_0_r, u64_small by done. rewrite (live_in_same (objs s)); [by apply Hu|done|].
    intros o f Hf. destruct (Ho o f Hf) as (f' & ? & ? & _). by exists f'.
Qed.

(** *** Destroying an object *)

Lemma sub_usage_stored {X} es (t : FSt D L X) :
  dev_ok (f_zbd t) -> Forall (stored_extent (f_zbd t)) es ->
  exists z, forM es (fun e => on_dev (sub_used (e_zone_ e) (e_length_ e))) t
      = Ok tt (mkFSt z (f_file t) (f_buf t) (f_ctx t)) /\
    stored (fun y => - usage es y) (f_zbd t) z /\ dev_ok z.
Proof.
  revert t. induction es as [|e es IH]; intros t Hd Hes.
  { exists (f_zbd t). split; [by destruct t|]. split; [|done]. apply (stored_ext none); [done|apply stored_refl, Hd]. }
  apply Forall_cons in Hes as [(_ & Hin & zn & Hz & _) Hes].
  destruct (sub_used_run _ _ (e_length_ e) _ Hd Hin Hz) as (z1 & Hrun & Hs1 & Hd1).
  destruct (IH (mkFSt z1 (f_file t) (f_buf t) (f_ctx t))) as (z & Hrun2 & Hs2 & Hd2); [done| |].
  { eapply Forall_impl; [exact Hes|]. intros x Hx. by eapply stored_extent_step. }
  exists z. split; [|split; [|done]].
  - cbn [forM]. unfold bind at 1, on_dev at 1, zoom. rewrite Hrun. exact Hrun2.
  - eapply stored_ext; [|by eapply stored_trans]. intros y. cbn. fold (usage es y).
    destruct (decide (y = e_zone_ e)); lia.
Qed.

Lemma collect_space o f s :
  space_inv s -> objs s !! o = Some f -> wal_ f = None ->
  exists s', collect o s = Ok tt s' /\ space_inv s' /\ kept_files s s' /\
    (forall p, is_Some (objs s !! p) -> p <> o \/ referenced o s' = true -> is_Some (objs s' !! p)).
Proof.
  intros Hi Ho Hw. unfold collect. unfold bind at 1, get. destruct (referenced o s) eqn:Href.
  { exists s. split; [done|]. split; [done|]. split; [|done]. apply (fs_step_kept none); [done|].
    apply fs_step_refl; apply Hi. }
  destruct Hi as [Hd Hl Hdata Hu]. pose proof (data_stored _ _ (Hdata o f Ho)) as Hst.
  destruct (sub_usage_stored (extents_ f) (mkFSt (zbd_ s) f [] (o, s)) Hd Hst) as (z & Hrun & Hs & Hd').
  eexists. split.
  { unfold bind at 1, on_obj. rewrite Ho. unfold ZoneFile_delete, ClearExtents, get_file.
    unfold bind at 1, gets. cbn [f_file]. rewrite Hw. unfold bind at 1, ret at 1. unfold bind at 1. unfold bind at 1, gets.
    cbn [f_file]. unfold bind at 1. rewrite Hrun. reflexivity. }
  pose proof Hs as ((Hio & _) & Hm & _ & Hz). cbn in Hio, Hm, Hz.
  set (s' := set_objs _ _). assert (objs s' = base.delete o (objs s)) as Hobjs.
  { unfold s'. cbn. by rewrite delete_insert_eq. }
  assert (zbd_ s' = z) as Hzbd by done.
  split; [|split].
  - split; rewrite ?Hzbd, ?Hobjs; [done|by rewrite Hm| |].
    + intros p g [_ Hg]%lookup_delete_Some. eapply data_extent_step; [exact Hs|]. by eapply Hdata.
    + intros y yn' Hin Hyn'. rewrite Hio in Hin. destruct (dok_io _ Hd) as [Hall _]. rewrite Forall_forall in Hall.
      destruct (Hall y Hin) as [yn Hyn]. destruct (Hz y yn Hin Hyn) as (yn2 & Hyn2 & _ & Hused & _).
      rewrite Hyn' in Hyn2. injection Hyn2 as <-. rewrite Hused. specialize (Hu y yn Hin Hyn).
      rewrite (live_in_delete _ o f _ Ho) in Hu.
      assert (0 <= live_in (base.delete o (objs s)) y) as Hn.
      { apply (live_in_nonneg (zbd_ s)). intros p g [_ Hp]%lookup_delete_Some. by apply (Hdata p). }
      pose proof (usage_nonneg _ _ y (Hdata o f Ho)).
      destruct (zones_wf_lookup _ _ _ (dok_wf _ Hd) Hyn) as (_&_&_&_&_&_&[??]). rewrite u64_small by lia. lia.
  - intros p g Hg. rewrite Hobjs in Hg. apply lookup_delete_Some in Hg as [_ Hg]. exists g. split_and!; [done..|].
    rewrite Hzbd. eapply contents_step; [exact Hs|]. by eapply data_stored, Hdata.
  - intros p Hp Hor. assert (referenced o s' = referenced o s) as Hr by done. rewrite Hobjs.
    destruct Hor as [Hne|Hr2]; [by rewrite lookup_delete_ne|congruence].
Qed.

(** What holds after an operation that gives up references to [o]: the invariant,
    the data of all files, and every object is there but for [o] when nothing
    refers to it any more. *)
Definition released (o : nat) s s' : Prop :=
  space_inv s' /\ kept_files s s' /\
  forall p, is_Some (objs s !! p) -> p <> o \/ referenced o s' = true -> is_Some (objs s' !! p).

Lemma with_ref_released {B} o f (m : M (ZenFS D L A) B) s :
  space_inv s -> objs s !! o = Some f -> wal_ f = None -> preserves (fs_step none s) m ->
  match with_ref o m s with Ok _ s' | Err _ s' => released o s s' | Stuck _ => True end.
Proof.
  intros Hi Ho Hw Hm. pose proof (fs_step_refl s (si_dev _ Hi) (si_log _ Hi)) as H0.
  unfold with_ref, drop_ref. unfold bind at 1. pose proof (step_add_ref none s o s H0) as H1. cbn in H1.
  unfold add_ref, modify in *. unfold bind at 1, attempt.
  assert (forall r s2, fs_step none s s2 ->
    match ((modify (fun s => set_refs (remove_first o (refs s)) s) ;; collect o) ;;
           match r : IOStatus + B with inl e => fail e | inr b => ret b end) s2 with
    | Ok _ s' | Err _ s' => released o s s' | Stuck _ => True end) as Hend.
  { intros r s2 H2. pose proof (step_refs none s (fun s => remove_first o (refs s)) s2 H2) as H3.
    unfold modify in H3. cbn in H3. unfold bind at 1 2, modify.
    set (s3 := set_refs _ s2) in *. pose proof (fs_step_inv s s3 Hi H3) as Hi3.
    pose proof H3 as (_ & _ & _ & Hdom & Hobj). destruct (Hobj o f Ho) as (f3 & Ho3 & _ & Hw3).
    destruct (collect_space o f3 s3 Hi3 Ho3 ltac:(congruence)) as (s4 & -> & Hi4 & Hk4 & Hs4).
    assert (released o s s4) as Hrel; [|by destruct r]. split; [done|]. split.
    - eapply kept_files_trans; [by eapply fs_step_kept|done].
    - intros p Hp. apply Hs4. apply elem_of_dom. rewrite Hdom. by apply elem_of_dom. }
  specialize (Hm _ H1). destruct (m _) as [b s2|e s2|]; [by apply (Hend (inr b))|by apply (Hend (inl e))|done].
Qed.

Lemma DeleteFileNoLock_released fname s :
  let name := FormatPathLexically fname in
  space_inv s -> ends_with name log_name = false ->
  (forall o f, files_ s !! FormatPathLexically name = Some o -> objs s !! o = Some f -> wal_ f = None) ->
  match DeleteFileNoLock fname s with
  | Ok _ s' | Err _ s' => space_inv s' /\ kept_files s s' /\
      forall p, is_Some (objs s !! p) ->
        files_ s !! FormatPathLexically name <> Some p \/ referenced p s' = true -> is_Some (objs s' !! p)
  | Stuck _ => True
  end.
Proof.
  intros name Hi Hlog Hwal. unfold DeleteFileNoLock. fold name. unfold bind at 1, GetFileNoLock, bind at 1, get, ret at 1.
  destruct (files_ s !! FormatPathLexically name) as [o|] eqn:Hfile.
  - destruct (objs s !! o) as [f|] eqn:Ho.
    2:{ (* no object at this address *)
        unfold with_ref. unfold bind at 1, add_ref, modify. unfold bind at 1, attempt.
        unfold bind at 1, files_erase, modify. unfold bind at 1, on_obj. cbn [objs set_refs set_files]. by rewrite Ho. }
    match goal with |- match with_ref o ?m s with _ => _ end =>
      assert (preserves (fs_step none s) m) as Hm end.
    { apply preserves_bind; [apply step_erase|]. intros [].
      apply preserves_bind; [apply step_on_obj; intros t; unfold RemoveLinkName, bind, get_file, gets;
        by destruct (erase_first _ _)|]. intros [].
      apply preserves_bind; [apply step_file_of|]. intros g.
      apply preserves_bind; [apply preserves_attempt, step_PersistRecord|]. intros [e|[]].
      - apply preserves_bind; [apply step_insert|]. intros [].
        apply preserves_bind; [by apply step_mod_obj|]. intros []. apply preserves_fail.
      - apply preserves_bind; [apply step_file_of|]. intros h. destruct (linkfiles_ h); [|apply preserves_ret].
        apply preserves_bind; [by apply step_mod_obj|]. intros []. rewrite Hlog. apply preserves_ret. }
    pose proof (with_ref_released o f _ s Hi Ho (Hwal o f ltac:(done) Ho) Hm) as Hrel. clear Hm.
    assert (forall s', released o s s' -> space_inv s' /\ kept_files s s' /\
      forall p, is_Some (objs s !! p) -> Some o <> Some p \/ referenced p s' = true -> is_Some (objs s' !! p)) as Hfin.
    { intros s' (H1 & H2 & H3). split; [done|]. split; [done|]. intros p Hp Hor.
      destruct (decide (p = o)) as [->|Hne]; [|by apply H3; [|left]]. apply H3; [done|]. right. naive_solver. }
    destruct (with_ref o _ s); [by apply Hfin..|done].
  - assert (preserves (fs_step none s) (bind (ToAuxPath name) (fun path => on_aux (aux_DeleteFile path)))) as Hp.
    { preserves_step; [apply step_path|apply step_aux]. }
    specialize (Hp s (fs_step_refl s (si_dev _ Hi) (si_log _ Hi))).
    assert (forall s', fs_step none s s' -> space_inv s' /\ kept_files s s' /\
      forall p, is_Some (objs s !! p) -> (@None nat) <> Some p \/ referenced p s' = true -> is_Some (objs s' !! p)) as Hfin.
    { intros s' H'. split; [by eapply fs_step_inv|]. split; [by eapply fs_step_kept|]. intros p Hp' _.
      apply elem_of_dom. destruct H' as (_ & _ & _ & -> & _). by apply elem_of_dom. }
    destruct (bind _ _ s); [by apply Hfin..|done].
Qed.

(** *** Resetting zones *)

(** An operation of the device that keeps what is in use keeps the files. *)
Lemma live_kept_files s z :
  space_inv s -> live_kept (zbd_ s) z -> space_inv (set_zbd z s) /\ kept_files s (set_zbd z s).
Proof.
  intros Hi (Hd & Hl & Hm & Hk). pose proof Hl as (Hio & _).
  assert (forall o f e, objs s !! o = Some f -> e ∈ extents_ f ->
    data_extent z e /\ range (disk (zbd_be_ z)) (e_start_ e) (e_length_ e)
      = range (disk (zbd_be_ (zbd_ s))) (e_start_ e) (e_length_ e)) as Hdata.
  { intros o f e Ho He. pose proof (si_data _ Hi o f Ho) as Hes. rewrite Forall_forall in Hes.
    destruct (Hes e He) as [(Hn & Hin & zn & Hz & H1 & H2) Hpos].
    pose proof (space_inv_used s o f e zn Hi Ho He Hz Hin) as Hu.
    destruct (Hk _ _ Hin Hz) as (zn' & Hz' & _ & Hkeep). destruct Hkeep as [Hw Ha]; [lia|].
    destruct (zones_wf_lookup _ _ _ (dok_wf _ (si_dev _ Hi)) Hz) as (?&?&?&?&?&?&?). split.
    - split; [|done]. split; [done|]. rewrite Hio. split; [done|]. exists zn'. split; [done|].
      rewrite (same_layout_start _ _ _ _ _ Hl Hz Hz'). lia.
    - apply range_ext. intros a Hr. apply Ha. lia. }
  split.
  - split; cbn; [done|rewrite Hm; apply Hi| |].
    + intros o f Ho. apply Forall_forall. intros e He. by eapply Hdata.
    + intros y yn' Hin Hyn'. rewrite Hio in Hin. destruct (dok_io _ (si_dev _ Hi)) as [Hall _].
      rewrite Forall_forall in Hall. destruct (Hall y Hin) as [yn Hyn].
      destruct (Hk y yn Hin Hyn) as (yn2 & Hyn2 & Hu & _). rewrite Hyn' in Hyn2. injection Hyn2 as <-.
      rewrite Hu. by apply (si_used _ Hi).
  - intros o f Ho. exists f. split; [done|]. split; [done|]. unfold contents, pieces. f_equal.
    apply list_fmap_ext. intros i e He. eapply Hdata; [exact Ho|]. by eapply list_elem_of_lookup_2.
Qed.
End space.


(** Two files whose data is in the same zone. *)
Definition fs3 : ZenFS MemDev MemLog unit :=
  mkZenFS (f_zbd (append_state 8)) {[ b_of "/db/1.sst" := 0%nat; b_of "/db/2.sst" := 1%nat ]} 3
    (Some (mkMetaLog 0 0)) None false tt
    (<[0%nat := set_linkfiles [b_of "/db/1.sst"] (set_extents [mkExtent 64 3 1] (ZoneFile_new 1))]>
     {[ 1%nat := set_linkfiles [b_of "/db/2.sst"] (set_extents [mkExtent 72 8 1] (ZoneFile_new 2)) ]})
    [] 2 (fun _ => 7) 0.

Lemma data_extent_zbd1 a n : 64 <= a -> 0 < n -> a + n <= 80 ->
  data_extent (f_zbd (append_state 8)) (mkExtent a n 1).
Proof.
  intros. split; [|done]. split; [cbn; lia|]. split; [cbn; set_solver|]. eexists. split; [reflexivity|]. by cbn.
Qed.

Lemma fs3_inv : space_inv (be := be0) fs3.
Proof.
  split.
  - apply (append_state_inv 8).
  - intros log [= <-]. left.
  - intros o f Hf. cbn in Hf. apply lookup_insert_Some in Hf as [[<- <-]|[_ [<- <-]%lookup_singleton_Some]];
      apply Forall_singleton, data_extent_zbd1; lia.
  - intros z zn Hin Hz. cbn in Hin.
    repeat (apply elem_of_cons in Hin as [->|Hin]; [injection Hz as <-; vm_compute; congruence|]).
    by apply elem_of_nil in Hin.
Qed.

