(* ===== verification/ZenFSMigrate.v ===== *)
(** * Garbage collection

    Migrating the extents of a file: on a device that takes the writes it is
    asked to, the copies hold the data of the originals, the accounting of the
    zones covers them before the originals are given up, and resetting zones
    afterwards destroys nothing.  A device that fails a write loses the data: no
    status of the copy is looked at. *)

From S2P Require Import Prelude Status Coding Device MemDevice Zone Zbd ZbdProps ZbdFrame Superblock MetaLog ZoneFile ZoneFileProps FileWrite FileRead FileReadProps FileWriteProps Paths ZenFS ZenFSFrame ZenFSOps ZenFSTable ZenFSNames ZenFSSpace.

(** ** Appending on a device that takes writes *)

Section accepting.
Context {D L : Type} `{spec : BackendSpec D L} {wr : ReliableWrites D L}.
Implicit Types s : Zbd D.

(** Every I/O zone takes what it has capacity for, at its write pointer. *)
Definition writable s : Prop :=
  forall z zn, z ∈ io_zones s -> zone_heap s !! z = Some zn -> accepts (zbd_be_ s) (wp_ zn) (capacity_ zn).

Lemma zone_index zn : zone_wf zn -> 0 < capacity_ zn -> wp_ zn / zone_sz_ = start_ zn / zone_sz_.
Proof.
  intros ((?&Hal)&?&?&?&?&?&?) Hc. symmetry. pose proof zone_sz_pos as Hp.
  pose proof (Z.div_mod (start_ zn) _ (not_eq_sym (Z.lt_neq _ _ Hp))).
  apply (Z.div_unique_pos _ _ _ (wp_ zn - start_ zn)); lia.
Qed.

Lemma zone_index_ne s y z yn zn :
  zones_wf s -> zones_disjoint s -> zone_heap s !! y = Some yn -> zone_heap s !! z = Some zn -> y <> z ->
  0 < capacity_ yn -> 0 < capacity_ zn -> wp_ yn / zone_sz_ <> wp_ zn / zone_sz_.
Proof.
  intros Hwf Hd Hy Hz Hne Hcy Hcz. pose proof (zones_wf_lookup _ _ _ Hwf Hy) as Wy.
  pose proof (zones_wf_lookup _ _ _ Hwf Hz) as Wz. rewrite !zone_index by done.
  pose proof zone_sz_pos as Hp. pose proof (not_eq_sym (Z.lt_neq _ _ Hp)) as Hnz.
  pose proof (Z.div_mod (start_ yn) _ Hnz). pose proof (Z.div_mod (start_ zn) _ Hnz).
  destruct Wy as ((_&Ay)&_), Wz as ((_&Az)&_). rewrite Ay, Az in *.
  destruct (Hd _ _ _ _ Hy Hz Hne); intros Heq; rewrite Heq in *; lia.
Qed.

Lemma Append_loop_accepts n z zn ptr s :
  zones_wf s -> zones_disjoint s -> z ∈ io_zones s -> zone_heap s !! z = Some zn ->
  zlen ptr <= capacity_ zn -> (length ptr <= n)%nat -> writable s ->
  exists s', Append_loop n z ptr s = Ok tt s' /\ writable s'.
Proof.
  revert zn ptr s. induction n as [|n IH]; intros zn ptr s Hwf Hd Hin Hz Hc Hn Hw; cbn [Append_loop].
  { destruct ptr; [|simpl in Hn; lia]. by exists s. }
  destruct (decide (ptr = [])) as [->|Hne]; [by exists s|].
  assert (0 < zlen ptr) as Hpos by (destruct ptr; [done|]; rewrite zlen_cons; zlen_solve).
  mstep. unfold with_be, zoom, call. unfold bind at 1.
  destruct (be_Write ptr (wp_ zn) (zbd_be_ s)) as [[r err] d] eqn:Ew.
  destruct (accepts_write ptr (wp_ zn) (capacity_ zn) _ _ _ _ (Hw z zn Hin Hz) (conj Hpos Hc) Ew) as [Hr Hacc].
  destruct (Z.ltb_spec r 0); [lia|]. destruct (write_ok _ _ _ _ _ _ Ew Hr) as (Hle & Hp & _).
  specialize (Hp Hpos). pose proof (zones_wf_lookup _ _ _ Hwf Hz) as Hwfz.
  pose proof Hwfz as (?&?&?&?&?&?&?). pose proof (zone_wf_u64 _ Hwfz) as [_ [? ?]].
  erewrite bind_ok by (by apply (mod_zone_ok z (advance r) zn)). unfold AddBytesWritten.
  unfold bind at 1, modify. cbn [bytes_written_].
  assert (capacity_ (advance r zn) = capacity_ zn - r) as Hca by (cbn; rewrite u64_small by lia; lia).
  apply (IH (advance r zn)).
  - apply (zones_wf_insert (set_be d s)); [done|]. apply zone_wf_advance; [done|lia].
  - apply (layout_disjoint s); [|done]. by apply (same_layout_insert s z zn).
  - done.
  - cbn. by rewrite lookup_insert_eq.
  - rewrite zlen_zdrop by lia. lia.
  - assert (0 < Z.to_nat r)%nat by lia. unfold zdrop. rewrite length_drop. lia.
  - intros y yn Hy Hyn. cbn in Hyn. cbn [zbd_be_ set_bytes_written set_heap set_be]. destruct (decide (y = z)) as [->|Hyz].
    + rewrite lookup_insert_eq in Hyn. injection Hyn as <-. rewrite Hca, advance_wp by (done || lia). done.
    + rewrite lookup_insert_ne in Hyn by done. destruct (Z.le_gt_cases (capacity_ yn) 0) as [Hcy|Hcy].
      * by apply accepts_none.
      * eapply accepts_other; [by apply (Hw y)| |exact Ew].
        apply (zone_index_ne s z y); try done; lia.
Qed.

Lemma Append_migrating b z data : preserves (fun s => migrating_ s = b) (Append z data).
Proof.
  assert (forall n ptr, preserves (fun s => migrating_ s = b) (Append_loop n z ptr)) as Hloop.
  { assert (forall f, preserves (fun s : Zbd D => migrating_ s = b) (mod_zone z f)) as Hm.
    { intros f s Hs. unfold mod_zone, bind, get_zone, get, deref, bind. by destruct (zone_heap s !! z). }
    induction n as [|n IH]; intros ptr; cbn [Append_loop]; (destruct (decide _); [apply preserves_ret|]);
      [apply preserves_stuckM|]. unfold AddBytesWritten. preserves_solve.
    - intros s1 Hs1. unfold with_be, zoom, call. by destruct (be_Write _ _ _).
    - by intros s1 Hs1. }
  unfold Append. preserves_solve.
Qed.

Lemma Append_accepts z zn data s :
  dev_ok s -> z ∈ io_zones s -> zone_heap s !! z = Some zn -> zlen data <= capacity_ zn ->
  (length data <= loop_bound)%nat -> writable s -> zlen data mod block_sz_ = 0 ->
  exists s', Append z data s = Ok tt s' /\ (writable s' /\ migrating_ s' = migrating_ s) /\
    stored none s s' /\ dev_ok s' /\
    zone_heap s' !! z = Some (advance (zlen data) zn) /\
    range (disk (zbd_be_ s')) (wp_ zn) (zlen data) = data.
Proof.
  intros Hok Hin Hz Hc Hlen Hw Hb. pose proof (append_step z zn data s Hok Hin Hz Hc Hlen) as Hs.
  destruct (Append_loop_accepts loop_bound z zn data s (dok_wf _ Hok) (dok_disjoint _ Hok) Hin Hz Hc Hlen Hw)
    as (s' & Hrun & Hw').
  assert (Append z data s = Ok tt s') as Ha.
  { unfold Append. mstep. destruct (Z.ltb_spec (capacity_ zn) (zlen data)); [lia|done]. }
  rewrite Ha in Hs. destruct Hs as (H1 & H2 & H3 & H4).
  pose proof (Append_migrating (migrating_ s) z data s eq_refl) as Hmig. rewrite Ha in Hmig.
  exists s'. split_and!; try done. by apply H4.
Qed.

Lemma Read_loop_be (P : D -> Prop) n offset left direct r acc :
  (forall size p direct d r e data d', P d -> be_Read size p direct d = (r, e, data, d') -> P d') ->
  preserves (fun s => P (zbd_be_ s)) (Read_loop n offset left direct r acc).
Proof.
  intros HP. revert offset left r acc. induction n as [|n IH]; intros offset left r acc; cbn [Read_loop];
    (destruct (left =? 0); [apply preserves_ret|]); [apply preserves_stuckM|].
  intros s Hs. unfold bind, with_be, zoom, call.
  destruct (be_Read left offset direct (zbd_be_ s)) as [[[r1 e] data] d] eqn:E.
  pose proof (HP _ _ _ _ _ _ _ _ Hs E) as Hd.
  destruct (r1 <=? 0); [destruct (_ && _)|]; try done; by apply (IH _ _ _ _ (set_be d s)).
Qed.

Lemma Zbd_Read_writable offset n direct s x s' :
  writable s -> after_read s s' -> Zbd_Read offset n direct s = Ok x s' -> writable s'.
Proof.
  intros Hw (d & -> & _) Hrun z zn Hin Hz. cbn in *.
  pose proof (Read_loop_be (fun d => accepts d (wp_ zn) (capacity_ zn)) loop_bound offset n direct (-1) []
    (fun _ _ _ _ _ _ _ _ Ha Er => accepts_read _ _ _ _ _ _ _ _ _ _ Ha Er) s (Hw z zn Hin Hz)) as Hp.
  unfold Zbd_Read in Hrun. by rewrite Hrun in Hp.
Qed.
End accepting.

(** ** Copying an extent *)

Section copying.
Context {D L X : Type} `{spec : BackendSpec D L} {rel : ReliableReads D L} {wr : ReliableWrites D L}.
Implicit Types t : FSt D L X.

Lemma after_read_step s s' : dev_ok s -> after_read s s' -> stored none s s' /\ dev_ok s'.
Proof.
  intros Hd (d & -> & Ha). assert (frame s (set_be d s)) as Hf.
  { by apply (frame_set s s); [..|apply frame_start, Hd]. }
  split; [|by apply (kept_dev_ok s)]. by apply kept_stored; [apply Hd|apply Hf].
Qed.

(** What is left to pad after some whole blocks. *)
Lemma pad_to_blocks n m : 0 <= m -> m mod block_sz_ = 0 -> pad_to block_sz_ (n - m) = pad_to block_sz_ n.
Proof.
  intros Hm Hb. pose proof block_sz_pos. unfold pad_to.
  assert ((n - m) mod block_sz_ = n mod block_sz_) as ->; [|done].
  rewrite Zminus_mod, Hb, Z.sub_0_r, Z.mod_mod by lia. done.
Qed.

Lemma pad_to_0 n : n mod block_sz_ = 0 -> pad_to block_sz_ n = 0.
Proof. unfold pad_to. by intros ->. Qed.

(** The data that is below the write pointer of its zone, and the same after a step. *)
Definition source (s : Zbd D) (off len : Z) : Prop :=
  exists y yn, y ∈ io_zones s /\ zone_heap s !! y = Some yn /\ start_ yn <= off /\ off + len <= wp_ yn.

Lemma source_step u (s s' : Zbd D) off len : stored u s s' -> source s off len -> source s' off len.
Proof.
  intros (Hl & _ & _ & Hz) (y & yn & Hin & Hyn & H1 & H2). pose proof Hl as (Hio & _).
  destruct (Hz y yn Hin Hyn) as (yn' & Hyn' & Hw & _). exists y, yn'. rewrite Hio.
  rewrite (same_layout_start _ _ _ _ _ Hl Hyn Hyn'). split_and!; try done. lia.
Qed.

Lemma source_range u (s s' : Zbd D) off len :
  stored u s s' -> source s off len -> range (disk (zbd_be_ s')) off len = range (disk (zbd_be_ s)) off len.
Proof.
  intros (_ & _ & _ & Hz) (y & yn & Hin & Hyn & H1 & H2). destruct (Hz y yn Hin Hyn) as (_ & _ & _ & _ & Ha).
  apply range_ext. intros a Hr. apply Ha. lia.
Qed.

Lemma source_sub (s : Zbd D) off len o l :
  source s off len -> off <= o -> o + l <= off + len -> source s o l.
Proof. intros (y & yn & ? & ? & ? & ?) ? ?. exists y, yn. split_and!; try done; lia. Qed.

(** One chunk. *)
Lemma copy_chunk off m z zn t :
  dev_ok (f_zbd t) -> writable (f_zbd t) -> z ∈ io_zones (f_zbd t) -> zone_heap (f_zbd t) !! z = Some zn ->
  0 < m -> m mod block_sz_ = 0 -> m <= capacity_ zn -> 0 <= off -> off + m <= nr_zones_ * zone_sz_ ->
  m <= Z.of_nat loop_bound ->
  exists zb, bind (on_dev (Zbd_Read off m true))
      (fun x => attempt (on_dev (Append z x.2)) ;; ret x.1) t
      = Ok m (mkFSt zb (f_file t) (f_buf t) (f_ctx t)) /\
    stored none (f_zbd t) zb /\ dev_ok zb /\ (writable zb /\ migrating_ zb = migrating_ (f_zbd t)) /\
    zone_heap zb !! z = Some (advance m zn) /\
    range (disk (zbd_be_ zb)) (wp_ zn) m = range (disk (zbd_be_ (f_zbd t))) off m.
Proof.
  intros Hd Hw Hin Hz Hm Hb Hc Ho Hdev Hlb.
  destruct (Zbd_Read_ok off m true (f_zbd t)) as (s1 & Hread & Har); [lia..|].
  destruct (after_read_step _ _ Hd Har) as [Hs1 Hd1]. pose proof (Zbd_Read_writable _ _ _ _ _ _ Hw Har Hread) as Hw1.
  destruct Har as (d1 & -> & Hdisk). set (data := range _ off m) in *.
  assert (zlen data = m) as Hlen by (apply zlen_range; lia).
  destruct (Append_accepts z zn data (set_be d1 (f_zbd t))) as (zb & Hrun & [Hw2 Hmig] & Hs2 & Hd2 & Hz2 & Hr);
    rewrite ?Hlen; try done; [unfold zlen in Hlen; lia|].
  exists zb. split.
  { unfold bind at 1. rewrite on_dev_run, Hread. unfold bind, attempt. cbn [snd fst].
    rewrite on_dev_run. cbn [f_zbd f_file f_buf f_ctx]. by rewrite Hrun. }
  rewrite Hlen in *. split_and!; try done. eapply stored_ext; [|by eapply stored_trans]. done.
Qed.

Lemma migrate_loop_ok n off len rs z zn t :
  dev_ok (f_zbd t) -> writable (f_zbd t) -> z ∈ io_zones (f_zbd t) -> zone_heap (f_zbd t) !! z = Some zn ->
  0 <= len < 2 ^ 32 -> 0 < rs -> rs mod block_sz_ = 0 \/ len = 0 -> 0 <= off ->
  off + len + block_sz_ <= nr_zones_ * zone_sz_ -> len + block_sz_ <= Z.of_nat loop_bound ->
  len <= Z.of_nat n -> len + pad_to block_sz_ len <= capacity_ zn -> source (f_zbd t) off len ->
  exists zb zn', MigrateData_loop n off len rs z t = Ok tt (mkFSt zb (f_file t) (f_buf t) (f_ctx t)) /\
    stored none (f_zbd t) zb /\ dev_ok zb /\ (writable zb /\ migrating_ zb = migrating_ (f_zbd t)) /\
    zone_heap zb !! z = Some zn' /\
    wp_ zn' = wp_ zn + (len + pad_to block_sz_ len) /\ busy_ zn' = busy_ zn /\
    range (disk (zbd_be_ zb)) (wp_ zn) len = range (disk (zbd_be_ (f_zbd t))) off len.
Proof.
  pose proof block_sz_pos as Hbp. pose proof device_size_u64 as Hu64. revert off len rs zn t.
  induction n as [|n IH]; intros off len rs zn t Hd Hw Hin Hz Hlen Hrs Hrb Ho Hdev Hlb Hn Hc Hsrc;
    cbn [MigrateData_loop]; (destruct (Z.ltb_spec 0 len) as [Hpos|Hle];
    [|replace len with 0 in * by lia; exists (f_zbd t), zn; rewrite pad_to_0, !range_0, Z.add_0_r by
        (apply Z.mod_0_l; lia); split_and!; try done; [by destruct t|apply stored_refl, Hd]]); [lia|].
  set (rs' := if rs <? len then rs else len).
  assert (0 < rs' <= len /\ (rs' = len \/ rs' = rs /\ rs < len /\ rs mod block_sz_ = 0)) as (Hrs' & Hcase).
  { unfold rs'. destruct (Z.ltb_spec rs len); lia. }
  set (m := rs' + pad_to block_sz_ rs').
  destruct (pad_to_spec rs' ltac:(lia)) as (Hp0 & Hmb & Hmin). fold m in Hmb.
  assert (m + (len - rs' + pad_to block_sz_ (len - rs')) = len + pad_to block_sz_ len) as Hsum.
  { unfold m. destruct Hcase as [->|(-> & ? & Hb)].
    - rewrite Z.sub_diag, (pad_to_0 0) by (apply Z.mod_0_l; lia). lia.
    - rewrite (pad_to_blocks len rs), (pad_to_0 rs) by (done || lia). lia. }
  assert (pad_to block_sz_ rs' <= block_sz_) as Hpb.
  { unfold pad_to. pose proof (Z.mod_pos_bound rs' block_sz_ Hbp). destruct (_ =? 0); lia. }
  assert (0 <= pad_to block_sz_ (len - rs')) as Hp1 by (apply pad_to_spec; lia).
  destruct (copy_chunk off m z zn t) as (z1 & Hrun & Hs1 & Hd1 & [Hw1 Hmig1] & Hz1 & Hr1); [done|done|done|done|lia..|].
  pose proof (zones_wf_lookup _ _ _ (dok_wf _ Hd) Hz) as Hwf. destruct (zone_wf_u64 _ Hwf) as [_ [Hc0 Hc64]].
  assert (wp_ (advance m zn) = wp_ zn + m) as Hwp by (apply advance_wp; [done|lia]).
  assert (capacity_ (advance m zn) = capacity_ zn - m) as Hca by (cbn; apply u64_small; lia).
  assert (forall k : Z -> M (FSt D L X) unit,
    (let* (r, buf) := on_dev (Zbd_Read off m true) in
     if r <? 0 then fail (IOError "read error") else attempt (on_dev (Append z buf)) ;; k r) t
    = k m (mkFSt z1 (f_file t) (f_buf t) (f_ctx t))) as Hk.
  { intros k. revert Hrun. unfold bind. destruct (on_dev (Zbd_Read off m true) t) as [[r buf] t1| |]; [|done..].
    cbn [fst snd]. destruct (attempt _ t1) as [x t2| |] eqn:E; [|done..]. unfold ret. intros [= -> ->].
    destruct (Z.ltb_spec m 0); [lia|]. by rewrite E. }
  rewrite Hk. clear Hk. rewrite (u64_small (off + m)), (u32_small (len - rs')) by lia.
  destruct Hcase as [Heq|(Heq & Hlt & Hb)].
  - (* the last chunk *)
    replace (len - rs') with 0 in * by lia. rewrite (pad_to_0 0) in Hsum by (apply Z.mod_0_l; lia).
    exists z1, (advance m zn). split; [by destruct n|]. split_and!; try done; [lia|].
    rewrite <- (ztake_range _ (wp_ zn) m len), <- (ztake_range _ off m len) by lia. by f_equal.
  - assert (m = rs) as Hm by (unfold m; rewrite Heq, pad_to_0 by done; lia).
    set (t1 := mkFSt z1 (f_file t) (f_buf t) (f_ctx t)). pose proof Hs1 as ((Hio & _) & _).
    assert (source z1 (off + m) (len - rs')) as Hsrc1.
    { apply (source_sub _ off len); [by eapply source_step|lia|lia]. }
    destruct (IH (off + m) (len - rs') rs' (advance m zn) t1) as (zb & zn' & Hrun2 & Hs2 & Hd2 & [Hw2 Hmig2] & Hz2 & Hwp2 & Hbusy & Hr2);
      try done; try lia; [cbn; by rewrite Hio|left; by rewrite Heq|].
    exists zb, zn'. split; [exact Hrun2|]. cbn [f_zbd t1] in *.
    split; [eapply stored_ext; [|by eapply stored_trans]; done|]. split_and!; try done; [congruence|lia|].
    replace len with (rs' + (len - rs')) by lia. rewrite !range_app by lia. f_equal.
    + transitivity (range (disk (zbd_be_ z1)) (wp_ zn) rs').
      * eapply source_range; [exact Hs2|]. exists z, (advance m zn). rewrite Hio. split_and!; try done; [|lia].
        cbn. destruct Hwf as (?&?&?&?&?). lia.
      * rewrite Hm in Hr1. by rewrite Heq.
    + rewrite Hwp in Hr2. replace (wp_ zn + rs') with (wp_ zn + m) by lia.
      replace (off + rs') with (off + m) by lia. rewrite Hr2. eapply source_range; [exact Hs1|].
      apply (source_sub _ off len); [done|lia|lia].
Qed.

(** [MigrateData] copies an extent. *)
Lemma MigrateData_ok off len z zn t :
  dev_ok (f_zbd t) -> writable (f_zbd t) -> z ∈ io_zones (f_zbd t) -> zone_heap (f_zbd t) !! z = Some zn ->
  0 <= len < 2 ^ 32 -> 2 ^ 17 mod block_sz_ = 0 -> 0 <= off -> off mod block_sz_ = 0 ->
  off + len + block_sz_ <= nr_zones_ * zone_sz_ -> len + block_sz_ <= Z.of_nat loop_bound ->
  len <= capacity_ zn -> source (f_zbd t) off len ->
  exists zb zn', MigrateData off len z t = Ok tt (mkFSt zb (f_file t) (f_buf t) (f_ctx t)) /\
    stored none (f_zbd t) zb /\ dev_ok zb /\ (writable zb /\ migrating_ zb = migrating_ (f_zbd t)) /\
    zone_heap zb !! z = Some zn' /\
    wp_ zn + len <= wp_ zn' /\ busy_ zn' = busy_ zn /\
    range (disk (zbd_be_ zb)) (wp_ zn) len = range (disk (zbd_be_ (f_zbd t))) off len.
Proof.
  intros Hd Hw Hin Hz Hlen Hblk Ho Hal Hdev Hlb Hc Hsrc. unfold MigrateData. rewrite Hal. cbn [Z.eqb negb].
  pose proof block_sz_pos. destruct (pad_to_spec len ltac:(lia)) as (Hp & _ & Hmin).
  specialize (Hmin _ (dok_blocks _ Hd z zn Hin Hz) Hc).
  destruct (migrate_loop_ok loop_bound off len (Z.shiftl 128 10) z zn t)
    as (zb & zn' & ? & ? & ? & [? ?] & ? & Hwp & ? & ?); try done; try lia; [by left|].
  exists zb, zn'. split_and!; try done. lia.
Qed.
End copying.

(** ** Moving the extents of a file *)

Section gc.
Context {D L A : Type} `{spec : BackendSpec D L} {rel : ReliableReads D L} {wr : ReliableWrites D L}
  {szd : SZDOnceLog D L} {aux : AuxFileSystem A}.
Implicit Types s : ZenFS D L A.

(** The device while extents are copied. *)
Definition gc_dev (migrating : bool) (s : Zbd D) : Prop :=
  dev_ok s /\ writable s /\ migrating_ s = migrating.

(** A change of a zone that leaves its place and its write pointer. *)
Lemma gc_touch b n (s : Zbd D) z zn zn' :
  gc_dev b s -> z ∈ io_zones s -> zone_heap s !! z = Some zn -> zone_wf zn' -> start_ zn' = start_ zn ->
  wp_ zn' = wp_ zn -> capacity_ zn' = capacity_ zn -> used_capacity_ zn' = used_capacity_ zn +64 n ->
  let s' := set_heap (<[z := zn']> (zone_heap s)) s in
  gc_dev b s' /\ stored (fun y => if decide (y = z) then n else 0) s s'.
Proof.
  intros (Hd & Hw & Hm) Hin Hz Hwf Hst Hwp Hc Hu s'.
  assert (same_layout s s') as Hl.
  { pose proof (same_layout_insert s z zn zn' (zbd_be_ s) (bytes_written_ s) Hz Hst) as Hl.
    unfold s'. by destruct s. }
  split; [split; [|split; [|done]]|].
  - apply (dev_ok_step s); try done; [by apply zones_wf_insert; [apply Hd|]|apply Hd|].
    intros y yn Hy. unfold s'. cbn. destruct (decide (y = z)) as [->|Hne].
    + rewrite lookup_insert_eq. intros [= <-]. rewrite Hc. by eapply dok_blocks.
    + rewrite lookup_insert_ne by done. by eapply dok_blocks.
  - intros y yn Hy. unfold s'. cbn. destruct (decide (y = z)) as [->|Hne].
    + rewrite lookup_insert_eq. intros [= <-]. rewrite Hc, Hwp. by apply (Hw z).
    + rewrite lookup_insert_ne by done. by apply (Hw y).
  - split; [done|]. split_and!; [done..|]. intros y yn Hy Hyn. unfold s'. cbn.
    destruct (decide (y = z)) as [->|Hne].
    + rewrite lookup_insert_eq. exists zn'. simplify_eq. split_and!; try done. lia.
    + rewrite lookup_insert_ne by done. exists yn. split; [done|]. split; [lia|]. split; [|done].
      rewrite Z.add_0_r, u64_small; [done|].
      by destruct (zones_wf_lookup _ _ _ (dok_wf _ Hd) Hyn) as (_&_&_&_&_&_&?).
Qed.

(** The same for the flag, and for what is outside of the zones. *)
Lemma gc_busy b v (s : Zbd D) z zn :
  gc_dev b s -> z ∈ io_zones s -> zone_heap s !! z = Some zn ->
  let s' := set_heap (<[z := set_busy v zn]> (zone_heap s)) s in gc_dev b s' /\ stored none s s'.
Proof.
  intros Hg Hin Hz s'. pose proof (zones_wf_lookup _ _ _ (dok_wf _ (proj1 Hg)) Hz) as Hwf.
  destruct (gc_touch b 0 s z zn (set_busy v zn)) as [Hg' Hs]; try done.
  { cbn. rewrite Z.add_0_r, u64_small; [done|]. by destruct Hwf as (_&_&_&_&_&_&?). }
  split; [done|]. eapply stored_ext; [|exact Hs]. intros y. cbn. by destruct (decide _).
Qed.

Lemma gc_set b b' (s s' : Zbd D) :
  gc_dev b s -> zone_heap s' = zone_heap s -> zbd_be_ s' = zbd_be_ s -> io_zones s' = io_zones s ->
  wal_zones s' = wal_zones s -> meta_zones s' = meta_zones s ->
  zone_deferred_status_ s' = zone_deferred_status_ s -> is_u 64 (bytes_written_ s') -> migrating_ s' = b' ->
  gc_dev b' s' /\ stored none s s'.
Proof.
  intros (Hd & Hw & _) Hh Hb Hio Hwal Hm Hst Hbw Hmig.
  assert (same_layout s s') as Hl by (split_and!; try done; intros z; by rewrite Hh).
  split; [split; [|split; [|done]]|].
  - apply (dev_ok_step s); try done; unfold zones_wf; rewrite Hh; [apply Hd|]. intros; by eapply dok_blocks.
  - intros z zn. rewrite Hio, Hh, Hb. apply Hw.
  - split; [done|]. split_and!; try done. intros z zn Hin Hz. exists zn. rewrite Hh, Hb. split_and!; try done.
    unfold none. rewrite Z.add_0_r, u64_small; [done|].
    by destruct (zones_wf_lookup _ _ _ (dok_wf _ Hd) Hz) as (_&_&_&_&_&_&?).
Qed.

Lemma TakeMigrateZone_gc fl mc (s : Zbd D) :
  gc_dev false s ->
  exists v (s' : Zbd D), TakeMigrateZone fl mc s = Ok v s' /\ stored none s s' /\
    match v with
    | None => gc_dev false s'
    | Some z => gc_dev true s' /\ z ∈ io_zones s' /\
        exists zn, zone_heap s' !! z = Some zn /\ mc <= capacity_ zn /\ busy_ zn = true
    end.
Proof.
  intros Hg. unfold TakeMigrateZone. unfold bind at 1, get. destruct (proj2 Hg) as [_ ->].
  unfold bind at 1, modify. set (s1 := set_migrating true s).
  destruct (gc_set false true s s1) as [Hg1 Hs1]; try done; [apply (proj1 Hg)|].
  destruct (dok_io _ (proj1 Hg1)) as [Hall Hnd].
  destruct (GetBestOpenZoneMatch_run fl mc s1 Hall Hnd) as [Hrun _].
  pose proof (best_match_scan fl mc (zone_heap s1) (io_zones s1)) as [Hbest _].
  destruct (foldl _ _ _) as [diff [v|]]; cbn [snd] in *; unfold bind at 1, attempt; rewrite Hrun.
  - destruct Hbest as (vn & Hin & [[Hv Hfree] Hm] & _). exists (Some v). eexists. split; [reflexivity|].
    assert (hold (Some v) s1 = set_heap (<[v := set_busy true vn]> (zone_heap s1)) s1) as ->.
    { unfold hold. by rewrite (alter_insert_id _ v vn). }
    destruct (gc_busy true true s1 v vn Hg1 Hin Hv) as [Hg2 Hs2].
    split; [eapply stored_ext; [|eapply stored_trans; [exact Hs1|exact Hs2]]; done|]. split; [done|]. split; [done|].
    exists (set_busy true vn). cbn. rewrite lookup_insert_eq. split; [done|]. split; [|done].
    unfold matches in Hm. rewrite !andb_true_iff, Z.leb_le in Hm. lia.
  - exists None. eexists. split; [reflexivity|].
    destruct (gc_set true false s1 (set_migrating false s1)) as [Hg2 Hs2]; try done; apply (proj1 Hg).
Qed.

(** An extent that can be copied. *)
Definition movable s (e : ZoneExtent) : Prop :=
  data_extent (zbd_ s) e /\ extent_readable e /\ e_length_ e < 2 ^ 32 /\ e_start_ e mod block_sz_ = 0.

(** [e'] holds the data of [e]; it accounts for itself when it is a copy. *)
Definition copied (e e' : ZoneExtent) (s : Zbd D) (s' : Zbd D) : Prop :=
  e_length_ e' = e_length_ e /\ data_extent s' e' /\
  range (disk (zbd_be_ s')) (e_start_ e') (e_length_ e') = range (disk (zbd_be_ s)) (e_start_ e) (e_length_ e) /\
  (e_start_ e' = e_start_ e -> e' = e).

(** The bytes of the copies. *)
Definition copies (p : ZoneExtent * ZoneExtent) (z : nat) : Z :=
  if e_start_ p.1 =? e_start_ p.2 then 0 else usage [p.2] z.

Lemma data_source (z : Zbd D) e : data_extent z e -> source z (e_start_ e) (e_length_ e).
Proof. intros [(_ & Hin & zn & Hz & H1 & H2) _]. by exists (e_zone_ e), zn. Qed.

(** The copy is in another place: its zone was written up to it. *)
Lemma copy_elsewhere (z : Zbd D) e y yn :
  dev_ok z -> data_extent z e -> y ∈ io_zones z -> zone_heap z !! y = Some yn ->
  wp_ yn < start_ yn + zone_sz_ -> e_start_ e <> wp_ yn.
Proof.
  intros Hd [(_ & Hin & zn & Hz & H1 & H2) Hpos] Hy Hyn Hlt Heq.
  destruct (decide (e_zone_ e = y)) as [Hy2|Hne]; [subst y; simplify_eq; lia|].
  destruct (zones_wf_lookup _ _ _ (dok_wf _ Hd) Hz) as (?&?&?&?&?), (zones_wf_lookup _ _ _ (dok_wf _ Hd) Hyn) as (?&?&?&?&?).
  destruct (dok_disjoint _ Hd _ _ _ _ Hz Hyn Hne); lia.
Qed.

Lemma on_device_ok {B} (m : M (Zbd D) B) s a z : m (zbd_ s) = Ok a z -> on_device m s = Ok a (set_zbd z s).
Proof. unfold on_device, zoom. by intros ->. Qed.

(** One extent: kept, or copied to another zone. *)
Lemma migrate_extent_ok fname o f exts e s :
  gc_dev false (zbd_ s) -> objs s !! o = Some f -> is_sparse_ f = false ->
  is_Some (files_ s !! FormatPathLexically fname) -> 2 ^ 17 mod block_sz_ = 0 -> movable s e ->
  exists e' zb, migrate_extent fname o exts e s = Ok (Some e') (set_zbd zb s) /\
    gc_dev false zb /\ stored (copies (e, e')) (zbd_ s) zb /\ copied e e' (zbd_ s) zb.
Proof.
  intros Hg Ho Hsp [o' Hname] Hblk (Hdata & (H0 & Hpos & Hend & Hlb) & H32 & Hal).
  assert (forall zb, gc_dev false zb -> stored none (zbd_ s) zb ->
    gc_dev false zb /\ stored (copies (e, e)) (zbd_ s) zb /\ copied e e (zbd_ s) zb) as Hsame.
  { intros zb Hgb Hs. split; [done|]. split; [eapply stored_ext; [|exact Hs]; intros z; unfold copies; cbn; by rewrite Z.eqb_refl|].
    split; [done|]. split; [|split; [|done]].
    - split; [|done]. eapply stored_extent_step; [exact Hs|apply Hdata].
    - eapply source_range; [exact Hs|]. by apply data_source. }
  unfold migrate_extent. destruct (negb _).
  { exists e, (zbd_ s). split; [by destruct s|]. apply Hsame; [done|]. apply stored_refl, Hg. }
  unfold bind at 1, file_of, bind at 1, get. rewrite Ho. cbn [deref ret]. rewrite Hsp.
  destruct (TakeMigrateZone_gc (zf_lifetime_ f) (e_length_ e) (zbd_ s) Hg) as (v & z1 & Hrun & Hs1 & Hv).
  unfold bind at 1, attempt, on_device at 1, zoom. rewrite Hrun. destruct v as [z|].
  2:{ exists e. eexists. split; [reflexivity|]. cbn [zbd_ set_zbd].
      destruct (gc_set false false z1 (set_migrating false z1)) as [Hg2 Hs2]; try done; [apply (proj1 Hv)|].
      apply Hsame; [done|]. eapply stored_ext; [|eapply stored_trans; [exact Hs1|exact Hs2]]. done. }
  destruct Hv as (Hg1 & Hin & zn & Hz & Hc & Hbusy). set (s1 := set_zbd z1 s).
  rewrite (bind_ok _ _ _ _ _ (on_device_ok (get_zone z) s1 zn z1 (get_zone_ok z zn z1 Hz))).
  change (set_zbd z1 s1) with s1. rewrite (u32_small (e_length_ e)) by lia.
  set (t1 := mkFSt z1 f [] (o, s1) : FSt D L (nat * ZenFS D L A)).
  assert (source z1 (e_start_ e) (e_length_ e)) as Hsrc by (eapply source_step; [exact Hs1|by apply data_source]).
  destruct (MigrateData_ok (e_start_ e) (e_length_ e) z zn t1)
    as (z2 & zn2 & Hmig & Hs2 & Hd2 & [Hw2 Hm2] & Hz2 & Hwp2 & Hbusy2 & Hr2);
    [apply Hg1|apply Hg1|done|done|lia|done|done|done|done|done|lia|done|].
  cbn [f_zbd t1] in Hs2, Hm2, Hr2.
  assert (on_obj o (MigrateData (e_start_ e) (e_length_ e) z) s1 = Ok tt (set_zbd z2 s)) as Hobj.
  { unfold on_obj. cbn [objs set_zbd s1]. rewrite Ho. change (zbd_ s1) with z1. fold t1. rewrite Hmig. unfold unpack. cbn.
    by rewrite insert_id. }
  rewrite bind_assoc. erewrite bind_ok by (apply attempt_ok; exact Hobj).
  set (z3 := set_gc_bytes_written (gc_bytes_written_ z2 +64 e_length_ e) z2).
  rewrite bind_assoc, (bind_ok _ _ _ tt (set_zbd z3 s)) by done. rewrite bind_ret_l.
  unfold bind at 1, GetFileNoLock, bind at 1, get, ret at 1. cbn [files_ set_zbd]. rewrite Hname.
  assert (migrating_ z2 = true) as Hmt by (rewrite Hm2; apply Hg1).
  destruct (gc_set true true z2 z3) as [Hg3 Hs3]; try done; [apply Hd2|].
  assert (z ∈ io_zones z3) as Hin3 by (destruct Hs2 as ((Hio & _) & _); cbn; by rewrite Hio).
  pose proof (zones_wf_lookup _ _ _ (dok_wf _ Hd2) Hz2) as Hwf2.
  set (zn4 := set_used_capacity (used_capacity_ zn2 +64 e_length_ e) zn2).
  assert (zone_wf zn4) as Hwf4.
  { destruct Hwf2 as (?&?&?&?&?&?&?). unfold zn4, zone_wf. cbn. split_and!; try done; try lia; apply u64_range. }
  destruct (gc_touch true (e_length_ e) z3 z zn2 zn4) as [Hg4 Hs4]; try done. cbv zeta in Hg4, Hs4.
  rewrite (bind_ok _ _ _ _ _ (on_device_ok (add_used z (e_length_ e)) (set_zbd z3 s) tt _
    (mod_zone_ok z _ zn2 z3 Hz2))). fold zn4. change (zone_heap (zbd_ (set_zbd z3 s))) with (zone_heap z3).
  set (z4 := set_heap (<[z := zn4]> (zone_heap z3)) z3) in *.
  assert (zone_heap z4 !! z = Some zn4) as Hz4 by (cbn; apply lookup_insert_eq).
  set (z5 := set_migrating false z4). destruct (gc_set true false z4 z5) as [Hg5 Hs5]; try done; [apply Hd2|].
  destruct (gc_busy false false z5 z zn4 Hg5 Hin3 Hz4) as [Hg6 Hs6]. cbv zeta in Hg6, Hs6.
  set (z6 := set_heap _ z5) in *.
  assert (ReleaseMigrateZone (Some z) z4 = Ok tt z6) as Hrel.
  { unfold ReleaseMigrateZone. unfold bind, modify. fold z5. apply (CheckRelease_busy z zn4 z5 Hz4). cbn. congruence. }
  exists (mkExtent (wp_ zn) (e_length_ e) z), z6. split.
  { erewrite bind_ok by (apply on_device_ok; exact Hrel). done. }
  split; [done|].
  assert (stored (fun y => if decide (y = z) then e_length_ e else 0) (zbd_ s) z6) as Hst.
  { eapply stored_ext; [|eapply stored_trans; [exact Hs1|]; eapply stored_trans; [exact Hs2|];
      eapply stored_trans; [exact Hs3|]; eapply stored_trans; [exact Hs4|]; eapply stored_trans; [exact Hs5|exact Hs6]].
    intros y. unfold none. cbn. lia. }
  assert (e_start_ e <> wp_ zn) as Hne.
  { apply (copy_elsewhere z1 e z zn); [apply Hg1| |done|done|].
    - split; [eapply stored_extent_step; [exact Hs1|apply Hdata]|done].
    - destruct (zones_wf_lookup _ _ _ (dok_wf _ (proj1 Hg1)) Hz) as (?&?&?&?&?&?&?). lia. }
  split; [|split; [done|split; [|split]]].
  - eapply stored_ext; [|exact Hst]. intros y. unfold copies. cbn.
    destruct (Z.eqb_spec (e_start_ e) (wp_ zn)); [done|]. destruct (decide (y = z)); lia.
  - split; [|done]. split; [cbn; lia|]. split; [exact Hin3|]. exists (set_busy false zn4). split; [cbn; apply lookup_insert_eq|].
    cbn. split; [|lia]. destruct (zones_wf_lookup _ _ _ (dok_wf _ (proj1 Hg1)) Hz) as (?&?&?&?&?).
    rewrite (same_layout_start z1 z2 z zn zn2); [lia|apply Hs2|done|done].
  - cbn. rewrite <- (source_range none (zbd_ s) z1) by (done || by apply data_source). rewrite <- Hr2. done.
  - cbn. intros Heq. congruence.
Qed.

(** Sums over pairs of an extent and what it became: the bytes of the copies and
    of the originals that were moved. *)
Definition copies_of (l : list (ZoneExtent * ZoneExtent)) (z : nat) : Z :=
  foldr (fun p n => copies p z + n) 0 l.
Definition moved_from (l : list (ZoneExtent * ZoneExtent)) (z : nat) : Z :=
  foldr (fun p n => (if e_start_ p.1 =? e_start_ p.2 then 0 else usage [p.1] z) + n) 0 l.

Lemma copies_of_cons e e' es es' z :
  copies_of (zip (e :: es) (e' :: es')) z
  = (if e_start_ e =? e_start_ e' then 0 else usage [e'] z) + copies_of (zip es es') z.
Proof. done. Qed.
Lemma moved_from_cons e e' es es' z :
  moved_from (zip (e :: es) (e' :: es')) z
  = (if e_start_ e =? e_start_ e' then 0 else usage [e] z) + moved_from (zip es es') z.
Proof. done. Qed.
Lemma usage_cons e es z : usage (e :: es) z = usage [e] z + usage es z.
Proof. apply (usage_app [e]). Qed.

Lemma copied_later u e e' (s z1 z2 : Zbd D) : stored u z1 z2 -> copied e e' s z1 -> copied e e' s z2.
Proof.
  intros Hs (Hl & Hd & Hr & He). split; [done|]. split; [|split; [|done]].
  - split; [|apply Hd]. eapply stored_extent_step; [exact Hs|apply Hd].
  - rewrite <- Hr. eapply source_range; [exact Hs|]. by apply data_source.
Qed.

Lemma copied_earlier u e e' (s z1 z2 : Zbd D) :
  stored u s z1 -> data_extent s e -> copied e e' z1 z2 -> copied e e' s z2.
Proof.
  intros Hs Hd (Hl & Hd' & Hr & He). split_and!; try done; [apply Hd'..|].
  rewrite Hr. eapply source_range; [exact Hs|]. by apply data_source.
Qed.

Lemma migrate_extents_ok fname o f exts es s :
  gc_dev false (zbd_ s) -> objs s !! o = Some f -> is_sparse_ f = false ->
  is_Some (files_ s !! FormatPathLexically fname) -> 2 ^ 17 mod block_sz_ = 0 -> Forall (movable s) es ->
  exists es' zb, migrate_extents fname o exts es s = Ok es' (set_zbd zb s) /\
    gc_dev false zb /\ stored (copies_of (zip es es')) (zbd_ s) zb /\
    Forall2 (fun e e' => copied e e' (zbd_ s) zb) es es'.
Proof.
  intros Hg Ho Hsp Hname Hblk Hes. revert s Hg Ho Hname Hes.
  induction es as [|e es IH]; intros s Hg Ho Hname Hes; cbn [migrate_extents].
  { exists [], (zbd_ s). split; [by destruct s|]. split; [done|]. split; [|done]. apply stored_refl, Hg. }
  apply Forall_cons in Hes as [He Hes].
  destruct (migrate_extent_ok fname o f exts e s Hg Ho Hsp Hname Hblk He) as (e' & z1 & Hrun & Hg1 & Hs1 & Hc1).
  destruct (IH (set_zbd z1 s)) as (es' & z2 & Hrun2 & Hg2 & Hs2 & Hc2); try done.
  { eapply Forall_impl; [exact Hes|]. intros x (Hx & ?). split; [|done]. split; [|apply Hx].
    eapply stored_extent_step; [exact Hs1|apply Hx]. }
  exists (e' :: es'), z2. split; [|split; [done|split]].
  - rewrite (bind_ok _ _ _ _ _ Hrun), (bind_ok _ _ _ _ _ Hrun2). done.
  - eapply stored_ext; [|eapply stored_trans; [exact Hs1|exact Hs2]]. done.
  - constructor; [by eapply copied_later|].
    apply Forall2_same_length_lookup_2.
    + by eapply Forall2_length.
    + intros i x x' Hx Hx'. eapply (copied_earlier (copies (e, e'))); [exact Hs1| |].
      * rewrite Forall_lookup in Hes. by destruct (Hes i x Hx).
      * by eapply Forall2_lookup_lr in Hc2.
Qed.

(** *** The new extents take the place of the old ones *)

Lemma moved_usage (s z : Zbd D) es es' y :
  Forall2 (fun e e' => copied e e' s z) es es' ->
  usage es' y + moved_from (zip es es') y = usage es y + copies_of (zip es es') y.
Proof.
  induction 1 as [|e e' es es' (Hl & _ & _ & Heq) _ IH]; [done|].
  rewrite copies_of_cons, moved_from_cons, (usage_cons e es), (usage_cons e' es'). destruct (Z.eqb_spec (e_start_ e) (e_start_ e')) as [E|E]; [|lia].
  rewrite (Heq (eq_sym E)). lia.
Qed.

Definition total (es : list ZoneExtent) : Z := foldr (fun e n => e_length_ e + n) 0 es.

Lemma copies_total (s z : Zbd D) es es' y :
  Forall2 (fun e e' => copied e e' s z) es es' -> 0 <= copies_of (zip es es') y <= total es.
Proof.
  induction 1 as [|e e' es es' (Hl & [_ Hpos] & _) _ IH]; [done|].
  rewrite copies_of_cons. cbn. fold (total es). destruct (_ =? _); [lia|]. destruct (decide _); lia.
Qed.

Lemma moved_nonneg (s z : Zbd D) es es' y :
  Forall2 (fun e e' => copied e e' s z) es es' -> 0 <= moved_from (zip es es') y.
Proof.
  induction 1 as [|e e' es es' (Hl & [_ Hpos] & _) _ IH]; [done|].
  rewrite moved_from_cons. cbn. destruct (_ =? _); [lia|]. destruct (decide _); lia.
Qed.

(** The accounting covers the new extents and the moved originals. *)
Definition covered (slack : nat -> Z) s : Prop :=
  forall z zn, z ∈ io_zones (zbd_ s) -> zone_heap (zbd_ s) !! z = Some zn ->
    live_in (objs s) z + slack z <= used_capacity_ zn.

Lemma fs_step_covered slack s s' :
  dev_ok (zbd_ s) -> fs_step none s s' -> covered slack s -> covered slack s'.
Proof.
  intros Hd (Hd' & _ & Hs & Hdom & Ho) Hc z zn' Hin Hz'. pose proof Hs as ((Hio & _) & _ & _ & Hz).
  rewrite Hio in Hin. destruct (dok_io _ Hd) as [Hall _]. rewrite Forall_forall in Hall.
  destruct (Hall z Hin) as [zn Hzn]. destruct (Hz z zn Hin Hzn) as (yn & Hyn & _ & Hu & _).
  rewrite Hz' in Hyn. injection Hyn as <-. rewrite Hu. unfold none.
  destruct (zones_wf_lookup _ _ _ (dok_wf _ Hd) Hzn) as (_&_&_&_&_&_&Hr). rewrite Z.add_0_r, u64_small by done.
  rewrite (live_in_same (objs s) (objs s')); [by apply Hc|done|].
  intros p g Hg. destruct (Ho p g Hg) as (g' & ? & ? & _). by exists g'.
Qed.

Lemma replaced_covered o f f' es' zb s :
  space_inv s -> objs s !! o = Some f -> gc_dev false zb ->
  stored (copies_of (zip (extents_ f) es')) (zbd_ s) zb ->
  Forall2 (fun e e' => copied e e' (zbd_ s) zb) (extents_ f) es' -> extents_ f' = es' ->
  (forall z zn, zone_heap (zbd_ s) !! z = Some zn -> used_capacity_ zn + total (extents_ f) < 2 ^ 64) ->
  let s2 := set_objs (<[o := f']> (objs s)) (set_zbd zb s) in
  covered (moved_from (zip (extents_ f) es')) s2 /\
  forall p g, objs s2 !! p = Some g -> Forall (data_extent zb) (extents_ g).
Proof.
  intros Hi Ho Hg Hs Hc He Hof s2. pose proof Hs as ((Hio & _) & _ & _ & Hz). split.
  - intros z zn' Hin Hz'. cbn in Hin, Hz'. rewrite Hio in Hin. destruct (dok_io _ (si_dev _ Hi)) as [Hall _].
    rewrite Forall_forall in Hall. destruct (Hall z Hin) as [zn Hzn].
    destruct (Hz z zn Hin Hzn) as (yn & Hyn & _ & Hu & _). rewrite Hz' in Hyn. injection Hyn as <-. rewrite Hu.
    pose proof (copies_total _ _ _ _ z Hc). pose proof (Hof z zn Hzn). pose proof (moved_usage _ _ _ _ z Hc).
    destruct (zones_wf_lookup _ _ _ (dok_wf _ (si_dev _ Hi)) Hzn) as (_&_&_&_&_&_&[? ?]).
    rewrite u64_small by lia. cbn. rewrite (live_in_insert (objs s) o f f') by done. rewrite He.
    pose proof (si_used _ Hi z zn Hin Hzn). lia.
  - intros p g Hp. cbn in Hp. apply lookup_insert_Some in Hp as [[<- <-]|[_ Hp]].
    + rewrite He. clear - Hc. induction Hc as [|e e' es es' (_ & Hd & _) _ IH]; [done|]. by constructor.
    + eapply data_extent_step; [exact Hs|]. by eapply (si_data _ Hi).
Qed.

(** Giving up the originals that were moved. *)
Lemma sub_moved_run (olds : list ZoneExtent) k es es' s :
  length es = length es' -> (forall i e, es !! i = Some e -> olds !! (k + i)%nat = Some e) ->
  dev_ok (zbd_ s) -> Forall (stored_extent (zbd_ s)) es ->
  exists zb, forM (imap (fun i e => ((k + i)%nat, e)) es') (fun p =>
      old_ext <- deref (olds !! p.1) ;;
      when (negb (e_start_ old_ext =? e_start_ p.2))
        (on_device (sub_used (e_zone_ old_ext) (e_length_ old_ext)))) s = Ok tt (set_zbd zb s) /\
    stored (fun z => - moved_from (zip es es') z) (zbd_ s) zb /\ dev_ok zb.
Proof.
  revert k es' s. induction es as [|e es IH]; intros k es' s Hlen Holds Hd Hes.
  { destruct es'; [|done]. exists (zbd_ s). split; [by destruct s|]. split; [|done]. apply stored_refl, Hd. }
  destruct es' as [|e' es']; [done|]. apply Forall_cons in Hes as [He Hes]. cbn [imap].
  assert (exists z1, (old_ext <- deref (olds !! (k + 0)%nat) ;;
      when (negb (e_start_ old_ext =? e_start_ e'))
        (on_device (sub_used (e_zone_ old_ext) (e_length_ old_ext)))) s = Ok tt (set_zbd z1 s) /\
    stored (fun z => - (if e_start_ e =? e_start_ e' then 0 else usage [e] z)) (zbd_ s) z1 /\ dev_ok z1)
    as (z1 & Hrun & Hs1 & Hd1).
  { rewrite (Holds 0%nat e eq_refl). unfold bind at 1. cbn [deref ret].
    destruct (e_start_ e =? e_start_ e'); cbn [negb when].
    - exists (zbd_ s). split; [by destruct s|]. split; [|done]. apply stored_refl, Hd.
    - destruct He as (_ & Hin & zn & Hz & _).
      destruct (sub_used_run _ _ (e_length_ e) _ Hd Hin Hz) as (z1 & Hrun & Hs1 & Hd1).
      exists z1. split; [by apply on_device_ok|]. split; [|done]. eapply stored_ext; [|exact Hs1].
      intros y. cbn. destruct (decide _); lia. }
  destruct (IH (S k) es' (set_zbd z1 s)) as (z2 & Hrun2 & Hs2 & Hd2).
  { cbn in Hlen. lia. }
  { intros i x Hx. rewrite <- (Holds (S i) x Hx). f_equal. lia. }
  { done. }
  { eapply Forall_impl; [exact Hes|]. intros x Hx. by eapply stored_extent_step. }
  exists z2. split; [|split; [|done]].
  - cbn [forM]. rewrite (bind_ok _ _ _ _ _ Hrun). etransitivity; [|exact Hrun2]. f_equal. apply imap_ext.
    intros i x _. cbn. f_equal. lia.
  - eapply stored_ext; [|eapply stored_trans; [exact Hs1|exact Hs2]]. intros y. rewrite moved_from_cons. cbn. lia.
Qed.

(** *** The whole file *)

(** Every object of [s] is there, with the data it had. *)
Definition same_contents s s' : Prop :=
  forall p g, objs s !! p = Some g -> exists g', objs s' !! p = Some g' /\
    contents (zbd_be_ (zbd_ s')) (extents_ g') = contents (zbd_be_ (zbd_ s)) (extents_ g).

Lemma same_contents_trans s1 s2 s3 : same_contents s1 s2 -> same_contents s2 s3 -> same_contents s1 s3.
Proof.
  intros H1 H2 p g Hg. destruct (H1 p g Hg) as (g2 & Hg2 & C2). destruct (H2 p g2 Hg2) as (g3 & Hg3 & C3).
  exists g3. split; [done|]. congruence.
Qed.

Lemma fs_step_same u s s' : space_inv s -> fs_step u s s' -> same_contents s s'.
Proof.
  intros Hi (_ & _ & Hs & _ & Ho) p g Hg. destruct (Ho p g Hg) as (g' & Hg' & He & _). exists g'. split; [done|].
  rewrite He. eapply contents_step; [exact Hs|]. by eapply data_stored, si_data.
Qed.

Lemma contents_copied (z z' : Zbd D) es es' :
  Forall2 (fun e e' => copied e e' z z') es es' -> contents (zbd_be_ z') es' = contents (zbd_be_ z) es.
Proof.
  intros H. unfold contents, pieces. f_equal. induction H as [|e e' es es' (Hl & _ & Hr & _) _ IH]; [done|].
  rewrite !fmap_cons, IH. by f_equal.
Qed.

(** The new extents in place of the old ones. *)
Lemma replaced_ok o f f' es' zb s :
  space_inv s -> objs s !! o = Some f -> gc_dev false zb ->
  stored (copies_of (zip (extents_ f) es')) (zbd_ s) zb ->
  Forall2 (fun e e' => copied e e' (zbd_ s) zb) (extents_ f) es' -> extents_ f' = es' ->
  (forall z zn, zone_heap (zbd_ s) !! z = Some zn -> used_capacity_ zn + total (extents_ f) < 2 ^ 64) ->
  let s2 := set_objs (<[o := f']> (objs s)) (set_zbd zb s) in
  space_inv s2 /\ covered (moved_from (zip (extents_ f) es')) s2 /\ same_contents s s2.
Proof.
  intros Hi Ho Hg Hs Hc He Hof s2. pose proof Hs as (_ & Hm & _).
  destruct (replaced_covered o f f' es' zb s Hi Ho Hg Hs Hc He Hof) as [Hcov Hdata]. split; [|split; [done|]].
  - split; [apply Hg|cbn; rewrite Hm; apply Hi|done|]. intros z zn Hin Hz. specialize (Hcov z zn Hin Hz).
    pose proof (moved_nonneg _ _ _ _ z Hc). cbn in *. lia.
  - intros p g Hp. cbn. destruct (decide (p = o)) as [->|Hne].
    + rewrite lookup_insert_eq. exists f'. split; [done|]. rewrite Ho in Hp. injection Hp as <-. rewrite He.
      by apply (contents_copied (zbd_ s) zb).
    + rewrite lookup_insert_ne by done. exists g. split; [done|]. eapply contents_step; [exact Hs|].
      by eapply data_stored, si_data.
Qed.

(** Giving up bytes that no file has any more. *)
Lemma give_up_ok slack z s :
  space_inv s -> covered slack s -> (forall y, 0 <= slack y) ->
  stored (fun y => - slack y) (zbd_ s) z -> dev_ok z ->
  space_inv (set_zbd z s) /\ same_contents s (set_zbd z s).
Proof.
  intros Hi Hcov Hnn Hs Hd. pose proof Hs as ((Hio & _) & Hm & _ & Hz). split.
  - split; cbn; [done|rewrite Hm; apply Hi| |].
    + intros p g Hp. eapply data_extent_step; [exact Hs|]. by eapply (si_data _ Hi).
    + intros y yn' Hin Hy'. rewrite Hio in Hin. destruct (dok_io _ (si_dev _ Hi)) as [Hall _].
      rewrite Forall_forall in Hall. destruct (Hall y Hin) as [yn Hyn].
      destruct (Hz y yn Hin Hyn) as (yn2 & Hyn2 & _ & Hu & _). rewrite Hy' in Hyn2. injection Hyn2 as <-. rewrite Hu.
      pose proof (Hcov y yn Hin Hyn). specialize (Hnn y).
      assert (0 <= live_in (objs s) y) by (apply (live_in_nonneg (zbd_ s)); intros p g Hp; by eapply (si_data _ Hi)).
      destruct (zones_wf_lookup _ _ _ (dok_wf _ (si_dev _ Hi)) Hyn) as (_&_&_&_&_&_&[? ?]).
      rewrite u64_small by lia. lia.
  - intros p g Hp. exists g. split; [done|]. eapply contents_step; [exact Hs|]. by eapply data_stored, (si_data _ Hi).
Qed.

Lemma SyncFileExtents_ok o f es' zb s :
  space_inv s -> objs s !! o = Some f -> gc_dev false zb ->
  stored (copies_of (zip (extents_ f) es')) (zbd_ s) zb ->
  Forall2 (fun e e' => copied e e' (zbd_ s) zb) (extents_ f) es' ->
  (forall z zn, zone_heap (zbd_ s) !! z = Some zn -> used_capacity_ zn + total (extents_ f) < 2 ^ 64) ->
  match SyncFileExtents o es' (set_zbd zb s) with
  | Ok _ s' | Err _ s' => space_inv s' /\ same_contents s s' /\ files_ s' = files_ s
  | Stuck _ => True
  end.
Proof.
  intros Hi Ho Hg Hs Hc Hof. unfold SyncFileExtents. unfold bind at 1, file_of at 1, bind at 1, get.
  cbn [objs set_zbd]. rewrite Ho. cbn [deref ret]. unfold bind at 1, mod_obj at 1, file_of, bind at 1, bind at 1, get.
  cbn [objs set_zbd]. rewrite Ho. cbn [deref ret]. unfold modify.
  set (f' := MetadataUnsynced (set_extents es' f)). cbn [objs set_zbd].
  destruct (replaced_ok o f f' es' zb s Hi Ho Hg Hs Hc eq_refl Hof) as (Hi2 & Hcov & Hsame).
  set (s2 := set_objs _ _) in *. pose proof (fun z => moved_nonneg _ _ _ _ z Hc) as Hnn.
  pose proof (journal_Sync s2 o true s2 (journal_start s2 (si_dev _ Hi2) (si_log _ Hi2))) as Hj.
  assert (forall s3, journal s2 s3 -> space_inv s3 /\ same_contents s s3 /\ files_ s3 = files_ s /\
    covered (moved_from (zip (extents_ f) es')) s3 /\ fs_step none s2 s3) as Hfin.
  { intros s3 Hj3. pose proof (journal_fs_step s2 s3 (si_dev _ Hi2) Hj3) as Hst.
    split; [by eapply fs_step_inv|]. split; [eapply same_contents_trans; [done|by eapply fs_step_same]|].
    split; [by destruct Hj3 as (_ & _ & (-> & _) & _)|]. split; [by eapply fs_step_covered; [apply Hi2|..]|done]. }
  unfold bind, SyncFileMetadata. destruct (SyncFileMetadataNoLock o true s2) as [[] s3|e s3|]; [| |done].
  2:{ destruct (Hfin s3 Hj) as (? & ? & ? & _). done. }
  destruct (Hfin s3 Hj) as (Hi3 & Hsame3 & Hf3 & Hcov3 & Hst3). pose proof Hst3 as (_ & _ & Hs23 & _).
  destruct (sub_moved_run (extents_ f) 0 (extents_ f) es' s3) as (z4 & Hrun & Hs4 & Hd4).
  { by eapply Forall2_length. }
  { done. }
  { apply Hi3. }
  { eapply Forall_impl; [by eapply data_stored, (si_data _ Hi o f)|]. intros e He.
    eapply stored_extent_step; [exact Hs23|]. eapply stored_extent_step; [exact Hs|done]. }
  change (imap pair es') with (imap (fun i e => ((0 + i)%nat, e)) es').
  change (forM _ _ s3) with (forM (imap (fun i e => ((0 + i)%nat, e)) es') (fun p =>
      old_ext <- deref (extents_ f !! p.1) ;;
      when (negb (e_start_ old_ext =? e_start_ p.2))
        (on_device (sub_used (e_zone_ old_ext) (e_length_ old_ext)))) s3). rewrite Hrun.
  destruct (give_up_ok _ z4 s3 Hi3 Hcov3 Hnn Hs4 Hd4) as [Hi4 Hsame4].
  split; [done|]. split; [by eapply same_contents_trans|done].
Qed.

(** What the collection of a file needs of the file and of the zones. *)
Record collectable (f : ZoneFile L) s : Prop := {
  co_inv : space_inv s;
  co_write : writable (zbd_ s);
  co_free : migrating_ (zbd_ s) = false;
  co_sparse : is_sparse_ f = false;
  co_extents : Forall (movable s) (extents_ f);
  co_used : forall z zn, zone_heap (zbd_ s) !! z = Some zn -> used_capacity_ zn + total (extents_ f) < 2 ^ 64
}.

Lemma migrate_body_ok fname exts o f s :
  collectable f s -> objs s !! o = Some f -> is_Some (files_ s !! FormatPathLexically fname) ->
  2 ^ 17 mod block_sz_ = 0 ->
  match (new_extent_list <- migrate_extents fname o exts (extents_ f) ;;
         attempt (SyncFileExtents o new_extent_list) ;; on_obj o ReleaseWRLock) s with
  | Ok _ s' | Err _ s' => space_inv s' /\ same_contents s s' /\ files_ s' = files_ s
  | Stuck _ => True
  end.
Proof.
  intros [Hi Hw Hm Hsp Hes Hof] Ho Hname Hblk.
  destruct (migrate_extents_ok fname o f exts (extents_ f) s) as (es' & zb & Hrun & Hg & Hs & Hc); try done.
  { split; [apply Hi|done]. }
  rewrite (bind_ok _ _ _ _ _ Hrun). pose proof (SyncFileExtents_ok o f es' zb s Hi Ho Hg Hs Hc Hof) as Hsync.
  assert (forall s1, space_inv s1 /\ same_contents s s1 /\ files_ s1 = files_ s ->
    match on_obj o ReleaseWRLock s1 with
    | Ok _ s' | Err _ s' => space_inv s' /\ same_contents s s' /\ files_ s' = files_ s | Stuck _ => True end) as Hrel.
  { intros s1 (Hi1 & Hc1 & Hf1). unfold on_obj. destruct (objs s1 !! o) as [g|] eqn:Hg1; [|done].
    unfold ReleaseWRLock, bind, get_file, gets. cbn [f_file]. destruct (open_for_wr_ g); [|done].
    cbn. set (s2 := set_zbd _ _).
    assert (fs_step none s1 s2) as Hst.
    { apply (step_obj none s1 s1 o g (set_open_for_wr false g)); try done. apply fs_step_refl; apply Hi1. }
    split; [by eapply fs_step_inv|]. split; [|done]. eapply same_contents_trans; [done|by eapply fs_step_same]. }
  unfold bind, attempt. destruct (SyncFileExtents o es' (set_zbd zb s)); [by apply Hrel..|done].
Qed.

Lemma referenced_name n o s : files_ s !! n = Some o -> referenced o s = true.
Proof.
  intros Hn. unfold referenced. apply orb_true_iff. right. apply existsb_exists. exists (n, o).
  split; [|by apply bool_decide_eq_true]. apply list_elem_of_In. by apply elem_of_map_to_list.
Qed.

Lemma collectable_step f f' s s' :
  fs_step none s s' -> zbd_ s' = zbd_ s -> extents_ f' = extents_ f -> is_sparse_ f' = is_sparse_ f ->
  collectable f s -> collectable f' s'.
Proof.
  intros Hst Hz He Hsp [Hi Hw Hm Hs Hes Hof]. split; rewrite ?Hz, ?He, ?Hsp; try done; [by eapply fs_step_inv|].
  unfold movable. by rewrite Hz.
Qed.

Lemma MigrateFileExtents_ok fname exts o f s :
  collectable f s -> files_ s !! FormatPathLexically fname = Some o -> objs s !! o = Some f ->
  2 ^ 17 mod block_sz_ = 0 ->
  match MigrateFileExtents fname exts s with
  | Ok _ s' | Err _ s' => space_inv s' /\ same_contents s s'
  | Stuck _ => True
  end.
Proof.
  intros Hco Hname Ho Hblk. pose proof (co_inv _ _ Hco) as Hi.
  unfold MigrateFileExtents. unfold bind at 1, GetFile, GetFileNoLock, bind at 1, get, ret at 1. rewrite Hname.
  pose proof (fs_step_refl s (si_dev _ Hi) (si_log _ Hi)) as H0.
  unfold with_ref. unfold bind at 1, add_ref, modify. set (s1 := set_refs _ s).
  assert (fs_step none s s1) as H1 by (by apply (step_set none s s)).
  assert (forall (r : IOStatus + unit) s2, space_inv s2 /\ same_contents s s2 /\ files_ s2 = files_ s ->
    match (drop_ref o ;; match r with inl e => fail e | inr b => ret b end) s2 with
    | Ok _ s' | Err _ s' => space_inv s' /\ same_contents s s' | Stuck _ => True end) as Hend.
  { intros r s2 (Hi2 & Hc2 & Hf2). unfold drop_ref. rewrite bind_assoc. unfold bind at 1, modify.
    set (s3 := set_refs _ s2). assert (referenced o s3 = true) as Href.
    { apply (referenced_name (FormatPathLexically fname)). cbn. by rewrite Hf2. }
    unfold bind at 1, collect, bind at 1, get. rewrite Href. cbn [ret].
    assert (fs_step none s2 s3) as H3 by (apply (step_set none s2 s2); try done; apply fs_step_refl; apply Hi2).
    assert (space_inv s3 /\ same_contents s s3) as Hres; [|by destruct r as [e|[]]].
    split; [by eapply fs_step_inv|]. eapply same_contents_trans; [done|by eapply fs_step_same]. }
  unfold bind at 1, attempt. unfold bind at 1. unfold on_obj at 1. cbn [objs set_refs s1]. rewrite Ho.
  unfold TryAcquireWRLock, bind at 1, get_file, gets. cbn [f_file]. destruct (open_for_wr_ f) eqn:Hopen; cbn.
  - rewrite insert_id by done. apply (Hend (inr tt)). split_and!; [by eapply (fs_step_inv s)|by eapply fs_step_same|done].
  - set (f1 := set_open_for_wr true f). set (s2 := set_zbd _ _).
    assert (fs_step none s s2) as H2.
    { apply (step_set none s (set_objs (<[o := f1]> (objs s)) s)); try done. by apply (step_obj none s s o f). }
    pose proof (fs_step_inv _ _ Hi H2) as Hi2.
    pose proof (migrate_body_ok fname exts o f1 s2) as Hbody.
    specialize (Hbody (collectable_step f f1 s s2 H2 eq_refl eq_refl eq_refl Hco)).
    specialize (Hbody (lookup_insert_eq _ _ _) ltac:(by exists o) Hblk).
    unfold bind at 1, file_of, bind at 1, get. cbn [objs s2 set_zbd set_objs]. rewrite lookup_insert_eq. cbn [deref ret].
    pose proof (fs_step_same _ _ _ Hi H2) as Hc2.
    destruct (bind _ _ s2) as [b s3|e s3|]; [| |done]; destruct Hbody as (Hi3 & Hc3 & Hf3).
    + apply (Hend (inr b)). split_and!; [done|by eapply same_contents_trans|done].
    + apply (Hend (inl e)). split_and!; [done|by eapply same_contents_trans|done].
Qed.
End gc.


(** A file with eight bytes in a finished zone, and one with eight bytes in an open
    zone. *)
Definition zbd4 : Zbd MemDev :=
  mkZbd (mkMemDev [(512, b_of "abcdefgh"); (1024, b_of "01234567")] {[ 1 := 1024; 2 := 1032 ]})
    (list_to_map [(0%nat, mkZone 0 512 512 0 WLTH_NOT_SET 0 true);
                  (1%nat, mkZone 512 0 512 1024 WLTH_MEDIUM 8 false);
                  (2%nat, mkZone 1024 504 512 1032 WLTH_MEDIUM 8 false)])
    [1; 2]%nat [] [0]%nat 0 24 0 2 0 OK false 2 2 0.
Definition moving_file : ZoneFile MemLog :=
  set_linkfiles [one_name] (set_file_size 8 (set_extents [mkExtent 512 8 1] (ZoneFile_new 1))).
Definition fs4 : ZenFS MemDev MemLog unit :=
  mkZenFS zbd4 {[ one_name := 0%nat; two_name := 1%nat ]} 3 (Some (mkMetaLog 0 0)) None false tt
    (<[0%nat := moving_file]>
     {[ 1%nat := set_linkfiles [two_name] (set_file_size 8 (set_extents [mkExtent 1024 8 2] (ZoneFile_new 2))) ]})
    [] 2 (fun _ => 7) 0.
Definition gc_exts : list ZoneExtentSnapshot := [mkExtentSnapshot 512 8 512 one_name].

Definition spec2 : BackendSpec MemDev MemLog (be := be2).
Proof. by apply mem_backend_spec; simpl; lia || reflexivity. Defined.
Definition rel2 : ReliableReads MemDev MemLog (be := be2).
Proof. apply mem_reliable; simpl; lia. Defined.
Definition wr2 : ReliableWrites MemDev MemLog (be := be2).
Proof. apply mem_reliable_writes; simpl; lia. Defined.

Lemma zbd4_ok : dev_ok (be := be2) zbd4.
Proof.
  split; try done.
  - unfold zones_wf. apply map_Forall_to_list.
    repeat (apply Forall_cons; split; [zone_wf_done|]). by apply Forall_nil.
  - by apply zones_disjoint_intro.
  - apply io_zones_ok_intro; reflexivity.
  - intros z Hz Hm. cbn in Hz, Hm. set_solver.
  - intros z zn _ Hz. revert z zn Hz. change (map_Forall (fun (_ : nat) zn => capacity_ zn mod 8 = 0) (zone_heap zbd4)).
    apply map_Forall_to_list. repeat (apply Forall_cons; split; [reflexivity|]). by apply Forall_nil.
Qed.

Lemma fs4_inv : space_inv (be := be2) fs4.
Proof.
  split.
  - apply zbd4_ok.
  - intros log [= <-]. left.
  - intros o f Hf. cbn in Hf. apply lookup_insert_Some in Hf as [[<- <-]|[_ [<- <-]%lookup_singleton_Some]];
      (apply Forall_singleton; split; [|cbn; lia]; split; [cbn; lia|]; split; [cbn; set_solver|];
       eexists; split; [reflexivity|cbn; lia]).
  - intros z zn Hin Hz. cbn in Hin.
    repeat (apply elem_of_cons in Hin as [->|Hin]; [injection Hz as <-; vm_compute; congruence|]).
    by apply elem_of_nil in Hin.
Qed.

Lemma fs4_collectable : collectable (wr := wr2) moving_file fs4.
Proof.
  split; try done.
  - apply fs4_inv.
  - intros z zn Hin Hz. cbn in Hin.
    repeat (apply elem_of_cons in Hin as [->|Hin]; [injection Hz as <-; vm_compute; intuition congruence|]).
    by apply elem_of_nil in Hin.
  - apply Forall_singleton. split; [|unfold extent_readable; split_and!; (reflexivity || (cbn; lia))].
    pose proof (si_data _ fs4_inv 0 moving_file eq_refl) as H. by apply Forall_cons in H as [H _].
  - intros z zn Hz. assert (map_Forall (fun (_ : nat) zn => used_capacity_ zn < 16) (zone_heap zbd4)) as H.
    { apply map_Forall_to_list. repeat (apply Forall_cons; split; [reflexivity|]). by apply Forall_nil. }
    specialize (H z zn Hz). cbn in *. lia.
Qed.


(** ** Errors while copying *)

Section failing.
Context {D L A : Type} `{spec : BackendSpec D L} {rel : ReliableReads D L} {szd : SZDOnceLog D L}
  {aux : AuxFileSystem A}.
Implicit Types s : ZenFS D L A.

(** No write gets anything onto the device. *)
Definition writes_fail : Prop :=
  forall data pos (d : D), exists r err d', be_Write data pos d = (r, err, d') /\ r < 0 /\
    forall a, disk d' a = disk d a.

(** A device with the same contents. *)
Definition same_disk (z z' : Zbd D) : Prop := exists d, z' = set_be d z /\ forall a, disk d a = disk (zbd_be_ z) a.

Lemma Append_fails z zn data (s : Zbd D) :
  writes_fail -> zone_heap s !! z = Some zn -> data <> [] -> (0 < loop_bound)%nat ->
  exists e (s' : Zbd D), Append z data s = Err e s' /\ same_disk s s'.
Proof.
  intros Hf Hz Hne Hlb. unfold Append. mstep. destruct (_ <? _).
  { eexists _, s. split; [done|]. exists (zbd_be_ s). split; [by destruct s|done]. }
  destruct loop_bound as [|n]; [lia|]. cbn [Append_loop]. rewrite decide_False by done. mstep.
  unfold with_be, zoom, call. unfold bind at 1. destruct (Hf data (wp_ zn) (zbd_be_ s)) as (r & err & d & -> & Hr & Hd).
  destruct (Z.ltb_spec r 0); [|lia]. eexists _, _. split; [done|]. by exists d.
Qed.

Lemma migrate_loop_fails {X} n off len rs z zn (t : FSt D L X) :
  writes_fail -> zone_heap (f_zbd t) !! z = Some zn -> 0 <= len < 2 ^ 32 -> 0 < rs -> 0 <= off ->
  rs mod block_sz_ = 0 \/ len = 0 -> off + len + block_sz_ <= nr_zones_ * zone_sz_ ->
  len + block_sz_ <= Z.of_nat loop_bound -> len <= Z.of_nat n ->
  exists zb, MigrateData_loop n off len rs z t = Ok tt (mkFSt zb (f_file t) (f_buf t) (f_ctx t)) /\
    same_disk (f_zbd t) zb.
Proof.
  intros Hf. pose proof block_sz_pos as Hbp. pose proof device_size_u64 as Hu64. revert off len rs t.
  induction n as [|n IH]; intros off len rs t Hz Hlen Hrs Ho Hrb Hdev Hlb Hn;
    cbn [MigrateData_loop]; (destruct (Z.ltb_spec 0 len) as [Hpos|Hle];
    [|exists (f_zbd t); split; [by destruct t|]; exists (zbd_be_ (f_zbd t)); split; [by destruct (f_zbd t)|done]]); [lia|].
  set (rs' := if rs <? len then rs else len).
  assert (0 < rs' <= len /\ (rs' = len \/ rs' = rs /\ rs < len /\ rs mod block_sz_ = 0)) as (Hrs' & Hcase).
  { unfold rs'. destruct (Z.ltb_spec rs len); lia. }
  set (m := rs' + pad_to block_sz_ rs').
  assert (0 <= pad_to block_sz_ rs' <= block_sz_) as Hpb.
  { unfold pad_to. pose proof (Z.mod_pos_bound rs' block_sz_ Hbp). destruct (_ =? 0); lia. }
  destruct (Zbd_Read_ok off m true (f_zbd t)) as (s1 & Hread & d1 & -> & Hd1); [lia..|].
  unfold bind at 1. rewrite on_dev_run, Hread. destruct (Z.ltb_spec m 0); [lia|].
  destruct (Append_fails z zn (range (disk (zbd_be_ (f_zbd t))) off m) (set_be d1 (f_zbd t)) Hf Hz)
    as (e & s2 & Happ & d2 & -> & Hd2).
  { intros Hnil. apply (f_equal zlen) in Hnil. rewrite zlen_range, zlen_nil in Hnil by lia. lia. }
  { lia. }
  unfold bind at 1, attempt. rewrite on_dev_run. cbn [f_zbd f_file f_buf f_ctx]. rewrite Happ.
  rewrite (u64_small (off + m)), (u32_small (len - rs')) by lia.
  set (t2 := mkFSt (set_be d2 (f_zbd t)) (f_file t) (f_buf t) (f_ctx t)).
  change (mkFSt (set_be d2 (set_be d1 (f_zbd t))) (f_file t) (f_buf t) (f_ctx t)) with t2.
  assert (forall zb, same_disk (f_zbd t2) zb -> same_disk (f_zbd t) zb) as Hsame.
  { intros zb (d3 & -> & Hd3). exists d3. split; [done|]. intros a. rewrite Hd3. cbn. rewrite Hd2. cbn. apply Hd1. }
  destruct Hcase as [Heq|(Heq & Hlt & Hb)].
  - replace (len - rs') with 0 by lia. exists (f_zbd t2). split; [by destruct n|]. apply Hsame.
    exists (zbd_be_ (f_zbd t2)). done.
  - assert (m = rs) as Hm by (unfold m; rewrite Heq, pad_to_0 by done; lia).
    destruct (IH (off + m) (len - rs') rs' t2) as (zb & Hrun & Hzb); try done; try lia; [left; by rewrite Heq|].
    exists zb. split; [exact Hrun|]. by apply Hsame.
Qed.
End failing.

(** C35: Garbage collection does not look at the status of the copy: on a device
    that fails every write, an extent for which a target zone is found is
    replaced by an extent of the target zone, with its bytes accounted for there,
    although nothing was written to the device: the new extent refers to whatever
    the device held behind the write pointer. *)
Theorem migration_ignores_errors `{spec : BackendSpec D L} {rel : ReliableReads D L} {szd : SZDOnceLog D L}
    {A : Type} {aux : AuxFileSystem A} (fname : bytes) (o : nat) (f : ZoneFile L)
    (exts : list ZoneExtentSnapshot) (e : ZoneExtent) (s : ZenFS D L A) (z : nat) (zn : Zone) (z1 : Zbd D) :
  writes_fail -> objs s !! o = Some f -> is_sparse_ f = false ->
  is_Some (files_ s !! FormatPathLexically fname) ->
  existsb (fun x => (es_start x =? e_start_ e) && (es_length x =? e_length_ e)) exts = true ->
  TakeMigrateZone (zf_lifetime_ f) (e_length_ e) (zbd_ s) = Ok (Some z) z1 ->
  zone_heap z1 !! z = Some zn -> busy_ zn = true ->
  extent_readable e -> e_length_ e < 2 ^ 32 -> e_start_ e mod block_sz_ = 0 -> 2 ^ 17 mod block_sz_ = 0 ->
  exists zb zn', migrate_extent fname o exts e s = Ok (Some (mkExtent (wp_ zn) (e_length_ e) z)) (set_zbd zb s) /\
    (forall a, disk (zbd_be_ zb) a = disk (zbd_be_ z1) a) /\
    zone_heap zb !! z = Some zn' /\ wp_ zn' = wp_ zn /\
    used_capacity_ zn' = used_capacity_ zn +64 e_length_ e.
Proof.
  intros Hf Ho Hsp [o' Hname] Hlisted Htake Hz Hbusy (H0 & Hpos & Hend & Hlb) H32 Hal Hblk.
  pose proof block_sz_pos. unfold migrate_extent. rewrite Hlisted. cbn [negb]. unfold bind at 1, file_of, bind at 1, get. rewrite Ho. cbn [deref ret].
  rewrite Hsp. unfold bind at 1, attempt, on_device at 1, zoom. rewrite Htake. set (s1 := set_zbd z1 s).
  rewrite (bind_ok _ _ _ _ _ (on_device_ok (get_zone z) s1 zn z1 (get_zone_ok z zn z1 Hz))).
  change (set_zbd z1 s1) with s1. rewrite (u32_small (e_length_ e)) by lia.
  set (t1 := mkFSt z1 f [] (o, s1) : FSt D L (nat * ZenFS D L A)).
  destruct (migrate_loop_fails loop_bound (e_start_ e) (e_length_ e) (Z.shiftl 128 10) z zn t1)
    as (z2 & Hmig & d2 & -> & Hd2); try done; try lia; [by left|].
  assert (on_obj o (MigrateData (e_start_ e) (e_length_ e) z) s1 = Ok tt (set_zbd (set_be d2 z1) s)) as Hobj.
  { unfold on_obj. cbn [objs set_zbd s1]. rewrite Ho. change (zbd_ s1) with z1. fold t1.
    unfold MigrateData. rewrite Hal. cbn [Z.eqb negb]. rewrite Hmig. unfold unpack. cbn. by rewrite insert_id. }
  rewrite bind_assoc. erewrite bind_ok by (apply attempt_ok; exact Hobj).
  set (z3 := set_gc_bytes_written (gc_bytes_written_ z1 +64 e_length_ e) (set_be d2 z1)).
  rewrite bind_assoc, (bind_ok _ _ _ tt (set_zbd z3 s)) by done. rewrite bind_ret_l.
  unfold bind at 1, GetFileNoLock, bind at 1, get, ret at 1. cbn [files_ set_zbd]. rewrite Hname.
  rewrite (bind_ok _ _ _ _ _ (on_device_ok (add_used z (e_length_ e)) (set_zbd z3 s) tt _
    (mod_zone_ok z _ zn z3 Hz))). set (zn4 := set_used_capacity _ zn).
  set (z4 := set_heap (<[z := zn4]> (zone_heap z3)) z3). set (z5 := set_migrating false z4).
  assert (zone_heap z5 !! z = Some zn4) as Hz5 by (cbn; apply lookup_insert_eq).
  assert (ReleaseMigrateZone (Some z) z4 = Ok tt (set_heap (<[z := set_busy false zn4]> (zone_heap z5)) z5)) as Hrel.
  { unfold ReleaseMigrateZone. unfold bind, modify. fold z5. by apply (CheckRelease_busy z zn4 z5 Hz5). }
  eexists _, _. split; [erewrite bind_ok by (apply on_device_ok; exact Hrel); done|].
  split; [exact Hd2|]. split; [cbn; apply lookup_insert_eq|done].
Qed.

(** The device of the example with writes that fail. *)
Definition be_broken : ZonedBlockDeviceBackend MemDev MemLog := {|
  block_sz_ := block_sz_ (ZonedBlockDeviceBackend := be2);
  zone_sz_ := zone_sz_ (ZonedBlockDeviceBackend := be2);
  nr_zones_ := nr_zones_ (ZonedBlockDeviceBackend := be2);
  loop_bound := loop_bound (ZonedBlockDeviceBackend := be2);
  be_Open := be_Open (ZonedBlockDeviceBackend := be2);
  be_ListZones := be_ListZones (ZonedBlockDeviceBackend := be2);
  be_Reset := be_Reset (ZonedBlockDeviceBackend := be2);
  be_Finish := be_Finish (ZonedBlockDeviceBackend := be2);
  be_Close := be_Close (ZonedBlockDeviceBackend := be2);
  be_Read := be_Read (ZonedBlockDeviceBackend := be2);
  be_Write := fun data pos d => (-1, "Input/output error", d);
  be_Append := be_Append (ZonedBlockDeviceBackend := be2);
  be_AppendSync := be_AppendSync (ZonedBlockDeviceBackend := be2);
  be_InvalidateCache := be_InvalidateCache (ZonedBlockDeviceBackend := be2);
  be_GetFilename := be_GetFilename (ZonedBlockDeviceBackend := be2)
|}.

Definition spec_broken : BackendSpec MemDev MemLog (be := be_broken).
Proof.
  refine {| disk := disk (BackendSpec := spec2) |}; try apply spec2; cbn.
  - intros data pos d r err d' [= <- <- <-]. lia.
  - by intros data pos d r err d' [= <- <- <-].
Defined.
Definition rel_broken : ReliableReads MemDev MemLog (be := be_broken).
Proof. split; apply rel2. Defined.

Definition fs4_taken : Zbd MemDev :=
  match TakeMigrateZone (be := be_broken) WLTH_NOT_SET 8 zbd4 with Ok _ z => z | _ => zbd4 end.

Lemma migration_ignores_errors_witness :
  exists zb zn', migrate_extent (be := be_broken) one_name 0 gc_exts (mkExtent 512 8 1) fs4
      = Ok (Some (mkExtent 1032 8 2)) (set_zbd zb fs4) /\
    (forall a, disk (BackendSpec := spec_broken) (zbd_be_ zb) a
             = disk (BackendSpec := spec_broken) (zbd_be_ fs4_taken) a) /\
    zone_heap zb !! 2%nat = Some zn' /\ wp_ zn' = 1032 /\ used_capacity_ zn' = 8 +64 8.
Proof.
  apply (migration_ignores_errors (spec := spec_broken) (rel := rel_broken) (szd := szd2) (aux := no_aux)
    one_name 0 moving_file gc_exts (mkExtent 512 8 1) fs4 2 (mkZone 1024 504 512 1032 WLTH_MEDIUM 8 true) fs4_taken).
  - intros data pos d. by eexists _, _, _.
  - reflexivity.
  - reflexivity.
  - by exists 0%nat.
  - reflexivity.
  - vm_compute. reflexivity.
  - vm_compute. reflexivity.
  - reflexivity.
  - unfold extent_readable. cbn. lia.
  - cbn. lia.
  - reflexivity.
  - reflexivity.
Defined.
